(* ===== verification/_CoqProject ===== *)
-Q . S2P
Prelude.v
DList.v
KState.v
Irql.v
SpinSmp.v
ThreadList.v
Schedule.v
Thread.v
SchedInv.v
SchedSwitch.v
SchedOps.v
Wait.v
WaitProofs.v
Dpc.v
Witness.v
Bytes.v
Alloc.v
KString.v
Hex.v
Uuid.v
Libc.v
Cmdline.v
Vfs.v
VfsProofs.v
Crc.v
Partition.v
PartitionProofs.v
Initrd.v
InitrdProofs.v
Pmm.v
PmmProofs.v
Gdb.v
Timer.v
TimerProofs.v
BasicAlloc.v
BasicAllocProofs.v
IrqObj.v
IrqProofs.v
Paging.v
PagingProofs.v
PagingOps.v
PagingUnmap.v
PagingFrames.v
BareMap.v
BareMapProofs.v
InitSwap.v
Vmm.v
VmFault.v
VmAlloc.v
VmSwap.v
VmFaultProofs.v
VmAllocProofs.v
VmReserve.v
VolCache.v
Fat.v
FatIo.v
FatProofs.v
FatFree.v
FatScan.v
FatRead.v
FatWitness.v
InitSwapProofs.v
UtilWitness.v
CoreWitness.v
IoWitness.v
AllocWitness.v
IrqWitness.v
PagingWitness.v
VmWitness.v
