(* ===== verification/Prelude.v ===== *)
(** * OBOS kernel: verification library

    OBOS is a hobby operating system; [src/src/oboskrnl] is its kernel,
    [src/src/drivers] its drivers.  This library is a shallow embedding of the
    kernel core and of the components around it, with the theorems that say
    what each of them does.

    ** The program and its model

    A C routine is a function [K S A]: from a state [S] it returns a value
    ([Ret]), gives the processor away in the middle and continues later
    ([Yielded], a context switch), or does not return ([Stop]: a panic, an access
    through a bad pointer, a loop that does not end).  Integers are [Z] kept at
    the width of their type by [wrap8 .. wrap64]; pointers are addresses, [0]
    the null pointer; objects are in finite maps by address, their embedded
    [next]/[prev] fields in a heap of links; [None] as a lookup result is an
    access to memory that is no such object.  The target is the 64-bit
    configuration with the debug assertions compiled in.

    Parts, with the sources below [src/src/oboskrnl] unless said otherwise:
    - [DList]: the intrusive lists of [utils/list.h];
    - [KState]: the machine and the objects of the core ([scheduler/thread.h],
      [scheduler/cpu_local.h], [irq/dpc.h], the headers of [locks]);
    - [Irql]: interrupt levels and spinlocks ([irq/irql.c],
      [locks/spinlock.c]); [SpinSmp]: a spinlock between several processors;
      [Dpc]: deferred procedure calls ([irq/dpc.c]);
    - [ThreadList], [Thread]: thread lists, threads and processes
      ([scheduler/thread.c], [scheduler/process.c]); [Schedule]: the scheduler
      ([scheduler/schedule.c]);
    - [Wait]: waitable objects, mutexes, semaphores, events ([locks]);
    - [Timer]: timer objects ([irq/timer.c]), on [Dpc] and [Irql];
    - [Pmm]: physical memory ([mm/pmm.c]), on [Irql], [ThreadList], [Thread];
    - [IrqObj]: IRQ objects, vectors and the interrupt dispatcher ([irq/irq.c],
      [arch/x86_64/idt.c]), on [Irql] and [Thread];
    - [Paging]: the page tables of the x86-64 port ([arch/x86_64/map.c]), on the
      physical memory manager;
    - [BareMap]: pages and address ranges of early boot ([mm/bare_map.c]);
      [InitSwap]: the swap device in a buffer ([arch/x86_64/initial_swap.c]);
    - [Vmm]: pages, contexts and swapping ([mm/swap.c], [mm/page.h],
      [mm/context.h]); [VmFault]: page faults, copy on write and page replacement
      ([mm/handler.c]); [VmAlloc]: finding, allocating, freeing and protecting
      ranges ([mm/alloc.c]); on [Paging], [InitSwap] and [Vfs];
    - [BasicAlloc]: the kernel's heap ([allocators/basic_allocator.c]), on
      [Irql] and [Bytes];
    - [Bytes]: byte memory and its routines ([arch/m68k/memmanip.c]); [Alloc]:
      the allocator interface ([allocators/base.h]); [Libc]: the uACPI string
      routines the sources call;
    - [KString], [Hex], [Uuid], [Cmdline]: strings, UUIDs and the command line
      ([utils/string.c], [utils/uuid.c], [cmdline.c]), on [Bytes] and [Alloc];
    - [Vfs]: file descriptors, page cache, mount point locks ([vfs/fd.c],
      [vfs/pagecache.c], part of [vfs/mount.c]);
    - [Crc], [Partition]: checksums and partition tables ([gpt.c], [mbr.c],
      the first half of [partition.c]), on [Vfs];
    - [Initrd]: the initial ramdisk driver ([src/src/drivers/generic/initrd]);
    - [Fat]: the allocation table and the free clusters of the FAT driver
      ([src/src/drivers/generic/slowfat/cls_alloc.c]), on [Vfs]; [FatIo]: its files
      ([io.c]) and the tree of directory entries, on [Fat];
    - [Gdb]: connection and dispatcher of the GDB stub
      ([arch/x86_64/gdbstub/connection.c], [packet_dispatcher.c]).

    Definitions have the names of the C functions.  A C loop is a Fixpoint named
    after its function or purpose.

    ** Interfaces

    Code outside the repository, and hardware, is reached through classes, with
    its documented behaviour as named hypotheses of the theorems that need it:
    [DpcHandlers] (function pointers of DPC objects) with [handlers_ok], [Allocator] and
    [AllocatorSpec] (met by [Bump]), [UacpiLibc] and [UacpiLibcSpec] (met by
    [Ref]), [VfsEnv] with [disk_env], [PartEnv] with [alloc_env], [Hashmap] with
    [hashmap_ok], [Pipe] with [pipe_ok], [TimerHw], [IrqEnv],
    [PageSource] with [page_source_ok] and [page_sink_ok].  Where one component
    of the kernel uses another, the class states what it relies on: the page
    tables are verified against [PagingEnv] with the laws [FrameLaws], and
    [PagingFrames] proves that the physical memory manager of [Pmm] meets them;
    swapping is verified against [SwapOps] with the laws [SwapLaws], and
    [InitSwapProofs] proves that the initial swap device meets them.  The memory
    manager reaches the file layer through [FileLayer] and its allocator through
    [VmHeap] with [HeapLaws]; the buffer of early boot is [BumpBuffer].  The FAT
    driver allocates through [FatAlloc] with [FatAllocLaws], has its locks from
    [FatLocks] with [FatLockLaws], and uses the file layer
    as [VolCache] specifies it: blocks read and written through the page cache.
    [UtilWitness], [CoreWitness], [IoWitness], [AllocWitness], [IrqWitness],
    [PagingWitness], [VmWitness] and [FatWitness] have an instance of each and apply the theorems to it;
    [Witness] is a concrete machine for the core.

    ** What the theorems show

    - Lists: the list macros refine operations on mathematical lists.
    - Levels and locks: raising and lowering is a round trip, misuse panics; a
      critical section is transparent; between several processors ([SpinSmp]) at
      most one has the lock, and whoever spins can still get it; the fields that
      are written after the flag is cleared are not protected.
    - Threads and scheduler ([SchedInv], [SchedSwitch], [SchedOps]): the
      run-queue invariant holds in every state reachable by the thread
      operations, which are total; the scheduler switches to a thread of its own
      queues and keeps the invariant.
    - Waiting ([WaitProofs]): waiting blocks, signaling wakes exactly the
      waiters; mutexes, semaphores and events.
    - Deferred calls and timers ([Dpc], [TimerProofs]): queueing; dispatching runs
      what is queued once and in order, whatever the handlers queue meanwhile;
      starting and cancelling; the range of the tick conversion.
    - Physical memory ([PmmProofs]): what is allocated was free and is not any
      more, is aligned and is disjoint from all that stays free; freeing.
    - Interrupts ([IrqProofs]): the dispatcher calls the handler of the object the
      interrupt belongs to, at the vector's level, and restores level and context,
      running the deferred calls the handler has queued;
      registering and freeing is a round trip; a level with no usable vector makes
      the search run forever; freeing a refused object panics.
    - Page tables ([PagingProofs], [PagingOps], [PagingUnmap]): the tables are a
      tree that [walk], the translation of the processor, reads as an address
      space; mapping changes it at exactly one page (4 KiB or 2 MiB) with the
      rights asked for, unmapping removes exactly that page and releases the empty
      tables of the two lowest levels, cached translations stay coherent, and what
      is set is what a query returns.
    - Early memory ([BareMapProofs]): the blocks of the boot buffer are disjoint
      and never reused; registered ranges stay ordered.
    - Virtual memory ([InitSwapProofs], [VmSwap], [VmFaultProofs],
      [VmAllocProofs], [VmReserve]): the blocks of the swap buffer are disjoint and
      keep what is written to them; a page swapped out and in again holds what it
      held, at the same address with the same rights; a fault on a page that is
      out brings it in, a fault no page answers is refused; a range that is found is
      free, a range in use is refused, and reserving adds exactly its pages.
    - The heap ([BasicAllocProofs]): blocks in use are mapped, disjoint from
      each other, from free memory and from all headers; allocating adds exactly
      one and freeing removes exactly one, and nothing else changes.  Headers are
      kept in maps of their own, apart from the bytes of blocks.
    - Utilities: appending to a string is concatenation in all storage cases;
      the UUID round trip; option lookup and splitting refine list functions;
      the table-driven CRC equals the bitwise one.
    - Files and partitions ([VfsProofs], [PartitionProofs]): consecutive reads,
      opening and closing, the boot record's partitions lie within the drive,
      the GPT scan; the ramdisk's lookup and reads ([InitrdProofs]); the GDB
      framing is a round trip and retries on bad checksums.
    - FAT volumes ([VolCache], [FatProofs], [FatFree], [FatScan], [FatRead]), for FAT16
      and FAT32: the scan of the table finds exactly the free clusters; an allocated run
      was free and becomes a chain in every copy of the table, and nothing else
      changes; allocating and freeing is a round trip; a read inside a cluster delivers
      the bytes of the file (and reports that it read none).
    Where the code does not do what it means to, the theorem says what it does.

    ** Fuel

    Loops over lists run with the number of links in the heap as fuel, loops
    over strings with the number of mapped bytes, loops with a bound in the
    source with that bound; the theorems show that a well-formed list or string
    ends before, so [Hang] is not reached.  Loops over the pages of a range have one
    step per page and one for the end; placing a range has two attempts, as in the
    source, and a page fault takes the number of times it waits for memory as an
    argument; following a chain of clusters takes the number of rounds, since a
    chain on a volume can be a cycle.  The GDB receiver takes the number of
    refused packets and the length of a packet as arguments.

    ** Not modelled

    Interleaving of several processors inside a routine (each runs between its
    yields as one step), except for the spinlock of [SpinSmp]; entry code, interrupt controllers and the m68k port
    (privileged instructions); of the page tables the interrupt that invalidates
    an entry on other processors and the mapping of the kernel image; of the virtual
    memory manager the set-up, the list of pages that must stay in memory and the
    swap file on a disk ([mm/init.c], [mm/context.c], [mm/disk_swap.c]: linker
    symbols, and a driver that is not complete in the source); directory entries and
    mounting (worker threads over device callbacks), the directories and names of
    the FAT driver, and the GDB packet handlers (formatted text); AHCI and UART
    drivers (device registers); driver loading; uACPI glue; logging; and the
    vendored hash table, trees, printf and fixed-point code. *)

From stdpp Require Export base gmap list.
From Stdlib Require Export ZArith Lia.
Global Open Scope Z_scope.

#[global] Set Default Proof Using "Type".

(** ** Record update

    [r <| f := v |>] is the C assignment [r.f = v] on a copy of [r], and
    [r <| f ::= g |>] applies [g] to the field.  A record opts in with its
    eta-expansion ([Etable]); the setter of a field is derived from it. *)

Class Etable (R : Type) := eta_expand : R → R.
Class Setter {R E : Type} (proj : R → E) := set_field : (E → E) → R → R.
Arguments set_field {R E} proj {_} f r /.

Ltac derive_setter :=
  match goal with
  | |- @Setter ?R ?E ?proj =>
      let inst := constr:(_ : Etable R) in
      let e := eval hnf in inst in
      let p := eval pattern proj in e in
      match p with
      | ?g _ => let t := eval cbv beta in (fun (f : E → E) => g (fun r => f (proj r))) in
                exact t
      end
  end.
#[export] Hint Extern 1 (Setter _) => derive_setter : typeclass_instances.

Declare Scope record_scope.
Notation "r <| f := v |>" := (set_field f (λ _, v) r)
  (at level 1, f at level 10, left associativity, format "r  <| f  :=  v |>") : record_scope.
Notation "r <| f ::= g |>" := (set_field f g r)
  (at level 1, f at level 10, left associativity, format "r  <| f  ::=  g |>") : record_scope.
Global Open Scope record_scope.

(** ** Machine integers and pointers

    A [w]-bit unsigned integer of the source is a [Z] in [0 <= x < 2^w]; every
    operation of the source that can leave the range is followed by [wrap w].
    A pointer is the [Z] of its address, the null pointer being [0]. *)

Abbreviation nullptr := 0 (only parsing).

Definition wrap (w x : Z) : Z := x mod 2 ^ w.
Abbreviation wrap8 := (wrap 8).
Abbreviation wrap16 := (wrap 16).
Abbreviation wrap32 := (wrap 32).
Abbreviation wrap64 := (wrap 64).

Definition in_u (w x : Z) : Prop := 0 <= x < 2 ^ w.

(** The value of a [w]-bit word read as a two's complement signed integer. *)
Definition signed (w x : Z) : Z := if x <? 2 ^ (w - 1) then x else x - 2 ^ w.

Definition SIZE_MAX : Z := 2 ^ 64 - 1.

Definition OBOS_PAGE_SIZE : Z := 4096.
Definition OBOS_KERNEL_ADDRESS_SPACE_BASE : Z := 0xffffff0000000000.

(** C's truth value of a scalar, and of a bit test [x & m]. *)
Definition truthy (x : Z) : bool := negb (x =? 0).
Definition has_flag (x m : Z) : bool := truthy (Z.land x m).

(** [__builtin_popcount], whose argument is an [unsigned int]. *)
Fixpoint pos_popcount (p : positive) : Z :=
  match p with xH => 1 | xO p => pos_popcount p | xI p => 1 + pos_popcount p end.
Definition popcount32 (x : Z) : Z := match wrap32 x with Zpos p => pos_popcount p | _ => 0 end.

Lemma wrap_small w x : in_u w x → wrap w x = x.
Proof. intros H. apply Z.mod_small. exact H. Qed.

Lemma wrap_range w x : 0 <= w → in_u w (wrap w x).
Proof. intros H. apply Z.mod_pos_bound. lia. Qed.

Lemma wrap_wrap w x : wrap w (wrap w x) = wrap w x.
Proof. apply Zmod_mod. Qed.

Lemma truthy_false x : truthy x = false ↔ x = 0.
Proof. unfold truthy. destruct (Z.eqb_spec x 0); simpl; naive_solver. Qed.

Lemma truthy_true x : truthy x = true ↔ x ≠ 0.
Proof. unfold truthy. destruct (Z.eqb_spec x 0); simpl; naive_solver. Qed.

(** ** Status codes ([oboskrnl/error.h]) *)

Inductive obos_status :=
| OBOS_STATUS_SUCCESS
| OBOS_STATUS_INVALID_IRQL
| OBOS_STATUS_INVALID_ARGUMENT
| OBOS_STATUS_UNIMPLEMENTED
| OBOS_STATUS_INVALID_INIT_PHASE
| OBOS_STATUS_INVALID_AFFINITY
| OBOS_STATUS_NOT_ENOUGH_MEMORY
| OBOS_STATUS_MISMATCH
| OBOS_STATUS_INTERNAL_ERROR
| OBOS_STATUS_RETRY
| OBOS_STATUS_ALREADY_INITIALIZED
| OBOS_STATUS_NOT_FOUND
| OBOS_STATUS_IN_USE
| OBOS_STATUS_ACCESS_DENIED
| OBOS_STATUS_UNINITIALIZED
| OBOS_STATUS_UNHANDLED
| OBOS_STATUS_UNPAGED_POOL
| OBOS_STATUS_INVALID_FILE
| OBOS_STATUS_INVALID_HEADER
| OBOS_STATUS_DRIVER_REFERENCED_UNRESOLVED_SYMBOL
| OBOS_STATUS_DRIVER_SYMBOL_MISMATCH
| OBOS_STATUS_NO_ENTRY_POINT
| OBOS_STATUS_INVALID_IOCTL
| OBOS_STATUS_INVALID_OPERATION
| OBOS_STATUS_DPC_ALREADY_ENQUEUED
| OBOS_STATUS_RECURSIVE_LOCK
| OBOS_STATUS_READ_ONLY
| OBOS_STATUS_NOT_A_FILE
| OBOS_STATUS_ALREADY_MOUNTED
| OBOS_STATUS_EOF
| OBOS_STATUS_ABORTED.

#[global] Instance obos_status_eq_dec : EqDecision obos_status.
Proof. solve_decision. Defined.

Definition obos_is_success (status : obos_status) : bool :=
  bool_decide (status = OBOS_STATUS_SUCCESS).
Definition obos_is_error (status : obos_status) : bool :=
  negb (obos_is_success status).

(** ** Kernel computations

    A kernel routine over a state [S] is a function from the state to a
    result.  It returns a value and a new state, or it stops the machine
    ([Panic]: [OBOS_Panic] or a failed [OBOS_ASSERT]; [BadDeref]: an access
    through a null or dangling pointer; [Hang]: a spin on a lock that is held,
    or a loop that exhausts its fuel; [NoReturn]: a control path that does not
    come back to its caller), or it gives the processor away: [Yielded s k] is
    the state at the context switch and the continuation that runs when the
    thread is resumed in a later state. *)

Inductive stop_reason := Panic | BadDeref | Hang | NoReturn.

Inductive res (S A : Type) :=
| Ret (a : A) (s : S)
| Stop (f : stop_reason)
| Yielded (s : S) (k : S → res S A).
Arguments Ret {S A} a s.
Arguments Stop {S A} f.
Arguments Yielded {S A} s k.

Definition K (S A : Type) : Type := S → res S A.

Fixpoint res_bind {S A B} (f : A → S → res S B) (r : res S A) : res S B :=
  match r with
  | Ret a s => f a s
  | Stop e => Stop e
  | Yielded s k => Yielded s (λ s', res_bind f (k s'))
  end.

#[global] Instance K_ret {S} : MRet (K S) := λ A a s, Ret a s.
#[global] Instance K_bind {S} : MBind (K S) := λ A B f m s, res_bind f (m s).

Section prims.
Context {S : Type}.

Definition stop {A} (f : stop_reason) : K S A := λ _, Stop f.
Definition gets {A} (f : S → A) : K S A := λ s, Ret (f s) s.
Definition modify (f : S → S) : K S () := λ s, Ret () (f s).
Definition OBOS_ASSERT (b : bool) : K S () := if b then mret () else stop Panic.

(** Reading and writing through a pointer: both need the object to exist. *)
Definition load `{Countable P} {V} (m : S → gmap P V) (p : P) : K S V :=
  λ s, match m s !! p with Some v => Ret v s | None => Stop BadDeref end.
Definition store `{Countable P} {V} (m : S → gmap P V)
  (set : gmap P V → S → S) (p : P) (f : V → V) : K S () :=
  λ s, match m s !! p with
       | Some v => Ret () (set (<[p := f v]> (m s)) s)
       | None => Stop BadDeref
       end.

Definition deref_opt {A} (o : option A) : K S A :=
  match o with Some a => mret a | None => stop BadDeref end.

Definition when (b : bool) (m : K S ()) : K S () := if b then m else mret ().

(** A context switch: the state is handed over, the caller resumes later. *)
Definition yield_cpu : K S () := λ s, Yielded s (λ s', Ret () s').
End prims.

(** Running a routine of a sub-component: [get]/[set] select its state. *)
Fixpoint zoom_res {S T A} (get : S → T) (set : T → S → S) (s : S) (r : res T A)
  : res S A :=
  match r with
  | Ret a t => Ret a (set t s)
  | Stop e => Stop e
  | Yielded t k => Yielded (set t s) (λ s', zoom_res get set s' (k (get s')))
  end.
Definition zoom {S T A} (get : S → T) (set : T → S → S) (m : K T A) : K S A :=
  λ s, zoom_res get set s (m (get s)).

(** Monad laws, pointwise. *)
Lemma bind_ret_l {S A B} (a : A) (f : A → K S B) s : (mret a ≫= f) s = f a s.
Proof. reflexivity. Qed.

Lemma bind_Ret {S A B} (m : K S A) (f : A → K S B) s a s' :
  m s = Ret a s' → (m ≫= f) s = f a s'.
Proof. intros H. unfold mbind, K_bind. by rewrite H. Qed.

Lemma bind_Yielded {S A B} (m : K S A) (f : A → K S B) s s' k :
  m s = Yielded s' k → (m ≫= f) s = Yielded s' (λ s'', res_bind f (k s'')).
Proof. intros H. unfold mbind, K_bind. by rewrite H. Qed.

Lemma bind_Stop {S A B} (m : K S A) (f : A → K S B) s e :
  m s = Stop e → (m ≫= f) s = Stop e.
Proof. intros H. unfold mbind, K_bind. by rewrite H. Qed.

Lemma bind_Ret_inv {S A B} (m : K S A) (f : A → K S B) s b s' :
  (m ≫= f) s = Ret b s' → ∃ a s1, m s = Ret a s1 ∧ f a s1 = Ret b s'.
Proof. unfold mbind, K_bind. destruct (m s); naive_solver. Qed.

Lemma load_eq {S} `{Countable P} {V} (m : S → gmap P V) p s v :
  m s !! p = Some v → load m p s = Ret v s.
Proof. intros Hv. unfold load. by rewrite Hv. Qed.

Lemma store_eq {S} `{Countable P} {V} (m : S → gmap P V) set p f s v :
  m s !! p = Some v → store m set p f s = Ret () (set (<[p := f v]> (m s)) s).
Proof. intros Hv. unfold store. by rewrite Hv. Qed.

(** ** Total-correctness specifications

    [runs m s Q]: started in [s], the routine [m] returns (it does not stop the
    machine and does not give the processor away) and [Q] holds of the value
    and the final state.  *)

Definition runs {S A} (m : K S A) (s : S) (Q : A → S → Prop) : Prop :=
  ∃ a s', m s = Ret a s' ∧ Q a s'.

Lemma runs_bind {S A B} (m : K S A) (f : A → K S B) s Q :
  runs m s (λ a s', runs (f a) s' Q) → runs (m ≫= f) s Q.
Proof.
  intros (a & s' & Hm & b & s'' & Hf & HQ).
  exists b, s''. by rewrite (bind_Ret _ _ _ _ _ Hm).
Qed.

Lemma runs_mono {S A} (m : K S A) s (Q Q' : A → S → Prop) :
  runs m s Q → (∀ a s', Q a s' → Q' a s') → runs m s Q'.
Proof. intros (a & s' & ? & ?) HQ. exists a, s'. auto. Qed.

Lemma runs_Ret {S A} (m : K S A) s a s' (Q : A → S → Prop) :
  m s = Ret a s' → Q a s' → runs m s Q.
Proof. intros ? ?. by exists a, s'. Qed.

(** ** Tactics

    [krun] executes the statements of a routine one after the other: the
    equation of each comes from the [krun] hint database, whose lemmas have the
    form [m s = Ret a s'] under conditions on [s]. *)

Create HintDb obos.
Create HintDb krun.
#[export] Hint Resolve runs_Ret : obos.

Lemma gets_eq {S A} (f : S → A) s : gets f s = Ret (f s) s.
Proof. reflexivity. Qed.
Lemma modify_eq {S} (f : S → S) s : modify f s = Ret () (f s).
Proof. reflexivity. Qed.
Lemma mret_eq {S A} (a : A) (s : S) : (mret a : K S A) s = Ret a s.
Proof. reflexivity. Qed.
Lemma assert_eq {S} (b : bool) (s : S) : b = true → OBOS_ASSERT b s = Ret () s.
Proof. by intros ->. Qed.
Lemma deref_opt_eq {S A} (o : option A) a (s : S) : o = Some a → deref_opt o s = Ret a s.
Proof. by intros ->. Qed.
Lemma when_false {S} (m : K S ()) b s : b = false → when b m s = Ret () s.
Proof. by intros ->. Qed.
Lemma when_true {S} (m : K S ()) b s : b = true → when b m s = m s.
Proof. by intros ->. Qed.
#[export] Hint Resolve gets_eq modify_eq mret_eq assert_eq load_eq store_eq deref_opt_eq
  when_false : krun.

Ltac kstep := erewrite bind_Ret; [| solve [eauto 4 with krun]]; cbv beta; simpl.
Ltac krun := repeat kstep.
Tactic Notation "kstep" "with" uconstr(lem) :=
  erewrite bind_Ret; [| eapply lem; eauto with krun]; cbv beta; simpl.

(** ** Lists *)

Lemma last_cons_default {A} (d x : A) xs :
  default d (last (x :: xs)) = default x (last xs).
Proof. rewrite last_cons. by destruct (last xs). Qed.

Lemma hd_app_default {A} (d : A) xs ys :
  default d (head (xs ++ ys)) = default (default d (head ys)) (head xs).
Proof. by destruct xs. Qed.

Lemma last_app_default {A} (d : A) xs ys :
  default d (last (xs ++ ys)) = default (default d (last xs)) (last ys).
Proof. rewrite last_app. by destruct (last ys). Qed.

Lemma filter_ne_id (o : Z) (l : list Z) : o ∉ l → filter (λ p, p ≠ o) l = l.
Proof.
  induction l as [|p l IH]; intros Hl; [done|]. rewrite filter_cons_True by set_solver. f_equal. apply IH. set_solver.
Qed.

Lemma NoDup_split_unique {A} (x : A) l1 l2 m1 m2 :
  NoDup (l1 ++ x :: l2) → l1 ++ x :: l2 = m1 ++ x :: m2 → l1 = m1 ∧ l2 = m2.
Proof.
  revert m1. induction l1 as [|y l1 IH]; intros [|z m1] Hnd Heq.
  - by injection Heq as ->.
  - injection Heq as -> ->. apply NoDup_cons in Hnd as [Hx _]. set_solver.
  - injection Heq as -> <-. apply NoDup_cons in Hnd as [Hx _]. set_solver.
  - injection Heq as -> Heq. apply NoDup_cons in Hnd as [_ Hnd].
    by destruct (IH _ Hnd Heq) as [-> ->].
Qed.
