(* ===== verification/DList.v ===== *)
(** * Intrusive doubly linked lists ([utils/list.h])

    The kernel links its objects through [next]/[prev] fields stored in the
    objects themselves.  The link fields of all the objects of one type form a
    heap from addresses to [dlink]; a list is the struct of [LIST_HEAD].  The
    macros of [list.h] and the hand-written variants of the same idiom (thread
    lists, timers, physical memory nodes, interrupt vectors) are defined over
    this heap, access by access; [None] is an access through a dangling
    pointer.  [dl_rep] relates a list in the heap to the mathematical list of
    its nodes, and the operations are proved to refine the list operations. *)

From S2P Require Import Prelude.

Record dlink := mkLink { dl_next : Z; dl_prev : Z }.
Record dlist := mkList { dl_head : Z; dl_tail : Z; dl_nNodes : Z }.
#[export] Instance eta_dlink : Etable dlink := λ r, mkLink (dl_next r) (dl_prev r).
#[export] Instance eta_dlist : Etable dlist :=
  λ r, mkList (dl_head r) (dl_tail r) (dl_nNodes r).

Abbreviation lheap := (gmap Z dlink).

Definition empty_list : dlist := mkList 0 0 0.
Definition unlinked : dlink := mkLink 0 0.

(** [p->field.next = v] and [p->field.prev = v]. *)
Definition set_next (h : lheap) (p v : Z) : option lheap :=
  l ← h !! p; Some (<[p := l <| dl_next := v |>]> h).
Definition set_prev (h : lheap) (p v : Z) : option lheap :=
  l ← h !! p; Some (<[p := l <| dl_prev := v |>]> h).

Definition opt_when {A} (b : bool) (f : A → option A) (a : A) : option A :=
  if b then f a else Some a.

(** ** The macros of [list.h] *)

(** [name##_LIST_APPEND]. *)
Definition LIST_APPEND (h : lheap) (l : dlist) (what : Z) : option (lheap * dlist) :=
  h ← set_next h what nullptr;
  h ← set_prev h what nullptr;
  h ← opt_when (truthy (dl_tail l)) (λ h, set_next h (dl_tail l) what) h;
  let l := if truthy (dl_head l) then l else l <| dl_head := what |> in
  h ← set_prev h what (dl_tail l);
  let l := l <| dl_tail := what |> in
  Some (h, l <| dl_nNodes := wrap64 (dl_nNodes l + 1) |>).

(** [name##_LIST_PREPEND]. *)
Definition LIST_PREPEND (h : lheap) (l : dlist) (what : Z) : option (lheap * dlist) :=
  h ← set_next h what nullptr;
  h ← set_prev h what nullptr;
  h ← opt_when (truthy (dl_head l)) (λ h, set_prev h (dl_head l) what) h;
  let l := if truthy (dl_tail l) then l else l <| dl_tail := what |> in
  h ← set_next h what (dl_head l);
  let l := l <| dl_head := what |> in
  Some (h, l <| dl_nNodes := wrap64 (dl_nNodes l + 1) |>).

(** [name##_LIST_REMOVE]. *)
Definition LIST_REMOVE (h : lheap) (l : dlist) (what : Z) : option (lheap * dlist) :=
  w ← h !! what;
  let l := if dl_tail l =? what then l <| dl_tail := dl_prev w |> else l in
  let l := if dl_head l =? what then l <| dl_head := dl_next w |> else l in
  h ← opt_when (truthy (dl_prev w)) (λ h, set_next h (dl_prev w) (dl_next w)) h;
  w ← h !! what;
  h ← opt_when (truthy (dl_next w)) (λ h, set_prev h (dl_next w) (dl_prev w)) h;
  let l := l <| dl_nNodes := wrap64 (dl_nNodes l - 1) |> in
  h ← set_next h what nullptr;
  h ← set_prev h what nullptr;
  Some (h, l).

Definition LIST_GET_NEXT (h : lheap) (what : Z) : option Z := dl_next <$> h !! what.
Definition LIST_GET_PREV (h : lheap) (what : Z) : option Z := dl_prev <$> h !! what.

(** [LIST_IS_NODE_UNLINKED]. *)
Definition LIST_IS_NODE_UNLINKED (h : lheap) (l : dlist) (node : Z) : option bool :=
  if dl_head l =? node then Some false
  else
    n ← LIST_GET_NEXT h node;
    if truthy n then Some false
    else p ← LIST_GET_PREV h node; Some (negb (truthy p)).

(** ** The hand-written idioms

    Linking at the tail without resetting the node's own [next] (used by
    [CoreH_ThreadListAppend], the timer list, the physical memory manager and
    the interrupt vectors), and unlinking. *)

Definition link_tail (h : lheap) (l : dlist) (node : Z) : option (lheap * dlist) :=
  h ← opt_when (truthy (dl_tail l)) (λ h, set_next h (dl_tail l) node) h;
  let l := if truthy (dl_head l) then l else l <| dl_head := node |> in
  h ← set_prev h node (dl_tail l);
  Some (h, l <| dl_tail := node |>).

Definition unlink (h : lheap) (l : dlist) (node : Z) : option (lheap * dlist) :=
  w ← h !! node;
  h ← opt_when (truthy (dl_next w)) (λ h, set_prev h (dl_next w) (dl_prev w)) h;
  w ← h !! node;
  h ← opt_when (truthy (dl_prev w)) (λ h, set_next h (dl_prev w) (dl_next w)) h;
  w ← h !! node;
  let l := if dl_head l =? node then l <| dl_head := dl_next w |> else l in
  let l := if dl_tail l =? node then l <| dl_tail := dl_prev w |> else l in
  Some (h, l).

(** Following [next] from a node: the nodes met, or [None] when a pointer
    dangles or the walk is longer than the fuel. *)
Fixpoint walk (fuel : nat) (h : lheap) (p : Z) : option (list Z) :=
  if p =? 0 then Some []
  else match fuel with
       | O => None
       | S fuel => w ← h !! p; (p ::.) <$> walk fuel h (dl_next w)
       end.

(** ** Representation *)

(** The nodes [xs] are chained, with [p] before the first and [n] after the
    last. *)
Fixpoint seg (h : lheap) (p : Z) (xs : list Z) (n : Z) : Prop :=
  match xs with
  | [] => True
  | x :: xs' => h !! x = Some (mkLink (default n (head xs')) p) ∧ seg h x xs' n
  end.

Record dl_rep (h : lheap) (l : dlist) (xs : list Z) : Prop := {
  rep_nodup : NoDup xs;
  rep_nonnull : 0 ∉ xs;
  rep_head : dl_head l = default 0 (head xs);
  rep_tail : dl_tail l = default 0 (last xs);
  rep_count : dl_nNodes l = Z.of_nat (length xs);
  rep_seg : seg h 0 xs 0
}.

(** Two heaps with the same objects that agree outside [ps]. *)
Definition links_frame (ps : list Z) (h h' : lheap) : Prop :=
  (∀ y, y ∉ ps → h' !! y = h !! y) ∧ dom h' = dom h.

Lemma seg_app h p xs ys n :
  seg h p (xs ++ ys) n ↔
  seg h p xs (default n (head ys)) ∧ seg h (default p (last xs)) ys n.
Proof.
  revert p. induction xs as [|x xs IH]; intros p; cbn [seg app]; [simpl; tauto|].
  rewrite IH, hd_app_default, last_cons_default. tauto.
Qed.

Lemma seg_frame h h' p xs n :
  (∀ y, y ∈ xs → h' !! y = h !! y) → seg h p xs n → seg h' p xs n.
Proof.
  revert p. induction xs as [|x xs IH]; intros p Hag; simpl; [done|].
  intros [Hx Hs]. split; [rewrite Hag by set_solver; done|].
  apply IH; [|done]. intros y Hy. apply Hag. set_solver.
Qed.

Lemma seg_elem h p xs n x :
  seg h p xs n → x ∈ xs → is_Some (h !! x).
Proof.
  revert p. induction xs as [|y xs IH]; intros p; simpl; [set_solver|].
  intros [Hy Hs] [->|Hx]%elem_of_cons; eauto.
Qed.

(** A list is not affected by changes to nodes that are not its own. *)
Lemma dl_rep_frame h h' l xs :
  (∀ y, y ∈ xs → h' !! y = h !! y) → dl_rep h l xs → dl_rep h' l xs.
Proof. intros Hag []. split; try done. by eapply seg_frame. Qed.

Lemma links_frame_rep ps h h' l xs :
  links_frame ps h h' → (∀ y, y ∈ xs → y ∉ ps) → dl_rep h l xs → dl_rep h' l xs.
Proof. intros [Hf _] Hd. apply dl_rep_frame. eauto. Qed.

Lemma dl_rep_elem h l xs x : dl_rep h l xs → x ∈ xs → is_Some (h !! x).
Proof. intros [] ?. by eapply seg_elem. Qed.

Lemma dl_rep_empty h : dl_rep h empty_list [].
Proof. split; simpl; try done; [constructor | set_solver]. Qed.

Lemma set_next_eq h p v l :
  h !! p = Some l → set_next h p v = Some (<[p := mkLink v (dl_prev l)]> h).
Proof. intros Hp. unfold set_next. by rewrite Hp. Qed.
Lemma set_prev_eq h p v l :
  h !! p = Some l → set_prev h p v = Some (<[p := mkLink (dl_next l) v]> h).
Proof. intros Hp. unfold set_prev. by rewrite Hp. Qed.

Lemma truthy_nz x : x ≠ 0 → truthy x = true.
Proof. apply truthy_true. Qed.
Lemma truthy_0 : truthy 0 = false.
Proof. done. Qed.

Lemma dom_insert_is_Some (h : lheap) p v :
  is_Some (h !! p) → dom (<[p := v]> h) = dom h.
Proof. intros Hp. apply dom_insert_lookup_L. done. Qed.

Lemma links_frame_refl ps h : links_frame ps h h.
Proof. by split. Qed.

Lemma links_frame_insert ps h h' p v :
  p ∈ ps → is_Some (h' !! p) → links_frame ps h h' → links_frame ps h (<[p := v]> h').
Proof.
  intros Hp Hs [Hf Hd]. split.
  - intros y Hy. rewrite lookup_insert_ne by set_solver. auto.
  - rewrite dom_insert_is_Some by done. done.
Qed.

Lemma links_frame_trans ps h1 h2 h3 :
  links_frame ps h1 h2 → links_frame ps h2 h3 → links_frame ps h1 h3.
Proof. intros [H1 D1] [H2 D2]. split; [|congruence]. intros y Hy. by rewrite H2, H1. Qed.

Lemma links_frame_weaken ps qs h1 h2 :
  (∀ y, y ∈ ps → y ∈ qs) → links_frame ps h1 h2 → links_frame qs h1 h2.
Proof. intros Hin [H1 D1]. split; [|done]. intros y Hy. apply H1. naive_solver. Qed.

(** Solve the side conditions on lookups in a heap that was just updated. *)
Ltac heap_lookup :=
  repeat first
    [ rewrite lookup_insert_eq
    | rewrite lookup_insert_ne by (congruence || set_solver) ];
  try done.

Ltac solve_frame :=
  lazymatch goal with
  | |- links_frame _ ?h ?h => apply links_frame_refl
  | |- links_frame _ _ (<[_ := _]> _) =>
      apply links_frame_insert; [set_solver | heap_lookup; eauto | solve_frame]
  end.

(** The final heap of linking [x] after the last of [ys ++ [t]]. *)
Lemma seg_snoc h ys t x :
  seg h 0 (ys ++ [t]) 0 → NoDup (ys ++ [t]) → x ∉ ys ++ [t] →
  ∀ h', (∀ y, y ∈ ys → h' !! y = h !! y) →
    h' !! t = Some (mkLink x (default 0 (last ys))) →
    h' !! x = Some (mkLink 0 t) →
    seg h' 0 ((ys ++ [t]) ++ [x]) 0.
Proof.
  intros Hs Hnd Hx h' Hag Ht Hx'.
  rewrite seg_app in Hs. destruct Hs as [Hs [Hts _]].
  rewrite !seg_app, last_app_default. simpl. repeat split; try done.
  eapply seg_frame; [|exact Hs]. done.
Qed.

Lemma NoDup_snoc {A} (xs : list A) x : NoDup xs → x ∉ xs → NoDup (xs ++ [x]).
Proof.
  intros. apply NoDup_app. split; [done|]. split; [|apply NoDup_singleton].
  set_solver.
Qed.

Lemma hd_snoc_default {A} (d d' : A) ys t :
  default d (head (ys ++ [t])) = default d' (head (ys ++ [t])).
Proof. by destruct ys. Qed.

(** Linking at the tail refines appending, provided the node's own [next] is
    null. *)
Lemma link_tail_spec h l xs x lk :
  dl_rep h l xs → x ∉ xs → x ≠ 0 → h !! x = Some lk → dl_next lk = 0 →
  ∃ h', link_tail h l x = Some (h', l <| dl_head := default x (head xs) |> <| dl_tail := x |>) ∧
    seg h' 0 (xs ++ [x]) 0 ∧ links_frame (x :: xs) h h'.
Proof.
  intros [Hnd Hnn Hh Ht Hc Hs] Hx Hx0 Hlk Hn. unfold link_tail.
  destruct xs as [|t ys _] using rev_ind.
  - rewrite Hh, Ht. simpl. rewrite (set_prev_eq _ _ _ _ Hlk). simpl.
    eexists. split; [reflexivity|]. rewrite Hn. split.
    + simpl. rewrite lookup_insert_eq. rewrite Ht. simpl. auto.
    + solve_frame.
  - rewrite last_snoc in Ht. simpl in Ht.
    assert (t ≠ 0) as Ht0 by set_solver.
    assert (dl_head l ≠ 0) as Hh0.
    { rewrite Hh. destruct ys; simpl; set_solver. }
    assert (h !! t = Some (mkLink 0 (default 0 (last ys)))) as Htl.
    { apply seg_app in Hs as [_ [? _]]. done. }
    rewrite Ht, !(truthy_nz _ Ht0), (truthy_nz _ Hh0). simpl.
    rewrite (set_next_eq _ _ _ _ Htl). simpl.
    assert (t ≠ x) by set_solver.
    rewrite (set_prev_eq _ _ _ lk) by heap_lookup. simpl. rewrite Hn.
    eexists. split.
    { rewrite Ht, Hh, (hd_snoc_default 0 x). reflexivity. }
    split.
    + eapply seg_snoc; try done; [|heap_lookup|heap_lookup].
      intros y Hy. apply NoDup_app in Hnd as (? & Hd & ?).
      assert (y ≠ t) by (intros ->; eapply Hd; set_solver).
      assert (y ≠ x) by set_solver. heap_lookup.
    + solve_frame.
Qed.

Lemma rep_of_link_tail h' (l : dlist) xs x n h :
  dl_rep h l xs → x ∉ xs → x ≠ 0 → seg h' 0 (xs ++ [x]) 0 →
  n = Z.of_nat (length xs) + 1 →
  dl_rep h' (mkList (default x (head xs)) x n) (xs ++ [x]).
Proof.
  intros [Hnd Hnn _ _ _ _] Hx Hx0 Hs ->. split; simpl.
  - by apply NoDup_snoc.
  - set_solver.
  - by destruct xs.
  - by rewrite last_snoc.
  - rewrite length_app. simpl. lia.
  - done.
Qed.

Lemma LIST_APPEND_link_tail h l x lk :
  h !! x = Some lk → dl_tail l ≠ x →
  LIST_APPEND h l x =
    p ← link_tail (<[x := unlinked]> h) l x;
    Some (p.1, p.2 <| dl_nNodes := wrap64 (dl_nNodes l + 1) |>).
Proof.
  intros Hx Ht. unfold LIST_APPEND, link_tail.
  rewrite (set_next_eq _ _ _ _ Hx). simpl.
  rewrite (set_prev_eq _ _ _ (mkLink 0 (dl_prev lk))) by heap_lookup. simpl.
  rewrite insert_insert_eq. fold unlinked.
  destruct (truthy (dl_tail l)); simpl;
    [destruct (set_next (<[x:=unlinked]> h) (dl_tail l) x) as [h1|]; simpl; [|done]|].
  all: destruct (truthy (dl_head l)); simpl.
  all: match goal with |- context [set_prev ?a ?b ?c] => destruct (set_prev a b c) end; done.
Qed.

(** [LIST_APPEND] refines appending; only the links of the list and of the new
    node are written. *)
Lemma LIST_APPEND_spec h l xs x :
  dl_rep h l xs → x ∉ xs → x ≠ 0 → is_Some (h !! x) →
  Z.of_nat (length xs) + 1 < 2 ^ 64 →
  ∃ h' l', LIST_APPEND h l x = Some (h', l') ∧ dl_rep h' l' (xs ++ [x]) ∧
    links_frame (x :: xs) h h'.
Proof.
  intros Hrep Hx Hx0 [lk Hlk] Hlen.
  assert (dl_tail l ≠ x) as Ht.
  { rewrite (rep_tail _ _ _ Hrep). destruct (last xs) as [t|] eqn:E; simpl; [|done].
    intros ->. apply Hx. apply last_Some in E as [ys ->]. set_solver. }
  rewrite (LIST_APPEND_link_tail _ _ _ _ Hlk Ht).
  assert (dl_rep (<[x:=unlinked]> h) l xs) as Hrep'.
  { eapply dl_rep_frame; [|done]. intros y Hy. heap_lookup. }
  destruct (link_tail_spec (<[x:=unlinked]> h) l xs x unlinked) as (h' & Heq & Hs & Hf);
    try done; [heap_lookup|].
  rewrite Heq. simpl. eexists _, _. split; [done|]. split.
  - eapply rep_of_link_tail; try done.
    rewrite (rep_count _ _ _ Hrep), wrap_small by (unfold in_u; lia). done.
  - eapply links_frame_trans; [|done]. solve_frame.
Qed.

(** [LIST_PREPEND] refines adding in front. *)
Lemma LIST_PREPEND_spec h l xs x :
  dl_rep h l xs → x ∉ xs → x ≠ 0 → is_Some (h !! x) →
  Z.of_nat (length xs) + 1 < 2 ^ 64 →
  ∃ h' l', LIST_PREPEND h l x = Some (h', l') ∧ dl_rep h' l' (x :: xs) ∧
    links_frame (x :: xs) h h'.
Proof.
  intros [Hnd Hnn Hh Ht Hc Hs] Hx Hx0 [lk Hlk] Hlen. unfold LIST_PREPEND.
  rewrite (set_next_eq _ _ _ _ Hlk). simpl.
  rewrite (set_prev_eq _ _ _ (mkLink 0 (dl_prev lk))) by heap_lookup. simpl.
  rewrite insert_insert_eq, Hh, Ht.
  destruct xs as [|y ys]; simpl.
  - rewrite (set_next_eq _ _ _ unlinked) by heap_lookup. simpl.
    eexists _, _. split; [done|]. split.
    + split; simpl; try done.
      * apply NoDup_singleton.
      * set_solver.
      * rewrite Hc, wrap_small by (unfold in_u; simpl in *; lia). simpl in *. lia.
      * heap_lookup.
    + solve_frame.
  - assert (y ≠ 0) as Hy0 by set_solver. assert (y ≠ x) as Hyx by set_solver.
    destruct Hs as [Hy Hs].
    rewrite (truthy_nz _ Hy0). simpl.
    rewrite (set_prev_eq _ _ _ (mkLink (default 0 (head ys)) 0)) by heap_lookup. simpl.
    assert (truthy (default 0 (last (y :: ys))) = true) as ->.
    { apply truthy_nz. rewrite last_cons_default.
      destruct (last ys) as [t|] eqn:E; simpl; [|done].
      apply last_Some in E as [zs ->]. set_solver. }
    rewrite (set_next_eq _ _ _ unlinked) by heap_lookup. simpl.
    rewrite Hh. simpl.
    eexists _, _. split; [done|]. split.
    + split; simpl; try done.
      * by constructor.
      * set_solver.
      * rewrite Hc, wrap_small by (unfold in_u; simpl in *; lia). simpl in *. lia.
      * repeat split; [heap_lookup..|].
        eapply seg_frame; [|exact Hs]. intros z Hz.
        apply NoDup_cons in Hnd as [Hnd _].
        assert (z ≠ y) by set_solver. assert (z ≠ x) by set_solver. heap_lookup.
    + solve_frame.
Qed.

(** The chain that is left when [x] is bypassed. *)
Lemma seg_unlink h h' l1 x l2 :
  seg h 0 (l1 ++ x :: l2) 0 → NoDup (l1 ++ x :: l2) →
  (∀ y, y ∈ l1 ++ l2 → last l1 ≠ Some y → head l2 ≠ Some y → h' !! y = h !! y) →
  (∀ a lk, last l1 = Some a → h !! a = Some lk →
           h' !! a = Some (mkLink (default 0 (head l2)) (dl_prev lk))) →
  (∀ b lk, head l2 = Some b → h !! b = Some lk →
           h' !! b = Some (mkLink (dl_next lk) (default 0 (last l1)))) →
  seg h' 0 (l1 ++ l2) 0.
Proof.
  intros Hs Hnd Hag Ha Hb. apply seg_app in Hs as [Hs1 [Hx Hs2]].
  apply NoDup_app in Hnd as (Hn1 & Hd & [Hx2 Hn2]%NoDup_cons).
  apply seg_app. split.
  - destruct l1 as [|a l1 _] using rev_ind; [done|].
    rewrite last_snoc in *. apply seg_app in Hs1 as [Hs1 [Hla _]].
    apply seg_app. split; [|split; [by rewrite (Ha a _ eq_refl Hla)|done]].
    eapply seg_frame; [|exact Hs1]. intros y Hy. apply Hag; [set_solver| |].
    + intros [= ->]. apply NoDup_app in Hn1 as (_ & Hn1 & _). eapply Hn1; set_solver.
    + intros Hh. eapply (Hd y); [set_solver|].
      destruct l2; simplify_eq/=. set_solver.
  - destruct l2 as [|b l2]; [done|]. destruct Hs2 as [Hlb Hs2]. simpl. split.
    + by rewrite (Hb b _ eq_refl Hlb).
    + eapply seg_frame; [|exact Hs2]. intros y Hy. apply Hag; [set_solver| |].
      * intros Hl. eapply (Hd y); [|set_solver].
        apply last_Some in Hl as [? ->]. set_solver.
      * intros [= ->]. apply NoDup_cons in Hn2 as [Hn2 _]. set_solver.
Qed.

Lemma seg_mid h l1 x l2 :
  seg h 0 (l1 ++ x :: l2) 0 →
  h !! x = Some (mkLink (default 0 (head l2)) (default 0 (last l1))).
Proof. intros [_ [Hx _]]%seg_app. done. Qed.

Lemma last_Some_elem {A} (l : list A) x : last l = Some x → x ∈ l.
Proof. intros [? ->]%last_Some. set_solver. Qed.
Lemma head_Some_elem {A} (l : list A) x : head l = Some x → x ∈ l.
Proof. destruct l; intros; simplify_eq/=. set_solver. Qed.

(** The heap after bypassing [x], whatever the order of the two writes. *)
Definition bypass (h : lheap) (a b : Z) : option lheap :=
  h ← opt_when (truthy b) (λ h, set_prev h b a) h;
  opt_when (truthy a) (λ h, set_next h a b) h.

Lemma bypass_spec h l1 x l2 :
  seg h 0 (l1 ++ x :: l2) 0 → NoDup (l1 ++ x :: l2) → 0 ∉ l1 ++ x :: l2 →
  ∃ h', bypass h (default 0 (last l1)) (default 0 (head l2)) = Some h' ∧
    seg h' 0 (l1 ++ l2) 0 ∧ h' !! x = h !! x ∧ links_frame (l1 ++ l2) h h'.
Proof.
  intros Hs Hnd Hnn. unfold bypass.
  pose proof Hnd as (Hn1 & Hd & [Hx2 Hn2]%NoDup_cons)%NoDup_app.
  assert (∀ a b, last l1 = Some a → head l2 = Some b → a ≠ b) as Hab.
  { intros a b Ha%last_Some_elem Hb%head_Some_elem ->. eapply Hd; set_solver. }
  assert (∀ y, y ∈ l1 ++ l2 → ∃ lk, h !! y = Some lk) as Hex.
  { intros y Hy. eapply seg_elem; [exact Hs|set_solver]. }
  destruct (last l1) as [a|] eqn:Ea; destruct (head l2) as [b|] eqn:Eb; simpl.
  all: try (pose proof (last_Some_elem _ _ Ea); assert (a ≠ 0) as Ha0 by set_solver;
            assert (a ≠ x) by (intros ->; eapply Hd; set_solver);
            destruct (Hex a) as [la Hla]; [set_solver|]; rewrite (truthy_nz _ Ha0)).
  all: try (pose proof (head_Some_elem _ _ Eb); assert (b ≠ 0) as Hb0 by set_solver;
            assert (b ≠ x) by (intros ->; set_solver);
            destruct (Hex b) as [lb Hlb]; [set_solver|]; rewrite (truthy_nz _ Hb0)).
  all: simpl.
  1: pose proof (Hab a b eq_refl eq_refl).
  all: try (rewrite (set_prev_eq _ _ _ _ Hlb); simpl).
  all: try (rewrite (set_next_eq _ _ _ la) by heap_lookup; simpl).
  all: eexists; split; [done|]; split; [|split; [heap_lookup|solve_frame]].
  all: eapply seg_unlink; [exact Hs|done|..]; rewrite ?Ea, ?Eb; simpl.
  all: try (intros; simplify_eq; heap_lookup; simplify_eq; done).
Qed.

(** The list struct once [x] is taken out between [a] and [b]. *)
Definition cut_ends (l : dlist) (x a b : Z) : dlist :=
  mkList (if dl_head l =? x then b else dl_head l)
         (if dl_tail l =? x then a else dl_tail l) (dl_nNodes l).

Lemma unlink_bypass h l x a b :
  h !! x = Some (mkLink b a) → a ≠ x → b ≠ x →
  unlink h l x = (λ h', (h', cut_ends l x a b)) <$> bypass h a b.
Proof.
  intros Hx Ha Hb. unfold unlink, bypass, cut_ends. rewrite Hx. simpl.
  assert (∀ h' : lheap, h' !! x = Some (mkLink b a) →
    (h'' ← opt_when (truthy a) (λ h, set_next h a b) h';
     w ← h'' !! x;
     let l := if dl_head l =? x then l <| dl_head := dl_next w |> else l in
     let l := if dl_tail l =? x then l <| dl_tail := dl_prev w |> else l in
     Some (h'', l)) =
    (λ h'', (h'', cut_ends l x a b)) <$> opt_when (truthy a) (λ h, set_next h a b) h') as Haux.
  { intros h' Hx'. unfold cut_ends, set_next.
    destruct (truthy a); simpl; [destruct (h' !! a); simpl; [|done]|];
      rewrite ?lookup_insert_ne by done; rewrite Hx'; simpl;
      destruct l as [hd tl n]; simpl; (destruct (hd =? x); simpl; by destruct (tl =? x)). }
  destruct (truthy b); simpl.
  - unfold set_prev. destruct (h !! b) as [lb|]; simpl; [|done].
    rewrite lookup_insert_ne by done. rewrite Hx. simpl.
    apply Haux. by rewrite lookup_insert_ne.
  - rewrite Hx. simpl. by apply Haux.
Qed.

Lemma LIST_REMOVE_bypass h l x a b :
  h !! x = Some (mkLink b a) → a ≠ x → b ≠ x → (a = b → a = 0) →
  LIST_REMOVE h l x =
    (λ h', (<[x := unlinked]> h',
            (cut_ends l x a b) <| dl_nNodes := wrap64 (dl_nNodes l - 1) |>)) <$> bypass h a b.
Proof.
  intros Hx Ha Hb Hab. unfold LIST_REMOVE, bypass, cut_ends, set_next, set_prev. rewrite Hx. simpl.
  destruct (truthy a) eqn:Ta, (truthy b) eqn:Tb; simpl.
  - apply truthy_true in Ta. assert (a ≠ b) by naive_solver.
    destruct (h !! a) as [la|] eqn:Ela; simpl.
    + rewrite lookup_insert_ne by done. rewrite Hx. simpl. rewrite Tb. simpl.
      rewrite lookup_insert_ne by done.
      destruct (h !! b) as [lb|] eqn:Elb; simpl; [|done].
      rewrite !lookup_insert_ne by done. rewrite Hx. simpl. rewrite lookup_insert_eq. simpl.
      rewrite insert_insert_eq.
      rewrite Ela. simpl.
      do 2 f_equal; [|destruct l as [hd tl n]; simpl; (destruct (tl =? x); simpl; by destruct (hd =? x))].
      rewrite (insert_insert_ne _ b a) by done. done.
    + destruct (h !! b); simpl; [|done]. rewrite lookup_insert_ne by done. by rewrite Ela.
  - destruct (h !! a) as [la|]; simpl; [|done].
    rewrite lookup_insert_ne by done. rewrite Hx. simpl. rewrite Tb. simpl.
    rewrite lookup_insert_ne by done. rewrite Hx. simpl. rewrite lookup_insert_eq. simpl.
    rewrite insert_insert_eq. destruct l as [hd tl n]; simpl. (destruct (tl =? x); simpl; by destruct (hd =? x)).
  - rewrite Hx. simpl. rewrite Tb. simpl. destruct (h !! b) as [lb|]; simpl; [|done].
    rewrite lookup_insert_ne by done. rewrite Hx. simpl. rewrite lookup_insert_eq. simpl.
    rewrite insert_insert_eq. destruct l as [hd tl n]; simpl. (destruct (tl =? x); simpl; by destruct (hd =? x)).
  - rewrite Hx. simpl. rewrite Tb. simpl. rewrite Hx. simpl. rewrite lookup_insert_eq. simpl.
    rewrite insert_insert_eq. destruct l as [hd tl n]; simpl. (destruct (tl =? x); simpl; by destruct (hd =? x)).
Qed.

Lemma rep_neighbours h l l1 x l2 :
  dl_rep h l (l1 ++ x :: l2) →
  x ≠ 0 ∧ default 0 (last l1) ≠ x ∧ default 0 (head l2) ≠ x ∧
  (default 0 (last l1) = default 0 (head l2) → default 0 (last l1) = 0).
Proof.
  intros [(Hn1 & Hd & [Hx2 Hn2]%NoDup_cons)%NoDup_app Hnn _ _ _ _].
  assert (x ≠ 0) as Hx0 by set_solver.
  destruct (last l1) as [a|] eqn:Ea; destruct (head l2) as [b|] eqn:Eb; simpl;
    try apply last_Some_elem in Ea; try apply head_Some_elem in Eb;
    repeat split; try set_solver; intros ->; edestruct Hd; set_solver.
Qed.

(** What the struct becomes represents [l1 ++ l2]. *)
Lemma rep_cut h h' l l1 x l2 n :
  dl_rep h l (l1 ++ x :: l2) → seg h' 0 (l1 ++ l2) 0 →
  n = Z.of_nat (length (l1 ++ l2)) →
  dl_rep h' ((cut_ends l x (default 0 (last l1)) (default 0 (head l2))) <| dl_nNodes := n |>)
    (l1 ++ l2).
Proof.
  intros Hrep Hs ->. pose proof (rep_neighbours _ _ _ _ _ Hrep) as (Hx0 & Ha & Hb & _).
  destruct Hrep as [Hnd Hnn Hh Ht Hc _].
  pose proof Hnd as (Hn1 & Hd & [Hx2 Hn2]%NoDup_cons)%NoDup_app.
  split; simpl; try done.
  - apply NoDup_app. repeat split; try done. set_solver.
  - set_solver.
  - rewrite Hh, !hd_app_default. destruct l1 as [|y l1]; simpl.
    + by rewrite Z.eqb_refl.
    + destruct (Z.eqb_spec y x) as [->|]; [|done]. destruct (Hd x); set_solver.
  - rewrite Ht, !last_app_default, last_cons_default.
    destruct (last l2) as [y|] eqn:E; simpl.
    + apply last_Some_elem in E.
      destruct (Z.eqb_spec y x) as [->|]; [|done]. set_solver.
    + by rewrite Z.eqb_refl.
Qed.

(** Unlinking refines removal; the node keeps its stale links. *)
Lemma unlink_spec h l l1 x l2 :
  dl_rep h l (l1 ++ x :: l2) →
  ∃ h' l', unlink h l x = Some (h', l') ∧
    dl_rep h' (l' <| dl_nNodes := dl_nNodes l - 1 |>) (l1 ++ l2) ∧
    dl_nNodes l' = dl_nNodes l ∧
    h' !! x = Some (mkLink (default 0 (head l2)) (default 0 (last l1))) ∧
    links_frame (l1 ++ l2) h h'.
Proof.
  intros Hrep. pose proof (rep_neighbours _ _ _ _ _ Hrep) as (Hx0 & Ha & Hb & _).
  pose proof (seg_mid _ _ _ _ (rep_seg _ _ _ Hrep)) as Hx.
  destruct (bypass_spec h l1 x l2) as (h' & Hbp & Hs & Hx' & Hf); [by destruct Hrep..|].
  exists h', (cut_ends l x (default 0 (last l1)) (default 0 (head l2))).
  rewrite (unlink_bypass _ _ _ _ _ Hx Ha Hb), Hbp. simpl.
  split; [done|]. split; [|split; [done|split; [by rewrite Hx', Hx|done]]].
  apply (rep_cut h h' l); try done.
  rewrite (rep_count _ _ _ Hrep), !length_app. simpl. lia.
Qed.

(** [LIST_REMOVE] refines removal, and the node ends unlinked. *)
Lemma LIST_REMOVE_spec h l l1 x l2 :
  dl_rep h l (l1 ++ x :: l2) → Z.of_nat (length (l1 ++ x :: l2)) < 2 ^ 64 →
  ∃ h' l', LIST_REMOVE h l x = Some (h', l') ∧ dl_rep h' l' (l1 ++ l2) ∧
    h' !! x = Some unlinked ∧ links_frame (l1 ++ x :: l2) h h'.
Proof.
  intros Hrep Hlen. pose proof (rep_neighbours _ _ _ _ _ Hrep) as (Hx0 & Ha & Hb & Hab).
  pose proof (seg_mid _ _ _ _ (rep_seg _ _ _ Hrep)) as Hx.
  destruct (bypass_spec h l1 x l2) as (h' & Hbp & Hs & Hx' & Hf); [by destruct Hrep..|].
  rewrite (LIST_REMOVE_bypass _ _ _ _ _ Hx Ha Hb Hab), Hbp. simpl.
  eexists _, _. split; [done|]. split; [|split; [heap_lookup|]].
  - eapply (rep_cut h); [done| |].
    + eapply seg_frame; [|exact Hs]. intros y Hy. rewrite lookup_insert_ne; [done|].
      intros <-. destruct Hrep as [(? & Hd & [? ?]%NoDup_cons)%NoDup_app _ _ _ _ _].
      apply elem_of_app in Hy as [Hy|Hy]; [eapply Hd|]; set_solver.
    + rewrite (rep_count _ _ _ Hrep), wrap_small; rewrite !length_app in *; simpl in *;
        unfold in_u; lia.
  - apply links_frame_insert; [set_solver|eauto|].
    { rewrite Hx', Hx. eauto. }
    eapply links_frame_weaken; [|done]. set_solver.
Qed.

(** ** Queries and traversal *)

(** [LIST_IS_NODE_UNLINKED] decides membership, for a node that is in the list
    or has null links (as [LIST_REMOVE] leaves it). *)
Lemma LIST_IS_NODE_UNLINKED_spec h l xs x :
  dl_rep h l xs → x ≠ 0 → (x ∉ xs → h !! x = Some unlinked) →
  LIST_IS_NODE_UNLINKED h l x = Some (bool_decide (x ∉ xs)).
Proof.
  intros Hrep Hx0 Hun. unfold LIST_IS_NODE_UNLINKED, LIST_GET_NEXT, LIST_GET_PREV.
  destruct (decide (x ∈ xs)) as [Hin|Hin].
  - rewrite bool_decide_eq_false_2 by auto.
    apply list_elem_of_split in Hin as (l1 & l2 & ->).
    pose proof (seg_mid _ _ _ _ (rep_seg _ _ _ Hrep)) as Hx.
    rewrite (rep_head _ _ _ Hrep), hd_app_default, Hx.
    destruct l1 as [|a l1]; simpl; [by rewrite Z.eqb_refl|].
    destruct (Z.eqb_spec a x) as [|Hax]; [done|].
    destruct (truthy (default 0 (head l2))); [done|].
    rewrite truthy_nz; [done|]. rewrite last_cons_default.
    destruct (last l1) as [z|] eqn:E; simpl.
    + apply last_Some_elem in E. pose proof (rep_nonnull _ _ _ Hrep). set_solver.
    + pose proof (rep_nonnull _ _ _ Hrep). set_solver.
  - rewrite bool_decide_eq_true_2 by auto. rewrite (Hun Hin). simpl.
    destruct (Z.eqb_spec (dl_head l) x) as [Hh|]; [|done].
    rewrite (rep_head _ _ _ Hrep) in Hh. destruct xs; simpl in *; set_solver.
Qed.

Lemma walk_seg h p xs :
  seg h p xs 0 → 0 ∉ xs → ∀ fuel, (length xs ≤ fuel)%nat →
  walk fuel h (default 0 (head xs)) = Some xs.
Proof.
  revert p. induction xs as [|x xs IH]; intros p Hs Hnn fuel Hf; simpl in *.
  { by destruct fuel. }
  destruct Hs as [Hx Hs]. destruct fuel as [|fuel]; [lia|]. simpl.
  rewrite (proj2 (Z.eqb_neq x 0)) by set_solver. rewrite Hx. simpl.
  rewrite (IH x); [done|done|set_solver|lia].
Qed.

(** Following the links from the head visits exactly the nodes of the list. *)
Lemma walk_rep h l xs :
  dl_rep h l xs → walk (length xs) h (dl_head l) = Some xs.
Proof. intros []. rewrite rep_head0. by eapply walk_seg. Qed.

#[export] Hint Resolve dl_rep_empty links_frame_refl : obos.

(** ** Refinement of sequences of operations *)

Inductive list_cmd := CAppend (x : Z) | CPrepend (x : Z) | CRemove (x : Z).

Definition run_cmd (hl : lheap * dlist) (c : list_cmd) : option (lheap * dlist) :=
  match c with
  | CAppend x => LIST_APPEND hl.1 hl.2 x
  | CPrepend x => LIST_PREPEND hl.1 hl.2 x
  | CRemove x => LIST_REMOVE hl.1 hl.2 x
  end.
Definition run_cmds (hl : lheap * dlist) (cs : list list_cmd) : option (lheap * dlist) :=
  foldl (λ o c, hl ← o; run_cmd hl c) (Some hl) cs.

(** The abstract list; an object is linked at most once and unlinked only when
    it is a member. *)
Definition abs_cmd (xs : list Z) (c : list_cmd) : option (list Z) :=
  match c with
  | CAppend x => if decide (x ∈ xs) then None else Some (xs ++ [x])
  | CPrepend x => if decide (x ∈ xs) then None else Some (x :: xs)
  | CRemove x => if decide (x ∈ xs) then Some (filter (λ y, y ≠ x) xs) else None
  end.
Definition abs_cmds (xs : list Z) (cs : list list_cmd) : option (list Z) :=
  foldl (λ o c, xs ← o; abs_cmd xs c) (Some xs) cs.

Definition cmd_obj (c : list_cmd) : Z :=
  match c with CAppend x | CPrepend x | CRemove x => x end.

Lemma filter_remove l1 (x : Z) l2 :
  NoDup (l1 ++ x :: l2) → filter (λ y, y ≠ x) (l1 ++ x :: l2) = l1 ++ l2.
Proof.
  intros (_ & Hd & [Hx2 _]%NoDup_cons)%NoDup_app.
  assert (∀ l : list Z, x ∉ l → filter (λ y, y ≠ x) l = l) as Hid.
  { induction l as [|y l IH]; intros Hx; [done|]. rewrite filter_cons, decide_True by set_solver.
    rewrite IH; [done|set_solver]. }
  rewrite filter_app, filter_cons, decide_False by naive_solver.
  rewrite !Hid; [done|done|]. intros Hin. destruct (Hd x); set_solver.
Qed.

Lemma links_frame_dom ps h h' x : links_frame ps h h' → is_Some (h !! x) → is_Some (h' !! x).
Proof. intros [_ Hd] Hx. apply elem_of_dom. rewrite Hd. by apply elem_of_dom. Qed.

Lemma seg_size h p xs n : seg h p xs n → NoDup xs → (length xs ≤ size h)%nat.
Proof.
  intros Hs Hnd. rewrite <- (size_list_to_set (C := gset Z) xs) by done.
  rewrite <- size_dom. apply subseteq_size. intros x Hx.
  apply elem_of_dom. eapply seg_elem; [done|]. by apply elem_of_list_to_set in Hx.
Qed.

Lemma rep_small h l xs : dl_rep h l xs → Z.of_nat (size h) + 1 < 2 ^ 64 → Z.of_nat (length xs) + 1 < 2 ^ 64.
Proof.
  intros [Hnd _ _ _ _ Hs] Hsz.
  pose proof (seg_size _ _ _ _ Hs Hnd). lia.
Qed.

Lemma run_cmd_refines h l xs c xs' :
  dl_rep h l xs → Z.of_nat (size h) + 1 < 2 ^ 64 →
  cmd_obj c ≠ 0 → is_Some (h !! cmd_obj c) → abs_cmd xs c = Some xs' →
  ∃ h' l', run_cmd (h, l) c = Some (h', l') ∧ dl_rep h' l' xs' ∧
    links_frame (cmd_obj c :: xs) h h'.
Proof.
  intros Hrep Hsz Hc0 Hc Habs. pose proof (rep_small _ _ _ Hrep Hsz) as Hroom.
  destruct c as [x|x|x]; simpl in *; destruct (decide (x ∈ xs)) as [Hin|Hin]; simplify_eq.
  - destruct (LIST_APPEND_spec h l xs x) as (h' & l' & ? & ? & Hf); try done.
    exists h', l'. split; [done|]. split; [done|]. eapply links_frame_weaken; [|done]. set_solver.
  - destruct (LIST_PREPEND_spec h l xs x) as (h' & l' & ? & ? & Hf); try done.
    exists h', l'. split; [done|]. split; [done|]. eapply links_frame_weaken; [|done]. set_solver.
  - apply list_elem_of_split in Hin as (l1 & l2 & ->).
    destruct (LIST_REMOVE_spec h l l1 x l2) as (h' & l' & ? & Hr & _ & Hf); [done|lia|].
    exists h', l'. split; [done|]. rewrite filter_remove by apply Hrep. split; [done|].
    eapply links_frame_weaken; [|done]. set_solver.
Qed.

Lemma foldl_None {A B} (f : A → B → option A) bs :
  foldl (λ o b, a ← o; f a b) (None : option A) bs = None.
Proof. induction bs; [done|]. simpl. done. Qed.

(** [C28] The list macros implement lists: any sequence of appends, prepends and
    removals that is legal on the abstract list (an object is linked once, and
    removed only while linked) runs without a dangling access and ends in a heap
    that represents the abstract result; following [next] from the head visits
    exactly its elements in order, and objects never mentioned are untouched. *)
Theorem list_macros_refine cs : ∀ h l xs xs',
  dl_rep h l xs → Z.of_nat (size h) + 1 < 2 ^ 64 →
  Forall (λ c, cmd_obj c ≠ 0 ∧ is_Some (h !! cmd_obj c)) cs →
  abs_cmds xs cs = Some xs' →
  ∃ h' l', run_cmds (h, l) cs = Some (h', l') ∧ dl_rep h' l' xs' ∧
    walk (length xs') h' (dl_head l') = Some xs' ∧ dl_nNodes l' = Z.of_nat (length xs') ∧
    ∀ y, y ∉ xs ++ map cmd_obj cs → h' !! y = h !! y.
Proof.
  unfold abs_cmds, run_cmds. induction cs as [|c cs IH]; intros h l xs xs' Hrep Hsz Hobj Habs.
  { injection Habs as <-. exists h, l. split; [done|]. split; [done|].
    split; [by apply walk_rep|]. split; [by eapply rep_count|done]. }
  apply Forall_cons in Hobj as [[Hc0 Hc] Hobj]. cbn [foldl mbind option_bind] in Habs |- *.
  destruct (abs_cmd xs c) as [xs1|] eqn:E1; [|by rewrite foldl_None in Habs].
  destruct (run_cmd_refines h l xs c xs1) as (h1 & l1 & -> & Hrep1 & Hf); try done.
  destruct (IH h1 l1 xs1 xs') as (h' & l' & Hrun & Hrep' & Hwalk & Hn & Hfr); try done.
  { destruct Hf as [_ Hd]. by rewrite <- size_dom, Hd, size_dom. }
  { eapply Forall_impl; [done|]. intros c' [? ?]. split; [done|]. by eapply links_frame_dom. }
  exists h', l'. split; [done|]. split; [done|]. split; [done|]. split; [done|].
  intros y Hy. rewrite Hfr; [apply (proj1 Hf); set_solver|].
  assert (∀ z, z ∈ xs1 → z ∈ xs ∨ z = cmd_obj c) as Hsub.
  { intros z Hz. destruct c as [x|x|x]; simpl in *; destruct (decide (x ∈ xs)); simplify_eq.
    - set_solver.
    - set_solver.
    - apply list_elem_of_filter in Hz. set_solver. }
  rewrite map_cons in Hy. intros [Hin|Hin]%elem_of_app; [destruct (Hsub _ Hin)|]; set_solver.
Qed.
