(* ===== verification/KState.v ===== *)
(** * The state of the kernel core

    The objects the interrupt, scheduler and lock code works on.  Struct fields
    are stored per object type in finite maps from addresses; a struct embedded
    in another one (a [thread_list] in a [cpu_local], a [spinlock] in a
    [waitable_header]) is addressed by its path ([list_loc], [lock_loc]); a
    [cpu_local*] is the index of the processor in [Core_CpuInfo].  A routine is
    executed by one processor, [this_cpu]. *)

From S2P Require Import Prelude DList.

(** ** Locations of embedded structs *)

Inductive list_loc :=
| PriorityList (cpu : nat) (priority : Z)
| WaitingList (obj : Z)
| ProcThreads (proc : Z)
| Mm_ThreadsAwaitingPhysicalMemory.

#[global] Instance list_loc_eq_dec : EqDecision list_loc.
Proof. solve_decision. Defined.
#[global] Instance list_loc_countable : Countable list_loc.
Proof.
  refine (inj_countable'
    (λ l, match l with
          | PriorityList c p => inl (c, p)
          | WaitingList o => inr (inl (inl o))
          | ProcThreads p => inr (inl (inr p))
          | Mm_ThreadsAwaitingPhysicalMemory => inr (inr ())
          end)
    (λ x, match x with
          | inl (c, p) => PriorityList c p
          | inr (inl (inl o)) => WaitingList o
          | inr (inl (inr p)) => ProcThreads p
          | inr (inr _) => Mm_ThreadsAwaitingPhysicalMemory
          end) _).
  by intros [].
Defined.

Inductive lock_loc :=
| Core_SchedulerLock
| SchedulerLock (cpu : nat)
| DpcQueueLock (cpu : nat)
| ThreadListLock (l : list_loc)
| WaitableLock (obj : Z)
| SemaphoreLock (sem : Z)
| TimerListLock
| PmmLock
| AllocatorLock (alloc : Z)
| IrqLock
| RegionListLock
| ContextLock (ctx : Z)
| SwapLock (hdr : Z).

#[global] Instance lock_loc_eq_dec : EqDecision lock_loc.
Proof. solve_decision. Defined.
#[global] Instance lock_loc_countable : Countable lock_loc.
Proof.
  refine (inj_countable'
    (λ l, match l with
          | Core_SchedulerLock => inl (inl (inl ()))
          | SchedulerLock c => inl (inl (inr c))
          | DpcQueueLock c => inl (inr (inl c))
          | ThreadListLock l => inl (inr (inr l))
          | WaitableLock o => inr (inl (inl o))
          | SemaphoreLock o => inr (inl (inr o))
          | TimerListLock => inr (inr (inl ()))
          | PmmLock => inr (inr (inr (inl ())))
          | AllocatorLock a => inr (inr (inr (inr (inl a))))
          | IrqLock => inr (inr (inr (inr (inr (inl ())))))
          | RegionListLock => inr (inr (inr (inr (inr (inr (inl ()))))))
          | ContextLock c => inr (inr (inr (inr (inr (inr (inr (inl c)))))))
          | SwapLock h => inr (inr (inr (inr (inr (inr (inr (inr h)))))))
          end)
    (λ x, match x with
          | inl (inl (inl _)) => Core_SchedulerLock
          | inl (inl (inr c)) => SchedulerLock c
          | inl (inr (inl c)) => DpcQueueLock c
          | inl (inr (inr l)) => ThreadListLock l
          | inr (inl (inl o)) => WaitableLock o
          | inr (inl (inr o)) => SemaphoreLock o
          | inr (inr (inl _)) => TimerListLock
          | inr (inr (inr (inl _))) => PmmLock
          | inr (inr (inr (inr (inl a)))) => AllocatorLock a
          | inr (inr (inr (inr (inr (inl _))))) => IrqLock
          | inr (inr (inr (inr (inr (inr (inl _)))))) => RegionListLock
          | inr (inr (inr (inr (inr (inr (inr (inl c))))))) => ContextLock c
          | inr (inr (inr (inr (inr (inr (inr (inr h))))))) => SwapLock h
          end) _).
  by intros [].
Defined.

(** ** Interrupt levels, spinlocks and deferred procedure calls *)

(** [locks/spinlock.h]; [owner] is kept in debug builds, which are modelled. *)
Record spinlock := mkSpin {
  val : bool; locked : bool; irqlNThrVariant : bool; owner : Z
}.
#[export] Instance eta_spinlock : Etable spinlock :=
  λ r, mkSpin (val r) (locked r) (irqlNThrVariant r) (owner r).

(** [irq/dpc.h]; the queue links are in [dpc_links]. *)
Record dpc := mkDpc { handler : Z; userdata : Z; dpc_cpu : option nat }.
#[export] Instance eta_dpc : Etable dpc :=
  λ r, mkDpc (handler r) (userdata r) (dpc_cpu r).

(** [this_cpu] is what [CoreS_GetCPULocalPtr] returns; [cr8] is the hardware
    priority register behind [CoreS_GetIRQL]/[CoreS_SetIRQL]; [ctx_irql] is the
    [irql] field of each thread's [context]. *)
Record irq_st := mkIrq {
  this_cpu : option nat;
  s_irql : Z;
  currentIrql : gmap nat Z;
  cr8 : Z;
  currentThread : gmap nat Z;
  ctx_irql : gmap Z Z;
  locks : gmap lock_loc spinlock;
  dpcs : gmap nat dlist;
  dpc_links : lheap;
  dpc_objs : gmap Z dpc
}.
#[export] Instance eta_irq_st : Etable irq_st :=
  λ r, mkIrq (this_cpu r) (s_irql r) (currentIrql r) (cr8 r) (currentThread r)
             (ctx_irql r) (locks r) (dpcs r) (dpc_links r) (dpc_objs r).

(** ** Threads, processors, processes ([scheduler/thread.h], [cpu_local.h],
    [process.h]) *)

Inductive thread_status :=
  THREAD_STATUS_READY | THREAD_STATUS_RUNNING | THREAD_STATUS_BLOCKED.
#[global] Instance thread_status_eq_dec : EqDecision thread_status.
Proof. solve_decision. Defined.

Definition THREAD_FLAGS_DIED : Z := 2.
Definition THREAD_FLAGS_PRIORITY_RAISED : Z := 4.
Definition THREAD_PRIORITY_IDLE : Z := 0.
Definition THREAD_PRIORITY_MAX_VALUE : Z := 4.

(** [tn_free] says whether the node's [free] callback is set (all of them
    return the node to its allocator). *)
Record thread_node := mkTNode { tn_data : Z; tn_free : bool }.
#[export] Instance eta_thread_node : Etable thread_node :=
  λ r, mkTNode (tn_data r) (tn_free r).

Record thread := mkThread {
  tid : Z; flags : Z; references : Z; free : bool;
  status : thread_status; priority : Z; quantum : Z; affinity : Z;
  lastRunTick : Z; masterCPU : option nat;
  snode : Z; pnode : Z; proc : Z;
  lock_node : Z; nWaiting : Z; nSignaled : Z; nBytesWaitingFor : Z
}.
#[export] Instance eta_thread : Etable thread :=
  λ r, mkThread (tid r) (flags r) (references r) (free r) (status r) (priority r)
    (quantum r) (affinity r) (lastRunTick r) (masterCPU r) (snode r) (pnode r)
    (proc r) (lock_node r) (nWaiting r) (nSignaled r) (nBytesWaitingFor r).

(** A [thread_priority_list] without its [list], which is at [PriorityList]. *)
Record thread_priority_list := mkPList {
  noStarvationQuantum : Z; plquantum : Z; plpriority : Z
}.
#[export] Instance eta_plist : Etable thread_priority_list :=
  λ r, mkPList (noStarvationQuantum r) (plquantum r) (plpriority r).

Record sched_profile := mkProf {
  priority_booster : Z; priority_booster_iterations : Z; priority_booster_total : Z;
  total : Z; total2_iterations : Z; total2 : Z
}.
#[export] Instance eta_sched_profile : Etable sched_profile :=
  λ r, mkProf (priority_booster r) (priority_booster_iterations r)
    (priority_booster_total r) (total r) (total2_iterations r) (total2 r).

Record cpu_local := mkCpu {
  id : Z; idleThread : Z; currentContext : Z;
  priorityLists : gmap Z thread_priority_list;
  currentPriorityList : option Z;
  schedulerTicks : Z;
  sched_profile_data : sched_profile
}.
#[export] Instance eta_cpu_local : Etable cpu_local :=
  λ r, mkCpu (id r) (idleThread r) (currentContext r) (priorityLists r)
    (currentPriorityList r) (schedulerTicks r) (sched_profile_data r).

Record process := mkProc { pid : Z; ctx : Z }.
#[export] Instance eta_process : Etable process := λ r, mkProc (pid r) (ctx r).

(** [free_addrs] are the addresses the allocators will hand out next (none:
    they are out of memory); [kernel_alloc]/[nonpaged_alloc] say whether
    [OBOS_KernelAllocator] and [OBOS_NonPagedPoolAllocator] are set;
    [native_tick] is the hardware tick counter. *)
Record sched_st := mkSched {
  cpus : list cpu_local;
  lists : gmap list_loc dlist;
  tlinks : lheap;
  tnodes : gmap Z thread_node;
  threads : gmap Z thread;
  procs : gmap Z process;
  Core_ReadyThreadCount : Z;
  s_nextTID : Z;
  Core_NextPID : Z;
  Core_DefaultThreadAffinity : Z;
  free_addrs : list Z;
  kernel_alloc : bool;
  nonpaged_alloc : bool;
  native_tick : Z
}.
#[export] Instance eta_sched_st : Etable sched_st :=
  λ r, mkSched (cpus r) (lists r) (tlinks r) (tnodes r) (threads r) (procs r)
    (Core_ReadyThreadCount r) (s_nextTID r) (Core_NextPID r)
    (Core_DefaultThreadAffinity r) (free_addrs r) (kernel_alloc r)
    (nonpaged_alloc r) (native_tick r).

(** ** Waitable objects ([locks/wait.h], [mutex.h], [semaphore.h], [event.h])

    The waitable header of an object is at the object's own address. *)

Record waitable_header := mkHdr { signaled : bool; use_signaled : bool }.
#[export] Instance eta_waitable_header : Etable waitable_header :=
  λ r, mkHdr (signaled r) (use_signaled r).

Record mutex := mkMutex {
  mutex_lock : bool; mutex_locked : bool; ignoreAllAndBlowUp : bool; who : Z
}.
#[export] Instance eta_mutex : Etable mutex :=
  λ r, mkMutex (mutex_lock r) (mutex_locked r) (ignoreAllAndBlowUp r) (who r).

Inductive event_type := EVENT_NOTIFICATION | EVENT_SYNC.
#[global] Instance event_type_eq_dec : EqDecision event_type.
Proof. solve_decision. Defined.
Record event := mkEvent { event_signaled : bool; event_kind : event_type }.
#[export] Instance eta_event : Etable event :=
  λ r, mkEvent (event_signaled r) (event_kind r).

Record obj_st := mkObj {
  hdrs : gmap Z waitable_header;
  mutexes : gmap Z mutex;
  semaphores : gmap Z Z;
  events : gmap Z event
}.
#[export] Instance eta_obj_st : Etable obj_st :=
  λ r, mkObj (hdrs r) (mutexes r) (semaphores r) (events r).

Record kst := mkK { irq : irq_st; sch : sched_st; obj : obj_st }.
#[export] Instance eta_kst : Etable kst := λ r, mkK (irq r) (sch r) (obj r).

(** Access to the three parts. *)
Definition irq_upd (f : irq_st → irq_st) : K kst () := modify (λ s, s <| irq ::= f |>).
Definition sch_upd (f : sched_st → sched_st) : K kst () := modify (λ s, s <| sch ::= f |>).
Definition obj_upd (f : obj_st → obj_st) : K kst () := modify (λ s, s <| obj ::= f |>).

(** [thr->...]: reading a thread, assigning to one of its fields. *)
Definition get_thread (t : Z) : K kst thread := load (λ s, threads (sch s)) t.
Definition set_thread (t : Z) (f : thread → thread) : K kst () :=
  store (λ s, threads (sch s)) (λ m s, s <| sch ::= λ c, c <| threads := m |> |>) t f.
Definition get_node (n : Z) : K kst thread_node := load (λ s, tnodes (sch s)) n.
Definition set_node (n : Z) (f : thread_node → thread_node) : K kst () :=
  store (λ s, tnodes (sch s)) (λ m s, s <| sch ::= λ c, c <| tnodes := m |> |>) n f.
Definition get_link (n : Z) : K kst dlink := load (λ s, tlinks (sch s)) n.
Definition get_list (l : list_loc) : K kst dlist := load (λ s, lists (sch s)) l.

(** [Core_CpuInfo[c]]. *)
Definition get_cpu (c : nat) : K kst cpu_local :=
  λ s, match cpus (sch s) !! c with Some v => Ret v s | None => Stop BadDeref end.
Definition set_cpu (c : nat) (f : cpu_local → cpu_local) : K kst () :=
  λ s, match cpus (sch s) !! c with
       | Some v => Ret () (s <| sch ::= λ x, x <| cpus ::= <[c := f v]> |> |>)
       | None => Stop BadDeref
       end.
