(* ===== verification/Irql.v ===== *)
(** * Interrupt request levels and spinlocks ([irq/irql.c], [locks/spinlock.c])

    The IRQL of a processor is a variable mirrored in the hardware priority
    register.  Raising and lowering it, dispatching the pending deferred
    procedure calls when it drops below [IRQL_DISPATCH], and the spinlocks that
    bracket every shared access.  The handler of a deferred procedure call is a
    function pointer: its effect is a parameter, [dpc_call].  The second half
    proves the contract the rest of the kernel relies on: from a quiet state an
    acquire/release pair is transparent ([acquire_quiet], [release_quiet]). *)

From S2P Require Import Prelude DList KState.

Definition IRQL_PASSIVE : Z := 0.
Definition IRQL_DISPATCH : Z := 2.
Definition IRQL_TIMER : Z := 3.
Definition IRQL_MASKED : Z := 15.
Definition IRQL_INVALID : Z := 255.

(** The call [cur->handler(cur, cur->userdata)]: handler, object, userdata. *)
Class DpcHandlers := dpc_call : Z → Z → Z → K kst ().

Section ops.
Context {DH : DpcHandlers}.

(** [*Core_GetIRQLVar()]: the boot-time variable, or the processor's own. *)
Definition read_irql_var : K kst Z :=
  c ← gets (λ s, this_cpu (irq s));
  match c with
  | None => gets (λ s, s_irql (irq s))
  | Some c => load (λ s, currentIrql (irq s)) c
  end.
Definition write_irql_var (v : Z) : K kst () :=
  c ← gets (λ s, this_cpu (irq s));
  match c with
  | None => irq_upd (λ i, i <| s_irql := v |>)
  | Some c => store (λ s, currentIrql (irq s))
                (λ m s, s <| irq ::= λ i, i <| currentIrql := m |> |>) c (λ _, v)
  end.

(** [CoreS_SetIRQL] (arch/x86_64/isr.asm) refuses level 1 and writes [cr8]. *)
Definition CoreS_SetIRQL (to old : Z) : K kst () :=
  if to =? 1 then stop Panic else irq_upd (λ i, i <| cr8 := to |>).
Definition CoreS_GetIRQL : K kst Z := gets (λ s, cr8 (irq s)).

(** [Core_GetCurrentThread] (scheduler/schedule.c). *)
Definition Core_GetCurrentThread : K kst Z :=
  c ← gets (λ s, this_cpu (irq s));
  match c with
  | None => mret nullptr
  | Some c => load (λ s, currentThread (irq s)) c
  end.

(** [CoreS_SetThreadIRQL(&thr->context, irql)]. *)
Definition CoreS_SetThreadIRQL (t v : Z) : K kst () :=
  store (λ s, ctx_irql (irq s))
    (λ m s, s <| irq ::= λ i, i <| ctx_irql := m |> |>) t (λ _, v).

(** [if ( *Core_GetIRQLVar() != CoreS_GetIRQL()) CoreS_SetIRQL(...)]. *)
Definition sync_irql : K kst () :=
  v ← read_irql_var;
  h ← CoreS_GetIRQL;
  when (negb (v =? h)) (CoreS_SetIRQL v v).

Definition Core_GetIrql : K kst Z := sync_irql;; read_irql_var.

Definition Core_RaiseIrqlNoThread (to : Z) : K kst Z :=
  sync_irql;;
  OBOS_ASSERT (Z.land to 0xf0 =? 0);;
  if truthy (Z.land to 0xf0) then mret IRQL_INVALID else
  v ← read_irql_var;
  if to <? v then stop Panic else
  oldIRQL ← Core_GetIrql;
  v ← read_irql_var;
  CoreS_SetIRQL to v;;
  write_irql_var to;;
  mret oldIRQL.

Definition Core_RaiseIrql (to : Z) : K kst Z :=
  oldIrql ← Core_RaiseIrqlNoThread to;
  t ← Core_GetCurrentThread;
  when (truthy t) (CoreS_SetThreadIRQL t to);;
  mret oldIrql.

Definition Core_LowerIrqlNoDPCDispatch (to : Z) : K kst () :=
  sync_irql;;
  OBOS_ASSERT (Z.land to 0xf0 =? 0);;
  if truthy (Z.land to 0xf0) then mret () else
  v ← read_irql_var;
  if v <? to then stop Panic else
  old ← read_irql_var;
  write_irql_var to;;
  CoreS_SetIRQL to old.

(** A list operation on the DPC queue of a processor. *)
Definition dpc_queue_op (c : nat)
  (op : lheap → dlist → option (lheap * dlist)) : K kst () :=
  l ← load (λ s, dpcs (irq s)) c;
  h ← gets (λ s, dpc_links (irq s));
  p ← deref_opt (op h l);
  irq_upd (λ i, i <| dpc_links := p.1 |> <| dpcs ::= <[c := p.2]> |>).

Definition set_dpc (d : Z) (f : dpc → dpc) : K kst () :=
  store (λ s, dpc_objs (irq s))
    (λ m s, s <| irq ::= λ i, i <| dpc_objs := m |> |>) d f.
Definition get_dpc (d : Z) : K kst dpc := load (λ s, dpc_objs (irq s)) d.

(** The loop of [CoreH_DispatchDPCs] from [cur] on. *)
Fixpoint dispatch_loop (fuel : nat) (c : nat) (cur : Z) : K kst () :=
  if negb (truthy cur) then mret () else
  match fuel with
  | O => stop Hang
  | S fuel =>
      h ← gets (λ s, dpc_links (irq s));
      next ← deref_opt (LIST_GET_NEXT h cur);
      dpc_queue_op c (λ h l, LIST_REMOVE h l cur);;
      set_dpc cur (λ d, d <| dpc_cpu := None |>);;
      d ← get_dpc cur;
      dpc_call (handler d) cur (userdata d);;
      dispatch_loop fuel c next
  end.

Definition CoreH_DispatchDPCs : K kst () :=
  c ← gets (λ s, this_cpu (irq s));
  c ← deref_opt c;
  l ← load (λ s, dpcs (irq s)) c;
  dispatch_loop (S (Z.to_nat (dl_nNodes l))) c (dl_head l).

Definition Core_LowerIrqlNoThread (to : Z) : K kst () :=
  Core_LowerIrqlNoDPCDispatch to;;
  c ← gets (λ s, this_cpu (irq s));
  when ((to <? IRQL_DISPATCH) && bool_decide (is_Some c)) (
    CoreS_SetIRQL IRQL_DISPATCH to;;
    write_irql_var IRQL_DISPATCH;;
    CoreH_DispatchDPCs;;
    write_irql_var to;;
    CoreS_SetIRQL to IRQL_DISPATCH).

Definition Core_LowerIrql (to : Z) : K kst () :=
  Core_LowerIrqlNoThread to;;
  t ← Core_GetCurrentThread;
  when (truthy t) (CoreS_SetThreadIRQL t to).

(** ** Spinlocks *)

Definition Core_SpinlockCreate : spinlock := mkSpin false false false nullptr.

Definition set_lock (l : lock_loc) (f : spinlock → spinlock) : K kst () :=
  store (λ s, locks (irq s)) (λ m s, s <| irq ::= λ i, i <| locks := m |> |>) l f.
Definition get_lock (l : lock_loc) : K kst spinlock := load (λ s, locks (irq s)) l.

Definition Core_SpinlockAcquireExplicit (lock : option lock_loc) (minIrql : Z)
  (irqlNthrVariant : bool) : K kst Z :=
  match lock with
  | None => mret IRQL_INVALID
  | Some lock =>
      if truthy (Z.land minIrql 0xf0) && negb (minIrql =? IRQL_INVALID)
      then mret IRQL_INVALID else
      newIrql ←
        (if minIrql =? IRQL_INVALID then mret IRQL_INVALID
         else v ← Core_GetIrql;
              if v <? minIrql then
                if irqlNthrVariant then Core_RaiseIrqlNoThread minIrql
                else Core_RaiseIrql minIrql
              else mret IRQL_INVALID);
      l ← get_lock lock;
      if val l then stop Hang else
      set_lock lock (λ l, l <| val := true |>);;
      set_lock lock (λ l, l <| KState.irqlNThrVariant := irqlNthrVariant |>);;
      t ← Core_GetCurrentThread;
      set_lock lock (λ l, l <| owner := t |>);;
      set_lock lock (λ l, l <| locked := true |>);;
      mret newIrql
  end.

Definition Core_SpinlockAcquire (lock : lock_loc) : K kst Z :=
  Core_SpinlockAcquireExplicit (Some lock) IRQL_DISPATCH false.

Definition Core_SpinlockRelease (lock : lock_loc) (oldIrql : Z) : K kst obos_status :=
  if truthy (Z.land oldIrql 0xf0) && negb (oldIrql =? IRQL_INVALID)
  then mret OBOS_STATUS_INVALID_IRQL else
  set_lock lock (λ l, l <| val := false |>);;
  set_lock lock (λ l, l <| owner := nullptr |>);;
  set_lock lock (λ l, l <| locked := false |>);;
  l ← get_lock lock;
  when (negb (oldIrql =? IRQL_INVALID))
    (if KState.irqlNThrVariant l then Core_LowerIrqlNoThread oldIrql
     else Core_LowerIrql oldIrql);;
  set_lock lock (λ l, l <| KState.irqlNThrVariant := false |>);;
  mret OBOS_STATUS_SUCCESS.

Definition Core_SpinlockForcedRelease (lock : lock_loc) : K kst () :=
  set_lock lock (λ l, l <| val := false |>);;
  set_lock lock (λ l, l <| KState.irqlNThrVariant := false |>);;
  set_lock lock (λ l, l <| owner := nullptr |>);;
  set_lock lock (λ l, l <| locked := false |>).

Definition Core_SpinlockAcquired (lock : option lock_loc) : K kst bool :=
  match lock with
  | Some lock => l ← get_lock lock; mret (locked l)
  | None => mret false
  end.

End ops.

(** ** Transparency of balanced brackets *)

Definition irql_of (i : irq_st) : option Z :=
  match this_cpu i with None => Some (s_irql i) | Some c => currentIrql i !! c end.
Definition thread_of (i : irq_st) : option Z :=
  match this_cpu i with None => Some 0 | Some c => currentThread i !! c end.
Definition set_var (v : Z) (i : irq_st) : irq_st :=
  match this_cpu i with
  | None => i <| s_irql := v |>
  | Some c => i <| currentIrql ::= <[c := v]> |>
  end.
(** Both copies of the level. *)
Definition set_level (v : Z) (i : irq_st) : irq_st := (set_var v i) <| cr8 := v |>.
(** The copy in the context of the current thread. *)
Definition set_ctx (v : Z) (i : irq_st) : irq_st :=
  match thread_of i with
  | Some t => if truthy t then i <| ctx_irql ::= <[t := v]> |> else i
  | None => i
  end.

(** The level is [v], the hardware agrees, and the current thread is known. *)
Record irq_wf (i : irq_st) (v : Z) : Prop := {
  wf_var : irql_of i = Some v;
  wf_cr8 : cr8 i = v;
  wf_range : 0 <= v <= 15;
  wf_not1 : v ≠ 1;
  wf_thread : ∃ t, thread_of i = Some t ∧ (t ≠ 0 → is_Some (ctx_irql i !! t))
}.

Definition no_dpcs (i : irq_st) : Prop :=
  ∀ c, this_cpu i = Some c → ∃ l, dpcs i !! c = Some l ∧ dl_head l = 0.

Section quiet.
Context {DH : DpcHandlers}.

Lemma read_irql_var_eq s v : irql_of (irq s) = Some v → read_irql_var s = Ret v s.
Proof.
  unfold read_irql_var, irql_of. kstep.
  destruct (this_cpu (irq s)); intros; [by apply load_eq | by simplify_eq].
Qed.

Lemma write_irql_var_eq s v w :
  irql_of (irq s) = Some w → write_irql_var v s = Ret () (s <| irq ::= set_var v |>).
Proof.
  unfold write_irql_var, irql_of, set_var. kstep.
  destruct (this_cpu (irq s)) eqn:E; intros; simpl.
  - erewrite store_eq by done. simpl. rewrite E. done.
  - unfold irq_upd, modify. simpl. rewrite E. done.
Qed.

Lemma Core_GetCurrentThread_eq s t :
  thread_of (irq s) = Some t → Core_GetCurrentThread s = Ret t s.
Proof.
  unfold Core_GetCurrentThread, thread_of. kstep.
  destruct (this_cpu (irq s)); intros; [by apply load_eq | by simplify_eq].
Qed.

Lemma sync_irql_eq s v : irql_of (irq s) = Some v → cr8 (irq s) = v → sync_irql s = Ret () s.
Proof.
  intros Hv Hc. unfold sync_irql. kstep with read_irql_var_eq.
  unfold CoreS_GetIRQL. kstep. rewrite Hc, Z.eqb_refl. done.
Qed.

Lemma Core_GetIrql_eq s v : irql_of (irq s) = Some v → cr8 (irq s) = v → Core_GetIrql s = Ret v s.
Proof.
  intros Hv Hc. unfold Core_GetIrql. kstep with sync_irql_eq. by apply read_irql_var_eq.
Qed.

Lemma CoreS_SetIRQL_eq s to old :
  to ≠ 1 → CoreS_SetIRQL to old s = Ret () (s <| irq ::= λ i, i <| cr8 := to |> |>).
Proof. intros H. unfold CoreS_SetIRQL. by rewrite (proj2 (Z.eqb_neq _ _) H). Qed.

Lemma irql_nibble v : 0 <= v <= 15 → Z.land v 0xf0 = 0.
Proof.
  intros H. assert (∃ n, v = Z.of_nat n ∧ (n ≤ 15)%nat) as (n & -> & Hn).
  { exists (Z.to_nat v). lia. }
  do 16 (destruct n as [|n]; [done|]). lia.
Qed.

Lemma set_level_irql v w i : irql_of i = Some w → irql_of (set_level v i) = Some v.
Proof.
  unfold irql_of, set_level, set_var. intros.
  destruct (this_cpu i) eqn:E; simpl; rewrite E; [apply lookup_insert_eq | done].
Qed.

Lemma set_level_thread v i : thread_of (set_level v i) = thread_of i.
Proof. unfold thread_of, set_level, set_var. destruct (this_cpu i) eqn:E; simpl; by rewrite E. Qed.
Lemma set_ctx_thread v i : thread_of (set_ctx v i) = thread_of i.
Proof. unfold set_ctx, thread_of. repeat case_match; simpl in *; simplify_eq; done. Qed.
Lemma set_ctx_irql v i : irql_of (set_ctx v i) = irql_of i.
Proof. unfold set_ctx, irql_of. repeat case_match; simpl in *; simplify_eq; done. Qed.
Lemma set_ctx_cr8 v i : cr8 (set_ctx v i) = cr8 i.
Proof. unfold set_ctx. repeat case_match; done. Qed.
Lemma set_level_ctx_irql v i : ctx_irql (set_level v i) = ctx_irql i.
Proof. unfold set_level, set_var. by destruct (this_cpu i). Qed.

Lemma set_ctx_eq v i t :
  thread_of i = Some t →
  set_ctx v i = if truthy t then i <| ctx_irql ::= <[t := v]> |> else i.
Proof. intros Ht. unfold set_ctx. by rewrite Ht. Qed.

Lemma set_level_level a b i : set_level a (set_level b i) = set_level a i.
Proof.
  unfold set_level, set_var. destruct (this_cpu i) eqn:E; simpl; rewrite E; [|done].
  simpl. by rewrite insert_insert_eq.
Qed.
Lemma set_level_id v i : irql_of i = Some v → cr8 i = v → set_level v i = i.
Proof.
  unfold set_level, set_var, irql_of. destruct i as [[c|] ? m]; simpl; intros; subst.
  - by rewrite insert_id.
  - by simplify_eq.
Qed.
Lemma set_ctx_ctx a b i : set_ctx a (set_ctx b i) = set_ctx a i.
Proof.
  unfold set_ctx at 2. destruct (thread_of i) as [t|] eqn:E; [|done].
  destruct (truthy t) eqn:T; [|done].
  rewrite (set_ctx_eq a i t) by done.
  rewrite (set_ctx_eq a _ t) by exact E. rewrite T. simpl. by rewrite insert_insert_eq.
Qed.
Lemma set_ctx_id v i :
  (∀ t, thread_of i = Some t → t ≠ 0 → ctx_irql i !! t = Some v) → set_ctx v i = i.
Proof.
  intros H. unfold set_ctx. destruct (thread_of i) as [t|] eqn:E; [|done].
  destruct (truthy t) eqn:T; [|done]. apply truthy_true in T.
  specialize (H t eq_refl T). destruct i; simpl in *. by rewrite insert_id.
Qed.
Lemma set_level_ctx a b i : set_level a (set_ctx b i) = set_ctx b (set_level a i).
Proof.
  unfold set_ctx. rewrite set_level_thread.
  destruct (thread_of i) as [t|]; [|done]. destruct (truthy t); [|done].
  unfold set_level, set_var. simpl. by destruct (this_cpu i).
Qed.
Lemma set_level_this v i : this_cpu (set_level v i) = this_cpu i.
Proof. by destruct i as [[]]. Qed.
Lemma set_level_dpcs v i : dpcs (set_level v i) = dpcs i.
Proof. unfold set_level, set_var. by destruct (this_cpu i). Qed.
Lemma set_level_dpc_links v i : dpc_links (set_level v i) = dpc_links i.
Proof. unfold set_level, set_var. by destruct (this_cpu i). Qed.
Lemma set_level_dpc_objs v i : dpc_objs (set_level v i) = dpc_objs i.
Proof. unfold set_level, set_var. by destruct (this_cpu i). Qed.
Lemma set_level_locks v i : locks (set_level v i) = locks i.
Proof. unfold set_level, set_var. by destruct (this_cpu i). Qed.
Lemma set_level_cr8 v i : cr8 (set_level v i) = v.
Proof. done. Qed.
Lemma set_ctx_this v i : this_cpu (set_ctx v i) = this_cpu i.
Proof. unfold set_ctx. by repeat case_match. Qed.
Lemma set_ctx_dpcs v i : dpcs (set_ctx v i) = dpcs i.
Proof. unfold set_ctx. by repeat case_match. Qed.
Lemma set_ctx_locks v i : locks (set_ctx v i) = locks i.
Proof. unfold set_ctx. by repeat case_match. Qed.
Lemma set_ctx_lookup v i t :
  thread_of i = Some t → t ≠ 0 → ctx_irql (set_ctx v i) !! t = Some v.
Proof.
  intros Ht H0. rewrite (set_ctx_eq _ _ _ Ht), (proj2 (truthy_true _) H0). simpl.
  apply lookup_insert_eq.
Qed.

Lemma set_level_split v i :
  set_var v (mkIrq (this_cpu i) (s_irql i) (currentIrql i) v (currentThread i)
    (ctx_irql i) (locks i) (dpcs i) (dpc_links i) (dpc_objs i)) = set_level v i.
Proof. unfold set_level, set_var. simpl. by destruct (this_cpu i). Qed.

Lemma set_level_split' v i :
  mkIrq (this_cpu (set_var v i)) (s_irql (set_var v i)) (currentIrql (set_var v i)) v
    (currentThread (set_var v i)) (ctx_irql (set_var v i)) (locks (set_var v i))
    (dpcs (set_var v i)) (dpc_links (set_var v i)) (dpc_objs (set_var v i)) = set_level v i.
Proof. done. Qed.

#[local] Opaque set_var set_level set_ctx.

Lemma Core_RaiseIrqlNoThread_eq s v to :
  irq_wf (irq s) v → v <= to <= 15 → to ≠ 1 →
  Core_RaiseIrqlNoThread to s = Ret v (s <| irq ::= set_level to |>).
Proof.
  intros [Hv Hc Hr H1 _] Hto Hto1. unfold Core_RaiseIrqlNoThread.
  kstep with sync_irql_eq. rewrite irql_nibble by lia. kstep.
  kstep with read_irql_var_eq.
  rewrite (proj2 (Z.ltb_ge _ _)) by lia.
  kstep with Core_GetIrql_eq. kstep with read_irql_var_eq. kstep with CoreS_SetIRQL_eq.
  erewrite bind_Ret; [|eapply write_irql_var_eq; exact Hv].
  unfold mret, K_ret. simpl. do 2 f_equal. apply (set_level_split to (irq s)).
Qed.

Lemma Core_RaiseIrql_eq s v to :
  irq_wf (irq s) v → v <= to <= 15 → to ≠ 1 →
  Core_RaiseIrql to s = Ret v (s <| irq ::= λ i, set_ctx to (set_level to i) |>).
Proof.
  intros Hwf Hto H1. pose proof (wf_thread _ _ Hwf) as (t & Ht & Hctx).
  unfold Core_RaiseIrql. kstep with Core_RaiseIrqlNoThread_eq.
  erewrite bind_Ret; [|apply Core_GetCurrentThread_eq; simpl; rewrite set_level_thread; exact Ht].
  rewrite (set_ctx_eq _ _ t) by (rewrite set_level_thread; exact Ht).
  destruct (truthy t) eqn:E; [|done].
  apply truthy_true in E. destruct (Hctx E) as [w Hw].
  erewrite bind_Ret; [|apply store_eq; simpl; rewrite set_level_ctx_irql; exact Hw].
  done.
Qed.

Lemma Core_LowerIrqlNoDPCDispatch_eq s v to :
  irq_wf (irq s) v → 0 <= to <= v → to ≠ 1 →
  Core_LowerIrqlNoDPCDispatch to s = Ret () (s <| irq ::= set_level to |>).
Proof.
  intros [Hv Hc Hr H1 _] Hto Hto1. unfold Core_LowerIrqlNoDPCDispatch.
  kstep with sync_irql_eq. rewrite irql_nibble by lia. kstep.
  kstep with read_irql_var_eq. rewrite (proj2 (Z.ltb_ge _ _)) by lia.
  kstep with read_irql_var_eq. kstep with write_irql_var_eq.
  rewrite CoreS_SetIRQL_eq by done. simpl. do 2 f_equal.
Qed.

Lemma CoreH_DispatchDPCs_empty s c l :
  this_cpu (irq s) = Some c → dpcs (irq s) !! c = Some l → dl_head l = 0 →
  CoreH_DispatchDPCs s = Ret () s.
Proof.
  intros Hc Hl Hh. unfold CoreH_DispatchDPCs. kstep. rewrite Hc. kstep.
  erewrite bind_Ret; [|by apply load_eq]. simpl. by rewrite Hh.
Qed.

Lemma Core_LowerIrqlNoThread_eq s v to :
  irq_wf (irq s) v → 0 <= to <= v → to ≠ 1 → no_dpcs (irq s) →
  Core_LowerIrqlNoThread to s = Ret () (s <| irq ::= set_level to |>).
Proof.
  intros Hwf Hto Hto1 Hd. unfold Core_LowerIrqlNoThread.
  kstep with Core_LowerIrqlNoDPCDispatch_eq. kstep. rewrite set_level_this.
  destruct (this_cpu (irq s)) as [c|] eqn:Ec; simpl; rewrite ?andb_false_r, ?andb_true_r;
    [|done].
  destruct (to <? IRQL_DISPATCH) eqn:Elt; simpl; [|done].
  destruct (Hd c Ec) as (l & Hl & Hh). destruct Hwf as [Hv ? ? ? ?].
  kstep with CoreS_SetIRQL_eq.
  erewrite bind_Ret; [|eapply write_irql_var_eq; simpl; by eapply set_level_irql]. simpl.
  rewrite (set_level_split IRQL_DISPATCH (set_level to (irq s))), set_level_level.
  erewrite bind_Ret; [|eapply CoreH_DispatchDPCs_empty; simpl;
    rewrite ?set_level_this, ?set_level_dpcs; done]. simpl.
  erewrite bind_Ret; [|eapply write_irql_var_eq; simpl; by eapply set_level_irql]. simpl.
  rewrite CoreS_SetIRQL_eq by done. simpl.
  by rewrite set_level_split', set_level_level.
Qed.

(** Lowering below [IRQL_DISPATCH] dispatches what is pending, at that level. *)
Lemma Core_LowerIrqlNoThread_pending s v to c k :
  irq_wf (irq s) v → 0 <= to <= v → to < IRQL_DISPATCH → to ≠ 1 → this_cpu (irq s) = Some c →
  CoreH_DispatchDPCs (s <| irq ::= set_level IRQL_DISPATCH |>) = Ret () k → irq_wf (irq k) IRQL_DISPATCH →
  Core_LowerIrqlNoThread to s = Ret () (k <| irq ::= set_level to |>).
Proof.
  intros Hwf Hto Hlt Hto1 Hc E Hk. unfold Core_LowerIrqlNoThread.
  kstep with Core_LowerIrqlNoDPCDispatch_eq. kstep. rewrite set_level_this, Hc, (proj2 (Z.ltb_lt _ _) Hlt). simpl.
  destruct Hwf as [Hv ? ? ? ?]. kstep with CoreS_SetIRQL_eq.
  erewrite bind_Ret; [|eapply write_irql_var_eq; simpl; by eapply set_level_irql]. simpl.
  rewrite (set_level_split IRQL_DISPATCH (set_level to (irq s))), set_level_level.
  simpl in E. erewrite bind_Ret; [|exact E].
  erewrite bind_Ret; [|eapply write_irql_var_eq; apply Hk]. rewrite CoreS_SetIRQL_eq by done. simpl.
  by rewrite set_level_split'.
Qed.

(** At or above it nothing is dispatched. *)
Lemma Core_LowerIrqlNoThread_above s v to :
  irq_wf (irq s) v → IRQL_DISPATCH <= to <= v → Core_LowerIrqlNoThread to s = Ret () (s <| irq ::= set_level to |>).
Proof.
  intros Hwf Hto. unfold IRQL_DISPATCH in Hto. unfold Core_LowerIrqlNoThread.
  erewrite bind_Ret; [|eapply Core_LowerIrqlNoDPCDispatch_eq; [exact Hwf|lia|lia]]. kstep.
  by rewrite (proj2 (Z.ltb_ge to IRQL_DISPATCH)) by (unfold IRQL_DISPATCH; lia).
Qed.

Lemma Core_LowerIrql_eq s v to :
  irq_wf (irq s) v → 0 <= to <= v → to ≠ 1 → no_dpcs (irq s) →
  Core_LowerIrql to s = Ret () (s <| irq ::= λ i, set_ctx to (set_level to i) |>).
Proof.
  intros Hwf Hto H1 Hd. pose proof (wf_thread _ _ Hwf) as (t & Ht & Hctx).
  unfold Core_LowerIrql. kstep with Core_LowerIrqlNoThread_eq.
  erewrite bind_Ret; [|apply Core_GetCurrentThread_eq; simpl; rewrite set_level_thread; exact Ht].
  rewrite (set_ctx_eq _ _ t) by (rewrite set_level_thread; exact Ht).
  destruct (truthy t) eqn:E; [|done].
  apply truthy_true in E. destruct (Hctx E) as [w Hw]. unfold when, CoreS_SetThreadIRQL.
  erewrite store_eq; [|simpl; rewrite set_level_ctx_irql; exact Hw]. done.
Qed.
End quiet.

(** A processor that may call into the kernel: level [v] at most
    [IRQL_DISPATCH], no pending DPC, and the current thread's context in step. *)
Record quiet (i : irq_st) (v : Z) : Prop := {
  q_wf : irq_wf i v;
  q_le : v <= IRQL_DISPATCH;
  q_dpcs : no_dpcs i;
  q_ctx : ∀ t, thread_of i = Some t → t ≠ 0 → ctx_irql i !! t = Some v
}.

Definition held (i : irq_st) (nthr : bool) : spinlock :=
  mkSpin true true nthr (default 0 (thread_of i)).

(** The interrupt state inside a critical section: at [IRQL_DISPATCH] with the
    lock taken.  [acq_irql] is what the acquire returns. *)
Definition level_up (i : irq_st) : irq_st := set_ctx IRQL_DISPATCH (set_level IRQL_DISPATCH i).
Definition acq_st (i : irq_st) (l : lock_loc) : irq_st :=
  (level_up i) <| locks ::= <[l := held i false]> |>.
Definition acq_irql (v : Z) : Z := if v <? IRQL_DISPATCH then v else IRQL_INVALID.

Lemma level_up_id i : quiet i IRQL_DISPATCH → level_up i = i.
Proof.
  intros [[Hv Hc _ _ _] _ _ Hctx]. unfold level_up. rewrite set_level_id by done.
  by apply set_ctx_id.
Qed.

Lemma level_up_down i v :
  quiet i v → set_ctx v (set_level v (level_up i)) = i.
Proof.
  intros [[Hv Hc _ _ _] _ _ Hctx]. unfold level_up.
  rewrite set_level_ctx, set_ctx_ctx, set_level_level, set_level_id by done.
  by apply set_ctx_id.
Qed.

Lemma level_up_quiet i v : quiet i v → quiet (level_up i) IRQL_DISPATCH.
Proof.
  intros [[Hv Hc Hr H1 (t & Ht & Hctx)] Hle Hd Hq]. unfold level_up. split; [split|..].
  - rewrite set_ctx_irql. by eapply set_level_irql.
  - by rewrite set_ctx_cr8, set_level_cr8.
  - unfold IRQL_DISPATCH. lia.
  - done.
  - exists t. rewrite set_ctx_thread, set_level_thread. split; [done|]. intros H0.
    rewrite set_ctx_lookup by (rewrite ?set_level_thread; done). eauto.
  - done.
  - intros c. rewrite set_ctx_this, set_level_this, set_ctx_dpcs, set_level_dpcs. apply Hd.
  - intros t'. rewrite set_ctx_thread. intros. by apply set_ctx_lookup.
Qed.

Lemma quiet_locks i v f : quiet i v → quiet (i <| locks ::= f |>) v.
Proof. intros [[? ? ? ? ?] ? ? ?]. split; [split|..]; done. Qed.

Lemma acq_st_quiet i v l : quiet i v → quiet (acq_st i l) IRQL_DISPATCH.
Proof. intros Hq. apply quiet_locks. by eapply level_up_quiet. Qed.

Lemma level_up_locks i : locks (level_up i) = locks i.
Proof. unfold level_up. by rewrite set_ctx_locks, set_level_locks. Qed.
Lemma level_up_thread i : thread_of (level_up i) = thread_of i.
Proof. unfold level_up. by rewrite set_ctx_thread, set_level_thread. Qed.
Lemma level_up_this i : this_cpu (level_up i) = this_cpu i.
Proof. unfold level_up. by rewrite set_ctx_this, set_level_this. Qed.

Lemma level_up_current i : currentThread (level_up i) = currentThread i.
Proof. unfold level_up, set_ctx, set_level, set_var. repeat case_match; done. Qed.

Lemma acq_st_other i l l' : l ≠ l' → locks (acq_st i l) !! l' = locks i !! l'.
Proof. intros. unfold acq_st. simpl. by rewrite lookup_insert_ne, level_up_locks. Qed.
Lemma acq_st_thread i l : thread_of (acq_st i l) = thread_of i.
Proof. apply (level_up_thread i). Qed.
Lemma acq_st_this i l : this_cpu (acq_st i l) = this_cpu i.
Proof. apply (level_up_this i). Qed.

(** The lock is free. *)
Definition lock_free (i : irq_st) (l : lock_loc) : Prop :=
  locks i !! l = Some Core_SpinlockCreate.

Section brackets.
Context {DH : DpcHandlers}.

#[local] Opaque set_var set_level set_ctx.

(** Acquiring a free spinlock from a quiet state. *)
Lemma acquire_quiet s v l :
  quiet (irq s) v → lock_free (irq s) l →
  Core_SpinlockAcquire l s = Ret (acq_irql v) (s <| irq ::= λ i, acq_st i l |>).
Proof.
  intros Hq Hl. pose proof Hq as [Hwf Hle Hd Hctx].
  destruct (wf_thread _ _ Hwf) as (t & Ht & _).
  unfold Core_SpinlockAcquire, Core_SpinlockAcquireExplicit. simpl.
  assert ((w ← Core_GetIrql;
           if w <? IRQL_DISPATCH then Core_RaiseIrql IRQL_DISPATCH else mret IRQL_INVALID) s
          = Ret (acq_irql v) (s <| irq ::= level_up |>)) as Heq.
  { erewrite bind_Ret; [|eapply Core_GetIrql_eq; by destruct Hwf].
    unfold acq_irql. destruct (v <? IRQL_DISPATCH) eqn:E.
    - erewrite Core_RaiseIrql_eq; [done|done| |done].
      destruct Hwf. unfold IRQL_DISPATCH in *. lia.
    - assert (v = IRQL_DISPATCH) as -> by (unfold IRQL_DISPATCH in *; lia).
      unfold mret, K_ret. simpl. rewrite level_up_id by done. by destruct s. }
  erewrite bind_Ret; [|exact Heq]. unfold get_lock, set_lock.
  erewrite bind_Ret; [|apply load_eq; simpl; rewrite level_up_locks; exact Hl]. simpl.
  erewrite bind_Ret; [|apply store_eq; simpl; rewrite level_up_locks; exact Hl]. simpl.
  erewrite bind_Ret; [|apply store_eq; simpl; apply lookup_insert_eq]. simpl.
  erewrite bind_Ret; [|apply Core_GetCurrentThread_eq; simpl;
    rewrite <- Ht; apply (level_up_thread (irq s))]. simpl.
  erewrite bind_Ret; [|apply store_eq; simpl; apply lookup_insert_eq]. simpl.
  erewrite bind_Ret; [|apply store_eq; simpl; apply lookup_insert_eq]. simpl.
  unfold mret, K_ret, acq_st, held. rewrite Ht, !insert_insert_eq. simpl.
  done.
Qed.

(** At [IRQL_DISPATCH] the level stays, whatever is queued. *)
Lemma acquire_at_dispatch s l :
  irq_wf (irq s) IRQL_DISPATCH → lock_free (irq s) l →
  Core_SpinlockAcquire l s = Ret IRQL_INVALID (s <| irq ::= λ i, i <| locks ::= <[l := held i false]> |> |>).
Proof.
  intros Hwf Hl. destruct (wf_thread _ _ Hwf) as (t & Ht & _).
  unfold Core_SpinlockAcquire, Core_SpinlockAcquireExplicit. simpl.
  erewrite bind_Ret; [|erewrite bind_Ret; [|eapply Core_GetIrql_eq; by destruct Hwf]; reflexivity].
  unfold get_lock, set_lock. erewrite bind_Ret; [|by apply load_eq]. simpl.
  erewrite bind_Ret; [|by apply store_eq]. simpl.
  erewrite bind_Ret; [|apply store_eq; simpl; apply lookup_insert_eq]. simpl.
  erewrite bind_Ret; [|by apply Core_GetCurrentThread_eq]. simpl.
  erewrite bind_Ret; [|apply store_eq; simpl; apply lookup_insert_eq]. simpl.
  erewrite bind_Ret; [|apply store_eq; simpl; apply lookup_insert_eq]. simpl.
  unfold mret, K_ret, held. by rewrite Ht, !insert_insert_eq.
Qed.

(** Releasing it brings the interrupt state back exactly. *)
Lemma release_quiet s i v l :
  quiet i v → lock_free i l → irq s = acq_st i l →
  Core_SpinlockRelease l (acq_irql v) s = Ret OBOS_STATUS_SUCCESS (s <| irq := i |>).
Proof.
  intros Hq Hl Hs. pose proof (acq_st_quiet _ _ l Hq) as Hq2.
  pose proof Hq as [Hwf Hle Hd Hctx].
  assert (truthy (Z.land (acq_irql v) 0xf0) && negb (acq_irql v =? IRQL_INVALID) = false) as Ht.
  { unfold acq_irql. destruct (v <? IRQL_DISPATCH); [|done].
    rewrite irql_nibble by apply Hwf. done. }
  unfold Core_SpinlockRelease. rewrite Ht. unfold get_lock, set_lock.
  erewrite bind_Ret; [|apply store_eq; rewrite Hs; simpl; apply lookup_insert_eq]. simpl.
  erewrite bind_Ret; [|apply store_eq; simpl; apply lookup_insert_eq]. simpl.
  erewrite bind_Ret; [|apply store_eq; simpl; apply lookup_insert_eq]. simpl.
  erewrite bind_Ret; [|apply load_eq; simpl; apply lookup_insert_eq]. simpl.
  rewrite Hs, !insert_insert_eq. simpl. rewrite insert_insert_eq, level_up_locks.
  rewrite (insert_id _ _ _ Hl).
  replace (mkIrq _ _ _ _ _ _ _ _ _ _) with (level_up i)
    by (rewrite <- (level_up_locks i); by destruct (level_up i)).
  assert (when (negb (acq_irql v =? IRQL_INVALID)) (Core_LowerIrql (acq_irql v))
            (mkK (level_up i) (sch s) (obj s)) = Ret () (mkK i (sch s) (obj s))) as Heq.
  { unfold acq_irql. destruct (v <? IRQL_DISPATCH) eqn:E; simpl.
    - rewrite (proj2 (Z.eqb_neq v IRQL_INVALID)); simpl.
      2: { destruct Hwf. unfold IRQL_INVALID. lia. }
      pose proof (level_up_quiet _ _ Hq) as [Hwf2 _ Hd2 _].
      erewrite Core_LowerIrql_eq; [|exact Hwf2| |apply Hwf|done]; simpl.
      + by rewrite level_up_down.
      + destruct Hwf. unfold IRQL_DISPATCH in *. lia.
    - assert (v = IRQL_DISPATCH) as -> by (unfold IRQL_DISPATCH in *; lia).
      by rewrite level_up_id. }
  erewrite bind_Ret; [|exact Heq]. simpl.
  erewrite bind_Ret; [|apply store_eq; simpl; exact Hl]. simpl.
  rewrite insert_id by exact Hl. by destruct i.
Qed.

(** The variant that leaves the thread context alone, at [IRQL_DISPATCH]: the
    level does not change. *)
Definition nthr_st (i : irq_st) (l : lock_loc) : irq_st :=
  i <| locks ::= <[l := held i true]> |>.

Lemma acquire_nthr s l :
  quiet (irq s) IRQL_DISPATCH → lock_free (irq s) l →
  Core_SpinlockAcquireExplicit (Some l) IRQL_DISPATCH true s =
    Ret IRQL_INVALID (s <| irq ::= λ i, nthr_st i l |>).
Proof.
  intros [Hwf Hle Hd Hctx] Hl. destruct (wf_thread _ _ Hwf) as (t & Ht & _).
  unfold Core_SpinlockAcquireExplicit. simpl.
  erewrite bind_Ret.
  2: { erewrite bind_Ret; [|eapply Core_GetIrql_eq; by destruct Hwf]. done. }
  unfold get_lock, set_lock.
  erewrite bind_Ret; [|apply load_eq; exact Hl]. simpl.
  erewrite bind_Ret; [|apply store_eq; exact Hl]. simpl.
  erewrite bind_Ret; [|apply store_eq; simpl; apply lookup_insert_eq]. simpl.
  erewrite bind_Ret; [|by apply Core_GetCurrentThread_eq]. simpl.
  erewrite bind_Ret; [|apply store_eq; simpl; apply lookup_insert_eq]. simpl.
  erewrite bind_Ret; [|apply store_eq; simpl; apply lookup_insert_eq]. simpl.
  unfold mret, K_ret, nthr_st, held. by rewrite Ht, !insert_insert_eq.
Qed.

Lemma release_nthr s i l :
  quiet i IRQL_DISPATCH → lock_free i l → irq s = nthr_st i l →
  Core_SpinlockRelease l IRQL_DISPATCH s = Ret OBOS_STATUS_SUCCESS (s <| irq := i |>).
Proof.
  intros Hq Hl Hs. pose proof Hq as [Hwf Hle Hd Hctx].
  unfold Core_SpinlockRelease. simpl. unfold get_lock, set_lock.
  erewrite bind_Ret; [|apply store_eq; rewrite Hs; simpl; apply lookup_insert_eq]. simpl.
  erewrite bind_Ret; [|apply store_eq; simpl; apply lookup_insert_eq]. simpl.
  erewrite bind_Ret; [|apply store_eq; simpl; apply lookup_insert_eq]. simpl.
  erewrite bind_Ret; [|apply load_eq; simpl; apply lookup_insert_eq]. simpl.
  rewrite Hs, !insert_insert_eq. simpl. rewrite insert_insert_eq.
  set (i2 := mkIrq _ _ _ _ _ _ _ _ _ _).
  assert (quiet i2 IRQL_DISPATCH) as [Hwf2 _ Hd2 _].
  { apply (quiet_locks i IRQL_DISPATCH (<[l := mkSpin false false true 0]>) Hq). }
  erewrite bind_Ret; [|eapply Core_LowerIrqlNoThread_eq; [exact Hwf2|done|done|exact Hd2]]. simpl.
  rewrite set_level_id by apply Hwf2.
  erewrite bind_Ret; [|apply store_eq; simpl; apply lookup_insert_eq]. simpl.
  rewrite insert_insert_eq, insert_id by exact Hl. by destruct i.
Qed.

(** Releasing with [IRQL_INVALID] only frees the lock. *)
Lemma release_invalid s l sp :
  locks (irq s) !! l = Some sp →
  Core_SpinlockRelease l IRQL_INVALID s =
    Ret OBOS_STATUS_SUCCESS (s <| irq ::= λ i, i <| locks := <[l := Core_SpinlockCreate]> (locks i) |> |>).
Proof.
  intros Hl. unfold Core_SpinlockRelease. simpl. unfold get_lock, set_lock.
  erewrite bind_Ret; [|by apply store_eq]. simpl.
  do 2 (erewrite bind_Ret; [|apply store_eq; simpl; apply lookup_insert_eq]; simpl).
  erewrite bind_Ret; [|apply load_eq; simpl; apply lookup_insert_eq]. kstep.
  erewrite bind_Ret; [|apply store_eq; simpl; apply lookup_insert_eq]. simpl.
  by rewrite !insert_insert_eq.
Qed.

(** Acquiring at [IRQL_DISPATCH] only takes the lock. *)
Lemma acq_st_dispatch i l :
  quiet i IRQL_DISPATCH → acq_st i l = i <| locks ::= <[l := held i false]> |>.
Proof. intros Hq. unfold acq_st. by rewrite level_up_id. Qed.
End brackets.

(** ** What the locks and the levels guarantee *)

Section guarantees.
Context {DH : DpcHandlers}.

#[local] Opaque set_var set_level set_ctx.

(** A critical section is transparent: acquiring a free spinlock, running a body
    that leaves the interrupt state as it finds it, and releasing with the level
    the acquire returned has exactly the effect of the body; the lock is free
    again and the level (variable, hardware and thread context) is restored. *)
Theorem critical_section_transparent {A} (body : K kst A) s v l a s1 :
  quiet (irq s) v → lock_free (irq s) l →
  body (s <| irq ::= λ i, acq_st i l |>) = Ret a s1 → irq s1 = acq_st (irq s) l →
  (o ← Core_SpinlockAcquire l; a ← body; st ← Core_SpinlockRelease l o; mret (a, st)) s =
    Ret (a, OBOS_STATUS_SUCCESS) (s1 <| irq := irq s |>).
Proof.
  intros Hq Hl Hb Hi. erewrite bind_Ret; [|by eapply acquire_quiet].
  erewrite bind_Ret; [|exact Hb]. erewrite bind_Ret; [|by eapply (release_quiet _ (irq s))]. done.
Qed.


(** Raising the level and lowering it back is the identity on the whole state,
    and the raise returns the level to lower to. *)
Theorem raise_lower_roundtrip s v to :
  quiet (irq s) v → v <= to <= IRQL_MASKED → to ≠ 1 →
  ∃ s1, Core_RaiseIrql to s = Ret v s1 ∧ irql_of (irq s1) = Some to ∧ cr8 (irq s1) = to ∧
    Core_LowerIrql v s1 = Ret () s.
Proof.
  intros Hq Hto H1. pose proof Hq as [Hwf Hle Hd Hctx].
  pose proof Hwf as [Hv Hc Hr Hn1 (t & Ht & Hct)].
  eexists. split; [by eapply Core_RaiseIrql_eq|]. simpl.
  assert (irql_of (set_ctx to (set_level to (irq s))) = Some to) as Hv1
    by (rewrite set_ctx_irql; by eapply set_level_irql).
  split; [done|]. split; [by rewrite set_ctx_cr8, set_level_cr8|].
  erewrite Core_LowerIrql_eq; [|split; simpl; [exact Hv1|by rewrite set_ctx_cr8, set_level_cr8|..]|..].
  - simpl. rewrite set_level_ctx, set_ctx_ctx, set_level_level, set_level_id by done.
    rewrite set_ctx_id by done. by destruct s.
  - unfold IRQL_MASKED in Hto. lia.
  - done.
  - exists t. rewrite set_ctx_thread, set_level_thread. split; [done|]. intros H0.
    rewrite set_ctx_lookup by (rewrite ?set_level_thread; done). eauto.
  - lia.
  - done.
  - intros c. simpl. rewrite set_ctx_this, set_level_this, set_ctx_dpcs, set_level_dpcs. apply Hd.
Qed.

(** The level moves only in the direction asked for: raising to a lower level
    and lowering to a higher one panic, and so does any level above 15. *)
Theorem irql_misuse_panics s v to :
  irq_wf (irq s) v → 0 <= to <= 255 →
  (to < v ∨ 15 < to → Core_RaiseIrql to s = Stop Panic) ∧
  (v < to → Core_LowerIrql to s = Stop Panic).
Proof.
  intros [Hv Hc Hr H1 _] Hto.
  assert (15 < to → (Z.land to 0xf0 =? 0) = false) as Hhi.
  { intros Hgt. apply Z.eqb_neq. intros E.
    assert (to = Z.land to 0xf) as E'.
    { rewrite <- (Z.lor_0_r (Z.land to 0xf)), <- E.
      rewrite <- Z.land_lor_distr_r. change (Z.lor 0xf 0xf0) with (Z.ones 8).
      rewrite Z.land_ones by lia. symmetry. apply Z.mod_small. lia. }
    assert (Z.land to 0xf < 16); [|lia]. change 0xf with (Z.ones 4). rewrite Z.land_ones by lia.
    by apply Z.mod_pos_bound. }
  split.
  - intros Hbad. unfold Core_RaiseIrql. apply bind_Stop. unfold Core_RaiseIrqlNoThread.
    erewrite bind_Ret; [|by eapply sync_irql_eq].
    destruct (Z.land to 0xf0 =? 0) eqn:E.
    + erewrite bind_Ret; [|by apply assert_eq]. unfold truthy. rewrite E. cbn [negb].
      erewrite bind_Ret; [|by apply read_irql_var_eq].
      rewrite (proj2 (Z.ltb_lt _ _)); [done|]. destruct Hbad as [|Hb]; [done|]. by specialize (Hhi Hb).
    + by apply bind_Stop.
  - intros Hbad. unfold Core_LowerIrql. apply bind_Stop. unfold Core_LowerIrqlNoThread. apply bind_Stop.
    unfold Core_LowerIrqlNoDPCDispatch. erewrite bind_Ret; [|by eapply sync_irql_eq].
    destruct (Z.land to 0xf0 =? 0) eqn:E.
    + erewrite bind_Ret; [|by apply assert_eq]. unfold truthy. rewrite E. cbn [negb].
      erewrite bind_Ret; [|by apply read_irql_var_eq].
      by rewrite (proj2 (Z.ltb_lt _ _)).
    + by apply bind_Stop.
Qed.
End guarantees.
