(* ===== verification/SpinSmp.v ===== *)
(** * A spinlock between several processors ([locks/spinlock.c])

    [Irql] models the routines of [locks/spinlock.c] on the processor that runs them.
    Here the same routines run on any number of processors at once: a step is one access
    of one processor to the lock, or the change of its own level, in the order of the
    source.  Of the thread a processor runs, the level saved in its context is kept.
    What a processor does inside the critical section, and the deferred calls that
    lowering the level runs, are not part of this model. *)

From stdpp Require Import relations.
From S2P Require Import Prelude DList KState Irql.

(** ** Processors *)

(** Where a processor is: outside; before the level is raised, in the loop, and before each
    of the three stores of [Core_SpinlockAcquireExplicit]; inside; before each access of
    [Core_SpinlockRelease]; before each store of [Core_SpinlockForcedRelease]. *)
Inductive point :=
  | Outside
  | Raising | Spinning | TakeVariant | TakeOwner | TakeLocked
  | Inside
  | DropVal | DropOwner | DropLocked | Lowering | DropVariant
  | ForceVal | ForceVariant | ForceOwner | ForceLocked.

(** [before] is the level when [Core_SpinlockAcquireExplicit] was called; [newIrql] is what
    it returns and what is given to [Core_SpinlockRelease]. *)
Record processor := mkProcessor {
  thr : Z; level : Z; saved : Z; minIrql : Z; nthr : bool; newIrql : Z; before : Z; at_ : point
}.
#[export] Instance eta_processor : Etable processor :=
  λ r, mkProcessor (thr r) (level r) (saved r) (minIrql r) (nthr r) (newIrql r) (before r) (at_ r).

(** The change of the level by [Core_RaiseIrql] and [Core_LowerIrql], or by their variants that
    leave the thread alone. *)
Definition set_irql (nothread : bool) (v : Z) (p : processor) : processor :=
  p <| level := v |> <| saved ::= λ o, if nothread || negb (truthy (thr p)) then o else v |>.

(** The steps of [Core_SpinlockAcquireExplicit]. *)
Definition acquire_step (l : spinlock) (p : processor) : option (spinlock * processor) :=
  match at_ p with
  | Raising =>
      let p' := if minIrql p =? IRQL_INVALID then p <| newIrql := IRQL_INVALID |>
                else if level p <? minIrql p then (set_irql (nthr p) (minIrql p) p) <| newIrql := level p |>
                else p <| newIrql := IRQL_INVALID |> in
      Some (l, p' <| at_ := Spinning |>)
  | Spinning => Some (l <| val := true |>, p <| at_ := if val l then Spinning else TakeVariant |>)
  | TakeVariant => Some (l <| irqlNThrVariant := nthr p |>, p <| at_ := TakeOwner |>)
  | TakeOwner => Some (l <| owner := thr p |>, p <| at_ := TakeLocked |>)
  | TakeLocked => Some (l <| locked := true |>, p <| at_ := Inside |>)
  | _ => None
  end.

(** The steps of [Core_SpinlockRelease]. *)
Definition release_step (l : spinlock) (p : processor) : option (spinlock * processor) :=
  match at_ p with
  | DropVal => Some (l <| val := false |>, p <| at_ := DropOwner |>)
  | DropOwner => Some (l <| owner := nullptr |>, p <| at_ := DropLocked |>)
  | DropLocked => Some (l <| locked := false |>, p <| at_ := Lowering |>)
  | Lowering =>
      let p' := if newIrql p =? IRQL_INVALID then p else set_irql (irqlNThrVariant l) (newIrql p) p in
      Some (l, p' <| at_ := DropVariant |>)
  | DropVariant => Some (l <| irqlNThrVariant := false |>, p <| at_ := Outside |>)
  | _ => None
  end.

(** The steps of [Core_SpinlockForcedRelease]. *)
Definition force_step (l : spinlock) (p : processor) : option (spinlock * processor) :=
  match at_ p with
  | ForceVal => Some (l <| val := false |>, p <| at_ := ForceVariant |>)
  | ForceVariant => Some (l <| irqlNThrVariant := false |>, p <| at_ := ForceOwner |>)
  | ForceOwner => Some (l <| owner := nullptr |>, p <| at_ := ForceLocked |>)
  | ForceLocked => Some (l <| locked := false |>, p <| at_ := Outside |>)
  | _ => None
  end.

(** What a processor may do next: call one of the routines, which the last two need the lock
    for, or take one step in the routine it is in. *)
Inductive act := Call_Acquire (min : Z) (variant : bool) | Call_Release | Call_Forced | Step.

Definition legal_irql (v : Z) : bool := (v =? IRQL_INVALID) || ((0 <=? v) && (v <=? IRQL_MASKED) && negb (v =? 1)).

Definition act_step (a : act) (l : spinlock) (p : processor) : option (spinlock * processor) :=
  match a, at_ p with
  | Call_Acquire min variant, Outside =>
      if legal_irql min then Some (l, p <| minIrql := min |> <| nthr := variant |> <| before := level p |> <| at_ := Raising |>) else None
  | Call_Release, Inside => Some (l, p <| at_ := DropVal |>)
  | Call_Forced, Inside => Some (l, p <| at_ := ForceVal |>)
  | Step, _ =>
      match acquire_step l p with
      | Some r => Some r
      | None => match release_step l p with Some r => Some r | None => force_step l p end
      end
  | _, _ => None
  end.

(** ** The system *)

Record smp := mkSmp { lk : spinlock; cpus_ : list processor }.

Definition exec (i : nat) (a : act) (s : smp) : option smp :=
  p ← cpus_ s !! i;
  r ← act_step a (lk s) p;
  Some (mkSmp r.1 (<[i := r.2]> (cpus_ s))).

Inductive smp_step (s s' : smp) : Prop :=
  | smp_exec i a : exec i a s = Some s' → smp_step s s'.

(** Nobody is in a routine of the lock. *)
Definition smp_init (ps : list processor) : smp := mkSmp Core_SpinlockCreate ps.

(** The processor has the lock: from its successful test on, until it clears the flag. *)
Definition holding (p : processor) : bool :=
  match at_ p with
  | TakeVariant | TakeOwner | TakeLocked | Inside | DropVal | ForceVal => true
  | _ => false
  end.

(** ** The invariant *)

(** What [newIrql] says of the level. *)
Definition raised (p : processor) : Prop :=
  (newIrql p = IRQL_INVALID ∧ level p = before p ∧ (minIrql p ≠ IRQL_INVALID → minIrql p <= level p)) ∨
  (newIrql p = before p ∧ level p = minIrql p ∧ newIrql p ≠ IRQL_INVALID).

Definition level_ok (p : processor) : Prop :=
  match at_ p with
  | Outside | ForceVariant | ForceOwner | ForceLocked => True
  | Raising => level p = before p ∧ legal_irql (minIrql p) = true
  | DropVariant => level p = before p
  | _ => raised p
  end.

(** [h] is the processor that has the lock. *)
Record smp_inv (s : smp) (h : option nat) : Prop := {
  si_val : val (lk s) = bool_decide (is_Some h);
  si_range i : h = Some i → (i < length (cpus_ s))%nat;
  si_holds i p : cpus_ s !! i = Some p → holding p = true ↔ h = Some i;
  si_level i p : cpus_ s !! i = Some p → level_ok p
}.

Lemma smp_inv_init ps : Forall (λ p, at_ p = Outside) ps → smp_inv (smp_init ps) None.
Proof.
  rewrite Forall_lookup. intros Hps. split; [done|done|..]; intros i p Hp; specialize (Hps i p Hp).
  - unfold holding. by rewrite Hps.
  - unfold level_ok. by rewrite Hps.
Qed.

Lemma smp_inv_upd s h h' i p l' p' :
  smp_inv s h → cpus_ s !! i = Some p → val l' = bool_decide (is_Some h') →
  (h' = h ∨ (h = None ∧ h' = Some i) ∨ (h = Some i ∧ h' = None)) → (holding p' = true ↔ h' = Some i) → level_ok p' →
  smp_inv (mkSmp l' (<[i := p']> (cpus_ s))) h'.
Proof.
  intros [Hv Hr Hh Hl] Hp Hv' Hcase Hh' Hl'. pose proof (lookup_lt_Some _ _ _ Hp) as Hlt. split; simpl; [done|..].
  - intros j ->. rewrite length_insert. destruct Hcase as [E|[[_ [= ->]]|[_ ?]]]; [by apply Hr|done|done].
  - intros j q [(-> & -> & _)|[Hne Hq]]%list_lookup_insert_Some; [done|]. rewrite (Hh j q Hq).
    destruct Hcase as [->|[[-> ->]|[-> ->]]]; [done|naive_solver..].
  - intros j q [(-> & -> & _)|[Hne Hq]]%list_lookup_insert_Some; [done|]. by apply (Hl j q).
Qed.

(** What a step does to the flag and to who has the lock. *)
Lemma act_step_holding a l p l' p' : act_step a l p = Some (l', p') →
  (val l' = val l ∧ holding p' = holding p) ∨
  (val l = false ∧ val l' = true ∧ holding p = false ∧ holding p' = true) ∨
  (val l' = false ∧ holding p = true ∧ holding p' = false).
Proof.
  unfold act_step, acquire_step, release_step, force_step, holding. destruct l as [v lo ir ow], p as [t lv sv mi nt nw bf pt].
  destruct a; destruct pt; try done; simpl; intros E; repeat case_match; simplify_eq; simpl; try (by left); naive_solver.
Qed.

Lemma raise_level p : level p = before p → legal_irql (minIrql p) = true →
  raised (if minIrql p =? IRQL_INVALID then p <| newIrql := IRQL_INVALID |>
          else if level p <? minIrql p then (set_irql (nthr p) (minIrql p) p) <| newIrql := level p |>
          else p <| newIrql := IRQL_INVALID |>).
Proof.
  unfold legal_irql, raised, IRQL_INVALID, IRQL_MASKED. intros Hb Hm.
  destruct (Z.eqb_spec (minIrql p) 255) as [E|E]; [left; simpl; auto with lia|].
  destruct (Z.ltb_spec (level p) (minIrql p)); simpl in *; [right|left]; split_and!; auto with lia.
Qed.

Lemma act_step_level a l p l' p' : level_ok p → act_step a l p = Some (l', p') → level_ok p'.
Proof.
  unfold act_step, acquire_step, release_step, force_step, level_ok. intros Hl E.
  destruct a, (at_ p) eqn:Ep; try discriminate E; cbn in E.
  - destruct (legal_irql min) eqn:Em; [|done]. by simplify_eq.
  - by simplify_eq.
  - by simplify_eq.
  - injection E as <- <-. destruct Hl as [Hb Hm]. pose proof (raise_level p Hb Hm) as Hr. by destruct (if minIrql p =? _ then _ else _).
  - injection E as <- <-. simpl. by destruct (val l).
  - by simplify_eq.
  - by simplify_eq.
  - by simplify_eq.
  - by simplify_eq.
  - by simplify_eq.
  - by simplify_eq.
  - injection E as <- <-. unfold raised in Hl. destruct (Z.eqb_spec (newIrql p) IRQL_INVALID); simpl; destruct Hl as [(?&?&?)|(?&?&?)]; congruence.
  - by simplify_eq.
  - by simplify_eq.
  - by simplify_eq.
  - by simplify_eq.
  - by simplify_eq.
Qed.

Lemma smp_inv_step s s' h : smp_inv s h → smp_step s s' → ∃ h', smp_inv s' h'.
Proof.
  intros Hi [i a E]. unfold exec in E. apply bind_Some in E as (p & Hp & E). apply bind_Some in E as ([l' p'] & E & [= <-]).
  pose proof (act_step_level _ _ _ _ _ (si_level _ _ Hi i p Hp) E) as Hl. pose proof (si_holds _ _ Hi i p Hp) as Hh.
  pose proof (si_val _ _ Hi) as Hv.
  destruct (act_step_holding _ _ _ _ _ E) as [[Ev Eh]|[(Ev & Ev' & Eh & Eh')|(Ev & Eh & Eh')]].
  - exists h. apply (smp_inv_upd s h h i p); [done|done|by rewrite Ev|by left|by rewrite Eh|done].
  - exists (Some i). apply (smp_inv_upd s h _ i p); [done|done|by rewrite Ev'| |by rewrite Eh'|done]. right. left.
    rewrite Hv in Ev. by destruct h.
  - exists None. apply (smp_inv_upd s h _ i p); [done|done|by rewrite Ev| |by rewrite Eh'|done]. right. right. split; [by apply Hh|done].
Qed.

Lemma smp_reach_inv ps s : Forall (λ p, at_ p = Outside) ps → rtc smp_step (smp_init ps) s → ∃ h, smp_inv s h.
Proof.
  intros Hps. revert s. apply rtc_ind_r.
  - exists None. by apply smp_inv_init.
  - intros s s' _ Hst [h Hi]. by apply (smp_inv_step s s' h).
Qed.

(** ** One processor running while the others stand still *)

Inductive solo (c c' : spinlock * processor) : Prop :=
  | solo_act a : act_step a c.1 c.2 = Some c' → solo c c'.

Lemma solo_run i c c' : rtc solo c c' → ∀ ps, ps !! i = Some c.2 → rtc smp_step (mkSmp c.1 ps) (mkSmp c'.1 (<[i := c'.2]> ps)).
Proof.
  induction 1 as [c|c c1 c' [a E] _ IH]; intros ps Hp; [by rewrite list_insert_id|].
  eapply rtc_l; [eapply (smp_exec _ _ i a); unfold exec; simpl; rewrite Hp; simpl; by rewrite E|].
  rewrite <- (list_insert_insert_eq _ i c'.2 c1.2). apply IH. apply list_lookup_insert_eq. by eapply lookup_lt_Some.
Qed.

Lemma solo_l a l p c c' : act_step a l p = Some c → rtc solo c c' → rtc solo (l, p) c'.
Proof. intros E. apply rtc_l. by apply (solo_act _ _ a). Qed.

(** One more step of the processor itself, the state being known. *)
Ltac alone a := eapply (solo_l a); [reflexivity|].

(** Whoever has the lock can give it up. *)
Lemma solo_leave l p : holding p = true → ∃ l' p', rtc solo (l, p) (l', p') ∧ val l' = false ∧ holding p' = false.
Proof.
  destruct p as [t lv sv mi nt nw bf pt]. destruct pt; try done; intros _; eexists _, _.
  - split; [do 3 alone Step; alone Call_Release; alone Step; apply rtc_refl|done].
  - split; [do 2 alone Step; alone Call_Release; alone Step; apply rtc_refl|done].
  - split; [alone Step; alone Call_Release; alone Step; apply rtc_refl|done].
  - split; [alone Call_Release; alone Step; apply rtc_refl|done].
  - split; [alone Step; apply rtc_refl|done].
  - split; [alone Step; apply rtc_refl|done].
Qed.

(** Whoever spins gets a free lock. *)
Lemma solo_enter l p : at_ p = Spinning → val l = false → ∃ p', rtc solo (l, p) (mkSpin true true (nthr p) (thr p), p') ∧ at_ p' = Inside.
Proof.
  destruct p as [t lv sv mi nt nw bf pt], l as [v lo ir ow]. simpl. intros -> ->. eexists.
  split; [do 4 alone Step; apply rtc_refl|done].
Qed.

(** Whoever spins can still get in. *)
Lemma smp_enters s h i p : smp_inv s h → cpus_ s !! i = Some p → at_ p = Spinning →
  ∃ s' p', rtc smp_step s s' ∧ cpus_ s' !! i = Some p' ∧ at_ p' = Inside ∧ val (lk s') = true.
Proof.
  intros Hi Hp Hsp. pose proof (lookup_lt_Some _ _ _ Hp) as Hlt.
  assert (∃ l1 ps1, rtc smp_step s (mkSmp l1 ps1) ∧ val l1 = false ∧ ps1 !! i = Some p) as (l1 & ps1 & Hr1 & Hv1 & Hp1).
  { destruct h as [j|].
    - destruct (lookup_lt_is_Some_2 _ _ (si_range _ _ Hi j eq_refl)) as [q Hq].
      destruct (solo_leave (lk s) q) as (l' & q' & Hs & Hv' & _); [by apply (si_holds _ _ Hi j q Hq)|].
      pose proof (solo_run j _ _ Hs (cpus_ s) Hq) as Hr. destruct s as [l0 ps0]. eexists _, _. split; [exact Hr|]. split; [done|].
      simpl. rewrite list_lookup_insert_ne; [done|]. intros ->. simpl in *. assert (q = p) as -> by congruence.
      assert (holding p = true) as Hc by (by apply (si_holds _ _ Hi i p Hp)). unfold holding in Hc. by rewrite Hsp in Hc.
    - destruct s as [l0 ps0]. exists l0, ps0. split; [apply rtc_refl|]. split; [apply (si_val _ _ Hi)|done]. }
  destruct (solo_enter l1 p Hsp Hv1) as (p' & Hs & Hin). eexists _, p'. split; [etrans; [exact Hr1|apply (solo_run i _ _ Hs ps1 Hp1)]|].
  simpl. split; [apply list_lookup_insert_eq; by eapply lookup_lt_Some|done].
Qed.

(** Acquiring and releasing with nobody else there, from a level below the one asked for:
    the lock passes through the state that [Irql] gives it and is free again, and the
    level and the thread's are what they were. *)
Lemma solo_cycle p min variant : at_ p = Outside → legal_irql min = true → min ≠ IRQL_INVALID → level p < min → saved p = level p →
  ∃ p1 p2, rtc solo (Core_SpinlockCreate, p) (mkSpin true true variant (thr p), p1) ∧ at_ p1 = Inside ∧ level p1 = min ∧ newIrql p1 = level p ∧
    rtc solo (mkSpin true true variant (thr p), p1) (Core_SpinlockCreate, p2) ∧ at_ p2 = Outside ∧ level p2 = level p ∧ saved p2 = saved p.
Proof.
  destruct p as [t lv sv mi nt nw bf pt]. simpl. intros -> Hm Hi Hlt ->.
  assert (min =? IRQL_INVALID = false ∧ lv <? min = true ∧ lv =? IRQL_INVALID = false) as (E1 & E2 & E3).
  { rewrite !Z.eqb_neq, Z.ltb_lt. unfold legal_irql, IRQL_INVALID, IRQL_MASKED in *. lia. }
  eexists _, _. split.
  { eapply (solo_l (Call_Acquire min variant)); [simpl; rewrite Hm; reflexivity|].
    eapply (solo_l Step); [simpl; unfold acquire_step; simpl; rewrite E1, E2; reflexivity|]. do 4 alone Step. apply rtc_refl. }
  split; [done|]. split; [done|]. split; [done|]. split.
  { alone Call_Release. do 3 alone Step. eapply (solo_l Step); [simpl; unfold release_step; simpl; rewrite E3; reflexivity|].
    alone Step. apply rtc_refl. }
  split; [done|]. split; [done|]. simpl. by destruct variant, (truthy t).
Qed.

(** ** What the lock guarantees *)

(** [C27] One spinlock between any number of processors, whatever the interleaving of
    their accesses to it: at most one processor has the lock at a time, from its
    successful test of the flag until it clears it, and the flag is set exactly while
    one has it; while it has the lock, a processor is at least at the level it asked
    for, and when a release is about to return, the level is that from before the
    acquire; and whoever spins can still get the lock, once the others go on. The
    processors release only what they acquired. *)
Theorem spinlock_exclusion ps s :
  Forall (λ p, at_ p = Outside) ps → rtc smp_step (smp_init ps) s →
  (∀ i j p q, cpus_ s !! i = Some p → cpus_ s !! j = Some q → holding p = true → holding q = true → i = j) ∧
  (val (lk s) = true ↔ ∃ i p, cpus_ s !! i = Some p ∧ holding p = true) ∧
  (∀ i p, cpus_ s !! i = Some p → holding p = true → minIrql p ≠ IRQL_INVALID → minIrql p <= level p) ∧
  (∀ i p, cpus_ s !! i = Some p → at_ p = DropVariant → level p = before p) ∧
  (∀ i p, cpus_ s !! i = Some p → at_ p = Spinning →
     ∃ s' p', rtc smp_step s s' ∧ cpus_ s' !! i = Some p' ∧ at_ p' = Inside ∧ val (lk s') = true).
Proof.
  intros Hps Hr. destruct (smp_reach_inv ps s Hps Hr) as (h & Hi). pose proof Hi as [Hv Hra Hh Hl]. split_and!.
  - intros i j p q Hp Hq Hhp Hhq. apply (Hh i p Hp) in Hhp. apply (Hh j q Hq) in Hhq. congruence.
  - rewrite Hv, bool_decide_eq_true. split.
    + intros [i ->]. destruct (lookup_lt_is_Some_2 _ _ (Hra i eq_refl)) as [p Hp]. exists i, p. split; [done|]. by apply (Hh i p Hp).
    + intros (i & p & Hp & Hhp). apply (Hh i p Hp) in Hhp as ->. done.
  - intros i p Hp Hhp Hm. specialize (Hl i p Hp). unfold level_ok, holding, raised in *. destruct (at_ p); try done; naive_solver lia.
  - intros i p Hp E. specialize (Hl i p Hp). unfold level_ok in Hl. by rewrite E in Hl.
  - intros i p Hp E. by apply (smp_enters s h i p).
Qed.

(** ** The stores after the flag is cleared

    [Core_SpinlockRelease] clears the flag before it writes [owner] and [locked], reads
    [irqlNThrVariant] and clears it.  Another processor may have the lock by then: it is
    inside with [locked] and [irqlNThrVariant] cleared and no owner, and the first one has
    read the other's variant: it is back at the passive level, but its thread's saved level
    is still [IRQL_DISPATCH]. *)
Definition two_cpus : list processor := [mkProcessor 8 0 0 0 false 0 0 Outside; mkProcessor 16 0 0 0 false 0 0 Outside].

Definition race : list (nat * act) :=
  [(0%nat, Call_Acquire IRQL_DISPATCH false)] ++ replicate 5 (0%nat, Step) ++ [(0%nat, Call_Release); (0%nat, Step)] ++
  [(1%nat, Call_Acquire IRQL_DISPATCH true)] ++ replicate 5 (1%nat, Step) ++ replicate 4 (0%nat, Step).

Fixpoint exec_all (es : list (nat * act)) (s : smp) : option smp :=
  match es with
  | [] => Some s
  | (i, a) :: es => s ← exec i a s; exec_all es s
  end.

Lemma exec_all_reach es s s' : exec_all es s = Some s' → rtc smp_step s s'.
Proof.
  revert s. induction es as [|[i a] es IH]; intros s; simpl; [by intros [= ->]|].
  intros (s1 & E & E1)%bind_Some. eapply rtc_l; [by apply (smp_exec _ _ i a)|by apply IH].
Qed.

Theorem release_races :
  ∃ s p q, rtc smp_step (smp_init two_cpus) s ∧ cpus_ s = [p; q] ∧ at_ q = Inside ∧ nthr q = true ∧ lk s = mkSpin true false false nullptr ∧
    at_ p = Outside ∧ level p = IRQL_PASSIVE ∧ saved p = IRQL_DISPATCH.
Proof.
  assert (exec_all race (smp_init two_cpus) = Some (mkSmp (mkSpin true false false nullptr)
    [mkProcessor 8 0 2 2 false 0 0 Outside; mkProcessor 16 2 0 2 true 0 0 Inside])) as E by (vm_compute; reflexivity).
  eexists _, _, _. split; [exact (exec_all_reach _ _ _ E)|]. simpl. repeat split.
Qed.
