(* ===== verification/ThreadList.v ===== *)
(** * Thread lists ([scheduler/thread.c])

    [CoreH_ThreadListAppend] and [CoreH_ThreadListRemove] with their lock and
    their debug-build membership check, and what they promise to the scheduler
    and to the waitable objects: run from a quiet state on a well-formed list
    they refine appending and removing, they leave every other node alone, and
    they restore the interrupt state. *)

From S2P Require Import Prelude DList KState Irql.

Section ops.
Context {DH : DpcHandlers}.

(** [CoreH_CPUIdToAffinity]; [thread_affinity] has 128 bits. *)
Definition CoreH_CPUIdToAffinity (cpuId : Z) : Z := wrap 128 (Z.shiftl 1 cpuId).

(** A link operation on a thread list, and on its counter. *)
Definition list_op (l : list_loc) (op : lheap → dlist → option (lheap * dlist)) : K kst () :=
  d ← get_list l;
  h ← gets (λ s, tlinks (sch s));
  p ← deref_opt (op h d);
  sch_upd (λ c, c <| tlinks := p.1 |> <| lists ::= <[l := p.2]> |>).
Definition list_count (l : list_loc) (f : Z → Z) : K kst () :=
  store (λ s, lists (sch s)) (λ m s, s <| sch ::= λ c, c <| lists := m |> |>) l
    (λ d, d <| dl_nNodes ::= f |>).

(** The unlocking epilogue shared by the two routines. *)
Definition unlock_list (list : list_loc) (oldIrql : Z) : K kst () :=
  st ← Core_SpinlockRelease (ThreadListLock list) oldIrql;
  when (negb (bool_decide (st = OBOS_STATUS_SUCCESS))) (
    Core_LowerIrql oldIrql;;
    Core_SpinlockForcedRelease (ThreadListLock list)).

Definition CoreH_ThreadListAppend (list : option list_loc) (node : Z) : K kst obos_status :=
  match list with
  | None => mret OBOS_STATUS_INVALID_ARGUMENT
  | Some list =>
      if negb (truthy node) then mret OBOS_STATUS_INVALID_ARGUMENT else
      n ← get_node node;
      if negb (truthy (tn_data n)) then mret OBOS_STATUS_INVALID_ARGUMENT else
      oldIrql ← Core_SpinlockAcquire (ThreadListLock list);
      list_op list (λ h l, link_tail h l node);;
      list_count list (λ n, wrap64 (n + 1));;
      unlock_list list oldIrql;;
      mret OBOS_STATUS_SUCCESS
  end.

(** The debug loop: is [node] reached from [cur]?  [None]: a dangling pointer.
    The fuel bounds the number of distinct nodes, so that running out of it
    means the chain is cyclic. *)
Fixpoint reaches (fuel : nat) (h : lheap) (cur node : Z) : K kst bool :=
  if negb (truthy cur) then mret false
  else if cur =? node then mret true
  else match fuel with
       | O => stop Hang
       | S fuel => l ← deref_opt (h !! cur); reaches fuel h (dl_next l) node
       end.

Definition CoreH_ThreadListRemove (list : option list_loc) (node : Z) : K kst obos_status :=
  match list with
  | None => mret OBOS_STATUS_INVALID_ARGUMENT
  | Some list =>
      if negb (truthy node) then mret OBOS_STATUS_INVALID_ARGUMENT else
      n ← get_node node;
      if negb (truthy (tn_data n)) then mret OBOS_STATUS_INVALID_ARGUMENT else
      oldIrql ← Core_SpinlockAcquire (ThreadListLock list);
      d ← get_list list;
      h ← gets (λ s, tlinks (sch s));
      found ← reaches (size h + 1) h (dl_head d) node;
      OBOS_ASSERT found;;
      list_op list (λ h l, unlink h l node);;
      list_count list (λ n, wrap64 (n - 1));;
      list_op list (λ h l, h ← set_next h node nullptr; Some (h, l));;
      list_op list (λ h l, h ← set_prev h node nullptr; Some (h, l));;
      unlock_list list oldIrql;;
      mret OBOS_STATUS_SUCCESS
  end.

End ops.

(** ** Contract *)

(** The list at [l] holds the nodes [xs], all of them live objects. *)
Definition tl_rep (c : sched_st) (l : list_loc) (xs : list Z) : Prop :=
  ∃ d, lists c !! l = Some d ∧ dl_rep (tlinks c) d xs.

(** The scheduler state with one list and its links replaced. *)
Definition with_list (l : list_loc) (d : dlist) (h : lheap) (c : sched_st) : sched_st :=
  c <| tlinks := h |> <| lists ::= <[l := d]> |>.

Lemma tl_rep_other c l d h l' xs ps :
  l ≠ l' → links_frame ps (tlinks c) h → (∀ y, y ∈ xs → y ∉ ps) →
  tl_rep c l' xs → tl_rep (with_list l d h c) l' xs.
Proof.
  intros Hl Hf Hd (d' & Hd' & Hrep). exists d'. split.
  - simpl. by rewrite lookup_insert_ne.
  - simpl. by eapply links_frame_rep.
Qed.

Lemma tl_rep_self c l d h xs : dl_rep h d xs → tl_rep (with_list l d h c) l xs.
Proof. intros H. exists d. split; [apply lookup_insert_eq|done]. Qed.

Section contract.
Context {DH : DpcHandlers}.

(** What [CoreH_ThreadListAppend] needs of its argument: a node that carries a
    thread, is in no list, and whose own [next] is null. *)
Record appendable (c : sched_st) (node : Z) (xs : list Z) : Prop := {
  ap_nonnull : node ≠ 0;
  ap_data : ∃ n, tnodes c !! node = Some n ∧ tn_data n ≠ 0;
  ap_link : ∃ lk, tlinks c !! node = Some lk ∧ dl_next lk = 0;
  ap_fresh : node ∉ xs;
  ap_room : Z.of_nat (length xs) + 1 < 2 ^ 64
}.

Lemma list_op_eq s l op d h' d' :
  lists (sch s) !! l = Some d → op (tlinks (sch s)) d = Some (h', d') →
  list_op l op s = Ret () (s <| sch ::= with_list l d' h' |>).
Proof.
  intros Hl Hop. unfold list_op, get_list.
  erewrite bind_Ret; [|by apply load_eq]. kstep.
  erewrite bind_Ret; [|by apply deref_opt_eq]. done.
Qed.

Lemma list_count_eq s l f d :
  lists (sch s) !! l = Some d →
  list_count l f s =
    Ret () (s <| sch ::= with_list l (d <| dl_nNodes ::= f |>) (tlinks (sch s)) |>).
Proof. intros Hl. unfold list_count. erewrite store_eq by done. done. Qed.

Lemma with_list_twice l d1 h1 d2 h2 c :
  with_list l d2 h2 (with_list l d1 h1 c) = with_list l d2 h2 c.
Proof. unfold with_list. simpl. by rewrite insert_insert_eq. Qed.

Lemma unlock_list_eq s i v l :
  quiet i v → lock_free i (ThreadListLock l) → irq s = acq_st i (ThreadListLock l) →
  unlock_list l (acq_irql v) s = Ret () (s <| irq := i |>).
Proof.
  intros Hq Hl Hi. unfold unlock_list.
  erewrite bind_Ret; [|by eapply release_quiet]. done.
Qed.

(** The list struct after [node] is appended to [xs]. *)
Definition appended (xs : list Z) (node : Z) : dlist :=
  mkList (default node (head xs)) node (Z.of_nat (length xs) + 1).

Lemma ThreadListAppend_eq s v l xs node d h' l' :
  quiet (irq s) v → lock_free (irq s) (ThreadListLock l) →
  lists (sch s) !! l = Some d → dl_nNodes d = Z.of_nat (length xs) →
  appendable (sch s) node xs →
  link_tail (tlinks (sch s)) d node = Some (h', l') →
  CoreH_ThreadListAppend (Some l) node s =
    Ret OBOS_STATUS_SUCCESS
      (s <| sch ::= with_list l (l' <| dl_nNodes ::= λ n, wrap64 (n + 1) |>) h' |>).
Proof.
  intros Hq Hlk Hd Hcnt [Hnn (n & Hn & Hdata) _ Hfr Hroom] Hlt.
  unfold CoreH_ThreadListAppend. rewrite (truthy_nz _ Hnn). simpl. unfold get_node.
  erewrite bind_Ret; [|by apply load_eq]. rewrite (truthy_nz _ Hdata). simpl.
  erewrite bind_Ret; [|by eapply acquire_quiet]. simpl.
  erewrite bind_Ret; [|by eapply list_op_eq]. simpl.
  erewrite bind_Ret; [|eapply list_count_eq; simpl; apply lookup_insert_eq]. simpl.
  rewrite with_list_twice. simpl.
  erewrite bind_Ret; [|by eapply unlock_list_eq]. done.
Qed.

(** Appending is independent of the rest of the scheduler's state. *)
Lemma ThreadListAppend_det s v l xs node :
  quiet (irq s) v → lock_free (irq s) (ThreadListLock l) →
  tl_rep (sch s) l xs → appendable (sch s) node xs →
  ∃ h, dl_rep h (appended xs node) (xs ++ [node]) ∧
    links_frame (node :: xs) (tlinks (sch s)) h ∧
    ∀ s', irq s' = irq s → lists (sch s') = lists (sch s) →
      tlinks (sch s') = tlinks (sch s) → tnodes (sch s') = tnodes (sch s) →
      CoreH_ThreadListAppend (Some l) node s' =
        Ret OBOS_STATUS_SUCCESS (s' <| sch ::= with_list l (appended xs node) h |>).
Proof.
  intros Hq Hlk (d & Hd & Hrep) [Hnn (n & Hn & Hdata) (lk & Hl & Hnext) Hfr Hroom].
  destruct (link_tail_spec _ _ _ _ _ Hrep Hfr Hnn Hl Hnext) as (h' & Hlt & Hseg & Hf).
  exists h'. split; [by eapply rep_of_link_tail|]. split; [done|].
  intros s' Hi Hls Htl Htn. erewrite (ThreadListAppend_eq s' v l xs); rewrite ?Hi, ?Hls, ?Htl; try done.
  - simpl. unfold appended. rewrite (rep_count _ _ _ Hrep), wrap_small; [done|unfold in_u; lia].
  - by eapply rep_count.
  - split; rewrite ?Htn, ?Htl; eauto.
Qed.

Lemma ThreadListAppend_ok s v l xs node :
  quiet (irq s) v → lock_free (irq s) (ThreadListLock l) →
  tl_rep (sch s) l xs → appendable (sch s) node xs →
  ∃ h d, CoreH_ThreadListAppend (Some l) node s =
           Ret OBOS_STATUS_SUCCESS (s <| sch ::= with_list l d h |>) ∧
         dl_rep h d (xs ++ [node]) ∧ links_frame (node :: xs) (tlinks (sch s)) h.
Proof.
  intros Hq Hlk Hrep Hap.
  destruct (ThreadListAppend_det s v l xs node Hq Hlk Hrep Hap) as (h & ? & ? & Heq).
  exists h, (appended xs node). by rewrite (Heq s).
Qed.

Lemma reaches_seg h p l1 x l2 s :
  seg h p (l1 ++ x :: l2) 0 → x ∉ l1 → 0 ∉ l1 ++ x :: l2 →
  ∀ fuel, (length l1 < fuel)%nat →
  reaches fuel h (default 0 (head (l1 ++ x :: l2))) x s = Ret true s.
Proof.
  revert p. induction l1 as [|y l1 IH]; intros p Hs Hx Hnn fuel Hf; simpl in *.
  - destruct fuel; [lia|]. simpl.
    by rewrite truthy_nz, Z.eqb_refl by set_solver.
  - destruct Hs as [Hy Hs]. destruct fuel as [|fuel]; [lia|]. simpl.
    rewrite truthy_nz by set_solver. simpl.
    rewrite (proj2 (Z.eqb_neq y x)) by set_solver.
    erewrite bind_Ret; [|apply deref_opt_eq; exact Hy]. simpl.
    apply (IH y); [done|set_solver|set_solver|lia].
Qed.

Lemma set_unlinked h x lk :
  h !! x = Some lk →
  ∃ h1, set_next h x nullptr = Some h1 ∧ set_prev h1 x nullptr = Some (<[x := unlinked]> h).
Proof.
  intros Hx. eexists. split; [by eapply set_next_eq|].
  erewrite set_prev_eq by (apply lookup_insert_eq). by rewrite insert_insert_eq.
Qed.

Lemma ThreadListRemove_ok s v l l1 node l2 :
  quiet (irq s) v → lock_free (irq s) (ThreadListLock l) →
  tl_rep (sch s) l (l1 ++ node :: l2) → Z.of_nat (length (l1 ++ node :: l2)) < 2 ^ 64 →
  (∃ n, tnodes (sch s) !! node = Some n ∧ tn_data n ≠ 0) →
  ∃ h d, CoreH_ThreadListRemove (Some l) node s =
           Ret OBOS_STATUS_SUCCESS (s <| sch ::= with_list l d h |>) ∧
         dl_rep h d (l1 ++ l2) ∧ h !! node = Some unlinked ∧
         links_frame (l1 ++ node :: l2) (tlinks (sch s)) h.
Proof.
  intros Hq Hlk (d & Hd & Hrep) Hroom (n & Hn & Hdata).
  pose proof (rep_neighbours _ _ _ _ _ Hrep) as (Hnn & _).
  pose proof (unlink_spec _ _ _ _ _ Hrep) as (h' & d' & Hun & Hrep' & Hcnt & Hx & Hf).
  pose proof Hrep as [Hnd H0 Hhd _ Hc Hseg].
  assert (node ∉ l1 ++ l2) as Hnot.
  { apply NoDup_app in Hnd as (_ & Hdj & [? _]%NoDup_cons). set_solver. }
  destruct (set_unlinked _ _ _ Hx) as (h1 & Hs1 & Hs2).
  exists (<[node := unlinked]> h'), (d' <| dl_nNodes := dl_nNodes d - 1 |>).
  split; [|split; [|split; [heap_lookup|]]].
  - unfold CoreH_ThreadListRemove. rewrite (truthy_nz _ Hnn). simpl. unfold get_node.
    erewrite bind_Ret; [|by apply load_eq]. rewrite (truthy_nz _ Hdata). simpl.
    erewrite bind_Ret; [|by eapply acquire_quiet]. simpl.
    unfold get_list. erewrite bind_Ret; [|by apply load_eq]. kstep.
    rewrite Hhd. erewrite bind_Ret; [|eapply reaches_seg; [exact Hseg| |done|]]. simpl.
    2: { apply NoDup_app in Hnd as (_ & Hdj & _). set_solver. }
    2: { pose proof (seg_size _ _ _ _ Hseg Hnd). rewrite length_app in *. simpl in *. lia. }
    kstep. erewrite bind_Ret; [|by eapply list_op_eq]. simpl.
    erewrite bind_Ret; [|eapply list_count_eq; simpl; apply lookup_insert_eq]. simpl.
    rewrite with_list_twice. simpl.
    erewrite bind_Ret; [|eapply list_op_eq; simpl; [apply lookup_insert_eq|by rewrite Hs1]]. simpl.
    rewrite with_list_twice. simpl.
    erewrite bind_Ret; [|eapply list_op_eq; simpl; [apply lookup_insert_eq|by rewrite Hs2]]. simpl.
    rewrite with_list_twice. simpl. rewrite Hcnt, Hc, wrap_small.
    2: { unfold in_u. rewrite length_app in *. simpl in *. lia. }
    erewrite bind_Ret; [|by eapply unlock_list_eq]. done.
  - eapply dl_rep_frame; [|exact Hrep']. intros y Hy. rewrite lookup_insert_ne by set_solver. done.
  - apply links_frame_insert; [set_solver|eauto|]. eapply links_frame_weaken; [|done]. set_solver.
Qed.
End contract.

Arguments CoreH_ThreadListAppend : simpl never.
Arguments CoreH_ThreadListRemove : simpl never.
