(* ===== verification/Schedule.v ===== *)
(** * The scheduler ([scheduler/schedule.c])

    [Core_Schedule] chooses the next thread of the executing processor and
    switches to it; [Core_Yield] gives the rest of the quantum away.  The switch
    ([CoreS_SwitchToThreadContext]) is the [yield_cpu] of the computation: the
    interrupted thread continues when it is resumed. *)

From S2P Require Import Prelude DList KState Irql ThreadList.

(** [Core_ThreadPriorityToQuantum]. *)
Definition Core_ThreadPriorityToQuantum (p : Z) : Z :=
  if p =? 0 then 2 else if p =? 1 then 4 else if p =? 2 then 8
  else if p =? 3 then 12 else if p =? 4 then 12 else 0.

Section ops.
Context {DH : DpcHandlers}.

(** [priorityList(p)] of the executing processor. *)
Definition priorityList (c : nat) (p : Z) : option list_loc :=
  if p <=? THREAD_PRIORITY_MAX_VALUE then Some (PriorityList c p) else None.

Definition CoreS_GetCPULocalPtr : K kst nat :=
  c ← gets (λ s, this_cpu (irq s)); deref_opt c.
Definition get_plist (c : nat) (p : Z) : K kst thread_priority_list :=
  x ← get_cpu c; deref_opt (priorityLists x !! p).
Definition set_plist (c : nat) (p : Z) (f : thread_priority_list → thread_priority_list) : K kst () :=
  x ← get_cpu c; l ← deref_opt (priorityLists x !! p);
  set_cpu c (λ x, x <| priorityLists ::= <[p := f l]> |>).
Definition CoreS_GetNativeTimerTick : K kst Z := gets (λ s, native_tick (sch s)).
Definition Core_CpuCount : K kst Z := gets (λ s, Z.of_nat (length (cpus (sch s)))).

(** [threadCanRunThread(thr)] *)
Definition threadCanRunThread (c : nat) (thr : thread) : K kst bool :=
  x ← get_cpu c;
  mret (bool_decide (status thr = THREAD_STATUS_RUNNING ∨ status thr = THREAD_STATUS_READY)
        && truthy (Z.land (affinity thr) (CoreH_CPUIdToAffinity (id x)))).

(** The boosting loop of [ThreadStarvationPrevention], from node [thrN] back
    to the head.  The counter [i] of the source is never incremented. *)
Fixpoint starvation_loop (fuel : nat) (c : nat) (p : Z) (i : Z) (thrN : Z) : K kst () :=
  if negb (truthy thrN) then mret () else
  l ← get_list (PriorityList c p);
  if negb (i <? dl_nNodes l / 4) then mret () else
  match fuel with
  | O => stop Hang
  | S fuel =>
      n ← get_node thrN;
      lk ← get_link thrN;
      x ← get_cpu c;
      if tn_data n =? idleThread x then starvation_loop fuel c p i (dl_prev lk) else
      t ← get_thread (tn_data n);
      if bool_decide (status t = THREAD_STATUS_RUNNING)
      then starvation_loop fuel c p i (dl_prev lk) else
      OBOS_ASSERT (bool_decide (status t = THREAD_STATUS_READY));;
      if has_flag (flags t) THREAD_FLAGS_PRIORITY_RAISED
      then starvation_loop fuel c p i (dl_prev lk) else
      CoreH_ThreadListRemove (Some (PriorityList c p)) thrN;;
      CoreH_ThreadListAppend (priorityList c (p + 1)) thrN;;
      set_thread (tn_data n) (λ t, t <| flags ::= λ f, Z.lor f THREAD_FLAGS_PRIORITY_RAISED |>);;
      set_thread (tn_data n) (λ t, t <| priority ::= λ q, q + 1 |>);;
      starvation_loop fuel c p i (dl_prev lk)
  end.

Definition set_profile (c : nat) (f : sched_profile → sched_profile) : K kst () :=
  set_cpu c (λ x, x <| sched_profile_data ::= f |>).

Definition ThreadStarvationPrevention (c : nat) (p : Z) : K kst bool :=
  set_plist c p (λ l, l <| noStarvationQuantum ::= λ q, wrap64 (q + 1) |>);;
  l ← get_plist c p;
  if Core_ThreadPriorityToQuantum p <=? noStarvationQuantum l then
    set_plist c p (λ l, l <| noStarvationQuantum := 0 |>);;
    mret false
  else
  start ← CoreS_GetNativeTimerTick;
  d ← get_list (PriorityList c p);
  h ← gets (λ s, tlinks (sch s));
  starvation_loop (size h + 1) c p 0 (dl_tail d);;
  stop_ ← CoreS_GetNativeTimerTick;
  set_profile c (λ q, q <| priority_booster := wrap64 (stop_ - start) |>);;
  set_profile c (λ q, q <| priority_booster_iterations ::= λ n, wrap64 (n + 1) |>);;
  set_profile c (λ q, q <| priority_booster_total ::= λ n, wrap64 (n + priority_booster q) |>);;
  mret true.

(** [WorkStealing] returns before its work; only its assertions run. *)
Definition WorkStealing (c : nat) (p : Z) : K kst () :=
  OBOS_ASSERT (p <=? THREAD_PRIORITY_MAX_VALUE);;
  OBOS_ASSERT (bool_decide (is_Some (priorityList c p))).

(** [for (priority = IDLE; priority <= MAX; priority++) ...] *)
Fixpoint balance_loop (n : nat) (c : nat) (p : Z) : K kst () :=
  match n with
  | O => mret ()
  | S n =>
      when (p <? THREAD_PRIORITY_MAX_VALUE)
        (ThreadStarvationPrevention c p;; mret ());;
      WorkStealing c p;;
      balance_loop n c (p + 1)
  end.

(** [while (node && node->data->status == THREAD_STATUS_RUNNING) node = node->next;] *)
Fixpoint skip_running (fuel : nat) (node : Z) : K kst Z :=
  if negb (truthy node) then mret nullptr else
  n ← get_node node;
  t ← get_thread (tn_data n);
  if bool_decide (status t = THREAD_STATUS_RUNNING) then
    match fuel with
    | O => stop Hang
    | S fuel => lk ← get_link node; skip_running fuel (dl_next lk)
    end
  else mret node.

Definition choose_idle (c : nat) : K kst Z :=
  x ← get_cpu c;
  if negb (truthy (idleThread x)) then stop Panic else mret (idleThread x).

(** [find_list]: the first list from [p] downwards with a thread to run; the
    idle thread when there is none.  There are five lists, so that six rounds
    exhaust them. *)
Fixpoint find_list (fuel : nat) (c : nat) (p : Z) : K kst Z :=
  match fuel with
  | O => stop Hang
  | S fuel =>
      OBOS_ASSERT (p <=? THREAD_PRIORITY_MAX_VALUE);;
      l ← get_plist c p;
      d ← get_list (PriorityList c p);
      h ← gets (λ s, tlinks (sch s));
      node ← (if truthy (dl_head d) then skip_running (size h + 1) (dl_head d) else mret nullptr);
      if truthy node then n ← get_node node; mret (tn_data n)
      else if plpriority l - 1 <? 0 then choose_idle c
      else find_list fuel c (plpriority l - 1)
  end.

(** The branch taken without a current thread, or when it has no successor. *)
Definition pick_new (c : nat) : K kst Z :=
  x ← get_cpu c;
  when (negb (bool_decide (is_Some (currentPriorityList x))))
    (set_cpu c (λ x, x <| currentPriorityList := Some THREAD_PRIORITY_MAX_VALUE |>));;
  x ← get_cpu c;
  p ← deref_opt (currentPriorityList x);
  set_plist c p (λ l, l <| plquantum ::= λ q, wrap64 (q + 1) |>);;
  l ← get_plist c p;
  when (Core_ThreadPriorityToQuantum (plpriority l) <=? plquantum l) (
    set_plist c p (λ l, l <| plquantum := 0 |>);;
    let nextPriority := plpriority l - 1 in
    let nextPriority := if nextPriority <? 0 then THREAD_PRIORITY_MAX_VALUE else nextPriority in
    set_cpu c (λ x, x <| currentPriorityList := Some nextPriority |>));;
  x ← get_cpu c;
  p ← deref_opt (currentPriorityList x);
  find_list 6 c p.

(** [CoreS_SwitchToThreadContext]: the level of the chosen thread is restored
    and the processor leaves for it. *)
Definition CoreS_SwitchToThreadContext (t : Z) : K kst () :=
  v ← load (λ s, ctx_irql (irq s)) t;
  irq_upd (λ i, i <| cr8 := v |>);;
  write_irql_var v;;
  yield_cpu.

Definition set_current (c : nat) (t : Z) : K kst () :=
  store (λ s, currentThread (irq s))
    (λ m s, s <| irq ::= λ i, i <| currentThread := m |> |>) c (λ _, t).
Definition get_current (c : nat) : K kst Z := load (λ s, currentThread (irq s)) c.

(** The current thread falls back to the priority it was raised from. *)
Definition lower_raised (c : nat) (cur : Z) : K kst () :=
  set_thread cur (λ t, t <| quantum := 0 |>);;
  t ← get_thread cur;
  when (has_flag (flags t) THREAD_FLAGS_PRIORITY_RAISED) (
    CoreH_ThreadListRemove (priorityList c (priority t)) (snode t);;
    set_thread cur (λ t, t <| priority ::= λ p, p - 1 |>);;
    set_thread cur (λ t, t <| flags ::= λ f, Z.land f (Z.lnot THREAD_FLAGS_PRIORITY_RAISED) |>);;
    CoreH_ThreadListAppend (priorityList c (priority t - 1)) (snode t);;
    mret ()).

(** The chosen thread: the successor of the current one in its list, else a
    new pick. *)
Definition choose_thread (c : nat) (cur : Z) : K kst Z :=
  if negb (truthy cur) then pick_new c else
  t ← get_thread cur;
  lk ← get_link (snode t);
  chosen ← (if truthy (dl_next lk)
            then n ← get_node (dl_next lk); mret (tn_data n) else mret nullptr);
  if truthy chosen then mret chosen else pick_new c.

(** [switch_thread:] up to the context switch. *)
Definition commit_switch (c : nat) (cur chosen : Z) : K kst () :=
  OBOS_ASSERT (truthy chosen);;
  t ← get_thread chosen;
  when (negb (chosen =? cur))
    (OBOS_ASSERT (negb (bool_decide (status t = THREAD_STATUS_RUNNING))));;
  set_thread chosen (λ t, t <| status := THREAD_STATUS_RUNNING |>);;
  set_thread chosen (λ t, t <| masterCPU := Some c |>);;
  set_thread chosen (λ t, t <| quantum := 0 |>);;
  when (truthy cur) (
    t ← get_thread cur;
    can ← threadCanRunThread c t;
    when can (set_thread cur (λ t, t <| status := THREAD_STATUS_READY |>))).

Definition Core_Schedule : K kst () :=
  c ← CoreS_GetCPULocalPtr;
  set_cpu c (λ x, x <| schedulerTicks ::= λ n, wrap64 (n + 1) |>);;
  cur ← get_current c;
  x ← get_cpu c;
  when (truthy cur) (set_thread cur (λ t, t <| lastRunTick := schedulerTicks x |>));;
  when (truthy cur) (lower_raised c cur);;
  start ← CoreS_GetNativeTimerTick;
  n ← Core_CpuCount;
  when (1 <? n) (balance_loop 5 c THREAD_PRIORITY_IDLE);;
  Core_SpinlockAcquireExplicit (Some (SchedulerLock c)) IRQL_DISPATCH true;;
  chosen ← choose_thread c cur;
  commit_switch c cur chosen;;
  Core_SpinlockRelease (SchedulerLock c) IRQL_DISPATCH;;
  set_current c chosen;;
  t ← get_thread chosen;
  when (truthy (proc t)) (
    p ← load (λ s, procs (sch s)) (proc t);
    set_cpu c (λ x, x <| currentContext := ctx p |>));;
  stop_ ← CoreS_GetNativeTimerTick;
  set_profile c (λ q, q <| total := wrap64 (stop_ - start) |>);;
  set_profile c (λ q, q <| total2_iterations ::= λ n, wrap64 (n + 1) |>);;
  set_profile c (λ q, q <| total2 ::= λ n, wrap64 (n + total q) |>);;
  CoreS_SwitchToThreadContext chosen.

(** [if (oldIrql != IRQL_INVALID) { OBOS_ASSERT(!(oldIrql & ~0xf)); Core_LowerIrql(oldIrql); }] *)
Definition yield_restore (oldIrql : Z) : K kst () :=
  when (negb (oldIrql =? IRQL_INVALID)) (
    OBOS_ASSERT (Z.land oldIrql 0xf0 =? 0);;
    Core_LowerIrql oldIrql).

Definition Core_Yield : K kst () :=
  v ← Core_GetIrql;
  oldIrql ← (if v <=? IRQL_DISPATCH
             then o ← Core_RaiseIrql IRQL_DISPATCH;
                  OBOS_ASSERT (Z.land o 0xf0 =? 0);; mret o
             else mret IRQL_INVALID);
  c ← CoreS_GetCPULocalPtr;
  cur ← get_current c;
  if truthy cur then
    t ← get_thread cur;
    canRunCurrentThread ← threadCanRunThread c t;
    set_thread cur (λ t, t <| quantum ::= λ q, wrap8 (q + 1) |>);;
    t ← get_thread cur;
    if (quantum t <? Core_ThreadPriorityToQuantum (priority t)) && canRunCurrentThread
    then yield_restore oldIrql
    else Core_Schedule;; yield_restore oldIrql
  else
    (* [Core_Schedule] runs on a scratch stack whose context is not saved *)
    Core_Schedule;; stop NoReturn.

End ops.
