(* ===== verification/Thread.v ===== *)
(** * Threads and processes ([scheduler/thread.c], [scheduler/process.c])

    Creating threads and processes, making threads ready on a processor,
    blocking them, boosting their priority, ending them. *)

From S2P Require Import Prelude DList KState Irql ThreadList Schedule.

Section ops.
Context {DH : DpcHandlers}.

(** The allocators: [ZeroAllocate] of a [thread_node], a [thread] or a
    [process] gives the next free address with zeroed contents, or null; the
    typed heaps record what lives there.  Freeing removes the object, so that a
    later access through the address is a fault. *)
Definition next_addr : K kst Z :=
  λ s, match free_addrs (sch s) with
       | [] => Ret nullptr s
       | p :: ps => Ret p (s <| sch ::= λ c, c <| free_addrs := ps |> |>)
       end.
Definition alloc_node : K kst Z :=
  p ← next_addr;
  when (truthy p) (sch_upd (λ c, c <| tnodes ::= <[p := mkTNode nullptr false]> |>
                                   <| tlinks ::= <[p := unlinked]> |>));;
  mret p.
(** [OBOS_NonPagedPoolAllocator->Free]: a fault before the pool is there. *)
Definition nonpaged_free (f : sched_st → sched_st) : K kst () :=
  na ← gets (λ s, nonpaged_alloc (sch s));
  if (na : bool) then sch_upd f else stop BadDeref.
Definition free_node (n : Z) : K kst () :=
  nonpaged_free (λ c, c <| tnodes ::= delete n |> <| tlinks ::= delete n |>).

(** A zeroed [thread]: its [lock_node] is embedded in it. *)
Definition zero_thread (lock_node : Z) : thread :=
  mkThread 0 0 0 false THREAD_STATUS_READY 0 0 0 0 None 0 0 0 lock_node 0 0 0.

(** [lock_node_of] is the address of the embedded node, a constant offset. *)
Definition lock_node_of (t : Z) : Z := t + 0x200.

Definition CoreH_ThreadAllocate : K kst Z :=
  t ← next_addr;
  when (truthy t) (
    let ln := lock_node_of t in
    sch_upd (λ c, c <| threads ::= <[t := zero_thread ln]> |>
                    <| tnodes ::= <[ln := mkTNode nullptr false]> |>
                    <| tlinks ::= <[ln := unlinked]> |>);;
    irq_upd (λ i, i <| ctx_irql ::= <[t := 0]> |>);;
    set_thread t (λ t, t <| free := true |>));;
  mret t.

(** The thread context that is copied matters to the model for its level. *)
Definition CoreH_ThreadInitialize (thr : Z) (prio aff : Z) (ctx : option Z) : K kst obos_status :=
  match ctx with
  | None => mret OBOS_STATUS_INVALID_ARGUMENT
  | Some ctx_level =>
      if negb (truthy thr) || (prio <? 0) || (THREAD_PRIORITY_MAX_VALUE <? prio)
         || negb (truthy aff)
      then mret OBOS_STATUS_INVALID_ARGUMENT else
      set_thread thr (λ t, t <| priority := prio |>);;
      set_thread thr (λ t, t <| status := THREAD_STATUS_READY |>);;
      next ← gets (λ s, s_nextTID (sch s));
      set_thread thr (λ t, t <| tid := next |>);;
      sch_upd (λ c, c <| s_nextTID := wrap64 (next + 1) |>);;
      CoreS_SetThreadIRQL thr ctx_level;;
      set_thread thr (λ t, t <| affinity := aff |>);;
      set_thread thr (λ t, t <| masterCPU := None |>);;
      set_thread thr (λ t, t <| quantum := 0 |>);;
      mret OBOS_STATUS_SUCCESS
  end.

(** The loop of [CoreH_ThreadReadyNode] over the processors [i], [i+1], ... *)
Fixpoint find_cpu (l : list cpu_local) (i : nat) (aff prio : Z) (cpuFound : option nat)
  : K kst (option nat) :=
  match l with
  | [] => mret cpuFound
  | cpu :: l =>
      if negb (truthy (Z.land aff (CoreH_CPUIdToAffinity (id cpu))))
      then find_cpu l (S i) aff prio cpuFound
      else match cpuFound with
           | None => find_cpu l (S i) aff prio (Some i)
           | Some j =>
               a ← get_list (PriorityList i prio);
               b ← get_list (PriorityList j prio);
               find_cpu l (S i) aff prio
                 (if dl_nNodes a <? dl_nNodes b then Some i else Some j)
           end
  end.

Definition CoreH_ThreadReadyNode (thr node : Z) : K kst obos_status :=
  all ← gets (λ s, cpus (sch s));
  match all with
  | [] => mret OBOS_STATUS_INVALID_INIT_PHASE
  | _ =>
  if negb (truthy thr) || negb (truthy node) then mret OBOS_STATUS_INVALID_ARGUMENT else
  t ← get_thread thr;
  if (priority t <? 0) || (THREAD_PRIORITY_MAX_VALUE <? priority t)
  then mret OBOS_STATUS_INVALID_ARGUMENT else
  if bool_decide (is_Some (masterCPU t)) then mret OBOS_STATUS_SUCCESS else
  cpuFound ← find_cpu all 0 (affinity t) (priority t) None;
  match cpuFound with
  | None => mret OBOS_STATUS_INVALID_AFFINITY
  | Some cpu =>
      oldIrql ← Core_SpinlockAcquire Core_SchedulerLock;
      oldIrql2 ← Core_SpinlockAcquire (SchedulerLock cpu);
      set_node node (λ n, n <| tn_data := thr |>);;
      set_thread thr (λ t, t <| snode := node |>);;
      set_thread thr (λ t, t <| masterCPU := Some cpu |>);;
      set_thread thr (λ t, t <| status := THREAD_STATUS_READY |>);;
      sch_upd (λ c, c <| Core_ReadyThreadCount ::= λ n, wrap64 (n + 1) |>);;
      st ← CoreH_ThreadListAppend (Some (PriorityList cpu (priority t))) node;
      Core_SpinlockRelease (SchedulerLock cpu) oldIrql2;;
      Core_SpinlockRelease Core_SchedulerLock oldIrql;;
      mret st
  end
  end.

Definition CoreH_ThreadReady (thr : Z) : K kst obos_status :=
  ka ← gets (λ s, kernel_alloc (sch s));
  if negb ka then mret OBOS_STATUS_INVALID_INIT_PHASE else
  node ← alloc_node;
  set_node node (λ n, n <| tn_free := true |>);;
  st ← CoreH_ThreadReadyNode thr node;
  when (negb (bool_decide (st = OBOS_STATUS_SUCCESS))) (free_node node);;
  mret st.

(** [CoreH_ThreadBlock] up to the point where it may yield. *)
Definition thread_block_locked (thr : Z) (t : thread) (cpu : nat) : K kst () :=
  oldIrql2 ← Core_SpinlockAcquire Core_SchedulerLock;
  oldIrql ← Core_SpinlockAcquire (SchedulerLock cpu);
  CoreH_ThreadListRemove (Some (PriorityList cpu (priority t))) (snode t);;
  set_thread thr (λ t, t <| flags ::= λ f, Z.land f (Z.lnot THREAD_FLAGS_PRIORITY_RAISED) |>);;
  set_thread thr (λ t, t <| status := THREAD_STATUS_BLOCKED |>);;
  set_thread thr (λ t, t <| quantum := 0 |>);;
  sch_upd (λ c, c <| Core_ReadyThreadCount ::= λ n, wrap64 (n - 1) |>);;
  Core_SpinlockRelease (SchedulerLock cpu) oldIrql;;
  set_thread thr (λ t, t <| masterCPU := None |>);;
  Core_SpinlockRelease Core_SchedulerLock oldIrql2;;
  mret ().

Definition CoreH_ThreadBlock (thr : Z) (canYield : bool) : K kst obos_status :=
  if negb (truthy thr) then mret OBOS_STATUS_INVALID_ARGUMENT else
  t ← get_thread thr;
  match masterCPU t with
  | None => mret OBOS_STATUS_INVALID_ARGUMENT
  | Some cpu =>
      if (priority t <? 0) || (THREAD_PRIORITY_MAX_VALUE <? priority t)
      then mret OBOS_STATUS_INVALID_ARGUMENT else
      if bool_decide (status t = THREAD_STATUS_BLOCKED) then mret OBOS_STATUS_SUCCESS else
      thread_block_locked thr t cpu;;
      cur ← Core_GetCurrentThread;
      when ((thr =? cur) && canYield) Core_Yield;;
      mret OBOS_STATUS_SUCCESS
  end.

Definition CoreH_ThreadBoostPriority (thr : Z) : K kst obos_status :=
  if negb (truthy thr) then mret OBOS_STATUS_INVALID_ARGUMENT else
  t ← get_thread thr;
  if (priority t <? 0) || (THREAD_PRIORITY_MAX_VALUE <? priority t)
  then mret OBOS_STATUS_INVALID_ARGUMENT else
  if has_flag (flags t) THREAD_FLAGS_DIED then mret OBOS_STATUS_INVALID_ARGUMENT else
  if bool_decide (masterCPU t = None) && negb (bool_decide (status t = THREAD_STATUS_BLOCKED))
  then mret OBOS_STATUS_INVALID_ARGUMENT else
  if has_flag (flags t) THREAD_FLAGS_PRIORITY_RAISED
     || (priority t =? THREAD_PRIORITY_MAX_VALUE)
  then mret OBOS_STATUS_SUCCESS else
  oldIrql2 ← Core_SpinlockAcquire Core_SchedulerLock;
  oldIrql ← (match masterCPU t with
             | Some cpu => Core_SpinlockAcquire (SchedulerLock cpu)
             | None => mret IRQL_INVALID
             end);
  match masterCPU t with
  | Some cpu =>
      CoreH_ThreadListRemove (Some (PriorityList cpu (priority t))) (snode t);;
      CoreH_ThreadListAppend (Some (PriorityList cpu (priority t + 1))) (snode t);;
      mret ()
  | None => mret ()
  end;;
  set_thread thr (λ t, t <| flags ::= λ f, Z.lor f THREAD_FLAGS_PRIORITY_RAISED |>);;
  set_thread thr (λ t, t <| priority ::= λ p, p + 1 |>);;
  match masterCPU t with
  | Some cpu => Core_SpinlockRelease (SchedulerLock cpu) oldIrql;; mret ()
  | None => mret ()
  end;;
  Core_SpinlockRelease Core_SchedulerLock oldIrql2;;
  mret OBOS_STATUS_SUCCESS.

(** [ExitCurrentThread]; freeing the thread's context and stack is outside the
    model.  The routine does not return. *)
Definition ExitCurrentThread : K kst () :=
  cur ← Core_GetCurrentThread;
  t ← get_thread cur;
  let node := snode t in
  CoreH_ThreadBlock cur false;;
  when (truthy (proc t)) (
    CoreH_ThreadListRemove (Some (ProcThreads (proc t))) (pnode t);; mret ());;
  pn ← get_node (pnode t);
  when (tn_free pn) (free_node (pnode t));;
  set_thread cur (λ t, t <| flags ::= λ f, Z.lor f THREAD_FLAGS_DIED |>);;
  n ← get_node node;
  when (tn_free n) (free_node node);;
  t ← get_thread cur;
  when ((references t =? 0) && free t)
    (nonpaged_free (λ c, c <| threads ::= delete cur |>));;
  c ← CoreS_GetCPULocalPtr;
  set_current c nullptr;;
  Core_Yield;;
  stop Panic.

Definition Core_ExitCurrentThread : K kst () :=
  Core_RaiseIrqlNoThread IRQL_DISPATCH;;
  ExitCurrentThread;;
  stop Panic.

(** ** Processes *)

Definition Core_ProcessAllocate : K kst (Z * obos_status) :=
  ka ← gets (λ s, kernel_alloc (sch s));
  if negb ka then mret (nullptr, OBOS_STATUS_INVALID_INIT_PHASE) else
  p ← next_addr;
  when (truthy p) (sch_upd (λ c, c <| procs ::= <[p := mkProc 0 nullptr]> |>
                                   <| lists ::= <[ProcThreads p := empty_list]> |>);;
                   irq_upd (λ i, i <| locks ::=
                     <[ThreadListLock (ProcThreads p) := Core_SpinlockCreate]> |>));;
  mret (p, if truthy p then OBOS_STATUS_SUCCESS else OBOS_STATUS_NOT_ENOUGH_MEMORY).

(** A node for the list of the threads of a process. *)
Definition alloc_proc_node : K kst (Z * obos_status) :=
  node ← alloc_node;
  mret (node, if truthy node then OBOS_STATUS_SUCCESS else OBOS_STATUS_NOT_ENOUGH_MEMORY).

Definition set_proc (p : Z) (f : process → process) : K kst () :=
  store (λ s, procs (sch s)) (λ m s, s <| sch ::= λ c, c <| procs := m |> |>) p f.

Definition Core_ProcessStart (p mainThread : Z) : K kst obos_status :=
  ka ← gets (λ s, kernel_alloc (sch s));
  if negb ka then mret OBOS_STATUS_INVALID_INIT_PHASE else
  if negb (truthy p) || negb (truthy mainThread) then mret OBOS_STATUS_INVALID_ARGUMENT else
  t ← get_thread mainThread;
  if negb (truthy (affinity t)) || bool_decide (is_Some (masterCPU t)) || truthy (proc t)
  then mret OBOS_STATUS_INVALID_ARGUMENT else
  next ← gets (λ s, Core_NextPID (sch s));
  set_proc p (λ x, x <| pid := next |>);;
  sch_upd (λ c, c <| Core_NextPID := wrap64 (next + 1) |>);;
  r ← alloc_proc_node;
  if obos_is_error r.2 then mret r.2 else
  set_node r.1 (λ n, n <| tn_free := true |>);;
  set_node r.1 (λ n, n <| tn_data := mainThread |>);;
  CoreH_ThreadListAppend (Some (ProcThreads p)) r.1;;
  set_thread mainThread (λ t, t <| proc := p |>);;
  CoreH_ThreadReady mainThread.

Definition Core_ProcessAppendThread (p thr : Z) : K kst obos_status :=
  ka ← gets (λ s, kernel_alloc (sch s));
  if negb ka then mret OBOS_STATUS_INVALID_INIT_PHASE else
  if negb (truthy p) || negb (truthy thr) then mret OBOS_STATUS_INVALID_ARGUMENT else
  t ← get_thread thr;
  if negb (truthy (affinity t)) || truthy (proc t)
  then mret OBOS_STATUS_INVALID_ARGUMENT else
  r ← alloc_proc_node;
  if obos_is_error r.2 then mret r.2 else
  set_node r.1 (λ n, n <| tn_free := true |>);;
  set_node r.1 (λ n, n <| tn_data := thr |>);;
  set_thread thr (λ t, t <| pnode := r.1 |>);;
  CoreH_ThreadListAppend (Some (ProcThreads p)) r.1;;
  set_thread thr (λ t, t <| proc := p |>);;
  mret OBOS_STATUS_SUCCESS.

Definition Core_ProcessTerminate (p : Z) (forced : bool) : K kst obos_status :=
  mret OBOS_STATUS_UNIMPLEMENTED.

End ops.
