(* ===== verification/SchedInv.v ===== *)
(** * The run-queue invariant and the thread operations

    [sched_inv c Q]: every priority list of every processor is well formed and
    holds the nodes [Q cpu priority]; a thread is queued exactly when it has a
    [masterCPU], once, under its own priority and through its [snode]; and
    [Core_ReadyThreadCount] counts them.  Readying, blocking and boosting a
    thread keep the invariant and have exactly the effect stated. *)

From S2P Require Import Prelude DList KState Irql ThreadList Schedule Thread.

Definition queues := nat → Z → list Z.
Definition q_set (Q : queues) (k : nat) (p : Z) (xs : list Z) : queues :=
  λ k' p', if decide (k' = k ∧ p' = p) then xs else Q k' p'.

Definition queued (thr : thread) : bool := bool_decide (is_Some (masterCPU thr)).
Definition ready_count (m : gmap Z thread) : Z :=
  Z.of_nat (size (filter (λ kv, queued kv.2 = true) m)).

Definition valid_priority (p : Z) : Prop := 0 <= p <= THREAD_PRIORITY_MAX_VALUE.
#[global] Instance valid_priority_dec p : Decision (valid_priority p).
Proof. unfold valid_priority. apply _. Defined.

Record sched_inv (c : sched_st) (Q : queues) : Prop := {
  si_rep k p : (k < length (cpus c))%nat → valid_priority p →
    tl_rep c (PriorityList k p) (Q k p);
  si_dom k p x : x ∈ Q k p → (k < length (cpus c))%nat ∧ valid_priority p;
  si_node k p x : x ∈ Q k p → ∃ n thr,
    tnodes c !! x = Some n ∧ tn_data n ≠ 0 ∧ threads c !! tn_data n = Some thr ∧
    masterCPU thr = Some k ∧ priority thr = p ∧ snode thr = x;
  si_thread t thr k : threads c !! t = Some thr → masterCPU thr = Some k →
    snode thr ∈ Q k (priority thr) ∧ ∃ n, tnodes c !! snode thr = Some n ∧ tn_data n = t;
  si_count : Core_ReadyThreadCount c = wrap64 (ready_count (threads c));
  si_room : Z.of_nat (size (tlinks c)) + 2 < 2 ^ 64
}.

(** All the locks of the scheduler are free. *)
Record sched_unlocked (i : irq_st) (ncpus : nat) : Prop := {
  su_global : lock_free i Core_SchedulerLock;
  su_cpu k : (k < ncpus)%nat → lock_free i (SchedulerLock k);
  su_list k p : (k < ncpus)%nat → valid_priority p →
    lock_free i (ThreadListLock (PriorityList k p))
}.

(** ** Choosing a processor *)

Definition allowed (c : sched_st) (aff : Z) (k : nat) : Prop :=
  ∃ x, cpus c !! k = Some x ∧ truthy (Z.land aff (CoreH_CPUIdToAffinity (id x))) = true.

(** [best] is the first least loaded among the first [n] processors. *)
Definition best_of (c : sched_st) (aff : Z) (Q : queues) (p : Z) (n : nat) (best : option nat) : Prop :=
  match best with
  | None => ∀ j, (j < n)%nat → ¬ allowed c aff j
  | Some b => (b < n)%nat ∧ allowed c aff b ∧
      ∀ j, (j < n)%nat → allowed c aff j →
           (length (Q b p) ≤ length (Q j p))%nat ∧ ((j < b)%nat → (length (Q b p) < length (Q j p))%nat)
  end.

Lemma allowed_lt c aff k : allowed c aff k → (k < length (cpus c))%nat.
Proof. intros (x & Hx & _). by apply lookup_lt_Some in Hx. Qed.

(** ** Changing the place of one thread *)

Lemma ready_count_insert m t thr thr' :
  m !! t = Some thr →
  ready_count (<[t := thr']> m) =
    ready_count m - Z.b2z (queued thr) + Z.b2z (queued thr').
Proof.
  intros Ht. unfold ready_count. set (P := λ kv : Z * thread, queued kv.2 = true).
  assert (ready : ∀ x, m !! t = Some x → queued x = true →
    size (filter P m) = S (size (delete t (filter P m)))).
  { intros x Hx Hq. rewrite <- (map_size_insert_None t x (delete t (filter P m)))
      by apply lookup_delete_eq.
    rewrite insert_delete_id; [done|]. apply map_lookup_filter_Some. done. }
  assert (notready : queued thr = false → filter P m !! t = None).
  { intros Hq. apply map_lookup_filter_None. right. intros y Hy. simplify_eq. unfold P. simpl. congruence. }
  destruct (queued thr') eqn:Eq'.
  - rewrite map_filter_insert_True by done. destruct (queued thr) eqn:Eq; simpl.
    + rewrite map_size_insert_Some; [lia|]. eexists. by apply map_lookup_filter_Some.
    + rewrite map_size_insert_None by auto. lia.
  - rewrite map_filter_insert_False by (unfold P; simpl; congruence).
    rewrite map_filter_delete. destruct (queued thr) eqn:Eq; simpl.
    + rewrite (ready _ Ht Eq). lia.
    + rewrite delete_id by auto. lia.
Qed.

Lemma wrap64_add a b : wrap64 (wrap64 a + b) = wrap64 (a + b).
Proof. unfold wrap. by rewrite Zplus_mod_idemp_l. Qed.
Lemma wrap64_sub a b : wrap64 (wrap64 a - b) = wrap64 (a - b).
Proof. unfold wrap. by rewrite Zminus_mod_idemp_l. Qed.

(** The invariant after thread [t], whose node is [node], goes from record
    [thr] to record [thr'] and its node moves accordingly. *)
Lemma sched_inv_move c Q c' Q' t thr thr' node :
  sched_inv c Q → threads c !! t = Some thr → t ≠ 0 →
  (∀ k p, node ∈ Q k p → ∃ n, tnodes c !! node = Some n ∧ tn_data n = t) →
  (∀ k, masterCPU thr = Some k → snode thr = node) →
  cpus c' = cpus c → threads c' = <[t := thr']> (threads c) →
  (∃ n, tnodes c' !! node = Some n ∧ tn_data n = t) →
  (∀ x, x ≠ node → tnodes c' !! x = tnodes c !! x) →
  snode thr' = node →
  (∀ k p x, x ≠ node → x ∈ Q' k p ↔ x ∈ Q k p) →
  (∀ k p, node ∈ Q' k p ↔ masterCPU thr' = Some k ∧ priority thr' = p) →
  (∀ k, masterCPU thr' = Some k → (k < length (cpus c))%nat ∧ valid_priority (priority thr')) →
  (∀ k p, (k < length (cpus c))%nat → valid_priority p → tl_rep c' (PriorityList k p) (Q' k p)) →
  Core_ReadyThreadCount c' = wrap64 (ready_count (threads c')) →
  size (tlinks c') = size (tlinks c) →
  sched_inv c' Q'.
Proof.
  intros Hinv Ht Ht0 Hown Hsn Hcpu Hthr (n' & Hn' & Hd') Htn Hsn' HQ HQn Hval Hrep Hcnt Hsz.
  split.
  - intros k p. rewrite Hcpu. apply Hrep.
  - intros k p x Hx. rewrite Hcpu. destruct (decide (x = node)) as [->|Hne].
    + apply HQn in Hx as [Hk <-]. by apply Hval.
    + apply HQ in Hx; [|done]. by eapply si_dom.
  - intros k p x Hx. destruct (decide (x = node)) as [->|Hne].
    + apply HQn in Hx as [Hk <-]. exists n', thr'. rewrite Hd', Hthr, lookup_insert_eq. done.
    + apply HQ in Hx; [|done]. destruct (si_node _ _ Hinv _ _ _ Hx) as (n & thr0 & Hn & Hd & Hth & Hm & Hp & Hs).
      exists n, thr0. rewrite Htn by done. rewrite Hthr, lookup_insert_ne; [done|].
      intros Heq. rewrite <- Heq in Hth. simplify_eq. by rewrite (Hsn _ Hm) in Hne.
  - intros t' thr0 k. rewrite Hthr. destruct (decide (t' = t)) as [->|Hne].
    + rewrite lookup_insert_eq. intros [= <-] Hk. rewrite Hsn'. split; [by apply HQn|].
      exists n'. done.
    + rewrite lookup_insert_ne by done. intros Hth Hm.
      destruct (si_thread _ _ Hinv _ _ _ Hth Hm) as (Hin & n & Hn & Hd).
      assert (snode thr0 ≠ node) as Hnn.
      { intros Heq. rewrite Heq in *. destruct (Hown _ _ Hin) as (n0 & ? & ?). by simplify_eq. }
      split; [by apply HQ|]. exists n. by rewrite Htn.
  - done.
  - rewrite Hsz. by destruct Hinv.
Qed.

Lemma q_set_same Q k p xs : q_set Q k p xs k p = xs.
Proof. unfold q_set. by rewrite decide_True. Qed.
Lemma q_set_other Q k p xs k' p' : ¬ (k' = k ∧ p' = p) → q_set Q k p xs k' p' = Q k' p'.
Proof. intros. unfold q_set. by rewrite decide_False. Qed.

Lemma links_frame_size ps h h' : links_frame ps h h' → size h' = size h.
Proof. intros [_ Hd]. by rewrite <- !size_dom, Hd. Qed.

(** Nodes are in at most one queue, at one place. *)
Lemma queue_unique c Q k p k' p' x :
  sched_inv c Q → x ∈ Q k p → x ∈ Q k' p' → k = k' ∧ p = p'.
Proof.
  intros Hinv H1 H2.
  destruct (si_node _ _ Hinv _ _ _ H1) as (n & thr & ? & ? & ? & ? & ? & ?).
  destruct (si_node _ _ Hinv _ _ _ H2) as (n' & thr' & ? & ? & ? & ? & ? & ?).
  by simplify_eq.
Qed.

Lemma queue_room c Q k p :
  sched_inv c Q → Z.of_nat (length (Q k p)) + 2 < 2 ^ 64.
Proof.
  intros Hinv. destruct (decide ((k < length (cpus c))%nat ∧ valid_priority p)) as [[Hk Hp]|Hn].
  - destruct (si_rep _ _ Hinv k p Hk Hp) as (d & _ & [Hnd _ _ _ _ Hs]).
    pose proof (seg_size _ _ _ _ Hs Hnd). pose proof (si_room _ _ Hinv). lia.
  - destruct (Q k p) as [|x xs] eqn:E; [simpl; lia|]. exfalso. apply Hn.
    apply (si_dom _ _ Hinv _ _ x). rewrite E. left.
Qed.

Section ops.
Context {DH : DpcHandlers}.

Lemma get_list_eq s l d : lists (sch s) !! l = Some d → get_list l s = Ret d s.
Proof. intros H. by apply load_eq. Qed.

Lemma find_cpu_ok s Q aff p :
  sched_inv (sch s) Q → valid_priority p →
  ∀ l pre best, cpus (sch s) = pre ++ l → best_of (sch s) aff Q p (length pre) best →
  ∃ r, find_cpu l (length pre) aff p best s = Ret r s ∧
       best_of (sch s) aff Q p (length (cpus (sch s))) r.
Proof.
  intros Hinv Hp. induction l as [|x l IH]; intros pre best Hcpus Hbest.
  { exists best. rewrite Hcpus, app_nil_r. done. }
  assert (cpus (sch s) !! length pre = Some x) as Hx.
  { rewrite Hcpus. by rewrite lookup_app_r, Nat.sub_diag by lia. }
  assert (cpus (sch s) = (pre ++ [x]) ++ l) as Hcpus' by (by rewrite <- app_assoc).
  assert (S (length pre) = length (pre ++ [x])) as Hlen by (rewrite length_app; simpl; lia).
  cbn [find_cpu].
  destruct (truthy (Z.land aff (CoreH_CPUIdToAffinity (id x)))) eqn:Ha; cbn [negb].
  - assert (allowed (sch s) aff (length pre)) as Hal by (exists x; done).
    destruct best as [b|].
    + destruct Hbest as (Hb & Hbal & Hmin).
      destruct (si_rep _ _ Hinv (length pre) p) as (da & Hda & Hra); [by eapply allowed_lt|done|].
      destruct (si_rep _ _ Hinv b p) as (db & Hdb & Hrb); [by eapply allowed_lt|done|].
      erewrite bind_Ret; [|by apply get_list_eq].
      erewrite bind_Ret; [|by apply get_list_eq].
      rewrite Hlen. apply IH; [done|].
      rewrite (rep_count _ _ _ Hra), (rep_count _ _ _ Hrb), <- Hlen.
      destruct (Z.ltb_spec (Z.of_nat (length (Q (length pre) p))) (Z.of_nat (length (Q b p)))).
      * split; [lia|]. split; [done|]. intros j Hj Hja.
        destruct (decide (j = length pre)) as [->|]; [lia|].
        destruct (Hmin j); [lia|done|]. lia.
      * split; [lia|]. split; [done|]. intros j Hj Hja.
        destruct (decide (j = length pre)) as [->|]; [lia|].
        destruct (Hmin j); [lia|done|]. lia.
    + rewrite Hlen. apply IH; [done|]. rewrite <- Hlen. split; [lia|]. split; [done|].
      intros j Hj Hja. destruct (decide (j = length pre)) as [->|]; [lia|].
      exfalso. apply (Hbest j); [lia|done].
  - assert (¬ allowed (sch s) aff (length pre)) as Hnal.
    { intros (x' & Hx' & Ha'). simplify_eq. congruence. }
    rewrite Hlen. apply IH; [done|]. rewrite <- Hlen. destruct best as [b|].
    + destruct Hbest as (Hb & Hbal & Hmin). split; [lia|]. split; [done|].
      intros j Hj Hja. destruct (decide (j = length pre)) as [->|]; [done|]. apply Hmin; [lia|done].
    + intros j Hj. destruct (decide (j = length pre)) as [->|]; [done|]. apply Hbest. lia.
Qed.

(** A thread that is not queued, and a free node for it. *)
Record readyable (c : sched_st) (Q : queues) (t : Z) (thr : thread) (node : Z) : Prop := {
  ra_thread : threads c !! t = Some thr;
  ra_nonnull : t ≠ 0 ∧ node ≠ 0;
  ra_prio : valid_priority (priority thr);
  ra_idle : masterCPU thr = None;
  ra_node : is_Some (tnodes c !! node);
  ra_link : ∃ lk, tlinks c !! node = Some lk ∧ dl_next lk = 0;
  ra_fresh k p : node ∉ Q k p
}.

(** The thread and scheduler fields as readying leaves them. *)
Definition readied (thr : thread) (node : Z) (k : nat) : thread :=
  thr <| snode := node |> <| masterCPU := Some k |> <| status := THREAD_STATUS_READY |>.

Definition ready_fields (c : sched_st) (t node : Z) (thr : thread) (k : nat) : sched_st :=
  c <| tnodes ::= alter (λ n, n <| tn_data := t |>) node |>
    <| threads ::= <[t := readied thr node k]> |>
    <| Core_ReadyThreadCount ::= λ n, wrap64 (n + 1) |>.

Lemma ready_fields_inv c Q t thr node k h d :
  sched_inv c Q → readyable c Q t thr node → (k < length (cpus c))%nat →
  dl_rep h d (Q k (priority thr) ++ [node]) →
  links_frame (node :: Q k (priority thr)) (tlinks c) h →
  sched_inv (with_list (PriorityList k (priority thr)) d h (ready_fields c t node thr k))
    (q_set Q k (priority thr) (Q k (priority thr) ++ [node])).
Proof.
  intros Hinv [Hth [Ht0 Hn0] Hpr Hm [n Hn] _ Hfr] Hk Hrep Hf.
  eapply (sched_inv_move _ _ _ _ t thr (readied thr node k) node Hinv Hth Ht0);
    simpl; try done.
  - intros k' p' Hin. by apply Hfr in Hin.
  - intros k'. by rewrite Hm.
  - exists (n <| tn_data := t |>). by rewrite lookup_alter_eq, Hn.
  - intros x Hx. by rewrite lookup_alter_ne.
  - intros k' p' x Hx. unfold q_set. case_decide as Hd; [destruct Hd as [-> ->]; set_solver|done].
  - intros k' p'. unfold q_set. case_decide as Hd.
    + destruct Hd as [-> ->]. set_solver.
    + split; [intros Hin; by apply Hfr in Hin|]. intros [[= ->] <-]. naive_solver.
  - by intros k' [= <-].
  - intros k' p' Hk' Hp'. destruct (decide (k' = k ∧ p' = priority thr)) as [[-> ->]|Hne].
    + rewrite q_set_same. by apply tl_rep_self.
    + rewrite q_set_other by done. eapply tl_rep_other; [naive_solver|exact Hf| |].
      * intros y Hy [->|Hy']%elem_of_cons; [by apply Hfr in Hy|].
        by destruct (Hne (queue_unique _ _ _ _ _ _ _ Hinv Hy Hy')).
      * by apply (si_rep _ _ Hinv).
  - rewrite (si_count _ _ Hinv), wrap64_add, (ready_count_insert _ _ _ _ Hth).
    unfold queued, readied. rewrite Hm. simpl. f_equal. lia.
  - by eapply links_frame_size.
Qed.

Lemma lock_free_upd i l l' : l ≠ l' → lock_free i l' → lock_free (acq_st i l) l'.
Proof. unfold lock_free. intros. by rewrite acq_st_other. Qed.

Lemma set_thread_eq s t f thr :
  threads (sch s) !! t = Some thr →
  set_thread t f s = Ret () (s <| sch ::= λ c, c <| threads := <[t := f thr]> (threads (sch s)) |> |>).
Proof. intros H. unfold set_thread. by erewrite store_eq. Qed.
Lemma set_node_eq s n f nd :
  tnodes (sch s) !! n = Some nd →
  set_node n f s = Ret () (s <| sch ::= λ c, c <| tnodes := <[n := f nd]> (tnodes (sch s)) |> |>).
Proof. intros H. unfold set_node. by erewrite store_eq. Qed.
Lemma get_thread_eq s t thr : threads (sch s) !! t = Some thr → get_thread t s = Ret thr s.
Proof. intros H. by apply load_eq. Qed.

Lemma valid_priority_test p :
  valid_priority p → (p <? 0) || (THREAD_PRIORITY_MAX_VALUE <? p) = false.
Proof.
  intros [H1 H2]. apply orb_false_iff. split; apply Z.ltb_ge; done.
Qed.

Lemma alter_insert_eq {V} (m : gmap Z V) f k v :
  m !! k = Some v → alter f k m = <[k := f v]> m.
Proof.
  intros Hk. apply map_eq. intros j. destruct (decide (j = k)) as [->|].
  - by rewrite lookup_alter_eq, lookup_insert_eq, Hk.
  - by rewrite lookup_alter_ne, lookup_insert_ne.
Qed.

(** Readying a thread: it goes to the end of the queue of the first least
    loaded processor its affinity allows.  The final state, in full. *)
Lemma ThreadReadyNode_full s v Q t thr node :
  quiet (irq s) v → sched_unlocked (irq s) (length (cpus (sch s))) → sched_inv (sch s) Q →
  readyable (sch s) Q t thr node →
  (∃ k, allowed (sch s) (affinity thr) k) →
  ∃ k h d, let c' := with_list (PriorityList k (priority thr)) d h (ready_fields (sch s) t node thr k) in
    CoreH_ThreadReadyNode t node s = Ret OBOS_STATUS_SUCCESS (mkK (irq s) c' (obj s)) ∧
    best_of (sch s) (affinity thr) Q (priority thr) (length (cpus (sch s))) (Some k) ∧
    sched_inv c' (q_set Q k (priority thr) (Q k (priority thr) ++ [node])) ∧
    links_frame (node :: Q k (priority thr)) (tlinks (sch s)) h.
Proof.
  intros Hq Hul Hinv Hra [k0 Hk0]. pose proof Hra as [Hth [Ht0 Hn0] Hpr Hm [n Hn] (lk & Hlk & Hnx) Hfr].
  destruct (find_cpu_ok s Q (affinity thr) (priority thr) Hinv Hpr (cpus (sch s)) [] None)
    as (r & Hfind & Hbest); [done|intros j; simpl; lia|].
  pose proof (allowed_lt _ _ _ Hk0) as Hlt.
  destruct r as [k|]; [|by destruct (Hbest k0)].
  pose proof Hbest as (Hk & _ & _).
  pose proof Hul as [Hg Hc Hl].
  (* the state in which the list is appended to *)
  set (c1 := ready_fields (sch s) t node thr k).
  destruct (si_rep _ _ Hinv k (priority thr) Hk Hpr) as (d0 & Hd0 & Hrep0).
  destruct (ThreadListAppend_ok
    (mkK (acq_st (acq_st (irq s) Core_SchedulerLock) (SchedulerLock k)) c1 (obj s))
    IRQL_DISPATCH (PriorityList k (priority thr)) (Q k (priority thr)) node)
    as (h & d & Happ & Hrep & Hf).
  { eapply acq_st_quiet, acq_st_quiet. done. }
  { apply lock_free_upd, lock_free_upd; [done..|by apply Hl]. }
  { exists d0. done. }
  { split; try done.
    - exists (n <| tn_data := t |>). simpl. by rewrite lookup_alter_eq, Hn.
    - exists lk. done.
    - pose proof (queue_room _ _ k (priority thr) Hinv). lia. }
  exists k, h, d. intros c'. fold c1 in c'.
  split; [|split; [done|split; [by eapply ready_fields_inv|done]]].
  unfold CoreH_ThreadReadyNode. kstep.
  destruct (cpus (sch s)) as [|x0 xs0] eqn:Ecpus; [simpl in Hlt; lia|]. rewrite <- Ecpus.
  rewrite (truthy_nz _ Ht0), (truthy_nz _ Hn0). simpl.
  erewrite bind_Ret; [|by apply get_thread_eq].
  rewrite (valid_priority_test _ Hpr), Hm. simpl.
  erewrite bind_Ret; [|rewrite Ecpus; exact Hfind]. simpl.
  erewrite bind_Ret; [|by eapply acquire_quiet]. simpl.
  erewrite bind_Ret; [|eapply acquire_quiet; simpl; [by eapply acq_st_quiet|apply lock_free_upd; [done|by apply Hc]]]. simpl.
  erewrite bind_Ret; [|by eapply set_node_eq]. simpl.
  erewrite bind_Ret; [|by eapply set_thread_eq]. simpl.
  erewrite bind_Ret; [|eapply set_thread_eq; simpl; apply lookup_insert_eq]. simpl.
  erewrite bind_Ret; [|eapply set_thread_eq; simpl; apply lookup_insert_eq]. simpl.
  rewrite !insert_insert_eq. unfold sch_upd. kstep.
  replace (mkSched _ _ _ _ _ _ _ _ _ _ _ _ _ _) with c1.
  2: { unfold c1, ready_fields, readied. simpl. by rewrite (alter_insert_eq _ _ _ _ Hn). }
  erewrite bind_Ret; [|exact Happ]. simpl.
  erewrite bind_Ret; [|eapply (release_quiet _ (acq_st (irq s) Core_SchedulerLock));
    [by eapply acq_st_quiet|apply lock_free_upd; [done|by apply Hc]|done]]. simpl.
  erewrite bind_Ret; [|eapply (release_quiet _ (irq s)); done]. done.
Qed.

Lemma ThreadReadyNode_ok s v Q t thr node :
  quiet (irq s) v → sched_unlocked (irq s) (length (cpus (sch s))) → sched_inv (sch s) Q →
  readyable (sch s) Q t thr node →
  (∃ k, allowed (sch s) (affinity thr) k) →
  ∃ k s', CoreH_ThreadReadyNode t node s = Ret OBOS_STATUS_SUCCESS s' ∧
    best_of (sch s) (affinity thr) Q (priority thr) (length (cpus (sch s))) (Some k) ∧
    sched_inv (sch s') (q_set Q k (priority thr) (Q k (priority thr) ++ [node])) ∧
    threads (sch s') = <[t := readied thr node k]> (threads (sch s)) ∧
    cpus (sch s') = cpus (sch s) ∧ irq s' = irq s ∧ obj s' = obj s.
Proof.
  intros Hq Hul Hinv Hra Hal.
  destruct (ThreadReadyNode_full s v Q t thr node Hq Hul Hinv Hra Hal)
    as (k & h & d & Hrun & Hbest & Hinv' & _). eexists k, _. done.
Qed.

(** A queued thread sits somewhere in the queue of its processor. *)
Lemma queued_split c Q t thr k :
  sched_inv c Q → threads c !! t = Some thr → masterCPU thr = Some k →
  (k < length (cpus c))%nat ∧ valid_priority (priority thr) ∧
  (∃ l1 l2, Q k (priority thr) = l1 ++ snode thr :: l2 ∧ snode thr ∉ l1 ++ l2) ∧
  t ≠ 0 ∧ ∃ n, tnodes c !! snode thr = Some n ∧ tn_data n = t.
Proof.
  intros Hinv Ht Hm. destruct (si_thread _ _ Hinv _ _ _ Ht Hm) as (Hin & n & Hn & Hd).
  destruct (si_dom _ _ Hinv _ _ _ Hin) as [Hk Hp]. split; [done|]. split; [done|].
  destruct (si_node _ _ Hinv _ _ _ Hin) as (n' & _ & Hn' & Hd' & _). simplify_eq.
  split; [|eauto]. pose proof Hin as (l1 & l2 & Hsplit)%list_elem_of_split.
  exists l1, l2. split; [done|].
  destruct (si_rep _ _ Hinv _ _ Hk Hp) as (d & _ & [Hnd _ _ _ _ _]). rewrite Hsplit in Hnd.
  apply NoDup_app in Hnd as (_ & Hdj & [? _]%NoDup_cons). set_solver.
Qed.

(** Taking a node out of its queue does not disturb the others. *)
Lemma dequeue_others c Q k p k' p' h d xs :
  sched_inv c Q → links_frame (Q k p) (tlinks c) h →
  (k' < length (cpus c))%nat → valid_priority p' → ¬ (k' = k ∧ p' = p) →
  tl_rep (with_list (PriorityList k p) d h c) (PriorityList k' p') (q_set Q k p xs k' p').
Proof.
  intros Hinv Hf Hk Hp Hne. rewrite q_set_other by done.
  eapply tl_rep_other; [naive_solver|exact Hf| |by apply (si_rep _ _ Hinv)].
  intros y Hy Hy'. by destruct (Hne (queue_unique _ _ _ _ _ _ _ Hinv Hy Hy')).
Qed.

Definition blocked (thr : thread) : thread :=
  thr <| flags ::= λ f, Z.land f (Z.lnot THREAD_FLAGS_PRIORITY_RAISED) |>
      <| status := THREAD_STATUS_BLOCKED |> <| quantum := 0 |> <| masterCPU := None |>.

Definition block_fields (c : sched_st) (t : Z) (thr : thread) : sched_st :=
  c <| threads ::= <[t := blocked thr]> |>
    <| Core_ReadyThreadCount ::= λ n, wrap64 (n - 1) |>.

Lemma block_fields_inv c Q t thr k l1 l2 h d :
  sched_inv c Q → threads c !! t = Some thr → masterCPU thr = Some k →
  Q k (priority thr) = l1 ++ snode thr :: l2 → snode thr ∉ l1 ++ l2 →
  dl_rep h d (l1 ++ l2) → links_frame (Q k (priority thr)) (tlinks c) h →
  sched_inv (block_fields (with_list (PriorityList k (priority thr)) d h c) t thr)
    (q_set Q k (priority thr) (l1 ++ l2)).
Proof.
  intros Hinv Hth Hm HQ Hnot Hrep Hf.
  destruct (queued_split _ _ _ _ _ Hinv Hth Hm) as (Hk & Hp & _ & Ht0 & n & Hn & Hd).
  assert (snode thr ∈ Q k (priority thr)) as Hin by (rewrite HQ; set_solver).
  eapply (sched_inv_move _ _ _ _ t thr (blocked thr) (snode thr) Hinv Hth Ht0);
    simpl; try done; eauto.
  - intros k' p' x Hx. unfold q_set. case_decide as Hc; [|done]. destruct Hc as [-> ->].
    rewrite HQ. set_solver.
  - intros k' p'. split; [|by intros [? _]]. unfold q_set. case_decide as Hc.
    + by intros ?%Hnot.
    + intros Hin'. by destruct (Hc (queue_unique _ _ _ _ _ _ _ Hinv Hin' Hin)).
  - intros k' p' Hk' Hp'. destruct (decide (k' = k ∧ p' = priority thr)) as [[-> ->]|Hne].
    + rewrite q_set_same. by apply (tl_rep_self c).
    + by apply (dequeue_others c).
  - rewrite (si_count _ _ Hinv), wrap64_sub, (ready_count_insert _ _ _ _ Hth).
    unfold queued, blocked. rewrite Hm. simpl. f_equal. lia.
  - by eapply links_frame_size.
Qed.

(** The locked part of blocking: the thread leaves its queue.  The final state,
    in full. *)
Lemma thread_block_locked_full s v Q t thr k :
  quiet (irq s) v → sched_unlocked (irq s) (length (cpus (sch s))) → sched_inv (sch s) Q →
  threads (sch s) !! t = Some thr → masterCPU thr = Some k →
  ∃ l1 l2 h d, let c' := block_fields (with_list (PriorityList k (priority thr)) d h (sch s)) t thr in
    Q k (priority thr) = l1 ++ snode thr :: l2 ∧
    thread_block_locked t thr k s = Ret () (mkK (irq s) c' (obj s)) ∧
    sched_inv c' (q_set Q k (priority thr) (l1 ++ l2)) ∧
    h !! snode thr = Some unlinked ∧ links_frame (Q k (priority thr)) (tlinks (sch s)) h.
Proof.
  intros Hq Hul Hinv Hth Hm.
  destruct (queued_split _ _ _ _ _ Hinv Hth Hm)
    as (Hk & Hp & (l1 & l2 & HQ & Hnot) & Ht0 & n & Hn & Hd).
  pose proof Hul as [Hg Hc Hl].
  destruct (ThreadListRemove_ok
    (mkK (acq_st (acq_st (irq s) Core_SchedulerLock) (SchedulerLock k)) (sch s) (obj s))
    IRQL_DISPATCH (PriorityList k (priority thr)) l1 (snode thr) l2)
    as (h & d & Hrem & Hrep & Hun & Hf).
  { by eapply acq_st_quiet, acq_st_quiet. }
  { apply lock_free_upd, lock_free_upd; [done..|by apply Hl]. }
  { rewrite <- HQ. by apply (si_rep _ _ Hinv). }
  { rewrite <- HQ. pose proof (queue_room _ _ k (priority thr) Hinv). lia. }
  { exists n. split; [done|]. congruence. }
  rewrite <- HQ in Hf.
  exists l1, l2, h, d. intros c'.
  split; [done|]. split; [|split; [by eapply block_fields_inv|done]].
  unfold thread_block_locked.
  erewrite bind_Ret; [|by eapply acquire_quiet]. simpl.
  erewrite bind_Ret; [|eapply acquire_quiet; simpl; [by eapply acq_st_quiet|apply lock_free_upd; [done|by apply Hc]]]. simpl.
  erewrite bind_Ret; [|exact Hrem]. simpl.
  erewrite bind_Ret; [|by eapply set_thread_eq]. simpl.
  erewrite bind_Ret; [|eapply set_thread_eq; simpl; apply lookup_insert_eq]. simpl.
  erewrite bind_Ret; [|eapply set_thread_eq; simpl; apply lookup_insert_eq]. simpl.
  unfold sch_upd. kstep. rewrite !insert_insert_eq.
  erewrite bind_Ret; [|eapply (release_quiet _ (acq_st (irq s) Core_SchedulerLock));
    [by eapply acq_st_quiet|apply lock_free_upd; [done|by apply Hc]|done]]. simpl.
  erewrite bind_Ret; [|eapply set_thread_eq; simpl; apply lookup_insert_eq]. simpl.
  rewrite insert_insert_eq.
  erewrite bind_Ret; [|eapply (release_quiet _ (irq s)); done]. done.
Qed.

Lemma thread_block_locked_ok s v Q t thr k :
  quiet (irq s) v → sched_unlocked (irq s) (length (cpus (sch s))) → sched_inv (sch s) Q →
  threads (sch s) !! t = Some thr → masterCPU thr = Some k →
  ∃ l1 l2 s', Q k (priority thr) = l1 ++ snode thr :: l2 ∧
    thread_block_locked t thr k s = Ret () s' ∧
    sched_inv (sch s') (q_set Q k (priority thr) (l1 ++ l2)) ∧
    threads (sch s') = <[t := blocked thr]> (threads (sch s)) ∧
    tlinks (sch s') !! snode thr = Some unlinked ∧
    tnodes (sch s') = tnodes (sch s) ∧ cpus (sch s') = cpus (sch s) ∧
    irq s' = irq s ∧ obj s' = obj s.
Proof.
  intros Hq Hul Hinv Ht Hm.
  destruct (thread_block_locked_full s v Q t thr k Hq Hul Hinv Ht Hm)
    as (l1 & l2 & h & d & HQ & Hrun & Hinv' & Hun & _). eexists l1, l2, _. done.
Qed.

(** Moving the node [x] of a queued thread from its queue to another one. *)
Definition q_move (Q : queues) (k : nat) (p p' : Z) (l1 : list Z) (x : Z) (l2 : list Z) : queues :=
  q_set (q_set Q k p (l1 ++ l2)) k p' (Q k p' ++ [x]).

(** A new record for a queued thread, which sits at priority [p'] now. *)
Record requeued (thr thr' : thread) (p' : Z) : Prop := {
  rq_cpu : masterCPU thr' = masterCPU thr;
  rq_node : snode thr' = snode thr;
  rq_prio : priority thr' = p'
}.

Lemma requeue_inv c Q t thr thr' k p' l1 l2 h1 d1 h2 d2 :
  sched_inv c Q → threads c !! t = Some thr → masterCPU thr = Some k →
  valid_priority p' → p' ≠ priority thr → requeued thr thr' p' →
  Q k (priority thr) = l1 ++ snode thr :: l2 → snode thr ∉ l1 ++ l2 →
  dl_rep h1 d1 (l1 ++ l2) → links_frame (Q k (priority thr)) (tlinks c) h1 →
  dl_rep h2 d2 (Q k p' ++ [snode thr]) → links_frame (snode thr :: Q k p') h1 h2 →
  sched_inv ((with_list (PriorityList k p') d2 h2
                (with_list (PriorityList k (priority thr)) d1 h1 c))
               <| threads := <[t := thr']> (threads c) |>)
    (q_move Q k (priority thr) p' l1 (snode thr) l2).
Proof.
  intros Hinv Hth Hm Hp1 Hpne [Hm' Hs' Hp''] HQ Hnot Hrep1 Hf1 Hrep2 Hf2.
  destruct (queued_split _ _ _ _ _ Hinv Hth Hm) as (Hk & Hp & _ & Ht0 & n & Hn & Hd).
  assert (snode thr ∈ Q k (priority thr)) as Hin by (rewrite HQ; set_solver).
  assert (∀ k' q, snode thr ∈ Q k' q → k = k' ∧ priority thr = q) as Huniq.
  { intros k' q Hin'. eapply queue_unique; done. }
  assert (snode thr ∉ Q k p') as Hnot1.
  { intros Hin'. destruct (Huniq _ _ Hin'). congruence. }
  eapply (sched_inv_move _ _ _ _ t thr thr' (snode thr) Hinv Hth Ht0);
    simpl; try done; eauto.
  - intros k' q x Hx. unfold q_move, q_set. repeat case_decide; destruct_and?; subst; try done.
    + set_solver.
    + rewrite HQ. set_solver.
  - intros k' q. rewrite Hm', Hm, Hp''. unfold q_move, q_set. repeat case_decide; destruct_and?; subst.
    + set_solver.
    + split; [by intros ?%Hnot|]. intros [_ ?]. congruence.
    + split; [intros Hin'; destruct (Huniq _ _ Hin'); naive_solver|]. naive_solver.
  - intros k' Hk'. rewrite Hm', Hm in Hk'. rewrite Hp''. naive_solver.
  - intros k' q Hk' Hq'. unfold q_move.
    destruct (decide (k' = k ∧ q = p')) as [[-> ->]|Hne].
    { rewrite q_set_same. by apply (tl_rep_self (with_list (PriorityList k (priority thr)) d1 h1 c)). }
    rewrite q_set_other by done.
    eapply (tl_rep_other (with_list (PriorityList k (priority thr)) d1 h1 c)); [naive_solver|exact Hf2| |].
    + intros y Hy [->|Hy1]%elem_of_cons.
      * unfold q_set in Hy. case_decide; [done|]. destruct (Huniq _ _ Hy). naive_solver.
      * unfold q_set in Hy. case_decide as Hc.
        -- destruct Hc as [-> ->]. assert (y ∈ Q k (priority thr)) as Hy' by (rewrite HQ; set_solver).
           destruct (queue_unique _ _ _ _ _ _ _ Hinv Hy' Hy1). congruence.
        -- by destruct (Hne (queue_unique _ _ _ _ _ _ _ Hinv Hy Hy1)).
    + destruct (decide (k' = k ∧ q = priority thr)) as [[-> ->]|Hne'].
      * rewrite q_set_same. by apply tl_rep_self.
      * by apply dequeue_others.
  - rewrite (si_count _ _ Hinv), (ready_count_insert _ _ _ _ Hth).
    unfold queued. rewrite Hm'. f_equal. lia.
  - rewrite (links_frame_size _ _ _ Hf2). by eapply links_frame_size.
Qed.

(** The pair of list operations that moves the node of a queued thread to
    another priority of its processor, the fields of threads being free to
    change in between. *)
Lemma requeue_lists s v Q t thr k p' :
  quiet (irq s) v → sched_inv (sch s) Q →
  lock_free (irq s) (ThreadListLock (PriorityList k (priority thr))) →
  lock_free (irq s) (ThreadListLock (PriorityList k p')) →
  threads (sch s) !! t = Some thr → masterCPU thr = Some k →
  valid_priority p' → p' ≠ priority thr →
  ∃ l1 l2 h1 d1 h2 d2, Q k (priority thr) = l1 ++ snode thr :: l2 ∧
    CoreH_ThreadListRemove (Some (PriorityList k (priority thr))) (snode thr) s =
      Ret OBOS_STATUS_SUCCESS (s <| sch ::= with_list (PriorityList k (priority thr)) d1 h1 |>) ∧
    (∀ T, let c1 := (with_list (PriorityList k (priority thr)) d1 h1 (sch s)) <| threads := T |> in
      CoreH_ThreadListAppend (Some (PriorityList k p')) (snode thr) (mkK (irq s) c1 (obj s)) =
        Ret OBOS_STATUS_SUCCESS (mkK (irq s) (with_list (PriorityList k p') d2 h2 c1) (obj s))) ∧
    (∀ thr', requeued thr thr' p' →
      sched_inv ((with_list (PriorityList k p') d2 h2
                    (with_list (PriorityList k (priority thr)) d1 h1 (sch s)))
                   <| threads := <[t := thr']> (threads (sch s)) |>)
        (q_move Q k (priority thr) p' l1 (snode thr) l2)) ∧
    links_frame (Q k (priority thr) ++ Q k p') (tlinks (sch s)) h2.
Proof.
  intros Hq Hinv Hl1 Hl2 Hth Hm Hp1 Hpne.
  destruct (queued_split _ _ _ _ _ Hinv Hth Hm)
    as (Hk & Hp & (l1 & l2 & HQ & Hnot) & Ht0 & n & Hn & Hd).
  assert (snode thr ∈ Q k (priority thr)) as Hin by (rewrite HQ; set_solver).
  assert (∃ n, tnodes (sch s) !! snode thr = Some n ∧ tn_data n ≠ 0) as Hnode
    by (exists n; split; [done|congruence]).
  destruct (ThreadListRemove_ok s v (PriorityList k (priority thr)) l1 (snode thr) l2)
    as (h1 & d1 & Hrem & Hrep1 & Hun & Hf1); [done|done| | |done|].
  { rewrite <- HQ. by apply (si_rep _ _ Hinv). }
  { rewrite <- HQ. pose proof (queue_room _ _ k (priority thr) Hinv). lia. }
  rewrite <- HQ in Hf1.
  destruct (si_rep _ _ Hinv k (priority thr) Hk Hp) as (? & _ & [_ H0 _ _ _ _]). rewrite HQ in H0.
  pose proof (dequeue_others (sch s) Q k (priority thr) k p' h1 d1 [] Hinv Hf1 Hk Hp1) as Hrep'.
  rewrite q_set_other in Hrep' by naive_solver. destruct Hrep' as (d' & Hd' & Hrep'); [naive_solver|].
  simpl in Hd', Hrep'.
  destruct (ThreadListAppend_det (s <| sch ::= with_list (PriorityList k (priority thr)) d1 h1 |>)
    v (PriorityList k p') (Q k p') (snode thr)) as (h2 & Hrep2 & Hf2 & Happ);
    [done|done|by exists d'| |].
  { split; simpl; try done; [set_solver|by exists unlinked| |].
    - intros Hin'. destruct (queue_unique _ _ _ _ _ _ _ Hinv Hin Hin'). congruence.
    - pose proof (queue_room _ _ k p' Hinv). lia. }
  exists l1, l2, h1, d1, h2, (appended (Q k p') (snode thr)).
  split; [done|]. split; [done|]. split.
  - intros T c1. by rewrite (Happ (mkK (irq s) c1 (obj s))).
  - split; [intros thr' Hrq; by eapply requeue_inv|].
    eapply links_frame_trans; eapply links_frame_weaken; [|exact Hf1| |exact Hf2]; set_solver.
Qed.

Definition boosted (thr : thread) : thread :=
  thr <| flags ::= λ f, Z.lor f THREAD_FLAGS_PRIORITY_RAISED |> <| priority ::= λ p, p + 1 |>.

(** A queued thread below the top priority that was not raised yet moves to the
    end of the next queue of its processor. *)
Lemma ThreadBoostPriority_ok s v Q t thr k :
  quiet (irq s) v → sched_unlocked (irq s) (length (cpus (sch s))) → sched_inv (sch s) Q →
  threads (sch s) !! t = Some thr → masterCPU thr = Some k →
  has_flag (flags thr) THREAD_FLAGS_DIED = false →
  has_flag (flags thr) THREAD_FLAGS_PRIORITY_RAISED = false →
  priority thr ≠ THREAD_PRIORITY_MAX_VALUE →
  ∃ l1 l2 s', Q k (priority thr) = l1 ++ snode thr :: l2 ∧
    CoreH_ThreadBoostPriority t s = Ret OBOS_STATUS_SUCCESS s' ∧
    sched_inv (sch s') (q_move Q k (priority thr) (priority thr + 1) l1 (snode thr) l2) ∧
    threads (sch s') = <[t := boosted thr]> (threads (sch s)) ∧
    tnodes (sch s') = tnodes (sch s) ∧ cpus (sch s') = cpus (sch s) ∧
    irq s' = irq s ∧ obj s' = obj s.
Proof.
  intros Hq Hul Hinv Hth Hm Hdied Hraised Hmax.
  destruct (queued_split _ _ _ _ _ Hinv Hth Hm) as (Hk & Hp & _ & Ht0 & _).
  assert (valid_priority (priority thr + 1)) as Hp1
    by (unfold valid_priority, THREAD_PRIORITY_MAX_VALUE in *; lia).
  pose proof Hul as [Hg Hc Hl].
  set (i2 := acq_st (acq_st (irq s) Core_SchedulerLock) (SchedulerLock k)).
  assert (∀ p, valid_priority p → lock_free i2 (ThreadListLock (PriorityList k p))) as Hl2
    by (intros; apply lock_free_upd, lock_free_upd; [done..|by apply Hl]).
  destruct (requeue_lists (mkK i2 (sch s) (obj s)) IRQL_DISPATCH Q t thr k (priority thr + 1))
    as (l1 & l2 & h1 & d1 & h2 & d2 & HQ & Hrem & Happ & Hres & _); try done;
    [by eapply acq_st_quiet, acq_st_quiet|by apply Hl2..|lia|].
  eexists l1, l2, (mkK (irq s) _ (obj s)).
  split; [done|]. split; [|split; [by apply (Hres (boosted thr))|done]].
  unfold CoreH_ThreadBoostPriority. rewrite (truthy_nz _ Ht0). simpl.
  erewrite bind_Ret; [|by apply get_thread_eq].
  rewrite (valid_priority_test _ Hp), Hdied, Hm. simpl.
  rewrite Hraised, (proj2 (Z.eqb_neq _ _) Hmax). simpl.
  erewrite bind_Ret; [|by eapply acquire_quiet]. simpl.
  erewrite bind_Ret; [|eapply acquire_quiet; simpl; [by eapply acq_st_quiet|apply lock_free_upd; [done|by apply Hc]]].
  cbv beta. erewrite (bind_Ret (CoreH_ThreadListRemove _ _ ≫= _)).
  2: { erewrite bind_Ret; [|exact Hrem]. simpl. erewrite bind_Ret; [|exact (Happ (threads (sch s)))]. done. }
  simpl.
  erewrite bind_Ret; [|by eapply set_thread_eq]. simpl.
  erewrite bind_Ret; [|eapply set_thread_eq; simpl; apply lookup_insert_eq]. simpl.
  rewrite !insert_insert_eq.
  erewrite bind_Ret.
  2: { erewrite bind_Ret; [|eapply (release_quiet _ (acq_st (irq s) Core_SchedulerLock));
    [by eapply acq_st_quiet|apply lock_free_upd; [done|by apply Hc]|done]]. done. } simpl.
  erewrite bind_Ret; [|eapply (release_quiet _ (irq s)); done]. done.
Qed.
End ops.
