(* ===== verification/SchedSwitch.v ===== *)
(** * Correctness of the scheduler

    [switch_inv k cur]: what holds on processor [k] whenever its scheduler is
    entered with current thread [cur].  [Core_Schedule] terminates in a context
    switch, keeps the run-queue invariant, and hands the processor to a thread
    that was waiting in its own queues. *)

From S2P Require Import Prelude DList KState Irql ThreadList Schedule Thread SchedInv.

(** A processor's priority lists are set up and its round-robin position is
    one of them. *)
Record cpu_ok (x : cpu_local) : Prop := {
  co_lists p : valid_priority p → ∃ l, priorityLists x !! p = Some l ∧ plpriority l = p;
  co_position p : currentPriorityList x = Some p → valid_priority p;
  co_idle : idleThread x ≠ 0
}.

(** A thread queued on [k] is runnable, runs only if it is the current one, and
    was raised only from a lower priority. *)
Definition thread_ok (k : nat) (cur t : Z) (thr : thread) : Prop :=
  masterCPU thr = Some k →
  status thr ≠ THREAD_STATUS_BLOCKED ∧
  (status thr = THREAD_STATUS_RUNNING → t = cur) ∧
  (has_flag (flags thr) THREAD_FLAGS_PRIORITY_RAISED = true → 0 < priority thr).

(** The current thread is queued, or it has just been blocked. *)
Definition current_ok (c : sched_st) (k : nat) (thr : thread) : Prop :=
  masterCPU thr = Some k ∨
  (masterCPU thr = None ∧ status thr = THREAD_STATUS_BLOCKED ∧
   has_flag (flags thr) THREAD_FLAGS_PRIORITY_RAISED = false ∧
   tlinks c !! snode thr = Some unlinked ∧ ∀ t' thr', threads c !! t' = Some thr' →
     is_Some (masterCPU thr') → snode thr' ≠ snode thr).

Record switch_inv (c : sched_st) (k : nat) (cur : Z) (Q : queues) : Prop := {
  sw_inv : sched_inv c Q;
  sw_cpu : ∃ x, cpus c !! k = Some x ∧ cpu_ok x ∧
    ∃ thr, threads c !! idleThread x = Some thr ∧ masterCPU thr = Some k;
  sw_thread t thr : threads c !! t = Some thr → thread_ok k cur t thr;
  sw_allowed t thr : threads c !! t = Some thr → masterCPU thr = Some k →
    allowed c (affinity thr) k;
  sw_proc t thr : threads c !! t = Some thr → proc thr ≠ 0 → is_Some (procs c !! proc thr);
  sw_current : cur ≠ 0 → ∃ thr, threads c !! cur = Some thr ∧ current_ok c k thr
}.

(** What scheduling never changes of a thread before it commits. *)
Definition thread_abs (thr : thread) :=
  (masterCPU thr, snode thr, affinity thr, proc thr, status thr).
Definition cpu_abs (x : cpu_local) := (id x, idleThread x).

Record evolves (c c' : sched_st) : Prop := {
  ev_threads t : thread_abs <$> threads c' !! t = thread_abs <$> threads c !! t;
  ev_nodes : tnodes c' = tnodes c;
  ev_cpus : length (cpus c') = length (cpus c);
  ev_idle k : cpu_abs <$> cpus c' !! k = cpu_abs <$> cpus c !! k;
  ev_procs : procs c' = procs c;
  ev_tick : native_tick c' = native_tick c;
  ev_lists l : (∀ k p, l ≠ PriorityList k p) → lists c' !! l = lists c !! l;
  ev_links y : (∀ t thr, threads c !! t = Some thr → is_Some (masterCPU thr) → snode thr ≠ y) →
    tlinks c' !! y = tlinks c !! y
}.

Lemma evolves_refl c : evolves c c.
Proof. by split. Qed.
Lemma evolves_trans c1 c2 c3 : evolves c1 c2 → evolves c2 c3 → evolves c1 c3.
Proof.
  intros H1 H2. split; intros; try (etrans; [by apply H2|by apply H1]).
  rewrite (ev_links _ _ H2); [by apply (ev_links _ _ H1)|]. intros t thr Ht Hm.
  pose proof (ev_threads _ _ H1 t) as E. rewrite Ht in E.
  destruct (threads c1 !! t) as [thr1|] eqn:Ht1; [|done]. injection E as Em Es _ _ _.
  rewrite Es. eapply H; [done|]. by rewrite <- Em.
Qed.

(** ** The elementary updates *)

(** Assigning fields of a thread that do not matter for queueing. *)
Lemma sched_inv_fields c c' Q t thr thr' :
  sched_inv c Q → threads c !! t = Some thr → requeued thr thr' (priority thr) →
  lists c' = lists c → tlinks c' = tlinks c → tnodes c' = tnodes c →
  length (cpus c') = length (cpus c) → Core_ReadyThreadCount c' = Core_ReadyThreadCount c →
  threads c' = <[t := thr']> (threads c) →
  sched_inv c' Q.
Proof.
  intros [Hrep Hdom Hnode Hthr Hcnt Hroom] Ht [Hm Hs Hp] El Etl Etn Ec Er Eth.
  split.
  - intros k p. unfold tl_rep. rewrite El, Etl, Ec. apply Hrep.
  - intros k p x. rewrite Ec. apply Hdom.
  - intros k p x Hx. rewrite Etn, Eth.
    destruct (Hnode k p x Hx) as (n & thr0 & Hn & Hd & Hth & Hm0 & Hp0 & Hs0).
    destruct (decide (t = tn_data n)) as [->|Hne].
    + exists n, thr'. rewrite lookup_insert_eq. simplify_eq. repeat split; congruence.
    + exists n, thr0. by rewrite lookup_insert_ne.
  - intros t' thr0 k. rewrite Etn, Eth. destruct (decide (t = t')) as [->|Hne].
    + rewrite lookup_insert_eq. intros [= <-]. rewrite Hm, Hs, Hp. by apply Hthr.
    + rewrite lookup_insert_ne by done. apply Hthr.
  - rewrite Er, Eth, Hcnt, (ready_count_insert _ _ _ _ Ht). unfold queued. rewrite Hm. f_equal. lia.
  - by rewrite Etl.
Qed.

Lemma evolves_thread c t thr thr' :
  threads c !! t = Some thr → thread_abs thr' = thread_abs thr →
  evolves c (c <| threads ::= <[t := thr']> |>).
Proof.
  intros Ht Habs. split; try done. intros t'. simpl.
  destruct (decide (t = t')) as [->|]; [|by rewrite lookup_insert_ne].
  rewrite lookup_insert_eq, Ht. simpl. by rewrite Habs.
Qed.

(** The invariant after a thread changes outside [thread_abs]. *)
Lemma switch_inv_step c c' k cur Q Q' :
  switch_inv c k cur Q → evolves c c' → sched_inv c' Q' →
  (∃ x, cpus c' !! k = Some x ∧ cpu_ok x) →
  (∀ t thr, threads c' !! t = Some thr → masterCPU thr = Some k →
     has_flag (flags thr) THREAD_FLAGS_PRIORITY_RAISED = true → 0 < priority thr) →
  (∀ thr thr', cur ≠ 0 → threads c !! cur = Some thr → threads c' !! cur = Some thr' →
     masterCPU thr = None → tlinks c' !! snode thr = tlinks c !! snode thr ∧ flags thr' = flags thr) →
  switch_inv c' k cur Q'.
Proof.
  intros [Hinv (x & Hx & Hok & thr0 & Hidle & Hm0) Hth Hal Hpr Hcur] Hev Hinv' (x' & Hx' & Hok') Hraise Hpark.
  assert (∀ t thr', threads c' !! t = Some thr' → ∃ thr, threads c !! t = Some thr ∧
    thread_abs thr' = thread_abs thr) as Hback.
  { intros t thr' Ht. pose proof (ev_threads _ _ Hev t) as E. rewrite Ht in E.
    destruct (threads c !! t) as [thr|]; simplify_eq/=. exists thr. split; [done|]. unfold thread_abs. congruence. }
  assert (∀ t thr, threads c !! t = Some thr → ∃ thr', threads c' !! t = Some thr' ∧
    thread_abs thr' = thread_abs thr) as Hfwd.
  { intros t thr' Ht. pose proof (ev_threads _ _ Hev t) as E. rewrite Ht in E.
    destruct (threads c' !! t) as [thr|]; simplify_eq/=. exists thr. split; [done|]. unfold thread_abs. congruence. }
  split.
  - done.
  - exists x'. split; [done|]. split; [done|].
    pose proof (ev_idle _ _ Hev k) as E. rewrite Hx, Hx' in E. injection E as _ ->.
    destruct (Hfwd _ _ Hidle) as (thr & Ht & Habs). exists thr. split; [done|].
    unfold thread_abs in Habs. congruence.
  - intros t thr' Ht Hm. destruct (Hback _ _ Ht) as (thr & Ht0 & Habs).
    unfold thread_abs in Habs. simplify_eq.
    destruct (Hth _ _ Ht0) as (Hb & Hr & _); [congruence|].
    split; [congruence|]. split; [intros ?; apply Hr; congruence|]. by eapply Hraise.
  - intros t thr' Ht Hm. destruct (Hback _ _ Ht) as (thr & Ht0 & Habs).
    injection Habs as Em _ Ea _ _. rewrite Ea. rewrite Em in Hm.
    destruct (Hal _ _ Ht0 Hm) as (y & Hy & Hmask). exists x'. split; [done|].
    pose proof (ev_idle _ _ Hev k) as E. rewrite Hy, Hx' in E. injection E as -> _. done.
  - intros t thr' Ht Hp0. destruct (Hback _ _ Ht) as (thr & Ht0 & Habs).
    unfold thread_abs in Habs. simplify_eq. rewrite (ev_procs _ _ Hev).
    replace (proc thr') with (proc thr) in * by done. by eapply Hpr.
  - intros Hc0. destruct (Hcur Hc0) as (thr & Ht & Hok0). destruct (Hfwd _ _ Ht) as (thr' & Ht' & Habs).
    exists thr'. split; [done|]. unfold thread_abs in Habs. injection Habs as Em Es Ea Ep Est.
    destruct Hok0 as [Hm|(Hm & Hst & Hfl & Hlk & Huq)]; [left; congruence|right].
    destruct (Hpark _ _ Hc0 Ht Ht' Hm) as [Hl Hf]. rewrite Em, Es, Est, Hf, Hl.
    repeat split; try done. intros t2 thr2 Ht2 Hm2.
    destruct (Hback _ _ Ht2) as (thr3 & Ht3 & Habs3). injection Habs3 as E1 E2 _ _ _.
    rewrite E2. eapply Huq; [done|]. by rewrite <- E1.
Qed.

Section switch.
#[local] Set Default Proof Using "All".
Context {DH : DpcHandlers}.
Context (i0 : irq_st) (s0 : kst) (k : nat) (cur : Z).
Context (Hquiet : quiet i0 IRQL_DISPATCH)
        (Hfree : ∀ k p, (k < length (cpus (sch s0)))%nat → valid_priority p →
           lock_free i0 (ThreadListLock (PriorityList k p))).

(** The states the scheduler goes through, from [s0] up to its commit, while
    the interrupt state is [i0]. *)
Definition on_way (s : kst) : Prop :=
  irq s = i0 ∧ obj s = obj s0 ∧ evolves (sch s0) (sch s) ∧
  ∃ Q, switch_inv (sch s) k cur Q.

Lemma on_way_step s c' Q Q' :
  on_way s → switch_inv (sch s) k cur Q → evolves (sch s) c' → switch_inv c' k cur Q' →
  on_way (mkK (irq s) c' (obj s)).
Proof.
  intros (Hi & Ho & Hev & _) _ Hev' Hsw. split; [done|]. split; [done|].
  split; [by eapply evolves_trans|eauto].
Qed.

Lemma on_way_get_cpu s :
  on_way s → runs (get_cpu k) s (λ x s', s' = s ∧ cpus (sch s) !! k = Some x ∧ cpu_ok x).
Proof.
  intros (_ & _ & _ & Q & Hsw). destruct (sw_cpu _ _ _ _ Hsw) as (x & Hx & Hok & _).
  exists x, s. unfold get_cpu. by rewrite Hx.
Qed.

Lemma on_way_set_cpu s f x :
  on_way s → cpus (sch s) !! k = Some x → cpu_ok (f x) → cpu_abs (f x) = cpu_abs x →
  runs (set_cpu k f) s (λ _ s', on_way s' ∧ cpus (sch s') !! k = Some (f x) ∧
    lists (sch s') = lists (sch s) ∧ tlinks (sch s') = tlinks (sch s) ∧
    threads (sch s') = threads (sch s)).
Proof.
  intros Hw Hx Hok Hid. pose proof Hw as (_ & _ & _ & Q & Hsw).
  unfold set_cpu. eexists (), _. rewrite Hx. split; [reflexivity|]. simpl.
  assert ((k < length (cpus (sch s)))%nat) as Hk by (by eapply lookup_lt_Some).
  split; [|split; [by rewrite list_lookup_insert_eq|done]].
  destruct (sw_cpu _ _ _ _ Hsw) as (x' & Hx' & _ & thr & Ht & _).
  rewrite Hx in Hx'. injection Hx' as <-.
  eapply on_way_step; [done|done| |].
  - split; try done; simpl; [by rewrite length_insert|]. intros j.
    destruct (decide (j = k)) as [->|]; [|by rewrite list_lookup_insert_ne].
    rewrite list_lookup_insert_eq, Hx by done. simpl. by f_equal.
  - eapply (switch_inv_step (sch s) _ _ _ Q Q); [done|..]; simpl; try done.
    + split; try done; simpl; [by rewrite length_insert|]. intros j.
      destruct (decide (j = k)) as [->|]; [|by rewrite list_lookup_insert_ne].
      rewrite list_lookup_insert_eq, Hx by done. simpl. by f_equal.
    + eapply (sched_inv_fields (sch s) _ Q (idleThread x) thr thr); try done;
        [apply Hsw|simpl; by rewrite length_insert|]. simpl. by rewrite insert_id.
    + exists (f x). by rewrite list_lookup_insert_eq.
    + intros t thr' Ht' Hm. by apply (sw_thread _ _ _ _ Hsw _ _ Ht').
    + intros ? ? _ E1 E2. rewrite E1 in E2. by injection E2 as ->.
Qed.

(** A thread field outside [thread_abs], [flags] and [priority] is assigned. *)
Lemma on_way_set_thread s t f thr :
  on_way s → threads (sch s) !! t = Some thr → thread_abs (f thr) = thread_abs thr →
  flags (f thr) = flags thr → priority (f thr) = priority thr →
  runs (set_thread t f) s (λ _ s', on_way s' ∧ threads (sch s') = <[t := f thr]> (threads (sch s)) ∧
    lists (sch s') = lists (sch s) ∧ tlinks (sch s') = tlinks (sch s) ∧ cpus (sch s') = cpus (sch s)).
Proof.
  intros Hw Ht Habs Hfl Hp. pose proof Hw as (_ & _ & _ & Q & Hsw).
  eexists (), _. split; [by apply set_thread_eq|]. simpl. split; [|done].
  pose proof Habs as Habs'. injection Habs' as Em Es Ea Ep Est.
  pose proof (evolves_thread (sch s) t thr (f thr) Ht Habs) as Hev.
  eapply on_way_step; [done|done|exact Hev|].
  eapply (switch_inv_step (sch s) _ _ _ Q Q); [done|done|..]; simpl.
  - eapply (sched_inv_fields (sch s) _ Q t thr (f thr)); try done; apply Hsw.
  - destruct (sw_cpu _ _ _ _ Hsw) as (x & Hx & Hok & _). eauto.
  - intros t' thr' Ht' Hm. destruct (decide (t = t')) as [->|Hne].
    + rewrite lookup_insert_eq in Ht'. injection Ht' as <-. rewrite Hfl, Hp.
      apply (sw_thread _ _ _ _ Hsw _ _ Ht). congruence.
    + rewrite lookup_insert_ne in Ht' by done. by apply (sw_thread _ _ _ _ Hsw _ _ Ht').
  - intros thr1 thr2 _ H1 H2 _. split; [done|]. destruct (decide (t = cur)) as [->|Hne].
    + rewrite lookup_insert_eq in H2. by simplify_eq.
    + rewrite lookup_insert_ne in H2 by done. by simplify_eq.
Qed.

(** The node of a parked thread is in no queue. *)
Lemma parked_not_queued c Q thr k' p :
  switch_inv c k cur Q → threads c !! cur = Some thr → masterCPU thr = None → cur ≠ 0 →
  snode thr ∉ Q k' p.
Proof.
  intros Hsw Ht Hm Hc Hin. destruct (sw_current _ _ _ _ Hsw Hc) as (thr' & Ht' & Hok). simplify_eq.
  destruct Hok as [?|(_ & _ & _ & _ & Huq)]; [congruence|].
  destruct (si_node _ _ (sw_inv _ _ _ _ Hsw) _ _ _ Hin) as (n & thr2 & Hn & Hd & Ht2 & Hm2 & Hp2 & Hs2).
  eapply Huq; [exact Ht2|by rewrite Hm2|done].
Qed.

(** Moving a queued thread between two priorities keeps the invariant. *)
Lemma switch_inv_requeue c Q t thr thr' p' l1 l2 h1 d1 h2 d2 :
  switch_inv c k cur Q → threads c !! t = Some thr → masterCPU thr = Some k →
  requeued thr thr' p' → thread_abs thr' = thread_abs thr →
  (has_flag (flags thr') THREAD_FLAGS_PRIORITY_RAISED = true → 0 < p') →
  let c' := (with_list (PriorityList k p') d2 h2
              (with_list (PriorityList k (priority thr)) d1 h1 c))
              <| threads := <[t := thr']> (threads c) |> in
  sched_inv c' (q_move Q k (priority thr) p' l1 (snode thr) l2) →
  links_frame (Q k (priority thr) ++ Q k p') (tlinks c) h2 →
  evolves c c' ∧ switch_inv c' k cur (q_move Q k (priority thr) p' l1 (snode thr) l2).
Proof.
  intros Hsw Ht Hm Hrq Habs Hpos c' Hinv' Hf.
  assert (evolves c c') as Hev.
  { destruct (evolves_thread c t thr thr' Ht Habs). split; try done; simpl.
    - intros l Hl. rewrite !lookup_insert_ne by (intros E; by eapply Hl). done.
    - intros y Hy. apply (proj1 Hf). intros Hin.
      assert (∃ p, y ∈ Q k p) as [p Hp] by (apply elem_of_app in Hin as [|]; eauto).
      destruct (si_node _ _ (sw_inv _ _ _ _ Hsw) _ _ _ Hp) as (n & thr2 & _ & _ & Ht2 & Hm2 & _ & Hs2).
      eapply Hy; [exact Ht2|by rewrite Hm2|done]. }
  split; [done|].
  eapply (switch_inv_step c); [done|done|done|..]; simpl.
  - destruct (sw_cpu _ _ _ _ Hsw) as (x & Hx & Hok & _). eauto.
  - intros t' thr2 Ht' Hm'. destruct (decide (t = t')) as [->|Hne].
    + rewrite lookup_insert_eq in Ht'. injection Ht' as <-. by rewrite (rq_prio _ _ _ Hrq).
    + rewrite lookup_insert_ne in Ht' by done. by apply (sw_thread _ _ _ _ Hsw _ _ Ht').
  - intros thr1 thr2 Hc H1 H2 Hm1. assert (t ≠ cur) as Hne by (intros ->; congruence).
    rewrite lookup_insert_ne in H2 by done. simplify_eq. split; [|done].
    apply (proj1 Hf). intros [Hin|Hin]%elem_of_app; by eapply (parked_not_queued c Q thr1).
Qed.

Lemma on_way_locks s l p :
  on_way s → (l < length (cpus (sch s)))%nat → valid_priority p →
  lock_free (irq s) (ThreadListLock (PriorityList l p)).
Proof.
  intros (Hi & _ & Hev & _) Hl Hp. rewrite Hi. apply Hfree; [|done].
  by rewrite <- (ev_cpus _ _ Hev).
Qed.

(** ** Lowering and raising *)

(** Both assignments that follow a move between queues. *)
Lemma flag_test_lor f m : 0 <= f → m = 4 → has_flag (Z.lor f m) m = true.
Proof using Type.
  intros Hf ->. apply truthy_true. intros E. apply (f_equal (λ z, Z.testbit z 2)) in E.
  rewrite Z.land_spec, Z.lor_spec in E. simpl in E. by rewrite orb_true_r in E.
Qed.

Lemma raised_cleared f :
  has_flag (Z.land f (Z.lnot THREAD_FLAGS_PRIORITY_RAISED)) THREAD_FLAGS_PRIORITY_RAISED = false.
Proof using Type.
  apply truthy_false. rewrite <- Z.land_assoc. apply Z.land_0_r.
Qed.

Lemma lower_raised_ok s :
  on_way s → cur ≠ 0 → runs (lower_raised k cur) s (λ _ s', on_way s').
Proof.
  intros Hw Hc. pose proof Hw as (Hi & Ho & Hev & Q & Hsw).
  destruct (sw_current _ _ _ _ Hsw Hc) as (thr0 & Ht0 & Hok0).
  unfold lower_raised. apply runs_bind.
  eapply runs_mono; [by eapply on_way_set_thread|].
  intros ? s1 (Hw1 & _). clear s Hw Hi Ho Hev Q Hsw Ht0 Hok0. rename s1 into s, Hw1 into Hw. pose proof Hw as (Hi & Ho & Hev & Q & Hsw).
  destruct (sw_current _ _ _ _ Hsw Hc) as (thr & Ht & Hok).
  apply runs_bind. exists thr, s. split; [by apply get_thread_eq|].
  destruct (has_flag (flags thr) THREAD_FLAGS_PRIORITY_RAISED) eqn:Hfl; [|by exists (), s].
  destruct Hok as [Hm|(_ & _ & ? & _)]; [|congruence].
  pose proof (sw_inv _ _ _ _ Hsw) as Hinv.
  destruct (sw_thread _ _ _ _ Hsw _ _ Ht Hm) as (_ & _ & Hpos). specialize (Hpos Hfl).
  destruct (queued_split _ _ _ _ _ Hinv Ht Hm) as (Hk & Hp & _).
  assert (valid_priority (priority thr - 1)) as Hp1 by (unfold valid_priority in *; lia).
  destruct (requeue_lists s IRQL_DISPATCH Q cur thr k (priority thr - 1))
    as (l1 & l2 & h1 & d1 & h2 & d2 & HQ & Hrem & Happ & Hres & Hf); try done;
    [by rewrite Hi|by apply on_way_locks..|lia|].
  set (thr' := thr <| priority ::= λ p, p - 1 |>
    <| flags ::= λ f, Z.land f (Z.lnot THREAD_FLAGS_PRIORITY_RAISED) |>).
  destruct (switch_inv_requeue (sch s) Q cur thr thr' (priority thr - 1) l1 l2 h1 d1 h2 d2)
    as [Hev' Hsw']; try done; [simpl; by rewrite raised_cleared|by apply Hres|].
  eexists (), _. split; [|by eapply (on_way_step s)].
  unfold when, priorityList. rewrite !(proj2 (Z.leb_le _ _)) by apply Hp || apply Hp1.
  erewrite bind_Ret; [|exact Hrem]. simpl.
  erewrite bind_Ret; [|by eapply set_thread_eq]. simpl.
  erewrite bind_Ret; [|eapply set_thread_eq; simpl; apply lookup_insert_eq]. simpl.
  rewrite insert_insert_eq.
  erewrite bind_Ret; [|exact (Happ (<[cur := thr']> (threads (sch s))))]. done.
Qed.

(** One round of the boosting loop on a thread it boosts. *)
Lemma boost_round_ok s Q t thr p l1 l2 :
  on_way s → switch_inv (sch s) k cur Q → threads (sch s) !! t = Some thr →
  masterCPU thr = Some k → priority thr = p → valid_priority p → valid_priority (p + 1) →
  Q k p = l1 ++ snode thr :: l2 →
  runs (CoreH_ThreadListRemove (Some (PriorityList k p)) (snode thr);;
        CoreH_ThreadListAppend (priorityList k (p + 1)) (snode thr);;
        set_thread t (λ t, t <| flags ::= λ f, Z.lor f THREAD_FLAGS_PRIORITY_RAISED |>);;
        set_thread t (λ t, t <| priority ::= λ q, q + 1 |>)) s
    (λ _ s', on_way s' ∧ ∃ Q', switch_inv (sch s') k cur Q' ∧ Q' k p = l1 ++ l2).
Proof.
  intros Hw Hsw Ht Hm <- Hp Hp1 HQ. pose proof Hw as (Hi & Ho & Hev & _).
  pose proof (sw_inv _ _ _ _ Hsw) as Hinv.
  destruct (queued_split _ _ _ _ _ Hinv Ht Hm) as (Hk & _ & (m1 & m2 & HQ' & Hnot) & _).
  destruct (requeue_lists s IRQL_DISPATCH Q t thr k (priority thr + 1))
    as (m1' & m2' & h1 & d1 & h2 & d2 & HQ2 & Hrem & Happ & Hres & Hf); try done;
    [by rewrite Hi|by apply on_way_locks..|lia|].
  assert (m1' = l1 ∧ m2' = l2) as [-> ->].
  { destruct (si_rep _ _ Hinv k _ Hk Hp) as (d & _ & [Hnd _ _ _ _ _]).
    rewrite HQ2 in HQ. rewrite HQ2 in Hnd.
    by eapply NoDup_split_unique. }
  destruct (switch_inv_requeue (sch s) Q t thr (boosted thr) (priority thr + 1) l1 l2 h1 d1 h2 d2)
    as [Hev' Hsw']; try done; [unfold valid_priority in *; lia|by apply Hres|].
  eexists (), _. split; [|split; [by eapply (on_way_step s)|eexists; split; [done|]]].
  2: { unfold q_move. rewrite q_set_other by lia. by rewrite q_set_same. }
  unfold priorityList. rewrite (proj2 (Z.leb_le _ _)) by apply Hp1.
  erewrite bind_Ret; [|exact Hrem]. simpl.
  erewrite bind_Ret; [|exact (Happ (threads (sch s)))]. simpl.
  erewrite bind_Ret; [|by eapply set_thread_eq]. simpl.
  erewrite set_thread_eq by (simpl; apply lookup_insert_eq). simpl.
  by rewrite insert_insert_eq.
Qed.

Lemma starvation_loop_ok p :
  valid_priority p → valid_priority (p + 1) →
  ∀ fuel s Q l1 l2 i, on_way s → switch_inv (sch s) k cur Q → Q k p = l1 ++ l2 →
  (length l1 ≤ fuel)%nat →
  runs (starvation_loop fuel k p i (default 0 (last l1))) s (λ _ s', on_way s').
Proof.
  intros Hp Hp1. induction fuel as [|fuel IH]; intros s Q l1 l2 i Hw Hsw HQ Hf.
  { destruct l1; [|simpl in Hf; lia]. by exists (), s. }
  pose proof (sw_inv _ _ _ _ Hsw) as Hinv. destruct (sw_cpu _ _ _ _ Hsw) as (x & Hx & Hok & _).
  pose proof (lookup_lt_Some _ _ _ Hx) as Hk.
  destruct (si_rep _ _ Hinv k p Hk Hp) as (d & Hd & [Hnd Hnn _ _ _ Hseg]).
  destruct l1 as [|y l1 _] using rev_ind; [by exists (), s|].
  rewrite last_snoc. cbn [default starvation_loop].
  rewrite <- app_assoc in HQ. simpl in HQ. rewrite HQ in *.
  rewrite truthy_nz by set_solver. cbn [negb].
  apply runs_bind. exists d, s. split; [by apply get_list_eq|].
  destruct (negb (i <? dl_nNodes d / 4)); [by exists (), s|].
  destruct (si_node _ _ Hinv k p y) as (n & thr & Hn & Hn0 & Ht & Hm & Hpr & Hs);
    [rewrite HQ; set_solver|].
  rewrite length_app in Hf. simpl in Hf.
  assert (∀ s', on_way s' ∧ (∃ Q', switch_inv (sch s') k cur Q' ∧ ∃ l2', Q' k p = l1 ++ l2') →
    runs (starvation_loop fuel k p i (default 0 (last l1))) s' (λ _ s'', on_way s'')) as Hnext.
  { intros s' (Hw' & Q' & Hsw' & l2' & HQ'). eapply IH; [done..|lia]. }
  assert (runs (starvation_loop fuel k p i (default 0 (last l1))) s (λ _ s'', on_way s'')) as Hskip.
  { apply Hnext. split; [done|]. exists Q. split; [done|]. eauto. }
  apply runs_bind. exists n, s. split; [by apply load_eq|].
  apply runs_bind. eexists _, s. split; [apply load_eq; by eapply seg_mid|]. simpl.
  apply runs_bind. exists x, s. split; [unfold get_cpu; by rewrite Hx|].
  destruct (tn_data n =? idleThread x); [done|].
  apply runs_bind. exists thr, s. split; [by apply get_thread_eq|].
  destruct (sw_thread _ _ _ _ Hsw _ _ Ht Hm) as (Hnb & Hrun & _).
  destruct (bool_decide _) eqn:Hst; [done|]. apply bool_decide_eq_false in Hst.
  apply runs_bind. exists (), s. split.
  { apply assert_eq. apply bool_decide_eq_true. by destruct (status thr). }
  destruct (has_flag _ _) eqn:Hfl; [done|].
  destruct (boost_round_ok s Q (tn_data n) thr p l1 l2) as ([] & s' & Hrun' & Hw' & Q' & Hsw' & HQ');
    try done; [by rewrite Hs|].
  destruct (Hnext s') as ([] & s'' & Hrec & Hw''); [eauto 10|].
  exists (), s''. split; [|done]. rewrite <- Hrec. rewrite Hs in Hrun'.
  apply bind_Ret_inv in Hrun' as (? & ? & H1 & Hrun'). rewrite (bind_Ret _ _ _ _ _ H1).
  apply bind_Ret_inv in Hrun' as (? & ? & H2 & Hrun'). rewrite (bind_Ret _ _ _ _ _ H2).
  apply bind_Ret_inv in Hrun' as (? & ? & H3 & H4). rewrite (bind_Ret _ _ _ _ _ H3).
  by rewrite (bind_Ret _ _ _ _ _ H4).
Qed.

(** ** The per-processor bookkeeping *)

Lemma cpu_ok_profile x f : cpu_ok x → cpu_ok (x <| sched_profile_data ::= f |>).
Proof. by intros []. Qed.

Lemma set_profile_ok s f : on_way s → runs (set_profile k f) s (λ _ s', on_way s').
Proof.
  intros Hw. destruct (on_way_get_cpu s Hw) as (x & ? & _ & -> & Hx & Hok).
  eapply runs_mono; [eapply on_way_set_cpu; [done|done|by apply cpu_ok_profile|done]|].
  by intros ? ? [? _].
Qed.

Lemma get_plist_ok s p :
  on_way s → valid_priority p →
  runs (get_plist k p) s (λ l s', s' = s ∧ plpriority l = p).
Proof.
  intros Hw Hp. destruct (on_way_get_cpu s Hw) as (x & ? & Hrun & -> & Hx & Hok).
  destruct (co_lists _ Hok p Hp) as (l & Hl & Hlp).
  exists l, s. unfold get_plist. erewrite bind_Ret; [|done]. by rewrite Hl.
Qed.

(** The round-robin position of the processor. *)
Definition position (s : kst) : option Z := x ← cpus (sch s) !! k; currentPriorityList x.

Lemma set_plist_ok s p f :
  on_way s → valid_priority p → (∀ l, plpriority (f l) = plpriority l) →
  runs (set_plist k p f) s (λ _ s', on_way s' ∧ position s' = position s).
Proof.
  intros Hw Hp Hf. destruct (on_way_get_cpu s Hw) as (x & ? & Hrun & -> & Hx & Hok).
  destruct (co_lists _ Hok p Hp) as (l & Hl & Hlp). unfold set_plist.
  apply runs_bind. exists x, s. split; [done|].
  apply runs_bind. exists l, s. split; [by rewrite Hl|].
  eapply runs_mono; [eapply on_way_set_cpu; [done|done| |done]|].
  2: { intros ? s' (Hw' & Hx' & _). split; [done|]. unfold position. by rewrite Hx, Hx'. }
  destruct Hok as [Hls Hpos Hid]. split; simpl; try done.
  intros q Hq. destruct (decide (p = q)) as [->|].
  - exists (f l). by rewrite lookup_insert_eq, Hf.
  - rewrite lookup_insert_ne by done. by apply Hls.
Qed.

Lemma tick_ok s (Q : Z → kst → Prop) :
  Q (native_tick (sch s)) s → runs CoreS_GetNativeTimerTick s Q.
Proof. intros. by eexists _, s. Qed.

Lemma ThreadStarvationPrevention_ok s p :
  on_way s → valid_priority p → valid_priority (p + 1) →
  runs (ThreadStarvationPrevention k p) s (λ _ s', on_way s').
Proof.
  intros Hw Hp Hp1. unfold ThreadStarvationPrevention.
  apply runs_bind. eapply runs_mono; [by apply set_plist_ok|]. intros ? s1 (Hw1 & _).
  apply runs_bind. eapply runs_mono; [by apply get_plist_ok|]. intros l ? [-> _].
  destruct (_ <=? _).
  { apply runs_bind. eapply runs_mono; [by apply set_plist_ok|]. intros ? s2 (Hw2 & _).
    by exists false, s2. }
  apply runs_bind, tick_ok. pose proof Hw1 as (_ & _ & _ & Q & Hsw).
  pose proof (sw_inv _ _ _ _ Hsw) as Hinv. destruct (sw_cpu _ _ _ _ Hsw) as (x & Hx & _).
  pose proof (lookup_lt_Some _ _ _ Hx) as Hk.
  destruct (si_rep _ _ Hinv k p Hk Hp) as (d & Hd & [Hnd Hnn _ Htl _ Hseg]).
  apply runs_bind. exists d, s1. split; [by apply get_list_eq|].
  apply runs_bind. eexists _, s1. split; [done|]. rewrite Htl.
  apply runs_bind. eapply runs_mono.
  { eapply (starvation_loop_ok p Hp Hp1 _ s1 Q (Q k p) []); [done|done|by rewrite app_nil_r|].
    pose proof (seg_size _ _ _ _ Hseg Hnd). lia. }
  intros ? s2 Hw2. apply runs_bind, tick_ok.
  apply runs_bind. eapply runs_mono; [by apply set_profile_ok|]. intros ? s3 Hw3.
  apply runs_bind. eapply runs_mono; [by apply set_profile_ok|]. intros ? s4 Hw4.
  apply runs_bind. eapply runs_mono; [by apply set_profile_ok|]. intros ? s5 Hw5.
  by exists true, s5.
Qed.

Lemma balance_loop_ok n : ∀ s p, on_way s → 0 <= p → p + Z.of_nat n <= 5 →
  runs (balance_loop n k p) s (λ _ s', on_way s').
Proof.
  induction n as [|n IH]; intros s p Hw Hp0 Hpn; [by exists (), s|]. cbn [balance_loop].
  assert (valid_priority p) as Hp by (unfold valid_priority, THREAD_PRIORITY_MAX_VALUE; lia).
  apply runs_bind. eapply (runs_mono _ _ (λ _ s', on_way s')).
  { unfold when, THREAD_PRIORITY_MAX_VALUE. destruct (Z.ltb_spec p 4); [|by exists (), s].
    apply runs_bind. eapply runs_mono; [apply ThreadStarvationPrevention_ok; try done|].
    - unfold valid_priority, THREAD_PRIORITY_MAX_VALUE. lia.
    - intros ? s' ?. by exists (), s'. }
  intros ? s1 Hw1. apply runs_bind. exists (), s1. split.
  { unfold WorkStealing, priorityList. rewrite (proj2 (Z.leb_le _ _)) by apply Hp. done. }
  apply IH; [done|lia..].
Qed.

(** ** Choosing *)

(** The first thread of a queue that is not running. *)
Definition waiting (c : sched_st) (x : Z) : bool :=
  match n ← tnodes c !! x; threads c !! tn_data n with
  | Some thr => negb (bool_decide (status thr = THREAD_STATUS_RUNNING))
  | None => false
  end.
Definition first_waiting (c : sched_st) (xs : list Z) : option Z :=
  head (filter (λ x, waiting c x = true) xs).

(** The policy: the highest priority from [p] down that has a waiting thread,
    its first waiting thread; the idle thread when there is none. *)
Fixpoint pick_from (c : sched_st) (Q : queues) (idle : Z) (p : nat) : Z :=
  match first_waiting c (Q k (Z.of_nat p)) with
  | Some x => default 0 (tn_data <$> tnodes c !! x)
  | None => match p with O => idle | S p => pick_from c Q idle p end
  end.

Lemma skip_running_ok s Q p xs q :
  switch_inv (sch s) k cur Q → seg (tlinks (sch s)) q xs 0 → 0 ∉ xs →
  (∀ x, x ∈ xs → x ∈ Q k p) →
  ∀ fuel, (length xs ≤ fuel)%nat →
  skip_running fuel (default 0 (head xs)) s = Ret (default 0 (first_waiting (sch s) xs)) s.
Proof.
  intros Hsw. revert q. induction xs as [|x xs IH]; intros q Hseg Hnn HQ fuel Hf;
    [by destruct fuel|].
  destruct Hseg as [Hlk Hseg].
  destruct (si_node _ _ (sw_inv _ _ _ _ Hsw) k p x) as (n & thr & Hn & Hn0 & Ht & _);
    [apply HQ; set_solver|].
  assert (waiting (sch s) x = negb (bool_decide (status thr = THREAD_STATUS_RUNNING))) as Hwt.
  { unfold waiting. rewrite Hn. simpl. by rewrite Ht. }
  destruct fuel as [|fuel]; [simpl in Hf; lia|]. cbn [skip_running head default].
  rewrite truthy_nz by set_solver. cbn [negb].
  erewrite bind_Ret; [|by apply load_eq]. erewrite bind_Ret; [|by apply get_thread_eq].
  unfold first_waiting. rewrite filter_cons, Hwt.
  destruct (bool_decide _); simpl; [|done].
  erewrite bind_Ret; [|by apply load_eq]. simpl. eapply IH; [done|set_solver|set_solver|simpl in Hf; lia].
Qed.

Lemma find_list_ok s Q x p :
  on_way s → switch_inv (sch s) k cur Q → cpus (sch s) !! k = Some x →
  (p ≤ 4)%nat → ∀ fuel, (p < fuel)%nat →
  find_list fuel k (Z.of_nat p) s = Ret (pick_from (sch s) Q (idleThread x) p) s.
Proof.
  intros Hw Hsw Hx. pose proof (sw_inv _ _ _ _ Hsw) as Hinv.
  pose proof (lookup_lt_Some _ _ _ Hx) as Hk.
  induction p as [p IH] using lt_wf_ind. intros Hp4 fuel Hf. destruct fuel as [|fuel]; [lia|].
  assert (valid_priority (Z.of_nat p)) as Hp by (unfold valid_priority, THREAD_PRIORITY_MAX_VALUE; lia).
  cbn [find_list].
  erewrite bind_Ret; [|apply assert_eq, Z.leb_le, Hp].
  destruct (get_plist_ok s (Z.of_nat p) Hw Hp) as (l & ? & Hl & -> & Hlp).
  erewrite bind_Ret; [|done].
  destruct (si_rep _ _ Hinv k _ Hk Hp) as (d & Hd & [Hnd Hnn Hhd _ _ Hseg]).
  erewrite bind_Ret; [|by apply get_list_eq]. kstep.
  erewrite (bind_Ret (if truthy (dl_head d) then skip_running (size (tlinks (sch s)) + 1) (dl_head d) else mret nullptr)
    _ s (default 0 (first_waiting (sch s) (Q k (Z.of_nat p)))) s).
  2: { rewrite Hhd. destruct (truthy _) eqn:E.
    - eapply skip_running_ok; [done..|by intros|]. pose proof (seg_size _ _ _ _ Hseg Hnd). lia.
    - apply truthy_false in E. destruct (Q k (Z.of_nat p)) as [|y ys]; [done|]. simpl in E. set_solver. }
  assert (∀ y, first_waiting (sch s) (Q k (Z.of_nat p)) = Some y → y ∈ Q k (Z.of_nat p)) as Hin.
  { intros y Hy%head_Some_elem. by apply list_elem_of_filter in Hy as [_ Hy]. }
  destruct p as [|p]; cbn [pick_from];
    destruct (first_waiting (sch s) _) as [y|] eqn:E; cbn [default].
  all: try (destruct (si_node _ _ Hinv k _ y (Hin y eq_refl)) as (n & thr & Hn & _);
    rewrite truthy_nz by (specialize (Hin y eq_refl); set_solver);
    erewrite bind_Ret; [|by apply load_eq]; by rewrite Hn).
  all: change (truthy nullptr) with false; cbn [andb]; rewrite Hlp.
  - rewrite (proj2 (Z.ltb_lt _ _)) by lia. unfold choose_idle, get_cpu. unfold mbind, K_bind. rewrite Hx. simpl.
    destruct (sw_cpu _ _ _ _ Hsw) as (x' & Hx' & Hok & _). simplify_eq.
    by rewrite truthy_nz by apply Hok.
  - rewrite (proj2 (Z.ltb_ge _ _)) by lia.
    replace (Z.of_nat (S p) - 1) with (Z.of_nat p) by lia. apply IH; lia.
Qed.

(** The outcome of the choice: the successor of the current thread in its
    queue, or the pick of the policy from some priority on. *)
Definition selected (c : sched_st) (Q : queues) (t : Z) : Prop :=
  (∃ thr l1 y l2, threads c !! cur = Some thr ∧ masterCPU thr = Some k ∧
     Q k (priority thr) = l1 ++ snode thr :: y :: l2 ∧ tn_data <$> tnodes c !! y = Some t) ∨
  (∃ x p, (p ≤ 4)%nat ∧ cpus c !! k = Some x ∧ t = pick_from c Q (idleThread x) p).

(** Whoever is selected waits in a queue of this processor. *)
Lemma selected_queued c Q t :
  switch_inv c k cur Q → selected c Q t →
  t ≠ 0 ∧ ∃ thr, threads c !! t = Some thr ∧ masterCPU thr = Some k.
Proof using Type.
  clear Hquiet Hfree.
  intros Hsw. pose proof (sw_inv _ _ _ _ Hsw) as Hinv.
  assert (∀ p y, y ∈ Q k p → ∃ n, tnodes c !! y = Some n ∧ tn_data n ≠ 0 ∧
    ∃ thr, threads c !! tn_data n = Some thr ∧ masterCPU thr = Some k) as Hq.
  { intros p y Hy. destruct (si_node _ _ Hinv _ _ _ Hy) as (n & thr & ? & ? & ? & ? & ?). eauto 10. }
  intros [(thr & l1 & y & l2 & _ & _ & HQ & Hy)|(x & p & Hp & Hx & ->)].
  - destruct (Hq (priority thr) y) as (n & Hn & ? & ?); [rewrite HQ; set_solver|].
    rewrite Hn in Hy. by injection Hy as <-.
  - clear Hp. induction p as [|p IH]; simpl;
      destruct (first_waiting c _) as [y|] eqn:E; try done.
    all: try (apply head_Some_elem, list_elem_of_filter in E as [_ E];
      destruct (Hq _ _ E) as (n & Hn & ? & ?); by rewrite Hn).
    destruct (sw_cpu _ _ _ _ Hsw) as (x' & Hx' & Hok & Hidle). simplify_eq.
    split; [by apply Hok|done].
Qed.

Lemma pick_new_ok s :
  on_way s → runs (pick_new k) s (λ t s', on_way s' ∧ ∃ Q', switch_inv (sch s') k cur Q' ∧
    selected (sch s') Q' t).
Proof.
  intros Hw. unfold pick_new.
  apply runs_bind. eapply runs_mono; [by apply on_way_get_cpu|]. intros x ? (-> & Hx & Hok).
  apply runs_bind. eapply (runs_mono _ _ (λ _ s', on_way s' ∧ is_Some (position s'))).
  { unfold position. destruct (currentPriorityList x) as [p|] eqn:E; simpl.
    { exists (), s. rewrite Hx. simpl. rewrite E. eauto 10. }
    eapply runs_mono; [eapply on_way_set_cpu; [done|done| |done]|].
    - destruct Hok. split; try done. intros q [= <-]. done.
    - intros ? ? (? & Hx' & _). split; [done|]. rewrite Hx'. by eexists. }
  intros ? s1 (Hw1 & p & Hpos1). unfold position in Hpos1.
  apply runs_bind. eapply runs_mono; [by apply on_way_get_cpu|]. intros x1 ? (-> & Hx1 & Hok1).
  rewrite Hx1 in Hpos1. simpl in Hpos1.
  apply runs_bind. exists p, s1. split; [by rewrite Hpos1|].
  assert (valid_priority p) as Hp by (by eapply co_position).
  apply runs_bind. eapply runs_mono; [by apply set_plist_ok|]. intros ? s2 (Hw2 & Hpos2).
  apply runs_bind. eapply runs_mono; [by apply get_plist_ok|]. intros l ? [-> Hl].
  apply runs_bind. eapply (runs_mono _ _ (λ _ s', on_way s' ∧ is_Some (position s'))).
  { unfold when. destruct (_ <=? _).
    2: { exists (), s2. split; [done|]. split; [done|]. rewrite Hpos2. unfold position. rewrite Hx1. by exists p. }
    apply runs_bind. eapply runs_mono; [by apply set_plist_ok|]. intros ? s3 (Hw3 & _).
    destruct (on_way_get_cpu s3 Hw3) as (x3 & ? & _ & -> & Hx3 & Hok3).
    eapply runs_mono; [eapply on_way_set_cpu; [done|done| |done]|].
    - destruct Hok3. split; try done. intros q [= <-].
      unfold valid_priority, THREAD_PRIORITY_MAX_VALUE in *.
      destruct (Z.ltb_spec (plpriority l - 1) 0); lia.
    - intros ? ? (? & Hx' & _). split; [done|]. unfold position. rewrite Hx'. by eexists. }
  intros ? s4 (Hw4 & p4 & Hpos4). unfold position in Hpos4.
  apply runs_bind. eapply runs_mono; [by apply on_way_get_cpu|]. intros x4 ? (-> & Hx4 & Hok4).
  rewrite Hx4 in Hpos4. simpl in Hpos4.
  apply runs_bind. exists p4, s4. split; [by rewrite Hpos4|].
  assert (valid_priority p4) as Hp4 by (by eapply co_position).
  unfold valid_priority, THREAD_PRIORITY_MAX_VALUE in Hp4.
  pose proof Hw4 as (_ & _ & _ & Q & Hsw).
  replace p4 with (Z.of_nat (Z.to_nat p4)) by lia.
  eexists _, s4. split; [eapply find_list_ok; try done; lia|].
  split; [done|]. exists Q. split; [done|]. right. exists x4, (Z.to_nat p4). split; [lia|done].
Qed.

Lemma choose_thread_ok s :
  on_way s → runs (choose_thread k cur) s (λ t s', on_way s' ∧ ∃ Q', switch_inv (sch s') k cur Q' ∧
    selected (sch s') Q' t).
Proof.
  intros Hw. unfold choose_thread. destruct (truthy cur) eqn:Ecur; cbn [negb]; [|by apply pick_new_ok].
  apply truthy_true in Ecur. pose proof Hw as (_ & _ & _ & Q & Hsw).
  pose proof (sw_inv _ _ _ _ Hsw) as Hinv.
  destruct (sw_current _ _ _ _ Hsw Ecur) as (thr & Ht & Hok).
  apply runs_bind. exists thr, s. split; [by apply get_thread_eq|].
  destruct Hok as [Hm|(_ & _ & _ & Hlk & _)].
  - destruct (queued_split _ _ _ _ _ Hinv Ht Hm) as (Hk & Hp & (l1 & l2 & HQ & _) & _).
    destruct (si_rep _ _ Hinv k _ Hk Hp) as (d & _ & [_ Hnn _ _ _ Hseg]). rewrite HQ in Hseg, Hnn.
    apply runs_bind. eexists _, s. split; [apply load_eq; by eapply seg_mid|]. simpl.
    destruct l2 as [|y l2]; simpl.
    { apply runs_bind. exists 0, s. split; [done|]. by apply pick_new_ok. }
    destruct (si_node _ _ Hinv k (priority thr) y) as (n & thr' & Hn & Hn0 & _); [rewrite HQ; set_solver|].
    apply runs_bind. exists (tn_data n), s. split.
    { rewrite truthy_nz by set_solver. erewrite bind_Ret; [|by apply load_eq]. done. }
    rewrite (truthy_nz _ Hn0). exists (tn_data n), s. split; [done|]. split; [done|].
    exists Q. split; [done|]. left. exists thr, l1, y, l2. rewrite Hn. done.
  - apply runs_bind. eexists _, s. split; [by apply load_eq|]. simpl.
    apply runs_bind. exists 0, s. split; [done|]. by apply pick_new_ok.
Qed.

(** ** Committing *)

(** The record of the thread that gets the processor. *)
Definition dispatched (thr : thread) : thread :=
  thr <| status := THREAD_STATUS_RUNNING |> <| masterCPU := Some k |> <| quantum := 0 |>.
Definition preempted (thr : thread) : thread := thr <| status := THREAD_STATUS_READY |>.

(** The threads after the switch from [cur] to [t]. *)
Definition switched (T : gmap Z thread) (t : Z) (thr : thread) : gmap Z thread :=
  let T1 := <[t := dispatched thr]> T in
  match T1 !! cur with
  | Some c => if truthy cur && queued c then <[cur := preempted c]> T1 else T1
  | None => T1
  end.

(** The same, thread by thread. *)
Definition switch_one (t t' : Z) (thr : thread) : thread :=
  let a := if decide (t' = t) then dispatched thr else thr in
  if decide (t' = cur) then if truthy cur && queued a then preempted a else a else a.

Lemma switched_lookup T t thr t' :
  T !! t = Some thr → switched T t thr !! t' = switch_one t t' <$> T !! t'.
Proof using Type.
  clear Hquiet Hfree.
  intros Ht. unfold switched, switch_one. destruct (decide (t = cur)) as [->|Hne].
  - rewrite lookup_insert_eq. destruct (decide (t' = cur)) as [->|Hc].
    + destruct (_ && _) eqn:E; rewrite lookup_insert_eq, Ht; simpl; [by rewrite E|by rewrite E].
    + destruct (_ && _); rewrite ?lookup_insert_ne by done; by destruct (T !! t').
  - rewrite lookup_insert_ne by done. destruct (decide (t' = t)) as [->|Hc].
    + rewrite Ht. simpl. rewrite decide_False by done.
      destruct (T !! cur); simpl; [destruct (_ && _)|]; rewrite ?lookup_insert_ne by done; by rewrite lookup_insert_eq.
    + destruct (decide (t' = cur)) as [->|].
      * destruct (T !! cur) eqn:E; simpl; [|by rewrite lookup_insert_ne].
        destruct (_ && _); [by rewrite lookup_insert_eq|by rewrite lookup_insert_ne].
      * destruct (T !! cur); simpl; [destruct (_ && _)|]; rewrite ?lookup_insert_ne by done; by destruct (T !! t').
Qed.

Lemma switch_one_keeps t t' thr :
  (t' = t → masterCPU thr = Some k) →
  requeued thr (switch_one t t' thr) (priority thr) ∧
  affinity (switch_one t t' thr) = affinity thr ∧ proc (switch_one t t' thr) = proc thr ∧
  flags (switch_one t t' thr) = flags thr.
Proof using Type.
  clear Hquiet Hfree.
  intros H. unfold switch_one. repeat case_decide; try destruct (_ && _); simpl; try done.
  all: split; [split; simpl; [symmetry; by apply H|done|done]|done].
Qed.

(** [sched_inv] under a change of every thread that keeps its place. *)
Lemma sched_inv_pointwise c Q T f :
  sched_inv c Q → (∀ t, T !! t = f t <$> threads c !! t) →
  (∀ t thr, threads c !! t = Some thr → requeued thr (f t thr) (priority thr)) →
  sched_inv (c <| threads := T |>) Q.
Proof using Type.
  clear Hquiet Hfree.
  intros [Hrep Hdom Hnode Hthr Hcnt Hroom] HT Hf. split; simpl; try done.
  - intros k' p x Hx. destruct (Hnode _ _ _ Hx) as (n & thr & Hn & Hd & Ht & Hm & Hp & Hs).
    destruct (Hf _ _ Ht) as [Em Es Ep].
    exists n, (f (tn_data n) thr). rewrite HT, Ht. repeat split; try done; congruence.
  - intros t thr' k'. rewrite HT. destruct (threads c !! t) as [thr|] eqn:Ht; [|done].
    intros [= <-]. destruct (Hf _ _ Ht) as [Em Es Ep]. rewrite Em, Es, Ep. by apply Hthr.
  - rewrite Hcnt. f_equal. unfold ready_count. f_equal. rewrite <- !size_dom. f_equal.
    apply set_eq. intros t. rewrite !elem_of_dom. unfold is_Some.
    setoid_rewrite map_lookup_filter_Some. rewrite HT.
    destruct (threads c !! t) as [thr|] eqn:Ht; simpl; [|naive_solver].
    destruct (Hf _ _ Ht) as [Em _ _].
    assert (queued (f t thr) = queued thr) as Hqd by (unfold queued; by rewrite Em).
    split; intros (? & [= <-] & Hq); eexists; (split; [done|]); congruence.
Qed.

Lemma switch_inv_commit c Q t thr :
  switch_inv c k cur Q → threads c !! t = Some thr → masterCPU thr = Some k →
  switch_inv (c <| threads := switched (threads c) t thr |>) k t Q.
Proof using Type.
  clear Hquiet Hfree.
  intros Hsw Ht Hm. pose proof Hsw as [Hinv (x & Hx & Hok & thr0 & Hidle & Hm0) Hth Hal Hpr Hcur].
  assert (∀ t', switched (threads c) t thr !! t' = switch_one t t' <$> threads c !! t') as HT
    by (intros; by apply switched_lookup).
  assert (∀ t' thr', threads c !! t' = Some thr' → t' = t → masterCPU thr' = Some k) as Hmt
    by (intros ? ? ? ->; by simplify_eq).
  split; simpl.
  - apply (sched_inv_pointwise _ _ _ _ Hinv HT). intros t' thr' Ht'. apply switch_one_keeps. by apply Hmt.
  - exists x. split; [done|]. split; [done|]. rewrite HT, Hidle. eexists. split; [reflexivity|].
    destruct (switch_one_keeps t (idleThread x) thr0) as [[-> _ _] _]; [by apply Hmt|done].
  - intros t' thr'. rewrite HT. destruct (threads c !! t') as [thr1|] eqn:Ht1; [|done].
    intros [= <-]. destruct (switch_one_keeps t t' thr1) as ([Em Es Ep] & _ & _ & Efl); [by apply Hmt|].
    intros Hm1. rewrite Em in Hm1. destruct (Hth _ _ Ht1 Hm1) as (Hb & Hr & Hfl).
    rewrite Efl, Ep. split; [|split; [|done]]; unfold switch_one, queued, preempted, dispatched.
    + repeat case_decide; simpl; try destruct (_ && _); done.
    + assert (t' ≠ 0) by (by destruct (queued_split _ _ _ _ _ Hinv Ht1 Hm1) as (_ & _ & _ & ? & _)).
      repeat case_decide; simpl; subst; try done; try (rewrite truthy_nz by done); simpl; [|by intros ?%Hr].
      by rewrite Hm1.
  - intros t' thr'. rewrite HT. destruct (threads c !! t') as [thr1|] eqn:Ht1; [|done].
    intros [= <-]. destruct (switch_one_keeps t t' thr1) as ([Em Es Ep] & Ea & _); [by apply Hmt|].
    rewrite Em, Ea. intros Hm1. by apply (Hal _ _ Ht1 Hm1).
  - intros t' thr'. rewrite HT. destruct (threads c !! t') as [thr1|] eqn:Ht1; [|done].
    intros [= <-]. destruct (switch_one_keeps t t' thr1) as (_ & _ & -> & _); [by apply Hmt|]. by apply (Hpr t').
  - intros _. rewrite HT, Ht. eexists. split; [reflexivity|]. left.
    by destruct (switch_one_keeps t t thr) as [[-> _ _] _].
Qed.

Lemma commit_switch_ok s Q t :
  switch_inv (sch s) k cur Q → t ≠ 0 →
  (∃ thr, threads (sch s) !! t = Some thr ∧ masterCPU thr = Some k) →
  ∃ thr, threads (sch s) !! t = Some thr ∧
    commit_switch k cur t s =
      Ret () (mkK (irq s) ((sch s) <| threads := switched (threads (sch s)) t thr |>) (obj s)).
Proof using Type.
  clear Hquiet Hfree.
  intros Hsw Ht0 (thr & Ht & Hm). exists thr. split; [done|]. unfold commit_switch.
  rewrite (truthy_nz _ Ht0). kstep. erewrite bind_Ret; [|by apply get_thread_eq].
  destruct (sw_thread _ _ _ _ Hsw _ _ Ht Hm) as (Hb & Hr & _).
  erewrite bind_Ret.
  2: { unfold when. destruct (Z.eqb_spec t cur); simpl; [done|]. apply assert_eq.
       apply negb_true_iff, bool_decide_eq_false. naive_solver. }
  erewrite bind_Ret; [|by eapply set_thread_eq]. simpl.
  erewrite bind_Ret; [|eapply set_thread_eq; simpl; apply lookup_insert_eq]. simpl.
  erewrite bind_Ret; [|eapply set_thread_eq; simpl; apply lookup_insert_eq]. simpl.
  rewrite !insert_insert_eq. fold (dispatched thr).
  destruct (truthy cur) eqn:Ec; simpl.
  2: { unfold switched. rewrite Ec. simpl. by destruct (_ !! cur). }
  apply truthy_true in Ec. destruct (sw_current _ _ _ _ Hsw Ec) as (thrc & Htc & Hokc).
  assert (∃ a, <[t := dispatched thr]> (threads (sch s)) !! cur = Some a ∧
    affinity a = affinity thrc ∧ masterCPU a = masterCPU thrc ∧
    (masterCPU thrc = Some k → status a ≠ THREAD_STATUS_BLOCKED) ∧
    (masterCPU thrc = None → status a = THREAD_STATUS_BLOCKED)) as (a & Ha & Eaf & Em & Hs1 & Hs2).
  { destruct (decide (t = cur)) as [->|].
    - rewrite Ht in Htc. injection Htc as <-. exists (dispatched thr).
      rewrite lookup_insert_eq. simpl. by rewrite Hm.
    - exists thrc. rewrite lookup_insert_ne by done. split; [done|]. split; [done|]. split; [done|]. split.
      + intros Hmc. by apply (sw_thread _ _ _ _ Hsw _ _ Htc).
      + intros Hmc. destruct Hokc as [?|(_ & ? & _)]; [congruence|done]. }
  erewrite bind_Ret; [|by apply get_thread_eq]. unfold threadCanRunThread.
  destruct (sw_cpu _ _ _ _ Hsw) as (x & Hx & _).
  erewrite bind_Ret.
  2: { erewrite bind_Ret; [reflexivity|]. unfold get_cpu. simpl. by rewrite Hx. }
  unfold switched. rewrite Ha, (truthy_nz _ Ec). unfold queued. rewrite Em, Eaf.
  destruct Hokc as [Hmc|(Hmc & _)].
  - specialize (Hs1 Hmc). destruct (sw_allowed _ _ _ _ Hsw _ _ Htc Hmc) as (x' & Hx' & Hmask). simplify_eq.
    rewrite Hmask, Hmc, (bool_decide_eq_true_2 (_ ∨ _)) by (destruct (status a); naive_solver). simpl.
    by erewrite set_thread_eq.
  - rewrite (Hs2 Hmc), Hmc. rewrite bool_decide_eq_false_2 by naive_solver. done.
Qed.
End switch.

(** ** The scheduler as a whole *)

(** The saved level of every thread queued on [k] is one a thread can run at. *)
Definition ctx_ok (s : kst) (k : nat) : Prop :=
  ∀ t thr, threads (sch s) !! t = Some thr → masterCPU thr = Some k →
    ∃ v, ctx_irql (irq s) !! t = Some v ∧ (v = IRQL_PASSIVE ∨ v = IRQL_DISPATCH).

(** The processor [k] may enter its scheduler. *)
Record may_schedule (s : kst) (k : nat) (cur : Z) (Q : queues) : Prop := {
  ms_this : this_cpu (irq s) = Some k;
  ms_cur : currentThread (irq s) !! k = Some cur;
  ms_quiet : quiet (irq s) IRQL_DISPATCH;
  ms_free : sched_unlocked (irq s) (length (cpus (sch s)));
  ms_inv : switch_inv (sch s) k cur Q;
  ms_ctx : ctx_ok s k
}.

(** The interrupt state after the switch to [t], which resumes at level [v]. *)
Definition switched_irq (i : irq_st) (k : nat) (t v : Z) : irq_st :=
  set_level v (i <| currentThread ::= <[k := t]> |>).

Lemma switched_irq_current i k t v :
  this_cpu i = Some k → currentThread (switched_irq i k t v) !! k = Some t.
Proof.
  intros Hk. unfold switched_irq, set_level, set_var. simpl. rewrite Hk. simpl. apply lookup_insert_eq.
Qed.

Lemma switched_irq_quiet i k t v :
  quiet i IRQL_DISPATCH → this_cpu i = Some k → is_Some (currentThread i !! k) →
  v = IRQL_PASSIVE ∨ v = IRQL_DISPATCH → ctx_irql i !! t = Some v →
  quiet (switched_irq i k t v) v.
Proof.
  intros [[Hv Hc Hr H1 Ht] Hle Hd Hctx] Hk Hcur Hvv Hl.
  unfold switched_irq, set_level, set_var. simpl. rewrite Hk.
  assert (0 <= v <= 2 ∧ v ≠ 1) as [Hrange Hne]
    by (unfold IRQL_PASSIVE, IRQL_DISPATCH in *; lia).
  split; [split|..]; unfold irql_of, thread_of, no_dpcs in *; simpl; rewrite ?Hk; simpl.
  - apply lookup_insert_eq.
  - done.
  - lia.
  - done.
  - exists t. rewrite lookup_insert_eq. split; [done|]. eauto.
  - apply Hrange.
  - intros c [= <-]. by apply Hd.
  - intros t'. rewrite lookup_insert_eq. intros [= <-]. done.
Qed.

Lemma switch_context_eq {DH : DpcHandlers} s k t v w :
  this_cpu (irq s) = Some k → irql_of (irq s) = Some w → ctx_irql (irq s) !! t = Some v →
  CoreS_SwitchToThreadContext t s = Yielded (s <| irq ::= set_level v |>) (λ s', Ret () s').
Proof.
  intros Hk Hw Hv. unfold CoreS_SwitchToThreadContext.
  erewrite bind_Ret; [|by apply load_eq]. unfold irq_upd. kstep.
  erewrite bind_Ret; [|eapply write_irql_var_eq; exact Hw]. unfold yield_cpu. simpl.
  do 2 f_equal. apply (set_level_split v (irq s)).
Qed.

Lemma sched_unlocked_nthr i n k k' p :
  sched_unlocked i n → (k' < n)%nat → valid_priority p →
  lock_free (nthr_st i (SchedulerLock k)) (ThreadListLock (PriorityList k' p)).
Proof.
  intros Hu Hk Hp. unfold lock_free, nthr_st. simpl. rewrite lookup_insert_ne by done.
  by apply Hu.
Qed.

Section schedule.
Context {DH : DpcHandlers}.

Lemma CoreS_GetCPULocalPtr_eq s k :
  this_cpu (irq s) = Some k → CoreS_GetCPULocalPtr s = Ret k s.
Proof. intros H. unfold CoreS_GetCPULocalPtr. kstep. by rewrite H. Qed.

(** Entering: the statistics of the processor and of the current thread, and
    the end of a temporary boost. *)
Lemma schedule_enter_ok i s k cur x :
  quiet i IRQL_DISPATCH →
  (∀ k p, (k < length (cpus (sch s)))%nat → valid_priority p →
    lock_free i (ThreadListLock (PriorityList k p))) →
  ∀ s1, on_way i s k cur s1 →
  runs (when (truthy cur) (set_thread cur (λ t, t <| lastRunTick := schedulerTicks x |>));;
        when (truthy cur) (lower_raised k cur)) s1 (λ _ s2, on_way i s k cur s2).
Proof.
  intros Hq Hfl s1 Hw1. destruct (truthy cur) eqn:E; [|by exists (), s1].
  apply truthy_true in E. pose proof Hw1 as (_ & _ & _ & Q1 & Hsw1).
  destruct (sw_current _ _ _ _ Hsw1 E) as (thr & Ht & _).
  apply runs_bind. eapply runs_mono; [by eapply on_way_set_thread|].
  intros ? s2 (Hw2 & _). by apply lower_raised_ok.
Qed.

(** Leaving: the release of the lock, the new current thread, its context. *)
Lemma schedule_leave_ok i c o k t v thr start :
  quiet i IRQL_DISPATCH → lock_free i (SchedulerLock k) → this_cpu i = Some k →
  is_Some (currentThread i !! k) → ctx_irql i !! t = Some v →
  threads c !! t = Some thr → (proc thr ≠ 0 → is_Some (procs c !! proc thr)) →
  is_Some (cpus c !! k) →
  ∃ x', (Core_SpinlockRelease (SchedulerLock k) IRQL_DISPATCH;;
   set_current k t;;
   t' ← get_thread t;
   when (truthy (proc t')) (
     p ← load (λ s, procs (sch s)) (proc t');
     set_cpu k (λ x, x <| currentContext := ctx p |>));;
   stop_ ← CoreS_GetNativeTimerTick;
   set_profile k (λ q, q <| total := wrap64 (stop_ - start) |>);;
   set_profile k (λ q, q <| total2_iterations ::= λ n, wrap64 (n + 1) |>);;
   set_profile k (λ q, q <| total2 ::= λ n, wrap64 (n + total q) |>);;
   CoreS_SwitchToThreadContext t) (mkK (nthr_st i (SchedulerLock k)) c o) =
  Yielded (mkK (switched_irq i k t v) (c <| cpus ::= <[k := x']> |>) o) (λ s', Ret () s') ∧
  ∀ x, cpus c !! k = Some x → cpu_abs x' = cpu_abs x ∧ (cpu_ok x → cpu_ok x').
Proof.
  intros Hq Hl Hk [cur Hcur] Hv Ht Hp [x Hx].
  pose proof (lookup_lt_Some _ _ _ Hx) as Hlt.
  assert (∃ x1, cpu_abs x1 = cpu_abs x ∧ (cpu_ok x → cpu_ok x1) ∧ ∀ i' c' o',
    cpus c' = cpus c → procs c' = procs c → when (truthy (proc thr)) (
     p ← load (λ s, procs (sch s)) (proc thr);
     set_cpu k (λ x, x <| currentContext := ctx p |>)) (mkK i' c' o') =
    Ret () (mkK i' (c' <| cpus ::= <[k := x1]> |>) o')) as (x1 & Habs1 & Hok1 & Hctx).
  { destruct (truthy (proc thr)) eqn:E.
    - apply truthy_true in E. destruct (Hp E) as [p Hpr].
      exists (x <| currentContext := ctx p |>). split; [done|]. split; [by intros []|].
      intros i' c' o' Hc Hpp. unfold when. erewrite bind_Ret; [|apply load_eq; simpl; by rewrite Hpp].
      unfold set_cpu. simpl. by rewrite Hc, Hx.
    - exists x. split; [done|]. split; [done|]. intros i' c' o' Hc _. simpl.
      destruct c'; simpl in *; subst. by rewrite list_insert_id. }
  eexists. split.
  - erewrite bind_Ret; [|eapply (release_nthr _ i); done]. simpl.
    erewrite bind_Ret; [|apply store_eq; exact Hcur]. simpl.
    erewrite bind_Ret; [|by apply get_thread_eq].
    erewrite bind_Ret; [|by apply Hctx]. unfold CoreS_GetNativeTimerTick. kstep.
    unfold set_profile, set_cpu. simpl.
    do 3 (erewrite bind_Ret; [|simpl; rewrite list_lookup_insert_eq by (rewrite ?length_insert; done);
      reflexivity]; simpl; rewrite ?list_insert_insert_eq).
    erewrite switch_context_eq; [reflexivity|exact Hk|apply Hq|exact Hv].
  - intros y Hy. rewrite Hx in Hy. injection Hy as <-. split; [exact Habs1|].
    intros Hok. by destruct (Hok1 Hok).
Qed.

(** Replacing the processor's own record. *)
Lemma switch_inv_cpu c k cur Q x x' :
  switch_inv c k cur Q → cpus c !! k = Some x → cpu_abs x' = cpu_abs x → cpu_ok x' →
  switch_inv (c <| cpus ::= <[k := x']> |>) k cur Q.
Proof.
  intros Hsw Hx Habs Hok. pose proof (lookup_lt_Some _ _ _ Hx) as Hlt.
  destruct (sw_cpu _ _ _ _ Hsw) as (? & Hx0 & _ & thr & Ht & _).
  rewrite Hx in Hx0. injection Hx0 as <-.
  eapply (switch_inv_step c); simpl; try done.
  - split; try done; simpl; [by rewrite length_insert|]. intros j.
    destruct (decide (j = k)) as [->|]; [|by rewrite list_lookup_insert_ne].
    rewrite list_lookup_insert_eq, Hx by done. simpl. by f_equal.
  - eapply (sched_inv_fields c _ Q (idleThread x) thr thr); try done;
      [apply Hsw|simpl; by rewrite length_insert|simpl; by rewrite insert_id].
  - exists x'. by rewrite list_lookup_insert_eq.
  - intros t thr' Ht' Hm. by apply (sw_thread _ _ _ _ Hsw _ _ Ht').
  - intros ? ? _ E1 E2. rewrite E1 in E2. by injection E2 as ->.
Qed.

(** Scheduling the executing processor: the choice is made in a state where
    only queue places have changed, and the processor leaves for the chosen
    thread. *)
Lemma Core_Schedule_ok s k cur Q :
  may_schedule s k cur Q →
  ∃ c1 Q1 c2 t v thr,
    evolves (sch s) c1 ∧ switch_inv c1 k cur Q1 ∧ selected k cur c1 Q1 t ∧
    threads c1 !! t = Some thr ∧ ctx_irql (irq s) !! t = Some v ∧
    (v = IRQL_PASSIVE ∨ v = IRQL_DISPATCH) ∧
    Core_Schedule s =
      Yielded (mkK (switched_irq (irq s) k t v) c2 (obj s)) (λ s', Ret () s') ∧
    threads c2 = switched k cur (threads c1) t thr ∧ lists c2 = lists c1 ∧ tlinks c2 = tlinks c1 ∧
    switch_inv c2 k t Q1.
Proof.
  intros [Hthis Hcur Hq Hfree Hsw Hctx].
  set (i := irq s) in *.
  assert (∀ k p, (k < length (cpus (sch s)))%nat → valid_priority p →
    lock_free i (ThreadListLock (PriorityList k p))) as Hfl by apply Hfree.
  assert (on_way i s k cur s) as Hw.
  { split; [done|]. split; [done|]. split; [apply evolves_refl|eauto]. }
  unfold Core_Schedule.
  erewrite (bind_Ret CoreS_GetCPULocalPtr); [|by apply CoreS_GetCPULocalPtr_eq].
  destruct (on_way_get_cpu i s k cur Hq Hfl s Hw) as (x & ? & _ & -> & Hx & Hok).
  destruct (on_way_set_cpu i s k cur Hq Hfl s
    (λ x, x <| schedulerTicks ::= λ n, wrap64 (n + 1) |>) x Hw Hx)
    as ([] & s1 & Hs1 & Hw1 & Hx1 & _); [by destruct Hok|done|].
  erewrite bind_Ret; [|exact Hs1]. pose proof Hw1 as (Hi1 & _).
  erewrite bind_Ret; [|unfold get_current; apply load_eq; rewrite Hi1; exact Hcur].
  erewrite bind_Ret; [|unfold get_cpu; rewrite Hx1; reflexivity].
  destruct (schedule_enter_ok i s k cur (x <| schedulerTicks ::= λ n, wrap64 (n + 1) |>) Hq Hfl s1 Hw1)
    as ([] & s3 & Hs3 & Hw3). apply bind_Ret_inv in Hs3 as ([] & s2 & Hs2 & Hs3).
  erewrite bind_Ret; [|exact Hs2]. erewrite bind_Ret; [|exact Hs3].
  unfold CoreS_GetNativeTimerTick at 1. kstep. unfold Core_CpuCount. kstep.
  assert (runs (when (1 <? Z.of_nat (length (cpus (sch s3)))) (balance_loop 5 k THREAD_PRIORITY_IDLE)) s3
    (λ _ s', on_way i s k cur s')) as ([] & s4 & Hs4 & Hw4).
  { unfold when. destruct (_ <? _); [|by exists (), s3]. by apply balance_loop_ok. }
  erewrite bind_Ret; [|exact Hs4].
  pose proof Hw4 as (Hi4 & Ho4 & Hev4 & Q4 & Hsw4).
  destruct (sw_cpu _ _ _ _ Hsw4) as (x4 & Hx4 & _).
  assert (lock_free i (SchedulerLock k)) as Hlk.
  { apply (su_cpu _ _ Hfree). rewrite <- (ev_cpus _ _ Hev4). by eapply lookup_lt_Some. }
  erewrite bind_Ret; [|apply acquire_nthr; by rewrite Hi4].
  destruct (choose_thread_ok (nthr_st i (SchedulerLock k)) s k cur)
    with (s := mkK (nthr_st i (SchedulerLock k)) (sch s4) (obj s4))
    as (t & s5 & Hs5 & Hw5 & Q5 & Hsw5 & Hsel).
  { apply (quiet_locks i IRQL_DISPATCH _ Hq). }
  { intros k' p Hk' Hp. by eapply sched_unlocked_nthr. }
  { split; [done|]. split; [done|]. split; [done|eauto]. }
  erewrite bind_Ret; [|simpl; rewrite Hi4; exact Hs5].
  destruct (selected_queued _ _ _ _ _ Hsw5 Hsel) as (Ht0 & thr & Ht & Hm).
  destruct (commit_switch_ok k cur s5 Q5 t Hsw5 Ht0) as (thr' & Ht' & Hs6); [eauto|].
  rewrite Ht in Ht'. injection Ht' as <-.
  erewrite bind_Ret; [|exact Hs6].
  pose proof Hw5 as (Hi5 & Ho5 & Hev5 & _).
  pose proof (switch_inv_commit k cur _ _ _ _ Hsw5 Ht Hm) as Hsw6.
  destruct (sw_current _ _ _ _ Hsw6 Ht0) as (thr6 & Ht6 & _).
  destruct (sw_cpu _ _ _ _ Hsw6) as (x6 & Hx6 & Hok6 & _).
  assert (∃ v, ctx_irql i !! t = Some v ∧ (v = IRQL_PASSIVE ∨ v = IRQL_DISPATCH)) as (v & Hv & Hvv).
  { pose proof (ev_threads _ _ Hev5 t) as E. rewrite Ht in E.
    destruct (threads (sch s) !! t) as [thr0|] eqn:Et; [|done]. injection E as E _ _ _ _.
    eapply Hctx; [done|]. congruence. }
  destruct (schedule_leave_ok i ((sch s5) <| threads := switched k cur (threads (sch s5)) t thr |>) (obj s)
    k t v thr6 (native_tick (sch s3))) as (x7 & Hs7 & Hx7); try done; [by apply (sw_proc _ _ _ _ Hsw6 t)|].
  destruct (Hx7 _ Hx6) as [Habs7 Hok7].
  eexists (sch s5), Q5, _, t, v, thr. do 6 (split; [done|]).
  split; [rewrite Hi5, Ho5; exact Hs7|]. split; [done|]. split; [done|]. split; [done|].
  eapply switch_inv_cpu; [exact Hsw6|exact Hx6|exact Habs7|by apply Hok7].
Qed.

(** What the switch leaves of each thread. *)
Lemma switched_spec k cur T t thr t' thr' :
  T !! t = Some thr → masterCPU thr = Some k → switched k cur T t thr !! t' = Some thr' →
  ∃ thr0, T !! t' = Some thr0 ∧ masterCPU thr' = masterCPU thr0 ∧
    (t' ≠ t → t' ≠ cur → thr' = thr0) ∧
    (t' = t → quantum thr' = 0 ∧
       status thr' = (if decide (t = cur) then if truthy cur then THREAD_STATUS_READY
                      else THREAD_STATUS_RUNNING else THREAD_STATUS_RUNNING)).
Proof.
  intros Ht Hm. rewrite (switched_lookup _ _ _ _ _ _ Ht).
  destruct (T !! t') as [thr0|] eqn:Ht'; [|done]. intros [= <-]. exists thr0. split; [done|].
  assert (t' = t → masterCPU thr0 = Some k) as Hm0 by (intros ->; by simplify_eq).
  destruct (switch_one_keeps k cur t t' thr0 Hm0) as ([Em _ _] & _). split; [done|].
  unfold switch_one. split.
  - intros Hne Hnc. by rewrite !decide_False.
  - intros ->. rewrite (decide_True (P := t = t)) by done. unfold queued, dispatched. simpl.
    destruct (decide (t = cur)); [|done]. by destruct (truthy cur).
Qed.

(** [C9] Entering the scheduler always ends in a context switch, on every number of
    processors: the processor leaves for a thread of its own queues, which is
    then its current thread, has a fresh quantum and runs at its saved level;
    unless it was the current thread already it is marked running.  All
    scheduler invariants hold again for the new current thread (no assertion or
    loop of the code fails on the way), no thread changes processor, and only
    the two threads involved change status. *)
Theorem Core_Schedule_correct s k cur Q :
  may_schedule s k cur Q →
  ∃ s' t thr v Q',
    Core_Schedule s = Yielded s' (λ s'', Ret () s'') ∧
    currentThread (irq s') !! k = Some t ∧ threads (sch s') !! t = Some thr ∧
    masterCPU thr = Some k ∧ quantum thr = 0 ∧
    (t ≠ cur → status thr = THREAD_STATUS_RUNNING) ∧
    ctx_irql (irq s) !! t = Some v ∧ quiet (irq s') v ∧
    sched_unlocked (irq s') (length (cpus (sch s))) ∧
    switch_inv (sch s') k t Q' ∧
    (∀ t', masterCPU <$> threads (sch s') !! t' = masterCPU <$> threads (sch s) !! t') ∧
    (∀ t', t' ≠ t → t' ≠ cur →
       status <$> threads (sch s') !! t' = status <$> threads (sch s) !! t').
Proof.
  intros Hms. pose proof Hms as [Hthis Hcur Hq Hfree _ _].
  destruct (Core_Schedule_ok s k cur Q Hms)
    as (c1 & Q1 & c2 & t & v & thr & Hev & Hsw1 & Hsel & Ht & Hv & Hvv & Hrun & Hth2 & Hls2 & Htl2 & Hsw2).
  destruct (selected_queued _ _ _ _ _ Hsw1 Hsel) as (Ht0 & thr_ & Ht_ & Hm). simplify_eq.
  destruct (sw_current _ _ _ _ Hsw2 Ht0) as (thr' & Ht' & _).
  pose proof Ht' as Ht''. rewrite Hth2 in Ht''.
  destruct (switched_spec _ _ _ _ _ _ _ Ht Hm Ht'') as (? & ? & Em & _ & Hnew). simplify_eq.
  destruct (Hnew eq_refl) as [Hqu Hst].
  assert (∀ t', thread_abs <$> threads c1 !! t' = thread_abs <$> threads (sch s) !! t') as Habs by apply Hev.
  eexists _, t, thr', v, Q1. split; [exact Hrun|]. simpl.
  split; [by apply switched_irq_current|].
  split; [done|]. split; [congruence|]. split; [done|].
  split. { intros Hne. by rewrite decide_False in Hst. }
  split; [done|]. split; [by eapply switched_irq_quiet|].
  assert (locks (switched_irq (irq s) k t v) = locks (irq s)) as Hlocks.
  { unfold switched_irq. by rewrite set_level_locks. }
  split; [destruct Hfree; split; unfold lock_free in *; by rewrite Hlocks|]. split; [done|].
  assert (∀ t', masterCPU <$> threads c1 !! t' = masterCPU <$> threads (sch s) !! t') as Hmc.
  { intros t'. specialize (Habs t'). destruct (threads c1 !! t'), (threads (sch s) !! t'); simplify_eq/=; try done.
    unfold thread_abs in Habs. congruence. }
  split; intros t'; rewrite ?Hth2.
  - rewrite <- Hmc, (switched_lookup _ _ _ _ _ _ Ht). destruct (threads c1 !! t') as [thr1|] eqn:E; [|done]. simpl.
    f_equal. destruct (switch_one_keeps k cur t t' thr1) as ([-> _ _] & _); [intros ->; congruence|done].
  - intros Hne Hnc. rewrite (switched_lookup _ _ _ _ _ _ Ht). unfold switch_one.
    specialize (Habs t').
    destruct (threads c1 !! t'), (threads (sch s) !! t'); simplify_eq/=; try done.
    rewrite !decide_False by done. unfold thread_abs in Habs. congruence.
Qed.

(** When the scheduler selects the thread that is already current (it is alone
    on its processor), that thread continues to run but is left marked ready: the
    reset of the previous thread's status comes after the new thread's was set. *)
Theorem schedule_self_ready s k cur Q s' r thr :
  may_schedule s k cur Q → Core_Schedule s = Yielded s' r → cur ≠ 0 →
  currentThread (irq s') !! k = Some cur → threads (sch s') !! cur = Some thr →
  status thr = THREAD_STATUS_READY.
Proof.
  intros Hms Hrun Hc0 Hcur' Hthr. pose proof Hms as [Hthis Hcur Hq Hfree _ _].
  destruct (Core_Schedule_ok s k cur Q Hms)
    as (c1 & Q1 & c2 & t & v & thr1 & Hev & Hsw1 & Hsel & Ht & Hv & Hvv & Hrun' & Hth2 & Hls2 & Htl2 & Hsw2).
  destruct (selected_queued _ _ _ _ _ Hsw1 Hsel) as (Ht0 & thr_ & Ht_ & Hm). simplify_eq.
  rewrite Hrun in Hrun'. injection Hrun' as -> _. cbn [irq sch] in Hcur', Hthr.
  rewrite switched_irq_current in Hcur' by done. injection Hcur' as ->.
  rewrite Hth2 in Hthr. destruct (switched_spec _ _ _ _ _ _ _ Ht Hm Hthr) as (? & _ & _ & _ & Hnew).
  destruct (Hnew eq_refl) as [_ Hst]. rewrite decide_True, truthy_nz in Hst by done. done.
Qed.

(** ** Yielding *)

(** [Core_Yield] up to its test of the quantum. *)
Definition bump (thr : thread) : thread := thr <| quantum ::= λ q, wrap8 (q + 1) |>.

Lemma yield_enter s v k cur thr x :
  quiet (irq s) v → this_cpu (irq s) = Some k → currentThread (irq s) !! k = Some cur → cur ≠ 0 →
  threads (sch s) !! cur = Some thr → cpus (sch s) !! k = Some x →
  Core_Yield s =
    (let s1 := mkK (level_up (irq s)) ((sch s) <| threads ::= <[cur := bump thr]> |>) (obj s) in
     if (quantum (bump thr) <? Core_ThreadPriorityToQuantum (priority thr)) &&
        (bool_decide (status thr = THREAD_STATUS_RUNNING ∨ status thr = THREAD_STATUS_READY) &&
         truthy (Z.land (affinity thr) (CoreH_CPUIdToAffinity (id x))))
     then yield_restore v s1 else (Core_Schedule;; yield_restore v) s1).
Proof.
  intros Hq Hthis Hcur Hc0 Ht Hx. pose proof Hq as [Hwf Hle Hd Hctx]. unfold Core_Yield.
  pose proof (wf_range _ _ Hwf) as Hr.
  erewrite bind_Ret; [|eapply Core_GetIrql_eq; by destruct Hwf].
  rewrite (proj2 (Z.leb_le _ _)) by done.
  erewrite bind_Ret.
  2: { erewrite bind_Ret; [|eapply Core_RaiseIrql_eq; [done| |done]; unfold IRQL_DISPATCH in *; lia].
       erewrite bind_Ret; [|apply assert_eq; by rewrite irql_nibble]. reflexivity. }
  fold (level_up (irq s)).
  change (set_ctx IRQL_DISPATCH (set_level IRQL_DISPATCH (irq s))) with (level_up (irq s)).
  pose proof (level_up_current (irq s)) as Hct.
  erewrite bind_Ret; [|apply CoreS_GetCPULocalPtr_eq; etrans; [apply level_up_this|exact Hthis]].
  erewrite bind_Ret; [|unfold get_current; apply load_eq; etrans; [exact (f_equal (λ m, m !! k) Hct)|exact Hcur]].
  rewrite (truthy_nz _ Hc0).
  erewrite bind_Ret; [|by apply get_thread_eq]. unfold threadCanRunThread.
  erewrite bind_Ret.
  2: { erewrite bind_Ret; [reflexivity|]. unfold get_cpu. simpl. by rewrite Hx. }
  erewrite bind_Ret; [|by eapply set_thread_eq].
  erewrite bind_Ret; [|apply get_thread_eq; simpl; apply lookup_insert_eq].
  cbv zeta. simpl. fold (bump thr). by destruct (_ && _).
Qed.

Lemma yield_restore_ok s v :
  irq_wf (irq s) IRQL_DISPATCH → no_dpcs (irq s) → 0 <= v <= IRQL_DISPATCH → v ≠ 1 →
  yield_restore v s = Ret () (s <| irq ::= λ i, set_ctx v (set_level v i) |>).
Proof.
  intros Hwf Hd Hv H1. unfold yield_restore, IRQL_DISPATCH in *.
  rewrite (proj2 (Z.eqb_neq v IRQL_INVALID)) by (unfold IRQL_INVALID; lia).
  rewrite when_true by done. erewrite bind_Ret; [|apply assert_eq; rewrite irql_nibble by lia; done].
  by eapply Core_LowerIrql_eq.
Qed.

(** A thread that yields before its quantum is used up keeps the processor: the
    call returns with nothing changed but its quantum counter, the level included. *)
Theorem yield_within_quantum s v k cur thr x :
  quiet (irq s) v → this_cpu (irq s) = Some k → currentThread (irq s) !! k = Some cur → cur ≠ 0 →
  threads (sch s) !! cur = Some thr → cpus (sch s) !! k = Some x →
  status thr ≠ THREAD_STATUS_BLOCKED →
  truthy (Z.land (affinity thr) (CoreH_CPUIdToAffinity (id x))) = true →
  0 <= quantum thr → quantum thr + 1 < Core_ThreadPriorityToQuantum (priority thr) →
  Core_Yield s = Ret () (s <| sch ::= λ c, c <| threads ::=
                     <[cur := thr <| quantum := quantum thr + 1 |>]> |> |>).
Proof.
  intros Hq Hthis Hcur Hc0 Ht Hx Hst Haff Hq0 Hquant.
  assert (Core_ThreadPriorityToQuantum (priority thr) <= 12) as Hmax
    by (unfold Core_ThreadPriorityToQuantum; repeat case_match; lia).
  rewrite (yield_enter s v k cur thr x) by done. cbv zeta. unfold bump. simpl.
  rewrite wrap_small by (unfold in_u; lia).
  rewrite (proj2 (Z.ltb_lt _ _)), Haff, bool_decide_eq_true_2 by (try done; destruct (status thr); naive_solver).
  simpl. pose proof (level_up_quiet _ _ Hq) as [Hwf _ Hd _].
  rewrite yield_restore_ok; try done; simpl.
  - rewrite level_up_down by done. by destruct s.
  - destruct Hq as [[] ?]. lia.
  - by destruct Hq as [[] ?].
Qed.

(** The general form of a yield that switches. *)
Lemma yield_switches_ok s v k cur thr x Q :
  quiet (irq s) v → this_cpu (irq s) = Some k → currentThread (irq s) !! k = Some cur → cur ≠ 0 →
  threads (sch s) !! cur = Some thr → cpus (sch s) !! k = Some x →
  sched_unlocked (irq s) (length (cpus (sch s))) → switch_inv (sch s) k cur Q → ctx_ok s k →
  status thr = THREAD_STATUS_BLOCKED ∨
    Core_ThreadPriorityToQuantum (priority thr) <= wrap8 (quantum thr + 1) →
  ∃ c1 Q1 s' r t thr1,
    evolves ((sch s) <| threads ::= <[cur := bump thr]> |>) c1 ∧
    threads c1 !! t = Some thr1 ∧ masterCPU thr1 = Some k ∧
    Core_Yield s = Yielded s' r ∧ currentThread (irq s') !! k = Some t ∧
    threads (sch s') = switched k cur (threads c1) t thr1 ∧
    lists (sch s') = lists c1 ∧ tlinks (sch s') = tlinks c1 ∧ obj s' = obj s ∧
    switch_inv (sch s') k t Q1 ∧
    ∀ s'', irq_wf (irq s'') IRQL_DISPATCH → no_dpcs (irq s'') →
      r s'' = Ret () (s'' <| irq ::= λ i, set_ctx v (set_level v i) |>).
Proof.
  intros Hq Hthis Hcur Hc0 Ht Hx Hfree Hsw Hctx Hcond.
  rewrite (yield_enter s v k cur thr x) by done. cbv zeta.
  set (s1 := mkK (level_up (irq s)) ((sch s) <| threads ::= <[cur := bump thr]> |>) (obj s)).
  assert (may_schedule s1 k cur Q) as Hms.
  { split; simpl.
    - by rewrite level_up_this.
    - by rewrite level_up_current.
    - by eapply level_up_quiet.
    - destruct Hfree; split; unfold lock_free in *; by rewrite level_up_locks.
    - eapply (switch_inv_step (sch s)); [done|by apply (evolves_thread (sch s) cur thr)|..]; simpl.
      + eapply (sched_inv_fields (sch s) _ Q cur thr (bump thr)); try done. apply Hsw.
      + destruct (sw_cpu _ _ _ _ Hsw) as (y & Hy & Hok & _). eauto.
      + intros t' thr' Ht' Hm. destruct (decide (cur = t')) as [<-|].
        * rewrite lookup_insert_eq in Ht'. injection Ht' as <-. by apply (sw_thread _ _ _ _ Hsw _ _ Ht).
        * rewrite lookup_insert_ne in Ht' by done. by apply (sw_thread _ _ _ _ Hsw _ _ Ht').
      + intros thr1 thr2 _ H1 H2 _. rewrite lookup_insert_eq in H2. by simplify_eq.
    - intros t' thr' Ht' Hm. simpl in *. unfold level_up.
      destruct (wf_thread _ _ (q_wf _ _ Hq)) as (t0 & Hto & _).
      assert (t0 = cur) as -> by (unfold thread_of in Hto; rewrite Hthis in Hto; congruence).
      destruct (decide (cur = t')) as [<-|].
      + exists IRQL_DISPATCH. split; [|by right]. apply set_ctx_lookup; [by rewrite set_level_thread|done].
      + rewrite lookup_insert_ne in Ht' by done. destruct (Hctx _ _ Ht' Hm) as (w & Hw & Hww). exists w.
        split; [|done]. rewrite (set_ctx_eq _ _ cur) by (by rewrite set_level_thread).
        rewrite truthy_nz by done. simpl. rewrite lookup_insert_ne by done.
        etrans; [exact (f_equal (λ m, m !! t') (set_level_ctx_irql IRQL_DISPATCH (irq s)))|exact Hw]. }
  assert ((quantum (bump thr) <? Core_ThreadPriorityToQuantum (priority thr)) &&
    (bool_decide (status thr = THREAD_STATUS_RUNNING ∨ status thr = THREAD_STATUS_READY) &&
     truthy (Z.land (affinity thr) (CoreH_CPUIdToAffinity (id x)))) = false) as ->.
  { destruct Hcond as [Hb|Hb].
    - rewrite (bool_decide_eq_false_2 (_ ∨ _)) by (rewrite Hb; naive_solver). by rewrite andb_false_r.
    - unfold bump. simpl. by rewrite (proj2 (Z.ltb_ge _ _)). }
  destruct (Core_Schedule_ok s1 k cur Q Hms)
    as (c1 & Q1 & c2 & t & w & thr1 & Hev & Hsw1 & Hsel & Ht1 & Hv1 & Hvv & Hrun & Hth2 & Hls2 & Htl2 & Hsw2).
  destruct (selected_queued _ _ _ _ _ Hsw1 Hsel) as (Ht0 & thr_ & Ht_ & Hm).
  rewrite Ht1 in Ht_. injection Ht_ as <-.
  erewrite bind_Yielded by exact Hrun. eexists c1, Q1, _, _, t, thr1.
  split; [exact Hev|]. split; [done|]. split; [done|]. split; [reflexivity|].
  split; [|split; [exact Hth2|split; [exact Hls2|split; [exact Htl2|split; [done|split; [done|]]]]]].
  - apply switched_irq_current. simpl. by rewrite level_up_this.
  - intros s'' Hwf'' Hd''. destruct Hq as [[_ _ Hr H1 _] Hle _ _].
    apply yield_restore_ok; [done|done|lia|done].
Qed.

(** A thread that yields when its quantum is used up, or after it was blocked,
    gives the processor away through the scheduler, and when it is resumed at
    [IRQL_DISPATCH] its call ends by restoring the level it yielded at. *)
Theorem yield_switches s v k cur thr x Q :
  quiet (irq s) v → this_cpu (irq s) = Some k → currentThread (irq s) !! k = Some cur → cur ≠ 0 →
  threads (sch s) !! cur = Some thr → cpus (sch s) !! k = Some x →
  sched_unlocked (irq s) (length (cpus (sch s))) → switch_inv (sch s) k cur Q → ctx_ok s k →
  status thr = THREAD_STATUS_BLOCKED ∨
    Core_ThreadPriorityToQuantum (priority thr) <= wrap8 (quantum thr + 1) →
  ∃ s' r t Q', Core_Yield s = Yielded s' r ∧
    currentThread (irq s') !! k = Some t ∧ switch_inv (sch s') k t Q' ∧
    ∀ s'', irq_wf (irq s'') IRQL_DISPATCH → no_dpcs (irq s'') →
      r s'' = Ret () (s'' <| irq ::= λ i, set_ctx v (set_level v i) |>).
Proof.
  intros Hq Hthis Hcur Hc0 Ht Hx Hfree Hsw Hctx Hcond.
  destruct (yield_switches_ok s v k cur thr x Q) as (c1 & Q1 & s' & r & t & thr1 & H); try done.
  exists s', r, t, Q1. destruct H as (_ & _ & _ & ? & ? & _ & _ & _ & _ & ? & ?). done.
Qed.
End schedule.
