(* ===== verification/SchedOps.v ===== *)
(** * The thread operations as a state machine

    The outcome of [CoreH_ThreadReadyNode], [CoreH_ThreadBlock] (of another
    thread than the executing one) and [CoreH_ThreadBoostPriority] on every
    branch, and the transition system they generate: in every reachable state
    the run-queue invariant holds, the locks are free and the interrupt state is
    the initial one. *)

From S2P Require Import Prelude DList KState Irql ThreadList Schedule Thread SchedInv SchedSwitch.

Section ops.
Context {DH : DpcHandlers}.

(** The states in which the operations are called. *)
Record ops_inv (s : kst) (Q : queues) : Prop := {
  oi_quiet : ∃ v, quiet (irq s) v;
  oi_free : sched_unlocked (irq s) (length (cpus (sch s)));
  oi_inv : sched_inv (sch s) Q
}.

Lemma ops_inv_next s s' Q Q' :
  ops_inv s Q → irq s' = irq s → cpus (sch s') = cpus (sch s) → sched_inv (sch s') Q' →
  ops_inv s' Q'.
Proof. intros [Hq Hf _] Hi Hc Hinv. split; rewrite ?Hi, ?Hc; done. Qed.

(** An unqueued thread may change as long as it stays unqueued. *)
Lemma sched_inv_unqueued c Q t thr thr' :
  sched_inv c Q → threads c !! t = Some thr → masterCPU thr = None → masterCPU thr' = None →
  sched_inv (c <| threads := <[t := thr']> (threads c) |>) Q.
Proof.
  intros [Hrep Hdom Hnode Hthr Hcnt Hroom] Ht Hm Hm'. split; simpl; try done.
  - intros k p x Hx. destruct (Hnode _ _ _ Hx) as (n & thr0 & ? & ? & Ht0 & Hm0 & ?).
    exists n, thr0. rewrite lookup_insert_ne; [done|]. intros ->. congruence.
  - intros t' thr0 k. destruct (decide (t = t')) as [->|].
    + rewrite lookup_insert_eq. intros [= <-]. congruence.
    + rewrite lookup_insert_ne by done. apply Hthr.
  - rewrite Hcnt, (ready_count_insert _ _ _ _ Ht). unfold queued. rewrite Hm, Hm'. f_equal. simpl. lia.
Qed.

(** ** Readying: the branches that change nothing *)

Lemma invalid_priority_test p :
  ¬ valid_priority p → (p <? 0) || (THREAD_PRIORITY_MAX_VALUE <? p) = true.
Proof.
  intros H. unfold valid_priority in H. apply orb_true_iff. rewrite !Z.ltb_lt. lia.
Qed.

(** The status readying returns without touching the state, if any. *)
Definition ready_refusal (c : sched_st) (thr : thread) : option obos_status :=
  if bool_decide (cpus c = []) then Some OBOS_STATUS_INVALID_INIT_PHASE
  else if negb (bool_decide (valid_priority (priority thr))) then Some OBOS_STATUS_INVALID_ARGUMENT
  else if queued thr then Some OBOS_STATUS_SUCCESS
  else if forallb (λ x, negb (has_flag (affinity thr) (CoreH_CPUIdToAffinity (id x)))) (cpus c)
       then Some OBOS_STATUS_INVALID_AFFINITY
  else None.

Lemma find_cpu_none l : ∀ i aff p s,
  forallb (λ x, negb (has_flag aff (CoreH_CPUIdToAffinity (id x)))) l = true →
  find_cpu l i aff p None s = Ret None s.
Proof.
  induction l as [|x l IH]; intros i aff p s H; [done|]. simpl in H.
  apply andb_prop in H as [H1 H2]. cbn [find_cpu]. unfold has_flag in H1. rewrite H1. by apply IH.
Qed.

Lemma find_allowed c aff :
  forallb (λ x, negb (has_flag aff (CoreH_CPUIdToAffinity (id x)))) (cpus c) = false →
  ∃ k, allowed c aff k.
Proof.
  intros H. unfold allowed. induction (cpus c) as [|x l IH]; [done|]. simpl in H.
  destruct (has_flag aff (CoreH_CPUIdToAffinity (id x))) eqn:E; simpl in H.
  - exists 0%nat, x. done.
  - destruct (IH H) as (k & y & ? & ?). exists (S k), y. done.
Qed.

Lemma ThreadReadyNode_refused s t thr node st :
  threads (sch s) !! t = Some thr → t ≠ 0 → node ≠ 0 → ready_refusal (sch s) thr = Some st →
  CoreH_ThreadReadyNode t node s = Ret st s.
Proof.
  intros Ht Ht0 Hn0 Href. unfold CoreH_ThreadReadyNode, ready_refusal, queued in *. kstep.
  destruct (cpus (sch s)) as [|x l] eqn:Ec; simpl in Href; [by simplify_eq|].
  rewrite (truthy_nz _ Ht0), (truthy_nz _ Hn0). cbn [negb orb].
  erewrite bind_Ret; [|by apply get_thread_eq].
  destruct (bool_decide (valid_priority (priority thr))) eqn:Ep; simpl in Href.
  2: { apply bool_decide_eq_false in Ep. rewrite (invalid_priority_test _ Ep). by simplify_eq. }
  apply bool_decide_eq_true in Ep. rewrite (valid_priority_test _ Ep).
  destruct (masterCPU thr) as [k|] eqn:Em; simpl in Href |- *; [by simplify_eq|].
  destruct (negb _ && _) eqn:Ea; simplify_eq.
  erewrite bind_Ret; [|apply (find_cpu_none (x :: l)); exact Ea]. done.
Qed.

(** ** Blocking another thread *)

Lemma ThreadBlock_other s v Q t thr k cur canYield :
  quiet (irq s) v → sched_unlocked (irq s) (length (cpus (sch s))) → sched_inv (sch s) Q →
  threads (sch s) !! t = Some thr → masterCPU thr = Some k →
  status thr ≠ THREAD_STATUS_BLOCKED →
  thread_of (irq s) = Some cur → t ≠ cur ∨ canYield = false →
  ∃ l1 l2 s', Q k (priority thr) = l1 ++ snode thr :: l2 ∧
    CoreH_ThreadBlock t canYield s = Ret OBOS_STATUS_SUCCESS s' ∧
    sched_inv (sch s') (q_set Q k (priority thr) (l1 ++ l2)) ∧
    threads (sch s') = <[t := blocked thr]> (threads (sch s)) ∧
    tlinks (sch s') !! snode thr = Some unlinked ∧
    tnodes (sch s') = tnodes (sch s) ∧ cpus (sch s') = cpus (sch s) ∧
    irq s' = irq s ∧ obj s' = obj s.
Proof.
  intros Hq Hul Hinv Ht Hm Hst Hcur Hno.
  destruct (thread_block_locked_ok s v Q t thr k Hq Hul Hinv Ht Hm)
    as (l1 & l2 & s' & HQ & Hrun & Hinv' & Hthr & Hlk & Htn & Hc & Hi & Ho).
  exists l1, l2, s'. split; [done|]. split; [|done].
  destruct (queued_split _ _ _ _ _ Hinv Ht Hm) as (_ & Hp & _ & Ht0 & _).
  unfold CoreH_ThreadBlock. rewrite (truthy_nz _ Ht0). cbn [negb].
  erewrite bind_Ret; [|by apply get_thread_eq]. rewrite Hm, (valid_priority_test _ Hp).
  rewrite bool_decide_eq_false_2 by done.
  erewrite bind_Ret; [|exact Hrun].
  erewrite bind_Ret; [|apply Core_GetCurrentThread_eq; by rewrite Hi].
  erewrite bind_Ret; [done|]. apply when_false.
  destruct Hno as [Hne| ->]; [by rewrite (proj2 (Z.eqb_neq _ _) Hne)|by rewrite andb_false_r].
Qed.

Lemma ThreadBlock_refused s t thr canYield :
  threads (sch s) !! t = Some thr → t ≠ 0 →
  masterCPU thr = None ∨ ¬ valid_priority (priority thr) →
  CoreH_ThreadBlock t canYield s = Ret OBOS_STATUS_INVALID_ARGUMENT s.
Proof.
  intros Ht Ht0 Hno. unfold CoreH_ThreadBlock. rewrite (truthy_nz _ Ht0). cbn [negb].
  erewrite bind_Ret; [|by apply get_thread_eq]. destruct (masterCPU thr) as [k|] eqn:Em; [|done].
  destruct Hno as [?|Hp]; [done|]. by rewrite (invalid_priority_test _ Hp).
Qed.

(** ** Boosting *)

(** The status boosting returns without touching the state, if any. *)
Definition boost_refusal (thr : thread) : option obos_status :=
  if negb (bool_decide (valid_priority (priority thr))) then Some OBOS_STATUS_INVALID_ARGUMENT
  else if has_flag (flags thr) THREAD_FLAGS_DIED then Some OBOS_STATUS_INVALID_ARGUMENT
  else if negb (queued thr) && negb (bool_decide (status thr = THREAD_STATUS_BLOCKED))
       then Some OBOS_STATUS_INVALID_ARGUMENT
  else if has_flag (flags thr) THREAD_FLAGS_PRIORITY_RAISED
          || (priority thr =? THREAD_PRIORITY_MAX_VALUE)
       then Some OBOS_STATUS_SUCCESS
  else None.

Lemma not_queued thr : bool_decide (masterCPU thr = None) = negb (queued thr).
Proof. unfold queued. destruct (masterCPU thr); done. Qed.

Lemma ThreadBoostPriority_refused s t thr st :
  threads (sch s) !! t = Some thr → t ≠ 0 → boost_refusal thr = Some st →
  CoreH_ThreadBoostPriority t s = Ret st s.
Proof.
  intros Ht Ht0 Href. unfold CoreH_ThreadBoostPriority, boost_refusal in *.
  rewrite (truthy_nz _ Ht0). cbn [negb]. erewrite bind_Ret; [|by apply get_thread_eq].
  rewrite not_queued. destruct (bool_decide (valid_priority _)) eqn:Ep; simpl in Href.
  2: { apply bool_decide_eq_false in Ep. rewrite (invalid_priority_test _ Ep). by simplify_eq. }
  apply bool_decide_eq_true in Ep. rewrite (valid_priority_test _ Ep).
  destruct (has_flag (flags thr) THREAD_FLAGS_DIED); [by simplify_eq|].
  destruct (negb (queued thr) && _); [by simplify_eq|].
  destruct (_ || _); by simplify_eq.
Qed.

(** A blocked thread is boosted in place: it will be readied one level up. *)
Lemma ThreadBoostPriority_blocked s v t thr :
  quiet (irq s) v → lock_free (irq s) Core_SchedulerLock →
  threads (sch s) !! t = Some thr → t ≠ 0 → boost_refusal thr = None → masterCPU thr = None →
  CoreH_ThreadBoostPriority t s =
    Ret OBOS_STATUS_SUCCESS
      (s <| sch ::= λ c, c <| threads := <[t := boosted thr]> (threads c) |> |>).
Proof.
  intros Hq Hl Ht Ht0 Href Hm. unfold CoreH_ThreadBoostPriority, boost_refusal in *.
  rewrite (truthy_nz _ Ht0). cbn [negb]. erewrite bind_Ret; [|by apply get_thread_eq].
  rewrite not_queued. destruct (bool_decide (valid_priority _)) eqn:Ep; simpl in Href; [|done].
  apply bool_decide_eq_true in Ep. rewrite (valid_priority_test _ Ep).
  destruct (has_flag (flags thr) THREAD_FLAGS_DIED); [done|].
  destruct (negb (queued thr) && _); [done|].
  destruct (_ || _); [done|]. rewrite Hm.
  erewrite bind_Ret; [|by eapply acquire_quiet]. kstep. kstep.
  erewrite bind_Ret; [|by eapply set_thread_eq]. simpl.
  erewrite bind_Ret; [|eapply set_thread_eq; simpl; apply lookup_insert_eq]. simpl.
  rewrite insert_insert_eq. kstep.
  erewrite bind_Ret; [|eapply (release_quiet _ (irq s)); done]. done.
Qed.

(** ** The transition system *)

Inductive thread_op :=
| OpReady (thr node : Z)
| OpBlock (thr : Z)
| OpBoost (thr : Z).

Definition run_op (o : thread_op) : K kst obos_status :=
  match o with
  | OpReady thr node => CoreH_ThreadReadyNode thr node
  | OpBlock thr => CoreH_ThreadBlock thr false
  | OpBoost thr => CoreH_ThreadBoostPriority thr
  end.

(** The caller's obligations: the thread exists; a thread to ready comes with a
    node that is linked nowhere. *)
Definition op_ok (s : kst) (o : thread_op) : Prop :=
  match o with
  | OpReady t node => t ≠ 0 ∧ is_Some (threads (sch s) !! t) ∧
      node ≠ 0 ∧ is_Some (tnodes (sch s) !! node) ∧ tlinks (sch s) !! node = Some unlinked ∧
      ∀ k p xs, tl_rep (sch s) (PriorityList k p) xs → node ∉ xs
  | OpBlock t | OpBoost t => t ≠ 0 ∧ is_Some (threads (sch s) !! t)
  end.

(** Each operation returns, and keeps the invariant. *)
Lemma run_op_ok s Q o :
  ops_inv s Q → op_ok s o →
  ∃ st s' Q', run_op o s = Ret st s' ∧ ops_inv s' Q' ∧ irq s' = irq s ∧ obj s' = obj s ∧
    dom (threads (sch s')) = dom (threads (sch s)).
Proof.
  intros Hoi Hok. pose proof Hoi as [[v Hq] Hul Hinv].
  assert (∀ t thr thr', threads (sch s) !! t = Some thr →
    dom (<[t := thr']> (threads (sch s))) = dom (threads (sch s))) as Hdom.
  { intros t thr thr' Ht. rewrite dom_insert_lookup_L; [done|]. by rewrite Ht. }
  destruct o as [t node|t|t]; simpl in *.
  - destruct Hok as (Ht0 & [thr Ht] & Hn0 & Hn & Hl & Hfr).
    destruct (ready_refusal (sch s) thr) as [st|] eqn:Href.
    { exists st, s, Q. split; [by eapply ThreadReadyNode_refused|done]. }
    unfold ready_refusal in Href. repeat (case_match; [done|]).
    destruct (find_allowed (sch s) (affinity thr)) as [k Hk]; [done|].
    destruct (ThreadReadyNode_ok s v Q t thr node) as (k' & s' & Hrun & _ & Hinv' & Hth & Hc & Hi & Ho); try done.
    { split; try done; [|..|intros k' p Hin; destruct (si_dom _ _ Hinv _ _ _ Hin);
        eapply (Hfr k' p); [by apply (si_rep _ _ Hinv)|done]].
      - apply negb_false_iff, bool_decide_eq_true in H0. done.
      - unfold queued in H1. by destruct (masterCPU thr).
      - exists unlinked. done. }
    { eauto. }
    eexists _, s', _. split; [done|]. split; [by eapply ops_inv_next|]. rewrite Hth. eauto.
  - destruct Hok as (Ht0 & [thr Ht]).
    destruct (masterCPU thr) as [k|] eqn:Em.
    2: { eexists _, s, Q. split; [eapply ThreadBlock_refused; eauto|done]. }
    destruct (queued_split _ _ _ _ _ Hinv Ht Em) as (_ & Hp & _).
    destruct (decide (status thr = THREAD_STATUS_BLOCKED)) as [Hb|Hb].
    { exists OBOS_STATUS_SUCCESS, s, Q. split; [|done]. unfold CoreH_ThreadBlock.
      rewrite (truthy_nz _ Ht0). cbn [negb]. erewrite bind_Ret; [|by apply get_thread_eq].
      by rewrite Em, (valid_priority_test _ Hp), bool_decide_eq_true_2. }
    destruct (wf_thread _ _ (q_wf _ _ Hq)) as (cur & Hcur & _).
    destruct (ThreadBlock_other s v Q t thr k cur false) as (l1 & l2 & s' & _ & Hrun & Hinv' & Hth & _ & _ & Hc & Hi & Ho);
      try done; [by right|].
    eexists _, s', _. split; [done|]. split; [by eapply ops_inv_next|]. rewrite Hth. eauto.
  - destruct Hok as (Ht0 & [thr Ht]).
    destruct (boost_refusal thr) as [st|] eqn:Href.
    { exists st, s, Q. split; [by eapply ThreadBoostPriority_refused|done]. }
    destruct (masterCPU thr) as [k|] eqn:Em.
    + unfold boost_refusal, queued in Href. rewrite Em in Href. simpl in Href.
      repeat (case_match; [done|]).
      apply orb_false_iff in H1 as [Hr Hmax%Z.eqb_neq].
      destruct (ThreadBoostPriority_ok s v Q t thr k) as (l1 & l2 & s' & _ & Hrun & Hinv' & Hth & _ & Hc & Hi & Ho); try done.
      eexists _, s', _. split; [done|]. split; [by eapply ops_inv_next|]. rewrite Hth. eauto.
    + eexists _, _, Q. split; [eapply ThreadBoostPriority_blocked; try done; apply Hul|].
      split; [|simpl; eauto]. eapply ops_inv_next; try done. simpl. by eapply sched_inv_unqueued.
Qed.

(** States reachable from [s0] by operations whose callers meet their
    obligations. *)
Inductive reachable (s0 : kst) : kst → Prop :=
| reach_refl : reachable s0 s0
| reach_step s o st s' :
    reachable s0 s → op_ok s o → run_op o s = Ret st s' →
    reachable s0 s'.

Lemma reachable_inv s0 Q s :
  ops_inv s0 Q → reachable s0 s →
  (∃ Q', ops_inv s Q') ∧ irq s = irq s0 ∧ obj s = obj s0 ∧
  dom (threads (sch s)) = dom (threads (sch s0)).
Proof.
  intros H0 Hr. induction Hr as [|s o st s' Hr IH Hok Hrun]; [eauto|].
  destruct IH as ((Q' & HQ') & Hi & Ho & Hd).
  destruct (run_op_ok s Q' o HQ' Hok) as (st' & s'' & Q'' & Hrun' & Hinv & Hi' & Ho' & Hd').
  rewrite Hrun in Hrun'. injection Hrun' as <- <-. split; [eauto|]. rewrite Hi', Ho', Hd'. done.
Qed.

(** [C1] Whatever sequence of ready, block and boost operations
    ([CoreH_ThreadReadyNode], [CoreH_ThreadBlock] without a yield,
    [CoreH_ThreadBoostPriority]) is performed, the run queues stay well formed: every
    reachable state satisfies the run-queue invariant (each queued thread in exactly one
    queue, that of its processor and priority; [Core_ReadyThreadCount] exact), all
    scheduler locks are free again and the interrupt level is back where it was. *)
Theorem thread_ops_invariant s0 Q s :
  ops_inv s0 Q → reachable s0 s →
  ∃ Q', sched_inv (sch s) Q' ∧ sched_unlocked (irq s) (length (cpus (sch s))) ∧ irq s = irq s0 ∧
    Core_ReadyThreadCount (sch s) = wrap64 (ready_count (threads (sch s))).
Proof.
  intros H0 Hr. destruct (reachable_inv _ _ _ H0 Hr) as ((Q' & [_ Hf Hinv]) & Hi & _).
  exists Q'. split; [done|]. split; [done|]. split; [done|]. by destruct Hinv.
Qed.

(** [C12] In every reachable state every operation whose caller meets its
    obligations runs to completion: no assertion fails, no lock spins forever,
    no dangling pointer is followed, the debug walk of a list terminates. *)
Theorem thread_ops_total s0 Q s o :
  ops_inv s0 Q → reachable s0 s → op_ok s o →
  ∃ st s', run_op o s = Ret st s' ∧ reachable s0 s' ∧
    dom (threads (sch s')) = dom (threads (sch s0)).
Proof.
  intros H0 Hr Hok. destruct (reachable_inv _ _ _ H0 Hr) as ((Q' & HQ') & _ & _ & Hd).
  destruct (run_op_ok s Q' o HQ' Hok) as (st & s' & Q'' & Hrun & _ & _ & _ & Hd').
  exists st, s'. split; [done|]. split; [by eapply reach_step|]. by rewrite Hd'.
Qed.

(** ** Functional behaviour *)

(** A fresh node. *)
Definition with_node (c : sched_st) (node : Z) (rest : list Z) : sched_st :=
  c <| free_addrs := rest |> <| tnodes ::= <[node := mkTNode nullptr true]> |>
    <| tlinks ::= <[node := unlinked]> |>.

Lemma sched_inv_with_node c Q node rest :
  sched_inv c Q → tnodes c !! node = None → tlinks c !! node = None →
  Z.of_nat (size (tlinks c)) + 3 < 2 ^ 64 →
  sched_inv (with_node c node rest) Q ∧ ∀ k p, node ∉ Q k p.
Proof.
  intros [Hrep Hdom Hnode Hthr Hcnt Hroom] Hn Hl Hsz.
  assert (∀ k p x, x ∈ Q k p → x ≠ node) as Hne.
  { intros k p x Hx ->. destruct (Hnode _ _ _ Hx) as (n & _ & ? & _). congruence. }
  split; [|intros k p Hin; by eapply Hne]. split; simpl; try done.
  - intros k p Hk Hp. destruct (Hrep k p Hk Hp) as (d & Hd & Hr). exists d. split; [done|].
    eapply dl_rep_frame; [|exact Hr]. intros y Hy. simpl. rewrite lookup_insert_ne; [done|].
    intros <-. by eapply Hne.
  - intros k p x Hx. destruct (Hnode _ _ _ Hx) as (n & thr & ? & ?). exists n, thr.
    rewrite lookup_insert_ne; [done|]. intros <-. by eapply Hne.
  - intros t thr k Ht Hm. destruct (Hthr _ _ _ Ht Hm) as (Hin & n & ? & ?). split; [done|].
    exists n. rewrite lookup_insert_ne; [done|]. intros E. eapply Hne; [exact Hin|done].
  - rewrite map_size_insert_None by done. lia.
Qed.

Lemma ready_alloc_eq s node rest :
  free_addrs (sch s) = node :: rest → node ≠ 0 →
  (n ← alloc_node; set_node n (λ n, n <| tn_free := true |>);; mret n) s =
    Ret node (mkK (irq s) (with_node (sch s) node rest) (obj s)).
Proof.
  intros Hfa Hn0. unfold alloc_node, set_node.
  erewrite bind_Ret.
  2: { erewrite bind_Ret; [|unfold next_addr; rewrite Hfa; reflexivity]. rewrite (truthy_nz _ Hn0).
       erewrite bind_Ret; [|reflexivity]. reflexivity. }
  cbv beta. erewrite bind_Ret; [|apply store_eq; simpl; apply lookup_insert_eq].
  unfold with_node, mret, K_ret. simpl. by rewrite insert_insert_eq.
Qed.

Lemma thread_ready_unfold s t node rest r :
  kernel_alloc (sch s) = true → free_addrs (sch s) = node :: rest → node ≠ 0 →
  (st ← CoreH_ThreadReadyNode t node;
   when (negb (bool_decide (st = OBOS_STATUS_SUCCESS))) (free_node node);; mret st)
    (mkK (irq s) (with_node (sch s) node rest) (obj s)) = r →
  CoreH_ThreadReady t s = r.
Proof.
  intros Hka Hfa Hn0 Hr. unfold CoreH_ThreadReady. kstep. rewrite Hka. cbn [negb].
  pose proof (ready_alloc_eq s node rest Hfa Hn0) as H.
  apply bind_Ret_inv in H as (n & s1 & H1 & H2). apply bind_Ret_inv in H2 as ([] & s2 & H2 & H3).
  injection H3 as -> ->. rewrite (bind_Ret _ _ _ _ _ H1), (bind_Ret _ _ _ _ _ H2). exact Hr.
Qed.

(** [C26] [CoreH_ThreadReady] allocates a node, and the thread goes to the back of
    the queue of the first least loaded processor that its affinity allows,
    marked ready; the interrupt state is unchanged. *)
Theorem thread_ready_correct s v Q t thr node rest :
  quiet (irq s) v → sched_unlocked (irq s) (length (cpus (sch s))) → sched_inv (sch s) Q →
  kernel_alloc (sch s) = true → free_addrs (sch s) = node :: rest → node ≠ 0 →
  tnodes (sch s) !! node = None → tlinks (sch s) !! node = None →
  Z.of_nat (size (tlinks (sch s))) + 3 < 2 ^ 64 →
  threads (sch s) !! t = Some thr → t ≠ 0 → ready_refusal (sch s) thr = None →
  ∃ k s', CoreH_ThreadReady t s = Ret OBOS_STATUS_SUCCESS s' ∧
    best_of (sch s) (affinity thr) Q (priority thr) (length (cpus (sch s))) (Some k) ∧
    sched_inv (sch s') (q_set Q k (priority thr) (Q k (priority thr) ++ [node])) ∧
    threads (sch s') = <[t := readied thr node k]> (threads (sch s)) ∧ irq s' = irq s.
Proof.
  intros Hq Hul Hinv Hka Hfa Hn0 Hn Hl Hsz Ht Ht0 Href.
  destruct (sched_inv_with_node (sch s) Q node rest Hinv Hn Hl Hsz) as [Hinv1 Hfr].
  unfold ready_refusal in Href. repeat (case_match; [done|]).
  destruct (find_allowed (sch s) (affinity thr)) as [k0 Hk0]; [done|].
  destruct (ThreadReadyNode_ok (mkK (irq s) (with_node (sch s) node rest) (obj s)) v Q t thr node)
    as (k & s' & Hrun & Hbest & Hinv' & Hth & _ & Hi & _); try done.
  { split; simpl; try done.
    - apply negb_false_iff, bool_decide_eq_true in H0. done.
    - unfold queued in H1. by destruct (masterCPU thr).
    - rewrite lookup_insert_eq. eauto.
    - exists unlinked. by rewrite lookup_insert_eq. }
  { by exists k0. }
  exists k, s'. split; [|done]. eapply thread_ready_unfold; try done.
  by rewrite (bind_Ret _ _ _ _ _ Hrun).
Qed.

(** When readying is refused (no processor yet, invalid priority, no processor
    in the affinity mask) the node [CoreH_ThreadReady] allocated is freed again
    and nothing but the allocator's position has changed. *)
Theorem thread_ready_refused s t thr node rest st :
  kernel_alloc (sch s) = true → free_addrs (sch s) = node :: rest → node ≠ 0 →
  tnodes (sch s) !! node = None → tlinks (sch s) !! node = None →
  threads (sch s) !! t = Some thr → t ≠ 0 → nonpaged_alloc (sch s) = true →
  ready_refusal (sch s) thr = Some st → st ≠ OBOS_STATUS_SUCCESS →
  CoreH_ThreadReady t s = Ret st (s <| sch ::= λ c, c <| free_addrs := rest |> |>).
Proof.
  intros Hka Hfa Hn0 Hn Hl Ht Ht0 Hna Href Hst. eapply thread_ready_unfold; try done.
  erewrite bind_Ret; [|by eapply (ThreadReadyNode_refused _ t thr node)].
  rewrite bool_decide_eq_false_2 by done. unfold when, free_node, nonpaged_free, sch_upd. cbn [negb].
  erewrite bind_Ret; [|rewrite (bind_Ret _ _ _ _ _ (gets_eq _ _)); unfold with_node; simpl; rewrite Hna; reflexivity].
  unfold mret, K_ret. do 2 f_equal.
  unfold with_node. simpl. rewrite !delete_insert_id by done. destruct s as [? [] ?]. simpl in Hna. by rewrite Hna.
Qed.

(** Readying a thread and blocking it again is a round trip for the queues:
    they are what they were, the count of ready threads too, the node is left
    unlinked (so that it can be queued again) and the thread is blocked. *)
Theorem ready_block_roundtrip s v Q t thr node cur :
  quiet (irq s) v → sched_unlocked (irq s) (length (cpus (sch s))) → sched_inv (sch s) Q →
  readyable (sch s) Q t thr node → (∃ k, allowed (sch s) (affinity thr) k) →
  thread_of (irq s) = Some cur →
  ∃ k s1 s2, CoreH_ThreadReadyNode t node s = Ret OBOS_STATUS_SUCCESS s1 ∧
    CoreH_ThreadBlock t false s1 = Ret OBOS_STATUS_SUCCESS s2 ∧
    (∃ Q', sched_inv (sch s2) Q' ∧ ∀ k' p', Q' k' p' = Q k' p') ∧
    Core_ReadyThreadCount (sch s2) = Core_ReadyThreadCount (sch s) ∧
    threads (sch s2) = <[t := blocked (readied thr node k)]> (threads (sch s)) ∧
    tlinks (sch s2) !! node = Some unlinked ∧ irq s2 = irq s.
Proof.
  intros Hq Hul Hinv Hra Hal Hcur.
  destruct (ThreadReadyNode_ok s v Q t thr node Hq Hul Hinv Hra Hal)
    as (k & s1 & Hrun1 & Hbest & Hinv1 & Hth1 & Hc1 & Hi1 & _).
  pose proof Hra as [Ht [Ht0 Hn0] Hp Hm _ _ Hfr].
  destruct (ThreadBlock_other s1 v (q_set Q k (priority thr) (Q k (priority thr) ++ [node])) t (readied thr node k) k cur false)
    as (l1 & l2 & s2 & HQ & Hrun2 & Hinv2 & Hth2 & Hlk & _ & Hc2 & Hi2 & _);
    rewrite ?Hi1, ?Hc1, ?Hth1; try done; [apply lookup_insert_eq|by right|].
  exists k, s1, s2. split; [done|]. split; [done|]. simpl in HQ, Hinv2, Hlk. rewrite q_set_same in HQ.
  assert (l1 = Q k (priority thr) ∧ l2 = []) as [-> ->].
  { apply (NoDup_split_unique node); [|by rewrite <- HQ].
    rewrite <- HQ. destruct Hbest as (Hk & _).
    destruct (si_rep _ _ Hinv k _ Hk Hp) as (d & _ & [Hnd _ _ _ _ _]).
    apply NoDup_app. split; [done|]. split; [set_solver|apply NoDup_singleton]. }
  split; [|split; [|split; [|split; [done|congruence]]]].
  - eexists. split; [exact Hinv2|]. intros k' p'. unfold q_set.
    case_decide as E; [destruct E as [-> ->]; by rewrite app_nil_r|done].
  - rewrite (si_count _ _ Hinv2), (si_count _ _ Hinv), Hth2, Hth1, insert_insert_eq.
    f_equal. rewrite (ready_count_insert _ _ _ _ Ht). unfold queued, blocked. rewrite Hm. simpl. lia.
  - by rewrite Hth2, Hth1, insert_insert_eq.
Qed.

(** Boosting a queued thread moves it to the back of the next queue of its
    processor, once: a second boost finds it raised already and changes nothing. *)
Theorem boost_once s v Q t thr k :
  quiet (irq s) v → sched_unlocked (irq s) (length (cpus (sch s))) → sched_inv (sch s) Q →
  threads (sch s) !! t = Some thr → masterCPU thr = Some k →
  boost_refusal thr = None → 0 <= flags thr →
  ∃ l1 l2 s', Q k (priority thr) = l1 ++ snode thr :: l2 ∧
    CoreH_ThreadBoostPriority t s = Ret OBOS_STATUS_SUCCESS s' ∧
    sched_inv (sch s') (q_move Q k (priority thr) (priority thr + 1) l1 (snode thr) l2) ∧
    threads (sch s') = <[t := boosted thr]> (threads (sch s)) ∧ irq s' = irq s ∧
    CoreH_ThreadBoostPriority t s' = Ret OBOS_STATUS_SUCCESS s'.
Proof.
  intros Hq Hul Hinv Ht Hm Href Hfl. unfold boost_refusal, queued in Href. rewrite Hm in Href.
  simpl in Href. repeat (case_match; [done|]).
  match goal with H : _ || _ = false |- _ => apply orb_false_iff in H as [Hr Hmax%Z.eqb_neq] end.
  destruct (queued_split _ _ _ _ _ Hinv Ht Hm) as (_ & Hp & _ & Ht0 & _).
  destruct (ThreadBoostPriority_ok s v Q t thr k)
    as (l1 & l2 & s' & HQ & Hrun & Hinv' & Hth & _ & _ & Hi & _); try done.
  exists l1, l2, s'. split; [done|]. split; [done|]. split; [done|]. split; [done|]. split; [done|].
  eapply (ThreadBoostPriority_refused s' t (boosted thr)); [rewrite Hth; apply lookup_insert_eq|done|].
  unfold boost_refusal. simpl. rewrite bool_decide_eq_true_2.
  2: { unfold valid_priority, THREAD_PRIORITY_MAX_VALUE in *. lia. }
  unfold queued. simpl. rewrite Hm, flag_test_lor by done. simpl.
  replace (has_flag (Z.lor (flags thr) THREAD_FLAGS_PRIORITY_RAISED) THREAD_FLAGS_DIED)
    with (has_flag (flags thr) THREAD_FLAGS_DIED); [by rewrite H0|].
  unfold has_flag. f_equal. apply Z.bits_inj'. intros n Hn. rewrite !Z.land_spec, Z.lor_spec.
  destruct (Z.eq_dec n 1) as [->|]; [by rewrite orb_false_r|].
  replace (Z.testbit THREAD_FLAGS_DIED n) with false; [by rewrite !andb_false_r|].
  symmetry. apply (Z.pow2_bits_false 1). lia.
Qed.
End ops.
