(* ===== verification/Wait.v ===== *)
(** * Waitable objects ([locks/wait.c], [mutex.c], [semaphore.c], [event.c])

    A waitable header is a signal flag and a list of waiting threads; mutexes,
    semaphores and events are built on it.  Waiting on an object that is not
    signaled appends the current thread's node to the list and blocks the
    thread: the computation yields there and continues when the thread is
    readied again by [CoreH_SignalWaitingThreads]. *)

From S2P Require Import Prelude DList KState Irql ThreadList Schedule Thread.

Section ops.
Context {DH : DpcHandlers}.

Definition get_hdr (o : Z) : K kst waitable_header := load (λ s, hdrs (obj s)) o.
Definition set_hdr (o : Z) (f : waitable_header → waitable_header) : K kst () :=
  store (λ s, hdrs (obj s)) (λ m s, s <| obj ::= λ x, x <| hdrs := m |> |>) o f.

(** [obj->signaled && obj->use_signaled] *)
Definition is_signaled (o : Z) : K kst bool :=
  h ← get_hdr o; mret (signaled h && use_signaled h).

(** [OBOS_ASSERT(Core_GetIrql() <= IRQL_DISPATCH); if (Core_GetIrql() >
    IRQL_DISPATCH) return OBOS_STATUS_INVALID_IRQL;] and the rest. *)
Definition at_most_dispatch (m : K kst obos_status) : K kst obos_status :=
  v ← Core_GetIrql;
  OBOS_ASSERT (v <=? IRQL_DISPATCH);;
  v ← Core_GetIrql;
  if IRQL_DISPATCH <? v then mret OBOS_STATUS_INVALID_IRQL else m.

Definition Core_WaitOnObject (o : Z) : K kst obos_status :=
  if negb (truthy o) then mret OBOS_STATUS_INVALID_ARGUMENT else
  at_most_dispatch (
    oldIrql ← Core_RaiseIrql IRQL_DISPATCH;
    spinlockIrql ← Core_SpinlockAcquire (WaitableLock o);
    sg ← is_signaled o;
    if (sg : bool) then
      Core_LowerIrql oldIrql;;
      Core_SpinlockRelease (WaitableLock o) spinlockIrql;;
      mret OBOS_STATUS_SUCCESS
    else
    curr ← Core_GetCurrentThread;
    set_thread curr (λ t, t <| nSignaled := 0 |>);;
    set_thread curr (λ t, t <| nWaiting := 1 |>);;
    t ← get_thread curr;
    set_node (lock_node t) (λ n, n <| tn_data := curr |>);;
    st ← CoreH_ThreadListAppend (Some (WaitingList o)) (lock_node t);
    if obos_is_error st then
      Core_LowerIrql oldIrql;;
      Core_SpinlockRelease (WaitableLock o) spinlockIrql;;
      mret st
    else
    Core_SpinlockRelease (WaitableLock o) spinlockIrql;;
    sg ← is_signaled o;
    if (sg : bool) then mret OBOS_STATUS_SUCCESS else
    CoreH_ThreadBlock curr true;;
    Core_LowerIrql oldIrql;;
    mret OBOS_STATUS_SUCCESS).

(** The loop over the objects of [Core_WaitOnObjects] and
    [Core_WaitOnObjectsPtr]. *)
Fixpoint wait_loop (curr : Z) (objs : list Z) : K kst () :=
  match objs with
  | [] => mret ()
  | o :: objs =>
      oldIrql ← Core_SpinlockAcquire (WaitableLock o);
      sg ← is_signaled o;
      if (sg : bool) then
        Core_SpinlockRelease (WaitableLock o) oldIrql;;
        wait_loop curr objs
      else
      node ← alloc_node;
      set_node node (λ n, n <| tn_data := curr |>);;
      set_node node (λ n, n <| tn_free := true |>);;
      st ← CoreH_ThreadListAppend (Some (WaitingList o)) node;
      Core_SpinlockRelease (WaitableLock o) oldIrql;;
      if obos_is_error st then wait_loop curr objs else
      set_thread curr (λ t, t <| nWaiting ::= λ n, wrap64 (n + 1) |>);;
      wait_loop curr objs
  end.

Definition wait_finish (curr : Z) : K kst obos_status :=
  t ← get_thread curr;
  when (truthy (nWaiting t)) (CoreH_ThreadBlock curr true;; mret ());;
  mret OBOS_STATUS_SUCCESS.

Definition Core_WaitOnObjects (objs : list Z) : K kst obos_status :=
  match objs with
  | [] => mret OBOS_STATUS_INVALID_ARGUMENT
  | _ => at_most_dispatch (
      curr ← Core_GetCurrentThread;
      t ← get_thread curr;
      set_node (lock_node t) (λ n, n <| tn_data := curr |>);;
      set_thread curr (λ t, t <| nSignaled := 0 |>);;
      set_thread curr (λ t, t <| nWaiting := 0 |>);;
      wait_loop curr objs;;
      wait_finish curr)
  end.

(** The array of [nObjects] headers, [stride] bytes apart. *)
Definition objs_at (nObjects : nat) (stride objs : Z) : list Z :=
  map (λ i, wrap64 (objs + stride * Z.of_nat i)) (seq 0 nObjects).

Definition Core_WaitOnObjectsPtr (nObjects : nat) (stride objs : Z) : K kst obos_status :=
  if (nObjects =? 0)%nat then mret OBOS_STATUS_INVALID_ARGUMENT else
  at_most_dispatch (
    curr ← Core_GetCurrentThread;
    set_thread curr (λ t, t <| nSignaled := 0 |>);;
    set_thread curr (λ t, t <| nWaiting := 0 |>);;
    wait_loop curr (objs_at nObjects stride objs);;
    wait_finish curr).

(** One round of the loop of [CoreH_SignalWaitingThreads]: the node [curr]
    leaves the list and its thread is readied when it was the last object it
    waited for. *)
Definition signal_one (o : Z) (boostPriority : bool) (curr : Z) : K kst () :=
  CoreH_ThreadListRemove (Some (WaitingList o)) curr;;
  n ← get_node curr;
  set_thread (tn_data n) (λ t, t <| nSignaled ::= λ k, wrap64 (k + 1) |>);;
  t ← get_thread (tn_data n);
  when (nSignaled t =? nWaiting t) (
    when boostPriority (CoreH_ThreadBoostPriority (tn_data n);; mret ());;
    t ← get_thread (tn_data n);
    CoreH_ThreadReadyNode (tn_data n) (snode t);;
    mret ());;
  when (tn_free n) (free_node curr).

(** The loop from [curr] on. *)
Fixpoint signal_loop (fuel : nat) (o : Z) (all boostPriority : bool) (curr : Z) : K kst () :=
  if negb (truthy curr) then mret () else
  match fuel with
  | O => stop Hang
  | S fuel =>
      lk ← get_link curr;
      signal_one o boostPriority curr;;
      if negb all then mret () else signal_loop fuel o all boostPriority (dl_next lk)
  end.

Definition CoreH_SignalWaitingThreads (o : Z) (all boostPriority : bool) : K kst obos_status :=
  if negb (truthy o) then mret OBOS_STATUS_INVALID_ARGUMENT else
  h ← get_hdr o;
  when (use_signaled h) (set_hdr o (λ h, h <| signaled := true |>));;
  at_most_dispatch (
    oldIrql ← Core_SpinlockAcquire (WaitableLock o);
    d ← get_list (WaitingList o);
    lks ← gets (λ s, tlinks (sch s));
    signal_loop (size lks + 1) o all boostPriority (dl_head d);;
    Core_SpinlockRelease (WaitableLock o) oldIrql;;
    mret OBOS_STATUS_SUCCESS).

Definition CoreH_ClearSignaledState (o : Z) : K kst () :=
  if negb (truthy o) then mret () else
  h ← get_hdr o;
  if negb (use_signaled h) then mret () else
  oldIrql ← Core_SpinlockAcquire (WaitableLock o);
  set_hdr o (λ h, h <| signaled := false |>);;
  Core_SpinlockRelease (WaitableLock o) oldIrql;;
  mret ().

(** ** Mutexes *)

Definition get_mutex (m : Z) : K kst mutex := load (λ s, mutexes (obj s)) m.
Definition set_mutex (m : Z) (f : mutex → mutex) : K kst () :=
  store (λ s, mutexes (obj s)) (λ x s, s <| obj ::= λ o, o <| mutexes := x |> |>) m f.

(** [atomic_flag_test_and_set] on [mut->lock]. *)
Definition test_and_set (m : Z) : K kst bool :=
  x ← get_mutex m; set_mutex m (λ x, x <| mutex_lock := true |>);; mret (mutex_lock x).

(** The spinning loop: [None] when the mutex is being destroyed, else the final
    value of [success].  [spin-- >= 0] holds in the first round, so that the
    loop makes one round at most; the fuel of the caller is never used up. *)
Fixpoint mutex_spin (fuel : nat) (m : Z) (spin : Z) (success : bool) : K kst (option bool) :=
  b ← test_and_set m;
  if negb (b && success) then mret (Some success) else
  match fuel with
  | O => stop Hang
  | S fuel =>
      x ← get_mutex m;
      if ignoreAllAndBlowUp x then mret None else
      mutex_spin fuel m (spin - 1) (if 0 <=? spin then false else success)
  end.

(** [if (oldIrql != IRQL_INVALID) Core_LowerIrql(oldIrql);] *)
Definition lower_if (oldIrql : Z) : K kst () :=
  when (negb (oldIrql =? IRQL_INVALID)) (Core_LowerIrql oldIrql).

Definition Core_MutexAcquire (m : Z) : K kst obos_status :=
  if negb (truthy m) then mret OBOS_STATUS_INVALID_ARGUMENT else
  at_most_dispatch (
    x ← get_mutex m;
    cur ← Core_GetCurrentThread;
    OBOS_ASSERT (negb (who x =? cur));;
    oldIrql ← Core_RaiseIrql IRQL_DISPATCH;
    r ← mutex_spin 3 m 100000 true;
    match r with
    | None => lower_if oldIrql;; mret OBOS_STATUS_ABORTED
    | Some success =>
        x ← get_mutex m;
        if ignoreAllAndBlowUp x then lower_if oldIrql;; mret OBOS_STATUS_ABORTED else
        lower_if oldIrql;;
        if success : bool then
          cur ← Core_GetCurrentThread;
          set_mutex m (λ x, x <| who := cur |>);;
          set_mutex m (λ x, x <| mutex_locked := true |>);;
          mret OBOS_STATUS_SUCCESS
        else
        Core_WaitOnObject m;;
        x ← get_mutex m;
        if ignoreAllAndBlowUp x then mret OBOS_STATUS_ABORTED else
        (* the second loop stops after its first test, [success] being false *)
        test_and_set m;;
        cur ← Core_GetCurrentThread;
        set_mutex m (λ x, x <| who := cur |>);;
        mret OBOS_STATUS_SUCCESS
    end).

Definition Core_MutexTryAcquire (m : Z) : K kst obos_status :=
  if negb (truthy m) then mret OBOS_STATUS_INVALID_ARGUMENT else
  x ← get_mutex m;
  if mutex_locked x then mret OBOS_STATUS_IN_USE else Core_MutexAcquire m.

Definition Core_MutexRelease (m : Z) : K kst obos_status :=
  if negb (truthy m) then mret OBOS_STATUS_INVALID_ARGUMENT else
  x ← get_mutex m;
  if negb (mutex_locked x) then mret OBOS_STATUS_SUCCESS else
  cur ← Core_GetCurrentThread;
  if negb (who x =? cur) then mret OBOS_STATUS_ACCESS_DENIED else
  set_mutex m (λ x, x <| who := nullptr |>);;
  set_mutex m (λ x, x <| mutex_lock := false |>);;
  st ← CoreH_SignalWaitingThreads m false false;
  if obos_is_error st then mret st else mret OBOS_STATUS_SUCCESS.

Definition Core_MutexAcquired (m : Z) : K kst bool :=
  if negb (truthy m) then mret false else x ← get_mutex m; mret (mutex_locked x).

(** ** Semaphores: the counter of the semaphore at an address *)

Definition get_sem (o : Z) : K kst Z := load (λ s, semaphores (obj s)) o.
Definition set_sem (o : Z) (f : Z → Z) : K kst () :=
  store (λ s, semaphores (obj s)) (λ x s, s <| obj ::= λ o, o <| semaphores := x |> |>) o f.

Definition Core_SemaphoreAcquire (o : Z) : K kst obos_status :=
  if negb (truthy o) then mret OBOS_STATUS_INVALID_ARGUMENT else
  at_most_dispatch (
    oldIrql ← Core_SpinlockAcquire (SemaphoreLock o);
    count ← get_sem o;
    if truthy count then
      set_sem o (λ n, wrap64 (n - 1));;
      Core_SpinlockRelease (SemaphoreLock o) oldIrql;;
      mret OBOS_STATUS_SUCCESS
    else
    Core_SpinlockRelease (SemaphoreLock o) oldIrql;;
    Core_WaitOnObject o;;
    oldIrql ← Core_SpinlockAcquire (SemaphoreLock o);
    set_sem o (λ n, wrap64 (n - 1));;
    Core_SpinlockRelease (SemaphoreLock o) oldIrql;;
    mret OBOS_STATUS_SUCCESS).

Definition Core_SemaphoreTryAcquire (o : Z) : K kst obos_status :=
  if negb (truthy o) then mret OBOS_STATUS_INVALID_ARGUMENT else
  count ← get_sem o;
  if negb (truthy count) then mret OBOS_STATUS_IN_USE else Core_SemaphoreAcquire o.

Definition Core_SemaphoreRelease (o : Z) : K kst obos_status :=
  if negb (truthy o) then mret OBOS_STATUS_INVALID_ARGUMENT else
  set_sem o (λ n, wrap64 (n + 1));;
  CoreH_SignalWaitingThreads o false false;;
  CoreH_ClearSignaledState o;;
  mret OBOS_STATUS_SUCCESS.

Definition Core_SemaphoreGetValue (o : Z) : K kst Z := get_sem o.

(** ** Events *)

Definition get_event (e : Z) : K kst event := load (λ s, events (obj s)) e.
Definition set_event (e : Z) (f : event → event) : K kst () :=
  store (λ s, events (obj s)) (λ x s, s <| obj ::= λ o, o <| events := x |> |>) e f.

Definition Core_EventPulse (e : Z) (boost : bool) : K kst obos_status :=
  if negb (truthy e) then mret OBOS_STATUS_INVALID_ARGUMENT else
  oldIrql ← Core_RaiseIrql IRQL_DISPATCH;
  set_event e (λ x, x <| event_signaled := true |>);;
  x ← get_event e;
  if bool_decide (event_kind x = EVENT_SYNC) then
    CoreH_SignalWaitingThreads e false boost;;
    set_event e (λ x, x <| event_signaled := false |>);;
    Core_LowerIrql oldIrql;;
    mret OBOS_STATUS_SUCCESS
  else
  CoreH_SignalWaitingThreads e false boost;;
  set_event e (λ x, x <| event_signaled := false |>);;
  Core_LowerIrql oldIrql;;
  mret OBOS_STATUS_SUCCESS.

Definition Core_EventGetState (e : Z) : K kst bool :=
  if negb (truthy e) then mret false else x ← get_event e; mret (event_signaled x).

Definition Core_EventReset (e : Z) : K kst obos_status :=
  if negb (truthy e) then mret OBOS_STATUS_INVALID_ARGUMENT else
  set_event e (λ x, x <| event_signaled := false |>);;
  CoreH_ClearSignaledState e;;
  mret OBOS_STATUS_SUCCESS.

Definition Core_EventSet (e : Z) (boost : bool) : K kst obos_status :=
  if negb (truthy e) then mret OBOS_STATUS_INVALID_ARGUMENT else
  x ← get_event e;
  CoreH_SignalWaitingThreads e (negb (bool_decide (event_kind x = EVENT_SYNC))) boost;;
  set_event e (λ x, x <| event_signaled := true |>);;
  mret OBOS_STATUS_SUCCESS.

Definition Core_EventClear (e : Z) : K kst obos_status := Core_EventReset e.

End ops.
