(* ===== verification/WaitProofs.v ===== *)
(** * Correctness of waiting and signaling

    [waiting_on c Q o ws]: the list of the object [o] holds the waiters [ws],
    blocked threads that wait for their last object.  Signaling readies them
    and keeps the run-queue invariant; mutexes, semaphores and events behave
    accordingly. *)

From S2P Require Import Prelude DList KState Irql ThreadList Schedule Thread SchedInv SchedSwitch SchedOps Wait.

(** The node of a waiter in the list, its thread, the node it is queued with. *)
Record waiter := mkWaiter { w_node : Z; w_thr : Z; w_snode : Z }.

Record waiter_ok (c : sched_st) (w : waiter) (thr : thread) : Prop := {
  wk_node : tnodes c !! w_node w = Some (mkTNode (w_thr w) false);
  wk_thread : threads c !! w_thr w = Some thr;
  wk_nonnull : w_thr w ≠ 0 ∧ w_snode w ≠ 0;
  wk_blocked : masterCPU thr = None ∧ status thr = THREAD_STATUS_BLOCKED;
  wk_last : wrap64 (nSignaled thr + 1) = nWaiting thr;
  wk_prio : valid_priority (priority thr);
  wk_allowed : ∃ k, allowed c (affinity thr) k;
  wk_snode : snode thr = w_snode w ∧ is_Some (tnodes c !! w_snode w) ∧
    tlinks c !! w_snode w = Some unlinked
}.

Record waiting_on (c : sched_st) (Q : queues) (o : Z) (ws : list waiter) : Prop := {
  wo_rep : tl_rep c (WaitingList o) (map w_node ws);
  wo_each w : w ∈ ws → ∃ thr, waiter_ok c w thr;
  wo_threads : NoDup (map w_thr ws);
  wo_nodes : NoDup (map w_node ws ++ map w_snode ws);
  wo_apart x k p : x ∈ map w_node ws ++ map w_snode ws → x ∉ Q k p
}.

(** A list that is not a run queue changes. *)
Lemma sched_inv_other_list c Q l d h ps :
  sched_inv c Q → (∀ k p, l ≠ PriorityList k p) → links_frame ps (tlinks c) h →
  (∀ x k p, x ∈ ps → x ∉ Q k p) → sched_inv (with_list l d h c) Q.
Proof.
  intros [Hrep Hdom Hnode Hthr Hcnt Hroom] Hl Hf Hap. split; simpl; try done.
  - intros k p Hk Hp. eapply tl_rep_other; [apply Hl|exact Hf| |by apply Hrep].
    intros y Hy Hps. by eapply Hap.
  - by rewrite (links_frame_size _ _ _ Hf).
Qed.

(** A run queue changes, another list does not. *)
Lemma tl_rep_with_list c l l' d h xs ps :
  tl_rep c l' xs → l ≠ l' → links_frame ps (tlinks c) h → (∀ x, x ∈ xs → x ∉ ps) →
  tl_rep (with_list l d h c) l' xs.
Proof. intros Hr Hl Hf Hap. by eapply tl_rep_other. Qed.

Section signal.
Context {DH : DpcHandlers}.

(** The record of a thread that is woken on processor [k]. *)
Definition notified (thr : thread) : thread := thr <| nSignaled ::= λ n, wrap64 (n + 1) |>.
Definition maybe_boosted (boost : bool) (thr : thread) : thread :=
  if boost && bool_decide (boost_refusal thr = None) then boosted thr else thr.
Definition woken (boost : bool) (thr : thread) (k : nat) : thread :=
  readied (maybe_boosted boost (notified thr)) (snode thr) k.

Lemma valid_priority_boost boost thr :
  valid_priority (priority thr) → valid_priority (priority (maybe_boosted boost thr)).
Proof.
  intros Hp. unfold maybe_boosted. destruct boost; simpl; [|done].
  case_bool_decide as Hr; [|done]. unfold boost_refusal in Hr. simpl.
  rewrite bool_decide_eq_true_2 in Hr by done. simpl in Hr. repeat (case_match; [done|]).
  match goal with H : _ || _ = false |- _ => apply orb_false_iff in H as [_ Hm%Z.eqb_neq] end.
  unfold valid_priority, THREAD_PRIORITY_MAX_VALUE in *. lia.
Qed.

(** The optional boost of a blocked thread. *)
Lemma maybe_boost_eq s v t thr boost :
  quiet (irq s) v → lock_free (irq s) Core_SchedulerLock →
  threads (sch s) !! t = Some thr → t ≠ 0 → masterCPU thr = None →
  when boost (CoreH_ThreadBoostPriority t;; mret ()) s =
    Ret () (mkK (irq s) ((sch s) <| threads := <[t := maybe_boosted boost thr]> (threads (sch s)) |>) (obj s)).
Proof.
  intros Hq Hl Ht Ht0 Hm. unfold maybe_boosted. destruct boost; simpl.
  - destruct (boost_refusal thr) as [st|] eqn:Href.
    + erewrite bind_Ret; [|by eapply ThreadBoostPriority_refused].
      rewrite bool_decide_eq_false_2 by done. rewrite insert_id by done. by destruct s as [? [] ?].
    + erewrite bind_Ret; [|by eapply ThreadBoostPriority_blocked].
      by rewrite bool_decide_eq_true_2.
  - rewrite insert_id by done. by destruct s as [? [] ?].
Qed.

(** The interrupt state while signaling: the scheduler's locks and the lock of
    the waiting list are free. *)
Record signal_irq (i : irq_st) (n : nat) (o : Z) : Prop := {
  sg_quiet : ∃ v, quiet i v;
  sg_sched : sched_unlocked i n;
  sg_list : lock_free i (ThreadListLock (WaitingList o))
}.

(** The other waiters are not disturbed by what happens to one of them. *)
Lemma waiter_ok_frame c c' w thr :
  waiter_ok c w thr → tnodes c' !! w_node w = tnodes c !! w_node w →
  threads c' !! w_thr w = threads c !! w_thr w → cpus c' = cpus c →
  tnodes c' !! w_snode w = tnodes c !! w_snode w → tlinks c' !! w_snode w = tlinks c !! w_snode w →
  waiter_ok c' w thr.
Proof.
  intros [Hn Ht H0 Hb Hl Hp Hal Hs] En Et Ec Es El. split; rewrite ?En, ?Et, ?Es, ?El; try done.
  unfold allowed. by rewrite Ec.
Qed.

Lemma waiting_on_rest c Q o w ws c' k p :
  waiting_on c Q o (w :: ws) → cpus c' = cpus c →
  (∀ t, w_thr w ≠ t → threads c' !! t = threads c !! t) →
  (∀ x, w_snode w ≠ x → tnodes c' !! x = tnodes c !! x) →
  (∀ x, x ∉ w_node w :: map w_node ws → x ∉ w_snode w :: Q k p → tlinks c' !! x = tlinks c !! x) →
  tl_rep c' (WaitingList o) (map w_node ws) →
  waiting_on c' (q_set Q k p (Q k p ++ [w_snode w])) o ws.
Proof.
  intros [_ Heach Hnt Hnn Hap] Hc Hth Htn Htl Hrep. simpl in Hnt, Hnn, Hap.
  apply NoDup_cons in Hnn as [Hw1 Hnn]. apply NoDup_cons in Hnt as [Ht1 Hnt].
  apply NoDup_app in Hnn as (Hn1 & Hdj & [Hs1 Hn2]%NoDup_cons).
  assert (∀ x, x ∈ map w_node ws ++ map w_snode ws → x ∈ w_node w :: map w_node ws ++ w_snode w :: map w_snode ws)
    as Hsub.
  { intros x [Hx|Hx]%elem_of_app; right; apply elem_of_app; [by left|right; by right]. }
  assert (∀ x, x ∈ map w_node ws ++ map w_snode ws → w_snode w ≠ x) as Hne.
  { intros x [Hx|Hx]%elem_of_app <-; [|done]. eapply Hdj; [exact Hx|left]. }
  split; [done| |done| |].
  - intros w' Hw'. assert (w_node w' ∈ map w_node ws) as Hi1 by (by apply list_elem_of_fmap_2).
    assert (w_snode w' ∈ map w_snode ws) as Hi2 by (by apply list_elem_of_fmap_2).
    assert (w_thr w ≠ w_thr w') as Hi3 by (intros E; apply Ht1; rewrite E; by apply list_elem_of_fmap_2).
    destruct (Heach w') as (thr' & Hok'); [by right|]. exists thr'.
    eapply waiter_ok_frame; [exact Hok'|..]; try done.
    + apply Htn, Hne, elem_of_app. by left.
    + by apply Hth.
    + apply Htn, Hne, elem_of_app. by right.
    + apply Htl.
      * intros [E|Hx]%elem_of_cons.
        -- apply Hw1, elem_of_app. right. right. by rewrite <- E.
        -- eapply Hdj; [exact Hx|by right].
      * intros [E|Hx]%elem_of_cons; [by apply Hs1; rewrite <- E|].
        eapply Hap; [|exact Hx]. apply Hsub, elem_of_app. by right.
  - apply NoDup_app. split; [done|]. split; [|done]. intros x Hx Hx'. eapply Hdj; [exact Hx|by right].
  - intros x k' p' Hx. unfold q_set. case_decide as E; [|by apply Hap, Hsub].
    destruct E as [-> ->]. intros [Hx'|Hx']%elem_of_app; [by eapply Hap; [apply Hsub|]|].
    apply list_elem_of_singleton in Hx'. by eapply Hne.
Qed.

Lemma signal_one_ok s Q o boost w ws :
  signal_irq (irq s) (length (cpus (sch s))) o → sched_inv (sch s) Q →
  waiting_on (sch s) Q o (w :: ws) → Z.of_nat (length (w :: ws)) < 2 ^ 64 →
  ∃ thr k c' Q', threads (sch s) !! w_thr w = Some thr ∧
    signal_one o boost (w_node w) s = Ret () (mkK (irq s) c' (obj s)) ∧
    sched_inv c' Q' ∧ waiting_on c' Q' o ws ∧ cpus c' = cpus (sch s) ∧
    threads c' = <[w_thr w := woken boost thr k]> (threads (sch s)) ∧ allowed (sch s) (affinity thr) k.
Proof.
  intros [[v Hq] Hul Hlk] Hinv Hwo Hlen.
  pose proof Hwo as [Hrep Heach Hnt Hnn Hap].
  destruct (Heach w) as (thr & [Hn Ht [Ht0 Hs0] [Hm Hst] Hlast Hp Hal (Hsn & [sn Hsnn] & Hsl)]); [set_solver|].
  simpl in Hrep, Hnt, Hnn, Hap.
  destruct (ThreadListRemove_ok s v (WaitingList o) [] (w_node w) (map w_node ws))
    as (h & d & Hrem & Hrep1 & Hun & Hf1); [done|done|done|simpl in *; by rewrite length_map|by eexists|].
  simpl in Hrep1, Hf1.
  set (c1 := with_list (WaitingList o) d h (sch s)).
  assert (sched_inv c1 Q) as Hinv1.
  { eapply sched_inv_other_list; [done|done|exact Hf1|]. intros x k p Hx. apply Hap. set_solver. }
  set (thr2 := maybe_boosted boost (notified thr)).
  set (c2 := c1 <| threads := <[w_thr w := thr2]> (threads (sch s)) |>).
  assert (masterCPU thr2 = None ∧ snode thr2 = w_snode w ∧ affinity thr2 = affinity thr) as (Hm2 & Hsn2 & Haf2).
  { unfold thr2, maybe_boosted. destruct (_ && _); by rewrite <- Hsn. }
  assert (valid_priority (priority thr2)) as Hp2 by (by apply valid_priority_boost).
  assert (sched_inv c2 Q) as Hinv2 by (by eapply (sched_inv_unqueued c1 Q (w_thr w) thr thr2)).
  apply NoDup_cons in Hnn as [Hw1 Hnn]. apply NoDup_cons in Hnt as [Ht1 Hnt].
  pose proof Hnn as (Hn1 & Hdj & [Hs1 Hn2]%NoDup_cons)%NoDup_app.
  destruct (ThreadReadyNode_full (mkK (irq s) c2 (obj s)) v Q (w_thr w) thr2 (w_snode w))
    as (k & h2 & d2 & Hrun & (_ & Hbest & _) & Hinv3 & Hf2); [done|done|done| | |].
  { split; simpl; try done.
    - apply lookup_insert_eq.
    - exists unlinked. split; [|done]. rewrite <- Hsl. apply (proj1 Hf1). set_solver.
    - intros k p. apply Hap. set_solver. }
  { rewrite Haf2. exact Hal. }
  eexists thr, k, _, _. split; [done|]. split; [|split; [exact Hinv3|split; [|split; [done|split; [|by rewrite <- Haf2]]]]].
  - unfold signal_one. erewrite bind_Ret; [|exact Hrem]. unfold get_node.
    erewrite bind_Ret; [|apply load_eq; exact Hn]. cbv beta. cbn [tn_data tn_free].
    erewrite bind_Ret; [|eapply set_thread_eq; exact Ht].
    erewrite bind_Ret; [|apply get_thread_eq; simpl; apply lookup_insert_eq].
    erewrite bind_Ret; [done|]. rewrite when_true by (simpl; rewrite Hlast; apply Z.eqb_refl).
    erewrite bind_Ret; [|eapply (maybe_boost_eq _ v _ (notified thr)); simpl; [done|apply Hul|apply lookup_insert_eq|done|done]].
    simpl. rewrite insert_insert_eq. fold thr2.
    erewrite bind_Ret; [|apply get_thread_eq; simpl; apply lookup_insert_eq].
    erewrite bind_Ret; [|rewrite Hsn2; exact Hrun]. done.
  - eapply (waiting_on_rest (sch s) Q o w ws); [done|..]; simpl; try done.
    + intros x Hx. rewrite lookup_insert_ne, lookup_insert_ne by done. done.
    + intros x Hx. by rewrite lookup_alter_ne.
    + intros x Hx Hxq. rewrite (proj1 Hf2) by done. apply (proj1 Hf1). done.
    + eapply tl_rep_with_list; [by exists d; split; [apply lookup_insert_eq|exact Hrep1]|done|exact Hf2|].
      intros x Hx [->|Hx']%elem_of_cons; [eapply Hdj; [exact Hx|left]|].
      eapply Hap; [|exact Hx']. right. apply elem_of_app. by left.
  - simpl. rewrite insert_insert_eq. unfold woken. by rewrite Hsn.
Qed.

(** Waking everybody. *)
Lemma signal_loop_all_ok o boost ws : ∀ s Q fuel,
  signal_irq (irq s) (length (cpus (sch s))) o → sched_inv (sch s) Q →
  waiting_on (sch s) Q o ws → Z.of_nat (length ws) < 2 ^ 64 → (length ws ≤ fuel)%nat →
  ∃ c' Q', signal_loop fuel o true boost (default 0 (head (map w_node ws))) s = Ret () (mkK (irq s) c' (obj s)) ∧
    sched_inv c' Q' ∧ waiting_on c' Q' o [] ∧ cpus c' = cpus (sch s) ∧
    (∀ w, w ∈ ws → ∃ thr k, threads (sch s) !! w_thr w = Some thr ∧
       threads c' !! w_thr w = Some (woken boost thr k) ∧ allowed (sch s) (affinity thr) k) ∧
    (∀ t, t ∉ map w_thr ws → threads c' !! t = threads (sch s) !! t).
Proof.
  induction ws as [|w ws IH]; intros s Q fuel Hi Hinv Hwo Hlen Hf.
  { exists (sch s), Q. split; [destruct fuel, s; done|]. split; [done|]. split; [done|]. split; [done|].
    split; [set_solver|done]. }
  destruct fuel as [|fuel]; [simpl in Hf; lia|].
  destruct (signal_one_ok s Q o boost w ws Hi Hinv Hwo Hlen)
    as (thr & k & c1 & Q1 & Ht & Hone & Hinv1 & Hwo1 & Hc1 & Hth1 & Hk1).
  destruct (IH (mkK (irq s) c1 (obj s)) Q1 fuel) as (c' & Q' & Hrun & Hinv' & Hwo' & Hc' & Hw' & Hoth);
    simpl; try done; [by rewrite Hc1|simpl in Hlen; lia|simpl in Hf; lia|].
  simpl in Hw', Hoth, Hc'.
  destruct (wo_rep _ _ _ _ Hwo) as (d & Hd & [Hnd Hnn Hhd _ _ Hseg]).
  assert (w_thr w ∉ map w_thr ws) as Hnot by (pose proof (wo_threads _ _ _ _ Hwo) as [? _]%NoDup_cons; done).
  exists c', Q'. split; [|split; [done|split; [done|split; [congruence|split]]]].
  - cbn [signal_loop map head default]. rewrite truthy_nz by set_solver. cbn [negb].
    unfold get_link. simpl in Hseg. destruct Hseg as [Hlk Hseg].
    erewrite bind_Ret; [|by apply load_eq]. erewrite bind_Ret; [|exact Hone]. exact Hrun.
  - intros w0 [->|Hw0]%elem_of_cons.
    + exists thr, k. split; [done|]. split; [|done]. rewrite Hoth by done. by rewrite Hth1, lookup_insert_eq.
    + destruct (Hw' w0 Hw0) as (thr0 & k0 & Ht0 & Hk0 & Hal0). exists thr0, k0. split; [|split; [done|by unfold allowed in *; rewrite Hc1 in Hal0]].
      rewrite Hth1, lookup_insert_ne in Ht0; [done|]. intros E. apply Hnot. rewrite E.
      by apply list_elem_of_fmap_2.
  - intros t Ht'. simpl in Ht'. rewrite Hoth by set_solver. rewrite Hth1, lookup_insert_ne; [done|set_solver].
Qed.

Lemma at_most_dispatch_eq s v m : quiet (irq s) v → at_most_dispatch m s = m s.
Proof.
  intros [Hwf Hle _ _]. unfold at_most_dispatch.
  erewrite bind_Ret; [|eapply Core_GetIrql_eq; by destruct Hwf].
  erewrite bind_Ret; [|by apply assert_eq, Z.leb_le].
  erewrite bind_Ret; [|eapply Core_GetIrql_eq; by destruct Hwf].
  by rewrite (proj2 (Z.ltb_ge _ _)).
Qed.

(** The object part after its header was signaled. *)
Definition signal_obj (o : Z) (h : waitable_header) (x : obj_st) : obj_st :=
  if use_signaled h then x <| hdrs := <[o := h <| signaled := true |>]> (hdrs x) |> else x.

(** The locks a signaler takes are free. *)
Record signal_ready (s : kst) (v : Z) (o : Z) : Prop := {
  sr_quiet : quiet (irq s) v;
  sr_sched : sched_unlocked (irq s) (length (cpus (sch s)));
  sr_obj : lock_free (irq s) (WaitableLock o);
  sr_list : lock_free (irq s) (ThreadListLock (WaitingList o))
}.

Lemma sched_unlocked_acq i n l :
  sched_unlocked i n → l ≠ Core_SchedulerLock → (∀ k, l ≠ SchedulerLock k) →
  (∀ x, l ≠ ThreadListLock x) → sched_unlocked (acq_st i l) n.
Proof.
  intros [Hg Hc Hl] H1 H2 H3. split; intros; apply lock_free_upd; auto.
Qed.

Lemma signal_irq_acq s v o :
  signal_ready s v o → signal_irq (acq_st (irq s) (WaitableLock o)) (length (cpus (sch s))) o.
Proof.
  intros [Hq Hs Ho Hl]. split.
  - eexists. by eapply acq_st_quiet.
  - by apply sched_unlocked_acq.
  - by apply lock_free_upd.
Qed.

(** Signaling wakes the first waiter, or all of them. *)
Lemma signal_ok s v Q o h ws all boost :
  signal_ready s v o → sched_inv (sch s) Q → o ≠ 0 → hdrs (obj s) !! o = Some h →
  waiting_on (sch s) Q o ws →
  ∃ c' Q', CoreH_SignalWaitingThreads o all boost s =
      Ret OBOS_STATUS_SUCCESS (mkK (irq s) c' (signal_obj o h (obj s))) ∧
    sched_inv c' Q' ∧ cpus c' = cpus (sch s) ∧
    waiting_on c' Q' o (if all then [] else drop 1 ws) ∧
    (∀ w, w ∈ (if all then ws else take 1 ws) → ∃ thr k, threads (sch s) !! w_thr w = Some thr ∧
       threads c' !! w_thr w = Some (woken boost thr k) ∧ allowed (sch s) (affinity thr) k) ∧
    (∀ t, t ∉ map w_thr (if all then ws else take 1 ws) → threads c' !! t = threads (sch s) !! t).
Proof.
  intros Hsr Hinv Ho0 Hh Hwo. pose proof Hsr as [Hq Hsc Hob Hli].
  destruct (wo_rep _ _ _ _ Hwo) as (d & Hd & [Hnd Hnn Hhd _ _ Hseg]).
  pose proof (seg_size _ _ _ _ Hseg Hnd) as Hsz. rewrite length_map in Hsz.
  assert (Z.of_nat (length ws) < 2 ^ 64) as Hlen by (pose proof (si_room _ _ Hinv); lia).
  set (o1 := signal_obj o h (obj s)).
  set (s1 := mkK (acq_st (irq s) (WaitableLock o)) (sch s) o1).
  assert (∃ c' Q', signal_loop (size (tlinks (sch s)) + 1) o all boost (dl_head d) s1 = Ret () (mkK (irq s1) c' o1) ∧
    sched_inv c' Q' ∧ cpus c' = cpus (sch s) ∧ waiting_on c' Q' o (if all then [] else drop 1 ws) ∧
    (∀ w, w ∈ (if all then ws else take 1 ws) → ∃ thr k, threads (sch s) !! w_thr w = Some thr ∧
       threads c' !! w_thr w = Some (woken boost thr k) ∧ allowed (sch s) (affinity thr) k) ∧
    (∀ t, t ∉ map w_thr (if all then ws else take 1 ws) → threads c' !! t = threads (sch s) !! t))
    as (c' & Q' & Hrun & Hinv' & Hc' & Hwo' & Hw' & Hoth).
  { rewrite Hhd. destruct all.
    - destruct (signal_loop_all_ok o boost ws s1 Q (size (tlinks (sch s)) + 1))
        as (c' & Q' & ? & ? & ? & ? & ? & ?); try done; [by apply (signal_irq_acq s v)|lia|]. exists c', Q'. done.
    - destruct ws as [|w ws].
      { exists (sch s), Q. rewrite Nat.add_1_r. simpl. split; [done|]. split; [done|]. split; [done|].
        split; [done|]. split; [set_solver|done]. }
      destruct (signal_one_ok s1 Q o boost w ws) as (thr & k & c' & Q' & Ht & Hone & Hinv' & Hwo' & Hc & Hth & Hal);
        try done; [by apply (signal_irq_acq s v)|].
      exists c', Q'. split; [|split; [done|split; [done|split; [done|split]]]].
      + rewrite Nat.add_1_r. cbn [signal_loop map head default]. rewrite truthy_nz by set_solver. cbn [negb].
        simpl in Hseg. destruct Hseg as [Hlk _]. unfold get_link.
        erewrite bind_Ret; [|by apply load_eq]. erewrite bind_Ret; [|exact Hone]. done.
      + intros w0 ->%list_elem_of_singleton. exists thr, k. split; [done|]. split; [by rewrite Hth, lookup_insert_eq|done].
      + intros t Ht'. rewrite Hth, lookup_insert_ne; [done|]. intros <-. apply Ht'. left. }
  exists c', Q'. split; [|done]. unfold CoreH_SignalWaitingThreads. rewrite (truthy_nz _ Ho0). cbn [negb].
  erewrite bind_Ret; [|by apply load_eq].
  erewrite (bind_Ret _ _ _ () (mkK (irq s) (sch s) o1)).
  2: { unfold o1, signal_obj, when. destruct (use_signaled h); [|by destruct s].
       unfold set_hdr. by erewrite store_eq. }
  erewrite at_most_dispatch_eq by exact Hq.
  erewrite bind_Ret; [|eapply acquire_quiet; [exact Hq|exact Hob]].
  erewrite bind_Ret; [|by apply get_list_eq]. kstep.
  erewrite bind_Ret; [|exact Hrun].
  erewrite bind_Ret; [|eapply (release_quiet _ (irq s)); done]. done.
Qed.
End signal.

(** ** Waiting on a signaled object *)

Section waiting.
Context {DH : DpcHandlers}.

Lemma set_level_lock v i f : set_level v (i <| locks ::= f |>) = (set_level v i) <| locks ::= f |>.
Proof. unfold set_level, set_var. simpl. by destruct (this_cpu i). Qed.
Lemma set_ctx_lock v i f : set_ctx v (i <| locks ::= f |>) = (set_ctx v i) <| locks ::= f |>.
Proof.
  destruct i as [[c|] ? ? ? ct ? ? ? ? ?]; [|done]. unfold set_ctx, thread_of. simpl.
  destruct (ct !! c) as [t|]; [|done]. by destruct (truthy t).
Qed.

#[local] Opaque set_level set_ctx.
#[local] Arguments level_up : simpl never.
#[local] Arguments acq_st : simpl never.

(** Entering [Core_WaitOnObject] up to its first test of the header. *)
Lemma wait_enter s v o (m : Z → Z → K kst obos_status) :
  quiet (irq s) v → lock_free (irq s) (WaitableLock o) → o ≠ 0 →
  at_most_dispatch (
    oldIrql ← Core_RaiseIrql IRQL_DISPATCH;
    spinlockIrql ← Core_SpinlockAcquire (WaitableLock o); m oldIrql spinlockIrql) s =
  m v IRQL_INVALID (s <| irq ::= λ i, acq_st (level_up i) (WaitableLock o) |>).
Proof.
  intros Hq Hl Ho. erewrite at_most_dispatch_eq by exact Hq. pose proof Hq as [Hwf Hle _ _].
  erewrite bind_Ret.
  2: { eapply Core_RaiseIrql_eq; [done| |done]. destruct Hwf. unfold IRQL_DISPATCH in *. lia. }
  erewrite bind_Ret; [|eapply (acquire_quiet _ IRQL_DISPATCH);
    [by eapply level_up_quiet|unfold lock_free; etrans; [exact (f_equal (λ m, m !! _) (level_up_locks (irq s)))|exact Hl]]].
  done.
Qed.

Lemma wait_leave s i v o :
  quiet i v → lock_free i (WaitableLock o) → irq s = acq_st (level_up i) (WaitableLock o) →
  (Core_LowerIrql v;; Core_SpinlockRelease (WaitableLock o) IRQL_INVALID) s =
    Ret OBOS_STATUS_SUCCESS (s <| irq := i |>).
Proof.
  intros Hq Hl Hi. pose proof (level_up_quiet _ _ Hq) as Hq2.
  pose proof (acq_st_dispatch _ (WaitableLock o) Hq2) as Hacq.
  pose proof Hq as [[Hv Hc Hr H1 _] Hle _ _].
  erewrite bind_Ret.
  2: { eapply Core_LowerIrql_eq; [rewrite Hi; apply (acq_st_quiet _ _ _ Hq2)| |done|].
       - unfold IRQL_DISPATCH in *. lia.
       - rewrite Hi. apply (acq_st_quiet _ _ _ Hq2). }
  erewrite release_invalid.
  2: { simpl. rewrite Hi, Hacq, set_level_lock, set_ctx_lock. simpl. apply lookup_insert_eq. }
  simpl. rewrite Hi, Hacq, set_level_lock, set_ctx_lock. simpl. rewrite level_up_down by done.
  rewrite insert_insert_eq, insert_id by done. by destruct i.
Qed.

(** Waiting on an object that is signaled returns at once and changes nothing. *)
Lemma wait_signaled s v o h :
  quiet (irq s) v → lock_free (irq s) (WaitableLock o) → o ≠ 0 →
  hdrs (obj s) !! o = Some h → signaled h && use_signaled h = true →
  Core_WaitOnObject o s = Ret OBOS_STATUS_SUCCESS s.
Proof.
  intros Hq Hl Ho Hh Hsg. unfold Core_WaitOnObject. rewrite (truthy_nz _ Ho). cbn [negb].
  erewrite wait_enter by done.
  erewrite bind_Ret; [|unfold is_signaled; erewrite bind_Ret; [|by apply load_eq]; reflexivity].
  rewrite Hsg. cbv iota.
  pose proof (wait_leave (s <| irq ::= λ i, acq_st (level_up i) (WaitableLock o) |>) (irq s) v o Hq Hl eq_refl) as Hlv.
  apply bind_Ret_inv in Hlv as (? & ? & H1 & H2).
  rewrite (bind_Ret _ _ _ _ _ H1), (bind_Ret _ _ _ _ _ H2). unfold mret, K_ret. simpl. by destruct s.
Qed.

(** Signaling with nobody waiting only sets the flag. *)
Lemma signal_empty s v o h all boost :
  quiet (irq s) v → lock_free (irq s) (WaitableLock o) → o ≠ 0 → hdrs (obj s) !! o = Some h →
  tl_rep (sch s) (WaitingList o) [] →
  CoreH_SignalWaitingThreads o all boost s =
    Ret OBOS_STATUS_SUCCESS (mkK (irq s) (sch s) (signal_obj o h (obj s))).
Proof.
  intros Hq Hl Ho0 Hh (d & Hd & Hrep). unfold CoreH_SignalWaitingThreads.
  rewrite (truthy_nz _ Ho0). cbn [negb]. erewrite bind_Ret; [|by apply load_eq].
  erewrite (bind_Ret _ _ _ () (mkK (irq s) (sch s) (signal_obj o h (obj s)))).
  2: { unfold signal_obj, when. destruct (use_signaled h); [|by destruct s].
       unfold set_hdr. by erewrite store_eq. }
  erewrite at_most_dispatch_eq by exact Hq.
  erewrite bind_Ret; [|eapply acquire_quiet; [exact Hq|exact Hl]].
  erewrite bind_Ret; [|by apply get_list_eq]. kstep.
  rewrite (rep_head _ _ _ Hrep). rewrite Nat.add_1_r. simpl.
  erewrite bind_Ret; [|reflexivity].
  erewrite bind_Ret; [|eapply (release_quiet _ (irq s)); done]. done.
Qed.

Lemma clear_signaled_eq s v o h :
  quiet (irq s) v → lock_free (irq s) (WaitableLock o) → o ≠ 0 → hdrs (obj s) !! o = Some h →
  CoreH_ClearSignaledState o s =
    Ret () (if use_signaled h
            then mkK (irq s) (sch s) ((obj s) <| hdrs := <[o := h <| signaled := false |>]> (hdrs (obj s)) |>)
            else s).
Proof.
  intros Hq Hl Ho0 Hh. unfold CoreH_ClearSignaledState. rewrite (truthy_nz _ Ho0). cbn [negb].
  erewrite bind_Ret; [|by apply load_eq]. destruct (use_signaled h); [|done]. cbn [negb].
  erewrite bind_Ret; [|by eapply acquire_quiet]. unfold set_hdr.
  erewrite bind_Ret; [|by eapply store_eq].
  erewrite bind_Ret; [|eapply (release_quiet _ (irq s)); done]. done.
Qed.
End waiting.

(** ** The objects *)

Section objects.
Context {DH : DpcHandlers}.

#[local] Opaque set_level set_ctx.
#[local] Arguments level_up : simpl never.
#[local] Arguments acq_st : simpl never.

(** [C20] Signaling an object wakes its first waiter, or all of them, where each waits
    for one more signal only: each woken thread is ready and queued on a processor its
    affinity allows, with its priority increased by one if a boost was asked for and it
    can be boosted, and else with the priority it had; it leaves the waiting list, and
    no other thread is touched; the run-queue invariant, the interrupt state and the
    other waiters survive. *)
Theorem signal_wakes s v Q o h ws all boost :
  signal_ready s v o → sched_inv (sch s) Q → o ≠ 0 → hdrs (obj s) !! o = Some h →
  waiting_on (sch s) Q o ws →
  ∃ s' Q', CoreH_SignalWaitingThreads o all boost s = Ret OBOS_STATUS_SUCCESS s' ∧
    irq s' = irq s ∧ sched_inv (sch s') Q' ∧
    waiting_on (sch s') Q' o (if all then [] else drop 1 ws) ∧
    (∀ w, w ∈ (if all then ws else take 1 ws) → ∃ thr thr' k,
       threads (sch s) !! w_thr w = Some thr ∧ threads (sch s') !! w_thr w = Some thr' ∧
       status thr' = THREAD_STATUS_READY ∧ masterCPU thr' = Some k ∧ allowed (sch s') (affinity thr) k ∧
       priority thr' = (if boost && bool_decide (boost_refusal thr = None) then priority thr + 1 else priority thr) ∧
       w_snode w ∈ Q' k (priority thr')) ∧
    (∀ t, t ∉ map w_thr (if all then ws else take 1 ws) →
       threads (sch s') !! t = threads (sch s) !! t).
Proof.
  intros Hsr Hinv Ho Hh Hwo.
  destruct (signal_ok s v Q o h ws all boost Hsr Hinv Ho Hh Hwo)
    as (c' & Q' & Hrun & Hinv' & Hc' & Hwo' & Hw & Hoth).
  eexists _, Q'. split; [exact Hrun|]. simpl. split; [done|]. split; [done|]. split; [done|].
  split; [|done]. intros w Hin. destruct (Hw w Hin) as (thr & k & Ht & Ht' & Hal).
  exists thr, (woken boost thr k), k. do 4 (split; [done|]). split; [by unfold allowed; rewrite Hc'|].
  split; [unfold woken, maybe_boosted; change (boost_refusal (notified thr)) with (boost_refusal thr); by destruct (_ && _)|].
  destruct (wo_each _ _ _ _ Hwo w) as (thr0 & [_ Ht0 _ _ _ _ _ (Hsn & _)]).
  { destruct all; [done|]. destruct ws; [done|]. apply list_elem_of_singleton in Hin as ->. left. }
  simplify_eq. rewrite <- Hsn.
  by destruct (si_thread _ _ Hinv' _ _ _ Ht' eq_refl) as [Hq _].
Qed.

(** *** Mutexes *)

Definition put_mutex (m : Z) (x : mutex) (s : kst) : kst :=
  mkK (irq s) (sch s) ((obj s) <| mutexes := <[m := x]> (mutexes (obj s)) |>).

Lemma set_mutex_eq s m f x :
  mutexes (obj s) !! m = Some x → set_mutex m f s = Ret () (put_mutex m (f x) s).
Proof. intros H. unfold set_mutex. by erewrite store_eq. Qed.

Lemma put_mutex_twice m x y s : put_mutex m x (put_mutex m y s) = put_mutex m x s.
Proof. unfold put_mutex. simpl. by rewrite insert_insert_eq. Qed.

Lemma test_and_set_eq s m x :
  mutexes (obj s) !! m = Some x →
  test_and_set m s = Ret (mutex_lock x) (put_mutex m (x <| mutex_lock := true |>) s).
Proof.
  intros Hx. unfold test_and_set, get_mutex. erewrite bind_Ret; [|by apply load_eq].
  erewrite bind_Ret; [|by eapply set_mutex_eq]. done.
Qed.

(** A quiet processor's excursion to [IRQL_DISPATCH] and back. *)
Lemma lower_if_up s i v :
  quiet i v → irq s = level_up i → lower_if v s = Ret () (s <| irq := i |>).
Proof.
  intros Hq Hi. pose proof Hq as [[Hv Hc Hr H1 _] Hle _ _]. unfold lower_if.
  rewrite (proj2 (Z.eqb_neq v IRQL_INVALID)) by (unfold IRQL_INVALID; lia).
  rewrite when_true by done. pose proof (level_up_quiet _ _ Hq) as [Hwf2 _ Hd2 _].
  erewrite Core_LowerIrql_eq; [| |unfold IRQL_DISPATCH in *; split; [apply Hr|exact Hle]|done|]; rewrite ?Hi; try done.
  simpl. by rewrite Hi, level_up_down.
Qed.

Lemma mutex_acquire_free s v m x cur :
  quiet (irq s) v → m ≠ 0 → thread_of (irq s) = Some cur → mutexes (obj s) !! m = Some x →
  mutex_lock x = false → ignoreAllAndBlowUp x = false → who x ≠ cur →
  Core_MutexAcquire m s = Ret OBOS_STATUS_SUCCESS (put_mutex m (mkMutex true true false cur) s).
Proof.
  intros Hq Hm Hcur Hx Hfree Hblow Hwho. pose proof Hq as [Hwf Hle _ _].
  unfold Core_MutexAcquire. rewrite (truthy_nz _ Hm). cbn [negb].
  erewrite at_most_dispatch_eq by done. unfold get_mutex.
  erewrite bind_Ret; [|by apply load_eq]. erewrite bind_Ret; [|by apply Core_GetCurrentThread_eq].
  erewrite bind_Ret; [|apply assert_eq, negb_true_iff, Z.eqb_neq; exact Hwho].
  erewrite bind_Ret.
  2: { eapply Core_RaiseIrql_eq; [done| |done]. destruct Hwf. unfold IRQL_DISPATCH in *. lia. }
  change (set_ctx IRQL_DISPATCH (set_level IRQL_DISPATCH (irq s))) with (level_up (irq s)).
  cbn [mutex_spin].
  erewrite bind_Ret.
  2: { erewrite bind_Ret; [|by eapply test_and_set_eq]. rewrite Hfree. reflexivity. }
  cbv iota beta.
  erewrite bind_Ret; [|apply load_eq; simpl; apply lookup_insert_eq]. simpl. rewrite Hblow.
  erewrite bind_Ret; [|by apply (lower_if_up _ (irq s))]. simpl.
  erewrite bind_Ret; [|by apply Core_GetCurrentThread_eq].
  erewrite bind_Ret; [|eapply set_mutex_eq; simpl; apply lookup_insert_eq].
  erewrite bind_Ret; [|eapply set_mutex_eq; simpl; apply lookup_insert_eq].
  unfold put_mutex, mret, K_ret. simpl. rewrite !insert_insert_eq, ?Hblow. done.
Qed.

Lemma mutex_release_idle s v m x cur h :
  quiet (irq s) v → m ≠ 0 → thread_of (irq s) = Some cur → mutexes (obj s) !! m = Some x →
  mutex_locked x = true → who x = cur →
  lock_free (irq s) (WaitableLock m) → hdrs (obj s) !! m = Some h → use_signaled h = false →
  tl_rep (sch s) (WaitingList m) [] →
  Core_MutexRelease m s =
    Ret OBOS_STATUS_SUCCESS (put_mutex m (mkMutex false true (ignoreAllAndBlowUp x) nullptr) s).
Proof.
  intros Hq Hm Hcur Hx Hlk Hwho Hl Hh Hus Hw. unfold Core_MutexRelease, get_mutex.
  rewrite (truthy_nz _ Hm). cbn [negb]. erewrite bind_Ret; [|by apply load_eq]. rewrite Hlk. cbn [negb].
  erewrite bind_Ret; [|by apply Core_GetCurrentThread_eq]. rewrite Hwho, Z.eqb_refl. cbn [negb].
  erewrite bind_Ret; [|by eapply set_mutex_eq].
  erewrite bind_Ret; [|eapply set_mutex_eq; simpl; apply lookup_insert_eq]. rewrite put_mutex_twice.
  erewrite bind_Ret; [|by eapply signal_empty]. unfold signal_obj. rewrite Hus. cbn.
  by rewrite Hlk.
Qed.

(** A mutex without waiters can be taken and given back for ever: the current
    thread becomes its owner, releasing clears owner and flag and changes
    nothing else, and the mutex can be acquired again, by any thread. *)
Theorem mutex_cycle s v m x cur h :
  quiet (irq s) v → m ≠ 0 → thread_of (irq s) = Some cur → cur ≠ 0 → mutexes (obj s) !! m = Some x →
  mutex_lock x = false → ignoreAllAndBlowUp x = false → who x = nullptr →
  lock_free (irq s) (WaitableLock m) → hdrs (obj s) !! m = Some h → use_signaled h = false →
  tl_rep (sch s) (WaitingList m) [] →
  ∃ s1 s2, Core_MutexAcquire m s = Ret OBOS_STATUS_SUCCESS s1 ∧
    mutexes (obj s1) !! m = Some (mkMutex true true false cur) ∧
    Core_MutexRelease m s1 = Ret OBOS_STATUS_SUCCESS s2 ∧
    s2 = put_mutex m (mkMutex false true false nullptr) s ∧
    Core_MutexAcquire m s2 = Ret OBOS_STATUS_SUCCESS s1.
Proof.
  intros Hq Hm Hcur Hc0 Hx Hf Hb Hw Hl Hh Hu Hr.
  eexists _, _. split; [eapply mutex_acquire_free; try done; congruence|].
  split; [apply lookup_insert_eq|]. split; [|split].
  - eapply (mutex_release_idle _ v _ (mkMutex true true false cur) cur h); simpl; try done. apply lookup_insert_eq.
  - by rewrite put_mutex_twice.
  - erewrite (mutex_acquire_free _ v _ (mkMutex false true false nullptr) cur); simpl; try done;
      [|apply lookup_insert_eq]. by rewrite !put_mutex_twice.
Qed.

(** Releasing a mutex does not make [Core_MutexTryAcquire] succeed again: the
    [locked] member stays set after the first acquisition, so every later try
    reports the mutex as in use although it is free. *)
Theorem mutex_try_after_release s v m x cur h :
  quiet (irq s) v → m ≠ 0 → thread_of (irq s) = Some cur → cur ≠ 0 → mutexes (obj s) !! m = Some x →
  mutex_lock x = false → ignoreAllAndBlowUp x = false → who x = nullptr →
  lock_free (irq s) (WaitableLock m) → hdrs (obj s) !! m = Some h → use_signaled h = false →
  tl_rep (sch s) (WaitingList m) [] →
  ∃ s2, (Core_MutexAcquire m;; Core_MutexRelease m) s = Ret OBOS_STATUS_SUCCESS s2 ∧
    Core_MutexTryAcquire m s2 = Ret OBOS_STATUS_IN_USE s2 ∧ Core_MutexAcquired m s2 = Ret true s2.
Proof.
  intros Hq Hm Hcur Hc0 Hx Hf Hb Hw Hl Hh Hu Hr. eexists. split; [|split].
  - erewrite bind_Ret; [|eapply mutex_acquire_free; try done; congruence].
    eapply (mutex_release_idle _ v _ (mkMutex true true false cur) cur h); simpl; try done. apply lookup_insert_eq.
  - unfold Core_MutexTryAcquire, get_mutex. rewrite (truthy_nz _ Hm). cbn [negb].
    erewrite bind_Ret; [|apply load_eq; simpl; apply lookup_insert_eq]. done.
  - unfold Core_MutexAcquired, get_mutex. rewrite (truthy_nz _ Hm). cbn [negb].
    erewrite bind_Ret; [|apply load_eq; simpl; apply lookup_insert_eq]. done.
Qed.

(** Only the owner releases a mutex: anybody else is denied and nothing
    changes. *)
Theorem mutex_release_denied s m x cur :
  m ≠ 0 → thread_of (irq s) = Some cur → mutexes (obj s) !! m = Some x →
  mutex_locked x = true → who x ≠ cur →
  Core_MutexRelease m s = Ret OBOS_STATUS_ACCESS_DENIED s.
Proof.
  intros Hm Hcur Hx Hlk Hwho. unfold Core_MutexRelease, get_mutex.
  rewrite (truthy_nz _ Hm). cbn [negb]. erewrite bind_Ret; [|by apply load_eq]. rewrite Hlk. cbn [negb].
  erewrite bind_Ret; [|by apply Core_GetCurrentThread_eq].
  by rewrite (proj2 (Z.eqb_neq _ _) Hwho).
Qed.

(** Acquiring a taken mutex does not spin: although the code counts down from
    100000, the loop gives up after its first round, for every start value that
    is not negative. *)
Theorem mutex_spin_gives_up s m x spin fuel :
  mutexes (obj s) !! m = Some x → mutex_lock x = true → ignoreAllAndBlowUp x = false →
  0 <= spin → mutex_spin (S fuel) m spin true s = Ret (Some false) s.
Proof.
  intros Hx Hl Hb Hs.
  assert (put_mutex m (x <| mutex_lock := true |>) s = s) as Hid.
  { unfold put_mutex. rewrite insert_id; [by destruct s as [? ? []]|]. by destruct x; simpl in *; subst. }
  cbn [mutex_spin]. erewrite bind_Ret; [|by eapply test_and_set_eq]. rewrite Hid, Hl. cbn [andb negb].
  unfold get_mutex. erewrite bind_Ret; [|by apply load_eq]. rewrite Hb, (proj2 (Z.leb_le _ _)) by done.
  destruct fuel as [|fuel]; cbn [mutex_spin]; (erewrite bind_Ret; [|by eapply test_and_set_eq]);
    rewrite Hid, Hl; done.
Qed.

(** *** Semaphores *)

Definition put_sem (o n : Z) (s : kst) : kst :=
  mkK (irq s) (sch s) ((obj s) <| semaphores := <[o := n]> (semaphores (obj s)) |>).

Lemma semaphore_acquire_pos s v o n :
  quiet (irq s) v → lock_free (irq s) (SemaphoreLock o) → o ≠ 0 →
  semaphores (obj s) !! o = Some n → 0 < n < 2 ^ 64 →
  Core_SemaphoreAcquire o s = Ret OBOS_STATUS_SUCCESS (put_sem o (n - 1) s).
Proof.
  intros Hq Hl Ho Hn Hr. unfold Core_SemaphoreAcquire. rewrite (truthy_nz _ Ho). cbn [negb].
  erewrite at_most_dispatch_eq by done. erewrite bind_Ret; [|by eapply acquire_quiet].
  unfold get_sem, set_sem. erewrite bind_Ret; [|by apply load_eq].
  rewrite truthy_nz by lia. erewrite bind_Ret; [|by eapply store_eq].
  erewrite bind_Ret; [|eapply (release_quiet _ (irq s)); done].
  unfold put_sem, mret, K_ret. simpl. rewrite wrap_small by (unfold in_u; lia). done.
Qed.

(** A semaphore counts: with no waiters a release adds one and an acquire takes
    one, so that releasing and acquiring is the identity, and a try on an empty
    semaphore is refused without effect. *)
Theorem semaphore_counts s v o n h :
  quiet (irq s) v → lock_free (irq s) (SemaphoreLock o) → lock_free (irq s) (WaitableLock o) →
  o ≠ 0 → semaphores (obj s) !! o = Some n → 0 <= n → n + 1 < 2 ^ 64 →
  hdrs (obj s) !! o = Some h → use_signaled h = false → tl_rep (sch s) (WaitingList o) [] →
  Core_SemaphoreRelease o s = Ret OBOS_STATUS_SUCCESS (put_sem o (n + 1) s) ∧
  Core_SemaphoreAcquire o (put_sem o (n + 1) s) = Ret OBOS_STATUS_SUCCESS s ∧
  (0 < n → Core_SemaphoreTryAcquire o s = Ret OBOS_STATUS_SUCCESS (put_sem o (n - 1) s)) ∧
  (n = 0 → Core_SemaphoreTryAcquire o s = Ret OBOS_STATUS_IN_USE s).
Proof.
  intros Hq Hls Hlw Ho Hn H0 Hmax Hh Hu Hr.
  split; [|split; [|split]].
  - unfold Core_SemaphoreRelease, set_sem. rewrite (truthy_nz _ Ho). cbn [negb].
    erewrite bind_Ret; [|by eapply store_eq].
    erewrite bind_Ret; [|by eapply signal_empty]. unfold signal_obj. rewrite Hu.
    erewrite bind_Ret; [|by eapply clear_signaled_eq]. rewrite Hu.
    unfold put_sem, mret, K_ret. simpl. rewrite wrap_small by (unfold in_u; lia). done.
  - erewrite (semaphore_acquire_pos _ v _ (n + 1)); simpl; try done; [|apply lookup_insert_eq|lia].
    unfold put_sem. simpl. rewrite insert_insert_eq, insert_id by (rewrite Hn; f_equal; lia).
    by destruct s as [? ? []].
  - intros Hpos. unfold Core_SemaphoreTryAcquire, get_sem. rewrite (truthy_nz _ Ho). cbn [negb].
    erewrite bind_Ret; [|by apply load_eq]. rewrite truthy_nz by lia. cbn [negb].
    eapply semaphore_acquire_pos; try done. lia.
  - intros ->. unfold Core_SemaphoreTryAcquire, get_sem. rewrite (truthy_nz _ Ho). cbn [negb].
    erewrite bind_Ret; [|by apply load_eq]. done.
Qed.

(** *** Events *)

Definition put_event (e : Z) (x : event) (h : waitable_header) (s : kst) : kst :=
  mkK (irq s) (sch s) ((obj s) <| hdrs := <[e := h]> (hdrs (obj s)) |>
                               <| events := <[e := x]> (events (obj s)) |>).

(** A set event lets every wait through until it is reset: after
    [Core_EventSet] (nobody waiting) the state reads true and waiting returns at
    once without effect; [Core_EventReset] makes it read false and takes the
    header's flag back, restoring the object. *)
Theorem event_set_reset s v e x h boost :
  quiet (irq s) v → lock_free (irq s) (WaitableLock e) → e ≠ 0 →
  events (obj s) !! e = Some x → event_signaled x = false →
  hdrs (obj s) !! e = Some h → use_signaled h = true → signaled h = false →
  tl_rep (sch s) (WaitingList e) [] →
  let s1 := put_event e (x <| event_signaled := true |>) (h <| signaled := true |>) s in
  Core_EventSet e boost s = Ret OBOS_STATUS_SUCCESS s1 ∧ Core_EventGetState e s1 = Ret true s1 ∧
  Core_WaitOnObject e s1 = Ret OBOS_STATUS_SUCCESS s1 ∧
  Core_EventReset e s1 = Ret OBOS_STATUS_SUCCESS s ∧ Core_EventGetState e s = Ret false s.
Proof.
  intros Hq Hl He Hx Hxs Hh Hu Hs Hr s1.
  assert (events (obj s1) !! e = Some (x <| event_signaled := true |>)) as Hx1 by apply lookup_insert_eq.
  assert (hdrs (obj s1) !! e = Some (h <| signaled := true |>)) as Hh1 by apply lookup_insert_eq.
  split; [|split; [|split; [|split]]].
  - unfold Core_EventSet, get_event, set_event. rewrite (truthy_nz _ He). cbn [negb].
    erewrite bind_Ret; [|by apply load_eq]. erewrite bind_Ret; [|by eapply signal_empty].
    unfold signal_obj. rewrite Hu. erewrite bind_Ret; [|by eapply store_eq]. done.
  - unfold Core_EventGetState, get_event. rewrite (truthy_nz _ He). cbn [negb].
    erewrite bind_Ret; [|by apply load_eq]. done.
  - eapply wait_signaled; try done.
  - unfold Core_EventReset, set_event. rewrite (truthy_nz _ He). cbn [negb].
    erewrite bind_Ret; [|by eapply store_eq].
    erewrite bind_Ret; [|by eapply clear_signaled_eq]. simpl. rewrite Hu.
    unfold mret, K_ret. simpl. rewrite !insert_insert_eq, !insert_id; [by destruct s as [? ? []]| |].
    + rewrite Hx. by destruct x; simpl in *; subst.
    + rewrite Hh. by destruct h; simpl in *; subst.
  - unfold Core_EventGetState, get_event. rewrite (truthy_nz _ He). cbn [negb].
    erewrite bind_Ret; [|by apply load_eq]. unfold mret, K_ret. by rewrite Hxs.
Qed.

(** A pulse is not undone in the header: after [Core_EventPulse] with nobody
    waiting the event reads unsignaled, yet waits on it return immediately. *)
Theorem event_pulse_sticks s v e x h boost :
  quiet (irq s) v → lock_free (irq s) (WaitableLock e) → e ≠ 0 →
  events (obj s) !! e = Some x → hdrs (obj s) !! e = Some h → use_signaled h = true →
  tl_rep (sch s) (WaitingList e) [] →
  let s1 := put_event e (x <| event_signaled := false |>) (h <| signaled := true |>) s in
  Core_EventPulse e boost s = Ret OBOS_STATUS_SUCCESS s1 ∧
  Core_EventGetState e s1 = Ret false s1 ∧ Core_WaitOnObject e s1 = Ret OBOS_STATUS_SUCCESS s1.
Proof.
  intros Hq Hl He Hx Hh Hu Hr s1.
  assert (events (obj s1) !! e = Some (x <| event_signaled := false |>)) as Hx1 by apply lookup_insert_eq.
  assert (hdrs (obj s1) !! e = Some (h <| signaled := true |>)) as Hh1 by apply lookup_insert_eq.
  split; [|split].
  - pose proof Hq as [Hwf Hle _ _]. pose proof (level_up_quiet _ _ Hq) as Hq2.
    assert (lock_free (level_up (irq s)) (WaitableLock e)) as Hl2
      by (unfold lock_free; by rewrite level_up_locks).
    assert ((set_event e (λ x, x <| event_signaled := false |>);; Core_LowerIrql v;; mret OBOS_STATUS_SUCCESS)
      (mkK (level_up (irq s)) (sch s) (signal_obj e h
         ((obj s) <| events := <[e := x <| event_signaled := true |>]> (events (obj s)) |>))) =
      Ret OBOS_STATUS_SUCCESS s1) as Hend.
    { unfold set_event, signal_obj. rewrite Hu.
      erewrite bind_Ret; [|eapply store_eq; simpl; apply lookup_insert_eq]. simpl.
      erewrite bind_Ret; [|eapply Core_LowerIrql_eq; [apply Hq2| |apply Hwf|apply Hq2];
        destruct Hwf; unfold IRQL_DISPATCH in *; lia].
      simpl. rewrite level_up_down by done. by rewrite insert_insert_eq. }
    unfold Core_EventPulse, get_event. rewrite (truthy_nz _ He). cbn [negb].
    erewrite bind_Ret.
    2: { eapply Core_RaiseIrql_eq; [done| |done]. destruct Hwf. unfold IRQL_DISPATCH in *. lia. }
    change (set_ctx IRQL_DISPATCH (set_level IRQL_DISPATCH (irq s))) with (level_up (irq s)).
    unfold set_event at 1. erewrite bind_Ret; [|by eapply store_eq].
    erewrite bind_Ret; [|apply load_eq; simpl; apply lookup_insert_eq].
    destruct (bool_decide _); (erewrite bind_Ret; [|eapply (signal_empty _ IRQL_DISPATCH); [exact Hq2|exact Hl2|done|done|done]]); exact Hend.
  - unfold Core_EventGetState, get_event. rewrite (truthy_nz _ He). cbn [negb].
    erewrite bind_Ret; [|by apply load_eq]. done.
  - eapply wait_signaled; try done.
Qed.
End objects.

(** ** Blocking on an object *)

(** The invariant of the scheduler once the current thread was taken off its
    queue. *)
Lemma switch_inv_parked c k cur Q c' Q' thr thr' :
  switch_inv c k cur Q → threads c !! cur = Some thr → masterCPU thr = Some k →
  (∀ x, cpus c !! k = Some x → idleThread x ≠ cur) →
  sched_inv c' Q' → cpus c' = cpus c → procs c' = procs c → threads c' = <[cur := thr']> (threads c) →
  masterCPU thr' = None → status thr' = THREAD_STATUS_BLOCKED → proc thr' = proc thr →
  has_flag (flags thr') THREAD_FLAGS_PRIORITY_RAISED = false →
  snode thr' = snode thr → tlinks c' !! snode thr = Some unlinked →
  switch_inv c' k cur Q'.
Proof.
  intros [Hinv (x & Hx & Hok & thr0 & Hidle & Hm0) Hth Hal Hpr Hcur] Ht Hm Hni Hinv' Ec Ep Et Hm' Hst' Hp' Hfl' Hs' Hlk.
  split.
  - done.
  - exists x. rewrite Ec, Et. split; [done|]. split; [done|]. exists thr0.
    rewrite lookup_insert_ne; [done|]. intros E. by eapply Hni.
  - intros t thr1. rewrite Et. destruct (decide (cur = t)) as [<-|].
    + rewrite lookup_insert_eq. intros [= <-] ?. congruence.
    + rewrite lookup_insert_ne by done. apply Hth.
  - intros t thr1. rewrite Et. unfold allowed. rewrite Ec. destruct (decide (cur = t)) as [<-|].
    + rewrite lookup_insert_eq. intros [= <-] ?. congruence.
    + rewrite lookup_insert_ne by done. apply Hal.
  - intros t thr1. rewrite Et, Ep. destruct (decide (cur = t)) as [<-|].
    + rewrite lookup_insert_eq. intros [= <-]. rewrite Hp'. by apply (Hpr cur).
    + rewrite lookup_insert_ne by done. apply Hpr.
  - intros _. exists thr'. rewrite Et, lookup_insert_eq. split; [done|]. right. rewrite Hs'.
    split_and!; try done. intros t thr1. rewrite Et. destruct (decide (cur = t)) as [<-|Hne].
    + rewrite lookup_insert_eq. intros [= <-] [? ?]. congruence.
    + rewrite lookup_insert_ne by done. intros Ht1 [k1 Hk1] E.
      destruct (si_thread _ _ Hinv _ _ _ Ht1 Hk1) as (_ & n1 & Hn1 & Hd1).
      destruct (si_thread _ _ Hinv _ _ _ Ht Hm) as (_ & n2 & Hn2 & Hd2). congruence.
Qed.

Section blocking.
Context {DH : DpcHandlers}.

#[local] Opaque set_level set_ctx.
#[local] Arguments level_up : simpl never.
#[local] Arguments acq_st : simpl never.
#[local] Arguments Core_Yield : simpl never.

(** What waiting needs: a running thread that is not the idle one, its own wait
    node unlinked, an object that is not signaled, and free locks. *)
Record may_wait (s : kst) (v : Z) (k : nat) (cur : Z) (thr : thread) (Q : queues)
    (o : Z) (xs : list Z) : Prop := {
  mw_quiet : quiet (irq s) v;
  mw_this : this_cpu (irq s) = Some k;
  mw_cur : currentThread (irq s) !! k = Some cur;
  mw_nonnull : cur ≠ 0 ∧ o ≠ 0 ∧ lock_node thr ≠ 0;
  mw_locks : sched_unlocked (irq s) (length (cpus (sch s))) ∧
    lock_free (irq s) (WaitableLock o) ∧ lock_free (irq s) (ThreadListLock (WaitingList o));
  mw_inv : switch_inv (sch s) k cur Q;
  mw_ctx : ctx_ok s k;
  mw_thread : threads (sch s) !! cur = Some thr ∧ masterCPU thr = Some k;
  mw_idle x : cpus (sch s) !! k = Some x → idleThread x ≠ cur;
  mw_hdr : ∃ h, hdrs (obj s) !! o = Some h ∧ signaled h && use_signaled h = false;
  mw_list : tl_rep (sch s) (WaitingList o) xs;
  mw_node : is_Some (tnodes (sch s) !! lock_node thr) ∧ tlinks (sch s) !! lock_node thr = Some unlinked;
  mw_apart y k p : y ∈ lock_node thr :: xs → y ∉ Q k p;
  mw_fresh : lock_node thr ∉ xs
}.

Definition enlisted (thr : thread) : thread := thr <| nSignaled := 0 |> <| nWaiting := 1 |>.

(** The scheduler state once the thread is on the list of [o]. *)
Definition enlist (c : sched_st) (cur : Z) (thr : thread) (o : Z) (d : dlist) (h : lheap) : sched_st :=
  with_list (WaitingList o) d h
    (c <| threads := <[cur := enlisted thr]> (threads c) |>
       <| tnodes ::= alter (λ n, n <| tn_data := cur |>) (lock_node thr) |>).

Lemma enlist_inv c Q cur thr o d h xs :
  sched_inv c Q → threads c !! cur = Some thr → (∀ k p, lock_node thr ∉ Q k p) →
  (∀ y k p, y ∈ xs → y ∉ Q k p) → links_frame (lock_node thr :: xs) (tlinks c) h →
  sched_inv (enlist c cur thr o d h) Q.
Proof.
  intros Hinv Ht Hln Hxs Hf. unfold enlist. eapply sched_inv_other_list; [|done|exact Hf|].
  2: { intros x k p [->|Hx]%elem_of_cons; [done|by apply Hxs]. }
  pose proof (sched_inv_fields c (c <| threads := <[cur := enlisted thr]> (threads c) |>) Q cur thr (enlisted thr)
    Hinv Ht) as H. destruct H as [Hrep Hdom Hnode Hthr Hcnt Hroom]; try done.
  assert (∀ x k p, x ∈ Q k p → lock_node thr ≠ x) as Hne by (intros x k p Hx <-; by eapply Hln).
  split; simpl; try done.
  - intros k p x Hx. rewrite lookup_alter_ne by (by eapply Hne). by apply Hnode.
  - intros t thr1 k Ht1 Hm1. destruct (Hthr t thr1 k Ht1 Hm1) as (Hin & n & Hn & Hd). split; [done|].
    exists n. rewrite lookup_alter_ne by (by eapply Hne). done.
Qed.

(** Entering the list, up to the test before blocking. *)
Lemma wait_enlist s v k cur thr Q o xs :
  may_wait s v k cur thr Q o xs →
  ∃ h d, dl_rep h d (xs ++ [lock_node thr]) ∧
    links_frame (lock_node thr :: xs) (tlinks (sch s)) h ∧
    let s1 := mkK (level_up (irq s)) (enlist (sch s) cur thr o d h) (obj s) in
    Core_WaitOnObject o s = (CoreH_ThreadBlock cur true;; Core_LowerIrql v;; mret OBOS_STATUS_SUCCESS) s1.
Proof.
  intros [Hq Hthis Hcur (Hc0 & Ho0 & Hl0) (Hsu & Hlo & Hll) Hsw Hctx [Ht Hm] Hni (h0 & Hh & Hsg) Hlist ([n Hn] & Hlk) Hap Hfr].
  set (i := irq s) in *. pose proof (level_up_quiet _ _ Hq) as Hq2.
  set (iA := acq_st (level_up i) (WaitableLock o)).
  assert (thread_of i = Some cur) as Htc by (unfold thread_of; by rewrite Hthis).
  set (c1 := (sch s) <| threads := <[cur := enlisted thr]> (threads (sch s)) |>
       <| tnodes ::= alter (λ n, n <| tn_data := cur |>) (lock_node thr) |>).
  destruct (ThreadListAppend_ok (mkK iA c1 (obj s)) IRQL_DISPATCH (WaitingList o) xs (lock_node thr))
    as (h & d & Happ & Hrep & Hf).
  { by eapply acq_st_quiet. }
  { apply lock_free_upd; [done|]. unfold lock_free. by rewrite level_up_locks. }
  { done. }
  { split; simpl; try done.
    - exists (n <| tn_data := cur |>). by rewrite lookup_alter_eq, Hn.
    - by exists unlinked.
    - destruct Hlist as (d0 & _ & [Hnd _ _ _ _ Hseg]). pose proof (seg_size _ _ _ _ Hseg Hnd).
      pose proof (si_room _ _ (sw_inv _ _ _ _ Hsw)). lia. }
  exists h, d. split; [done|]. split; [done|].
  unfold Core_WaitOnObject. rewrite (truthy_nz _ Ho0). cbn [negb].
  erewrite (wait_enter s v) by done. fold i. fold iA.
  erewrite bind_Ret; [|unfold is_signaled; erewrite bind_Ret; [|by apply load_eq]; reflexivity].
  rewrite Hsg. cbv iota.
  erewrite bind_Ret.
  2: { apply Core_GetCurrentThread_eq. etrans; [apply (acq_st_thread (level_up i))|].
       by rewrite level_up_thread. }
  erewrite bind_Ret; [|by eapply set_thread_eq]. simpl.
  erewrite bind_Ret; [|eapply set_thread_eq; simpl; apply lookup_insert_eq]. simpl.
  rewrite insert_insert_eq.
  erewrite bind_Ret; [|apply get_thread_eq; simpl; apply lookup_insert_eq]. simpl.
  erewrite (bind_Ret _ _ _ () (mkK iA c1 (obj s))).
  2: { erewrite set_node_eq by exact Hn. unfold c1. simpl.
       by erewrite alter_insert_eq by exact Hn. }
  erewrite bind_Ret; [|exact Happ]. change (obos_is_error OBOS_STATUS_SUCCESS) with false. cbv iota.
  pose proof (acq_st_dispatch _ (WaitableLock o) Hq2) as Hacq.
  assert (locks iA !! WaitableLock o = Some (held (level_up i) false)) as Hheld
    by (unfold iA; rewrite Hacq; apply lookup_insert_eq).
  erewrite bind_Ret; [|eapply release_invalid; exact Hheld].
  assert (iA <| locks := <[WaitableLock o := Core_SpinlockCreate]> (locks iA) |> = level_up i) as HiA.
  { unfold iA. rewrite Hacq. simpl. rewrite insert_insert_eq, insert_id by (by rewrite level_up_locks).
    by destruct (level_up i). }
  erewrite (bind_Ret (is_signaled o) _ _ false (mkK (level_up i) (enlist (sch s) cur thr o d h) (obj s))).
  2: { rewrite <- HiA. unfold is_signaled. erewrite bind_Ret; [|by apply load_eq]. by rewrite Hsg. }
  done.
Qed.

Lemma level_up_ctx_ok s k c o v :
  quiet (irq s) v → ctx_ok (mkK (irq s) c o) k → ctx_ok (mkK (level_up (irq s)) c o) k.
Proof.
  intros Hq Hctx t thr Ht Hm. destruct (Hctx t thr Ht Hm) as (w & Hw & Hww). simpl in *.
  destruct (wf_thread _ _ (q_wf _ _ Hq)) as (t0 & Hto & _).
  unfold level_up. rewrite (set_ctx_eq _ _ t0) by (by rewrite set_level_thread).
  destruct (truthy t0); [|exists w; by rewrite set_level_ctx_irql].
  simpl. rewrite set_level_ctx_irql. destruct (decide (t0 = t)) as [->|].
  - exists IRQL_DISPATCH. rewrite lookup_insert_eq. split; [done|by right].
  - exists w. by rewrite lookup_insert_ne.
Qed.

(** Blocking the enlisted thread and leaving the processor. *)
Lemma wait_park s v k cur thr Q o xs d h :
  may_wait s v k cur thr Q o xs →
  dl_rep h d (xs ++ [lock_node thr]) → links_frame (lock_node thr :: xs) (tlinks (sch s)) h →
  let s1 := mkK (level_up (irq s)) (enlist (sch s) cur thr o d h) (obj s) in
  ∃ c2 Q2, thread_block_locked cur (enlisted thr) k s1 = Ret () (mkK (level_up (irq s)) c2 (obj s)) ∧
    switch_inv c2 k cur Q2 ∧ threads c2 = <[cur := blocked (enlisted thr)]> (threads (sch s)) ∧
    cpus c2 = cpus (sch s) ∧ tl_rep c2 (WaitingList o) (xs ++ [lock_node thr]) ∧
    (∀ x k p, x ∈ xs ++ [lock_node thr] → x ∉ Q2 k p).
Proof.
  intros [Hq Hthis Hcur (Hc0 & Ho0 & Hl0) (Hsu & Hlo & Hll) Hsw Hctx [Ht Hm] Hni _ Hlist ([n Hn] & Hlk) Hap Hfr]
    Hrep Hf s1.
  pose proof (level_up_quiet _ _ Hq) as Hq2. pose proof (sw_inv _ _ _ _ Hsw) as Hinv.
  assert (sched_inv (sch s1) Q) as Hinv1.
  { eapply (enlist_inv _ _ _ _ _ _ _ xs); [done|done| | |exact Hf].
    - intros k' p. apply Hap. left.
    - intros y k' p Hy. apply Hap. by right. }
  assert (threads (sch s1) !! cur = Some (enlisted thr)) as Ht1 by apply lookup_insert_eq.
  destruct (thread_block_locked_full s1 IRQL_DISPATCH Q cur (enlisted thr) k)
    as (l1 & l2 & h2 & d2 & HQ & Hrun & Hinv2 & Hun & Hf2); try done.
  { destruct Hsu; split; unfold lock_free in *; simpl; by rewrite level_up_locks. }
  eexists _, _. split; [exact Hrun|].
  assert (∀ x, x ∈ xs ++ [lock_node thr] → x ∈ lock_node thr :: xs) as Hsub
    by (intros x [?| ->%list_elem_of_singleton]%elem_of_app; [by right|left]).
  split; [|split; [|split; [done|split]]].
  - eapply (switch_inv_parked (sch s) k cur Q _ _ thr (blocked (enlisted thr))); try done.
    + simpl. by rewrite insert_insert_eq.
    + simpl. apply raised_cleared.
  - simpl. by rewrite insert_insert_eq.
  - eapply (tl_rep_with_list (enlist (sch s) cur thr o d h)); [by exists d; split; [apply lookup_insert_eq|]|done|exact Hf2|].
    intros x Hx. apply Hap. by apply Hsub.
  - intros x k' p Hx. unfold q_set. case_decide as E; [|by apply Hap, Hsub].
    destruct E as [-> ->]. intros Hin. eapply (Hap x k (priority thr)); [by apply Hsub|].
    simpl in HQ. rewrite HQ. apply elem_of_app in Hin as [?|?]; apply elem_of_app; [by left|right; by right].
Qed.

(** [C19] Waiting on an object that is not signaled blocks: the thread's node goes to
    the back of the object's list, the thread leaves its run queue and the
    processor switches to another thread, all scheduler invariants holding; when
    the thread is resumed the wait returns success at the level it started
    from. *)
Theorem wait_blocks s v k cur thr Q o xs :
  may_wait s v k cur thr Q o xs →
  ∃ s' r t Q', Core_WaitOnObject o s = Yielded s' r ∧
    currentThread (irq s') !! k = Some t ∧ t ≠ cur ∧ switch_inv (sch s') k t Q' ∧
    tl_rep (sch s') (WaitingList o) (xs ++ [lock_node thr]) ∧
    (∃ thr', threads (sch s') !! cur = Some thr' ∧ status thr' = THREAD_STATUS_BLOCKED ∧
       masterCPU thr' = None ∧ snode thr' = snode thr) ∧
    ∀ s'', quiet (irq s'') IRQL_DISPATCH →
      r s'' = Ret OBOS_STATUS_SUCCESS (s'' <| irq ::= λ i, set_ctx v (set_level v i) |>).
Proof.
  intros Hmw. destruct (wait_enlist s v k cur thr Q o xs Hmw) as (h & d & Hrep & Hf & Hrun).
  destruct (wait_park s v k cur thr Q o xs d h Hmw Hrep Hf) as (c2 & Q2 & Hblk & Hsw2 & Hth2 & Hc2 & Hl2 & Hap2).
  pose proof Hmw as [Hq Hthis Hcur (Hc0 & Ho0 & Hl0) (Hsu & Hlo & Hll) Hsw Hctx [Ht Hm] Hni _ Hlist _ Hap Hfr].
  pose proof (level_up_quiet _ _ Hq) as Hq2.
  destruct (sw_cpu _ _ _ _ Hsw) as (x & Hx & _).
  destruct (queued_split _ _ _ _ _ (sw_inv _ _ _ _ Hsw) Ht Hm) as (_ & Hp & _).
  assert (thread_of (irq s) = Some cur) as Htc by (unfold thread_of; by rewrite Hthis).
  set (s2 := mkK (level_up (irq s)) c2 (obj s)).
  destruct (yield_switches_ok s2 IRQL_DISPATCH k cur (blocked (enlisted thr)) x Q2)
    as (c3 & Q3 & s' & r & t & thr3 & Hev & Ht3 & Hm3 & Hy & Hcur' & Hths & Hlss & Htls & _ & Hsws & Hres); simpl; try done.
  { by rewrite level_up_this. }
  { by rewrite level_up_current. }
  { by rewrite Hth2, lookup_insert_eq. }
  { by rewrite Hc2. }
  { rewrite Hc2. destruct Hsu; split; unfold lock_free in *; by rewrite level_up_locks. }
  { apply (level_up_ctx_ok s k c2 (obj s) v Hq). intros t1 thr1 Ht1 Hm1. simpl in *. rewrite Hth2 in Ht1.
    destruct (decide (cur = t1)) as [<-|]; [rewrite lookup_insert_eq in Ht1; by simplify_eq|].
    rewrite lookup_insert_ne in Ht1 by done. by eapply Hctx. }
  { by left. }
  assert (threads c3 !! cur ≠ None ∧ ∀ thr4, threads c3 !! cur = Some thr4 → status thr4 = THREAD_STATUS_BLOCKED ∧
    masterCPU thr4 = None ∧ snode thr4 = snode thr) as [Hex3 Hpark].
  { pose proof (ev_threads _ _ Hev cur) as E. simpl in E. rewrite lookup_insert_eq in E.
    destruct (threads c3 !! cur) as [thr4|]; [|done]. split; [done|]. intros ? [= <-].
    injection E as E1 E2 _ _ E5. done. }
  assert (t ≠ cur) as Hne by (intros ->; destruct (Hpark _ Ht3) as (_ & ? & _); congruence).
  destruct (threads c3 !! cur) as [thr4|] eqn:Hc3; [|done]. destruct (Hpark _ eq_refl) as (Hp1 & Hp2 & Hp3).
  eexists s', _, t, Q3. split; [|split; [done|split; [done|split; [done|split; [|split]]]]].
  - rewrite Hrun. erewrite bind_Yielded; [reflexivity|]. unfold CoreH_ThreadBlock.
    rewrite (truthy_nz _ Hc0). cbn [negb]. erewrite bind_Ret; [|apply get_thread_eq; simpl; apply lookup_insert_eq].
    simpl. rewrite Hm, (valid_priority_test _ Hp).
    destruct (sw_thread _ _ _ _ Hsw _ _ Ht Hm) as (Hnb & _). rewrite bool_decide_eq_false_2 by done.
    erewrite bind_Ret; [|exact Hblk].
    erewrite bind_Ret; [|apply Core_GetCurrentThread_eq; etrans; [apply level_up_thread|exact Htc]].
    rewrite Z.eqb_refl. simpl. erewrite bind_Yielded; [reflexivity|exact Hy].
  - unfold tl_rep. rewrite Hlss, Htls. destruct Hl2 as (d2 & Hd2 & Hr2). exists d2.
    rewrite (ev_lists _ _ Hev) by done. split; [done|]. eapply dl_rep_frame; [|exact Hr2].
    intros y Hy'. apply (ev_links _ _ Hev). simpl. intros t1 thr1 Ht1 [k1 Hk1] E.
    destruct (decide (cur = t1)) as [<-|].
    + rewrite lookup_insert_eq in Ht1. by simplify_eq.
    + rewrite lookup_insert_ne in Ht1 by done.
      destruct (si_thread _ _ (sw_inv _ _ _ _ Hsw2) _ _ _ Ht1 Hk1) as (Hin & _). rewrite E in Hin. by eapply Hap2.
  - exists thr4. rewrite Hths, (switched_lookup _ _ _ _ _ _ Ht3), Hc3. unfold switch_one, queued. simpl.
    rewrite (decide_True (P := cur = cur)) by done. rewrite (decide_False (P := cur = t)) by congruence.
    rewrite Hp2. simpl. rewrite andb_false_r. done.
  - intros s'' Hq''. simpl. rewrite Hres by apply Hq''. simpl.
    pose proof (level_up_id _ Hq'') as Hid. unfold level_up in Hid. rewrite Hid.
    pose proof Hq as [[_ _ Hr H1 _] Hle _ _].
    unfold mret, K_ret. simpl. unfold K_bind, mbind. 
    erewrite Core_LowerIrql_eq; [reflexivity|apply Hq''|unfold IRQL_DISPATCH in *; lia|done|apply Hq''].
Qed.
End blocking.
