(* ===== verification/Dpc.v ===== *)
(** * Deferred procedure calls ([irq/dpc.c], [CoreH_DispatchDPCs] of [irql.c])

    A DPC object is queued on one processor and its handler runs when that
    processor's level drops below [IRQL_DISPATCH].  The definitions of
    [irq/dpc.c]; dispatching runs every handler that is queued when it begins
    exactly once, in queue order; what the handlers queue stays queued. *)

From S2P Require Import Prelude DList KState Irql ThreadList SchedInv.

Section ops.
Context {DH : DpcHandlers}.

(** [CoreH_AllocateDPC]: the memory is not cleared, [garbage] is what it held. *)
Definition CoreH_AllocateDPC (garbage : dpc) (glink : dlink) : K kst (Z * obos_status) :=
  na ← gets (λ s, nonpaged_alloc (sch s));
  if negb na then mret (nullptr, OBOS_STATUS_INVALID_INIT_PHASE) else
  fa ← gets (λ s, free_addrs (sch s));
  match fa with
  | [] => mret (nullptr, OBOS_STATUS_NOT_ENOUGH_MEMORY)
  | p :: ps =>
      sch_upd (λ c, c <| free_addrs := ps |>);;
      irq_upd (λ i, i <| dpc_objs ::= <[p := garbage]> |> <| dpc_links ::= <[p := glink]> |>);;
      mret (p, OBOS_STATUS_SUCCESS)
  end.

(** The search of [CoreH_InitializeDPC] over the processors [i], [i+1], ... *)
Fixpoint find_dpc_cpu (l : list cpu_local) (i : nat) (aff : Z) (target : option nat)
  : K kst (option nat) :=
  match l with
  | [] => mret target
  | cpu :: l =>
      better ← (match target with
                | None => mret true
                | Some j => a ← load (λ s, dpcs (irq s)) i;
                            b ← load (λ s, dpcs (irq s)) j;
                            mret (dl_nNodes a <? dl_nNodes b)
                end);
      find_dpc_cpu l (S i) aff
        (if better : bool then
           if truthy (Z.land aff (CoreH_CPUIdToAffinity (id cpu))) then Some i else None
         else target)
  end.

(** [if (!(affinity &= Core_DefaultThreadAffinity)) affinity = Core_DefaultThreadAffinity;] *)
Definition dpc_affinity (aff def : Z) : Z :=
  if truthy (Z.land aff def) then Z.land aff def else def.

Definition CoreH_InitializeDPC (d : Z) (hnd : Z) (aff : Z) : K kst obos_status :=
  if negb (truthy d) || negb (truthy hnd) then mret OBOS_STATUS_INVALID_ARGUMENT else
  x ← get_dpc d;
  if bool_decide (is_Some (dpc_cpu x)) then mret OBOS_STATUS_DPC_ALREADY_ENQUEUED else
  def ← gets (λ s, Core_DefaultThreadAffinity (sch s));
  set_dpc d (λ x, x <| handler := hnd |>);;
  all ← gets (λ s, cpus (sch s));
  target ← find_dpc_cpu all 0 (dpc_affinity aff def) None;
  match target with
  | None => stop Panic
  | Some target =>
      set_dpc d (λ x, x <| dpc_cpu := Some target |>);;
      oldIrql ← Core_SpinlockAcquire (DpcQueueLock target);
      dpc_queue_op target (λ h l, LIST_PREPEND h l d);;
      Core_SpinlockRelease (DpcQueueLock target) oldIrql;;
      mret OBOS_STATUS_SUCCESS
  end.

Definition CoreH_FreeDPC (d : Z) (dealloc : bool) : K kst obos_status :=
  if negb (truthy d) then mret OBOS_STATUS_INVALID_ARGUMENT else
  x ← get_dpc d;
  match dpc_cpu x with
  | None => mret OBOS_STATUS_UNINITIALIZED
  | Some c =>
      if negb (truthy (handler x)) then mret OBOS_STATUS_UNINITIALIZED else
      l ← load (λ s, dpcs (irq s)) c;
      h ← gets (λ s, dpc_links (irq s));
      un ← deref_opt (LIST_IS_NODE_UNLINKED h l d);
      when (negb un) (
        oldIrql ← Core_SpinlockAcquire (DpcQueueLock c);
        dpc_queue_op c (λ h l, LIST_REMOVE h l d);;
        Core_SpinlockRelease (DpcQueueLock c) oldIrql;;
        set_dpc d (λ x, x <| dpc_cpu := None |>));;
      when dealloc (irq_upd (λ i, i <| dpc_objs ::= delete d |> <| dpc_links ::= delete d |>));;
      mret OBOS_STATUS_SUCCESS
  end.

End ops.

(** The queue of a processor holds the objects [xs]. *)
Definition dpc_rep (i : irq_st) (c : nat) (xs : list Z) : Prop :=
  ∃ l, dpcs i !! c = Some l ∧ dl_rep (dpc_links i) l xs.

(** A queue has one reading. *)
Lemma dpc_rep_unique i c xs ys : dpc_rep i c xs → dpc_rep i c ys → xs = ys.
Proof.
  intros (l & Hl & Hx) (l' & Hl' & Hy). simplify_eq.
  pose proof (rep_count _ _ _ Hx) as Ex. rewrite (rep_count _ _ _ Hy) in Ex. apply Nat2Z.inj in Ex.
  pose proof (walk_rep _ _ _ Hx) as Wx. rewrite <- Ex in Wx. rewrite (walk_rep _ _ _ Hy) in Wx. by injection Wx.
Qed.

Lemma dpc_queue_op_eq s c op l h' l' :
  dpcs (irq s) !! c = Some l → op (dpc_links (irq s)) l = Some (h', l') →
  dpc_queue_op c op s =
    Ret () (s <| irq ::= λ i, i <| dpc_links := h' |> <| dpcs ::= <[c := l']> |> |>).
Proof.
  intros Hl Hop. unfold dpc_queue_op. erewrite bind_Ret; [|by apply load_eq]. kstep.
  erewrite bind_Ret; [|by apply deref_opt_eq]. done.
Qed.

Section dispatch.
Context {DH : DpcHandlers}.

(** The state in which the handler of [d] is called: the object has left the queue
    of processor [c] and is free to be queued again. *)
Definition dequeued (c : nat) (d : Z) (s : kst) : kst :=
  match (l ← dpcs (irq s) !! c; LIST_REMOVE (dpc_links (irq s)) l d) with
  | Some p => s <| irq ::= λ i, i <| dpc_links := p.1 |> <| dpcs ::= <[c := p.2]> |>
                    <| dpc_objs ::= alter (λ x, x <| dpc_cpu := None |>) d |> |>
  | None => s
  end.

(** The handlers of [xs] are called one after the other, each with its object out of
    the queue; [pre] is what earlier handlers have queued in front, [post] what is
    there in the end. *)
Inductive handled (c : nat) : list Z → list Z → kst → list Z → kst → Prop :=
| handled_nil pre s : dpc_rep (irq s) c pre → handled c pre [] s pre s
| handled_cons pre d xs x s s1 more post s' :
    dpc_objs (irq s) !! d = Some x →
    dpc_rep (irq (dequeued c d s)) c (pre ++ xs) →
    dpc_links (irq (dequeued c d s)) !! d = Some unlinked →
    dpc_objs (irq (dequeued c d s)) !! d = Some (x <| dpc_cpu := None |>) →
    dpc_call (handler x) d (userdata x) (dequeued c d s) = Ret () s1 →
    dpc_rep (irq s1) c (more ++ pre ++ xs) →
    handled c (more ++ pre) xs s1 post s' →
    handled c pre (d :: xs) s post s'.

(** What is asked of the handlers, in states with [I]: a call returns, on the same
    processor; it may do anything to threads, objects and the rest of the interrupt
    state, and it may queue objects, which go to the front of a queue, but it leaves
    those that are queued on this processor where they are. *)
Record handlers_ok (I : kst → Prop) (c : nat) : Prop := {
  ho_dequeue s d x l1 l2 : I s → dpc_rep (irq s) c (l1 ++ d :: l2) → Z.of_nat (length (l1 ++ d :: l2)) < 2 ^ 64 →
    dpc_objs (irq s) !! d = Some x → I (dequeued c d s);
  ho_call s d x q : I s → this_cpu (irq s) = Some c → dpc_rep (irq s) c q → Z.of_nat (length q) < 2 ^ 64 → d ∉ q →
    dpc_objs (irq s) !! d = Some x → dpc_cpu x = None →
    ∃ s1 more, dpc_call (handler x) d (userdata x) s = Ret () s1 ∧ I s1 ∧ this_cpu (irq s1) = Some c ∧
      dpc_rep (irq s1) c (more ++ q) ∧ Z.of_nat (length (more ++ q)) < 2 ^ 64 ∧
      ∀ d', d' ∈ q → is_Some (dpc_objs (irq s) !! d') → is_Some (dpc_objs (irq s1) !! d')
}.

Lemma dequeued_eq c d s l1 l2 x :
  dpc_rep (irq s) c (l1 ++ d :: l2) → Z.of_nat (length (l1 ++ d :: l2)) < 2 ^ 64 → dpc_objs (irq s) !! d = Some x →
  (∀ m : K kst (), (dpc_queue_op c (λ h l, LIST_REMOVE h l d);; set_dpc d (λ d, d <| dpc_cpu := None |>);; m) s = m (dequeued c d s)) ∧
  dpc_rep (irq (dequeued c d s)) c (l1 ++ l2) ∧ dpc_links (irq (dequeued c d s)) !! d = Some unlinked ∧
  this_cpu (irq (dequeued c d s)) = this_cpu (irq s) ∧
  dpc_objs (irq (dequeued c d s)) = <[d := x <| dpc_cpu := None |>]> (dpc_objs (irq s)) ∧
  dom (dpc_links (irq (dequeued c d s))) = dom (dpc_links (irq s)).
Proof.
  intros (l & Hl & Hrep) Hlen Hx.
  destruct (LIST_REMOVE_spec (dpc_links (irq s)) l l1 d l2 Hrep Hlen) as (h1 & l1' & Hrm & Hrep1 & Hun & [_ Hdom]).
  assert (alter (λ x, x <| dpc_cpu := None |>) d (dpc_objs (irq s)) = <[d := x <| dpc_cpu := None |>]> (dpc_objs (irq s))) as Ealt.
  { apply map_eq. intros j. destruct (decide (j = d)) as [->|Hne].
    - by rewrite lookup_alter_eq, Hx, lookup_insert_eq.
    - by rewrite lookup_alter_ne, lookup_insert_ne by done. }
  assert (dequeued c d s = s <| irq ::= λ i, i <| dpc_links := h1 |> <| dpcs ::= <[c := l1']> |>
    <| dpc_objs := <[d := x <| dpc_cpu := None |>]> (dpc_objs (irq s)) |> |>) as ->.
  { unfold dequeued. rewrite Hl. simpl. rewrite Hrm. simpl in Ealt. by rewrite Ealt. }
  split; [|split; [exists l1'; split; [apply lookup_insert_eq|done]|done]].
  intros m. erewrite bind_Ret; [|by eapply dpc_queue_op_eq]. unfold set_dpc. erewrite bind_Ret; [|by eapply store_eq]. done.
Qed.

(** Nothing but the queue and the object changes. *)
Lemma dequeued_rest c d s :
  sch (dequeued c d s) = sch s ∧ locks (irq (dequeued c d s)) = locks (irq s) ∧
  ∀ v, irq_wf (irq s) v → irq_wf (irq (dequeued c d s)) v.
Proof. unfold dequeued. destruct (_ ≫= _); [|done]. split; [done|]. split; [done|]. intros v []. by split. Qed.

Lemma dispatch_loop_ok I c xs : handlers_ok I c → ∀ s fuel pre,
  I s → this_cpu (irq s) = Some c → dpc_rep (irq s) c (pre ++ xs) → Z.of_nat (length (pre ++ xs)) < 2 ^ 64 → (length xs ≤ fuel)%nat →
  (∀ d, d ∈ xs → is_Some (dpc_objs (irq s) !! d)) →
  ∃ s' post, dispatch_loop fuel c (default 0 (head xs)) s = Ret () s' ∧ handled c pre xs s post s' ∧ I s' ∧
    dpc_rep (irq s') c post ∧ this_cpu (irq s') = Some c.
Proof.
  intros [Hdq Hcall]. induction xs as [|d xs IH]; intros s fuel pre HI Hc Hrep Hlen Hf Hex.
  { rewrite app_nil_r in Hrep. exists s, pre. split; [by destruct fuel|]. split; [by constructor|done]. }
  destruct fuel as [|fuel]; [simpl in Hf; lia|]. destruct (Hex d) as [x Hx]; [left|].
  destruct (dequeued_eq c d s pre xs x Hrep Hlen Hx) as (Hrun & Hrep1 & Hun & Hc1 & Ho1 & _).
  pose proof Hrep as (l & Hl & [Hnd Hnn _ _ _ Hseg]).
  assert (d ∉ pre ++ xs) as Hnin by (rewrite <- Permutation_middle in Hnd; by apply NoDup_cons in Hnd as [? _]).
  assert (dpc_objs (irq (dequeued c d s)) !! d = Some (x <| dpc_cpu := None |>)) as Hd1 by (rewrite Ho1; apply lookup_insert_eq).
  destruct (Hcall (dequeued c d s) d (x <| dpc_cpu := None |>) (pre ++ xs)) as (s1 & more & E & HI1 & Hcs1 & Hrep2 & Hlen2 & Hobj);
    [by eapply Hdq|by rewrite Hc1|done|rewrite length_app in *; simpl in *; lia|done|done|done|].
  destruct (IH s1 fuel (more ++ pre)) as (s' & post & Eloop & Hh & HI' & Hp & Hc'); [done|done|by rewrite <- app_assoc..|simpl in Hf; lia| |].
  { intros d' Hd'. apply Hobj; [set_solver|]. rewrite Ho1, lookup_insert_ne by set_solver. apply Hex. set_solver. }
  exists s', post. split; [|split; [by eapply handled_cons|done]].
  cbn [dispatch_loop head default]. rewrite truthy_nz by set_solver. cbn [negb]. kstep.
  pose proof (seg_mid _ _ _ _ Hseg) as Hlk. erewrite bind_Ret; [|apply deref_opt_eq; unfold LIST_GET_NEXT; by rewrite Hlk]. cbn [dl_next].
  rewrite Hrun. unfold get_dpc. erewrite bind_Ret; [|by apply load_eq]. simpl. erewrite bind_Ret; [|exact E]. exact Eloop.
Qed.

(** [C29] Dispatching runs the handler of every deferred procedure call queued on the
    processor when it begins, exactly once and in queue order, each with its object out
    of the queue, unlinked and free to be queued again. The handlers may change
    anything, and queue objects, which go to the front; what they have queued is in the
    queue in the end and is not run. It is assumed that a handler returns on the same
    processor and leaves the objects still queued there in place ([handlers_ok], for an
    invariant [I] of the caller's choice). *)
Theorem dispatch_runs_all I s c xs :
  handlers_ok I c → I s → this_cpu (irq s) = Some c → dpc_rep (irq s) c xs → Z.of_nat (length xs) < 2 ^ 64 →
  (∀ d, d ∈ xs → is_Some (dpc_objs (irq s) !! d)) →
  ∃ s' post, CoreH_DispatchDPCs s = Ret () s' ∧ handled c [] xs s post s' ∧ dpc_rep (irq s') c post ∧ I s'.
Proof.
  intros Hok HI Hc Hrep Hlen Hex. pose proof Hrep as (l & Hl & Hr).
  destruct (dispatch_loop_ok I c xs Hok s (S (Z.to_nat (dl_nNodes l))) []) as (s' & post & Hrun & Hh & HI' & Hp & _);
    [done|done|done|done|rewrite (rep_count _ _ _ Hr); lia|done|].
  exists s', post. split; [|done]. unfold CoreH_DispatchDPCs. kstep. rewrite Hc. kstep.
  erewrite bind_Ret; [|by apply load_eq]. rewrite (rep_head _ _ _ Hr). exact Hrun.
Qed.
End dispatch.

Section queueing.
Context {DH : DpcHandlers}.

(** Every processor is allowed: the search finds the first least loaded one. *)
Lemma find_dpc_cpu_all s aff (qs : nat → list Z) :
  (∀ k x, cpus (sch s) !! k = Some x → dpc_rep (irq s) k (qs k) ∧
     truthy (Z.land aff (CoreH_CPUIdToAffinity (id x))) = true) →
  ∀ l pre best, cpus (sch s) = pre ++ l →
  match best with
  | None => pre = []
  | Some b => (b < length pre)%nat ∧ ∀ j, (j < length pre)%nat → (length (qs b) ≤ length (qs j))%nat
  end →
  ∃ r, find_dpc_cpu l (length pre) aff best s = Ret r s ∧
    match r with
    | None => cpus (sch s) = []
    | Some b => (b < length (cpus (sch s)))%nat ∧
        ∀ j, (j < length (cpus (sch s)))%nat → (length (qs b) ≤ length (qs j))%nat
    end.
Proof.
  intros Hall. induction l as [|x l IH]; intros pre best Hc Hb.
  { exists best. rewrite app_nil_r in Hc. rewrite Hc. split; [done|]. by destruct best. }
  assert (cpus (sch s) !! length pre = Some x) as Hx by (by rewrite Hc, lookup_app_r, Nat.sub_diag by lia).
  destruct (Hall _ _ Hx) as [(la & Hla & Hra) Haff].
  assert (cpus (sch s) = (pre ++ [x]) ++ l) as Hc' by (by rewrite <- app_assoc).
  assert (S (length pre) = length (pre ++ [x])) as Hlen by (rewrite length_app; simpl; lia).
  cbn [find_dpc_cpu]. rewrite Haff. destruct best as [b|].
  - destruct Hb as [Hb Hmin]. destruct (lookup_lt_is_Some_2 (cpus (sch s)) b) as [xb Hxb]; [rewrite Hc, length_app; lia|].
    destruct (Hall _ _ Hxb) as [(lb & Hlb & Hrb) _].
    erewrite bind_Ret.
    2: { erewrite bind_Ret; [|by apply load_eq]. erewrite bind_Ret; [|by apply load_eq]. reflexivity. }
    rewrite Hlen. apply IH; [done|]. rewrite <- Hlen, (rep_count _ _ _ Hra), (rep_count _ _ _ Hrb).
    destruct (Z.ltb_spec (Z.of_nat (length (qs (length pre)))) (Z.of_nat (length (qs b)))); (split; [lia|]);
      intros j Hj; destruct (decide (j = length pre)) as [->|]; try lia; specialize (Hmin j); lia.
  - kstep. rewrite Hlen. apply IH; [done|]. subst pre. simpl. split; [lia|]. intros j Hj. by replace j with 0%nat by lia.
Qed.

(** Queueing an object at [IRQL_DISPATCH] on the processor [k] the search finds. *)
Lemma initialize_dpc_eq s d hnd aff x k l q :
  irq_wf (irq s) IRQL_DISPATCH → d ≠ 0 → hnd ≠ 0 → dpc_objs (irq s) !! d = Some x → dpc_cpu x = None →
  is_Some (dpc_links (irq s) !! d) → dpcs (irq s) !! k = Some l → dl_rep (dpc_links (irq s)) l q → d ∉ q →
  lock_free (irq s) (DpcQueueLock k) → Z.of_nat (length q) + 1 < 2 ^ 64 →
  find_dpc_cpu (cpus (sch s)) 0 (dpc_affinity aff (Core_DefaultThreadAffinity (sch s))) None
    (s <| irq ::= λ i, i <| dpc_objs ::= <[d := x <| handler := hnd |>]> |> |>) =
    Ret (Some k) (s <| irq ::= λ i, i <| dpc_objs ::= <[d := x <| handler := hnd |>]> |> |>) →
  ∃ h' l', dl_rep h' l' (d :: q) ∧ links_frame (d :: q) (dpc_links (irq s)) h' ∧
    CoreH_InitializeDPC d hnd aff s = Ret OBOS_STATUS_SUCCESS (s <| irq ::= λ i, i <| dpc_links := h' |>
      <| dpcs ::= <[k := l']> |> <| dpc_objs ::= <[d := mkDpc hnd (userdata x) (Some k)]> |> |>).
Proof.
  intros Hwf Hd0 Hh0 Hx Hxc Hlk Hl Hrep Hnot Hfree Hroom Hfind.
  destruct (LIST_PREPEND_spec (dpc_links (irq s)) l q d) as (h' & l' & Hpre & Hrep' & Hf); try done.
  exists h', l'. split; [done|]. split; [done|].
  set (i2 := (irq s) <| dpc_objs ::= <[d := mkDpc hnd (userdata x) (Some k)]> |>).
  assert (irq_wf i2 IRQL_DISPATCH) as Hwf2 by (destruct Hwf; by split).
  unfold CoreH_InitializeDPC. rewrite (truthy_nz _ Hd0), (truthy_nz _ Hh0). cbn [negb orb].
  unfold get_dpc, set_dpc. erewrite bind_Ret; [|by apply load_eq]. rewrite Hxc. simpl. kstep.
  erewrite bind_Ret; [|by eapply store_eq]. kstep. simpl in Hfind. erewrite bind_Ret; [|exact Hfind]. simpl.
  erewrite bind_Ret; [|eapply store_eq; simpl; apply lookup_insert_eq]. simpl. rewrite insert_insert_eq.
  erewrite bind_Ret; [|exact (acquire_at_dispatch (mkK i2 (sch s) (obj s)) _ Hwf2 Hfree)]. simpl.
  erewrite bind_Ret; [|eapply dpc_queue_op_eq; [exact Hl|exact Hpre]].
  erewrite bind_Ret; [|apply (release_invalid _ _ (held i2 false)); simpl; apply lookup_insert_eq].
  unfold mret, K_ret. simpl. by rewrite insert_insert_eq, insert_id by exact Hfree.
Qed.

(** Queueing a DPC that may run anywhere, from [IRQL_DISPATCH], puts it in front
    of the queue of a least loaded processor and records that processor in the
    object; locks, level and the other queues are unchanged. *)
Theorem initialize_dpc_queues s d hnd aff x (qs : nat → list Z) :
  irq_wf (irq s) IRQL_DISPATCH → d ≠ 0 → hnd ≠ 0 → cpus (sch s) ≠ [] →
  dpc_objs (irq s) !! d = Some x → dpc_cpu x = None → is_Some (dpc_links (irq s) !! d) →
  (∀ k y, cpus (sch s) !! k = Some y → dpc_rep (irq s) k (qs k) ∧ (d ∉ qs k) ∧
     lock_free (irq s) (DpcQueueLock k) ∧ Z.of_nat (length (qs k)) + 1 < 2 ^ 64 ∧
     truthy (Z.land (dpc_affinity aff (Core_DefaultThreadAffinity (sch s))) (CoreH_CPUIdToAffinity (id y))) = true) →
  ∃ k s', CoreH_InitializeDPC d hnd aff s = Ret OBOS_STATUS_SUCCESS s' ∧
    (k < length (cpus (sch s)))%nat ∧
    (∀ j, (j < length (cpus (sch s)))%nat → (length (qs k) ≤ length (qs j))%nat) ∧
    dpc_rep (irq s') k (d :: qs k) ∧
    dpc_objs (irq s') !! d = Some (mkDpc hnd (userdata x) (Some k)) ∧
    locks (irq s') = locks (irq s) ∧ irql_of (irq s') = irql_of (irq s) ∧ sch s' = sch s ∧
    (∀ k', k' ≠ k → dpcs (irq s') !! k' = dpcs (irq s) !! k').
Proof.
  intros Hwf Hd0 Hh0 Hne Hx Hxc Hlk Hall.
  set (aff' := dpc_affinity aff (Core_DefaultThreadAffinity (sch s))) in *.
  set (s1 := s <| irq ::= λ i, i <| dpc_objs ::= <[d := x <| handler := hnd |>]> |> |>).
  destruct (find_dpc_cpu_all s1 aff' qs) with (l := cpus (sch s)) (pre := @nil cpu_local) (best := @None nat)
    as (r & Hfind & Hr); [|done|done|].
  { intros k y Hy. destruct (Hall k y Hy) as (Hrep & _ & _ & _ & Haff). split; [exact Hrep|done]. }
  destruct r as [k|]; [|by destruct (Hne Hr)]. destruct Hr as [Hk Hmin]. simpl in Hk, Hmin.
  destruct (lookup_lt_is_Some_2 (cpus (sch s)) k Hk) as [y Hy].
  destruct (Hall k y Hy) as ((l & Hl & Hrep) & Hnot & Hfree & Hroom & _).
  destruct (initialize_dpc_eq s d hnd aff x k l (qs k)) as (h' & l' & Hrep' & Hf & E); try done.
  eexists k, _. split; [exact E|]. split; [done|]. split; [done|]. simpl.
  split; [exists l'; split; [apply lookup_insert_eq|done]|]. split; [apply lookup_insert_eq|].
  split; [done|]. split; [done|]. split; [done|]. intros k' Hk'. by rewrite lookup_insert_ne.
Qed.

(** The search for a processor forgets a suitable one: when a later, less
    loaded processor is outside the affinity the target is reset to null, and a
    DPC that may run on the first of two processors panics the kernel. *)
Theorem initialize_dpc_forgets s d hnd aff x x0 x1 l0 l1 :
  d ≠ 0 → hnd ≠ 0 → dpc_objs (irq s) !! d = Some x → dpc_cpu x = None →
  cpus (sch s) = [x0; x1] → dpcs (irq s) !! 0%nat = Some l0 → dpcs (irq s) !! 1%nat = Some l1 →
  dl_nNodes l1 < dl_nNodes l0 →
  let aff' := dpc_affinity aff (Core_DefaultThreadAffinity (sch s)) in
  truthy (Z.land aff' (CoreH_CPUIdToAffinity (id x0))) = true →
  truthy (Z.land aff' (CoreH_CPUIdToAffinity (id x1))) = false →
  CoreH_InitializeDPC d hnd aff s = Stop Panic.
Proof.
  intros Hd0 Hh0 Hx Hxc Hc Hl0 Hl1 Hlt aff' Ha0 Ha1.
  unfold CoreH_InitializeDPC. rewrite (truthy_nz _ Hd0), (truthy_nz _ Hh0). cbn [negb orb].
  unfold get_dpc, set_dpc. erewrite bind_Ret; [|by apply load_eq]. rewrite Hxc. simpl. kstep.
  erewrite bind_Ret; [|by eapply store_eq]. kstep. rewrite Hc. fold aff'.
  erewrite bind_Ret.
  2: { cbn [find_dpc_cpu]. kstep. rewrite Ha0. cbv iota.
       erewrite bind_Ret.
       2: { erewrite bind_Ret; [|by apply load_eq]. erewrite bind_Ret; [|by apply load_eq]. reflexivity. }
       rewrite (proj2 (Z.ltb_lt _ _) Hlt), Ha1. reflexivity. }
  done.
Qed.
End queueing.
