(* ===== verification/Witness.v ===== *)
(** * A concrete machine

    Two processors, three threads (the idle thread of the first processor, its
    current thread, and a thread that is not queued), an event, a mutex and a
    semaphore.  The theorems of the kernel core are applied to it. *)

From S2P Require Import Prelude DList KState Irql SpinSmp ThreadList Schedule Thread.
From S2P Require Import SchedInv SchedSwitch  SchedOps Wait WaitProofs Dpc.

(** Handlers that do nothing. *)
(** A map given by a function on a range of keys. *)
Definition tabulate {A} (a n : Z) (f : Z → A) : gmap Z A := list_to_map ((λ v, (v, f v)) <$> seqZ a n).
#[global] Arguments tabulate : simpl never.
Lemma tabulate_lookup {A} a n (f : Z → A) v : a <= v < a + n → tabulate a n f !! v = Some (f v).
Proof.
  intros Hv. apply elem_of_list_to_map_1.
  - rewrite <- list_fmap_compose. rewrite (list_fmap_ext _ Datatypes.id) by done. rewrite list_fmap_id. apply NoDup_seqZ.
  - apply list_elem_of_fmap. exists v. split; [done|]. apply elem_of_seqZ. lia.
Qed.

#[local] Instance demo_handlers : DpcHandlers := λ _ _ _, mret ().

Definition idle_t : Z := 0x1000.
Definition main_t : Z := 0x1100.
Definition work_t : Z := 0x1200.
Definition idle_n : Z := 0x2000.
Definition main_n : Z := 0x2100.
Definition work_n : Z := 0x2200.
Definition main_w : Z := 0x3100.
Definition work_w : Z := 0x3200.
Definition ev : Z := 0x5000.
Definition mx : Z := 0x5100.
Definition sm : Z := 0x5200.

Definition demo_thread (st : thread_status) (p : Z) (cpu : option nat) (sn ln : Z) : thread :=
  mkThread 1 0 0 false st p 0 3 0 cpu sn 0 0 ln 1 0 0.
Definition idle_thr := demo_thread THREAD_STATUS_READY 0 (Some 0%nat) idle_n 0x3000.
Definition main_thr := demo_thread THREAD_STATUS_RUNNING 2 (Some 0%nat) main_n main_w.
Definition work_thr := demo_thread THREAD_STATUS_BLOCKED 2 None work_n work_w.

Definition demo_plists : gmap Z thread_priority_list :=
  list_to_map [(0, mkPList 0 0 0); (1, mkPList 0 0 1); (2, mkPList 0 0 2);
               (3, mkPList 0 0 3); (4, mkPList 0 0 4)].
Definition demo_cpu (i : Z) (idle : Z) : cpu_local :=
  mkCpu i idle 0 demo_plists None 0 (mkProf 0 0 0 0 0 0).

Definition demo_queue_locs : list list_loc :=
  [PriorityList 0 0; PriorityList 0 1; PriorityList 0 2; PriorityList 0 3; PriorityList 0 4;
   PriorityList 1 0; PriorityList 1 1; PriorityList 1 2; PriorityList 1 3; PriorityList 1 4].
Definition demo_list_locs : list list_loc :=
  demo_queue_locs ++ [WaitingList ev; WaitingList mx; WaitingList sm].
Definition demo_locks : gmap lock_loc spinlock :=
  list_to_map (map (λ l, (l, Core_SpinlockCreate))
    ([Core_SchedulerLock; SchedulerLock 0; SchedulerLock 1; DpcQueueLock 0; DpcQueueLock 1;
      WaitableLock ev; WaitableLock mx; WaitableLock sm; SemaphoreLock sm]
     ++ map ThreadListLock demo_list_locs)).

Definition demo_irq : irq_st :=
  mkIrq (Some 0%nat) 0 (list_to_map [(0%nat, 0); (1%nat, 0)]) 0
    (list_to_map [(0%nat, main_t); (1%nat, 0)])
    (list_to_map [(idle_t, 0); (main_t, 0); (work_t, 0)])
    demo_locks (list_to_map [(0%nat, empty_list); (1%nat, empty_list)]) ∅ ∅.

Definition demo_sched : sched_st :=
  mkSched [demo_cpu 0 idle_t; demo_cpu 1 0]
    (<[PriorityList 0 0 := mkList idle_n idle_n 1]>
     (<[PriorityList 0 2 := mkList main_n main_n 1]>
      (list_to_map (map (λ l, (l, empty_list)) demo_list_locs))))
    (list_to_map (map (λ n, (n, unlinked)) [idle_n; main_n; work_n; 0x3000; main_w; work_w]))
    (list_to_map [(idle_n, mkTNode idle_t false); (main_n, mkTNode main_t false);
                  (work_n, mkTNode 0 false); (0x3000, mkTNode 0 false);
                  (main_w, mkTNode 0 false); (work_w, mkTNode work_t false)])
    (list_to_map [(idle_t, idle_thr); (main_t, main_thr); (work_t, work_thr)])
    ∅ 2 4 1 3 [0x9000; 0x9100] true true 0.

Definition demo_obj : obj_st :=
  mkObj (list_to_map [(ev, mkHdr false true); (mx, mkHdr true false); (sm, mkHdr true false)])
    {[ mx := mkMutex false false false 0 ]} {[ sm := 1 ]}
    {[ ev := mkEvent false EVENT_NOTIFICATION ]}.

Definition demo : kst := mkK demo_irq demo_sched demo_obj.

Definition demo_Q : queues := λ k p,
  if decide (k = 0%nat ∧ p = 0) then [idle_n]
  else if decide (k = 0%nat ∧ p = 2) then [main_n] else [].

(** ** The invariants hold of it *)

Lemma demo_Q_inv k p x : x ∈ demo_Q k p →
  k = 0%nat ∧ (p = 0 ∧ x = idle_n ∨ p = 2 ∧ x = main_n).
Proof.
  unfold demo_Q. repeat case_decide; destruct_and?; subst;
    [intros ->%list_elem_of_singleton; eauto..|set_solver].
Qed.

Lemma demo_prio p : valid_priority p → p = 0 ∨ p = 1 ∨ p = 2 ∨ p = 3 ∨ p = 4.
Proof. unfold valid_priority, THREAD_PRIORITY_MAX_VALUE. lia. Qed.
Lemma demo_cpus k : (k < length (cpus demo_sched))%nat → k = 0%nat ∨ k = 1%nat.
Proof. simpl. lia. Qed.

Lemma single_rep h n : n ≠ 0 → h !! n = Some unlinked → dl_rep h (mkList n n 1) [n].
Proof. intros Hn Hh. split; simpl; try done; [apply NoDup_singleton|set_solver]. Qed.

Lemma demo_rep k p : (k < length (cpus demo_sched))%nat → valid_priority p →
  tl_rep demo_sched (PriorityList k p) (demo_Q k p).
Proof.
  intros [-> | ->]%demo_cpus Hp%demo_prio; destruct_or! Hp; subst.
  all: try (exists empty_list; split; [vm_compute; reflexivity|apply dl_rep_empty]).
  - eexists; split; [vm_compute; reflexivity|apply single_rep; [done|vm_compute; reflexivity]].
  - eexists; split; [vm_compute; reflexivity|apply single_rep; [done|vm_compute; reflexivity]].
Qed.

Lemma demo_threads t thr : threads demo_sched !! t = Some thr →
  (t = idle_t ∧ thr = idle_thr) ∨ (t = main_t ∧ thr = main_thr) ∨ (t = work_t ∧ thr = work_thr).
Proof.
  simpl. rewrite !lookup_insert_Some. intros [[<- <-]|[_ [[<- <-]|[_ [[<- <-]|[_ H]]]]]]; auto.
  by rewrite lookup_empty in H.
Qed.

Lemma demo_sched_inv : sched_inv demo_sched demo_Q.
Proof.
  split.
  - apply demo_rep.
  - intros k p x (-> & [[-> _]|[-> _]])%demo_Q_inv; unfold valid_priority, THREAD_PRIORITY_MAX_VALUE; simpl; lia.
  - intros k p x (-> & [[-> ->]|[-> ->]])%demo_Q_inv;
      [exists (mkTNode idle_t false), idle_thr|exists (mkTNode main_t false), main_thr];
      (split; [vm_compute; reflexivity|]); (split; [done|]); (split; [vm_compute; reflexivity|]); done.
  - intros t thr k [[-> ->]|[[-> ->]|[-> ->]]]%demo_threads [= <-]; simpl.
    + split; [left|]. eexists. split; [vm_compute; reflexivity|done].
    + split; [left|]. eexists. split; [vm_compute; reflexivity|done].
  - vm_compute. reflexivity.
  - assert (size (tlinks demo_sched) = 6%nat) as -> by (vm_compute; reflexivity). lia.
Qed.

Lemma demo_quiet : quiet demo_irq IRQL_PASSIVE.
Proof.
  split; [split|..].
  - vm_compute. reflexivity.
  - done.
  - unfold IRQL_PASSIVE. lia.
  - done.
  - exists main_t. split; [vm_compute; reflexivity|]. intros _. exists 0. vm_compute. reflexivity.
  - done.
  - intros c [= <-]. exists empty_list. split; [vm_compute; reflexivity|done].
  - intros t Ht _. assert (thread_of demo_irq = Some main_t) as E by (vm_compute; reflexivity).
    rewrite E in Ht. injection Ht as <-. vm_compute. reflexivity.
Qed.

Lemma demo_unlocked : sched_unlocked demo_irq 2.
Proof.
  split.
  - vm_compute. reflexivity.
  - intros [|[|k]] Hk; [vm_compute; reflexivity..|lia].
  - intros [|[|k]] p Hk Hp%demo_prio; [..|lia]; destruct_or! Hp; subst; vm_compute; reflexivity.
Qed.

Lemma demo_ops_inv : ops_inv demo demo_Q.
Proof.
  split; [exists IRQL_PASSIVE; exact demo_quiet|exact demo_unlocked|exact demo_sched_inv].
Qed.

Lemma demo_switch_inv : switch_inv demo_sched 0 main_t demo_Q.
Proof.
  split.
  - exact demo_sched_inv.
  - exists (demo_cpu 0 idle_t). split; [done|]. split; [split|].
    + intros p Hp%demo_prio. destruct_or! Hp; subst; eexists; (split; [vm_compute; reflexivity|done]).
    + done.
    + done.
    + exists idle_thr. split; [vm_compute; reflexivity|done].
  - intros t thr [[-> ->]|[[-> ->]|[-> ->]]]%demo_threads Hm; vm_compute in Hm |- *; try done.
  - intros t thr [[-> ->]|[[-> ->]|[-> ->]]]%demo_threads Hm; (exists (demo_cpu 0 idle_t); split; [done|vm_compute; reflexivity]).
  - intros t thr [[-> ->]|[[-> ->]|[-> ->]]]%demo_threads Hp; done.
  - intros _. exists main_thr. split; [vm_compute; reflexivity|]. by left.
Qed.

(** ** Lists, locks, levels *)

Definition demo_heap : lheap := list_to_map (map (λ n, (n, unlinked)) [10; 20; 30]).

Lemma list_macros_refine_witness :
  ∃ h' l', run_cmds (demo_heap, empty_list) [CAppend 10; CPrepend 20; CAppend 30; CRemove 10] = Some (h', l') ∧
    dl_rep h' l' [20; 30] ∧ walk 2 h' (dl_head l') = Some [20; 30] ∧ dl_nNodes l' = 2 ∧
    ∀ y, y ∉ [] ++ map cmd_obj [CAppend 10; CPrepend 20; CAppend 30; CRemove 10] → h' !! y = demo_heap !! y.
Proof.
  apply (list_macros_refine [CAppend 10; CPrepend 20; CAppend 30; CRemove 10] demo_heap empty_list [] [20; 30]).
  - apply dl_rep_empty.
  - assert (size demo_heap = 3%nat) as -> by (vm_compute; reflexivity). lia.
  - repeat (apply Forall_cons; split; [split; [done|eexists; vm_compute; reflexivity]|]). apply Forall_nil. done.
  - vm_compute. reflexivity.
Defined.

Lemma LIST_IS_NODE_UNLINKED_witness :
  LIST_IS_NODE_UNLINKED demo_heap (mkList 10 10 1) 10 = Some false ∧
  LIST_IS_NODE_UNLINKED demo_heap (mkList 10 10 1) 20 = Some true.
Proof.
  assert (dl_rep demo_heap (mkList 10 10 1) [10]) as Hr by (apply single_rep; [done|vm_compute; reflexivity]).
  split.
  - rewrite (LIST_IS_NODE_UNLINKED_spec _ _ _ 10 Hr); [reflexivity|done|]. intros H. destruct H. left.
  - rewrite (LIST_IS_NODE_UNLINKED_spec _ _ _ 20 Hr); [reflexivity|done|]. intros _. vm_compute. reflexivity.
Defined.

(** A body that counts a thread. *)
Definition demo_body : K kst () := sch_upd (λ c, c <| s_nextTID := 5 |>).

Lemma critical_section_witness :
  (o ← Core_SpinlockAcquire Core_SchedulerLock; a ← demo_body;
   st ← Core_SpinlockRelease Core_SchedulerLock o; mret (a, st)) demo =
  Ret ((), OBOS_STATUS_SUCCESS) (demo <| sch ::= λ c, c <| s_nextTID := 5 |> |>).
Proof.
  apply (critical_section_transparent demo_body demo IRQL_PASSIVE Core_SchedulerLock ()
    (mkK (acq_st demo_irq Core_SchedulerLock) (demo_sched <| s_nextTID := 5 |>) demo_obj));
    [exact demo_quiet|apply demo_unlocked|reflexivity|reflexivity].
Defined.

(** The first processor is inside, the second one spins. *)
Lemma spinlock_exclusion_witness :
  ∃ s q, rtc smp_step (smp_init two_cpus) s ∧ at_ <$> cpus_ s !! 0%nat = Some Inside ∧ cpus_ s !! 1%nat = Some q ∧ at_ q = Spinning ∧
    val (lk s) = true ∧ holding q = false ∧ ∃ s' q', rtc smp_step s s' ∧ cpus_ s' !! 1%nat = Some q' ∧ at_ q' = Inside ∧ val (lk s') = true.
Proof.
  pose (es := [(0%nat, Call_Acquire IRQL_DISPATCH false)] ++ replicate 5 (0%nat, Step) ++ [(1%nat, Call_Acquire IRQL_DISPATCH true)] ++ replicate 3 (1%nat, Step)).
  assert (exec_all es (smp_init two_cpus) = Some (mkSmp (mkSpin true true false 8)
    [mkProcessor 8 2 2 2 false 0 0 Inside; mkProcessor 16 2 0 2 true 0 0 Spinning])) as E by (vm_compute; reflexivity).
  apply exec_all_reach in E. eexists _, _. split; [exact E|]. split; [reflexivity|]. split; [reflexivity|]. split; [reflexivity|].
  split; [reflexivity|]. split; [reflexivity|].
  refine (proj2 (proj2 (proj2 (proj2 (spinlock_exclusion two_cpus _ _ E)))) 1%nat _ eq_refl eq_refl).
  repeat constructor.
Defined.

Lemma raise_lower_witness :
  ∃ s1, Core_RaiseIrql IRQL_TIMER demo = Ret IRQL_PASSIVE s1 ∧ irql_of (irq s1) = Some IRQL_TIMER ∧
    cr8 (irq s1) = IRQL_TIMER ∧ Core_LowerIrql IRQL_PASSIVE s1 = Ret () demo.
Proof.
  apply (raise_lower_roundtrip demo IRQL_PASSIVE IRQL_TIMER); [exact demo_quiet| |done].
  unfold IRQL_PASSIVE, IRQL_TIMER, IRQL_MASKED. lia.
Defined.

Lemma irql_misuse_witness :
  Core_RaiseIrql 16 demo = Stop Panic ∧ Core_LowerIrql IRQL_DISPATCH demo = Stop Panic.
Proof.
  split.
  - apply (irql_misuse_panics demo IRQL_PASSIVE 16); [apply demo_quiet|lia|lia].
  - apply (irql_misuse_panics demo IRQL_PASSIVE IRQL_DISPATCH); [apply demo_quiet|unfold IRQL_DISPATCH; lia|].
    unfold IRQL_PASSIVE, IRQL_DISPATCH. lia.
Defined.

(** ** The scheduler *)

Lemma demo_allowed : ∃ k, allowed demo_sched (affinity work_thr) k.
Proof. exists 0%nat, (demo_cpu 0 idle_t). split; [reflexivity|vm_compute; reflexivity]. Qed.

Lemma demo_work_fresh k p : work_n ∉ demo_Q k p.
Proof. intros (_ & [[_ H]|[_ H]])%demo_Q_inv; vm_compute in H; discriminate. Qed.

Lemma demo_op_ok : op_ok demo (OpReady work_t work_n).
Proof.
  split; [done|]. split; [eexists; vm_compute; reflexivity|]. split; [done|].
  split; [eexists; vm_compute; reflexivity|]. split; [vm_compute; reflexivity|].
  intros k p xs Hx. change (sch demo) with demo_sched in Hx.
  destruct (decide ((k < length (cpus demo_sched))%nat ∧ valid_priority p)) as [[Hk Hp]|Hno].
  - destruct (demo_rep k p Hk Hp) as (d & Hd & Hr). destruct Hx as (d' & Hd' & Hr').
    assert (d = d') as <- by congruence.
    pose proof (walk_rep _ _ _ Hr) as H1. pose proof (walk_rep _ _ _ Hr') as H2.
    pose proof (rep_count _ _ _ Hr) as E1. pose proof (rep_count _ _ _ Hr') as E2.
    assert (length xs = length (demo_Q k p)) as El by lia. rewrite El, H1 in H2.
    injection H2 as <-. apply demo_work_fresh.
  - destruct Hx as (d & Hd & _). exfalso. apply Hno. unfold demo_sched in Hd. simpl in Hd.
    rewrite !lookup_insert_Some in Hd. unfold valid_priority, THREAD_PRIORITY_MAX_VALUE. simpl.
    rewrite lookup_empty in Hd.
    naive_solver lia.
Qed.

Lemma thread_ops_invariant_witness :
  ∃ st s1 Q', run_op (OpReady work_t work_n) demo = Ret st s1 ∧ sched_inv (sch s1) Q' ∧
    Core_ReadyThreadCount (sch s1) = wrap64 (ready_count (threads (sch s1))).
Proof.
  destruct (run_op_ok demo demo_Q (OpReady work_t work_n) demo_ops_inv demo_op_ok) as (st & s1 & Q1 & Hrun & _).
  destruct (thread_ops_invariant demo demo_Q s1 demo_ops_inv) as (Q' & H1 & _ & _ & H2).
  - eapply reach_step; [apply reach_refl|exact demo_op_ok|exact Hrun].
  - exists st, s1, Q'. split; [exact Hrun|]. split; [exact H1|exact H2].
Defined.

Lemma thread_ops_total_witness :
  ∃ st s', run_op (OpReady work_t work_n) demo = Ret st s' ∧ reachable demo s' ∧
    dom (threads (sch s')) = dom (threads (sch demo)).
Proof.
  apply (thread_ops_total demo demo_Q demo (OpReady work_t work_n));
    [exact demo_ops_inv|apply reach_refl|exact demo_op_ok].
Defined.

Lemma thread_ready_witness :
  ∃ k s', CoreH_ThreadReady work_t demo = Ret OBOS_STATUS_SUCCESS s' ∧
    best_of demo_sched 3 demo_Q 2 2 (Some k) ∧
    sched_inv (sch s') (q_set demo_Q k 2 (demo_Q k 2 ++ [0x9000])) ∧
    threads (sch s') = <[work_t := readied work_thr 0x9000 k]> (threads demo_sched) ∧ irq s' = demo_irq.
Proof.
  apply (thread_ready_correct demo IRQL_PASSIVE demo_Q work_t work_thr 0x9000 [0x9100]);
    [exact demo_quiet|exact demo_unlocked|exact demo_sched_inv|reflexivity|reflexivity|done|
     vm_compute; reflexivity|vm_compute; reflexivity| |vm_compute; reflexivity|done|vm_compute; reflexivity].
  assert (size (tlinks (sch demo)) = 6%nat) as -> by (vm_compute; reflexivity). lia.
Defined.

(** The same machine with a thread that no processor may run. *)
Definition stray_thr : thread := work_thr <| affinity := 4 |>.
Definition demo_stray : kst :=
  mkK demo_irq (demo_sched <| threads ::= <[work_t := stray_thr]> |>) demo_obj.

Lemma thread_ready_refused_witness :
  CoreH_ThreadReady work_t demo_stray =
    Ret OBOS_STATUS_INVALID_AFFINITY (demo_stray <| sch ::= λ c, c <| free_addrs := [0x9100] |> |>).
Proof.
  apply (thread_ready_refused demo_stray work_t stray_thr 0x9000 [0x9100]);
    [reflexivity|reflexivity|done|vm_compute; reflexivity|vm_compute; reflexivity|
     vm_compute; reflexivity|done|reflexivity|vm_compute; reflexivity|done].
Defined.

Lemma demo_readyable : readyable demo_sched demo_Q work_t work_thr work_n.
Proof.
  split.
  - vm_compute. reflexivity.
  - done.
  - unfold valid_priority, THREAD_PRIORITY_MAX_VALUE. simpl. lia.
  - done.
  - eexists. vm_compute. reflexivity.
  - exists unlinked. split; [vm_compute; reflexivity|done].
  - apply demo_work_fresh.
Qed.

Lemma ready_block_witness :
  ∃ k s1 s2, CoreH_ThreadReadyNode work_t work_n demo = Ret OBOS_STATUS_SUCCESS s1 ∧
    CoreH_ThreadBlock work_t false s1 = Ret OBOS_STATUS_SUCCESS s2 ∧
    (∃ Q', sched_inv (sch s2) Q' ∧ ∀ k' p', Q' k' p' = demo_Q k' p') ∧
    Core_ReadyThreadCount (sch s2) = Core_ReadyThreadCount (sch demo) ∧
    threads (sch s2) = <[work_t := blocked (readied work_thr work_n k)]> (threads (sch demo)) ∧
    tlinks (sch s2) !! work_n = Some unlinked ∧ irq s2 = irq demo.
Proof.
  apply (ready_block_roundtrip demo IRQL_PASSIVE demo_Q work_t work_thr work_n main_t);
    [exact demo_quiet|exact demo_unlocked|exact demo_sched_inv|exact demo_readyable|exact demo_allowed|
     vm_compute; reflexivity].
Defined.

Lemma boost_once_witness :
  ∃ l1 l2 s', demo_Q 0%nat 2 = l1 ++ main_n :: l2 ∧
    CoreH_ThreadBoostPriority main_t demo = Ret OBOS_STATUS_SUCCESS s' ∧
    sched_inv (sch s') (q_move demo_Q 0%nat 2 3 l1 main_n l2) ∧
    threads (sch s') = <[main_t := boosted main_thr]> (threads (sch demo)) ∧ irq s' = irq demo ∧
    CoreH_ThreadBoostPriority main_t s' = Ret OBOS_STATUS_SUCCESS s'.
Proof.
  apply (boost_once demo IRQL_PASSIVE demo_Q main_t main_thr 0%nat);
    [exact demo_quiet|exact demo_unlocked|exact demo_sched_inv|vm_compute; reflexivity|reflexivity|
     vm_compute; reflexivity|simpl; lia].
Defined.

(** At [IRQL_DISPATCH], as the scheduler is entered. *)
Definition demo_d : kst := demo <| irq ::= level_up |>.

Lemma demo_ctx_ok : ctx_ok demo 0.
Proof.
  intros t thr [[-> ->]|[[-> ->]|[-> ->]]]%demo_threads _; exists 0; (split; [vm_compute; reflexivity|by left]).
Qed.

Lemma demo_may_schedule : may_schedule demo_d 0 main_t demo_Q.
Proof.
  split.
  - reflexivity.
  - vm_compute. reflexivity.
  - apply (level_up_quiet _ _ demo_quiet).
  - pose proof demo_unlocked as [H1 H2 H3]. split; unfold lock_free in *; simpl;
      rewrite level_up_locks; [exact H1|exact H2|exact H3].
  - exact demo_switch_inv.
  - apply (level_up_ctx_ok demo 0 demo_sched demo_obj IRQL_PASSIVE demo_quiet). exact demo_ctx_ok.
Qed.

Lemma Core_Schedule_witness :
  ∃ s' t thr v Q', Core_Schedule demo_d = Yielded s' (λ s'', Ret () s'') ∧
    currentThread (irq s') !! 0%nat = Some t ∧ threads (sch s') !! t = Some thr ∧
    masterCPU thr = Some 0%nat ∧ quantum thr = 0 ∧ (t ≠ main_t → status thr = THREAD_STATUS_RUNNING) ∧
    ctx_irql (irq demo_d) !! t = Some v ∧ quiet (irq s') v ∧ sched_unlocked (irq s') 2 ∧
    switch_inv (sch s') 0 t Q' ∧
    (∀ t', masterCPU <$> threads (sch s') !! t' = masterCPU <$> threads (sch demo_d) !! t') ∧
    (∀ t', t' ≠ t → t' ≠ main_t →
       status <$> threads (sch s') !! t' = status <$> threads (sch demo_d) !! t').
Proof. apply (Core_Schedule_correct demo_d 0 main_t demo_Q demo_may_schedule). Defined.

Lemma yield_within_witness :
  Core_Yield demo = Ret () (demo <| sch ::= λ c, c <| threads ::=
    <[main_t := main_thr <| quantum := 1 |>]> |> |>).
Proof.
  apply (yield_within_quantum demo IRQL_PASSIVE 0 main_t main_thr (demo_cpu 0 idle_t));
    [exact demo_quiet|reflexivity|vm_compute; reflexivity|done|vm_compute; reflexivity|reflexivity|done|
     vm_compute; reflexivity|simpl; lia|vm_compute; reflexivity].
Defined.

(** The current thread has one tick of its quantum left. *)
Definition tired_thr : thread := main_thr <| quantum := 7 |>.
Definition demo_tired : kst :=
  mkK demo_irq (demo_sched <| threads ::= <[main_t := tired_thr]> |>) demo_obj.

Lemma demo_tired_inv : switch_inv (sch demo_tired) 0 main_t demo_Q.
Proof.
  assert (threads demo_sched !! main_t = Some main_thr) as Ht by (vm_compute; reflexivity).
  eapply (switch_inv_step demo_sched); [exact demo_switch_inv|by apply (evolves_thread _ _ main_thr)|..]; simpl.
  - eapply (sched_inv_fields demo_sched _ _ main_t main_thr tired_thr); try done. exact demo_sched_inv.
  - destruct (sw_cpu _ _ _ _ demo_switch_inv) as (y & Hy & Hok & _). eauto.
  - intros t thr Ht' Hm Hf. destruct (decide (main_t = t)) as [<-|].
    + rewrite lookup_insert_eq in Ht'. injection Ht' as <-. done.
    + rewrite lookup_insert_ne in Ht' by done. by apply (sw_thread _ _ _ _ demo_switch_inv _ _ Ht').
  - intros thr1 thr2 _ H1 H2 Hm. vm_compute in H1. injection H1 as <-. discriminate.
Qed.

Lemma yield_switches_witness :
  ∃ s' r t Q', Core_Yield demo_tired = Yielded s' r ∧
    currentThread (irq s') !! 0%nat = Some t ∧ switch_inv (sch s') 0 t Q' ∧
    ∀ s'', irq_wf (irq s'') IRQL_DISPATCH → no_dpcs (irq s'') →
      r s'' = Ret () (s'' <| irq ::= λ i, set_ctx IRQL_PASSIVE (set_level IRQL_PASSIVE i) |>).
Proof.
  apply (yield_switches demo_tired IRQL_PASSIVE 0 main_t tired_thr (demo_cpu 0 idle_t) demo_Q);
    [exact demo_quiet|reflexivity|vm_compute; reflexivity|done|vm_compute; reflexivity|reflexivity|
     exact demo_unlocked|exact demo_tired_inv| |right; vm_compute; discriminate].
  intros t thr Ht Hm. simpl in Ht. destruct (decide (main_t = t)) as [<-|].
  - exists 0. split; [vm_compute; reflexivity|by left].
  - rewrite lookup_insert_ne in Ht by done. exact (demo_ctx_ok t thr Ht Hm).
Defined.

(** ** Waiting and signaling *)

Lemma demo_empty_list o : o = ev ∨ o = mx ∨ o = sm → tl_rep demo_sched (WaitingList o) [].
Proof.
  intros [->|[->| ->]]; (exists empty_list; split; [vm_compute; reflexivity|apply dl_rep_empty]).
Qed.

Lemma demo_may_wait : may_wait demo IRQL_PASSIVE 0 main_t main_thr demo_Q ev [].
Proof.
  split.
  - exact demo_quiet.
  - reflexivity.
  - vm_compute. reflexivity.
  - done.
  - split; [exact demo_unlocked|]. split; vm_compute; reflexivity.
  - exact demo_switch_inv.
  - exact demo_ctx_ok.
  - split; [vm_compute; reflexivity|reflexivity].
  - intros x [= <-]. done.
  - exists (mkHdr false true). split; [vm_compute; reflexivity|reflexivity].
  - apply demo_empty_list. by left.
  - split; [eexists; vm_compute; reflexivity|vm_compute; reflexivity].
  - intros y k p ->%list_elem_of_singleton (_ & [[_ H]|[_ H]])%demo_Q_inv; vm_compute in H; discriminate.
  - set_solver.
Qed.

Lemma wait_blocks_witness :
  ∃ s' r t Q', Core_WaitOnObject ev demo = Yielded s' r ∧
    currentThread (irq s') !! 0%nat = Some t ∧ t ≠ main_t ∧ switch_inv (sch s') 0 t Q' ∧
    tl_rep (sch s') (WaitingList ev) [main_w] ∧
    (∃ thr', threads (sch s') !! main_t = Some thr' ∧ status thr' = THREAD_STATUS_BLOCKED ∧
       masterCPU thr' = None ∧ snode thr' = main_n) ∧
    ∀ s'', quiet (irq s'') IRQL_DISPATCH →
      r s'' = Ret OBOS_STATUS_SUCCESS
        (s'' <| irq ::= λ i, set_ctx IRQL_PASSIVE (set_level IRQL_PASSIVE i) |>).
Proof. exact (wait_blocks demo IRQL_PASSIVE 0 main_t main_thr demo_Q ev [] demo_may_wait). Defined.

(** The worker waits on the event. *)
Definition demo_wait : kst :=
  mkK demo_irq (demo_sched <| lists ::= <[WaitingList ev := mkList work_w work_w 1]> |>) demo_obj.
Definition demo_waiter : waiter := mkWaiter work_w work_t work_n.

Lemma demo_wait_inv : sched_inv (sch demo_wait) demo_Q.
Proof.
  apply (sched_inv_other_list demo_sched demo_Q (WaitingList ev) (mkList work_w work_w 1) (tlinks demo_sched) []);
    [exact demo_sched_inv|done|apply links_frame_refl|set_solver].
Qed.

Lemma demo_waiting : waiting_on (sch demo_wait) demo_Q ev [demo_waiter].
Proof.
  split.
  - eexists. split; [vm_compute; reflexivity|]. apply single_rep; [done|vm_compute; reflexivity].
  - intros w ->%list_elem_of_singleton. exists work_thr. split.
    + vm_compute. reflexivity.
    + vm_compute. reflexivity.
    + done.
    + done.
    + vm_compute. reflexivity.
    + unfold valid_priority, THREAD_PRIORITY_MAX_VALUE. simpl. lia.
    + exact demo_allowed.
    + split; [reflexivity|]. split; [eexists; vm_compute; reflexivity|vm_compute; reflexivity].
  - apply NoDup_singleton.
  - simpl. apply NoDup_cons. split; [|apply NoDup_singleton]. intros H%list_elem_of_singleton.
    vm_compute in H. discriminate.
  - intros x k p Hx (_ & Hq)%demo_Q_inv. simpl in Hx.
    apply elem_of_cons in Hx as [->| ->%list_elem_of_singleton]; destruct Hq as [[_ H]|[_ H]]; vm_compute in H; discriminate.
Qed.

Lemma signal_wakes_witness :
  ∃ s' Q', CoreH_SignalWaitingThreads ev true false demo_wait = Ret OBOS_STATUS_SUCCESS s' ∧
    irq s' = demo_irq ∧ sched_inv (sch s') Q' ∧ waiting_on (sch s') Q' ev [] ∧
    (∀ w, w ∈ [demo_waiter] → ∃ thr thr' k,
       threads (sch demo_wait) !! w_thr w = Some thr ∧ threads (sch s') !! w_thr w = Some thr' ∧
       status thr' = THREAD_STATUS_READY ∧ masterCPU thr' = Some k ∧ allowed (sch s') (affinity thr) k ∧
       priority thr' = priority thr ∧ w_snode w ∈ Q' k (priority thr')) ∧
    (∀ t, t ∉ map w_thr [demo_waiter] → threads (sch s') !! t = threads (sch demo_wait) !! t).
Proof.
  apply (signal_wakes demo_wait IRQL_PASSIVE demo_Q ev (mkHdr false true) [demo_waiter] true false);
    [|exact demo_wait_inv|done|vm_compute; reflexivity|exact demo_waiting].
  split; [exact demo_quiet|exact demo_unlocked|vm_compute; reflexivity|vm_compute; reflexivity].
Defined.

(** ** Mutex, semaphore, event *)

Lemma mutex_cycle_witness :
  ∃ s1 s2, Core_MutexAcquire mx demo = Ret OBOS_STATUS_SUCCESS s1 ∧
    mutexes (obj s1) !! mx = Some (mkMutex true true false main_t) ∧
    Core_MutexRelease mx s1 = Ret OBOS_STATUS_SUCCESS s2 ∧
    s2 = put_mutex mx (mkMutex false true false nullptr) demo ∧
    Core_MutexAcquire mx s2 = Ret OBOS_STATUS_SUCCESS s1.
Proof.
  apply (mutex_cycle demo IRQL_PASSIVE mx (mkMutex false false false 0) main_t (mkHdr true false));
    [exact demo_quiet|done|vm_compute; reflexivity|done|vm_compute; reflexivity|reflexivity|reflexivity|reflexivity|
     vm_compute; reflexivity|vm_compute; reflexivity|reflexivity|apply demo_empty_list; auto].
Defined.

Lemma mutex_try_witness :
  ∃ s2, (Core_MutexAcquire mx;; Core_MutexRelease mx) demo = Ret OBOS_STATUS_SUCCESS s2 ∧
    Core_MutexTryAcquire mx s2 = Ret OBOS_STATUS_IN_USE s2 ∧ Core_MutexAcquired mx s2 = Ret true s2.
Proof.
  apply (mutex_try_after_release demo IRQL_PASSIVE mx (mkMutex false false false 0) main_t (mkHdr true false));
    [exact demo_quiet|done|vm_compute; reflexivity|done|vm_compute; reflexivity|reflexivity|reflexivity|reflexivity|
     vm_compute; reflexivity|vm_compute; reflexivity|reflexivity|apply demo_empty_list; auto].
Defined.

Lemma mutex_denied_witness :
  Core_MutexRelease mx (put_mutex mx (mkMutex true true false work_t) demo) =
    Ret OBOS_STATUS_ACCESS_DENIED (put_mutex mx (mkMutex true true false work_t) demo).
Proof.
  apply (mutex_release_denied _ mx (mkMutex true true false work_t) main_t);
    [done|vm_compute; reflexivity|vm_compute; reflexivity|reflexivity|done].
Defined.

Lemma semaphore_witness :
  Core_SemaphoreRelease sm demo = Ret OBOS_STATUS_SUCCESS (put_sem sm 2 demo) ∧
  Core_SemaphoreAcquire sm (put_sem sm 2 demo) = Ret OBOS_STATUS_SUCCESS demo ∧
  (0 < 1 → Core_SemaphoreTryAcquire sm demo = Ret OBOS_STATUS_SUCCESS (put_sem sm 0 demo)) ∧
  (1 = 0 → Core_SemaphoreTryAcquire sm demo = Ret OBOS_STATUS_IN_USE demo).
Proof.
  apply (semaphore_counts demo IRQL_PASSIVE sm 1 (mkHdr true false));
    [exact demo_quiet|vm_compute; reflexivity|vm_compute; reflexivity|done|vm_compute; reflexivity|lia|lia|
     vm_compute; reflexivity|reflexivity|apply demo_empty_list; auto].
Defined.

Lemma event_set_reset_witness :
  let s1 := put_event ev (mkEvent true EVENT_NOTIFICATION) (mkHdr true true) demo in
  Core_EventSet ev false demo = Ret OBOS_STATUS_SUCCESS s1 ∧ Core_EventGetState ev s1 = Ret true s1 ∧
  Core_WaitOnObject ev s1 = Ret OBOS_STATUS_SUCCESS s1 ∧
  Core_EventReset ev s1 = Ret OBOS_STATUS_SUCCESS demo ∧ Core_EventGetState ev demo = Ret false demo.
Proof.
  apply (event_set_reset demo IRQL_PASSIVE ev (mkEvent false EVENT_NOTIFICATION) (mkHdr false true) false);
    [exact demo_quiet|vm_compute; reflexivity|done|vm_compute; reflexivity|reflexivity|vm_compute; reflexivity|
     reflexivity|reflexivity|apply demo_empty_list; auto].
Defined.

Lemma event_pulse_witness :
  let s1 := put_event ev (mkEvent false EVENT_NOTIFICATION) (mkHdr true true) demo in
  Core_EventPulse ev false demo = Ret OBOS_STATUS_SUCCESS s1 ∧
  Core_EventGetState ev s1 = Ret false s1 ∧ Core_WaitOnObject ev s1 = Ret OBOS_STATUS_SUCCESS s1.
Proof.
  apply (event_pulse_sticks demo IRQL_PASSIVE ev (mkEvent false EVENT_NOTIFICATION) (mkHdr false true) false);
    [exact demo_quiet|vm_compute; reflexivity|done|vm_compute; reflexivity|vm_compute; reflexivity|
     reflexivity|apply demo_empty_list; auto].
Defined.

(** ** Deferred procedure calls *)

Definition demo_dpc : kst :=
  demo_d <| irq ::= λ i, i <| dpc_objs := {[ 0x7000 := mkDpc 0x100 0 None; 0x7100 := mkDpc 0x200 0 (Some 0%nat) ]} |>
                           <| dpc_links := {[ 0x7000 := unlinked; 0x7100 := unlinked ]} |> |>.

Lemma demo_dpc_quiet : quiet (irq demo_dpc) IRQL_DISPATCH.
Proof. pose proof (level_up_quiet _ _ demo_quiet) as [[] ? ? ?]. split; [split|..]; done. Qed.

Lemma initialize_dpc_witness :
  ∃ k s', CoreH_InitializeDPC 0x7000 0x300 3 demo_dpc = Ret OBOS_STATUS_SUCCESS s' ∧
    (k < 2)%nat ∧ (∀ j, (j < 2)%nat → (0 ≤ 0)%nat) ∧ dpc_rep (irq s') k [0x7000] ∧
    dpc_objs (irq s') !! 0x7000 = Some (mkDpc 0x300 0 (Some k)) ∧
    locks (irq s') = locks (irq demo_dpc) ∧ irql_of (irq s') = irql_of (irq demo_dpc) ∧
    sch s' = sch demo_dpc ∧ (∀ k', k' ≠ k → dpcs (irq s') !! k' = dpcs (irq demo_dpc) !! k').
Proof.
  apply (initialize_dpc_queues demo_dpc 0x7000 0x300 3 (mkDpc 0x100 0 None) (λ _, []));
    [apply demo_dpc_quiet|done|done|done|vm_compute; reflexivity|reflexivity|eexists; vm_compute; reflexivity|].
  intros [|[|k]] y Hy; [..|done]; injection Hy as <-;
    (split; [exists empty_list; split; [vm_compute; reflexivity|apply dl_rep_empty]|]);
    (split; [set_solver|]); (split; [vm_compute; reflexivity|]); (split; [simpl; lia|]); vm_compute; reflexivity.
Defined.

(** One processor with two queued objects, and handlers that queue a third one, as
    those of the timers do. *)
Definition notify : Z := 0x7200.
Definition no_handlers : DpcHandlers := λ _ _ _, mret ().
Definition queue_handlers : DpcHandlers := λ _ _ _, @CoreH_InitializeDPC no_handlers notify 0x300 1;; mret ().
Definition demo_two : kst :=
  demo_d <| irq ::= λ i, i <| dpc_objs := {[ 0x7000 := mkDpc 1 0 (Some 0%nat); 0x7100 := mkDpc 2 0 (Some 0%nat); notify := mkDpc 0 0 None ]} |>
                           <| dpc_links := {[ 0x7000 := mkLink 0x7100 0; 0x7100 := mkLink 0 0x7000; notify := unlinked ]} |>
                           <| dpcs ::= <[0%nat := mkList 0x7000 0x7100 2]> |> |>
         <| sch ::= λ c, c <| cpus ::= take 1 |> |>.

Record notify_inv (s : kst) : Prop := {
  ni_wf : irq_wf (irq s) IRQL_DISPATCH;
  ni_sch : sch s = sch demo_two;
  ni_lock : lock_free (irq s) (DpcQueueLock 0);
  ni_link : notify ∈ dom (dpc_links (irq s));
  ni_obj : ∃ x, dpc_objs (irq s) !! notify = Some x ∧ (dpc_cpu x = None → ∀ q, dpc_rep (irq s) 0 q → notify ∉ q);
  ni_queue q : dpc_rep (irq s) 0 q → q ⊆ [0x7000; 0x7100; notify]
}.

Lemma notify_dequeue s d x l1 l2 :
  notify_inv s → dpc_rep (irq s) 0 (l1 ++ d :: l2) → Z.of_nat (length (l1 ++ d :: l2)) < 2 ^ 64 →
  dpc_objs (irq s) !! d = Some x → notify_inv (dequeued 0 d s).
Proof.
  intros [Hwf Hs Hl Hlk (y & Hy & Hyq) Hq] Hrep Hlen Hx. pose proof Hrep as (l & _ & [Hnd _ _ _ _ _]).
  destruct (dequeued_eq 0 d s l1 l2 x Hrep Hlen Hx) as (_ & Hrep' & _ & _ & Ho & Hdom).
  destruct (dequeued_rest 0 d s) as (Es & El & Hw). rewrite <- Permutation_middle in Hnd. apply NoDup_cons in Hnd as [Hnin _].
  split; [auto|congruence|by unfold lock_free; rewrite El|by rewrite Hdom| |].
  - rewrite Ho. destruct (decide (d = notify)) as [->|Hne].
    + rewrite lookup_insert_eq. eexists. split; [done|]. intros _ q Hq'. by rewrite (dpc_rep_unique _ _ _ _ Hq' Hrep').
    + rewrite lookup_insert_ne by done. exists y. split; [done|]. intros Hn q Hq'. rewrite (dpc_rep_unique _ _ _ _ Hq' Hrep').
      specialize (Hyq Hn _ Hrep). set_solver.
  - intros q Hq'. rewrite (dpc_rep_unique _ _ _ _ Hq' Hrep'). specialize (Hq _ Hrep). set_solver.
Qed.

Lemma notify_call s q :
  notify_inv s → dpc_rep (irq s) 0 q →
  ∃ s1 more, (@CoreH_InitializeDPC no_handlers notify 0x300 1;; mret ()) s = Ret () s1 ∧ notify_inv s1 ∧
    this_cpu (irq s1) = this_cpu (irq s) ∧ dpc_rep (irq s1) 0 (more ++ q) ∧ Z.of_nat (length (more ++ q)) < 2 ^ 64 ∧
    ∀ d, is_Some (dpc_objs (irq s) !! d) → is_Some (dpc_objs (irq s1) !! d).
Proof.
  intros Hi Hrep. pose proof Hi as [Hwf Hs Hl Hlk (y & Hy & Hyq) Hq]. pose proof Hrep as (l & Hl0 & Hr).
  assert (∀ xs, NoDup xs → xs ⊆ [0x7000; 0x7100; notify] → Z.of_nat (length xs) <= 3) as Hlen.
  { intros xs Hnd Hsub. pose proof (submseteq_length _ _ (NoDup_submseteq _ _ Hnd Hsub)). simpl in *. lia. }
  pose proof (Hlen q (rep_nodup _ _ _ Hr) (Hq q Hrep)) as Hq3. destruct (dpc_cpu y) as [k|] eqn:Ec.
  - exists s, []. split; [|split; [done|split; [done|split; [done|split; [simpl; lia|done]]]]].
    erewrite bind_Ret; [done|]. unfold CoreH_InitializeDPC, get_dpc. cbn [truthy notify negb orb Z.eqb].
    erewrite bind_Ret; [|apply load_eq; exact Hy]. by rewrite Ec.
  - apply elem_of_dom in Hlk as Hlk'.
    destruct (@initialize_dpc_eq no_handlers s notify 0x300 1 y 0 l q) as (h' & l' & Hrep' & [_ Hdom] & E); try done; [by apply Hyq|lia|by rewrite Hs|].
    eexists _, [notify]. split; [erewrite bind_Ret; [|exact E]; reflexivity|].
    assert (dpc_rep ((irq s) <| dpc_links := h' |> <| dpcs ::= <[0%nat := l']> |>
      <| dpc_objs ::= <[notify := mkDpc 0x300 (userdata y) (Some 0%nat)]> |>) 0 (notify :: q)) as Hrep2 by (exists l'; split; [apply lookup_insert_eq|done]).
    split; [|split; [done|split; [exact Hrep2|split; [simpl; lia|]]]].
    + split; simpl; [by destruct Hwf|done|done|by rewrite Hdom| |].
      * rewrite lookup_insert_eq. by eexists.
      * intros q' Hq'. rewrite (dpc_rep_unique _ _ _ _ Hq' Hrep2). specialize (Hq q Hrep). set_solver.
    + intros d [z Hz]. simpl. destruct (decide (d = notify)) as [->|Hne]; [rewrite lookup_insert_eq|rewrite lookup_insert_ne by done]; by eexists.
Qed.

Lemma queue_handlers_ok : @handlers_ok queue_handlers notify_inv 0.
Proof.
  split; [by eauto using notify_dequeue|]. intros s d x q Hi Hc Hrep _ _ _ _.
  destruct (notify_call s q Hi Hrep) as (s1 & more & E & Hi1 & Hc1 & Hr1 & Hl1 & Ho1).
  exists s1, more. split; [exact E|]. split; [done|]. split; [by rewrite Hc1|]. auto.
Qed.

Lemma demo_two_queue : dpc_rep (irq demo_two) 0 [0x7000; 0x7100].
Proof.
  eexists. split; [vm_compute; reflexivity|]. split; simpl; try done.
  - apply NoDup_cons. split; [set_solver|apply NoDup_singleton].
  - set_solver.
Qed.

Lemma dispatch_witness :
  ∃ s' post, @CoreH_DispatchDPCs queue_handlers demo_two = Ret () s' ∧
    @handled queue_handlers 0 [] [0x7000; 0x7100] demo_two post s' ∧ dpc_rep (irq s') 0 post ∧ notify_inv s'.
Proof.
  apply (@dispatch_runs_all queue_handlers notify_inv demo_two 0%nat [0x7000; 0x7100]).
  - exact queue_handlers_ok.
  - split.
    + pose proof (level_up_quiet _ _ demo_quiet) as [[] _ _ _]. by split.
    + reflexivity.
    + vm_compute. reflexivity.
    + apply elem_of_dom. eexists. vm_compute. reflexivity.
    + eexists. split; [vm_compute; reflexivity|]. intros _ q Hq. rewrite (dpc_rep_unique _ _ _ _ Hq demo_two_queue). set_solver.
    + intros q Hq. rewrite (dpc_rep_unique _ _ _ _ Hq demo_two_queue). set_solver.
  - reflexivity.
  - exact demo_two_queue.
  - simpl. lia.
  - intros d [->| ->%list_elem_of_singleton]%elem_of_cons; eexists; vm_compute; reflexivity.
Defined.
