(* ===== verification/Bytes.v ===== *)
(** * Byte memory and the block routines ([arch/m68k/memmanip.c])

    The routines of [memmanip.h] over a byte-addressed memory, loop for loop as
    the C version writes them (the x86-64 version has the same contract in
    assembly).  A routine runs in any state that contains such a memory
    ([HasMem]); reading or writing an address that is not mapped is a fault.
    The second half gives each routine its specification: on mapped blocks it
    returns and its effect is one equation on the memory. *)

From S2P Require Import Prelude.

(** ** The memory interface *)

Abbreviation bmem := (gmap Z Z).

Class HasMem (S : Type) := {
  mem_of : S → bmem;
  mem_upd : bmem → S → S;
  mem_of_upd m s : mem_of (mem_upd m s) = m;
  mem_upd_id s : mem_upd (mem_of s) s = s;
  mem_upd_upd m m' s : mem_upd m (mem_upd m' s) = mem_upd m s
}.

#[global, program] Instance bmem_HasMem : HasMem bmem :=
  {| mem_of := λ m, m; mem_upd := λ m _, m |}.
Solve Obligations with done.

Section ops.
Context {S : Type} {HM : HasMem S}.

(** [*p] and [*p = v] for a [char *p] and a [char v]; [setb] also converts an
    integer to a [char]. *)
Definition getb (p : Z) : K S Z := load mem_of p.
Definition putb (p v : Z) : K S () := store mem_of mem_upd p (λ _, v).
Definition setb (p v : Z) : K S () := putb p (wrap8 v).

(** The loops count up from [i]; [n] is the number of rounds left. *)
Fixpoint memset_loop (n : nat) (buf val i : Z) : K S () :=
  match n with
  | O => mret ()
  | Datatypes.S n => setb (buf + i) val;; memset_loop n buf val (i + 1)
  end.
Definition memset (blk val count : Z) : K S Z :=
  memset_loop (Z.to_nat count) blk val 0;; mret blk.

Definition memzero (blk count : Z) : K S Z := memset blk 0 count.

Fixpoint memcpy_loop (n : nat) (blk1 blk2 i : Z) : K S () :=
  match n with
  | O => mret ()
  | Datatypes.S n =>
      b ← getb (blk2 + i); putb (blk1 + i) b;; memcpy_loop n blk1 blk2 (i + 1)
  end.
Definition memcpy (blk1 blk2 count : Z) : K S Z :=
  memcpy_loop (Z.to_nat count) blk1 blk2 0;; mret blk1.

Fixpoint memcmp_loop (n : nat) (blk1 blk2 i : Z) : K S bool :=
  match n with
  | O => mret true
  | Datatypes.S n =>
      a ← getb (blk1 + i); b ← getb (blk2 + i);
      if negb (a =? b) then mret false else memcmp_loop n blk1 blk2 (i + 1)
  end.
Definition memcmp (blk1 blk2 count : Z) : K S bool :=
  memcmp_loop (Z.to_nat count) blk1 blk2 0.

Fixpoint memcmp_b_loop (n : nat) (blk1 against i : Z) : K S bool :=
  match n with
  | O => mret true
  | Datatypes.S n =>
      a ← getb (blk1 + i);
      if negb (a =? wrap8 against) then mret false else memcmp_b_loop n blk1 against (i + 1)
  end.
Definition memcmp_b (blk1 against count : Z) : K S bool :=
  memcmp_b_loop (Z.to_nat count) blk1 against 0.

(** Every round of these two reads another address, so that a run through more
    rounds than there are mapped addresses cannot happen. *)
Fixpoint strlen_loop (fuel : nat) (str i : Z) : K S Z :=
  b ← getb (str + i);
  if negb (truthy b) then mret i else
  match fuel with
  | O => stop Hang
  | Datatypes.S fuel => strlen_loop fuel str (i + 1)
  end.
Definition strlen (str : Z) : K S Z :=
  m ← gets mem_of; strlen_loop (size m) str 0.

Fixpoint strchr_loop (fuel : nat) (str ch i : Z) : K S Z :=
  b ← getb (str + i);
  if negb (b =? ch) && truthy b then
    match fuel with
    | O => stop Hang
    | Datatypes.S fuel => strchr_loop fuel str ch (i + 1)
    end
  else mret (i + (if b =? ch then 1 else 0)).
Definition strchr (str ch : Z) : K S Z :=
  m ← gets mem_of; strchr_loop (size m) str ch 0.

Definition strcmp (str1 str2 : Z) : K S bool :=
  sz1 ← strlen str1;
  sz2 ← strlen str2;
  if negb (sz1 =? sz2) then mret false else memcmp str1 str2 sz1.

(** What [snprintf] does with the characters [l] it has formatted: at most
    [size - 1] of them and a null character. *)
Fixpoint store_bytes (p : Z) (l : list Z) : K S () :=
  match l with
  | [] => mret ()
  | b :: l => putb p b;; store_bytes (p + 1) l
  end.
Definition snprintf (buf size : Z) (l : list Z) : K S () :=
  if size =? 0 then mret () else store_bytes buf (take (Z.to_nat (size - 1)) l ++ [0]).

End ops.

(** ** Representation *)

(** The bytes [l] are at [p]; [l] is the C string at [p]; [n] bytes at [p] are
    mapped. *)
Definition bytes_at (m : bmem) (p : Z) (l : list Z) : Prop :=
  ∀ i b, l !! i = Some b → m !! (p + Z.of_nat i) = Some b.
Definition cstr_at (m : bmem) (p : Z) (l : list Z) : Prop :=
  bytes_at m p (l ++ [0]) ∧ 0 ∉ l.
Definition mapped (m : bmem) (p : Z) (n : nat) : Prop :=
  ∀ i, (i < n)%nat → is_Some (m !! (p + Z.of_nat i)).
Definition byte (b : Z) : Prop := in_u 8 b.

Definition disjoint_blocks (p : Z) (n : nat) (q : Z) (k : nat) : Prop :=
  p + Z.of_nat n <= q ∨ q + Z.of_nat k <= p.

(** The memory after [l] has been written at [p]. *)
Fixpoint write_bytes (m : bmem) (p : Z) (l : list Z) : bmem :=
  match l with
  | [] => m
  | b :: l => write_bytes (<[p := b]> m) (p + 1) l
  end.

Lemma bytes_at_cons m p b l :
  bytes_at m p (b :: l) ↔ m !! p = Some b ∧ bytes_at m (p + 1) l.
Proof.
  unfold bytes_at. split.
  - intros H. split; [specialize (H 0%nat b eq_refl); by rewrite Z.add_0_r in H|].
    intros i c Hi. specialize (H (S i) c Hi). by replace (p + 1 + Z.of_nat i) with (p + Z.of_nat (S i)) by lia.
  - intros [H0 H] [|i] c; simpl.
    + intros [= <-]. by rewrite Z.add_0_r.
    + intros Hi. replace (p + Z.of_nat (S i)) with (p + 1 + Z.of_nat i) by lia. eauto.
Qed.

Lemma bytes_at_nil m p : bytes_at m p [].
Proof. by intros i b. Qed.

Lemma bytes_at_app m p l1 l2 :
  bytes_at m p (l1 ++ l2) ↔ bytes_at m p l1 ∧ bytes_at m (p + Z.of_nat (length l1)) l2.
Proof.
  revert p. induction l1 as [|b l1 IH]; intros p; simpl.
  - rewrite Z.add_0_r. split; [|naive_solver]. intros H. split; [apply bytes_at_nil|done].
  - rewrite !bytes_at_cons, IH.
    replace (p + Z.of_nat (S (length l1))) with (p + 1 + Z.of_nat (length l1)) by lia. tauto.
Qed.

Lemma bytes_at_mapped m p l : bytes_at m p l → mapped m p (length l).
Proof. intros H i Hi. destruct (lookup_lt_is_Some_2 l i Hi) as [b Hb]. eauto. Qed.

Lemma mapped_bytes m p n : mapped m p n → ∃ l, length l = n ∧ bytes_at m p l.
Proof.
  intros H. exists ((λ i, default 0 (m !! (p + Z.of_nat i))) <$> seq 0 n).
  split; [by rewrite length_fmap, length_seq|]. intros i b. rewrite list_lookup_fmap.
  destruct (seq 0 n !! i) as [j|] eqn:E; [|done]. apply lookup_seq in E as [-> Hi]. simpl.
  intros [= <-]. by destruct (H i Hi) as [c ->].
Qed.

Lemma bytes_at_prefix m p l k : bytes_at m p l → bytes_at m p k → (length k <= length l)%nat →
  k `prefix_of` l.
Proof.
  intros Hl Hk Hlen. exists (drop (length k) l). rewrite <- (take_drop (length k) l) at 1. f_equal.
  apply list_eq_same_length with (length k); [done|rewrite length_take; lia|].
  intros i x y Hi Hx Hy. rewrite lookup_take, decide_True in Hx by done. apply Hl in Hx. apply Hk in Hy. congruence.
Qed.

Lemma bytes_at_sub m m' p l :
  (∀ a, p <= a < p + Z.of_nat (length l) → m' !! a = m !! a) → bytes_at m p l → bytes_at m' p l.
Proof. intros H Hl i b Hi. rewrite H; [eauto|]. pose proof (lookup_lt_Some _ _ _ Hi). lia. Qed.

Lemma mapped_S m p n : mapped m p (S n) ↔ is_Some (m !! p) ∧ mapped m (p + 1) n.
Proof.
  unfold mapped. split.
  - intros H. split; [specialize (H 0%nat ltac:(lia)); by rewrite Z.add_0_r in H|].
    intros i Hi. replace (p + 1 + Z.of_nat i) with (p + Z.of_nat (S i)) by lia. apply H. lia.
  - intros [H0 H] [|i] Hi; [by rewrite Z.add_0_r|].
    replace (p + Z.of_nat (S i)) with (p + 1 + Z.of_nat i) by lia. apply H. lia.
Qed.

Lemma write_bytes_lookup m p l a :
  write_bytes m p l !! a =
    if decide (p <= a < p + Z.of_nat (length l)) then l !! Z.to_nat (a - p) else m !! a.
Proof.
  revert m p. induction l as [|b l IH]; intros m p; simpl; [by case_decide; [lia|]|].
  rewrite IH. case_decide as H1; case_decide as H2; try lia.
  - replace (Z.to_nat (a - p)) with (S (Z.to_nat (a - (p + 1)))) by lia. done.
  - assert (a = p) as -> by lia. by rewrite lookup_insert_eq, Z.sub_diag.
  - by rewrite lookup_insert_ne by lia.
Qed.

Lemma write_bytes_same m p l : bytes_at (write_bytes m p l) p l.
Proof.
  intros i b Hi. rewrite write_bytes_lookup. pose proof (lookup_lt_Some _ _ _ Hi).
  rewrite decide_True by lia. by replace (Z.to_nat (p + Z.of_nat i - p)) with i by lia.
Qed.

Lemma write_bytes_other m p l q k :
  disjoint_blocks p (length l) q (length k) → bytes_at m q k → bytes_at (write_bytes m p l) q k.
Proof.
  intros Hd Hk i b Hi. rewrite write_bytes_lookup. pose proof (lookup_lt_Some _ _ _ Hi).
  rewrite decide_False by (destruct Hd; lia). eauto.
Qed.

Lemma write_bytes_mapped m p l q n : mapped m q n → mapped (write_bytes m p l) q n.
Proof.
  intros H i Hi. rewrite write_bytes_lookup. case_decide; [|eauto].
  apply lookup_lt_is_Some_2. lia.
Qed.

Lemma write_bytes_app m p l1 l2 :
  write_bytes m p (l1 ++ l2) = write_bytes (write_bytes m p l1) (p + Z.of_nat (length l1)) l2.
Proof.
  revert m p. induction l1 as [|b l1 IH]; intros m p; simpl; [by rewrite Z.add_0_r|].
  rewrite IH. f_equal. lia.
Qed.

Lemma disjoint_pointwise p n q k :
  (∀ a, p <= a < p + Z.of_nat n → q <= a < q + Z.of_nat k → False) → n ≠ 0%nat → k ≠ 0%nat → disjoint_blocks p n q k.
Proof.
  intros H Hn Hk. unfold disjoint_blocks.
  destruct (decide (p + Z.of_nat n <= q ∨ q + Z.of_nat k <= p)); [done|].
  exfalso. apply (H (Z.max p q)); lia.
Qed.

Lemma write_bytes_outside m p l a :
  ¬ (p <= a < p + Z.of_nat (length l)) → write_bytes m p l !! a = m !! a.
Proof. intros H. by rewrite write_bytes_lookup, decide_False. Qed.

Lemma zeros_at m p n i : (i < n)%nat → write_bytes m p (replicate n 0) !! (p + Z.of_nat i) = Some 0.
Proof. intros Hi. apply write_bytes_same. by apply lookup_replicate_2. Qed.

(** A block of null characters with [k] written over its beginning. *)
Lemma over_zeros m p (n : nat) k :
  (length k < n)%nat → bytes_at (write_bytes (write_bytes m p (replicate n 0)) p k) p (k ++ [0]).
Proof.
  intros Hn. apply bytes_at_app. split; [apply write_bytes_same|]. apply bytes_at_cons.
  split; [|apply bytes_at_nil]. rewrite write_bytes_outside by lia. by apply zeros_at.
Qed.

Lemma mapped_at m p n a : mapped m p n → p <= a < p + Z.of_nat n → is_Some (m !! a).
Proof. intros H Ha. specialize (H (Z.to_nat (a - p)) ltac:(lia)). by replace (p + _) with a in H by lia. Qed.

Lemma mapped_le m p n k : mapped m p n → (k <= n)%nat → mapped m p k.
Proof. intros H Hk i Hi. apply H. lia. Qed.

(** ** Specifications *)

Section specs.
Context {S : Type} {HM : HasMem S}.
Implicit Types s : S.

Lemma getb_eq p b s : mem_of s !! p = Some b → getb p s = Ret b s.
Proof. intros H. by apply load_eq. Qed.

Lemma putb_eq p v s :
  is_Some (mem_of s !! p) → putb p v s = Ret () (mem_upd (<[p := v]> (mem_of s)) s).
Proof. intros [b H]. exact (store_eq _ _ _ (λ _, v) _ _ H). Qed.

Lemma setb_eq p v s :
  is_Some (mem_of s !! p) → setb p v s = Ret () (mem_upd (<[p := wrap8 v]> (mem_of s)) s).
Proof. apply putb_eq. Qed.

Lemma memset_loop_eq n buf val i s :
  mapped (mem_of s) (buf + i) n →
  memset_loop n buf val i s =
    Ret () (mem_upd (write_bytes (mem_of s) (buf + i) (replicate n (wrap8 val))) s).
Proof.
  revert i s. induction n as [|n IH]; intros i s Hm; simpl; [by rewrite mem_upd_id|].
  apply mapped_S in Hm as [Hb Hm]. erewrite bind_Ret; [|by apply setb_eq].
  rewrite IH; rewrite mem_of_upd, ?Z.add_assoc.
  - by rewrite mem_upd_upd.
  - exact (write_bytes_mapped (mem_of s) (buf + i) [wrap8 val] _ _ Hm).
Qed.

Lemma memset_eq blk val n s :
  mapped (mem_of s) blk n →
  memset blk val (Z.of_nat n) s =
    Ret blk (mem_upd (write_bytes (mem_of s) blk (replicate n (wrap8 val))) s).
Proof.
  intros Hm. unfold memset. rewrite Nat2Z.id.
  erewrite bind_Ret; [|apply memset_loop_eq; by rewrite Z.add_0_r]. by rewrite Z.add_0_r.
Qed.

Lemma memzero_eq blk n s :
  mapped (mem_of s) blk n →
  memzero blk (Z.of_nat n) s = Ret blk (mem_upd (write_bytes (mem_of s) blk (replicate n 0)) s).
Proof. apply memset_eq. Qed.

Lemma memcpy_loop_eq l blk1 blk2 i s :
  bytes_at (mem_of s) (blk2 + i) l → mapped (mem_of s) (blk1 + i) (length l) →
  disjoint_blocks (blk1 + i) (length l) (blk2 + i) (length l) →
  memcpy_loop (length l) blk1 blk2 i s =
    Ret () (mem_upd (write_bytes (mem_of s) (blk1 + i) l) s).
Proof.
  revert i s. induction l as [|b l IH]; intros i s Hb Hm Hd; simpl; [by rewrite mem_upd_id|].
  apply bytes_at_cons in Hb as [H0 Hb]. apply mapped_S in Hm as [H1 Hm].
  unfold disjoint_blocks in *. simpl in Hd.
  erewrite bind_Ret; [|by apply getb_eq]. erewrite bind_Ret; [|by apply putb_eq].
  rewrite IH; rewrite ?mem_of_upd, ?Z.add_assoc.
  - by rewrite mem_upd_upd.
  - apply (write_bytes_other _ _ [b]); [unfold disjoint_blocks; simpl; lia|done].
  - exact (write_bytes_mapped (mem_of s) (blk1 + i) [b] _ _ Hm).
  - lia.
Qed.

Lemma memcpy_eq l blk1 blk2 s :
  bytes_at (mem_of s) blk2 l → mapped (mem_of s) blk1 (length l) →
  disjoint_blocks blk1 (length l) blk2 (length l) →
  memcpy blk1 blk2 (Z.of_nat (length l)) s =
    Ret blk1 (mem_upd (write_bytes (mem_of s) blk1 l) s).
Proof.
  intros. unfold memcpy. rewrite Nat2Z.id.
  erewrite bind_Ret; [|apply memcpy_loop_eq; by rewrite ?Z.add_0_r]. by rewrite Z.add_0_r.
Qed.

Lemma memcmp_loop_eq l1 l2 blk1 blk2 i s :
  length l1 = length l2 → bytes_at (mem_of s) (blk1 + i) l1 → bytes_at (mem_of s) (blk2 + i) l2 →
  memcmp_loop (length l1) blk1 blk2 i s = Ret (bool_decide (l1 = l2)) s.
Proof.
  revert l2 i. induction l1 as [|a l1 IH]; intros [|b l2] i Hl H1 H2; simplify_eq/=; [done|].
  apply bytes_at_cons in H1 as [Ha H1]. apply bytes_at_cons in H2 as [Hb H2].
  erewrite bind_Ret; [|by apply getb_eq]. erewrite bind_Ret; [|by apply getb_eq].
  destruct (Z.eqb_spec a b) as [->|Hne]; simpl.
  - rewrite (IH l2) by (by rewrite ?Z.add_assoc). f_equal. apply bool_decide_ext. naive_solver.
  - rewrite bool_decide_eq_false_2; [done|naive_solver].
Qed.

Lemma memcmp_eq l1 l2 blk1 blk2 s :
  length l1 = length l2 → bytes_at (mem_of s) blk1 l1 → bytes_at (mem_of s) blk2 l2 →
  memcmp blk1 blk2 (Z.of_nat (length l1)) s = Ret (bool_decide (l1 = l2)) s.
Proof. intros. unfold memcmp. rewrite Nat2Z.id. by apply memcmp_loop_eq; rewrite ?Z.add_0_r. Qed.

Lemma memcmp_b_loop_eq l blk v i s :
  bytes_at (mem_of s) (blk + i) l →
  memcmp_b_loop (length l) blk v i s = Ret (bool_decide (l = replicate (length l) (wrap8 v))) s.
Proof.
  revert i. induction l as [|a l IH]; intros i H1; simplify_eq/=; [done|].
  apply bytes_at_cons in H1 as [Ha H1]. erewrite bind_Ret; [|by apply getb_eq].
  destruct (Z.eqb_spec a (wrap8 v)) as [->|Hne]; simpl.
  - rewrite IH by (by rewrite ?Z.add_assoc). f_equal. apply bool_decide_ext. split; [by intros <-|by intros [= <-]].
  - rewrite bool_decide_eq_false_2; [done|by intros [= ? _]].
Qed.

Lemma memcmp_b_eq l blk v s :
  bytes_at (mem_of s) blk l →
  memcmp_b blk v (Z.of_nat (length l)) s = Ret (bool_decide (l = replicate (length l) (wrap8 v))) s.
Proof. intros. unfold memcmp_b. rewrite Nat2Z.id. by apply memcmp_b_loop_eq; rewrite ?Z.add_0_r. Qed.

Lemma store_bytes_eq p l s :
  mapped (mem_of s) p (length l) → store_bytes p l s = Ret () (mem_upd (write_bytes (mem_of s) p l) s).
Proof.
  revert p s. induction l as [|b l IH]; intros p s Hm; simpl; [by rewrite mem_upd_id|].
  apply mapped_S in Hm as [Hb Hm]. erewrite bind_Ret by (by apply putb_eq).
  rewrite IH; rewrite mem_of_upd.
  - by rewrite mem_upd_upd.
  - exact (write_bytes_mapped (mem_of s) p [b] _ _ Hm).
Qed.

Lemma snprintf_eq p l n s :
  (length l < n)%nat → mapped (mem_of s) p (Datatypes.S (length l)) →
  snprintf p (Z.of_nat n) l s = Ret () (mem_upd (write_bytes (mem_of s) p (l ++ [0])) s).
Proof.
  intros Hn Hm. unfold snprintf. rewrite (proj2 (Z.eqb_neq _ _)), take_ge by lia.
  apply store_bytes_eq. by rewrite length_app, Nat.add_1_r.
Qed.

Lemma bytes_at_size m p l : bytes_at m p l → (length l <= size m)%nat.
Proof.
  intros H. set (addrs := (λ i, p + Z.of_nat i) <$> seq 0 (length l)).
  assert (length l = size (list_to_set addrs : gset Z)) as ->.
  { rewrite size_list_to_set; [unfold addrs; by rewrite length_fmap, length_seq|].
    apply NoDup_fmap_2; [intros ? ?; lia|apply NoDup_seq]. }
  rewrite <- (size_dom (D := gset Z)). apply subseteq_size. intros a.
  rewrite elem_of_list_to_set. unfold addrs. rewrite list_elem_of_fmap.
  intros (i & -> & Hi%elem_of_seq). apply elem_of_dom, (bytes_at_mapped _ _ _ H). lia.
Qed.

Lemma strlen_loop_eq l fuel str i s :
  bytes_at (mem_of s) (str + i) (l ++ [0]) → 0 ∉ l → (length l <= fuel)%nat →
  strlen_loop fuel str i s = Ret (i + Z.of_nat (length l)) s.
Proof.
  revert fuel i. induction l as [|b l IH]; intros fuel i H H0 Hf; simpl in H.
  - apply bytes_at_cons in H as [Hb _]. destruct fuel; simpl; (erewrite bind_Ret; [|by apply getb_eq]);
      simpl; by rewrite Z.add_0_r.
  - apply bytes_at_cons in H as [Hb H]. apply not_elem_of_cons in H0 as [Hnz H0].
    destruct fuel as [|fuel]; simpl in *; [lia|]. erewrite bind_Ret; [|by apply getb_eq].
    rewrite (proj2 (truthy_true b)) by done. simpl. rewrite IH; [f_equal; lia|by rewrite Z.add_assoc|done|lia].
Qed.

Lemma strlen_eq l str s : cstr_at (mem_of s) str l → strlen str s = Ret (Z.of_nat (length l)) s.
Proof.
  intros [H H0]. unfold strlen. rewrite (bind_Ret _ _ _ _ _ (gets_eq _ _)).
  rewrite (strlen_loop_eq l); [done|by rewrite Z.add_0_r|done|].
  apply bytes_at_size in H. rewrite length_app in H. simpl in H. lia.
Qed.

(** [strchr] gives one more than the position of the character, or the length
    when it does not occur. *)
Fixpoint chr_pos (ch : Z) (l : list Z) : nat :=
  match l with
  | [] => 0
  | b :: l => if b =? ch then 1 else Datatypes.S (chr_pos ch l)
  end.

Lemma strchr_loop_eq l fuel str ch i s :
  bytes_at (mem_of s) (str + i) (l ++ [0]) → 0 ∉ l → ch ≠ 0 → (length l <= fuel)%nat →
  strchr_loop fuel str ch i s = Ret (i + Z.of_nat (chr_pos ch l)) s.
Proof.
  intros H H0 Hch. revert fuel i H H0. induction l as [|b l IH]; intros fuel i H H0 Hf; simpl in H.
  - apply bytes_at_cons in H as [Hb _]. destruct fuel; simpl; (erewrite bind_Ret; [|by apply getb_eq]);
      rewrite (proj2 (Z.eqb_neq 0 ch)) by done; done.
  - apply bytes_at_cons in H as [Hb H]. apply not_elem_of_cons in H0 as [Hnz H0].
    destruct fuel as [|fuel]; simpl in *; [lia|]. erewrite bind_Ret; [|by apply getb_eq].
    rewrite (proj2 (truthy_true b)) by done. destruct (b =? ch); simpl; [done|].
    rewrite IH; [f_equal; lia|by rewrite Z.add_assoc|done|lia].
Qed.

Lemma strchr_eq l str ch s :
  cstr_at (mem_of s) str l → ch ≠ 0 → strchr str ch s = Ret (Z.of_nat (chr_pos ch l)) s.
Proof.
  intros [H H0] Hch. unfold strchr. rewrite (bind_Ret _ _ _ _ _ (gets_eq _ _)).
  rewrite (strchr_loop_eq l); [done|by rewrite Z.add_0_r|done|done|].
  apply bytes_at_size in H. rewrite length_app in H. simpl in H. lia.
Qed.

Lemma chr_pos_absent ch l : ch ∉ l → chr_pos ch l = length l.
Proof.
  induction l as [|b l IH]; intros H; simpl; [done|]. apply not_elem_of_cons in H as [Hne H].
  rewrite (proj2 (Z.eqb_neq b ch)) by done. by rewrite IH.
Qed.

Lemma chr_pos_app ch l1 l2 : ch ∉ l1 → chr_pos ch (l1 ++ ch :: l2) = Datatypes.S (length l1).
Proof.
  induction l1 as [|b l1 IH]; intros H; simpl; [by rewrite Z.eqb_refl|].
  apply not_elem_of_cons in H as [Hne H]. rewrite (proj2 (Z.eqb_neq b ch)) by done. by rewrite IH.
Qed.

Lemma strcmp_eq l1 l2 str1 str2 s :
  cstr_at (mem_of s) str1 l1 → cstr_at (mem_of s) str2 l2 →
  strcmp str1 str2 s = Ret (bool_decide (l1 = l2)) s.
Proof.
  intros H1 H2. unfold strcmp. erewrite bind_Ret; [|by apply strlen_eq].
  erewrite bind_Ret; [|by apply strlen_eq].
  destruct (Z.eqb_spec (Z.of_nat (length l1)) (Z.of_nat (length l2))) as [E|E]; simpl.
  - destruct H1 as [[H1 _]%bytes_at_app _], H2 as [[H2 _]%bytes_at_app _]. apply memcmp_eq; [lia|done|done].
  - rewrite bool_decide_eq_false_2; [done|]. intros ->. done.
Qed.

End specs.
