(* ===== verification/Alloc.v ===== *)
(** * The allocator interface ([allocators/base.h])

    [allocator_info] is a table of function pointers; its clients (strings, the
    command line, ...) are verified against the contract its header documents.
    [Allocator] has the operations, [AllocatorSpec] the contract: memory that is
    not allocated is not mapped, a new block is mapped and disjoint from all
    that was mapped, and nothing but the allocator's own state and the block
    changes.  [bump] is an implementation, which shows that the contract can be
    met and makes the clients executable. *)

From S2P Require Import Prelude Bytes.

(** ** The state of the library code

    Byte memory, the [string] objects ([utils/string.h]; their [sso] buffer is
    the 33 bytes at the object's address), the command line globals, and [heap],
    what an allocator keeps about its blocks: the live ones with their sizes. *)

Record kstring := mkString { ls : Z; len : Z; cap : Z; allocator : Z }.
#[export] Instance eta_kstring : Etable kstring :=
  λ r, mkString (ls r) (len r) (cap r) (allocator r).

Abbreviation heap_st := (gmap Z nat).

Record ust := mkUst {
  umem : bmem;
  strings : gmap Z kstring;
  OBOS_KernelAllocator : Z;
  OBOS_KernelCmdLine : Z;
  OBOS_argv : list Z;
  heap : heap_st
}.
#[export] Instance eta_ust : Etable ust :=
  λ r, mkUst (umem r) (strings r) (OBOS_KernelAllocator r) (OBOS_KernelCmdLine r)
         (OBOS_argv r) (heap r).

#[global, program] Instance ust_HasMem : HasMem ust :=
  {| mem_of := umem; mem_upd := λ m s, s <| umem := m |> |}.
Solve Obligations with (intros; by repeat match goal with s : ust |- _ => destruct s end).

(** ** Operations and contract *)

(** [this->Allocate(this, nBytes, nullptr)] and so on; the status out-parameter
    is not used by the modelled clients. *)
Class Allocator := {
  Allocate : Z → Z → K ust Z;
  ZeroAllocate : Z → Z → Z → K ust Z;
  Reallocate : Z → Z → Z → K ust Z;
  Free : Z → Z → Z → K ust obos_status;
  QueryBlockSize : Z → Z → K ust Z
}.

(** [s'] is [s] with the block [q] of [n] bytes in addition. *)
Record extends (s : ust) (q : Z) (n : nat) (s' : ust) : Prop := {
  ex_nonnull : q ≠ 0;
  ex_fresh a : q <= a < q + Z.of_nat n → umem s !! a = None;
  ex_mapped : mapped (umem s') q n;
  ex_frame a : ¬ (q <= a < q + Z.of_nat n) → umem s' !! a = umem s !! a;
  ex_rest : s' = s <| umem := umem s' |> <| heap := heap s' |>
}.

(** [s'] is [s] with the block [q] of [n] bytes in place of the block [p] of
    [k] bytes, whose contents it has. *)
Record replaces (s : ust) (p : Z) (k : nat) (q : Z) (n : nat) (s' : ust) : Prop := {
  rp_nonnull : q ≠ 0;
  rp_fresh a : q <= a < q + Z.of_nat n → ¬ (p <= a < p + Z.of_nat k) → umem s !! a = None;
  rp_mapped : mapped (umem s') q n;
  rp_contents (i : nat) : (i < k)%nat → (i < n)%nat →
    umem s' !! (q + Z.of_nat i) = umem s !! (p + Z.of_nat i);
  rp_frame a : ¬ (q <= a < q + Z.of_nat n) → ¬ (p <= a < p + Z.of_nat k) →
    umem s' !! a = umem s !! a;
  rp_rest : s' = s <| umem := umem s' |> <| heap := heap s' |>
}.

(** [room s n]: a request for [n] bytes will be granted.  [live s p k]: [p] is a
    block of [k] bytes. *)
Class AllocatorSpec (A : Allocator) := {
  room : ust → nat → Prop;
  live : ust → Z → nat → Prop;
  live_heap s s' p k : heap s' = heap s → live s p k → live s' p k;
  room_heap s s' n : heap s' = heap s → room s n → room s' n;
  Allocate_spec al s n : room s n →
    ∃ q s', Allocate al (Z.of_nat n) s = Ret q s' ∧ extends s q n s' ∧ live s' q n;
  ZeroAllocate_spec al s n k : room s (n * k) →
    ∃ q s', ZeroAllocate al (Z.of_nat n) (Z.of_nat k) s = Ret q s' ∧
      extends s q (n * k) s' ∧ live s' q (n * k) ∧
      bytes_at (umem s') q (replicate (n * k) 0);
  Reallocate_null al s n : room s n → n ≠ 0%nat →
    ∃ q s', Reallocate al nullptr (Z.of_nat n) s = Ret q s' ∧ extends s q n s' ∧ live s' q n;
  Reallocate_spec al s p k n : live s p k → mapped (umem s) p k → room s n → n ≠ 0%nat →
    ∃ q s', Reallocate al p (Z.of_nat n) s = Ret q s' ∧ replaces s p k q n s' ∧ live s' q n
}.

(** ** An implementation

    Blocks are placed behind everything that is mapped, zeroed, and never
    reused. *)
Module Bump.

Definition top (m : bmem) : Z := 1 + foldr Z.max 0 (elements (dom m)).

Lemma foldr_max_le l a : a ∈ l → a <= foldr Z.max 0 l.
Proof. induction 1; simpl; lia. Qed.

Lemma foldr_max_nonneg l : 0 <= foldr Z.max 0 l.
Proof. induction l; simpl; lia. Qed.

Lemma top_pos m : 0 < top m.
Proof. unfold top. pose proof (foldr_max_nonneg (elements (dom m))). lia. Qed.

Lemma top_fresh m a : top m <= a → m !! a = None.
Proof.
  intros H. destruct (m !! a) eqn:E; [|done]. exfalso.
  assert (a ∈ elements (dom m)) as Hin by (apply elem_of_elements, elem_of_dom; eauto).
  apply foldr_max_le in Hin. unfold top in H. lia.
Qed.

(** The contents of the block [p] of [k] bytes. *)
Definition contents (m : bmem) (p : Z) (k : nat) : list Z :=
  (λ i, default 0 (m !! (p + Z.of_nat i))) <$> seq 0 k.

Definition place (l : list Z) (s : ust) : res ust Z :=
  let q := top (umem s) in
  Ret q (s <| umem := write_bytes (umem s) q l |> <| heap ::= <[q := length l]> |>).

#[export] Instance bump : Allocator := {|
  Allocate _ n := place (replicate (Z.to_nat n) 0);
  ZeroAllocate _ n k := place (replicate (Z.to_nat (n * k)) 0);
  Reallocate _ p n s :=
    let old := match heap s !! p with Some k => contents (umem s) p k | None => [] end in
    place (resize (Z.to_nat n) 0 old) s;
  Free _ p _ := modify (λ s, s <| heap ::= delete p |>);; mret OBOS_STATUS_SUCCESS;
  QueryBlockSize _ p := k ← load heap p; mret (Z.of_nat k)
|}.

Lemma place_ok l s :
  ∃ q s', place l s = Ret q s' ∧ extends s q (length l) s' ∧ heap s' !! q = Some (length l) ∧
    bytes_at (umem s') q l.
Proof.
  eexists _, _. split; [reflexivity|]. pose proof (top_pos (umem s)). split; [split; simpl|split; simpl].
  - lia.
  - intros a Ha. apply top_fresh. lia.
  - apply bytes_at_mapped, write_bytes_same.
  - intros a Ha. by rewrite write_bytes_lookup, decide_False.
  - by destruct s.
  - apply lookup_insert_eq.
  - apply write_bytes_same.
Qed.

#[export, program] Instance bump_spec : AllocatorSpec bump := {|
  room _ _ := True;
  live s p k := heap s !! p = Some k ∧ p ≠ 0
|}.
Next Obligation. intros s s' p k E. simpl. by rewrite E. Qed.
Next Obligation. done. Qed.
Next Obligation.
  intros al s n _. destruct (place_ok (replicate n 0) s) as (q & s' & E & Hx & Hh & _).
  rewrite length_replicate in *. exists q, s'. simpl. rewrite Nat2Z.id. repeat split; try done; apply Hx.
Qed.
Next Obligation.
  intros al s n k _. destruct (place_ok (replicate (n * k) 0) s) as (q & s' & E & Hx & Hh & Hb).
  rewrite length_replicate in *. exists q, s'. simpl.
  rewrite <- Nat2Z.inj_mul, Nat2Z.id. repeat split; try done; apply Hx.
Qed.
Next Obligation.
  intros al s n _ Hn. simpl. rewrite Nat2Z.id.
  set (l := resize n 0 _). destruct (place_ok l s) as (q & s' & E & Hx & Hh & _).
  assert (length l = n) as Hl by apply length_resize. rewrite Hl in *.
  exists q, s'. repeat split; try done; apply Hx.
Qed.
Next Obligation.
  intros al s p k n [Hp Hp0] Hm _ Hn. simpl. rewrite Hp, Nat2Z.id.
  set (l := resize n 0 _). destruct (place_ok l s) as (q & s' & E & Hx & Hh & Hb).
  assert (length l = n) as Hl by apply length_resize. rewrite Hl in *. destruct Hx as [Hq Hfr Hmap Hfrm Hrest].
  exists q, s'. split; [done|]. split; [split; try done; auto|done].
  intros i Hk Hi. destruct (Hm i Hk) as [b Eb]. rewrite Eb. apply Hb. unfold l, contents.
  rewrite lookup_resize by (by rewrite ?length_fmap, ?length_seq).
  rewrite list_lookup_fmap, lookup_seq_lt by done. simpl. by rewrite Eb.
Qed.

End Bump.
