(* ===== verification/KString.v ===== *)
(** * Strings with a small-string buffer ([utils/string.c])

    A [string] keeps up to 32 characters in the object itself and longer ones
    in a block of its allocator.  The operations, and the theorems that
    initialising and appending implement lists of bytes. *)

From S2P Require Import Prelude Bytes Alloc.

Section ops.
Context {A : Allocator}.

Definition get_string (obj : Z) : K ust kstring := load strings obj.
Definition set_string (obj : Z) (f : kstring → kstring) : K ust () :=
  store strings (λ m s, s <| strings := m |>) obj f.

(** [&obj->sso[0]] *)
Definition sso (obj : Z) : Z := obj.

(** [(len + 0x1f) & ~0x1f] *)
Definition round32 (len : Z) : Z := Z.land (wrap64 (len + 0x1f)) (Z.lnot 0x1f).

Definition OBOS_StringSetAllocator (obj al : Z) : K ust () :=
  set_string obj (λ o, o <| allocator := al |>).

Definition OBOS_GetStringCapacity (obj : Z) : K ust Z :=
  if truthy obj then o ← get_string obj; mret (cap o) else mret 0.
Definition OBOS_GetStringSize (obj : Z) : K ust Z :=
  if truthy obj then o ← get_string obj; mret (len o) else mret 0.
Definition OBOS_GetStringPtr (obj : Z) : K ust Z :=
  o ← get_string obj; mret (if cap o <=? 32 then sso obj else ls o).
Definition OBOS_GetStringCPtr (obj : Z) : K ust Z :=
  o ← get_string obj; mret (if cap o <=? 32 then sso obj else ls o).

Definition OBOS_SetCapacityString (obj c : Z) : K ust () :=
  if c <=? 32 then mret () else
  let c := round32 c in
  o ← get_string obj;
  let oldCap := cap o in
  set_string obj (λ o, o <| cap := c |>);;
  p ← Reallocate (allocator o) (ls o) c;
  set_string obj (λ o, o <| ls := p |>);;
  when (oldCap <=? 32) (memcpy p (sso obj) oldCap;; mret ());;
  memzero (p + oldCap) (wrap64 (c - oldCap));;
  mret ().

Definition OBOS_InitStringLen (obj str n : Z) : K ust () :=
  o ← get_string obj;
  ka ← gets OBOS_KernelAllocator;
  when (negb (truthy (allocator o))) (set_string obj (λ o, o <| allocator := ka |>));;
  set_string obj (λ o, o <| ls := nullptr |>);;
  set_string obj (λ o, o <| cap := 0 |>);;
  set_string obj (λ o, o <| len := 0 |>);;
  if n <=? 32 then
    memzero (sso obj) 33;;
    memcpy (sso obj) str n;;
    set_string obj (λ o, o <| cap := 32 |>);;
    set_string obj (λ o, o <| len := n |>)
  else
    OBOS_SetCapacityString obj n;;
    set_string obj (λ o, o <| len := n |>);;
    o ← get_string obj;
    memzero (ls o) (cap o);;
    memcpy (ls o) str n;;
    mret ().

Definition OBOS_InitString (obj str : Z) : K ust () :=
  n ← strlen str; OBOS_InitStringLen obj str n.

Definition OBOS_ResizeString (obj n : Z) : K ust () :=
  o ← get_string obj;
  when (negb (round32 n =? cap o)) (OBOS_SetCapacityString obj n);;
  o ← get_string obj;
  p ← OBOS_GetStringPtr obj;
  (if n <? len o then memzero (p + len o) (wrap64 (len o - n))
   else memzero (p + len o) (wrap64 (n - len o)));;
  set_string obj (λ o, o <| len := n |>);;
  p ← OBOS_GetStringPtr obj;
  o ← get_string obj;
  setb (p + len o) 0.

Definition OBOS_AppendStringC (obj str : Z) : K ust () :=
  str_len ← strlen str;
  o ← get_string obj;
  let newlen := wrap64 (len o + str_len) in
  OBOS_ResizeString obj newlen;;
  p ← OBOS_GetStringPtr obj;
  memcpy (p + (newlen - str_len)) str str_len;;
  mret ().

Definition OBOS_AppendStringS (obj str : Z) : K ust () :=
  o ← get_string obj;
  t ← get_string str;
  let newlen := wrap64 (len o + len t) in
  OBOS_ResizeString obj newlen;;
  p ← OBOS_GetStringPtr obj;
  t ← get_string str;
  q ← OBOS_GetStringPtr str;
  t ← get_string str;
  memcpy (p + (newlen - len t)) q (len t);;
  mret ().

Definition OBOS_CompareStringNC (str1 str2 str2len : Z) : K ust bool :=
  o ← get_string str1;
  if negb (str2len =? len o) then mret false else
  p ← OBOS_GetStringCPtr str1;
  memcmp p str2 str2len.
Definition OBOS_CompareStringC (str1 str2 : Z) : K ust bool :=
  n ← strlen str2; OBOS_CompareStringNC str1 str2 n.
Definition OBOS_CompareStringS (str1 str2 : Z) : K ust bool :=
  p ← OBOS_GetStringCPtr str2;
  o ← get_string str2;
  OBOS_CompareStringNC str1 p (len o).

Definition OBOS_FreeString (obj : Z) : K ust () :=
  o ← get_string obj;
  if cap o <=? 32 then mret () else
  Free (allocator o) (ls o) (cap o);; mret ().

End ops.

(** ** Representation *)

(** [s] with the object [obj] set to [o], the memory [m] and the heap [h]. *)
Definition with_str (s : ust) (obj : Z) (o : kstring) (m : bmem) (h : heap_st) : ust :=
  s <| strings ::= <[obj := o]> |> <| umem := m |> <| heap := h |>.

(** The capacity of a string of [n] characters: [32], or the next multiple. *)
Definition cap_for (n : nat) : nat := if decide (n <= 32)%nat then 32 else 32 * ((n + 31) / 32).

(** Where the characters are. *)
Definition str_ptr (obj : Z) (o : kstring) : Z := if cap o <=? 32 then sso obj else ls o.

Section rep.
Context {A : Allocator} {AS : AllocatorSpec A}.

(** The storage of [obj] is that of a string of [n] characters. *)
Record buffer (s : ust) (obj : Z) (o : kstring) (n : nat) : Prop := {
  bf_obj : strings s !! obj = Some o;
  bf_nonnull : obj ≠ 0;
  bf_max : Z.of_nat n < 2 ^ 62;
  bf_cap : cap o = Z.of_nat (cap_for n);
  bf_sso : mapped (umem s) (sso obj) 33;
  bf_small : (n <= 32)%nat → ls o = nullptr;
  bf_big : (32 < n)%nat → live s (ls o) (cap_for n) ∧ mapped (umem s) (ls o) (cap_for n) ∧
    disjoint_blocks (ls o) (cap_for n) (sso obj) 33
}.

(** The object [obj] holds the string [l]: the characters are in the object
    for up to 32 of them, otherwise in a block of the capacity that goes with
    the length. *)
Record str_rep (s : ust) (obj : Z) (o : kstring) (l : list Z) : Prop := {
  sr_buf : buffer s obj o (length l);
  sr_len : len o = Z.of_nat (length l);
  sr_chars : bytes_at (umem s) (str_ptr obj o) l
}.

(** The addresses the string occupies. *)
Definition footprint (obj : Z) (o : kstring) (a : Z) : Prop :=
  sso obj <= a < sso obj + 33 ∨ (32 < cap o ∧ ls o <= a < ls o + cap o).

End rep.

(** ** Arithmetic *)

Lemma round32_spec n : 0 <= n < 2 ^ 63 → round32 n = 32 * ((n + 31) / 32).
Proof.
  intros H. unfold round32, wrap. rewrite Z.mod_small by lia.
  change (Z.lnot 0x1f) with (Z.lnot (Z.ones 5)). rewrite <- Z.ldiff_land, Z.ldiff_ones_r by lia.
  rewrite Z.shiftr_div_pow2, Z.shiftl_mul_pow2 by lia. change (2 ^ 5) with 32. lia.
Qed.

Lemma round32_cap n : (32 < n)%nat → Z.of_nat n < 2 ^ 63 → round32 (Z.of_nat n) = Z.of_nat (cap_for n).
Proof.
  intros H1 H2. rewrite round32_spec by lia. unfold cap_for. rewrite decide_False by lia.
  rewrite Nat2Z.inj_mul, Nat2Z.inj_div, Nat2Z.inj_add. done.
Qed.

Lemma cap_for_bounds n : (n <= cap_for n /\ 32 <= cap_for n /\ cap_for n <= n + 32)%nat.
Proof.
  unfold cap_for. case_decide; [lia|].
  pose proof (Nat.div_mod (n + 31) 32 ltac:(lia)). pose proof (Nat.mod_upper_bound (n + 31) 32 ltac:(lia)). lia.
Qed.

Lemma cap_for_mono n k : (n <= k)%nat → (cap_for n <= cap_for k)%nat.
Proof.
  intros H. unfold cap_for. repeat case_decide; try lia.
  - pose proof (Nat.Div0.div_le_mono 63 (k + 31) 32 ltac:(lia)). change (63 / 32)%nat with 1%nat in *. lia.
  - pose proof (Nat.Div0.div_le_mono (n + 31) (k + 31) 32 ltac:(lia)). lia.
Qed.

Lemma cap_for_big n : (32 < n)%nat → (32 < cap_for n)%nat.
Proof. intros. pose proof (cap_for_bounds n). lia. Qed.

Lemma cap_for_small n : (n <= 32)%nat → cap_for n = 32%nat.
Proof. intros. unfold cap_for. by rewrite decide_True. Qed.

(** ** Execution *)

Lemma with_str_id s obj o : strings s !! obj = Some o → with_str s obj o (umem s) (heap s) = s.
Proof. intros H. unfold with_str. destruct s. simpl in *. by rewrite insert_id. Qed.

Lemma with_str_mem s obj o m h m' : mem_upd m' (with_str s obj o m h) = with_str s obj o m' h.
Proof. done. Qed.

Lemma with_str_lookup s obj o m h : strings (with_str s obj o m h) !! obj = Some o.
Proof. apply lookup_insert_eq. Qed.

Lemma get_string_with s obj o m h : get_string obj (with_str s obj o m h) = Ret o (with_str s obj o m h).
Proof. apply load_eq, with_str_lookup. Qed.

Lemma set_string_with s obj o m h f :
  set_string obj f (with_str s obj o m h) = Ret () (with_str s obj (f o) m h).
Proof.
  unfold set_string. erewrite store_eq by apply with_str_lookup. unfold with_str. simpl.
  by rewrite insert_insert_eq.
Qed.

Lemma GetStringPtr_with s obj o m h :
  OBOS_GetStringPtr obj (with_str s obj o m h) = Ret (str_ptr obj o) (with_str s obj o m h).
Proof. unfold OBOS_GetStringPtr. by erewrite bind_Ret by apply get_string_with. Qed.

Lemma extends_with s obj o m h q n s' :
  extends (with_str s obj o m h) q n s' → s' = with_str s obj o (umem s') (heap s').
Proof. intros [_ _ _ _ E]. rewrite E. done. Qed.

Lemma replaces_with s obj o m h p k q n s' :
  replaces (with_str s obj o m h) p k q n s' → s' = with_str s obj o (umem s') (heap s').
Proof. intros [_ _ _ _ _ E]. rewrite E. done. Qed.

(** ** Growing the buffer *)

Section grow.
Context {A : Allocator} {AS : AllocatorSpec A}.
Set Default Proof Using "All".

(** The old block of a string that does not fit in its object. *)
Definition old_block (o : kstring) (a : Z) : Prop := 32 < cap o ∧ ls o <= a < ls o + cap o.

(** From [m] to [m'] the characters moved to the new block [q] of [c] bytes. *)
Record grown (m : bmem) (obj : Z) (o : kstring) (q : Z) (c : nat) (m' : bmem) : Prop := {
  gr_mapped : mapped m' q c;
  gr_copy (i : nat) : Z.of_nat i < cap o → m' !! (q + Z.of_nat i) = m !! (str_ptr obj o + Z.of_nat i);
  gr_fresh a : q <= a < q + Z.of_nat c → ¬ old_block o a → m !! a = None;
  gr_frame a : ¬ (q <= a < q + Z.of_nat c) → ¬ old_block o a → m' !! a = m !! a
}.

(** The last statement of [OBOS_SetCapacityString]. *)
Lemma zero_tail_eq s obj o m h q (k c : nat) :
  (k <= c)%nat → Z.of_nat c < 2 ^ 64 → mapped m q c →
  memzero (q + Z.of_nat k) (wrap64 (Z.of_nat c - Z.of_nat k)) (with_str s obj o m h) =
    Ret (q + Z.of_nat k)
      (with_str s obj o (write_bytes m (q + Z.of_nat k) (replicate (c - k) 0)) h).
Proof.
  intros Hk Hc Hm. rewrite wrap_small by (unfold in_u; lia).
  replace (Z.of_nat c - Z.of_nat k) with (Z.of_nat (c - k)) by lia.
  erewrite memzero_eq; [done|]. intros i Hi. simpl.
  replace (q + Z.of_nat k + Z.of_nat i) with (q + Z.of_nat (k + i)) by lia. apply Hm. lia.
Qed.

Lemma zero_tail_lookup m q (k c : nat) a :
  (k <= c)%nat → ¬ (q + Z.of_nat k <= a < q + Z.of_nat c) →
  write_bytes m (q + Z.of_nat k) (replicate (c - k) 0) !! a = m !! a.
Proof.
  intros Hk Ha. rewrite write_bytes_lookup, length_replicate. rewrite decide_False by lia. done.
Qed.

Lemma SetCapacity_from_sso s obj o m h (k n : nat) :
  cap o = Z.of_nat k → (k <= 32)%nat → ls o = nullptr → mapped m (sso obj) 33 →
  (32 < n)%nat → Z.of_nat n < 2 ^ 62 → room (with_str s obj o m h) (cap_for n) →
  ∃ q m' h', let s' := with_str s obj (o <| cap := Z.of_nat (cap_for n) |> <| ls := q |>) m' h' in
    OBOS_SetCapacityString obj (Z.of_nat n) (with_str s obj o m h) = Ret () s' ∧
    q ≠ 0 ∧ live s' q (cap_for n) ∧ grown m obj o q (cap_for n) m'.
Proof.
  intros Hcap Hk Hls Hsso Hn Hmax Hroom. pose proof (cap_for_bounds n).
  set (c := cap_for n) in *.
  set (o1 := o <| cap := Z.of_nat c |>).
  destruct (Reallocate_null (allocator o) (with_str s obj o1 m h) c) as (q & s1 & Hrun & Hex & Hlive);
    [by eapply room_heap, Hroom|lia|].
  pose proof (extends_with _ _ _ _ _ _ _ _ Hex) as E1. destruct Hex as [Hq Hfresh Hmap Hframe _].
  simpl in Hfresh, Hframe. set (m1 := umem s1) in *. set (h1 := heap s1) in *.
  assert (mapped m1 (sso obj) k) as Hsso1.
  { intros i Hi. rewrite Hframe; [apply Hsso; lia|]. intros Ha. pose proof (Hfresh _ Ha) as E.
    destruct (Hsso i ltac:(lia)) as [b Hb]. unfold sso in *. congruence. }
  destruct (mapped_bytes _ _ _ Hsso1) as (l & Hl & Hbytes).
  assert (disjoint_blocks q k (sso obj) k) as Hdis.
  { unfold disjoint_blocks, sso in *. destruct (decide (obj < q + Z.of_nat k ∧ q < obj + Z.of_nat k)) as [Ho|]; [|lia].
    exfalso. destruct (decide (q <= obj)).
    - destruct (Hsso 0%nat ltac:(lia)) as [b Hb]. rewrite Hfresh in Hb by lia. done.
    - destruct (Hsso (Z.to_nat (q - obj)) ltac:(lia)) as [b Hb]. rewrite Hfresh in Hb by lia. done. }
  exists q, (write_bytes (write_bytes m1 q l) (q + Z.of_nat k) (replicate (c - k) 0)), h1. cbv zeta.
  split; [|split; [done|split]].
  - unfold OBOS_SetCapacityString. rewrite (proj2 (Z.leb_gt _ _)) by lia.
    rewrite round32_cap by lia. fold c. cbv zeta.
    erewrite bind_Ret by apply get_string_with. erewrite bind_Ret by apply set_string_with. fold o1.
    rewrite Hls. erewrite bind_Ret by exact Hrun. rewrite E1.
    erewrite bind_Ret by apply set_string_with. rewrite Hcap, (proj2 (Z.leb_le _ _)) by lia.
    unfold when at 1. erewrite bind_Ret; [|erewrite bind_Ret; [reflexivity|]].
    2: { rewrite <- Hl. apply memcpy_eq; simpl; rewrite ?Hl; try done. intros i Hi. apply Hmap. lia. }
    rewrite with_str_mem. erewrite bind_Ret; [reflexivity|].
    apply zero_tail_eq; [lia|lia|]. by apply write_bytes_mapped.
  - eapply live_heap; [|exact Hlive]. done.
  - split.
    + do 2 apply write_bytes_mapped. done.
    + intros i Hi. rewrite zero_tail_lookup by lia. rewrite write_bytes_lookup, decide_True by lia.
      unfold str_ptr. rewrite (proj2 (Z.leb_le _ _)) by lia.
      replace (Z.to_nat (q + Z.of_nat i - q)) with i by lia.
      destruct (lookup_lt_is_Some_2 l i) as [b Hb]; [lia|]. rewrite Hb.
      pose proof (Hbytes _ _ Hb) as Hb'. rewrite <- Hb'. apply Hframe. intros Ha.
      destruct (Hsso i ltac:(lia)) as [b0 Hb0]. rewrite Hfresh in Hb0 by done. done.
    + intros a Ha _. by apply Hfresh.
    + intros a Ha _. rewrite zero_tail_lookup by lia. rewrite write_bytes_lookup, decide_False by lia.
      by apply Hframe.
Qed.

Lemma SetCapacity_from_block s obj o m h (k n : nat) :
  cap o = Z.of_nat k → (32 < k)%nat → (k <= cap_for n)%nat →
  live (with_str s obj o m h) (ls o) k → mapped m (ls o) k →
  (32 < n)%nat → Z.of_nat n < 2 ^ 62 → room (with_str s obj o m h) (cap_for n) →
  ∃ q m' h', let s' := with_str s obj (o <| cap := Z.of_nat (cap_for n) |> <| ls := q |>) m' h' in
    OBOS_SetCapacityString obj (Z.of_nat n) (with_str s obj o m h) = Ret () s' ∧
    q ≠ 0 ∧ live s' q (cap_for n) ∧ grown m obj o q (cap_for n) m'.
Proof.
  intros Hcap Hk Hkc Hlv Hmp Hn Hmax Hroom. pose proof (cap_for_bounds n).
  set (c := cap_for n) in *.
  set (o1 := o <| cap := Z.of_nat c |>).
  destruct (Reallocate_spec (allocator o) (with_str s obj o1 m h) (ls o) k c) as (q & s1 & Hrun & Hex & Hlive);
    [by eapply live_heap, Hlv|done|by eapply room_heap, Hroom|lia|].
  pose proof (replaces_with _ _ _ _ _ _ _ _ _ _ Hex) as E1. destruct Hex as [Hq Hfresh Hmap Hcont Hframe _].
  simpl in Hfresh, Hframe, Hcont. set (m1 := umem s1) in *. set (h1 := heap s1) in *.
  exists q, (write_bytes m1 (q + Z.of_nat k) (replicate (c - k) 0)), h1. cbv zeta.
  split; [|split; [done|split]].
  - unfold OBOS_SetCapacityString. rewrite (proj2 (Z.leb_gt _ _)) by lia.
    rewrite round32_cap by lia. fold c. cbv zeta.
    erewrite bind_Ret by apply get_string_with. erewrite bind_Ret by apply set_string_with. fold o1.
    erewrite bind_Ret by exact Hrun. rewrite E1.
    erewrite bind_Ret by apply set_string_with. rewrite Hcap, (proj2 (Z.leb_gt (Z.of_nat k) 32)) by lia.
    unfold when at 1. erewrite bind_Ret by reflexivity.
    erewrite bind_Ret; [reflexivity|]. by apply zero_tail_eq; [lia|lia|].
  - eapply live_heap; [|exact Hlive]. done.
  - split.
    + by apply write_bytes_mapped.
    + intros i Hi. rewrite zero_tail_lookup by lia.
      unfold str_ptr. rewrite (proj2 (Z.leb_gt (cap o) 32)) by lia. apply Hcont; lia.
    + intros a Ha Ho. apply Hfresh; [done|]. intros ?. apply Ho. unfold old_block. lia.
    + intros a Ha Ho. rewrite zero_tail_lookup by lia. apply Hframe; [done|]. intros ?. apply Ho. unfold old_block. lia.
Qed.

(** The part of memory outside a string is kept, and stays outside of it. *)
Definition outside_kept (m : bmem) (obj : Z) (o : kstring) (m' : bmem) (o' : kstring) : Prop :=
  ∀ a b, m !! a = Some b → ¬ footprint obj o a → m' !! a = Some b ∧ ¬ footprint obj o' a.

Lemma footprint_old obj o a : ¬ footprint obj o a → ¬ old_block o a.
Proof. unfold footprint, old_block. tauto. Qed.

Lemma sso_outside_block s obj o n i :
  buffer s obj o n → (i < 33)%nat → ¬ old_block o (sso obj + Z.of_nat i).
Proof.
  intros [_ _ _ Hc _ _ Hbig] Hi [H1 H2]. rewrite Hc in *.
  destruct (decide (n <= 32)%nat) as [Hn|Hn]; [rewrite cap_for_small in * by done; lia|].
  destruct Hbig as (_ & _ & [Hd|Hd]); lia.
Qed.

(** The buffer after growing. *)
Lemma grown_buffer s obj o k n q m' h' :
  buffer s obj o k → (32 < n)%nat → Z.of_nat n < 2 ^ 62 →
  grown (umem s) obj o q (cap_for n) m' →
  let o' := o <| cap := Z.of_nat (cap_for n) |> <| ls := q |> in
  live (with_str s obj o' m' h') q (cap_for n) →
  buffer (with_str s obj o' m' h') obj o' n ∧ outside_kept (umem s) obj o m' o'.
Proof.
  intros Hb Hn Hmax [Hmap Hcopy Hfresh Hframe] o' Hlive.
  pose proof (cap_for_big n Hn) as Hbig.
  assert (∀ i, (i < 33)%nat → ¬ (q <= sso obj + Z.of_nat i < q + Z.of_nat (cap_for n)) ) as Hout.
  { intros i Hi Ha. destruct (bf_sso _ _ _ _ Hb i Hi) as [b E].
    rewrite Hfresh in E; [done|done|by eapply sso_outside_block]. }
  split.
  - split; try done.
    + apply with_str_lookup.
    + by destruct Hb.
    + intros i Hi. simpl. rewrite Hframe; [by apply (bf_sso _ _ _ _ Hb)|by apply Hout|by eapply sso_outside_block].
    + lia.
    + intros _. split; [done|]. split; [done|]. unfold disjoint_blocks, sso in *. simpl.
      destruct (decide (q + Z.of_nat (cap_for n) <= obj ∨ obj + 33 <= q)); [done|]. exfalso.
      destruct (decide (q <= obj)); [apply (Hout 0%nat); lia|apply (Hout (Z.to_nat (q - obj))); lia].
  - intros a b Hab Hf. pose proof (footprint_old _ _ _ Hf) as Ho.
    assert (¬ (q <= a < q + Z.of_nat (cap_for n))) as Ha by (intros Ha; rewrite Hfresh in Hab by done; done).
    split; [by rewrite Hframe|]. unfold footprint, o'. simpl. intros [H|[_ H]]; [|done].
    apply Hf. by left.
Qed.

(** [OBOS_ResizeString]'s first step: room for [n] characters. *)
Lemma ensure_capacity s obj o (k n : nat) :
  buffer s obj o k → (k <= n)%nat → Z.of_nat n < 2 ^ 62 → room s (cap_for n) →
  ∃ o' m' h', let s' := with_str s obj o' m' h' in
    when (negb (round32 (Z.of_nat n) =? cap o)) (OBOS_SetCapacityString obj (Z.of_nat n)) s = Ret () s' ∧
    len o' = len o ∧ buffer s' obj o' n ∧ outside_kept (umem s) obj o m' o' ∧
    ∀ i, (i < k)%nat → m' !! (str_ptr obj o' + Z.of_nat i) = umem s !! (str_ptr obj o + Z.of_nat i).
Proof.
  intros Hb Hkn Hmax Hroom. pose proof Hb as [Ho Hnn _ Hcap Hsso Hsm Hbig].
  pose proof (with_str_id _ _ _ Ho) as Hid. pose proof (cap_for_mono _ _ Hkn) as Hmono.
  assert (outside_kept (umem s) obj o (umem s) o) as Hsame by (by intros a b ? ?).
  destruct (decide (n <= 32)%nat) as [Hn|Hn].
  { exists o, (umem s), (heap s). cbv zeta. rewrite Hid. split; [|split; [done|split; [|done]]].
    - unfold when. case_match; [|done]. unfold OBOS_SetCapacityString. by rewrite (proj2 (Z.leb_le _ _)) by lia.
    - split; try done; [by rewrite Hcap, !cap_for_small by lia|intros; apply Hsm; lia|lia]. }
  assert (∀ q m' h', grown (umem s) obj o q (cap_for n) m' →
    live (with_str s obj (o <| cap := Z.of_nat (cap_for n) |> <| ls := q |>) m' h') q (cap_for n) →
    let o' := o <| cap := Z.of_nat (cap_for n) |> <| ls := q |> in let s' := with_str s obj o' m' h' in
    len o' = len o ∧ buffer s' obj o' n ∧ outside_kept (umem s) obj o m' o' ∧
    ∀ i, (i < k)%nat → m' !! (str_ptr obj o' + Z.of_nat i) = umem s !! (str_ptr obj o + Z.of_nat i)) as Hgrow.
  { intros q m' h' Hgr Hlv o' s'. pose proof (cap_for_big n ltac:(lia)).
    destruct (grown_buffer s obj o k n q m' h') as [H1 H2]; try done; [lia|].
    do 3 (split; [done|]). intros i Hi. unfold str_ptr at 1. simpl. rewrite (proj2 (Z.leb_gt _ _)) by lia.
    apply (gr_copy _ _ _ _ _ _ Hgr). pose proof (cap_for_bounds k). lia. }
  rewrite round32_cap by lia. rewrite Hcap.
  destruct (Z.eqb_spec (Z.of_nat (cap_for n)) (Z.of_nat (cap_for k))) as [E|E]; simpl.
  { exists o, (umem s), (heap s). cbv zeta. rewrite Hid. do 2 (split; [done|]). split; [|done].
    assert (cap_for n = cap_for k) as E' by lia. pose proof (cap_for_big n ltac:(lia)).
    assert (32 < k)%nat by (destruct (decide (k <= 32)%nat); [rewrite (cap_for_small k) in * by done; lia|lia]).
    split; try done; [by rewrite Hcap, E'|rewrite E'; intros _; by apply Hbig]. }
  unfold when.
  destruct (decide (k <= 32)%nat) as [Hk|Hk].
  - destruct (SetCapacity_from_sso s obj o (umem s) (heap s) 32 n) as (q & m' & h' & Hrun & Hq & Hlv & Hgr);
      try done; [by rewrite Hcap, cap_for_small|by apply Hsm|lia|by rewrite Hid|].
    rewrite Hid in Hrun. eexists _, m', h'. cbv zeta. split; [exact Hrun|]. by apply Hgrow.
  - destruct (SetCapacity_from_block s obj o (umem s) (heap s) (cap_for k) n) as (q & m' & h' & Hrun & Hq & Hlv & Hgr);
      try done; [apply cap_for_big; lia|rewrite Hid; apply Hbig; lia|apply Hbig; lia|lia|by rewrite Hid|].
    rewrite Hid in Hrun. eexists _, m', h'. cbv zeta. split; [exact Hrun|]. by apply Hgrow.
Qed.

End grow.

(** ** Resizing, appending, initialising *)

Section strings.
Context {A : Allocator} {AS : AllocatorSpec A}.
Set Default Proof Using "All".

(** There is a byte left for the null character. *)
Definition fits (n : nat) : Prop := (n <= 32)%nat ∨ (n < cap_for n)%nat.

Lemma buffer_mapped s obj o n :
  buffer s obj o n → fits n → mapped (umem s) (str_ptr obj o) (S n).
Proof.
  intros [_ _ _ Hc Hsso _ Hbig] Hf i Hi. unfold str_ptr. rewrite Hc.
  destruct (decide (n <= 32)%nat) as [Hn|Hn].
  - rewrite cap_for_small, (proj2 (Z.leb_le _ _)) by lia. apply Hsso. lia.
  - pose proof (cap_for_big n ltac:(lia)). rewrite (proj2 (Z.leb_gt _ _)) by lia.
    destruct Hf; [lia|]. destruct Hbig as (_ & Hm & _); [lia|]. apply Hm. lia.
Qed.

Lemma buffer_footprint s obj o n a :
  buffer s obj o n → fits n → str_ptr obj o <= a < str_ptr obj o + Z.of_nat (S n) → footprint obj o a.
Proof.
  intros [_ _ _ Hc Hsso _ Hbig] Hf Ha. unfold str_ptr, footprint in *. rewrite Hc in *.
  destruct (decide (n <= 32)%nat) as [Hn|Hn].
  - rewrite cap_for_small, (proj2 (Z.leb_le _ _)) in Ha by lia. left. lia.
  - pose proof (cap_for_big n ltac:(lia)). rewrite (proj2 (Z.leb_gt _ _)) in Ha by lia.
    destruct Hf; [lia|]. right. lia.
Qed.

Lemma buffer_upd s obj o o' m m' h n :
  buffer (with_str s obj o m h) obj o n → cap o' = cap o → ls o' = ls o →
  (∀ q k, mapped m q k → mapped m' q k) → buffer (with_str s obj o' m' h) obj o' n.
Proof.
  intros [_ Hn Hmax Hc Hsso Hsm Hbig] Ec El Hm. split; rewrite ?Ec, ?El; try done.
  - apply with_str_lookup.
  - by apply Hm.
  - intros H. destruct (Hbig H) as (Hl & Hmp & Hd). split; [by eapply live_heap, Hl|]. split; [by apply Hm|done].
Qed.

Lemma outside_kept_write m obj o m1 o1 o2 p l :
  outside_kept m obj o m1 o1 → cap o2 = cap o1 → ls o2 = ls o1 →
  (∀ a, p <= a < p + Z.of_nat (length l) → footprint obj o1 a) →
  outside_kept m obj o (write_bytes m1 p l) o2.
Proof.
  intros Hk Ec El Hin a b Hab Hf. destruct (Hk a b Hab Hf) as [H1 H2].
  unfold footprint. rewrite Ec, El. split; [|done].
  rewrite write_bytes_lookup. rewrite decide_False; [done|]. intros Ha. by apply H2, Hin.
Qed.

(** Growing a string to [n] characters appends null characters. *)
Lemma ResizeString_grow s obj o l n :
  str_rep s obj o l → (length l <= n)%nat → Z.of_nat n < 2 ^ 62 → fits n → room s (cap_for n) →
  ∃ o' m' h', let s' := with_str s obj o' m' h' in
    OBOS_ResizeString obj (Z.of_nat n) s = Ret () s' ∧ len o' = Z.of_nat n ∧ buffer s' obj o' n ∧
    outside_kept (umem s) obj o m' o' ∧
    bytes_at m' (str_ptr obj o') (l ++ replicate (S (n - length l)) 0).
Proof.
  intros [Hbuf Hlen Hch] Hln Hmax Hfit Hroom. set (k := length l) in *.
  destruct (ensure_capacity s obj o k n Hbuf Hln Hmax Hroom) as (o1 & m1 & h1 & Hrun & Hlen1 & Hb1 & Hout1 & Hcp).
  set (p := str_ptr obj o1) in *. pose proof (buffer_mapped _ _ _ _ Hb1 Hfit) as Hmp. fold p in Hmp. simpl in Hmp.
  assert (str_ptr obj (o1 <| len := Z.of_nat n |>) = p) as Ep by done.
  assert (mapped m1 (p + Z.of_nat k) (S (n - k))) as Hmp1.
  { intros i Hi. rewrite <- Z.add_assoc, <- Nat2Z.inj_add. apply Hmp. lia. }
  exists (o1 <| len := Z.of_nat n |>), (write_bytes m1 (p + Z.of_nat k) (replicate (S (n - k)) 0)), h1. cbv zeta.
  split; [|split; [done|split; [|split]]].
  - unfold OBOS_ResizeString. erewrite bind_Ret by (apply load_eq; by destruct Hbuf).
    erewrite bind_Ret by exact Hrun. erewrite bind_Ret by apply get_string_with.
    erewrite bind_Ret by apply GetStringPtr_with. fold p. rewrite Hlen1, Hlen.
    rewrite (proj2 (Z.ltb_ge _ _)) by lia. rewrite wrap_small by (unfold in_u; lia).
    replace (Z.of_nat n - Z.of_nat k) with (Z.of_nat (n - k)) by lia.
    erewrite bind_Ret by (apply memzero_eq; intros i Hi; apply Hmp1; lia). simpl umem. rewrite with_str_mem.
    erewrite bind_Ret by apply set_string_with. erewrite bind_Ret by apply GetStringPtr_with. rewrite Ep.
    erewrite bind_Ret by apply get_string_with. simpl len.
    replace (p + Z.of_nat n) with (p + Z.of_nat k + Z.of_nat (n - k)) by lia.
    rewrite setb_eq by (refine (write_bytes_mapped m1 _ _ _ (S (n - k)) Hmp1 (n - k)%nat _); lia). rewrite with_str_mem. do 2 f_equal.
    replace (S (n - k)) with (n - k + 1)%nat by lia. rewrite replicate_add, write_bytes_app, length_replicate. done.
  - eapply buffer_upd; [exact Hb1|done|done|]. intros. by apply write_bytes_mapped.
  - eapply outside_kept_write; [exact Hout1|done|done|]. rewrite length_replicate. intros a Ha.
    eapply buffer_footprint; [exact Hb1|done|]. fold p. lia.
  - rewrite Ep. apply bytes_at_app. fold k. split.
    + intros i b Hi. pose proof (lookup_lt_Some _ _ _ Hi). rewrite write_bytes_lookup, decide_False by lia.
      unfold p. rewrite Hcp by done. by apply Hch.
    + apply write_bytes_same.
Qed.

(** Copying [k] behind [l], once there is room. *)
Lemma append_copy s obj o m h (l k : list Z) src :
  buffer (with_str s obj o m h) obj o (length (l ++ k)) → fits (length (l ++ k)) →
  bytes_at m (str_ptr obj o) (l ++ replicate (S (length k)) 0) → bytes_at m src k →
  (∀ a, src <= a < src + Z.of_nat (length k) → ¬ footprint obj o a) →
  ∃ m', memcpy (str_ptr obj o + Z.of_nat (length l)) src (Z.of_nat (length k)) (with_str s obj o m h) =
      Ret (str_ptr obj o + Z.of_nat (length l)) (with_str s obj o m' h) ∧
    m' = write_bytes m (str_ptr obj o + Z.of_nat (length l)) k ∧
    bytes_at m' (str_ptr obj o) ((l ++ k) ++ [0]).
Proof.
  intros Hb Hf Hch Hsrc Hout. set (p := str_ptr obj o) in *.
  pose proof (buffer_mapped _ _ _ _ Hb Hf) as Hmp. fold p in Hmp. rewrite length_app in Hmp.
  eexists. split; [|split; [reflexivity|]].
  - rewrite memcpy_eq; [done|done|..].
    + intros i Hi. simpl. rewrite <- Z.add_assoc, <- Nat2Z.inj_add. apply Hmp. lia.
    + destruct k as [|b k]; [unfold disjoint_blocks; simpl; lia|].
      apply disjoint_pointwise; [|done|done]. intros a Ha1 Ha2. apply (Hout a Ha2).
      eapply buffer_footprint; [exact Hb|done|]. fold p. rewrite length_app. lia.
  - apply bytes_at_app in Hch as [Hl Hz]. change (S (length k)) with (1 + length k)%nat in Hz.
    rewrite Nat.add_comm, replicate_add in Hz. apply bytes_at_app in Hz as [_ Hz]. rewrite length_replicate in Hz.
    rewrite <- app_assoc. apply bytes_at_app. split; [|apply bytes_at_app; split].
    + apply write_bytes_other; [unfold disjoint_blocks; lia|done].
    + apply write_bytes_same.
    + apply write_bytes_other; [unfold disjoint_blocks; lia|done].
Qed.

Lemma AppendStringC_ok s obj o l k str :
  str_rep s obj o l → cstr_at (umem s) str k →
  (∀ a, str <= a <= str + Z.of_nat (length k) → ¬ footprint obj o a) →
  Z.of_nat (length (l ++ k)) < 2 ^ 62 → fits (length (l ++ k)) → room s (cap_for (length (l ++ k))) →
  ∃ o' m' h', let s' := with_str s obj o' m' h' in
    OBOS_AppendStringC obj str s = Ret () s' ∧ str_rep s' obj o' (l ++ k) ∧
    bytes_at m' (str_ptr obj o') ((l ++ k) ++ [0]) ∧ outside_kept (umem s) obj o m' o'.
Proof.
  intros Hrep [Hsrc Hnz] Hout Hmax Hfit Hroom. pose proof Hrep as [Hbuf Hlen Hch].
  assert (length l <= length (l ++ k))%nat as Hle by (rewrite length_app; lia).
  destruct (ResizeString_grow s obj o l (length (l ++ k)) Hrep Hle Hmax Hfit Hroom)
    as (o1 & m1 & h1 & Hrun & Hlen1 & Hb1 & Hkept & Hch1).
  replace (length (l ++ k) - length l)%nat with (length k) in Hch1 by (rewrite length_app; lia).
  apply bytes_at_app in Hsrc as [Hsrc Hend].
  assert (∀ a, str <= a < str + Z.of_nat (length k) →
    m1 !! a = umem s !! a ∧ ¬ footprint obj o1 a) as Hsrc1.
  { intros a Ha. destruct (bytes_at_mapped _ _ _ Hsrc (Z.to_nat (a - str)) ltac:(lia)) as [b Hb].
    replace (str + Z.of_nat (Z.to_nat (a - str))) with a in Hb by lia. rewrite Hb. apply Hkept; [done|].
    apply Hout. lia. }
  destruct (append_copy s obj o1 m1 h1 l k str) as (m2 & Hcpy & Em2 & Hch2); try done.
  { eapply bytes_at_sub; [|exact Hsrc]. intros a Ha. by apply Hsrc1. }
  { intros a Ha. by apply Hsrc1. }
  exists o1, m2, h1. cbv zeta. split; [|split; [split|split]].
  - unfold OBOS_AppendStringC. erewrite bind_Ret.
    2: { apply strlen_eq. split; [by apply bytes_at_app|done]. }
    erewrite bind_Ret by (apply load_eq; by destruct Hbuf). rewrite Hlen, wrap_small
      by (unfold in_u; rewrite length_app in Hmax; lia).
    rewrite <- Nat2Z.inj_add, <- length_app. cbv zeta. erewrite bind_Ret by exact Hrun.
    erewrite bind_Ret by apply GetStringPtr_with.
    replace (Z.of_nat (length (l ++ k)) - Z.of_nat (length k)) with (Z.of_nat (length l)) by (rewrite length_app; lia).
    erewrite bind_Ret by exact Hcpy. done.
  - eapply buffer_upd; [exact Hb1|done|done|]. intros. subst m2. by apply write_bytes_mapped.
  - done.
  - by apply bytes_at_app in Hch2 as [? _].
  - done.
  - subst m2. eapply outside_kept_write; [exact Hkept|done|done|]. intros a Ha.
    eapply buffer_footprint; [exact Hb1|done|]. rewrite length_app. lia.
Qed.

(** *** Initialising *)

(** The first statements of [OBOS_InitStringLen]. *)
Lemma init_fields s obj o0 str n :
  strings s !! obj = Some o0 →
  ∃ o, cap o = 0 ∧ ls o = nullptr ∧
    OBOS_InitStringLen obj str n s =
      (if n <=? 32 then
         memzero (sso obj) 33;;
         memcpy (sso obj) str n;;
         set_string obj (λ o, o <| cap := 32 |>);;
         set_string obj (λ o, o <| len := n |>)
       else
         OBOS_SetCapacityString obj n;;
         set_string obj (λ o, o <| len := n |>);;
         o ← get_string obj;
         memzero (ls o) (cap o);;
         memcpy (ls o) str n;;
         mret ()) (with_str s obj o (umem s) (heap s)).
Proof.
  intros Ho. pose proof (with_str_id _ _ _ Ho) as Hid.
  exists ((if truthy (allocator o0) then o0 else o0 <| allocator := OBOS_KernelAllocator s |>)
     <| ls := nullptr |> <| cap := 0 |> <| len := 0 |>).
  do 2 (split; [done|]). unfold OBOS_InitStringLen. rewrite <- Hid at 1.
  erewrite bind_Ret by apply get_string_with. erewrite bind_Ret by apply gets_eq.
  erewrite (bind_Ret _ _ _ () (with_str s obj (if truthy (allocator o0) then o0
     else o0 <| allocator := OBOS_KernelAllocator s |>) (umem s) (heap s))).
  2: { unfold when. destruct (truthy (allocator o0)); simpl; [done|]. by rewrite set_string_with. }
  by do 3 (erewrite bind_Ret by apply set_string_with).
Qed.

Record init_pre (s : ust) (obj : Z) (k : list Z) (str : Z) : Prop := {
  ip_nonnull : obj ≠ 0;
  ip_sso : mapped (umem s) (sso obj) 33;
  ip_src : bytes_at (umem s) str k;
  ip_out a : str <= a < str + Z.of_nat (length k) → ¬ (sso obj <= a < sso obj + 33);
  ip_max : Z.of_nat (length k) < 2 ^ 62
}.

Definition init_post (s : ust) (obj : Z) (k : list Z) (o' : kstring) (m' : bmem) (h' : heap_st) : Prop :=
  str_rep (with_str s obj o' m' h') obj o' k ∧
  (fits (length k) → bytes_at m' (str_ptr obj o') (k ++ [0])) ∧
  (∀ a b, umem s !! a = Some b → ¬ (sso obj <= a < sso obj + 33) → m' !! a = Some b).

Lemma init_small s obj o k str :
  init_pre s obj k str → (length k <= 32)%nat → ls o = nullptr →
  ∃ o' m' h', (memzero (sso obj) 33;;
     memcpy (sso obj) str (Z.of_nat (length k));;
     set_string obj (λ o, o <| cap := 32 |>);;
     set_string obj (λ o, o <| len := Z.of_nat (length k) |>)) (with_str s obj o (umem s) (heap s)) =
      Ret () (with_str s obj o' m' h') ∧ init_post s obj k o' m' h'.
Proof.
  intros [Hobj Hsso Hsrc Hout Hmax] Hn Hls. set (p := sso obj) in *.
  set (m1 := write_bytes (umem s) p (replicate 33 0)).
  assert (mapped m1 p 33) as Hm1 by (by apply write_bytes_mapped).
  exists (o <| cap := 32 |> <| len := Z.of_nat (length k) |>), (write_bytes m1 p k), (heap s).
  split; [|split; [split; [split|..]|split]].
  - erewrite bind_Ret by (apply (memzero_eq p 33); exact Hsso). fold m1. rewrite with_str_mem.
    erewrite bind_Ret; [|apply memcpy_eq].
    + rewrite with_str_mem. erewrite bind_Ret by apply set_string_with. by rewrite set_string_with.
    + eapply bytes_at_sub; [|exact Hsrc]. intros a Ha. apply write_bytes_outside.
      rewrite length_replicate. by apply Hout.
    + intros i Hi. apply Hm1. lia.
    + destruct k as [|b k]; [unfold disjoint_blocks; simpl; lia|].
      apply disjoint_pointwise; [|done|done]. intros a Ha1 Ha2. apply (Hout a Ha2). lia.
  - apply with_str_lookup.
  - exact Hobj.
  - exact Hmax.
  - simpl. by rewrite cap_for_small.
  - simpl. by apply write_bytes_mapped.
  - intros _. exact Hls.
  - intros ?. lia.
  - reflexivity.
  - simpl. apply write_bytes_same.
  - intros _. apply over_zeros. lia.
  - intros a b Hab Ha. unfold m1. rewrite write_bytes_outside by lia.
    rewrite write_bytes_outside; [done|]. by rewrite length_replicate.
Qed.

Lemma init_big s obj o k str :
  init_pre s obj k str → (32 < length k)%nat → cap o = 0 → ls o = nullptr →
  room (with_str s obj o (umem s) (heap s)) (cap_for (length k)) →
  ∃ o' m' h', (OBOS_SetCapacityString obj (Z.of_nat (length k));;
     set_string obj (λ o, o <| len := Z.of_nat (length k) |>);;
     o ← get_string obj;
     memzero (ls o) (cap o);;
     memcpy (ls o) str (Z.of_nat (length k));;
     mret ()) (with_str s obj o (umem s) (heap s)) =
      Ret () (with_str s obj o' m' h') ∧ init_post s obj k o' m' h'.
Proof.
  intros [Hobj Hsso Hsrc Hout Hmax] Hn Hc Hls Hroom. pose proof (cap_for_bounds (length k)) as Hcb.
  destruct (SetCapacity_from_sso s obj o (umem s) (heap s) 0 (length k))
    as (q & m1 & h1 & Hrun & Hq & Hlv & [Hmap _ Hfr Hframe]); try done; [lia|].
  set (c := cap_for (length k)) in *. set (o1 := o <| cap := Z.of_nat c |> <| ls := q |>) in *.
  assert (∀ a, ¬ old_block o a) as Hno by (intros a [? _]; lia).
  assert (∀ a, is_Some (umem s !! a) → ¬ (q <= a < q + Z.of_nat c)) as Hnew.
  { intros a [b Hab] Ha. rewrite Hfr in Hab; done. }
  assert (str_ptr obj (o1 <| len := Z.of_nat (length k) |>) = q) as Ep.
  { unfold str_ptr, o1. simpl. by rewrite (proj2 (Z.leb_gt _ _)) by lia. }
  exists (o1 <| len := Z.of_nat (length k) |>), (write_bytes (write_bytes m1 q (replicate c 0)) q k), h1.
  split; [|split; [split; [split|..]|split]].
  - erewrite bind_Ret by exact Hrun. erewrite bind_Ret by apply set_string_with.
    erewrite bind_Ret by apply get_string_with. simpl ls. simpl cap.
    erewrite bind_Ret by (apply memzero_eq; exact Hmap). rewrite with_str_mem.
    erewrite bind_Ret; [|apply memcpy_eq]; [by rewrite with_str_mem|..].
    + eapply bytes_at_sub; [|exact Hsrc]. intros a Ha.
      pose proof (Hnew _ (mapped_at _ _ _ _ (bytes_at_mapped _ _ _ Hsrc) Ha)).
      simpl. rewrite write_bytes_outside by (by rewrite length_replicate). by apply Hframe.
    + apply (mapped_le _ _ c); [by apply write_bytes_mapped|lia].
    + apply disjoint_pointwise; [|lia|lia]. intros a Ha1 Ha2.
      apply (Hnew _ (mapped_at _ _ _ _ (bytes_at_mapped _ _ _ Hsrc) Ha2)). lia.
  - apply with_str_lookup.
  - exact Hobj.
  - exact Hmax.
  - reflexivity.
  - do 2 apply write_bytes_mapped. intros i Hi. rewrite Hframe; [by apply Hsso|by apply Hnew, Hsso|done].
  - intros ?. lia.
  - intros _. split; [by eapply live_heap, Hlv|]. split; [by do 2 apply write_bytes_mapped|].
    apply disjoint_pointwise; [|fold c; lia|done]. intros a Ha1 Ha2.
    apply (Hnew a); [|done]. by eapply mapped_at.
  - reflexivity.
  - rewrite Ep. apply write_bytes_same.
  - rewrite Ep. intros [?|Hf]; [lia|]. apply over_zeros. exact Hf.
  - intros a b Hab Ha. pose proof (Hnew a (ex_intro _ b Hab)). rewrite write_bytes_outside by lia.
    rewrite write_bytes_outside by (by rewrite length_replicate). by rewrite Hframe.
Qed.

Lemma InitStringLen_ok s obj o0 k str :
  strings s !! obj = Some o0 → init_pre s obj k str →
  (∀ o, room (with_str s obj o (umem s) (heap s)) (cap_for (length k))) →
  ∃ o' m' h', OBOS_InitStringLen obj str (Z.of_nat (length k)) s = Ret () (with_str s obj o' m' h') ∧
    init_post s obj k o' m' h'.
Proof.
  intros Ho Hpre Hroom. destruct (init_fields s obj o0 str (Z.of_nat (length k)) Ho) as (o & Hc & Hl & ->).
  destruct (decide (length k <= 32)%nat) as [Hn|Hn].
  - rewrite (proj2 (Z.leb_le _ _)) by lia. by apply init_small.
  - rewrite (proj2 (Z.leb_gt _ _)) by lia. apply init_big; try done. lia.
Qed.

(** Initialising a string object from a C string: the object then holds exactly
    its characters, null-terminated when the buffer has a byte to spare, and
    nothing outside the object and the new block changes. *)
Theorem init_string_correct s obj o0 k str :
  strings s !! obj = Some o0 → init_pre s obj k str → cstr_at (umem s) str k →
  (∀ o, room (with_str s obj o (umem s) (heap s)) (cap_for (length k))) →
  ∃ o' s', OBOS_InitString obj str s = Ret () s' ∧ str_rep s' obj o' k ∧
    (fits (length k) → bytes_at (umem s') (str_ptr obj o') (k ++ [0])) ∧
    OBOS_GetStringSize obj s' = Ret (Z.of_nat (length k)) s' ∧
    (∀ a b, umem s !! a = Some b → ¬ (sso obj <= a < sso obj + 33) → umem s' !! a = Some b).
Proof.
  intros Ho Hpre Hstr Hroom.
  destruct (InitStringLen_ok s obj o0 k str Ho Hpre Hroom) as (o' & m' & h' & Hrun & Hrep & Hch & Hk).
  eexists o', _. split; [unfold OBOS_InitString; erewrite bind_Ret by (by apply strlen_eq); exact Hrun|].
  do 2 (split; [done|]). split; [|done]. unfold OBOS_GetStringSize.
  rewrite (proj2 (truthy_true obj)) by apply Hpre. erewrite bind_Ret by apply get_string_with.
  unfold mret, K_ret. f_equal. apply (sr_len _ _ _ _ Hrep).
Qed.

(** Comparing strings decides equality. *)
Theorem compare_string_correct s a b o1 o2 l1 l2 :
  str_rep s a o1 l1 → str_rep s b o2 l2 →
  OBOS_CompareStringS a b s = Ret (bool_decide (l1 = l2)) s.
Proof.
  intros [[Ha _ _ _ _ _ _] Hl1 H1] [[Hb _ _ _ _ _ _] Hl2 H2].
  unfold OBOS_CompareStringS, OBOS_GetStringCPtr, get_string.
  erewrite bind_Ret by (by erewrite bind_Ret by (by apply load_eq)). erewrite bind_Ret by (by apply load_eq).
  unfold OBOS_CompareStringNC, OBOS_GetStringCPtr, get_string. erewrite bind_Ret by (by apply load_eq).
  rewrite Hl1, Hl2. destruct (Z.eqb_spec (Z.of_nat (length l2)) (Z.of_nat (length l1))) as [E|E]; simpl.
  - erewrite bind_Ret by (by erewrite bind_Ret by (by apply load_eq)). rewrite E. apply memcmp_eq; [lia|done|done].
  - rewrite bool_decide_eq_false_2; [done|]. intros ->. done.
Qed.

(** A string whose length is a multiple of 32 above 32 has no room for its null
    character: resizing to such a length gets a block of exactly that many bytes
    and then writes one byte past it, which is a fault when nothing is mapped
    there and otherwise overwrites what is. *)
Theorem resize_overflows s obj o l n :
  str_rep s obj o l → (length l <= n)%nat → Z.of_nat n < 2 ^ 62 → (32 < n)%nat → cap_for n = n →
  cap_for (length l) ≠ n → room s n →
  ∃ s1 o1, OBOS_SetCapacityString obj (Z.of_nat n) s = Ret () s1 ∧
    strings s1 !! obj = Some o1 ∧ live s1 (ls o1) n ∧
    match umem s1 !! (ls o1 + Z.of_nat n) with
    | None => OBOS_ResizeString obj (Z.of_nat n) s = Stop BadDeref
    | Some _ => ∃ s', OBOS_ResizeString obj (Z.of_nat n) s = Ret () s' ∧
                  umem s' !! (ls o1 + Z.of_nat n) = Some 0
    end.
Proof.
  intros [Hbuf Hlen Hch] Hln Hmax Hn Hcapn Hne Hroom.
  destruct (ensure_capacity s obj o (length l) n Hbuf Hln Hmax ltac:(by rewrite Hcapn))
    as (o1 & m1 & h1 & Hrun & Hlen1 & Hb1 & Hout1 & Hcp).
  pose proof Hb1 as [_ _ _ Hcap1 _ _ Hbig1].
  destruct Hbig1 as (Hlv & Hm1 & _); [done|]. rewrite Hcapn in *. simpl in Hm1.
  assert (str_ptr obj o1 = ls o1) as Ep by (unfold str_ptr; by rewrite Hcap1, (proj2 (Z.leb_gt _ _)) by lia).
  pose proof Hrun as Hset. rewrite when_true in Hset.
  2: { rewrite round32_cap, (bf_cap _ _ _ _ Hbuf), Hcapn by lia. apply negb_true_iff, Z.eqb_neq. lia. }
  eexists _, o1. split; [exact Hset|]. split; [apply with_str_lookup|]. split; [exact Hlv|]. simpl umem.
  set (m2 := write_bytes m1 (ls o1 + Z.of_nat (length l)) (replicate (n - length l) 0)).
  assert (OBOS_ResizeString obj (Z.of_nat n) s =
    setb (ls o1 + Z.of_nat n) 0 (with_str s obj (o1 <| len := Z.of_nat n |>) m2 h1)) as ->.
  { unfold OBOS_ResizeString. erewrite bind_Ret by (apply load_eq; by destruct Hbuf).
    erewrite bind_Ret by exact Hrun. erewrite bind_Ret by apply get_string_with.
    erewrite bind_Ret by apply GetStringPtr_with. rewrite Ep, Hlen1, Hlen.
    rewrite (proj2 (Z.ltb_ge _ _)) by lia. rewrite wrap_small by (unfold in_u; lia).
    replace (Z.of_nat n - Z.of_nat (length l)) with (Z.of_nat (n - length l)) by lia.
    erewrite bind_Ret.
    2: { apply memzero_eq. intros i Hi. simpl. rewrite <- Z.add_assoc, <- Nat2Z.inj_add. apply Hm1. lia. }
    rewrite with_str_mem. erewrite bind_Ret by apply set_string_with. erewrite bind_Ret by apply GetStringPtr_with.
    erewrite bind_Ret by apply get_string_with.
    change (str_ptr obj (o1 <| len := Z.of_nat n |>)) with (str_ptr obj o1). by rewrite Ep. }
  assert (m2 !! (ls o1 + Z.of_nat n) = m1 !! (ls o1 + Z.of_nat n)) as E
    by (apply write_bytes_outside; rewrite length_replicate; lia).
  destruct (m1 !! (ls o1 + Z.of_nat n)) as [b|] eqn:Eb.
  - rewrite setb_eq by (by exists b). eexists. split; [reflexivity|]. apply lookup_insert_eq.
  - unfold setb, putb, store. simpl. by rewrite E.
Qed.

(** [C21] Appending a C string, which is not part of the string itself, to a string
    concatenates, if the combined length is at most 32 or not a multiple of 32 and the
    allocator has room: the object then holds both in a row, null-terminated, whether
    they stay in the object, move from it to a block, or move to a larger block;
    everything outside the string is unchanged, the other strings included. For the
    lengths excluded the null character does not fit in the block (lemma
    [resize_overflows]). *)
Theorem append_string_correct s obj o l k str :
  str_rep s obj o l → cstr_at (umem s) str k →
  (∀ a, str <= a <= str + Z.of_nat (length k) → ¬ footprint obj o a) →
  Z.of_nat (length (l ++ k)) < 2 ^ 62 → fits (length (l ++ k)) → room s (cap_for (length (l ++ k))) →
  ∃ o' s', OBOS_AppendStringC obj str s = Ret () s' ∧ str_rep s' obj o' (l ++ k) ∧
    bytes_at (umem s') (str_ptr obj o') ((l ++ k) ++ [0]) ∧
    (∀ a b, umem s !! a = Some b → ¬ footprint obj o a → umem s' !! a = Some b) ∧
    strings s' = <[obj := o']> (strings s).
Proof.
  intros Hrep Hsrc Hout Hmax Hfit Hroom.
  destruct (AppendStringC_ok s obj o l k str Hrep Hsrc Hout Hmax Hfit Hroom)
    as (o' & m' & h' & Hrun & Hrep' & Hch & Hkept).
  eexists o', _. split; [exact Hrun|]. do 2 (split; [done|]). split; [|done].
  intros a b Hab Hf. by apply Hkept.
Qed.

End strings.
