(* ===== verification/Hex.v ===== *)
(** * Hexadecimal numbers

    [hex2bin], which occurs with the same text in [utils/uuid.c], [cmdline.c]
    and the GDB stub, and the [%0wx] conversion of [printf]; printing then
    parsing is the identity. *)

From S2P Require Import Prelude Bytes.

(** The [switch] of [hex2bin]: the value of a digit, [0] for other characters. *)
Definition hex_digit (c : Z) : Z :=
  if (48 <=? c) && (c <=? 57) then c - 48
  else if (65 <=? c) && (c <=? 70) then c - 65 + 10
  else if (97 <=? c) && (c <=? 102) then c - 97 + 10
  else 0.

Section ops.
Context {S : Type} {HM : HasMem S}.

(** The loop from [i = n - 1] down to [0]; the shift is by less than 64 as long
    as there are at most 16 digits. *)
Fixpoint hex2bin_loop (n : nat) (str j ret : Z) : K S Z :=
  match n with
  | O => mret ret
  | Datatypes.S i =>
      c ← getb (str + Z.of_nat i);
      hex2bin_loop i str (j + 1) (Z.lor ret (wrap64 (Z.shiftl (hex_digit c) (j * 4))))
  end.
Definition hex2bin (str size : Z) : K S Z :=
  c ← getb str;
  let str := if c =? 10 then str + 1 else str in
  hex2bin_loop (Z.to_nat size) str 0 0.

End ops.

(** The characters [%0wx] prints for [n]: at least [w] digits, more when [n]
    needs them. *)
Definition digit_char (d : Z) : Z := if d <? 10 then 48 + d else 87 + d.
Fixpoint hexn (w : nat) (n : Z) : list Z :=
  match w with
  | O => []
  | S w => hexn w (n / 16) ++ [digit_char (n mod 16)]
  end.
Definition ndigits (n : Z) : nat := S (Z.to_nat (Z.log2 n / 4)).
Definition fmt_hex (w : nat) (n : Z) : list Z := hexn (Nat.max w (ndigits n)) n.

(** The number a list of digits denotes. *)
Definition hex_value (l : list Z) : Z := foldl (λ v c, v * 16 + hex_digit c) 0 l.

Lemma hex_digit_range c : 0 <= hex_digit c < 16.
Proof. unfold hex_digit. repeat case_match; rewrite ?andb_true_iff, ?Z.leb_le in *; lia. Qed.

Lemma hex_digit_char d : 0 <= d < 16 → hex_digit (digit_char d) = d.
Proof.
  intros H. unfold digit_char, hex_digit.
  destruct (Z.ltb_spec d 10).
  - rewrite (proj2 (Z.leb_le _ _)), (proj2 (Z.leb_le (48 + d) 57)) by lia. simpl. lia.
  - rewrite (proj2 (Z.leb_gt (87 + d) 57)), andb_false_r by lia.
    rewrite (proj2 (Z.leb_gt (87 + d) 70)), andb_false_r by lia.
    rewrite (proj2 (Z.leb_le _ _)), (proj2 (Z.leb_le (87 + d) 102)) by lia. simpl. lia.
Qed.

Lemma digit_char_pos d : 0 <= d < 16 → 48 <= digit_char d <= 102.
Proof. intros H. unfold digit_char. case_match; lia. Qed.

Lemma length_hexn w n : length (hexn w n) = w.
Proof. revert n. induction w; intros n; simpl; [done|]. rewrite length_app, IHw. simpl. lia. Qed.

Lemma hexn_printable w n c : c ∈ hexn w n → 48 <= c <= 102.
Proof.
  revert n. induction w as [|w IH]; intros n; simpl; [by intros ?%elem_of_nil|].
  intros [H|H%list_elem_of_singleton]%elem_of_app; [eauto|]. subst c. apply digit_char_pos.
  by apply Z.mod_pos_bound.
Qed.

Lemma hex_value_snoc l c : hex_value (l ++ [c]) = hex_value l * 16 + hex_digit c.
Proof. unfold hex_value. by rewrite foldl_app. Qed.

Lemma hex_value_range l : 0 <= hex_value l < 16 ^ Z.of_nat (length l).
Proof.
  induction l as [|c l IH] using rev_ind; [by vm_compute|].
  rewrite hex_value_snoc, length_app, Nat2Z.inj_add, Z.pow_add_r by lia.
  pose proof (hex_digit_range c). change (16 ^ Z.of_nat (length [c])) with 16. lia.
Qed.

Lemma hex_value_hexn w n : 0 <= n → hex_value (hexn w n) = n mod 16 ^ Z.of_nat w.
Proof.
  revert n. induction w as [|w IH]; intros n Hn; simpl hexn; [by rewrite Z.mod_1_r|].
  rewrite hex_value_snoc, IH, hex_digit_char by (try apply Z.div_pos; try apply Z.mod_pos_bound; lia).
  rewrite Nat2Z.inj_succ, Z.pow_succ_r, Z.rem_mul_r by lia. lia.
Qed.

Lemma ndigits_bound n : 0 <= n → n < 16 ^ Z.of_nat (ndigits n).
Proof.
  intros Hn. unfold ndigits. rewrite Nat2Z.inj_succ, Z2Nat.id by (apply Z.div_pos; [apply Z.log2_nonneg|lia]).
  destruct (decide (n = 0)) as [->|Hz]; [by apply Z.pow_pos_nonneg|].
  eapply Z.lt_le_trans; [apply Z.log2_spec; lia|]. change 16 with (2 ^ 4).
  rewrite <- Z.pow_mul_r by (try apply Z.le_le_succ_r, Z.div_pos; try apply Z.log2_nonneg; lia).
  apply Z.pow_le_mono_r; [lia|]. pose proof (Z.mod_pos_bound (Z.log2 n) 4 ltac:(lia)).
  pose proof (Z.div_mod (Z.log2 n) 4 ltac:(lia)). lia.
Qed.

Lemma hex_value_fmt w n : 0 <= n → hex_value (fmt_hex w n) = n.
Proof.
  intros Hn. unfold fmt_hex. rewrite hex_value_hexn by done. apply Z.mod_small. split; [done|].
  eapply Z.lt_le_trans; [by apply ndigits_bound|]. apply Z.pow_le_mono_r; lia.
Qed.

Lemma length_fmt_hex w n : 0 <= n < 16 ^ Z.of_nat w → (0 < w)%nat → length (fmt_hex w n) = w.
Proof.
  intros Hn Hw. unfold fmt_hex, ndigits. rewrite length_hexn.
  enough (S (Z.to_nat (Z.log2 n / 4)) <= w)%nat by lia.
  enough (Z.log2 n / 4 < Z.of_nat w) by lia. apply Z.div_lt_upper_bound; [lia|].
  destruct (decide (n = 0)) as [->|]; [simpl; lia|]. apply Z.log2_lt_pow2; [lia|].
  change 16 with (2 ^ 4) in Hn. rewrite <- Z.pow_mul_r in Hn by lia. apply Hn.
Qed.

(** ** Parsing *)

Lemma lor_shift a b k : 0 <= k → 0 <= a < 2 ^ k → 0 <= b → Z.lor a (Z.shiftl b k) = a + b * 2 ^ k.
Proof.
  intros Hk Ha Hb. assert (Z.land a (Z.shiftl b k) = 0) as Hl.
  { apply Z.bits_inj'. intros i Hi. rewrite Z.land_spec, Z.bits_0, Z.shiftl_spec by done.
    destruct (decide (i < k)).
    - rewrite (Z.testbit_neg_r b) by lia. apply andb_false_r.
    - destruct (decide (a = 0)) as [->|]; [by rewrite Z.testbit_0_l|].
      assert (Z.log2 a < k) by (apply Z.log2_lt_pow2; lia).
      by rewrite (Z.bits_above_log2 a i) by lia. }
  rewrite <- Z.lxor_lor, <- Z.add_nocarry_lxor by done. rewrite Z.shiftl_mul_pow2 by done. done.
Qed.

Section specs.
Context {S : Type} {HM : HasMem S}.
Implicit Types s : S.

Lemma hex2bin_loop_eq l str j ret s :
  bytes_at (mem_of s) str l → 0 <= ret < 2 ^ (4 * Z.of_nat j) → (j + length l <= 16)%nat →
  hex2bin_loop (length l) str (Z.of_nat j) ret s = Ret (ret + 2 ^ (4 * Z.of_nat j) * hex_value l) s.
Proof.
  revert j ret. induction l as [|c l IH] using rev_ind; intros j ret Hb Hr Hj.
  - simpl. by rewrite Z.mul_0_r, Z.add_0_r.
  - rewrite length_app in *. simpl in *. rewrite Nat.add_1_r. cbn [hex2bin_loop].
    apply bytes_at_app in Hb as [Hb [Hc _]%bytes_at_cons].
    erewrite bind_Ret by (by apply getb_eq). pose proof (hex_digit_range c).
    assert (0 < 2 ^ (4 * Z.of_nat j)) by (apply Z.pow_pos_nonneg; lia).
    assert (2 ^ (4 * Z.of_nat (Datatypes.S j)) = 2 ^ (4 * Z.of_nat j) * 16) as Ep.
    { rewrite Nat2Z.inj_succ, Z.mul_succ_r, Z.pow_add_r by lia. done. }
    assert (2 ^ (4 * Z.of_nat (Datatypes.S j)) <= 2 ^ 64) by (apply Z.pow_le_mono_r; lia).
    rewrite Z.shiftl_mul_pow2, (wrap_small 64) by (unfold in_u; replace (Z.of_nat j * 4) with (4 * Z.of_nat j) by lia; nia).
    rewrite <- Z.shiftl_mul_pow2, (Z.mul_comm (Z.of_nat j)), lor_shift by lia.
    replace (Z.of_nat j + 1) with (Z.of_nat (Datatypes.S j)) by lia.
    rewrite IH; [|done|nia|lia]. f_equal. rewrite hex_value_snoc, Ep. nia.
Qed.

Lemma hex2bin_eq l str s :
  bytes_at (mem_of s) str l → (0 < length l <= 16)%nat → head l ≠ Some 10 →
  hex2bin str (Z.of_nat (length l)) s = Ret (hex_value l) s.
Proof.
  intros Hb Hlen Hhd. destruct l as [|c l]; simpl in Hlen; [lia|].
  pose proof Hb as [Hc _]%bytes_at_cons. unfold hex2bin. erewrite bind_Ret by (by apply getb_eq).
  rewrite (proj2 (Z.eqb_neq c 10)) by (intros ->; by apply Hhd). rewrite Nat2Z.id.
  rewrite (hex2bin_loop_eq _ _ 0); [|done|simpl; lia|simpl in *; lia]. f_equal. lia.
Qed.

End specs.
