(* ===== verification/Uuid.v ===== *)
(** * UUIDs ([utils/uuid.c])

    Printing a UUID into a string and parsing it back, on a machine of either
    byte order ([big_endian] is the build-time constant). *)

From S2P Require Import Prelude Bytes Alloc KString Hex.

(** [typedef uint32_t uuid[4]] *)
Record uuid := mkUuid { w0 : Z; w1 : Z; w2 : Z; w3 : Z }.

Definition bswap16 (x : Z) : Z := (x mod 256) * 256 + (x / 256) mod 256.
Definition bswap32 (x : Z) : Z :=
  (x mod 256) * 2 ^ 24 + ((x / 256) mod 256) * 2 ^ 16 + ((x / 2 ^ 16) mod 256) * 256 + (x / 2 ^ 24) mod 256.

Definition dash : Z := 45.

Section ops.
Context {A : Allocator} (big_endian : bool).

Definition host2uuid (i : Z) : Z := if big_endian then bswap32 i else i.

(** The characters of the format "%08x-%04x-%04x-%04x-%04x%08x". *)
Definition uuid_text (u : uuid) : list Z :=
  if negb big_endian then
    fmt_hex 8 (w0 u) ++ [dash] ++
    fmt_hex 4 (Z.land (w1 u) 0xffff) ++ [dash] ++ fmt_hex 4 (Z.shiftr (w1 u) 16) ++ [dash] ++
    fmt_hex 4 (bswap16 (Z.land (w2 u) 0xffff)) ++ [dash] ++ fmt_hex 4 (bswap16 (Z.shiftr (w2 u) 16)) ++
    fmt_hex 8 (bswap32 (w3 u))
  else
    fmt_hex 8 (bswap32 (w0 u)) ++ [dash] ++
    fmt_hex 4 (Z.land (bswap32 (w1 u)) 0xffff) ++ [dash] ++ fmt_hex 4 (Z.shiftr (bswap32 (w1 u)) 16) ++ [dash] ++
    fmt_hex 4 (Z.land (bswap32 (w2 u)) 0xffff) ++ [dash] ++ fmt_hex 4 (Z.shiftr (bswap32 (w2 u)) 16) ++
    fmt_hex 8 (bswap32 (w3 u)).

(** [str] is the local string object, [empty] the literal "". *)
Definition OBOS_UUIDToString (str empty : Z) (u : uuid) (out : Z) : K ust () :=
  memzero (sso str) 33;;
  set_string str (λ _, mkString nullptr 0 0 nullptr);;
  let str_len := 36 in
  OBOS_InitString str empty;;
  OBOS_ResizeString str str_len;;
  p ← OBOS_GetStringPtr str;
  snprintf p (str_len + 1) (uuid_text u);;
  o ← get_string str;
  memcpy (sso out) (sso str) 33;;
  set_string out (λ _, o).

(** The new value of [*out], whose old value is [u]. *)
Definition OBOS_StringToUUID (str : Z) (u : uuid) : K ust uuid :=
  str_len ← OBOS_GetStringSize str;
  if str_len <? 36 then mret u else
  iter ← OBOS_GetStringCPtr str;
  h0 ← hex2bin iter 8;
  let u0 := wrap32 h0 in
  let iter := iter + 8 + 1 in
  h ← hex2bin iter 4;
  let u1 := wrap32 (Z.shiftl h 16) in
  let iter := iter + 4 + 1 in
  h ← hex2bin iter 4;
  let u1 := Z.lor u1 (wrap32 h) in
  let iter := iter + 4 + 1 in
  h ← hex2bin iter 4;
  let u2 := wrap32 (Z.shiftl h 16) in
  let iter := iter + 4 + 1 in
  h ← hex2bin iter 4;
  let u2 := Z.lor u2 (wrap32 h) in
  let iter := iter + 4 in
  h ← hex2bin iter 8;
  let u3 := Z.lor (w3 u) (wrap32 h) in
  mret (mkUuid (host2uuid u0) (host2uuid u1) (host2uuid u2) (host2uuid u3)).

End ops.

(** ** Words *)

(** A word with its halves exchanged. *)
Definition rot16 (x : Z) : Z := (x mod 2 ^ 16) * 2 ^ 16 + x / 2 ^ 16.

Definition uuid_ok (u : uuid) : Prop := in_u 32 (w0 u) ∧ in_u 32 (w1 u) ∧ in_u 32 (w2 u) ∧ in_u 32 (w3 u).

(** A word from its bytes, the least significant one first. *)
Definition word (b0 b1 b2 b3 : Z) : Z := b0 + 256 * (b1 + 256 * (b2 + 256 * b3)).

Lemma low_byte b q : byte b → (b + 256 * q) mod 256 = b.
Proof. unfold byte, in_u. intros H. rewrite Z.mul_comm, Z.mod_add by lia. apply Z.mod_small. lia. Qed.
Lemma high_bytes b q : byte b → (b + 256 * q) / 256 = q.
Proof. unfold byte, in_u. intros H. rewrite Z.mul_comm, Z.div_add, Z.div_small by lia. lia. Qed.

Lemma word_bytes x : in_u 32 x → ∃ b0 b1 b2 b3, byte b0 ∧ byte b1 ∧ byte b2 ∧ byte b3 ∧ x = word b0 b1 b2 b3.
Proof.
  intros H. exists (x mod 256), ((x / 256) mod 256), ((x / 256 / 256) mod 256), (x / 256 / 256 / 256).
  unfold byte, in_u, word in *. change (2 ^ 8) with 256.
  pose proof (Z.div_mod x 256 ltac:(lia)). pose proof (Z.div_mod (x / 256) 256 ltac:(lia)).
  pose proof (Z.div_mod (x / 256 / 256) 256 ltac:(lia)).
  assert (0 <= x / 256 / 256 / 256 < 256).
  { split; [repeat apply Z.div_pos; lia|]. repeat (apply Z.div_lt_upper_bound; [lia|]). lia. }
  repeat (split; [try apply Z.mod_pos_bound; lia|]). lia.
Qed.

Lemma word_divs b0 b1 b2 b3 :
  byte b0 → byte b1 → byte b2 →
  word b0 b1 b2 b3 mod 256 = b0 ∧ word b0 b1 b2 b3 / 256 = b1 + 256 * (b2 + 256 * b3) ∧
  word b0 b1 b2 b3 / 2 ^ 16 = b2 + 256 * b3 ∧ word b0 b1 b2 b3 / 2 ^ 24 = b3.
Proof.
  intros H0 H1 H2. unfold word. change (2 ^ 16) with (256 * 256). change (2 ^ 24) with (256 * 256 * 256).
  rewrite <- !Z.div_div by lia. rewrite low_byte, !high_bytes by done. done.
Qed.

Lemma bswap32_word b0 b1 b2 b3 :
  byte b0 → byte b1 → byte b2 → byte b3 → bswap32 (word b0 b1 b2 b3) = word b3 b2 b1 b0.
Proof.
  intros H0 H1 H2 H3. unfold bswap32. destruct (word_divs b0 b1 b2 b3 H0 H1 H2) as (-> & -> & -> & ->).
  rewrite !low_byte by done. rewrite (Z.mod_small b3) by done. unfold word. lia.
Qed.

Lemma bswap16_bytes b0 b1 : byte b0 → byte b1 → bswap16 (b0 + 256 * b1) = b1 + 256 * b0.
Proof.
  intros H0 H1. unfold bswap16. rewrite low_byte, high_bytes, Z.mod_small by done. lia.
Qed.

Lemma word_halves b0 b1 b2 b3 :
  byte b0 → byte b1 → byte b2 → byte b3 →
  word b0 b1 b2 b3 mod 2 ^ 16 = b0 + 256 * b1 ∧ word b0 b1 b2 b3 / 2 ^ 16 = b2 + 256 * b3.
Proof.
  intros H0 H1 H2 H3. split; [|by apply word_divs]. unfold word, byte, in_u in *.
  replace (b0 + _) with (b0 + 256 * b1 + (b2 + 256 * b3) * 2 ^ 16) by lia.
  rewrite Z.mod_add by lia. apply Z.mod_small. lia.
Qed.

Lemma bswap16_range x : 0 <= bswap16 x < 2 ^ 16.
Proof.
  unfold bswap16. pose proof (Z.mod_pos_bound x 256 ltac:(lia)).
  pose proof (Z.mod_pos_bound (x / 256) 256 ltac:(lia)). lia.
Qed.

Lemma bswap32_range x : in_u 32 (bswap32 x).
Proof.
  unfold in_u, bswap32. pose proof (Z.mod_pos_bound x 256 ltac:(lia)).
  pose proof (Z.mod_pos_bound (x / 256) 256 ltac:(lia)). pose proof (Z.mod_pos_bound (x / 2 ^ 16) 256 ltac:(lia)).
  pose proof (Z.mod_pos_bound (x / 2 ^ 24) 256 ltac:(lia)). lia.
Qed.

Lemma bswap32_halves x :
  in_u 32 x → bswap16 (x mod 2 ^ 16) * 2 ^ 16 + bswap16 (x / 2 ^ 16) = bswap32 x.
Proof.
  intros (b0 & b1 & b2 & b3 & H0 & H1 & H2 & H3 & ->)%word_bytes.
  destruct (word_halves b0 b1 b2 b3) as [-> ->]; try done.
  rewrite !bswap16_bytes, bswap32_word by done. unfold word. lia.
Qed.

Lemma bswap32_bswap32 x : in_u 32 x → bswap32 (bswap32 x) = x.
Proof. intros (b0 & b1 & b2 & b3 & H0 & H1 & H2 & H3 & ->)%word_bytes. by rewrite !bswap32_word. Qed.

Lemma halves_range x : in_u 32 x → 0 <= x mod 2 ^ 16 < 2 ^ 16 ∧ 0 <= x / 2 ^ 16 < 2 ^ 16.
Proof.
  unfold in_u. intros H. split; [by apply Z.mod_pos_bound|].
  split; [apply Z.div_pos; lia|]. apply Z.div_lt_upper_bound; lia.
Qed.

Lemma rot16_rot16 x : in_u 32 x → rot16 (rot16 x) = x.
Proof.
  intros H. destruct (halves_range x H) as [Hl Hh]. unfold rot16 at 1.
  assert (rot16 x = x / 2 ^ 16 + (x mod 2 ^ 16) * 2 ^ 16) as -> by (unfold rot16; lia).
  rewrite Z.mod_add, Z.div_add by lia. rewrite (Z.mod_small (x / _)), (Z.div_small (x / _)) by lia.
  pose proof (Z.div_mod x (2 ^ 16) ltac:(lia)). lia.
Qed.

(** ** Parsing *)

Lemma land_ffff x : Z.land x 0xffff = x mod 2 ^ 16.
Proof. change 0xffff with (Z.ones 16). by rewrite Z.land_ones. Qed.

Lemma fmt_hex_head w n : (0 < w)%nat → head (fmt_hex w n) ≠ Some 10.
Proof.
  intros Hw Hh. destruct (fmt_hex w n) as [|c l] eqn:E; [done|]. injection Hh as ->.
  assert (10 ∈ fmt_hex w n) as H by (rewrite E; apply list_elem_of_here).
  apply hexn_printable in H. lia.
Qed.

Section specs.
Context {A : Allocator} {AS : AllocatorSpec A}.
Set Default Proof Using "All".

(** One printed field at [p] is read back. *)
Lemma hex_field s p w n l :
  bytes_at (umem s) p (fmt_hex w n ++ l) → 0 <= n < 16 ^ Z.of_nat w → (0 < w <= 16)%nat →
  hex2bin p (Z.of_nat w) s = Ret n s ∧ bytes_at (umem s) (p + Z.of_nat w) l.
Proof.
  intros Hb Hn Hw. pose proof (length_fmt_hex w n Hn ltac:(lia)) as Hl.
  apply bytes_at_app in Hb as [Hb Hrest]. rewrite Hl in Hrest. split; [|done].
  rewrite <- Hl. rewrite hex2bin_eq; [by rewrite hex_value_fmt by lia|done|by rewrite Hl|].
  apply fmt_hex_head. lia.
Qed.

Lemma hex_dash s p w n l :
  bytes_at (umem s) p (fmt_hex w n ++ [dash] ++ l) → 0 <= n < 16 ^ Z.of_nat w → (0 < w <= 16)%nat →
  hex2bin p (Z.of_nat w) s = Ret n s ∧ bytes_at (umem s) (p + Z.of_nat w + 1) l.
Proof.
  intros Hb Hn Hw. destruct (hex_field s p w n _ Hb Hn Hw) as [H1 H2]. split; [done|].
  by apply bytes_at_cons in H2 as [_ ?].
Qed.

(** What parsing makes of a printed UUID on a little-endian machine. *)
Definition shuffle (u : uuid) : uuid := mkUuid (w0 u) (rot16 (w1 u)) (bswap32 (w2 u)) (bswap32 (w3 u)).

Lemma StringToUUID_text s obj o u old :
  str_rep s obj o (uuid_text false u) → uuid_ok u → w3 old = 0 →
  OBOS_StringToUUID false obj old s = Ret (shuffle u) s.
Proof.
  intros [[Ho Hnn _ _ _ _ _] Hlen Hch] (H0 & H1 & H2 & H3) Hold.
  destruct (halves_range _ H1) as [H1l H1h]. destruct (halves_range _ H2) as [H2l H2h].
  pose proof (bswap16_range (w2 u mod 2 ^ 16)). pose proof (bswap16_range (w2 u / 2 ^ 16)).
  pose proof (bswap32_range (w3 u)) as H3r. unfold in_u in H3r, H0.
  unfold uuid_text in *. cbn [negb] in *. rewrite !land_ffff, !Z.shiftr_div_pow2 in * by lia.
  assert (length (fmt_hex 8 (w0 u)) = 8%nat) as L0 by (apply length_fmt_hex; lia).
  rewrite !length_app, L0 in Hlen. rewrite !length_fmt_hex in Hlen by (simpl; lia).
  unfold OBOS_StringToUUID, OBOS_GetStringSize, OBOS_GetStringCPtr, get_string.
  rewrite (proj2 (truthy_true obj)) by done.
  erewrite bind_Ret by (by erewrite bind_Ret by (by apply load_eq)). rewrite Hlen, (proj2 (Z.ltb_ge _ _)) by (simpl; lia).
  erewrite bind_Ret by (by erewrite bind_Ret by (by apply load_eq)).
  change (if cap o <=? 32 then sso obj else ls o) with (str_ptr obj o).
  apply hex_dash in Hch as [E Hch]; [|simpl; lia|lia]. erewrite bind_Ret by exact E. clear E.
  apply hex_dash in Hch as [E Hch]; [|simpl; lia|lia]. erewrite bind_Ret by exact E. clear E.
  apply hex_dash in Hch as [E Hch]; [|simpl; lia|lia]. erewrite bind_Ret by exact E. clear E.
  apply hex_dash in Hch as [E Hch]; [|simpl; lia|lia]. erewrite bind_Ret by exact E. clear E.
  apply hex_field in Hch as [E Hch]; [|simpl; lia|lia]. erewrite bind_Ret by exact E. clear E.
  rewrite <- (app_nil_r (fmt_hex 8 _)) in Hch.
  apply hex_field in Hch as [E _]; [|simpl; lia|lia]. erewrite bind_Ret by exact E. clear E.
  unfold host2uuid, shuffle. do 2 f_equal.
  - by rewrite wrap_small.
  - rewrite Z.shiftl_mul_pow2, !wrap_small by (unfold in_u; lia).
    rewrite Z.lor_comm, <- Z.shiftl_mul_pow2, lor_shift by lia. unfold rot16. lia.
  - rewrite Z.shiftl_mul_pow2, !wrap_small by (unfold in_u; lia).
    rewrite Z.lor_comm, <- Z.shiftl_mul_pow2, lor_shift by lia. rewrite <- bswap32_halves by done. lia.
  - rewrite Hold, Z.lor_0_l, wrap_small; [done|apply bswap32_range].
Qed.

(** ** Printing *)

Lemma length_uuid_text u : uuid_ok u → length (uuid_text false u) = 36%nat.
Proof.
  intros (H0 & H1 & H2 & H3). destruct (halves_range _ H1) as [H1l H1h].
  pose proof (bswap16_range (w2 u mod 2 ^ 16)). pose proof (bswap16_range (w2 u / 2 ^ 16)).
  pose proof (bswap32_range (w3 u)) as H3r. unfold in_u in H3r, H0.
  unfold uuid_text. cbn [negb]. rewrite !land_ffff, !Z.shiftr_div_pow2 by lia.
  rewrite !length_app, !length_fmt_hex by (simpl; lia). done.
Qed.

(** The local string object, the literal and the result object. *)
Record print_pre (s : ust) (str empty out : Z) : Prop := {
  pp_str : is_Some (strings s !! str) ∧ str ≠ 0 ∧ mapped (umem s) (sso str) 33;
  pp_out : is_Some (strings s !! out) ∧ out ≠ 0 ∧ mapped (umem s) (sso out) 33;
  pp_disjoint : disjoint_blocks (sso out) 33 (sso str) 33;
  pp_empty : umem s !! empty = Some 0 ∧ ¬ (sso str <= empty < sso str + 33);
  pp_room s' n : room s' n
}.

(** The local string with 36 null characters, in a block of 64 bytes. *)
Lemma print_buffer s str empty out u :
  print_pre s str empty out → uuid_ok u →
  ∃ o m h, let s1 := with_str s str o m h in
    (memzero (sso str) 33;;
     set_string str (λ _, mkString nullptr 0 0 nullptr);;
     OBOS_InitString str empty;;
     OBOS_ResizeString str 36) s = Ret () s1 ∧
    len o = 36 ∧ buffer s1 str o 36 ∧
    ∀ a b, umem s !! a = Some b → ¬ (sso str <= a < sso str + 33) → m !! a = Some b ∧ ¬ footprint str o a.
Proof.
  intros [(Hex & Hnn & Hm) _ _ [He Hed] Hroom] Hu. destruct Hex as [o0 Ho0].
  pose proof (with_str_id _ _ _ Ho0) as Hid.
  set (z := mkString nullptr 0 0 nullptr). set (m1 := write_bytes (umem s) (sso str) (replicate 33 0)).
  set (s1 := with_str s str z m1 (heap s)).
  assert (cstr_at m1 empty []) as Hempty.
  { split; [|by intros ?%elem_of_nil]. apply bytes_at_cons. split; [|apply bytes_at_nil].
    unfold m1. rewrite write_bytes_outside; [done|]. by rewrite length_replicate. }
  destruct (InitStringLen_ok s1 str z [] empty) as (o1 & m2 & h2 & Hini & Hrep & _ & Hk2).
  { apply with_str_lookup. }
  { split; [done|by apply write_bytes_mapped|apply bytes_at_nil|simpl; lia|simpl; lia]. }
  { done. }
  destruct (ResizeString_grow _ str o1 [] 36 Hrep) as (o2 & m3 & h3 & Hres & Hl2 & Hb2 & Hk3 & _);
    [simpl; lia|lia|right; vm_compute; lia|done|].
  assert (with_str (with_str s1 str o1 m2 h2) str o2 m3 h3 = with_str s str o2 m3 h3) as E.
  { unfold s1, with_str. simpl. by rewrite !insert_insert_eq. }
  rewrite E in *. exists o2, m3, h3. cbv zeta. split; [|split; [done|split; [done|]]].
  - rewrite <- Hid at 1. erewrite bind_Ret by (apply (memzero_eq (sso str) 33); exact Hm).
    fold m1. rewrite with_str_mem. erewrite bind_Ret by apply set_string_with. fold z s1.
    unfold OBOS_InitString. erewrite bind_Ret by (erewrite bind_Ret by (by apply strlen_eq); exact Hini).
    exact Hres.
  - intros a b Hab Ha. apply Hk3.
    + apply Hk2; [|done]. simpl. unfold m1. by rewrite write_bytes_outside by (by rewrite length_replicate).
    + pose proof (bf_cap _ _ _ _ (sr_buf _ _ _ _ Hrep)) as Hc. change (cap_for (length (@nil Z))) with 32%nat in Hc.
      unfold footprint. lia.
Qed.

Lemma UUIDToString_ok s str empty out u :
  print_pre s str empty out → uuid_ok u →
  ∃ s' o, OBOS_UUIDToString false str empty u out s = Ret () s' ∧ str_rep s' out o (uuid_text false u).
Proof.
  intros Hpre Hu. pose proof (length_uuid_text u Hu) as Hlen.
  destruct (print_buffer s str empty out u Hpre Hu) as (o & m & h & Hrun & Hl & Hb & Hk).
  destruct Hpre as [_ ((o0 & Ho0) & Hn & Hmo) Hdis _ _].
  assert (fits 36) as Hfit by (right; vm_compute; lia).
  pose proof (buffer_mapped _ _ _ _ Hb Hfit) as Hmp. simpl in Hmp.
  pose proof Hb as [_ _ Hmax Hcap Hsso _ Hbig]. destruct (Hbig ltac:(lia)) as (Hlv & Hml & Hdl).
  change (cap_for 36) with 64%nat in *. simpl in Hml, Hsso.
  assert (∀ o', cap o' = 64 → str_ptr out o' = ls o') as Ep by (intros o' E; unfold str_ptr; by rewrite E).
  assert (str_ptr str o = ls o) as Es by (unfold str_ptr; by rewrite Hcap).
  rewrite Es in Hmp. set (p := ls o) in *.
  set (m1 := write_bytes m p (uuid_text false u ++ [0])).
  assert (mapped m1 (sso str) 33) as Hs1 by (by apply write_bytes_mapped).
  destruct (mapped_bytes _ _ _ Hs1) as (l33 & Hl33 & Hb33).
  assert (str ≠ out) as Hne by (intros ->; destruct Hdis; lia).
  assert (∀ a, sso out <= a < sso out + 33 → is_Some (m !! a) ∧ ¬ footprint str o a) as Hout.
  { intros a Ha. destruct (mapped_at _ _ _ a Hmo Ha) as [b Hab]. edestruct (Hk a b Hab); [|by eauto].
    destruct Hdis; lia. }
  assert (disjoint_blocks p 64 (sso out) 33) as Hd2.
  { apply disjoint_pointwise; [|done|done]. intros a Ha1 Ha2. apply (Hout a Ha2). right. fold p. lia. }
  eexists _, o. split.
  - apply bind_Ret_inv in Hrun as (x1 & s1 & R1 & Hrun). apply bind_Ret_inv in Hrun as (x2 & s2 & R2 & Hrun).
    apply bind_Ret_inv in Hrun as (x3 & s3 & R3 & R4).
    unfold OBOS_UUIDToString. cbv zeta. erewrite bind_Ret by exact R1. erewrite bind_Ret by exact R2.
    erewrite bind_Ret by exact R3. erewrite bind_Ret by exact R4.
    erewrite bind_Ret by apply GetStringPtr_with. rewrite Es.
    erewrite bind_Ret by (apply (snprintf_eq p _ 37); rewrite Hlen; [lia|exact Hmp]). fold p m1. rewrite with_str_mem.
    erewrite bind_Ret by apply get_string_with.
    erewrite bind_Ret.
    2: { replace 33 with (Z.of_nat (length l33)) by (by rewrite Hl33). apply memcpy_eq; simpl; rewrite ?Hl33; try done.
         apply write_bytes_mapped. intros i Hi. apply Hout. lia. }
    rewrite with_str_mem. unfold set_string. erewrite (store_eq _ _ _ (λ _, o)); [reflexivity|].
    simpl. rewrite lookup_insert_ne by done. exact Ho0.
  - split; [split|..]; rewrite ?Hlen, ?Ep; try done.
    + apply lookup_insert_eq.
    + simpl. do 2 apply write_bytes_mapped. intros i Hi. apply Hout. lia.
    + intros ?. lia.
    + intros _. split; [by eapply live_heap, Hlv|]. split; [by do 2 apply write_bytes_mapped|done].
    + simpl. apply write_bytes_other.
      * rewrite Hl33, Hlen. unfold disjoint_blocks in *. lia.
      * pose proof (write_bytes_same m p (uuid_text false u ++ [0])) as [? _]%bytes_at_app. done.
Qed.

(** Printing a UUID on a little-endian machine and parsing the text back does
    not give the UUID: the halves of the second word come back exchanged and the
    bytes of the third and fourth reversed.  The text has 36 characters, and
    doing it twice gives the UUID again, so nothing is lost. *)
Theorem uuid_print_parse s str empty out u :
  print_pre s str empty out → uuid_ok u →
  ∃ s' o, OBOS_UUIDToString false str empty u out s = Ret () s' ∧
    str_rep s' out o (uuid_text false u) ∧ length (uuid_text false u) = 36%nat ∧
    OBOS_StringToUUID false out (mkUuid 0 0 0 0) s' = Ret (shuffle u) s' ∧
    shuffle (shuffle u) = u.
Proof.
  intros Hpre Hu. destruct (UUIDToString_ok s str empty out u Hpre Hu) as (s' & o & Hrun & Hrep).
  exists s', o. split; [done|]. split; [done|]. split; [by apply length_uuid_text|].
  split; [by eapply StringToUUID_text|]. destruct u as [a b c d], Hu as (_ & H1 & H2 & H3). simpl in *.
  unfold shuffle. simpl. by rewrite rot16_rot16, !bswap32_bswap32.
Qed.

End specs.
