(* ===== verification/Libc.v ===== *)
(** * The library routines of uACPI

    [uacpi_strnlen] and [uacpi_strncmp] come with the uACPI submodule, whose
    sources are not part of the repository: they are parameters, with the
    behaviour the C standard gives [strnlen] and [strncmp] as their contract.
    [Ref] implements them. *)

From S2P Require Import Prelude Bytes.

Class UacpiLibc (S : Type) := {
  uacpi_strnlen : Z → Z → K S Z;
  uacpi_strncmp : Z → Z → Z → K S Z
}.

(** [l] is what a string at [p] has before its null character, or before the
    limit [n]. *)
Record ncstr_at (m : bmem) (p : Z) (n : nat) (l : list Z) : Prop := {
  nc_bytes : bytes_at m p l;
  nc_nonzero : 0 ∉ l;
  nc_end : length l = n ∨ ((length l < n)%nat ∧ m !! (p + Z.of_nat (length l)) = Some 0)
}.

Class UacpiLibcSpec (S : Type) {HM : HasMem S} {U : UacpiLibc S} := {
  strnlen_spec s p n l : ncstr_at (mem_of s) p n l →
    uacpi_strnlen p (Z.of_nat n) s = Ret (Z.of_nat (length l)) s;
  strncmp_spec s p q n a b : ncstr_at (mem_of s) p n a → ncstr_at (mem_of s) q n b →
    ∃ r, uacpi_strncmp p q (Z.of_nat n) s = Ret r s ∧ (r = 0 ↔ a = b)
}.

(** A string whose prefix of [n] characters is [take n l]. *)
Lemma cstr_ncstr m p n l : cstr_at m p l → ncstr_at m p n (take n l).
Proof.
  intros [Hb H0]. apply bytes_at_app in Hb as [Hb He]. split.
  - rewrite <- (take_drop n l) in Hb. by apply bytes_at_app in Hb as [? _].
  - intros Hin. apply H0. rewrite <- (take_drop n l). set_solver.
  - rewrite length_take. destruct (decide (n <= length l)%nat); [left; lia|]. right.
    replace (n `min` length l)%nat with (length l) by lia. split; [lia|]. by apply bytes_at_cons in He as [? _].
Qed.

(** ** A reference implementation *)
Module Ref.
Section ref.
Context {S : Type} {HM : HasMem S}.

Fixpoint strnlen (n : nat) (p i : Z) : K S Z :=
  match n with
  | O => mret i
  | Datatypes.S n => b ← getb (p + i); if b =? 0 then mret i else strnlen n p (i + 1)
  end.

Fixpoint strncmp (n : nat) (p q : Z) : K S Z :=
  match n with
  | O => mret 0
  | Datatypes.S n =>
      a ← getb p; b ← getb q;
      if negb (a =? b) then mret (a - b) else if a =? 0 then mret 0 else strncmp n (p + 1) (q + 1)
  end.

#[export] Instance ref_libc : UacpiLibc S :=
  {| uacpi_strnlen p n := strnlen (Z.to_nat n) p 0; uacpi_strncmp p q n := strncmp (Z.to_nat n) p q |}.

Lemma ncstr_nil m p n : ncstr_at m p (Datatypes.S n) [] → m !! p = Some 0.
Proof. intros [_ _ [?|[_ H]]]; [done|]. simpl in H. by rewrite Z.add_0_r in H. Qed.

Lemma ncstr_cons m p n b l :
  ncstr_at m p n (b :: l) → ∃ n', n = Datatypes.S n' ∧ m !! p = Some b ∧ b ≠ 0 ∧ ncstr_at m (p + 1) n' l.
Proof.
  intros [[Hb Hl]%bytes_at_cons H0 He]. simpl in He. destruct n as [|n]; [lia|]. exists n.
  apply not_elem_of_cons in H0 as [Hz H0]. split; [done|]. split; [done|]. split; [done|].
  split; [done|done|]. replace (p + 1 + Z.of_nat (length l)) with (p + Z.of_nat (Datatypes.S (length l))) by lia.
  destruct He as [?|[? ?]]; [left; lia|right; split; [lia|done]].
Qed.

Lemma strnlen_ok n p i l s :
  ncstr_at (mem_of s) (p + i) n l → strnlen n p i s = Ret (i + Z.of_nat (length l)) s.
Proof.
  revert n i. induction l as [|b l IH]; intros n i H; simpl.
  - rewrite Z.add_0_r. destruct n; [done|]. simpl. erewrite bind_Ret by (apply getb_eq; by eapply ncstr_nil). done.
  - apply ncstr_cons in H as (n' & -> & Hb & Hz & H). simpl. erewrite bind_Ret by (by apply getb_eq).
    rewrite (proj2 (Z.eqb_neq _ _)) by done. rewrite IH by (by rewrite Z.add_assoc). f_equal. lia.
Qed.

Lemma strncmp_ok n p q a b s :
  ncstr_at (mem_of s) p n a → ncstr_at (mem_of s) q n b →
  ∃ r, strncmp n p q s = Ret r s ∧ (r = 0 ↔ a = b).
Proof.
  revert n p q b. induction a as [|x a IH]; intros n p q b Ha Hb.
  - destruct b as [|y b].
    + exists 0. split; [|done]. destruct n; [done|]. simpl.
      do 2 erewrite bind_Ret by (apply getb_eq; by eapply ncstr_nil). done.
    + apply ncstr_cons in Hb as (n' & -> & Hy & Hz & Hb). simpl.
      erewrite bind_Ret by (apply getb_eq; by eapply ncstr_nil). erewrite bind_Ret by (by apply getb_eq).
      rewrite (proj2 (Z.eqb_neq 0 y)) by done. eexists. split; [done|]. split; [lia|done].
  - apply ncstr_cons in Ha as (n' & -> & Hx & Hz & Ha). simpl. erewrite bind_Ret by (by apply getb_eq).
    destruct b as [|y b].
    + erewrite bind_Ret by (apply getb_eq; by eapply ncstr_nil). rewrite (proj2 (Z.eqb_neq x 0)) by done.
      eexists. split; [done|]. split; [lia|done].
    + apply ncstr_cons in Hb as (n2 & [= <-] & Hy & Hz' & Hb). erewrite bind_Ret by (by apply getb_eq).
      destruct (Z.eqb_spec x y) as [->|Hne]; simpl.
      * rewrite (proj2 (Z.eqb_neq y 0)) by done. destruct (IH _ _ _ _ Ha Hb) as (r & E & Hr).
        exists r. split; [done|]. rewrite Hr. naive_solver.
      * eexists. split; [done|]. split; [lia|]. intros [= -> ->]. done.
Qed.

#[export] Instance ref_libc_spec : UacpiLibcSpec S.
Proof.
  split; simpl.
  - intros s p n l H. rewrite Nat2Z.id. rewrite (strnlen_ok _ _ _ l); [done|by rewrite Z.add_0_r].
  - intros s p q n a b Ha Hb. rewrite Nat2Z.id. by apply strncmp_ok.
Qed.

End ref.
End Ref.
