(* ===== verification/Cmdline.v ===== *)
(** * The kernel command line ([cmdline.c])

    Splitting the command line into arguments, and looking up options and
    flags in them. *)

From S2P Require Import Prelude Bytes Alloc Hex Libc.

Section ops.
Context {A : Allocator} {U : UacpiLibc ust}.

Definition ka : K ust Z := gets OBOS_KernelAllocator.

(** [while ( *arg == '-') arg++;] *)
Fixpoint skip_dashes_loop (fuel : nat) (arg : Z) : K ust Z :=
  b ← getb arg;
  if negb (b =? 45) then mret arg else
  match fuel with
  | O => stop Hang
  | S fuel => skip_dashes_loop fuel (arg + 1)
  end.
Definition skip_dashes (arg : Z) : K ust Z :=
  m ← gets umem; skip_dashes_loop (size m) arg.

(** [arglen != optlen || arg[arglen - 1] == '='] *)
Definition has_value (arg arglen optlen : Z) : K ust bool :=
  if negb (arglen =? optlen) then mret true else
  lastc ← getb (arg + (arglen - 1)); mret (lastc =? 61).

(** The loop over [OBOS_argv]: [rest] are the arguments not looked at yet. *)
Fixpoint getoptf_loop (opt : Z) (rest : list Z) : K ust bool :=
  match rest with
  | [] => mret false
  | arg :: rest =>
      arg ← skip_dashes arg;
      arglen ← strlen arg;
      if negb (truthy arglen) then getoptf_loop opt rest else
      optlen ← strchr arg 61;
      value ← has_value arg arglen optlen;
      if (value : bool) then getoptf_loop opt rest else
      c ← uacpi_strncmp opt arg optlen;
      if c =? 0 then mret true else getoptf_loop opt rest
  end.
Definition OBOS_GetOPTF (opt : Z) : K ust bool :=
  argv ← gets OBOS_argv; getoptf_loop opt argv.

(** [memcpy(ZeroAllocate(n + 1, sizeof(char)), src, n)] *)
Definition dup (src n : Z) : K ust Z :=
  k ← ka;
  q ← ZeroAllocate k (n + 1) 1;
  memcpy q src n.

Fixpoint getopts_loop (opt : Z) (rest : list Z) : K ust Z :=
  match rest with
  | [] => mret nullptr
  | arg :: rest =>
      arg ← skip_dashes arg;
      arglen ← strlen arg;
      if negb (truthy arglen) then getopts_loop opt rest else
      optlen ← strchr arg 61;
      value ← has_value arg arglen optlen;
      let optlen := if (value : bool) then optlen - 1 else optlen in
      c ← uacpi_strncmp arg opt optlen;
      if negb (c =? 0) then getopts_loop opt rest else
      if optlen =? arglen then
        match rest with
        | [] => mret nullptr
        | next :: _ => valuelen ← strlen next; dup next valuelen
        end
      else
        let valuelen := arglen - optlen in
        dup (arg + (optlen + 1)) valuelen
  end.
Definition OBOS_GetOPTS (opt : Z) : K ust Z :=
  argv ← gets OBOS_argv; getopts_loop opt argv.

(** [while (iter[off - 1] == '\\' && off < cmdlinelen) off = strchr(iter + off,
    delim);].  The next offset depends on the last one only, so that after more
    rounds than there are offsets the loop is known to go on for ever. *)
Fixpoint skip_escaped (fuel : nat) (iter delim cmdlinelen off : Z) : K ust Z :=
  b ← getb (iter + (off - 1));
  if (b =? 92) && (off <? cmdlinelen) then
    match fuel with
    | O => stop Hang
    | S fuel => off ← strchr (iter + off) delim; skip_escaped fuel iter delim cmdlinelen off
    end
  else mret off.

(** One argument at [iter]: its start and its length. *)
Definition next_arg (base cmdlinelen iter : Z) : K ust (Z * Z) :=
  c ← getb iter;
  if (c =? 34) || (c =? 39) then
    off ← strchr (iter + 1) c;
    off ← skip_escaped (Z.to_nat cmdlinelen + 1) iter c cmdlinelen off;
    mret (iter + 1, if off =? cmdlinelen - (iter - base) then off else off - 1)
  else
    arg_len ← strchr iter 32;
    mret (iter, if arg_len =? cmdlinelen - (iter - base) then arg_len else arg_len - 1).

(** Every round moves [iter] forward, at most [cmdlinelen] times. *)
Fixpoint parse_loop (fuel : nat) (base cmdlinelen iter : Z) : K ust () :=
  if negb (iter <? base + cmdlinelen) then mret () else
  match fuel with
  | O => stop Hang
  | S fuel =>
      a ← next_arg base cmdlinelen iter;
      p ← dup a.1 a.2;
      modify (λ s, s <| OBOS_argv ::= λ argv, argv ++ [p] |>);;
      parse_loop fuel base cmdlinelen (a.1 + (a.2 + 1))
  end.

(** [help] is the literal "help"; the message it asks for is only printed. *)
Definition OBOS_ParseCMDLine (help : Z) : K ust () :=
  base ← gets OBOS_KernelCmdLine;
  cmdlinelen ← (if truthy base then strlen base else mret 0);
  if negb (truthy cmdlinelen) then mret () else
  parse_loop (Z.to_nat cmdlinelen) base cmdlinelen base;;
  OBOS_GetOPTF help;;
  mret ().

(** ** Numbers *)

Definition isNumber (ch : Z) : bool := (48 <=? ch) && (ch <? 58).

Fixpoint dec2bin_loop (n : nat) (str ret : Z) : K ust Z :=
  match n with
  | O => mret ret
  | S n =>
      c ← getb str;
      dec2bin_loop n (str + 1)
        (if negb (isNumber c) then ret else wrap64 (wrap64 (ret * 10) + (c - 48)))
  end.
Definition dec2bin (str size : Z) : K ust Z := dec2bin_loop (Z.to_nat size) str 0.

(** [char] is signed: [*c++ - '0'] is taken modulo 2^64. *)
Fixpoint oct2bin_loop (n : nat) (str ret : Z) : K ust Z :=
  match n with
  | O => mret ret
  | S n => c ← getb str; oct2bin_loop n (str + 1) (wrap64 (ret * 8 + (signed 8 c - 48)))
  end.
Definition oct2bin (str size : Z) : K ust Z := oct2bin_loop (Z.to_nat size) str 0.

Fixpoint find_number (fuel : nat) (str : Z) : K ust Z :=
  c ← getb str;
  if isNumber c then mret str else
  match fuel with O => stop Hang | S fuel => find_number fuel (str + 1) end.
Fixpoint number_len (fuel : nat) (str sz : Z) : K ust Z :=
  c ← getb (str + sz);
  if negb (isNumber c) then mret sz else
  match fuel with O => stop Hang | S fuel => number_len fuel str (sz + 1) end.

Definition strtoull (str base : Z) : K ust Z :=
  m ← gets umem;
  str ← find_number (size m) str;
  sb ← (if negb (truthy base) then
          c ← getb (str - 1);
          if (c =? 120) || (c =? 88) then mret (str, 16) else
          d ← getb str;
          mret (if d =? 48 then (str + 1, 8) else (str, 10))
        else mret (str, base));
  let str := sb.1 in let base := sb.2 in
  sz ← number_len (size m) str 0;
  if base =? 10 then dec2bin str sz
  else if base =? 16 then hex2bin str sz
  else if base =? 8 then oct2bin str sz
  else mret (2 ^ 64 - 1).

Definition OBOS_GetOPTD (opt : Z) : K ust Z :=
  val ← OBOS_GetOPTS opt;
  if negb (truthy val) then mret 0 else
  dec ← strtoull val 0;
  k ← ka;
  val_len ← QueryBlockSize k val;
  k ← ka;
  Free k val val_len;;
  mret dec.

End ops.

(** ** Options, on lists of characters *)

Fixpoint strip (l : list Z) : list Z :=
  match l with
  | b :: l' => if b =? 45 then strip l' else l
  | [] => []
  end.

(** The name of an argument, and its value if it has one. *)
Fixpoint split_eq (l : list Z) : list Z * option (list Z) :=
  match l with
  | [] => ([], None)
  | b :: l => if b =? 61 then ([], Some l)
              else let nv := split_eq l in (b :: nv.1, nv.2)
  end.

(** The value of the first argument whose name is a prefix of [opt]: the one
    after its [=], or else the next argument. *)
Fixpoint opt_value (args : list (list Z)) (opt : list Z) : option (list Z) :=
  match args with
  | [] => None
  | a :: rest =>
      if decide (strip a = []) then opt_value rest opt else
      let nv := split_eq (strip a) in
      if decide (take (length nv.1) opt = nv.1) then
        match nv.2 with Some v => Some v | None => head rest end
      else opt_value rest opt
  end.

(** Is there an argument without value that is a prefix of [opt]? *)
Fixpoint opt_flag (args : list (list Z)) (opt : list Z) : bool :=
  match args with
  | [] => false
  | a :: rest =>
      if decide (strip a = []) then opt_flag rest opt else
      if decide (61 ∈ strip a) then opt_flag rest opt else
      if decide (take (length (strip a)) opt = strip a) then true else opt_flag rest opt
  end.

Lemma split_eq_none l : 61 ∉ l → split_eq l = (l, None).
Proof.
  induction l as [|b l IH]; intros H; simpl; [done|]. apply not_elem_of_cons in H as [Hne H].
  rewrite (proj2 (Z.eqb_neq b 61)), IH by done. done.
Qed.

Lemma split_eq_some n v : 61 ∉ n → split_eq (n ++ 61 :: v) = (n, Some v).
Proof.
  induction n as [|b n IH]; intros H; simpl; [done|]. apply not_elem_of_cons in H as [Hne H].
  rewrite (proj2 (Z.eqb_neq b 61)), IH by done. done.
Qed.

Lemma find_eq (l : list Z) : 61 ∉ l ∨ ∃ n v, l = n ++ 61 :: v ∧ 61 ∉ n.
Proof.
  destruct (decide (61 ∈ l)) as [H|H]; [right|by left].
  apply list_elem_of_split_l in H as (n & v & -> & Hn). eauto.
Qed.

(** The tests [arglen != optlen || arg[arglen - 1] == '='] and the adjusted
    [optlen]. *)
Lemma last_char m p l : bytes_at m p l → l ≠ [] → ∃ c, last l = Some c ∧ m !! (p + (Z.of_nat (length l) - 1)) = Some c.
Proof.
  intros Hb Hl. destruct (last l) as [c|] eqn:E; [|by apply last_None in E]. exists c. split; [done|].
  rewrite last_lookup in E. apply Hb in E. destruct l; [done|]. simpl in *.
  by replace (p + (Z.of_nat (S (length l)) - 1)) with (p + Z.of_nat (length l)) by lia.
Qed.

Lemma opt_test_none l c : 61 ∉ l → last l = Some c →
  negb (Z.of_nat (length l) =? Z.of_nat (chr_pos 61 l)) || (c =? 61) = false.
Proof.
  intros H Hc. rewrite chr_pos_absent, Z.eqb_refl by done. simpl. apply Z.eqb_neq. intros ->.
  apply H. by apply last_Some_elem_of.
Qed.

Lemma opt_test_some n v c : 61 ∉ n → last (n ++ 61 :: v) = Some c →
  negb (Z.of_nat (length (n ++ 61 :: v)) =? Z.of_nat (chr_pos 61 (n ++ 61 :: v))) || (c =? 61) = true.
Proof.
  intros H Hc. rewrite chr_pos_app, length_app by done. simpl. destruct v as [|b v].
  - rewrite last_snoc in Hc. injection Hc as <-. apply orb_true_r.
  - rewrite (proj2 (Z.eqb_neq _ _)); [done|]. simpl. lia.
Qed.

(** ** Execution *)

(** Everything mapped is kept. *)
Definition kept (m m' : bmem) : Prop := ∀ a b, m !! a = Some b → m' !! a = Some b.

Lemma kept_bytes m m' p l : kept m m' → bytes_at m p l → bytes_at m' p l.
Proof. intros Hk H i b Hi. apply Hk. by apply H. Qed.

Lemma kept_cstr m m' p l : kept m m' → cstr_at m p l → cstr_at m' p l.
Proof. intros Hk [H H0]. split; [by eapply kept_bytes|done]. Qed.

Lemma kept_trans m1 m2 m3 : kept m1 m2 → kept m2 m3 → kept m1 m3.
Proof. unfold kept. eauto. Qed.

Lemma cstr_tail m p a l : cstr_at m p (a ++ l) → cstr_at m (p + Z.of_nat (length a)) l.
Proof.
  intros [H H0]. rewrite <- app_assoc in H. apply bytes_at_app in H as [_ H]. split; [done|].
  intros Hin. apply H0. set_solver.
Qed.

Section exec.
Context {A : Allocator} {AS : AllocatorSpec A} {U : UacpiLibc ust} {US : UacpiLibcSpec ust}.
Set Default Proof Using "All".

Lemma has_value_eq arg arglen optlen c s :
  umem s !! (arg + (arglen - 1)) = Some c →
  has_value arg arglen optlen s = Ret (negb (arglen =? optlen) || (c =? 61)) s.
Proof. intros Hc. unfold has_value. destruct (arglen =? optlen); [|done]. cbn [negb orb]. by erewrite bind_Ret by (by apply getb_eq). Qed.

Lemma skip_dashes_loop_eq l fuel p s :
  cstr_at (umem s) p l → (length l <= fuel)%nat →
  ∃ q, skip_dashes_loop fuel p s = Ret q s ∧ cstr_at (umem s) q (strip l).
Proof.
  revert fuel p. induction l as [|b l IH]; intros fuel p Hc Hf.
  - pose proof Hc as [[Hb _]%bytes_at_cons _]. exists p. split; [|done].
    destruct fuel; simpl; by erewrite bind_Ret by (by apply getb_eq).
  - pose proof Hc as [[Hb _]%bytes_at_cons _]. simpl in Hf. destruct fuel as [|fuel]; [lia|]. simpl.
    erewrite bind_Ret by (by apply getb_eq). destruct (Z.eqb_spec b 45) as [->|]; simpl; [|by exists p].
    apply IH; [|lia]. exact (cstr_tail _ _ [45] _ Hc).
Qed.

Lemma skip_dashes_eq l p s :
  cstr_at (umem s) p l → ∃ q, skip_dashes p s = Ret q s ∧ cstr_at (umem s) q (strip l).
Proof.
  intros Hc. unfold skip_dashes. rewrite (bind_Ret _ _ _ _ _ (gets_eq _ _)).
  apply skip_dashes_loop_eq; [done|]. destruct Hc as [Hb _]. apply bytes_at_size in Hb.
  rewrite length_app in Hb. lia.
Qed.

Lemma dup_eq src l s :
  bytes_at (umem s) src l → room s (length l + 1) →
  ∃ q s', dup src (Z.of_nat (length l)) s = Ret q s' ∧ q ≠ 0 ∧ bytes_at (umem s') q (l ++ [0]) ∧
    (∀ a, q <= a <= q + Z.of_nat (length l) → umem s !! a = None) ∧ kept (umem s) (umem s') ∧ OBOS_argv s' = OBOS_argv s ∧ OBOS_KernelCmdLine s' = OBOS_KernelCmdLine s.
Proof.
  intros Hb Hroom. unfold dup, ka. rewrite (bind_Ret _ _ _ _ _ (gets_eq _ _)).
  destruct (ZeroAllocate_spec (OBOS_KernelAllocator s) s (length l + 1) 1) as (q & s1 & E & Hex & _ & Hz);
    [by rewrite Nat.mul_1_r|]. rewrite Nat.mul_1_r in *.
  replace (Z.of_nat (length l) + 1) with (Z.of_nat (length l + 1)) by lia.
  rewrite (bind_Ret _ _ _ _ _ E). destruct Hex as [Hq Hfr Hm Hframe Hrest].
  assert (kept (umem s) (umem s1)) as Hk1.
  { intros a b Hab. rewrite Hframe; [done|]. intros Ha. by rewrite Hfr in Hab. }
  assert (∀ a b, umem s !! a = Some b → ¬ (q <= a < q + Z.of_nat (length l + 1))) as Hout.
  { intros a b Hab Ha. by rewrite Hfr in Hab. }
  eexists q, _. split; [apply memcpy_eq|split; [done|split; [|split; [intros a Ha; apply Hfr; lia|split; [|split]]]]]; simpl.
  - by eapply kept_bytes.
  - intros i Hi. apply Hm. lia.
  - destruct l as [|b l]; [unfold disjoint_blocks; simpl; lia|].
    apply disjoint_pointwise; [|done|done]. intros a Ha1 Ha2.
    destruct (mapped_at _ _ _ a (bytes_at_mapped _ _ _ Hb) Ha2) as [c Hc]. apply (Hout _ _ Hc). simpl in *. lia.
  - apply bytes_at_app. split; [apply write_bytes_same|]. rewrite replicate_add in Hz.
    apply bytes_at_app in Hz as [_ Hz]. rewrite length_replicate in Hz.
    apply write_bytes_other; [unfold disjoint_blocks; simpl; lia|exact Hz].
  - intros a b Hab. rewrite write_bytes_outside; [by apply Hk1|]. pose proof (Hout _ _ Hab). lia.
  - rewrite Hrest. done.
  - rewrite Hrest. done.
Qed.

(** Arguments in memory. *)
Definition args_at (m : bmem) (ps : list Z) (args : list (list Z)) : Prop := Forall2 (cstr_at m) ps args.

Lemma getoptf_loop_eq opt o ps args s :
  cstr_at (umem s) opt o → args_at (umem s) ps args →
  getoptf_loop opt ps s = Ret (opt_flag args o) s.
Proof.
  intros Ho. induction 1 as [|p a ps args Ha Hargs IH]; [done|]. cbn [getoptf_loop opt_flag].
  destruct (skip_dashes_eq _ _ _ Ha) as (q & E & Hq). erewrite bind_Ret by exact E.
  erewrite bind_Ret by (by apply strlen_eq). set (l := strip a) in *.
  destruct (decide (l = [])) as [El|Hne]; [by rewrite El|].
  rewrite (proj2 (truthy_true _)) by (destruct l; [done|simpl; lia]). cbn [negb].
  erewrite bind_Ret by (by apply strchr_eq). pose proof Hq as [[Hb _]%bytes_at_app H0].
  destruct (last_char _ _ _ Hb Hne) as (c & Hlast & Hc). erewrite bind_Ret by (by apply has_value_eq).
  destruct (find_eq l) as [Hno|(n & v & El & Hn)].
  - rewrite opt_test_none, decide_False by done. rewrite chr_pos_absent by done.
    destruct (strncmp_spec s opt q (length l) (take (length l) o) (take (length l) l)) as (r & Hr & Heq);
      [by apply cstr_ncstr|by apply cstr_ncstr|]. erewrite bind_Ret by exact Hr. rewrite (take_ge l) in Heq by done.
    destruct (Z.eqb_spec r 0) as [->|Hr0]; [by rewrite decide_True by tauto|by rewrite decide_False by tauto].
  - rewrite El in *. rewrite opt_test_some, decide_True by (try done; set_solver). done.
Qed.

(** [OBOS_GetOPTF] decides whether some argument without a value is, after its
    dashes, a prefix of the flag asked for; nothing changes. *)
Theorem getoptf_correct opt o args s :
  cstr_at (umem s) opt o → args_at (umem s) (OBOS_argv s) args →
  OBOS_GetOPTF opt s = Ret (opt_flag args o) s.
Proof. intros Ho Ha. unfold OBOS_GetOPTF. rewrite (bind_Ret _ _ _ _ _ (gets_eq _ _)). by apply getoptf_loop_eq. Qed.

(** What [OBOS_GetOPTS] returns for the value [v]. *)
Definition opts_result (s : ust) (v : option (list Z)) (p : Z) (s' : ust) : Prop :=
  match v with
  | None => p = nullptr ∧ s' = s
  | Some v => p ≠ 0 ∧ cstr_at (umem s') p v ∧ (∀ a, p <= a <= p + Z.of_nat (length v) → umem s !! a = None) ∧ kept (umem s) (umem s')
  end.

Lemma dup_cstr src l s :
  cstr_at (umem s) src l → room s (length l + 1) →
  ∃ q s', dup src (Z.of_nat (length l)) s = Ret q s' ∧ opts_result s (Some l) q s'.
Proof.
  intros [[Hb _]%bytes_at_app H0] Hroom. destruct (dup_eq src l s Hb Hroom) as (q & s' & E & Hq & Hb' & Hfr & Hk & _).
  exists q, s'. split; [done|]. by split.
Qed.

Lemma getopts_loop_eq opt o ps args s :
  cstr_at (umem s) opt o → args_at (umem s) ps args →
  (∀ v, opt_value args o = Some v → room s (length v + 1) ∧ room s (length v + 2)) →
  ∃ p s', getopts_loop opt ps s = Ret p s' ∧ opts_result s (opt_value args o) p s'.
Proof.
  intros Ho. induction 1 as [|p a ps args Ha Hargs IH]; intros Hroom; [by exists nullptr, s|].
  cbn [getopts_loop opt_value] in *.
  destruct (skip_dashes_eq _ _ _ Ha) as (q & E & Hq). erewrite bind_Ret by exact E.
  erewrite bind_Ret by (by apply strlen_eq). set (l := strip a) in *.
  destruct (decide (l = [])) as [El|Hne]; [rewrite El; by apply IH|].
  rewrite (proj2 (truthy_true _)) by (destruct l; [done|simpl; lia]). cbn [negb].
  erewrite bind_Ret by (by apply strchr_eq). pose proof Hq as [[Hb _]%bytes_at_app H0].
  destruct (last_char _ _ _ Hb Hne) as (c & Hlast & Hc). erewrite bind_Ret by (by apply has_value_eq). cbv zeta.
  destruct (find_eq l) as [Hno|(n & v & El & Hn)].
  - rewrite opt_test_none by done. rewrite chr_pos_absent by done. rewrite split_eq_none in * by done. simpl.
    destruct (strncmp_spec s q opt (length l) (take (length l) l) (take (length l) o)) as (r & Hr & Heq);
      [by apply cstr_ncstr|by apply cstr_ncstr|]. erewrite bind_Ret by exact Hr. rewrite (take_ge l) in Heq by done.
    destruct (Z.eqb_spec r 0) as [->|Hr0]; simpl.
    + rewrite decide_True in * by (symmetry; by apply Heq). rewrite Z.eqb_refl. simpl in Hroom.
      destruct Hargs as [|p' a' ps args Ha' _]; simpl in *; [by exists nullptr, s|].
      erewrite bind_Ret by (by apply strlen_eq). apply dup_cstr; [done|]. by apply Hroom.
    + rewrite decide_False in * by (intros E'; apply Hr0; by apply Heq). by apply IH.
  - rewrite El in Hlast, Hb, Hq, Hc, H0 |- *. rewrite opt_test_some by done. rewrite chr_pos_app by done.
    rewrite El, split_eq_some in * by done. simpl.
    replace (Z.of_nat (S (length n)) - 1) with (Z.of_nat (length n)) by lia.
    destruct (strncmp_spec s q opt (length n) (take (length n) (n ++ 61 :: v)) (take (length n) o)) as (r & Hr & Heq);
      [by apply cstr_ncstr|by apply cstr_ncstr|]. erewrite bind_Ret by exact Hr. rewrite take_app_length in Heq.
    destruct (Z.eqb_spec r 0) as [->|Hr0]; simpl.
    + rewrite decide_True in * by (symmetry; by apply Heq). rewrite (proj2 (Z.eqb_neq _ _)) by (rewrite length_app; simpl; lia).
      assert (cstr_at (umem s) (q + (Z.of_nat (length n) + 1)) v) as Hv.
      { pose proof (cstr_tail (umem s) q (n ++ [61]) v) as Ht. rewrite <- app_assoc in Ht. specialize (Ht Hq).
        rewrite length_app in Ht. simpl in Ht. by rewrite Nat2Z.inj_add in Ht. }
      destruct Hv as [Hvb Hv0]. destruct (Hroom v eq_refl) as [_ Hr2].
      destruct (dup_eq (q + (Z.of_nat (length n) + 1)) (v ++ [0]) s Hvb) as (p' & s' & Ed & Hp & Hb' & Hfr & Hk & _).
      { rewrite length_app. simpl. by replace (length v + 1 + 1)%nat with (length v + 2)%nat by lia. }
      exists p', s'. split; [rewrite <- Ed; f_equal; rewrite !length_app; simpl; lia|]. split; [done|].
      rewrite length_app in Hfr. simpl in Hfr. split; [|split; [intros b Hba; apply Hfr; lia|done]]. split; [|done]. by apply bytes_at_app in Hb' as [? _].
    + rewrite decide_False in * by (intros E'; apply Hr0; by apply Heq). by apply IH.
Qed.

(** [C33] [OBOS_GetOPTS] looks options up as the list function [opt_value] does: the
    first argument that is, after its dashes and up to its [=], a prefix of the option
    asked for gives the value after the [=], or without one the next argument. The value
    is returned as a null-terminated copy in memory that was not mapped before, and all
    that was mapped is unchanged; without a match, or without a next argument, the
    result is null and nothing changes. The allocator must have room for the copy. *)
Theorem getopts_correct opt o args s :
  cstr_at (umem s) opt o → args_at (umem s) (OBOS_argv s) args →
  (∀ v, opt_value args o = Some v → room s (length v + 1) ∧ room s (length v + 2)) →
  ∃ p s', OBOS_GetOPTS opt s = Ret p s' ∧
    match opt_value args o with
    | None => p = nullptr ∧ s' = s
    | Some v => p ≠ 0 ∧ cstr_at (umem s') p v ∧ (∀ a, p <= a <= p + Z.of_nat (length v) → umem s !! a = None) ∧ kept (umem s) (umem s')
    end.
Proof.
  intros Ho Ha Hroom. unfold OBOS_GetOPTS. rewrite (bind_Ret _ _ _ _ _ (gets_eq _ _)).
  by apply getopts_loop_eq.
Qed.

(** *** Splitting *)

(** Words in a row, one space between two of them. *)
Fixpoint join (ws : list (list Z)) : list Z :=
  match ws with
  | [] => []
  | [w] => w
  | w :: ws => w ++ (32 :: join ws)
  end.

Definition word_ok (w : list Z) : Prop :=
  w ≠ [] ∧ (32 ∉ w) ∧ head w ≠ Some 34 ∧ head w ≠ Some 39.

Lemma join_cons w ws : ws ≠ [] → join (w :: ws) = w ++ 32 :: join ws.
Proof. by destruct ws. Qed.

Lemma join_nonempty ws : Forall word_ok ws → ws ≠ [] → join ws ≠ [].
Proof. intros H Hne. destruct H as [|w ws [Hw _] _]; [done|]. destruct ws; simpl; [done|]. by destruct w. Qed.

(** The first word of the rest of the line. *)
Lemma next_arg_word base n iter w ws s :
  word_ok w → Forall word_ok ws → cstr_at (umem s) iter (join (w :: ws)) →
  iter + Z.of_nat (length (join (w :: ws))) = base + n →
  next_arg base n iter s = Ret (iter, Z.of_nat (length w)) s ∧ bytes_at (umem s) iter w.
Proof.
  intros (Hne & Hsp & Hq1 & Hq2) Hws Hc Hend.
  assert (bytes_at (umem s) iter w) as Hbw.
  { destruct Hc as [Hb _]. apply bytes_at_app in Hb as [Hb _]. destruct ws; [done|].
    rewrite join_cons in Hb by done. by apply bytes_at_app in Hb as [? _]. }
  split; [|done]. destruct w as [|b w']; [done|]. pose proof Hbw as [Hb0 _]%bytes_at_cons.
  unfold next_arg. erewrite bind_Ret by (by apply getb_eq).
  rewrite (proj2 (Z.eqb_neq b 34)), (proj2 (Z.eqb_neq b 39)) by (intros ->; done). cbn [orb].
  erewrite bind_Ret by (by apply strchr_eq). set (w := b :: w') in *.
  replace (n - (iter - base)) with (Z.of_nat (length (join (w :: ws)))) by lia.
  destruct ws as [|w2 ws].
  - simpl join. rewrite chr_pos_absent, Z.eqb_refl by done. done.
  - rewrite join_cons by done. rewrite chr_pos_app, length_app by done.
    assert (join (w2 :: ws) ≠ []) as Hj by (by apply join_nonempty).
    destruct (join (w2 :: ws)) as [|x j]; [done|]. simpl length. rewrite (proj2 (Z.eqb_neq _ _)) by lia.
    unfold mret, K_ret. do 2 f_equal. lia.
Qed.

Lemma parse_loop_words (Hroom : (∀ s n, room s n)) fuel base n iter ws args s :
  Forall word_ok ws → cstr_at (umem s) iter (join ws) → ws ≠ [] →
  iter + Z.of_nat (length (join ws)) = base + n → (length (join ws) <= fuel)%nat →
  args_at (umem s) (OBOS_argv s) args →
  ∃ s', parse_loop fuel base n iter s = Ret () s' ∧ args_at (umem s') (OBOS_argv s') (args ++ ws) ∧
    kept (umem s) (umem s').
Proof.
  intros Hws. revert fuel iter args s. induction Hws as [|w ws Hw Hws IH]; intros fuel iter args s Hc Hne Hend Hf Ha; [done|].
  destruct (next_arg_word base n iter w ws s Hw Hws Hc Hend) as [Hnext Hbw].
  assert (join (w :: ws) ≠ []) as Hj by (by apply join_nonempty; [constructor|]).
  destruct fuel as [|fuel]; [destruct (join (w :: ws)); simpl in *; [done|lia]|]. cbn [parse_loop].
  rewrite (proj2 (Z.ltb_lt _ _)) by (destruct (join (w :: ws)); simpl in *; [done|lia]). cbn [negb].
  erewrite bind_Ret by exact Hnext. simpl fst. simpl snd.
  destruct (dup_eq iter w s Hbw (Hroom _ _)) as (q & s1 & E & Hq & Hb1 & _ & Hk1 & Harg & Hcl).
  erewrite bind_Ret by exact E. erewrite bind_Ret by apply modify_eq.
  set (s2 := s1 <| OBOS_argv ::= λ argv, argv ++ [q] |>).
  assert (0 ∉ w) as Hw0.
  { destruct Hc as [_ H0]. intros Hin. apply H0. destruct ws; [done|]. rewrite join_cons by done. set_solver. }
  assert (args_at (umem s2) (OBOS_argv s2) (args ++ [w])) as Ha2.
  { unfold s2, args_at. simpl. rewrite Harg. apply Forall2_app.
    - eapply Forall2_impl; [exact Ha|]. intros. by eapply kept_cstr.
    - repeat constructor; done. }
  destruct ws as [|w2 ws].
  - exists s2. split; [|done]. simpl in Hend. destruct fuel; cbn [parse_loop];
      by rewrite (proj2 (Z.ltb_ge _ _)) by lia.
  - rewrite join_cons in Hc, Hend, Hf by done. rewrite length_app in Hend, Hf. cbn [length] in Hend, Hf.
    destruct (IH fuel (iter + (Z.of_nat (length w) + 1)) (args ++ [w]) s2) as (s' & Erun & Ha' & Hk'); try done.
    + eapply kept_cstr; [exact Hk1|]. pose proof (cstr_tail (umem s) iter (w ++ [32]) (join (w2 :: ws))) as Ht.
      rewrite <- app_assoc, length_app, Nat2Z.inj_add in Ht. by apply Ht.
    + lia.
    + lia.
    + exists s'. split; [exact Erun|]. rewrite <- app_assoc in Ha'. split; [exact Ha'|]. by eapply kept_trans.
Qed.

(** A command line of words with single spaces between them is split into
    exactly these words, in order, each a null-terminated copy; the line itself
    and everything else in memory is unchanged. *)
Theorem parse_cmdline_words help flag ws s :
  (∀ s n, room s n) → Forall word_ok ws → ws ≠ [] → OBOS_KernelCmdLine s ≠ 0 →
  cstr_at (umem s) (OBOS_KernelCmdLine s) (join ws) → OBOS_argv s = [] → cstr_at (umem s) help flag →
  ∃ s', OBOS_ParseCMDLine help s = Ret () s' ∧ args_at (umem s') (OBOS_argv s') ws ∧ kept (umem s) (umem s').
Proof.
  intros Hroom Hws Hne Hcl Hc Harg Hhelp. set (base := OBOS_KernelCmdLine s) in *.
  destruct (parse_loop_words Hroom (length (join ws)) base (Z.of_nat (length (join ws))) base ws [] s)
    as (s' & Erun & Ha & Hk); try done; [by rewrite Harg; constructor|].
  exists s'. split; [|done]. unfold OBOS_ParseCMDLine. erewrite bind_Ret by apply gets_eq. fold base.
  rewrite (proj2 (truthy_true base)) by done. erewrite bind_Ret by (by apply strlen_eq).
  pose proof (join_nonempty ws Hws Hne). rewrite (proj2 (truthy_true _)) by (destruct (join ws); simpl; [done|lia]).
  cbn [negb]. rewrite Nat2Z.id. erewrite bind_Ret by exact Erun. erewrite bind_Ret; [reflexivity|].
  unfold OBOS_GetOPTF. erewrite bind_Ret by apply gets_eq.
  by apply (getoptf_loop_eq help flag _ ws); [eapply kept_cstr|].
Qed.

(** *** Numbers *)

(** A number written "0x..." is read as the octal number of the digits after the
    zero: none, so that the value is 0. *)
Lemma strtoull_hex_zero s str pre rest :
  umem s !! (str - 1) = Some pre → pre ≠ 120 → pre ≠ 88 →
  bytes_at (umem s) str (48 :: 120 :: rest) → strtoull str 0 s = Ret 0 s.
Proof.
  intros Hp H1 H2 Hb. apply bytes_at_cons in Hb as [H48 [H120 _]%bytes_at_cons].
  unfold strtoull. erewrite bind_Ret by apply gets_eq.
  assert (∀ f, find_number f str s = Ret str s) as Ef by (intros [|f]; simpl; by erewrite bind_Ret by (by apply getb_eq)).
  erewrite bind_Ret by apply Ef. cbn [negb truthy Z.eqb].
  erewrite bind_Ret; [|erewrite bind_Ret by (by apply getb_eq); rewrite (proj2 (Z.eqb_neq _ _)), (proj2 (Z.eqb_neq pre 88)) by done;
    cbn [orb]; erewrite bind_Ret by (by apply getb_eq); reflexivity]. simpl fst. simpl snd. cbv zeta.
  assert (∀ f, number_len f (str + 1) 0 s = Ret 0 s) as En.
  { intros [|f]; simpl; by erewrite bind_Ret by (apply getb_eq; by rewrite Z.add_0_r). }
  erewrite bind_Ret by apply En. done.
Qed.

End exec.
