(* ===== verification/Vfs.v ===== *)
(** * Files: descriptors, the page cache, mount point locks ([vfs/fd.c],
    [vfs/pagecache.c], part of [vfs/mount.c])

    Vnodes, file descriptors, dirty regions and mount points are objects in
    finite maps; file contents and buffers are bytes of memory.  The drivers'
    function tables, the mutexes, the virtual memory manager and the allocator
    are reached through the interface [VfsEnv]. *)

From S2P Require Import Prelude Bytes DList.

(** ** State *)

(** [vfs/fd.h] *)
Definition FD_FLAGS_OPEN : Z := 1.
Definition FD_FLAGS_READ : Z := 2.
Definition FD_FLAGS_WRITE : Z := 4.
Definition FD_FLAGS_UNCACHED : Z := 8.
Definition FD_OFLAGS_READ_ONLY : Z := 1.
Definition FD_OFLAGS_UNCACHED : Z := 2.
Record fd := mkFd { vn : Z; fd_flags : Z; offset : Z }.
#[export] Instance eta_fd : Etable fd := λ r, mkFd (vn r) (fd_flags r) (offset r).

(** [vfs/vnode.h] *)
Definition VNODE_TYPE_REG : Z := 1.
Definition VNODE_TYPE_DIR : Z := 2.
Definition VNODE_TYPE_BLK : Z := 3.
Definition VNODE_TYPE_CHR : Z := 4.
Definition VFLAGS_PARTITION : Z := 4.
Record file_perm := mkPerm {
  other_write : bool; other_read : bool; group_write : bool; group_read : bool;
  owner_write : bool; owner_read : bool
}.

(** [un] is the union of [un.mounted] and [un.device]; [pc_data] is
    [pagecache.data]; [part_off] is [partitions[0].off]. *)
Record vnode := mkVnode {
  vtype : Z; vflags : Z; mount_point : Z; un : Z; refs : Z; perm : file_perm;
  filesize : Z; owner_uid : Z; group_uid : Z; vdesc : Z; pc_data : Z; part_off : Z
}.
#[export] Instance eta_vnode : Etable vnode :=
  λ r, mkVnode (vtype r) (vflags r) (mount_point r) (un r) (refs r) (perm r) (filesize r)
    (owner_uid r) (group_uid r) (vdesc r) (pc_data r) (part_off r).

Record mount := mkMount { fs_driver : Z; m_nWaiting : Z; awaitingFree : bool }.
#[export] Instance eta_mount : Etable mount :=
  λ r, mkMount (fs_driver r) (m_nWaiting r) (awaitingFree r).

Record dirty_region := mkDirty { fileoff : Z; sz : Z; pc_owner : Z }.
#[export] Instance eta_dirty_region : Etable dirty_region :=
  λ r, mkDirty (fileoff r) (sz r) (pc_owner r).

Inductive vmutex := MountLock (m : Z) | DirtyListLock (vn : Z) | DirtyLock (d : Z).

(** [vdevs] maps a [vdev] to its driver; [opened] and [dirty_lists] are the
    list heads in a vnode; [pages] says of each page of the kernel context
    whether it is reserved. *)
Record vst := mkVst {
  vmem : bmem;
  vnodes : gmap Z vnode;
  fds : gmap Z fd;
  fd_links : lheap;
  opened : gmap Z dlist;
  mounts : gmap Z mount;
  vdevs : gmap Z Z;
  dirty : gmap Z dirty_region;
  dirty_links : lheap;
  dirty_lists : gmap Z dlist;
  pages : gmap Z bool;
  currentUID : Z;
  currentGID : Z
}.
#[export] Instance eta_vst : Etable vst :=
  λ r, mkVst (vmem r) (vnodes r) (fds r) (fd_links r) (opened r) (mounts r) (vdevs r)
    (dirty r) (dirty_links r) (dirty_lists r) (pages r) (currentUID r) (currentGID r).

#[global, program] Instance vst_HasMem : HasMem vst :=
  {| mem_of := vmem; mem_upd := λ m s, s <| vmem := m |> |}.
Solve Obligations with (intros; by repeat match goal with s : vst |- _ => destruct s end).

(** ** The environment

    [drv] is a driver, [desc] its device descriptor.  An out-parameter is
    passed as the value it points to, [None] for a null pointer, and returned. *)
Class VfsEnv := {
  get_blk_size : Z → Z → K vst Z;
  read_sync : Z → Z → Z → Z → Z → option Z → K vst (obos_status * option Z);
  write_sync : Z → Z → Z → Z → Z → option Z → K vst (obos_status * option Z);
  mutex_acquire : vmutex → K vst obos_status;
  mutex_release : vmutex → K vst obos_status;
  free_mount : Z → K vst ();
  alloc_dirty : K vst Z;
  free_dirty : Z → K vst ();
  vm_reserve : Z → K vst Z;
  vm_commit : Z → K vst ()
}.

Section ops.
Context {E : VfsEnv}.

Definition get_fd (d : Z) : K vst fd := load fds d.
Definition set_fd (d : Z) (f : fd → fd) : K vst () := store fds (λ m s, s <| fds := m |>) d f.
Definition get_vnode (v : Z) : K vst vnode := load vnodes v.
Definition set_vnode (v : Z) (f : vnode → vnode) : K vst () := store vnodes (λ m s, s <| vnodes := m |>) v f.
Definition get_mount (p : Z) : K vst mount := load mounts p.
Definition set_mount (p : Z) (f : mount → mount) : K vst () := store mounts (λ m s, s <| mounts := m |>) p f.
Definition get_dirty (d : Z) : K vst dirty_region := load dirty d.
Definition set_dirty (d : Z) (f : dirty_region → dirty_region) : K vst () :=
  store dirty (λ m s, s <| dirty := m |>) d f.

(** An unsigned division of the source, which faults on zero. *)
Definition udiv (a b : Z) : K vst Z := if b =? 0 then stop Panic else mret (a / b).
Definition umod (a b : Z) : K vst Z := if b =? 0 then stop Panic else mret (a mod b).

(** ** Mount points *)

Definition VfsH_LockMountpoint (point : Z) : K vst bool :=
  set_mount point (λ p, p <| m_nWaiting ::= λ n, wrap64 (n + 1) |>);;
  status ← mutex_acquire (MountLock point);
  if obos_is_error status && negb (bool_decide (status = OBOS_STATUS_ABORTED)) then mret false else
  if bool_decide (status = OBOS_STATUS_ABORTED) then
    p ← get_mount point;
    when (awaitingFree p) (
      set_mount point (λ p, p <| m_nWaiting ::= λ n, wrap64 (n - 1) |>);;
      p ← get_mount point;
      when (negb (truthy (m_nWaiting p))) (free_mount point));;
    mret false
  else
    set_mount point (λ p, p <| m_nWaiting ::= λ n, wrap64 (n - 1) |>);;
    mret true.

Definition VfsH_UnlockMountpoint (point : Z) : K vst bool :=
  st ← mutex_release (MountLock point); mret (obos_is_success st).

(** [vn->mount_point ? vn->mount_point : vn->un.mounted] *)
Definition point_of (v : vnode) : Z := if truthy (mount_point v) then mount_point v else un v.

(** The driver of a vnode: that of the file system for regular files, that of
    the device for devices, otherwise a null pointer that is followed. *)
Definition driver_of (v : vnode) : K vst Z :=
  if (vtype v =? VNODE_TYPE_CHR) || (vtype v =? VNODE_TYPE_BLK) then load vdevs (un v)
  else if vtype v =? VNODE_TYPE_REG then p ← get_mount (point_of v); load vdevs (fs_driver p)
  else stop BadDeref.

Definition base_offset (v : vnode) : Z := if has_flag (vflags v) VFLAGS_PARTITION then part_off v else 0.

(** ** The page cache *)

(** The first region of the list from [curr] on that satisfies [P]. *)
Fixpoint find_dirty (fuel : nat) (P : dirty_region → bool) (curr : Z) : K vst Z :=
  if negb (truthy curr) then mret nullptr else
  match fuel with
  | O => stop Hang
  | S fuel =>
      d ← get_dirty curr;
      if P d then mret curr else
      l ← load dirty_links curr; find_dirty fuel P (dl_next l)
  end.

Definition lookup_dirty (P : dirty_region → bool) (v : Z) : K vst Z :=
  mutex_acquire (DirtyListLock v);;
  l ← load dirty_lists v;
  h ← gets dirty_links;
  r ← find_dirty (size h + 1) P (dl_head l);
  mutex_release (DirtyListLock v);;
  mret r.

Definition VfsH_PCDirtyRegionLookup (v off : Z) : K vst Z :=
  lookup_dirty (λ d, (fileoff d <=? off) && (off <? wrap64 (fileoff d + sz d))) v.
Definition find_contiguous_region (v off : Z) : K vst Z :=
  lookup_dirty (λ d, off =? wrap64 (fileoff d + sz d)) v.

Definition dirty_list_op (v : Z) (op : lheap → dlist → option (lheap * dlist)) : K vst () :=
  l ← load dirty_lists v;
  h ← gets dirty_links;
  hl ← deref_opt (op h l);
  modify (λ s, s <| dirty_links := hl.1 |> <| dirty_lists ::= <[v := hl.2]> |>).

Definition VfsH_PCDirtyRegionCreate (v off size : Z) : K vst Z :=
  d ← VfsH_PCDirtyRegionLookup v off;
  fit ← (if truthy d then
           r ← get_dirty d; mret (wrap64 (fileoff r + size) <=? wrap64 (fileoff r + sz r))
         else mret false);
  if (fit : bool) then mret d else
  d ← find_contiguous_region v off;
  if truthy d then
    set_dirty d (λ r, r <| sz ::= λ n, wrap64 (n + size) |>);; mret d
  else
  d ← alloc_dirty;
  set_dirty d (λ r, r <| fileoff := off |>);;
  set_dirty d (λ r, r <| sz := size |>);;
  set_dirty d (λ r, r <| pc_owner := v |>);;
  mutex_acquire (DirtyListLock v);;
  dirty_list_op v (λ h l, LIST_APPEND h l d);;
  mutex_release (DirtyListLock v);;
  mret d.

(** The loop of [VfsH_PageCacheFlush] from the region [curr] on. *)
Fixpoint flush_loop (fuel : nat) (v : Z) (drv blkSize base : Z) (curr : Z) : K vst () :=
  if negb (truthy curr) then mret () else
  match fuel with
  | O => stop Hang
  | S fuel =>
      l ← load dirty_links curr;
      r ← get_dirty curr;
      x ← get_vnode v;
      cnt ← udiv (sz r) blkSize;
      off ← udiv (wrap64 (fileoff r + base)) blkSize;
      write_sync drv (vdesc x) (pc_data x + fileoff r) cnt off None;;
      dirty_list_op v (λ h l, LIST_REMOVE h l curr);;
      free_dirty curr;;
      flush_loop fuel v drv blkSize base (dl_next l)
  end.

Definition VfsH_PageCacheFlush (v : Z) : K vst () :=
  OBOS_ASSERT (truthy v);;
  mutex_acquire (DirtyListLock v);;
  x ← get_vnode v;
  drv ← driver_of x;
  blkSize ← get_blk_size drv (vdesc x);
  l ← load dirty_lists v;
  h ← gets dirty_links;
  flush_loop (size h + 1) v drv blkSize (base_offset x) (dl_head l);;
  mutex_release (DirtyListLock v);;
  mret ().

(** The reserved pages among those from [addr] below [top]. *)
Fixpoint empty_pages (fuel : nat) (addr top : Z) : K vst (list Z) :=
  if negb (addr <? top) then mret [] else
  match fuel with
  | O => stop Hang
  | S fuel =>
      p ← gets (λ s, pages s !! addr);
      match p with
      | None => stop Panic
      | Some reserved =>
          rest ← empty_pages fuel (addr + OBOS_PAGE_SIZE) top;
          mret (if (reserved : bool) then addr :: rest else rest)
      end
  end.

(** Reading them in; the result says whether all reads succeeded. *)
Fixpoint fill_pages (drv desc blkSize base data : Z) (empty : list Z) : K vst bool :=
  match empty with
  | [] => mret true
  | a :: empty =>
      vm_commit a;;
      off ← udiv (wrap64 (a - data + base)) blkSize;
      cnt ← udiv OBOS_PAGE_SIZE blkSize;
      r ← read_sync drv desc a cnt off None;
      if obos_is_error r.1 then mret false else fill_pages drv desc blkSize base data empty
  end.

Definition VfsH_PageCacheGetEntry (v off size : Z) : K vst Z :=
  x ← get_vnode v;
  when (negb (truthy (pc_data x))) (
    p ← vm_reserve (filesize x); set_vnode v (λ x, x <| pc_data := p |>));;
  x ← get_vnode v;
  let base := wrap64 (pc_data x + off) in
  let base := base - base mod OBOS_PAGE_SIZE in
  let top := wrap64 (base + size) in
  empty ← empty_pages (Z.to_nat (size / OBOS_PAGE_SIZE + 1)) base top;
  drv ← driver_of x;
  blkSize ← get_blk_size drv (vdesc x);
  ok ← fill_pages drv (vdesc x) blkSize (base_offset x) (pc_data x) empty;
  mret (if (ok : bool) then wrap64 (pc_data x + off) else nullptr).

(** ** Descriptors *)

Definition is_eof (v : vnode) (off : Z) : bool :=
  if negb (vtype v =? VNODE_TYPE_REG) then false else filesize v <? off.

(** The permission checks of [Vfs_FdOpenVnode]: [flags &= FD_FLAGS_READ] twice. *)
Definition apply_perm (can_read can_write : bool) (flags : Z) : Z :=
  let flags := if can_read then flags else Z.land flags FD_FLAGS_READ in
  if can_write then flags else Z.land flags FD_FLAGS_READ.

Definition Vfs_FdOpenVnode (desc v oflags : Z) : K vst obos_status :=
  if negb (truthy desc) || negb (truthy v) then mret OBOS_STATUS_INVALID_ARGUMENT else
  d ← get_fd desc;
  if has_flag (fd_flags d) FD_FLAGS_OPEN then mret OBOS_STATUS_ALREADY_INITIALIZED else
  OBOS_ASSERT (truthy v);;
  x ← get_vnode v;
  if vtype x =? VNODE_TYPE_DIR then mret OBOS_STATUS_NOT_A_FILE else
  let oflags := if vtype x =? VNODE_TYPE_CHR then Z.lor oflags FD_FLAGS_UNCACHED else oflags in
  set_fd desc (λ d, d <| vn := v |>);;
  set_fd desc (λ d, d <| fd_flags ::= λ f, Z.lor (Z.lor (Z.lor f FD_FLAGS_OPEN) FD_FLAGS_READ) FD_FLAGS_WRITE |>);;
  uid ← gets currentUID;
  gid ← gets currentGID;
  let p := perm x in
  set_fd desc (λ d, d <| fd_flags ::=
    if owner_uid x =? uid then apply_perm (owner_read p) (owner_write p)
    else if group_uid x =? gid then apply_perm (group_read p) (group_write p)
    else apply_perm (other_read p) (other_write p) |>);;
  when (has_flag oflags FD_OFLAGS_READ_ONLY)
    (set_fd desc (λ d, d <| fd_flags ::= λ f, Z.land f (Z.lnot FD_FLAGS_WRITE) |>));;
  when (has_flag oflags FD_OFLAGS_UNCACHED)
    (set_fd desc (λ d, d <| fd_flags ::= λ f, Z.lor f FD_FLAGS_UNCACHED |>));;
  set_vnode v (λ x, x <| refs ::= λ n, wrap64 (n + 1) |>);;
  l ← load opened v;
  h ← gets fd_links;
  hl ← deref_opt (LIST_APPEND h l desc);
  modify (λ s, s <| fd_links := hl.1 |> <| opened ::= <[v := hl.2]> |>);;
  set_fd desc (λ d, d <| fd_flags ::= λ f, Z.lor f FD_FLAGS_OPEN |>);;
  mret OBOS_STATUS_SUCCESS.

(** [SEEK_CUR = 0], [SEEK_SET = 1], [SEEK_END = 2]; [off] is signed. *)
Definition SEEK_CUR : Z := 0.
Definition SEEK_SET : Z := 1.
Definition SEEK_END : Z := 2.

Definition seek_target (d : fd) (v : vnode) (off whence blkSize : Z) : K vst (option Z) :=
  if (whence =? SEEK_SET) || (whence =? SEEK_END) || (whence =? SEEK_CUR) then
    r ← umod (wrap64 off) blkSize;
    if truthy r then mret None else
    if whence =? SEEK_SET then mret (Some (wrap64 off)) else
    let f := if whence =? SEEK_END then wrap64 (filesize v - 1 + off) else wrap64 (offset d + off) in
    m ← umod f blkSize;
    mret (Some (f - m))
  else mret (Some 0).

Definition Vfs_FdSeek (desc off whence : Z) : K vst obos_status :=
  if negb (truthy desc) then mret OBOS_STATUS_INVALID_ARGUMENT else
  d ← get_fd desc;
  if negb (has_flag (fd_flags d) FD_FLAGS_OPEN) then mret OBOS_STATUS_UNINITIALIZED else
  v ← get_vnode (vn d);
  drv ← driver_of v;
  blkSize ← get_blk_size drv (vdesc v);
  t ← seek_target d v off whence blkSize;
  match t with
  | None => mret OBOS_STATUS_INVALID_ARGUMENT
  | Some finalOff =>
      if is_eof v finalOff then mret OBOS_STATUS_EOF else
      set_fd desc (λ d, d <| offset := finalOff |>);;
      mret OBOS_STATUS_SUCCESS
  end.

(** [do_uncached_read] and [do_uncached_write] differ in the driver routine. *)
Definition uncached_io (op : Z → Z → Z → Z → Z → option Z → K vst (obos_status * option Z))
  (desc buf nBytes : Z) (nDone : option Z) : K vst (obos_status * option Z) :=
  d ← get_fd desc;
  v ← get_vnode (vn d);
  drv ← driver_of v;
  blkSize ← get_blk_size drv (vdesc v);
  r ← umod nBytes blkSize;
  if truthy r then mret (OBOS_STATUS_INVALID_ARGUMENT, nDone) else
  nBlocks ← udiv nBytes blkSize;
  off ← udiv (wrap64 (offset d + base_offset v)) blkSize;
  locked ← VfsH_LockMountpoint (point_of v);
  if negb locked then mret (OBOS_STATUS_ABORTED, nDone) else
  r ← op drv (vdesc v) buf nBlocks off nDone;
  VfsH_UnlockMountpoint (point_of v);;
  if obos_is_error r.1 then mret r else
  mret (OBOS_STATUS_SUCCESS, (λ n, wrap64 (n * blkSize)) <$> r.2).

Definition do_uncached_read (desc into nBytes : Z) (nRead : option Z) : K vst (obos_status * option Z) :=
  uncached_io read_sync desc into nBytes nRead.
Definition do_uncached_write (desc from nBytes : Z) (nWritten : option Z) : K vst (obos_status * option Z) :=
  uncached_io write_sync desc from nBytes nWritten.

(** [nDone] set to [n] unless the pointer is null. *)
Definition out (nDone : option Z) (n : Z) : option Z := (λ _, n) <$> nDone.

Definition cached_write (desc buf nBytes : Z) (nWritten : option Z) : K vst (obos_status * option Z) :=
  d ← get_fd desc;
  v ← get_vnode (vn d);
  locked ← VfsH_LockMountpoint (point_of v);
  if negb locked then mret (OBOS_STATUS_ABORTED, nWritten) else
  r ← VfsH_PCDirtyRegionCreate (vn d) (offset d) nBytes;
  OBOS_ASSERT (truthy r);;
  mutex_acquire (DirtyLock r);;
  p ← VfsH_PageCacheGetEntry (vn d) (offset d) nBytes;
  memcpy p buf nBytes;;
  VfsH_UnlockMountpoint (point_of v);;
  mutex_release (DirtyLock r);;
  mret (OBOS_STATUS_SUCCESS, out nWritten nBytes).

(** The return after a failed lock leaves the function without the seek. *)
Definition Vfs_FdWrite (desc buf nBytes : Z) (nWritten : option Z) : K vst (obos_status * option Z) :=
  if negb (truthy desc) || negb (truthy buf) then mret (OBOS_STATUS_INVALID_ARGUMENT, nWritten) else
  d ← get_fd desc;
  if negb (has_flag (fd_flags d) FD_FLAGS_OPEN) then mret (OBOS_STATUS_UNINITIALIZED, nWritten) else
  if negb (truthy nBytes) then mret (OBOS_STATUS_SUCCESS, nWritten) else
  v ← get_vnode (vn d);
  if is_eof v (offset d) then mret (OBOS_STATUS_EOF, nWritten) else
  if negb (has_flag (fd_flags d) FD_FLAGS_WRITE) then mret (OBOS_STATUS_ACCESS_DENIED, nWritten) else
  r ← (if has_flag (fd_flags d) FD_FLAGS_UNCACHED then do_uncached_write desc buf nBytes nWritten
       else cached_write desc buf nBytes nWritten);
  when (obos_is_success r.1) (
    v ← get_vnode (vn d);
    let room := wrap64 (filesize v - offset d) in
    when ((room <? nBytes) && (vtype v =? VNODE_TYPE_REG))
      (set_vnode (vn d) (λ v, v <| filesize ::= λ n, wrap64 (n + (nBytes - room)) |>));;
    Vfs_FdSeek desc nBytes SEEK_CUR;; mret ());;
  mret r.

Definition cached_read (desc buf nBytes : Z) (nRead : option Z) : K vst (obos_status * option Z) :=
  d ← get_fd desc;
  r ← VfsH_PCDirtyRegionLookup (vn d) (offset d);
  when (truthy r) (mutex_acquire (DirtyLock r);; mret ());;
  v ← get_vnode (vn d);
  locked ← VfsH_LockMountpoint (point_of v);
  if negb locked then mret (OBOS_STATUS_ABORTED, nRead) else
  p ← VfsH_PageCacheGetEntry (vn d) (offset d) nBytes;
  memcpy buf p nBytes;;
  when (truthy r) (mutex_release (DirtyLock r);; mret ());;
  VfsH_UnlockMountpoint (point_of v);;
  mret (OBOS_STATUS_SUCCESS, out nRead nBytes).

Definition Vfs_FdRead (desc buf nBytes : Z) (nRead : option Z) : K vst (obos_status * option Z) :=
  if negb (truthy desc) || negb (truthy buf) then mret (OBOS_STATUS_INVALID_ARGUMENT, nRead) else
  d ← get_fd desc;
  if negb (has_flag (fd_flags d) FD_FLAGS_OPEN) then mret (OBOS_STATUS_UNINITIALIZED, nRead) else
  if negb (truthy nBytes) then mret (OBOS_STATUS_SUCCESS, nRead) else
  v ← get_vnode (vn d);
  if is_eof v (offset d) then mret (OBOS_STATUS_EOF, nRead) else
  if negb (has_flag (fd_flags d) FD_FLAGS_READ) then mret (OBOS_STATUS_ACCESS_DENIED, nRead) else
  let room := wrap64 (filesize v - offset d) in
  let nBytes := if (room <? nBytes) && (vtype v =? VNODE_TYPE_REG) then room else nBytes in
  r ← (if has_flag (fd_flags d) FD_FLAGS_UNCACHED then do_uncached_read desc buf nBytes nRead
       else cached_read desc buf nBytes nRead);
  when (obos_is_success r.1) (Vfs_FdSeek desc nBytes SEEK_CUR;; mret ());;
  mret r.

Definition Vfs_FdTellOff (desc : Z) : K vst Z :=
  if truthy desc then d ← get_fd desc; mret (offset d) else mret (2 ^ 64 - 1).

Definition Vfs_FdGetBlkSz (desc : Z) : K vst Z :=
  if negb (truthy desc) then mret SIZE_MAX else
  d ← get_fd desc;
  v ← get_vnode (vn d);
  drv ← driver_of v;
  get_blk_size drv (vdesc v).

Definition Vfs_FdEOF (desc : Z) : K vst obos_status :=
  if negb (truthy desc) then mret OBOS_STATUS_INVALID_ARGUMENT else
  d ← get_fd desc;
  if negb (has_flag (fd_flags d) FD_FLAGS_OPEN) then mret OBOS_STATUS_UNINITIALIZED else
  v ← get_vnode (vn d);
  mret (if is_eof v (offset d) then OBOS_STATUS_EOF else OBOS_STATUS_SUCCESS).

Definition Vfs_FdGetVnode (desc : Z) : K vst Z :=
  if truthy desc then d ← get_fd desc; mret (vn d) else mret nullptr.

Definition Vfs_FdFlush (desc : Z) : K vst obos_status :=
  if negb (truthy desc) then mret OBOS_STATUS_SUCCESS else
  d ← get_fd desc;
  if negb (has_flag (fd_flags d) FD_FLAGS_OPEN) then mret OBOS_STATUS_INVALID_ARGUMENT else
  if has_flag (fd_flags d) FD_FLAGS_UNCACHED then mret OBOS_STATUS_INVALID_OPERATION else
  v ← get_vnode (vn d);
  locked ← VfsH_LockMountpoint (point_of v);
  if negb locked then mret OBOS_STATUS_ABORTED else
  VfsH_PageCacheFlush (vn d);;
  VfsH_UnlockMountpoint (point_of v);;
  mret OBOS_STATUS_SUCCESS.

Definition Vfs_FdClose (desc : Z) : K vst obos_status :=
  if negb (truthy desc) then mret OBOS_STATUS_SUCCESS else
  d ← get_fd desc;
  if negb (has_flag (fd_flags d) FD_FLAGS_OPEN) then mret OBOS_STATUS_INVALID_ARGUMENT else
  Vfs_FdFlush desc;;
  d ← get_fd desc;
  v ← get_vnode (vn d);
  locked ← VfsH_LockMountpoint (point_of v);
  if negb locked then mret OBOS_STATUS_ABORTED else
  l ← load opened (vn d);
  h ← gets fd_links;
  hl ← deref_opt (LIST_REMOVE h l desc);
  modify (λ s, s <| fd_links := hl.1 |> <| opened ::= <[vn d := hl.2]> |>);;
  set_vnode (vn d) (λ x, x <| refs ::= λ n, wrap64 (n - 1) |>);;
  set_fd desc (λ d, d <| fd_flags ::= λ f, Z.land f (Z.lnot FD_FLAGS_OPEN) |>);;
  VfsH_UnlockMountpoint (point_of v);;
  mret OBOS_STATUS_SUCCESS.

End ops.
