(* ===== verification/VfsProofs.v ===== *)
(** * Files: correctness

    Uncached reads against a disk whose driver behaves as [header.h] documents,
    opening and closing, the permission checks, and the list of dirty regions. *)

From S2P Require Import Prelude Bytes DList Vfs.

(** ** The environment of a disk

    The driver [drv] reports the block size [bs] for the descriptor [desc] and
    reads whole blocks of [disk]; the mutexes are free. *)
Record disk_env (E : VfsEnv) (drv desc bs : Z) (disk : list Z) : Prop := {
  de_bs : 0 < bs < 2 ^ 64;
  de_blk s : get_blk_size drv desc s = Ret bs s;
  de_read buf n off nr s :
    0 <= n → 0 <= off → (off + n) * bs <= Z.of_nat (length disk) →
    mapped (vmem s) buf (Z.to_nat (n * bs)) →
    read_sync drv desc buf n off nr s =
      Ret (OBOS_STATUS_SUCCESS, (λ _, n) <$> nr)
        (s <| vmem := write_bytes (vmem s) buf (take (Z.to_nat (n * bs)) (drop (Z.to_nat (off * bs)) disk)) |>);
  de_acquire m s : mutex_acquire m s = Ret OBOS_STATUS_SUCCESS s;
  de_release m s : mutex_release m s = Ret OBOS_STATUS_SUCCESS s
}.

(** A descriptor open on a block device. *)
Record on_disk (s : vst) (desc : Z) (d : fd) (v : vnode) (drv : Z) : Prop := {
  od_fd : fds s !! desc = Some d;
  od_nonnull : desc ≠ 0;
  od_flags : has_flag (fd_flags d) FD_FLAGS_OPEN = true ∧ has_flag (fd_flags d) FD_FLAGS_READ = true ∧
    has_flag (fd_flags d) FD_FLAGS_UNCACHED = true;
  od_vnode : vnodes s !! vn d = Some v;
  od_type : vtype v = VNODE_TYPE_BLK;
  od_drv : vdevs s !! un v = Some drv;
  od_mount : ∃ p, mounts s !! point_of v = Some p ∧ in_u 64 (m_nWaiting p)
}.

Section disk.
Context {E : VfsEnv} {drv bs : Z} {disk : list Z}.
Set Default Proof Using "Type".

Lemma driver_of_disk s desc d v : on_disk s desc d v drv → driver_of v s = Ret drv s.
Proof. intros [_ _ _ _ Ht Hd _]. unfold driver_of. rewrite Ht. simpl. by apply load_eq. Qed.

Lemma wrap64_succ_pred n : in_u 64 n → wrap64 (wrap64 (n + 1) - 1) = n.
Proof.
  intros H. unfold wrap. rewrite Zminus_mod_idemp_l. replace (n + 1 - 1) with n by lia.
  by apply Z.mod_small.
Qed.

Lemma lock_mount_ok s v p desc' :
  disk_env E drv desc' bs disk → mounts s !! point_of v = Some p → in_u 64 (m_nWaiting p) →
  VfsH_LockMountpoint (point_of v) s = Ret true s.
Proof.
  intros He Hp Hw. unfold VfsH_LockMountpoint, set_mount, get_mount.
  erewrite bind_Ret by (by eapply store_eq). erewrite bind_Ret by (apply (de_acquire _ _ _ _ _ He)). simpl.
  erewrite bind_Ret by (eapply store_eq; simpl; apply lookup_insert_eq). unfold mret, K_ret. f_equal. simpl.
  rewrite insert_insert_eq. simpl. rewrite wrap64_succ_pred by done.
  rewrite insert_id by (by destruct p). by destruct s.
Qed.

Lemma unlock_mount_ok s v desc' :
  disk_env E drv desc' bs disk → VfsH_UnlockMountpoint (point_of v) s = Ret true s.
Proof.
  intros He. unfold VfsH_UnlockMountpoint. by erewrite bind_Ret by (apply (de_release _ _ _ _ _ He)).
Qed.

(** Moving forward by whole blocks. *)
Lemma seek_forward s desc d v k :
  disk_env E drv (vdesc v) bs disk → on_disk s desc d v drv →
  0 <= offset d → offset d mod bs = 0 → 0 <= k → offset d + k * bs < 2 ^ 64 →
  Vfs_FdSeek desc (k * bs) SEEK_CUR s =
    Ret OBOS_STATUS_SUCCESS (s <| fds ::= <[desc := d <| offset := offset d + k * bs |>]> |>).
Proof.
  intros He Hod H0 Hal Hk Hmax. pose proof Hod as [Hfd Hnn (Ho & _) Hv Ht _ _].
  pose proof (de_bs _ _ _ _ _ He) as Hbs.
  unfold Vfs_FdSeek, get_fd, get_vnode, set_fd. rewrite (proj2 (truthy_true desc)) by done. cbn [negb].
  erewrite bind_Ret by (by apply load_eq). rewrite Ho. cbn [negb].
  erewrite bind_Ret by (by apply load_eq). erewrite bind_Ret by (by eapply driver_of_disk).
  erewrite bind_Ret by (apply (de_blk _ _ _ _ _ He)).
  erewrite (bind_Ret _ _ _ (Some (offset d + k * bs)) s).
  2: { unfold seek_target, umod.
       change ((SEEK_CUR =? SEEK_SET) || (SEEK_CUR =? SEEK_END) || (SEEK_CUR =? SEEK_CUR)) with true. cbv iota.
       rewrite (proj2 (Z.eqb_neq bs 0)) by lia. erewrite bind_Ret by reflexivity.
       rewrite (wrap_small 64 (k * bs)) by (unfold in_u; nia). rewrite Z.mod_mul by lia. cbn [truthy negb Z.eqb].
       change (SEEK_CUR =? SEEK_SET) with false. change (SEEK_CUR =? SEEK_END) with false. cbv iota zeta.
       rewrite wrap_small by (unfold in_u; nia). erewrite bind_Ret by reflexivity.
       rewrite Z.mod_add, Hal by lia. unfold mret, K_ret. do 2 f_equal. lia. }
  unfold is_eof. rewrite Ht. simpl.
  unfold set_fd. erewrite bind_Ret by (by eapply store_eq). done.
Qed.

(** One uncached read. *)
Lemma read_disk s desc d v buf k nr :
  disk_env E drv (vdesc v) bs disk → on_disk s desc d v drv → buf ≠ 0 → 0 < k →
  0 <= offset d → offset d mod bs = 0 → 0 <= base_offset v → base_offset v mod bs = 0 →
  offset d + base_offset v + k * bs <= Z.of_nat (length disk) → Z.of_nat (length disk) < 2 ^ 64 →
  mapped (vmem s) buf (Z.to_nat (k * bs)) →
  Vfs_FdRead desc buf (k * bs) nr s =
    Ret (OBOS_STATUS_SUCCESS, out nr (k * bs))
      (s <| vmem := write_bytes (vmem s) buf
              (take (Z.to_nat (k * bs)) (drop (Z.to_nat (offset d + base_offset v)) disk)) |>
         <| fds ::= <[desc := d <| offset := offset d + k * bs |>]> |>).
Proof.
  intros He Hod Hbuf Hk H0 Hal Hb0 Hbal Hend Hmax Hm.
  pose proof Hod as [Hfd Hnn (Ho & Hr & Hu) Hv Ht Hd (p & Hp & Hw)]. pose proof (de_bs _ _ _ _ _ He) as Hbs.
  assert (in_u 64 (k * bs)) as Hkb by (unfold in_u; nia).
  set (s1 := s <| vmem := write_bytes (vmem s) buf
     (take (Z.to_nat (k * bs)) (drop (Z.to_nat (offset d + base_offset v)) disk)) |>).
  unfold Vfs_FdRead, get_fd, get_vnode.
  rewrite (proj2 (truthy_true desc)), (proj2 (truthy_true buf)) by done. cbn [negb orb].
  erewrite bind_Ret by (by apply load_eq). rewrite Ho, (proj2 (truthy_true (k * bs))) by nia. cbn [negb].
  erewrite bind_Ret by (by apply load_eq). unfold is_eof. rewrite Ht, Hr, Hu. cbn [negb].
  change (negb (VNODE_TYPE_BLK =? VNODE_TYPE_REG)) with true. change (VNODE_TYPE_BLK =? VNODE_TYPE_REG) with false.
  rewrite andb_false_r. cbv iota zeta.
  erewrite (bind_Ret _ _ _ (OBOS_STATUS_SUCCESS, out nr (k * bs)) s1).
  2: { unfold do_uncached_read, uncached_io, get_fd, get_vnode. erewrite bind_Ret by (by apply load_eq).
       erewrite bind_Ret by (by apply load_eq). erewrite bind_Ret by (by eapply driver_of_disk).
       erewrite bind_Ret by (apply (de_blk _ _ _ _ _ He)). unfold umod, udiv. rewrite (proj2 (Z.eqb_neq bs 0)) by lia.
       erewrite bind_Ret by reflexivity. rewrite Z.mod_mul by lia. cbn [truthy negb Z.eqb].
       erewrite bind_Ret by reflexivity. rewrite Z.div_mul by lia. erewrite bind_Ret by reflexivity.
       erewrite bind_Ret by (by eapply lock_mount_ok). cbn [negb].
       rewrite wrap_small by (unfold in_u; nia).
       assert ((offset d + base_offset v) / bs * bs = offset d + base_offset v) as Eoff.
       { rewrite Z.mul_comm. symmetry. apply Z.div_exact; [lia|]. rewrite Zplus_mod, Hal, Hbal. by apply Z.mod_0_l; lia. }
       erewrite bind_Ret.
       2: { apply (de_read _ _ _ _ _ He); [lia|apply Z.div_pos; lia|rewrite Z.mul_add_distr_r, Eoff; lia|done]. }
       rewrite Eoff. fold s1. erewrite bind_Ret by (by eapply unlock_mount_ok). simpl. unfold mret, K_ret, out.
       f_equal. f_equal. destruct nr; [|done]. simpl. f_equal. by apply wrap_small. }
  simpl fst. unfold obos_is_success. rewrite bool_decide_eq_true_2 by done. unfold when.
  erewrite bind_Ret.
  2: { erewrite bind_Ret; [reflexivity|]. eapply seek_forward; [exact He| |done|done|lia|lia].
       destruct Hod as [? ? ? ? ? ? ?]. split; try done. }
  done.
Qed.

(** [C22] Consecutive uncached reads of whole blocks of a block device deliver
    consecutive data: two reads in a row, at an offset that is a multiple of the block
    size and within the disk, the second into the memory behind the first, have exactly
    the effect of one read of both sizes, and each reports the bytes it read. The
    descriptor's offset moves by what was read; only the buffer, which must be mapped,
    changes in memory. *)
Theorem sequential_reads s desc d v buf k1 k2 nr :
  disk_env E drv (vdesc v) bs disk → on_disk s desc d v drv → 0 < buf → 0 < k1 → 0 < k2 →
  0 <= offset d → offset d mod bs = 0 → 0 <= base_offset v → base_offset v mod bs = 0 →
  offset d + base_offset v + (k1 + k2) * bs <= Z.of_nat (length disk) → Z.of_nat (length disk) < 2 ^ 64 →
  mapped (vmem s) buf (Z.to_nat ((k1 + k2) * bs)) →
  ∃ s1 s2, Vfs_FdRead desc buf (k1 * bs) nr s = Ret (OBOS_STATUS_SUCCESS, out nr (k1 * bs)) s1 ∧
    Vfs_FdRead desc (buf + k1 * bs) (k2 * bs) nr s1 = Ret (OBOS_STATUS_SUCCESS, out nr (k2 * bs)) s2 ∧
    Vfs_FdRead desc buf ((k1 + k2) * bs) nr s = Ret (OBOS_STATUS_SUCCESS, out nr ((k1 + k2) * bs)) s2 ∧
    vmem s2 = write_bytes (vmem s) buf
      (take (Z.to_nat ((k1 + k2) * bs)) (drop (Z.to_nat (offset d + base_offset v)) disk)) ∧
    fds s2 !! desc = Some (d <| offset := offset d + (k1 + k2) * bs |>).
Proof.
  intros He Hod Hbuf Hk1 Hk2 H0 Hal Hb0 Hbal Hend Hmax Hm.
  pose proof (de_bs _ _ _ _ _ He) as Hbs. pose proof Hod as [Hfd Hnn Hfl Hv Ht Hd Hp].
  assert ((k1 + k2) * bs = k1 * bs + k2 * bs) as Esum by lia.
  assert (0 < k1 * bs ∧ 0 < k2 * bs) as [Hp1 Hp2] by nia.
  set (dat := drop (Z.to_nat (offset d + base_offset v)) disk).
  assert (Z.to_nat ((k1 + k2) * bs) = (Z.to_nat (k1 * bs) + Z.to_nat (k2 * bs))%nat) as Enat by lia.
  assert (length (take (Z.to_nat (k1 * bs)) dat) = Z.to_nat (k1 * bs)) as Hlen.
  { rewrite length_take. unfold dat. rewrite length_drop. lia. }
  eexists _, _. split; [|split; [|split; [|split]]].
  - eapply read_disk; try done; [lia|nia|]. apply (mapped_le _ _ _ _ Hm). lia.
  - erewrite (read_disk _ desc (d <| offset := offset d + k1 * bs |>) v _ k2); try done.
    + destruct Hod. split; try done. simpl. by rewrite lookup_insert_eq.
    + lia.
    + simpl. nia.
    + simpl. by rewrite Z.mod_add by lia.
    + simpl. nia.
    + simpl. apply write_bytes_mapped. intros i Hi.
      replace (buf + k1 * bs + Z.of_nat i) with (buf + Z.of_nat (Z.to_nat (k1 * bs) + i)) by lia. apply Hm. lia.
  - erewrite read_disk; try done; [|lia|lia]. f_equal. simpl. fold dat.
    rewrite insert_insert_eq. unfold set_field. simpl.
    replace (drop (Z.to_nat (offset d + k1 * bs + base_offset v)) disk) with (drop (Z.to_nat (k1 * bs)) dat)
      by (unfold dat; rewrite drop_drop; f_equal; lia).
    rewrite Enat, <- take_take_drop, write_bytes_app, Hlen, Z2Nat.id by lia.
    replace (offset d + k1 * bs + k2 * bs) with (offset d + (k1 + k2) * bs) by lia. done.
  - simpl. fold dat. replace (drop (Z.to_nat (offset d + k1 * bs + base_offset v)) disk) with (drop (Z.to_nat (k1 * bs)) dat)
      by (unfold dat; rewrite drop_drop; f_equal; lia).
    rewrite Enat, <- take_take_drop, write_bytes_app, Hlen, Z2Nat.id by lia. done.
  - simpl. rewrite lookup_insert_eq. simpl. do 2 f_equal. lia.
Qed.

End disk.

(** ** Opening and closing *)

Section open.
Context {E : VfsEnv}.

(** A closed descriptor refuses every operation and nothing changes. *)
Theorem closed_fd_refused s desc d buf n off whence nr :
  desc ≠ 0 → buf ≠ 0 → fds s !! desc = Some d → has_flag (fd_flags d) FD_FLAGS_OPEN = false →
  Vfs_FdRead desc buf n nr s = Ret (OBOS_STATUS_UNINITIALIZED, nr) s ∧
  Vfs_FdWrite desc buf n nr s = Ret (OBOS_STATUS_UNINITIALIZED, nr) s ∧
  Vfs_FdSeek desc off whence s = Ret OBOS_STATUS_UNINITIALIZED s ∧
  Vfs_FdEOF desc s = Ret OBOS_STATUS_UNINITIALIZED s ∧
  Vfs_FdFlush desc s = Ret OBOS_STATUS_INVALID_ARGUMENT s ∧
  Vfs_FdClose desc s = Ret OBOS_STATUS_INVALID_ARGUMENT s.
Proof.
  intros Hd Hb Hfd Hf.
  unfold Vfs_FdRead, Vfs_FdWrite, Vfs_FdSeek, Vfs_FdEOF, Vfs_FdFlush, Vfs_FdClose, get_fd.
  rewrite (proj2 (truthy_true desc)), (proj2 (truthy_true buf)) by done. cbn [negb orb].
  repeat split; (erewrite bind_Ret by (by apply load_eq)); by rewrite Hf.
Qed.

(** The flags [Vfs_FdOpenVnode] gives a descriptor. *)
Definition open_flags (s : vst) (x : vnode) (oflags flags : Z) : Z :=
  let p := perm x in
  let f := Z.lor (Z.lor (Z.lor flags FD_FLAGS_OPEN) FD_FLAGS_READ) FD_FLAGS_WRITE in
  let f := if owner_uid x =? currentUID s then apply_perm (owner_read p) (owner_write p) f
           else if group_uid x =? currentGID s then apply_perm (group_read p) (group_write p) f
           else apply_perm (other_read p) (other_write p) f in
  let oflags := if vtype x =? VNODE_TYPE_CHR then Z.lor oflags FD_FLAGS_UNCACHED else oflags in
  let f := if has_flag oflags FD_OFLAGS_READ_ONLY then Z.land f (Z.lnot FD_FLAGS_WRITE) else f in
  let f := if has_flag oflags FD_OFLAGS_UNCACHED then Z.lor f FD_FLAGS_UNCACHED else f in
  Z.lor f FD_FLAGS_OPEN.

(** [s] with the descriptor [desc] set to [d]. *)
Definition with_fd (s : vst) (desc : Z) (d : fd) : vst := s <| fds ::= <[desc := d]> |>.

Lemma with_fd_id s desc d : fds s !! desc = Some d → with_fd s desc d = s.
Proof. intros H. unfold with_fd. destruct s. simpl in *. by rewrite insert_id. Qed.

Lemma set_fd_with s desc d f : set_fd desc f (with_fd s desc d) = Ret () (with_fd s desc (f d)).
Proof.
  unfold set_fd. erewrite store_eq by (apply lookup_insert_eq). unfold with_fd. simpl. by rewrite insert_insert_eq.
Qed.

Lemma when_set_fd s desc d b f :
  when b (set_fd desc f) (with_fd s desc d) = Ret () (with_fd s desc (if b then f d else d)).
Proof. destruct b; [apply set_fd_with|done]. Qed.

(** The state after opening. *)
Definition opened_st (s : vst) (desc : Z) (d : fd) (v : Z) (x : vnode) (oflags : Z) (h : lheap) (l : dlist) : vst :=
  (with_fd s desc (mkFd v (open_flags s x oflags (fd_flags d)) (offset d)))
    <| vnodes ::= <[v := x <| refs ::= λ n, wrap64 (n + 1) |>]> |>
    <| fd_links := h |> <| opened ::= <[v := l]> |>.

Lemma OpenVnode_ok s desc d v x oflags l h l' :
  desc ≠ 0 → v ≠ 0 → fds s !! desc = Some d → has_flag (fd_flags d) FD_FLAGS_OPEN = false →
  vnodes s !! v = Some x → vtype x ≠ VNODE_TYPE_DIR →
  opened s !! v = Some l → LIST_APPEND (fd_links s) l desc = Some (h, l') →
  Vfs_FdOpenVnode desc v oflags s = Ret OBOS_STATUS_SUCCESS (opened_st s desc d v x oflags h l').
Proof.
  intros Hd Hv Hfd Hf Hx Ht Ho Happ. unfold Vfs_FdOpenVnode, get_fd, get_vnode, set_vnode.
  rewrite (proj2 (truthy_true desc)), (proj2 (truthy_true v)) by done. cbn [negb orb].
  erewrite bind_Ret by (by apply load_eq). rewrite Hf. erewrite bind_Ret by (by apply assert_eq).
  erewrite bind_Ret by (by apply load_eq). rewrite (proj2 (Z.eqb_neq _ _)) by done. cbv zeta.
  rewrite <- (with_fd_id s desc d Hfd) at 1.
  do 2 erewrite bind_Ret by apply set_fd_with.
  erewrite bind_Ret by apply gets_eq. erewrite bind_Ret by apply gets_eq.
  erewrite bind_Ret by apply set_fd_with. erewrite bind_Ret by apply when_set_fd.
  erewrite bind_Ret by apply when_set_fd. erewrite bind_Ret by (eapply store_eq; exact Hx).
  erewrite bind_Ret by (apply load_eq; exact Ho). erewrite bind_Ret by apply gets_eq.
  erewrite bind_Ret by (apply deref_opt_eq; exact Happ). erewrite bind_Ret by apply modify_eq.
  unfold set_fd. erewrite bind_Ret by (eapply store_eq; simpl; apply lookup_insert_eq).
  unfold mret, K_ret, opened_st, with_fd, open_flags. f_equal. simpl. rewrite insert_insert_eq.
  destruct d as [dv df doff]. simpl. cbv zeta.
  by destruct (owner_uid x =? currentUID s), (group_uid x =? currentGID s), (has_flag _ FD_OFLAGS_READ_ONLY),
    (has_flag _ FD_OFLAGS_UNCACHED).
Qed.

Lemma has_flag_bit x n : 0 <= n → has_flag x (2 ^ n) = Z.testbit x n.
Proof.
  intros Hn. unfold has_flag. destruct (Z.testbit x n) eqn:Ex.
  - apply truthy_true. intros H. assert (Z.testbit (Z.land x (2 ^ n)) n = false) as H' by (by rewrite H, Z.bits_0).
    by rewrite Z.land_spec, Z.pow2_bits_true, Ex in H' by done.
  - apply truthy_false, Z.bits_inj'. intros i Hi. rewrite Z.land_spec, Z.bits_0.
    destruct (decide (i = n)) as [->|Hne]; [by rewrite Ex|]. by rewrite Z.pow2_bits_false, andb_false_r by lia.
Qed.

(** The bits of the flags, computed. *)
Ltac flag_bits :=
  change FD_FLAGS_OPEN with (2 ^ 0); change FD_FLAGS_READ with (2 ^ 1);
  change FD_FLAGS_WRITE with (2 ^ 2); change FD_FLAGS_UNCACHED with (2 ^ 3);
  rewrite ?has_flag_bit by lia;
  repeat case_match;
  repeat (rewrite Z.lor_spec || rewrite Z.land_spec || rewrite Z.lnot_spec by lia);
  rewrite ?Z.pow2_bits_eqb by lia; cbn [Z.eqb Pos.eqb negb];
  rewrite ?orb_true_r, ?orb_false_r, ?andb_true_r, ?andb_false_r; try done;
  rewrite ?orb_true_r, ?andb_false_r; try done.

(** Opening checks permissions by [flags &= FD_FLAGS_READ]: whatever the
    permissions of the file are, a descriptor that has been opened may read. *)
Theorem open_grants_read s desc d v x oflags l h l' :
  desc ≠ 0 → v ≠ 0 → fds s !! desc = Some d → has_flag (fd_flags d) FD_FLAGS_OPEN = false →
  vnodes s !! v = Some x → vtype x ≠ VNODE_TYPE_DIR →
  opened s !! v = Some l → LIST_APPEND (fd_links s) l desc = Some (h, l') →
  ∃ s' d', Vfs_FdOpenVnode desc v oflags s = Ret OBOS_STATUS_SUCCESS s' ∧ fds s' !! desc = Some d' ∧
    has_flag (fd_flags d') FD_FLAGS_OPEN = true ∧ has_flag (fd_flags d') FD_FLAGS_READ = true ∧
    (owner_uid x = currentUID s → owner_write (perm x) = false → has_flag (fd_flags d') FD_FLAGS_WRITE = false).
Proof.
  intros Hd Hv Hfd Hf Hx Ht Ho Happ. eexists _, _. split; [by eapply OpenVnode_ok|].
  split; [apply lookup_insert_eq|]. simpl. unfold open_flags, apply_perm. cbv zeta.
  split; [|split].
  - flag_bits.
  - flag_bits.
  - intros E1 E2. rewrite (proj2 (Z.eqb_eq _ _) E1), E2.
    destruct (owner_read (perm x)), (has_flag _ FD_OFLAGS_READ_ONLY), (has_flag _ FD_OFLAGS_UNCACHED); by flag_bits.
Qed.

(** Opening a descriptor uncached and closing it again is a round trip: the
    vnode has its reference count and its list of open descriptors back, and the
    descriptor is closed (so that it can be opened again). *)
Theorem open_close_roundtrip s desc d v x xs l p oflags :
  desc ≠ 0 → v ≠ 0 → fds s !! desc = Some d → has_flag (fd_flags d) FD_FLAGS_OPEN = false →
  vnodes s !! v = Some x → vtype x ≠ VNODE_TYPE_DIR → in_u 64 (refs x) →
  opened s !! v = Some l → dl_rep (fd_links s) l xs → desc ∉ xs → is_Some (fd_links s !! desc) →
  Z.of_nat (length xs) + 1 < 2 ^ 64 → has_flag oflags FD_OFLAGS_UNCACHED = true →
  mounts s !! point_of x = Some p → in_u 64 (m_nWaiting p) →
  (∀ m s, mutex_acquire m s = Ret OBOS_STATUS_SUCCESS s) → (∀ m s, mutex_release m s = Ret OBOS_STATUS_SUCCESS s) →
  ∃ s1 s2 d' l', Vfs_FdOpenVnode desc v oflags s = Ret OBOS_STATUS_SUCCESS s1 ∧
    Vfs_FdClose desc s1 = Ret OBOS_STATUS_SUCCESS s2 ∧
    vnodes s2 = vnodes s ∧ opened s2 !! v = Some l' ∧ dl_rep (fd_links s2) l' xs ∧
    fds s2 !! desc = Some d' ∧ has_flag (fd_flags d') FD_FLAGS_OPEN = false.
Proof.
  intros Hd Hv Hfd Hf Hx Ht Hr Ho Hrep Hnin Hlk Hlen Hu Hp Hw Hacq Hrel.
  destruct (LIST_APPEND_spec _ _ _ desc Hrep Hnin Hd Hlk Hlen) as (h & l' & Happ & Hrep' & _).
  destruct (LIST_REMOVE_spec h l' xs desc []) as (h2 & l2 & Hrem & Hrep2 & _); [done|rewrite length_app; simpl; lia|].
  rewrite app_nil_r in Hrep2.
  set (s1 := opened_st s desc d v x oflags h l').
  set (d1 := mkFd v (open_flags s x oflags (fd_flags d)) (offset d)).
  set (x1 := x <| refs ::= λ n, wrap64 (n + 1) |>).
  assert (has_flag (fd_flags d1) FD_FLAGS_OPEN = true ∧ has_flag (fd_flags d1) FD_FLAGS_UNCACHED = true) as [Ho1 Hu1].
  { unfold d1, open_flags. simpl. cbv zeta.
    assert (has_flag (if vtype x =? VNODE_TYPE_CHR then Z.lor oflags FD_FLAGS_UNCACHED else oflags) FD_OFLAGS_UNCACHED = true) as ->.
    { change FD_OFLAGS_UNCACHED with (2 ^ 1) in *. rewrite has_flag_bit in * by lia. case_match; [|done].
      by rewrite Z.lor_spec, Hu. }
    split; flag_bits. }
  assert (∀ s', mounts s' = mounts s → VfsH_LockMountpoint (point_of x1) s' = Ret true s') as Hlock.
  { intros s' Em. unfold VfsH_LockMountpoint, set_mount, get_mount. change (point_of x1) with (point_of x).
    erewrite bind_Ret by (eapply store_eq; rewrite Em; exact Hp). erewrite bind_Ret by apply Hacq. simpl.
    erewrite bind_Ret by (eapply store_eq; simpl; apply lookup_insert_eq). unfold mret, K_ret. f_equal. simpl.
    rewrite insert_insert_eq. simpl. rewrite wrap64_succ_pred by done. rewrite insert_id; [by destruct s'|].
    rewrite Em, Hp. by destruct p. }
  eexists _, _, _, l2. split; [by eapply OpenVnode_ok|]. fold s1. split.
  - unfold Vfs_FdClose, get_fd, get_vnode, set_vnode, set_fd. rewrite (proj2 (truthy_true desc)) by done. cbn [negb].
    erewrite bind_Ret by (apply load_eq; apply lookup_insert_eq). fold d1. rewrite Ho1. cbn [negb].
    erewrite (bind_Ret (Vfs_FdFlush desc) _ _ OBOS_STATUS_INVALID_OPERATION s1).
    2: { unfold Vfs_FdFlush, get_fd. rewrite (proj2 (truthy_true desc)) by done. cbn [negb].
         erewrite bind_Ret by (apply load_eq; apply lookup_insert_eq). fold d1. by rewrite Ho1, Hu1. }
    erewrite bind_Ret by (apply load_eq; apply lookup_insert_eq). fold d1. change (vn d1) with v.
    erewrite bind_Ret by (apply load_eq; apply lookup_insert_eq). fold x1.
    erewrite bind_Ret by (by apply Hlock). cbn [negb].
    erewrite bind_Ret by (apply load_eq; apply lookup_insert_eq). erewrite bind_Ret by apply gets_eq.
    erewrite bind_Ret by (apply deref_opt_eq; exact Hrem). erewrite bind_Ret by apply modify_eq.
    erewrite bind_Ret by (eapply store_eq; apply lookup_insert_eq).
    erewrite bind_Ret by (eapply store_eq; apply lookup_insert_eq).
    unfold VfsH_UnlockMountpoint. erewrite bind_Ret by (by erewrite bind_Ret by apply Hrel). reflexivity.
  - simpl. split; [|split; [apply lookup_insert_eq|split; [done|split; [apply lookup_insert_eq|]]]].
    + rewrite insert_insert_eq. simpl. rewrite wrap64_succ_pred by done. rewrite insert_id; [done|]. rewrite Hx. by destruct x.
    + simpl. change FD_FLAGS_OPEN with (2 ^ 0). rewrite has_flag_bit by lia.
      rewrite Z.land_spec, Z.lnot_spec by lia. simpl. apply andb_false_r.
Qed.

End open.

(** ** Dirty regions *)

Section dirty.
Context {E : VfsEnv}.
Set Default Proof Using "Type".

(** The dirty regions of the vnode [v], in list order. *)
Record dirty_at (s : vst) (v : Z) (rs : list (Z * dirty_region)) : Prop := {
  da_list : ∃ l, dirty_lists s !! v = Some l ∧ dl_rep (dirty_links s) l rs.*1;
  da_regions : ∀ p r, (p, r) ∈ rs → dirty s !! p = Some r
}.

(** The first region that satisfies [P]. *)
Definition first_region (P : dirty_region → bool) (rs : list (Z * dirty_region)) : Z :=
  match list_find (λ pr, P pr.2) rs with Some (_, (p, _)) => p | None => nullptr end.

Lemma first_region_cons P p r rs :
  first_region P ((p, r) :: rs) = if P r then p else first_region P rs.
Proof.
  unfold first_region. cbn [list_find]. case_decide as H; simpl in H.
  - by destruct (P r).
  - destruct (P r); [by destruct H|]. by destruct (list_find _ rs) as [[? [? ?]]|].
Qed.

Lemma find_dirty_eq P rs fuel prev s :
  seg (dirty_links s) prev rs.*1 0 → 0 ∉ rs.*1 → (∀ p r, (p, r) ∈ rs → dirty s !! p = Some r) →
  (length rs < fuel)%nat →
  find_dirty fuel P (default 0 (head rs.*1)) s = Ret (first_region P rs) s.
Proof.
  revert fuel prev. induction rs as [|[p r] rs IH]; intros fuel prev Hs H0 Hr Hf.
  - destruct fuel; [lia|]. done.
  - destruct fuel as [|fuel]; [lia|]. simpl in Hs, H0, Hf. destruct Hs as [Hp Hs]. rewrite first_region_cons.
    change (default 0 (head ((p, r) :: rs).*1)) with p. cbn [find_dirty].
    rewrite (proj2 (truthy_true p)) by set_solver. cbn [negb].
    unfold get_dirty. erewrite bind_Ret by (apply load_eq, Hr; apply list_elem_of_here).
    destruct (P r); [done|]. erewrite bind_Ret by (by apply load_eq). simpl.
    eapply IH; [exact Hs|set_solver| |lia]. intros. apply Hr. by apply list_elem_of_further.
Qed.

(** The list lock is free. *)
Definition locks_free : Prop :=
  (∀ m s, mutex_acquire m s = Ret OBOS_STATUS_SUCCESS s) ∧ (∀ m s, mutex_release m s = Ret OBOS_STATUS_SUCCESS s).

Lemma lookup_dirty_eq P v rs s :
  locks_free → dirty_at s v rs → lookup_dirty P v s = Ret (first_region P rs) s.
Proof.
  intros [Hacq Hrel] [(l & Hl & Hrep) Hr]. unfold lookup_dirty. erewrite bind_Ret by apply Hacq.
  erewrite bind_Ret by (by apply load_eq). erewrite bind_Ret by apply gets_eq.
  erewrite bind_Ret.
  2: { rewrite (rep_head _ _ _ Hrep). eapply find_dirty_eq; [by destruct Hrep|by destruct Hrep|done|].
       pose proof (seg_size _ _ _ _ (rep_seg _ _ _ Hrep) (rep_nodup _ _ _ Hrep)) as Hsz. rewrite length_fmap in Hsz. lia. }
  by erewrite bind_Ret by apply Hrel.
Qed.

(** Does the region contain the offset; does it end there? *)
Definition contains (off : Z) (d : dirty_region) : bool :=
  (fileoff d <=? off) && (off <? wrap64 (fileoff d + sz d)).
Definition ends_at (off : Z) (d : dirty_region) : bool := off =? wrap64 (fileoff d + sz d).

(** A write that starts inside a dirty region and is no longer than it is taken
    to fit, wherever in the region it starts: the region is returned as it is,
    although the write goes on beyond its end (the comment in the source says it
    would be expanded). *)
Theorem dirty_create_short s v rs off size p r :
  locks_free → dirty_at s v rs → first_region (contains off) rs = p → p ≠ 0 → (p, r) ∈ rs →
  0 <= fileoff r → fileoff r + sz r < 2 ^ 64 → 0 <= size <= sz r →
  VfsH_PCDirtyRegionCreate v off size s = Ret p s.
Proof.
  intros Hlk Hda Hfirst Hp Hin H0 Hmax Hsz. unfold VfsH_PCDirtyRegionCreate, get_dirty.
  erewrite bind_Ret by (by apply lookup_dirty_eq). fold (contains off). rewrite Hfirst, (proj2 (truthy_true p)) by done.
  erewrite bind_Ret by (erewrite bind_Ret by (apply load_eq; by eapply da_regions); reflexivity).
  rewrite !wrap_small by (unfold in_u; lia). by rewrite (proj2 (Z.leb_le _ _)) by lia.
Qed.

(** Creating a dirty region where none is and none ends puts a new one, of
    exactly the range asked for, at the back of the list. *)
Theorem dirty_create_new s v rs off size q g s1 :
  locks_free → dirty_at s v rs → first_region (contains off) rs = nullptr →
  first_region (ends_at off) rs = nullptr →
  alloc_dirty s = Ret q s1 → q ≠ 0 → q ∉ rs.*1 → dirty s !! q = None → dirty_links s !! q = None →
  s1 = s <| dirty ::= <[q := g]> |> <| dirty_links ::= <[q := unlinked]> |> →
  Z.of_nat (length rs) + 1 < 2 ^ 64 →
  ∃ s', VfsH_PCDirtyRegionCreate v off size s = Ret q s' ∧ dirty_at s' v (rs ++ [(q, mkDirty off size v)]).
Proof.
  intros Hlk Hda H1 H2 Halloc Hq Hnin Hfr Hfl -> Hlen. pose proof Hlk as [Hacq Hrel].
  pose proof Hda as [(l & Hl & Hrep) Hr].
  set (h1 := <[q := unlinked]> (dirty_links s)).
  assert (dl_rep h1 l rs.*1) as Hrep1.
  { eapply dl_rep_frame; [|exact Hrep]. intros y Hy. unfold h1. rewrite lookup_insert_ne; [done|]. intros <-. done. }
  destruct (LIST_APPEND_spec h1 l rs.*1 q) as (h' & l' & Happ & Hrep' & _); try done.
  { unfold h1. by rewrite lookup_insert_eq. }
  { by rewrite length_fmap. }
  eexists. split.
  - unfold VfsH_PCDirtyRegionCreate, set_dirty. erewrite bind_Ret by (by apply lookup_dirty_eq).
    fold (contains off). rewrite H1. erewrite bind_Ret by reflexivity. cbv iota.
    erewrite bind_Ret by (by apply lookup_dirty_eq). fold (ends_at off). rewrite H2.
    change (truthy nullptr) with false. cbv iota.
    erewrite bind_Ret by exact Halloc.
    do 3 erewrite bind_Ret by (eapply store_eq; apply lookup_insert_eq).
    erewrite bind_Ret by apply Hacq.
    erewrite bind_Ret.
    2: { unfold dirty_list_op. erewrite bind_Ret by (apply load_eq; exact Hl). erewrite bind_Ret by apply gets_eq.
         erewrite bind_Ret by (apply deref_opt_eq; exact Happ). apply modify_eq. }
    erewrite bind_Ret by apply Hrel. reflexivity.
  - split; simpl.
    + exists l'. rewrite lookup_insert_eq. split; [done|]. by rewrite fmap_app.
    + intros p r [Hin|[= -> ->]%list_elem_of_singleton]%elem_of_app; rewrite !insert_insert_eq.
      * rewrite lookup_insert_ne; [by apply Hr|]. intros <-. apply Hr in Hin. congruence.
      * by rewrite lookup_insert_eq.
Qed.

End dirty.
