(* ===== verification/Crc.v ===== *)
(** * CRC-32 ([gpt.c])

    The table-driven checksum of the partition table code is the bitwise
    reflected CRC with the polynomial [0xEDB88320], and it can be continued. *)

From S2P Require Import Prelude.

Definition crc_poly : Z := 0xEDB88320.

(** The body of the inner loop of [crcInit]: [mask = -(crc & 1); crc = (crc >>
    1) ^ (0xEDB88320 & mask)]. *)
Definition crc_step (crc : Z) : Z :=
  let mask := wrap32 (- Z.land crc 1) in
  Z.lxor (Z.shiftr crc 1) (Z.land crc_poly mask).

Definition crc_entry (i : Z) : Z := Nat.iter 8 crc_step i.

(** The table [crctab]. *)
Definition crcInit : list Z := crc_entry <$> seqZ 0 256.

(** [crc], up to the final complement; a [char] is sign-extended, of which only
    the low byte matters. *)
Fixpoint crc_loop (crctab : list Z) (data : list Z) (result : Z) : Z :=
  match data with
  | [] => result
  | b :: data =>
      let i := Z.land (Z.lxor result (signed 8 b)) 0xff in
      crc_loop crctab data (Z.lxor (Z.shiftr result 8) (crctab !!! Z.to_nat i))
  end.

(** [~x] on 32 bits. *)
Definition not32 (x : Z) : Z := wrap32 (Z.lnot x).

Definition crc (data : list Z) (result : Z) : Z := not32 (crc_loop crcInit data result).
Definition crc32_bytes_from_previous (data : list Z) (previousChecksum : Z) : Z :=
  crc data (not32 previousChecksum).
Definition crc32_bytes (data : list Z) : Z := crc data (not32 0).

(** The check value of the algorithm: the CRC of "123456789". *)
Example crc32_check : crc32_bytes (seqZ 0x31 9) = 0xCBF43926.
Proof. vm_compute. reflexivity. Qed.

(** ** Reference: one bit at a time *)

Definition bit_step (c : Z) : Z :=
  if Z.testbit c 0 then Z.lxor (Z.shiftr c 1) crc_poly else Z.shiftr c 1.
Definition byte_step (r b : Z) : Z := Nat.iter 8 bit_step (Z.lxor r b).
Definition crc32_ref (data : list Z) : Z := Z.lxor (foldl byte_step 0xffffffff data) 0xffffffff.

Lemma crc_step_bit c : crc_step c = bit_step c.
Proof.
  unfold crc_step, bit_step. assert (Z.land c 1 = if Z.testbit c 0 then 1 else 0) as ->.
  { change 1 with (Z.ones 1) at 1. rewrite Z.land_ones by lia. change (2 ^ 1) with 2.
    rewrite Zmod_odd, Z.bit0_odd. done. }
  destruct (Z.testbit c 0).
  - f_equal.
  - change (wrap32 (- 0)) with 0. by rewrite Z.land_0_r, Z.lxor_0_r.
Qed.

(** Rearranging exclusive ors is bitwise. *)
Ltac lxor_solve := apply Z.bits_inj'; intros ??; rewrite !Z.lxor_spec;
  repeat match goal with |- context [Z.testbit ?a ?i] => destruct (Z.testbit a i) end; done.

Lemma bit_step_lxor a b : bit_step (Z.lxor a b) = Z.lxor (bit_step a) (bit_step b).
Proof.
  unfold bit_step. rewrite Z.lxor_spec, Z.shiftr_lxor.
  destruct (Z.testbit a 0), (Z.testbit b 0); simpl; lxor_solve.
Qed.

Lemma bit_steps_lxor n a b : Nat.iter n bit_step (Z.lxor a b) = Z.lxor (Nat.iter n bit_step a) (Nat.iter n bit_step b).
Proof. induction n; simpl; [done|]. by rewrite IHn, bit_step_lxor. Qed.

(** Bits that are shifted out as zeros only shift. *)
Lemma bit_steps_shift (n : nat) x : Nat.iter n bit_step (Z.shiftl x (Z.of_nat n)) = x.
Proof.
  revert x. induction n as [|n IH]; intros x; [by rewrite Z.shiftl_0_r|].
  rewrite Nat.iter_succ_r. replace (bit_step (Z.shiftl x (Z.of_nat (S n)))) with (Z.shiftl x (Z.of_nat n)); [done|].
  unfold bit_step. rewrite Z.shiftl_spec_low by lia. rewrite Z.shiftr_shiftl_l by lia. f_equal. lia.
Qed.

(** ** The table computes eight bits at once *)

Lemma iter_crc_step n x : Nat.iter n crc_step x = Nat.iter n bit_step x.
Proof. induction n; simpl; [done|]. by rewrite IHn, crc_step_bit. Qed.

Lemma crctab_lookup i : 0 ≤ i < 256 → crcInit !!! Z.to_nat i = Nat.iter 8 bit_step i.
Proof.
  intros Hi. apply list_lookup_total_correct. unfold crcInit, crc_entry.
  rewrite list_lookup_fmap, lookup_seqZ_lt by lia. cbn [fmap option_fmap option_map].
  f_equal. rewrite iter_crc_step. f_equal. lia.
Qed.

Lemma low_byte_signed b : Z.land (signed 8 b) 0xff = Z.land b 0xff.
Proof.
  change 0xff with (Z.ones 8). rewrite !Z.land_ones by lia. unfold signed.
  change (2 ^ 8) with 256. destruct (b <? _); Z.to_euclidean_division_equations; lia.
Qed.

Lemma table_byte_step r b :
  0 ≤ b < 256 → Z.lxor (Z.shiftr r 8) (crcInit !!! Z.to_nat (Z.land (Z.lxor r (signed 8 b)) 0xff)) = byte_step r b.
Proof.
  intros Hb. set (x := Z.lxor r b).
  assert (Z.land (Z.lxor r (signed 8 b)) 0xff = Z.land x 0xff) as ->.
  { unfold x. rewrite !(Z.land_comm _ 0xff). apply Z.bits_inj'. intros n Hn.
    pose proof (f_equal (λ y, Z.testbit y n) (low_byte_signed b)) as Hl. cbv beta in Hl.
    rewrite !Z.land_spec in *. rewrite !Z.lxor_spec. destruct (Z.testbit 255 n); [|done].
    rewrite !andb_true_r in Hl. simpl. by rewrite Hl. }
  assert (0 ≤ Z.land x 0xff < 256).
  { change 0xff with (Z.ones 8). rewrite Z.land_ones by lia. apply Z.mod_pos_bound. lia. }
  rewrite crctab_lookup by done. unfold byte_step. fold x.
  assert (x = Z.lxor (Z.land x 0xff) (Z.shiftl (Z.shiftr x 8) 8)) as Hx.
  { apply Z.bits_inj'. intros n Hn. rewrite Z.lxor_spec, Z.land_spec. change 0xff with (Z.ones 8).
    rewrite Z.testbit_ones_nonneg by lia. destruct (Z.ltb_spec n 8).
    - rewrite Z.shiftl_spec_low by lia. by rewrite andb_true_r, xorb_false_r.
    - rewrite Z.shiftl_spec_high, Z.shiftr_spec by lia. rewrite andb_false_r. simpl. f_equal. lia. }
  rewrite Hx at 2. rewrite bit_steps_lxor, (bit_steps_shift 8), Z.lxor_comm. f_equal.
  unfold x. rewrite Z.shiftr_lxor, (Z.shiftr_div_pow2 b), (Z.div_small b) by lia. by rewrite Z.lxor_0_r.
Qed.

Lemma crc_loop_eq data r :
  Forall (λ b, 0 ≤ b < 256) data → crc_loop crcInit data r = foldl byte_step r data.
Proof.
  intros Hd. revert r. induction Hd as [|b data Hb _ IH]; intros r; [done|].
  cbn [crc_loop]. rewrite table_byte_step by done. apply IH.
Qed.

(** ** Ranges *)

Lemma u32_bits x : in_u 32 x ↔ ∀ n, 32 ≤ n → Z.testbit x n = false.
Proof.
  split.
  - intros Hx n Hn. rewrite <- (wrap_small 32 x Hx). unfold wrap. apply Z.mod_pow2_bits_high. lia.
  - intros Hb. replace x with (wrap 32 x); [apply wrap_range; lia|]. apply Z.bits_inj'. intros n Hn. unfold wrap.
    destruct (Z.lt_ge_cases n 32); [by rewrite Z.mod_pow2_bits_low|].
    by rewrite Z.mod_pow2_bits_high, Hb by lia.
Qed.

Lemma u32_lxor x y : in_u 32 x → in_u 32 y → in_u 32 (Z.lxor x y).
Proof. rewrite !u32_bits. intros Hx Hy n Hn. by rewrite Z.lxor_spec, Hx, Hy. Qed.

Lemma not32_eq x : in_u 32 x → not32 x = Z.lxor x 0xffffffff.
Proof.
  rewrite u32_bits. intros Hx. unfold not32, wrap. apply Z.bits_inj'. intros n Hn. change 0xffffffff with (Z.ones 32).
  rewrite Z.lxor_spec, Z.testbit_ones_nonneg by lia. destruct (Z.ltb_spec n 32).
  - rewrite Z.mod_pow2_bits_low, Z.lnot_spec by lia. by destruct (Z.testbit x n).
  - rewrite Z.mod_pow2_bits_high, Hx by lia. done.
Qed.

Lemma not32_involutive x : in_u 32 x → not32 (not32 x) = x.
Proof.
  intros Hx. rewrite (not32_eq (not32 x)) by (apply wrap_range; lia).
  rewrite not32_eq by done. rewrite Z.lxor_assoc. by rewrite Z.lxor_0_r.
Qed.

Lemma bit_step_u32 x : in_u 32 x → in_u 32 (bit_step x).
Proof.
  intros Hx. assert (in_u 32 (Z.shiftr x 1)).
  { rewrite Z.shiftr_div_pow2 by lia. unfold in_u in *. Z.to_euclidean_division_equations; lia. }
  unfold bit_step. destruct (Z.testbit x 0); [|done]. apply u32_lxor; [done|]. unfold in_u, crc_poly. lia.
Qed.

Lemma crc_fold_u32 data r :
  Forall (λ b, 0 ≤ b < 256) data → in_u 32 r → in_u 32 (foldl byte_step r data).
Proof.
  intros Hd. revert r. induction Hd as [|b data Hb _ IH]; intros r Hr; [done|]. apply IH. unfold byte_step.
  apply (Nat.iter_invariant 8); [exact bit_step_u32|]. apply u32_lxor; [done|]. unfold in_u. lia.
Qed.

(** [C18] The table-driven checksum of the partition table code is the bitwise
    CRC-32 (reflected polynomial [0xEDB88320], all-ones preset and final
    complement) of the bytes, whatever sign [char] gives them; and continuing
    a checksum with [crc32_bytes_from_previous] is the checksum of the
    concatenation. *)
Theorem crc32_correct data more :
  Forall (λ b, 0 ≤ b < 256) (data ++ more) →
  crc32_bytes data = crc32_ref data ∧
  crc32_bytes_from_previous more (crc32_bytes data) = crc32_ref (data ++ more).
Proof.
  intros [Hd Hm]%Forall_app. unfold crc32_bytes, crc32_bytes_from_previous, crc, crc32_ref.
  change (not32 0) with 0xffffffff.
  assert (in_u 32 0xffffffff) as H1 by (unfold in_u; lia).
  pose proof (crc_fold_u32 data _ Hd H1) as H2.
  rewrite !crc_loop_eq by done. rewrite foldl_app. split; [by apply not32_eq|].
  rewrite not32_involutive by done. apply not32_eq. by apply crc_fold_u32.
Qed.
