(* ===== verification/Partition.v ===== *)
(** * Partition tables ([mbr.c], [gpt.c], part of [partition.c])

    The master boot record and the GUID partition table are read through a file
    descriptor into a buffer and parsed from its bytes.  The array of
    [partition] objects a caller passes is a finite map from the array and the
    index; the kernel allocator and the virtual memory manager are reached
    through [PartEnv]. *)

From S2P Require Import Prelude Bytes DList Vfs Crc.

(** ** State *)

(** [partition.h]; [part_name] holds the characters of the string. *)
Inductive partition_format := PARTITION_FORMAT_MBR | PARTITION_FORMAT_GPT | PARTITION_FORMAT_RAW.
Record partition := mkPartition {
  p_vn : Z; p_drive : Z; p_off : Z; p_size : Z; p_format : partition_format;
  part_uuid : list Z; part_name : list Z
}.
#[export] Instance eta_partition : Etable partition :=
  λ r, mkPartition (p_vn r) (p_drive r) (p_off r) (p_size r) (p_format r) (part_uuid r) (part_name r).

Record pst := mkPst { pv : vst; plist : gmap (Z * Z) partition }.
#[export] Instance eta_pst : Etable pst := λ r, mkPst (pv r) (plist r).

#[global, program] Instance pst_HasMem : HasMem pst :=
  {| mem_of := λ s, vmem (pv s); mem_upd := λ m s, s <| pv ::= λ v, v <| vmem := m |> |> |}.
Solve Obligations with (intros; by repeat match goal with s : pst |- _ => destruct s as [[] ?] end).

(** A routine of the file layer. *)
Definition vfs {A} (m : K vst A) : K pst A := zoom pv (λ v s, s <| pv := v |>) m.

Class PartEnv := {
  kalloc : Z → K vst Z;
  kfree : Z → Z → K vst ();
  vm_alloc : Z → K vst (Z * obos_status);
  vm_free : Z → Z → K vst ();
  part_calloc : Z → K pst Z
}.

Definition set_part (pl i : Z) (f : partition → partition) : K pst () :=
  store plist (λ m s, s <| plist := m |>) (pl, i) f.

(** The little-endian number in [n] bytes. *)
Fixpoint get_le {S} `{HasMem S} (n : nat) (p : Z) : K S Z :=
  match n with
  | O => mret 0
  | Datatypes.S n => b ← getb p; r ← get_le n (p + 1); mret (b + 256 * r)
  end.

(** An out-parameter that may be null, set to [n]. *)
Definition set_out (o : option Z) (n : Z) : option Z := (λ _, n) <$> o.

Section ops.
Context {E : VfsEnv} {P : PartEnv}.

(** [desc->vn->filesize] *)
Definition fd_filesize (desc : Z) : K pst Z :=
  d ← vfs (get_fd desc); v ← vfs (get_vnode (vn d)); mret (filesize v).

(** ** The master boot record *)

Definition SIZEOF_MBR : Z := 512.
Definition MBR_BOOT_SIGNATURE : Z := 0xAA55.

(** The loop over [mbr->parts] from the entry [i] on, [n] entries being left; an
    entry has the address [446 + 16 * i] in the record, its [lba] is at offset 8
    and its [nSectors] at offset 12. *)
Fixpoint mbr_loop (n : nat) (i mbr blkSize filesize dvn pl : Z) (nPartitions : option Z)
  : K pst (obos_status * option Z) :=
  match n with
  | O => mret (OBOS_STATUS_SUCCESS, nPartitions)
  | Datatypes.S n =>
      let curr := mbr + 446 + 16 * i in
      nSectors ← get_le 4 (curr + 12);
      if negb (truthy nSectors) then mret (OBOS_STATUS_SUCCESS, nPartitions) else
      let nPartitions := (λ n, wrap64 (n + 1)) <$> nPartitions in
      lba ← get_le 4 (curr + 8);
      if filesize <? wrap64 (wrap64 (blkSize * lba) + wrap64 (nSectors * blkSize)) then
        mret (OBOS_STATUS_INVALID_ARGUMENT, set_out nPartitions 0)
      else
      when (truthy pl) (
        set_part pl i (λ p, p <| p_vn := dvn |> <| p_off := wrap64 (lba * blkSize) |>
          <| p_size := wrap64 (nSectors * blkSize) |> <| p_drive := dvn |>
          <| p_format := PARTITION_FORMAT_MBR |>));;
      mbr_loop n (i + 1) mbr blkSize filesize dvn pl nPartitions
  end.

(** Every path after a successful read frees the buffer; a file that is too
    short leaves without freeing it. *)
Definition OBOS_IdentifyMBRPartitions (desc pl : Z) (nPartitions : option Z) : K pst (obos_status * option Z) :=
  if negb (truthy desc) || (negb (truthy pl) && bool_decide (nPartitions = None)) then
    mret (OBOS_STATUS_INVALID_ARGUMENT, nPartitions)
  else
  mbr ← vfs (kalloc SIZEOF_MBR);
  filesize ← fd_filesize desc;
  if filesize <? SIZEOF_MBR then mret (OBOS_STATUS_EOF, nPartitions) else
  r ← vfs (Vfs_FdRead desc mbr SIZEOF_MBR (Some 0));
  if obos_is_error r.1 then vfs (kfree mbr SIZEOF_MBR);; mret (r.1, nPartitions) else
  if negb (default 0 r.2 =? SIZEOF_MBR) then
    vfs (kfree mbr SIZEOF_MBR);; mret (OBOS_STATUS_INTERNAL_ERROR, nPartitions)
  else
  signature ← get_le 2 (mbr + 510);
  if negb (signature =? MBR_BOOT_SIGNATURE) then
    vfs (kfree mbr SIZEOF_MBR);; mret (OBOS_STATUS_INVALID_FILE, nPartitions)
  else
  let nPartitions := set_out nPartitions 0 in
  blkSize ← vfs (Vfs_FdGetBlkSz desc);
  d ← vfs (get_fd desc);
  r ← mbr_loop 4 0 mbr blkSize filesize (vn d) pl nPartitions;
  vfs (kfree mbr SIZEOF_MBR);;
  mret r.

(** ** The GUID partition table *)

Definition GPT_SIGNATURE : Z := 0x5452415020494645.
Definition SIZEOF_GPT_HEADER : nat := 92.
Definition SIZEOF_GPT_ENTRY : Z := 128.

(** [gpt_header], the bytes of the packed structure kept beside the fields. *)
Record gpt_header := mkGptHeader {
  h_bytes : list Z; h_signature : Z; h_checksum : Z; alt_lba : Z; part_table_lba : Z;
  part_entry_count : Z; sizeof_partiton_entry : Z; partition_entry_checksum : Z
}.

(** The bytes of [n] addresses. *)
Fixpoint get_bytes {S} `{HasMem S} (n : nat) (p : Z) : K S (list Z) :=
  match n with
  | O => mret []
  | Datatypes.S n => b ← getb p; r ← get_bytes n (p + 1); mret (b :: r)
  end.

(** [*(gpt_header * )buf] *)
Definition read_gpt_header (buf : Z) : K pst gpt_header :=
  b ← get_bytes SIZEOF_GPT_HEADER buf;
  sig ← get_le 8 buf;
  ck ← get_le 4 (buf + 16);
  alt ← get_le 8 (buf + 32);
  tbl ← get_le 8 (buf + 72);
  cnt ← get_le 4 (buf + 80);
  es ← get_le 4 (buf + 84);
  eck ← get_le 4 (buf + 88);
  mret (mkGptHeader b sig ck alt tbl cnt es eck).

(** [crc32_bytes(&hdr, sizeof(hdr))] with the checksum field set to zero. *)
Definition header_checksum (h : gpt_header) : Z :=
  crc32_bytes (take 16 (h_bytes h) ++ [0; 0; 0; 0] ++ drop 20 (h_bytes h)).

(** From the label [retry]: [inl] is an early return, [inr] the header that was
    accepted.  The jump back is taken at most once. *)
Fixpoint gpt_check_header (again : nat) (retried : bool) (desc buf blkSize : Z) (h : gpt_header)
  : K pst (obos_status + gpt_header) :=
  let ours := header_checksum h in
  if retried && negb (ours =? h_checksum h) then
    vfs (vm_free buf blkSize);; mret (inl OBOS_STATUS_INVALID_FILE)
  else if ours =? h_checksum h then mret (inr h) else
  match again with
  | O => stop Hang
  | Datatypes.S again =>
      vfs (Vfs_FdSeek desc (signed 64 (wrap64 (alt_lba h * blkSize))) SEEK_SET);;
      r ← vfs (Vfs_FdRead desc buf blkSize (Some 0));
      if obos_is_error r.1 then vfs (vm_free buf blkSize);; mret (inl r.1) else
      if negb (default 0 r.2 =? blkSize) then
        vfs (vm_free buf blkSize);; mret (inl OBOS_STATUS_INTERNAL_ERROR)
      else
      h ← read_gpt_header buf;
      if negb (h_signature h =? GPT_SIGNATURE) then
        vfs (vm_free buf blkSize);; mret (inl OBOS_STATUS_INVALID_FILE)
      else gpt_check_header again true desc buf blkSize h
  end.

(** The loop that reads the table four sectors at a time; gives the final [i]. *)
Fixpoint gpt_read_table (fuel : nat) (desc buf blkSize nSectors i : Z) : K pst Z :=
  if negb (i <? nSectors) then mret i else
  match fuel with
  | O => stop Hang
  | Datatypes.S fuel =>
      vfs (Vfs_FdRead desc (buf + i * blkSize) (wrap64 (blkSize * 4)) None);;
      gpt_read_table fuel desc buf blkSize nSectors (i + 4)
  end.

(** The inner loop that counts the entries in use from [iter] on: gives [iter]
    and the count. *)
Fixpoint gpt_count (fuel : nat) (iter stop_at es n : Z) : K pst (Z * Z) :=
  if negb (iter <? stop_at) then mret (iter, n) else
  match fuel with
  | O => stop Hang
  | Datatypes.S fuel =>
      unused ← memcmp_b iter 0 16;
      if (unused : bool) then mret (iter, n) else gpt_count fuel (iter + es) stop_at es (n + 1)
  end.

(** The characters of a name; the character is tested before the index. *)
Fixpoint gpt_name (n : nat) (p : Z) (name : list Z) : K pst (list Z) :=
  ch ← get_le 2 p;
  if negb (truthy ch) then mret name else
  match n with
  | O => mret name
  | Datatypes.S n => gpt_name n (p + 2) (name ++ (if truthy (wrap8 ch) then [wrap8 ch] else []))
  end.

(** The loop that fills [partition_list] with [n] entries of [table]. *)
Fixpoint gpt_fill (n : nat) (table partEntry id dvn blkSize pl : Z) : K pst () :=
  match n with
  | O => mret ()
  | Datatypes.S n =>
      let e := table + SIZEOF_GPT_ENTRY * partEntry in
      begin_lba ← get_le 8 (e + 32);
      end_lba ← get_le 8 (e + 40);
      u ← get_bytes 16 (e + 16);
      set_part pl id (λ p, p <| p_vn := dvn |> <| p_off := wrap64 (begin_lba * blkSize) |>
        <| p_size := wrap64 (wrap64 (end_lba - begin_lba) * blkSize) |> <| part_uuid := u |>);;
      name ← gpt_name 36 (e + 56) [];
      set_part pl id (λ p, p <| part_name := name |>);;
      gpt_fill n table (partEntry + 1) (id + 1) dvn blkSize pl
  end.

(** The loop over the sectors of the table, [n] of them being left. *)
Fixpoint gpt_scan (n : nat) (iter buf blkSize tableSize es dvn pl id total : Z) : K pst Z :=
  match n with
  | O => mret total
  | Datatypes.S n =>
      r ← gpt_count (Z.to_nat tableSize) iter (buf + tableSize) es 0;
      let next := r.1 + (blkSize - r.1 mod blkSize) in
      when (truthy pl) (gpt_fill (Z.to_nat r.2) iter 0 id dvn blkSize pl);;
      gpt_scan n next buf blkSize tableSize es dvn pl (if truthy pl then id + r.2 else id) (total + r.2)
  end.

(** The second half of [OBOS_IdentifyGPTPartitions], from the accepted header on. *)
Definition gpt_table (desc pl : Z) (nPartitions : option Z) (allow_checksum_fail : bool)
  (buf blkSize : Z) (h : gpt_header) : K pst (obos_status * option Z) :=
  perSector ← vfs (udiv blkSize (sizeof_partiton_entry h));
  q ← vfs (udiv (part_entry_count h) perSector);
  m ← vfs (umod (part_entry_count h) perSector);
  let nSectors := q + (if truthy m then 1 else 0) in
  vfs (vm_free buf blkSize);;
  b ← vfs (vm_alloc (wrap64 (blkSize * nSectors)));
  let buf := b.1 in
  vfs (Vfs_FdSeek desc (signed 64 (wrap64 (part_table_lba h * blkSize))) SEEK_SET);;
  i ← gpt_read_table (Z.to_nat nSectors) desc buf blkSize nSectors 0;
  when (nSectors <? i) (
    vfs (Vfs_FdRead desc (buf + i * blkSize) (wrap64 (blkSize * (i - nSectors))) None);; mret ());;
  table ← (if allow_checksum_fail then mret [] else get_bytes (Z.to_nat (blkSize * nSectors)) buf);
  if negb allow_checksum_fail && negb (crc32_bytes table =? partition_entry_checksum h) then
    vfs (vm_free buf (wrap64 (blkSize * nSectors)));; mret (OBOS_STATUS_INVALID_FILE, nPartitions)
  else
  d ← vfs (get_fd desc);
  n ← gpt_scan (Z.to_nat nSectors) buf buf blkSize (wrap64 (blkSize * nSectors)) (sizeof_partiton_entry h) (vn d) pl 0 0;
  vfs (vm_free buf (wrap64 (blkSize * nSectors)));;
  mret (OBOS_STATUS_SUCCESS, set_out nPartitions n).

Definition OBOS_IdentifyGPTPartitions (desc pl : Z) (nPartitions : option Z) (allow_checksum_fail : bool)
  : K pst (obos_status * option Z) :=
  if negb (truthy desc) || (negb (truthy pl) && bool_decide (nPartitions = None)) then
    mret (OBOS_STATUS_INVALID_ARGUMENT, nPartitions)
  else
  filesize ← fd_filesize desc;
  if filesize <? SIZEOF_MBR then mret (OBOS_STATUS_EOF, nPartitions) else
  mbr ← vfs (kalloc SIZEOF_MBR);
  r ← vfs (Vfs_FdRead desc mbr SIZEOF_MBR (Some 0));
  if obos_is_error r.1 then mret (r.1, nPartitions) else
  if negb (default 0 r.2 =? SIZEOF_MBR) then mret (OBOS_STATUS_INTERNAL_ERROR, nPartitions) else
  signature ← get_le 2 (mbr + 510);
  if negb (signature =? MBR_BOOT_SIGNATURE) then mret (OBOS_STATUS_INVALID_FILE, nPartitions) else
  vfs (kfree mbr SIZEOF_MBR);;
  blkSize ← vfs (Vfs_FdGetBlkSz desc);
  OBOS_ASSERT (popcount32 blkSize =? 1);;
  b ← vfs (vm_alloc blkSize);
  let buf := b.1 in
  if obos_is_error b.2 then mret (b.2, nPartitions) else
  r ← vfs (Vfs_FdRead desc buf blkSize r.2);
  if obos_is_error r.1 then mret (r.1, nPartitions) else
  if negb (default 0 r.2 =? blkSize) then mret (OBOS_STATUS_INTERNAL_ERROR, nPartitions) else
  h ← read_gpt_header buf;
  if negb (h_signature h =? GPT_SIGNATURE) then
    vfs (vm_free buf blkSize);; mret (OBOS_STATUS_INVALID_FILE, nPartitions)
  else
  c ← (if allow_checksum_fail then mret (inr h) else gpt_check_header 1 false desc buf blkSize h);
  match c with
  | inl status => mret (status, nPartitions)
  | inr h => gpt_table desc pl nPartitions allow_checksum_fail buf blkSize h
  end.

(** ** Choosing the table ([OBOS_PartProbeDrive] up to the label [done]) *)

(** [for (i < nPartitions) partitions[i].format = f] *)
Fixpoint set_formats (n : nat) (i : Z) (pl : Z) (f : partition_format) : K pst () :=
  match n with
  | O => mret ()
  | Datatypes.S n => set_part pl i (λ p, p <| p_format := f |>);; set_formats n (i + 1) pl f
  end.

(** [drv] is the descriptor on the stack, [v] is [ent->vnode].  [inl] is a
    return, [inr] the array and its length at the label [done]. *)
Definition probe_partitions (drv v : Z) (check_checksum : bool) : K pst (obos_status + Z * Z) :=
  status ← vfs (Vfs_FdOpenVnode drv v FD_OFLAGS_UNCACHED);
  if obos_is_error status then mret (inl status) else
  r ← OBOS_IdentifyGPTPartitions drv nullptr (Some 0) (negb check_checksum);
  vfs (Vfs_FdSeek drv 0 SEEK_SET);;
  if obos_is_error r.1 && negb (bool_decide (r.1 = OBOS_STATUS_INVALID_FILE)) then mret (inl r.1) else
  if bool_decide (r.1 = OBOS_STATUS_INVALID_FILE) then
    r ← OBOS_IdentifyMBRPartitions drv nullptr r.2;
    if obos_is_error r.1 && negb (bool_decide (r.1 = OBOS_STATUS_INVALID_FILE)) then mret (inl r.1) else
    if bool_decide (r.1 = OBOS_STATUS_INVALID_FILE) then
      pl ← part_calloc 1;
      set_part pl 0 (λ p, p <| p_drive := v |> <| p_off := 0 |>);;
      vfs (Vfs_FdSeek drv 0 SEEK_END);;
      size ← vfs (Vfs_FdTellOff drv);
      set_part pl 0 (λ p, p <| p_size := size |>);;
      vfs (Vfs_FdSeek drv 0 SEEK_SET);;
      set_part pl 0 (λ p, p <| p_format := PARTITION_FORMAT_RAW |>);;
      mret (inr (pl, 1))
    else
    let n := default 0 r.2 in
    vfs (Vfs_FdSeek drv 0 SEEK_SET);;
    pl ← part_calloc n;
    r ← OBOS_IdentifyMBRPartitions drv pl None;
    if obos_is_error r.1 then mret (inl r.1) else
    set_formats (Z.to_nat n) 0 pl PARTITION_FORMAT_MBR;;
    mret (inr (pl, n))
  else
  let n := default 0 r.2 in
  if negb (truthy n) then mret (inl OBOS_STATUS_SUCCESS) else
  pl ← part_calloc n;
  if negb (truthy pl) then mret (inl OBOS_STATUS_INTERNAL_ERROR) else
  r ← OBOS_IdentifyGPTPartitions drv pl None check_checksum;
  if obos_is_error r.1 then mret (inl r.1) else
  set_formats (Z.to_nat n) 0 pl PARTITION_FORMAT_GPT;;
  mret (inr (pl, n)).

End ops.
