(* ===== verification/PartitionProofs.v ===== *)
(** * Partition tables: correctness

    What the boot record code reports of a disk, and the scan of a GUID
    partition table. *)

From S2P Require Import Prelude Bytes DList Vfs VfsProofs Partition.

(** ** Numbers and entries *)

(** The number the bytes denote, least significant first. *)
Definition le (l : list Z) : Z := foldr (λ b r, b + 256 * r) 0 l.

(** [n] bytes of [l] from [off] on. *)
Definition sub (off n : nat) (l : list Z) : list Z := take n (drop off l).

Lemma sub_bytes m p l off n : bytes_at m p l → bytes_at m (p + Z.of_nat off) (sub off n l).
Proof.
  intros H i b Hi. unfold sub in Hi. rewrite lookup_take in Hi. case_decide; [|done]. rewrite lookup_drop in Hi.
  apply H in Hi. by replace (p + Z.of_nat off + Z.of_nat i) with (p + Z.of_nat (off + i)) by lia.
Qed.

Lemma length_sub off n l : (off + n <= length l)%nat → length (sub off n l) = n.
Proof. intros H. unfold sub. rewrite length_take, length_drop. lia. Qed.

Lemma le_range l : Forall byte l → 0 <= le l < 256 ^ Z.of_nat (length l).
Proof.
  induction 1 as [|b l Hb _ IH]; [done|]. cbn [le foldr length]. fold (le l).
  rewrite Nat2Z.inj_succ, Z.pow_succ_r by lia. unfold byte, in_u in Hb. lia.
Qed.

Lemma sub_byte off n l : Forall byte l → Forall byte (sub off n l).
Proof. intros H. by apply Forall_take, Forall_drop. Qed.

Lemma get_le_list {S} `{HasMem S} l p (s : S) :
  bytes_at (mem_of s) p l → get_le (length l) p s = Ret (le l) s.
Proof.
  revert p. induction l as [|b l IH]; intros p Hl; [done|]. apply bytes_at_cons in Hl as [Hb Hl]. simpl.
  erewrite bind_Ret by (by apply getb_eq). by erewrite bind_Ret by (by apply IH).
Qed.

Lemma get_le_eq {S} `{HasMem S} l q p off n (s : S) :
  bytes_at (mem_of s) q l → (off + n <= length l)%nat → p = q + Z.of_nat off →
  get_le n p s = Ret (le (sub off n l)) s.
Proof.
  intros Hl Hn ->. rewrite <- (length_sub off n l Hn) at 1. apply get_le_list. by apply sub_bytes.
Qed.

Lemma vfs_Ret {A} (m : K vst A) s a v : m (pv s) = Ret a v → vfs m s = Ret a (s <| pv := v |>).
Proof. intros H. unfold vfs, zoom. by rewrite H. Qed.

Lemma vfs_id {A} (m : K vst A) s a : m (pv s) = Ret a (pv s) → vfs m s = Ret a s.
Proof. intros H. rewrite (vfs_Ret _ _ _ _ H). by destruct s. Qed.

(** ** The master boot record *)

(** The entry [i] of the boot record: its first block and its length. *)
Definition mbr_entry (m : list Z) (i : nat) : Z * Z :=
  (le (sub (446 + 16 * i + 8) 4 m), le (sub (446 + 16 * i + 12) 4 m)).

(** The entries before the first empty one. *)
Fixpoint used (l : list (Z * Z)) : list (Z * Z) :=
  match l with
  | [] => []
  | e :: l => if e.2 =? 0 then [] else e :: used l
  end.
Definition mbr_used (m : list Z) : list (Z * Z) := used (mbr_entry m <$> seq 0 4).

(** The entry ends within [size] bytes. *)
Definition fits_in (bs size : Z) (e : Z * Z) : Prop := (e.1 + e.2) * bs <= size.
#[global] Instance fits_in_dec bs size e : Decision (fits_in bs size e).
Proof. unfold fits_in. apply _. Defined.

(** What the entry makes of a [partition] object. *)
Definition mbr_part (bs dvn : Z) (e : Z * Z) (p : partition) : partition :=
  p <| p_vn := dvn |> <| p_off := e.1 * bs |> <| p_size := e.2 * bs |> <| p_drive := dvn |>
    <| p_format := PARTITION_FORMAT_MBR |>.

Lemma used_length l : (length (used l) <= length l)%nat.
Proof. induction l as [|e l IH]; simpl; [lia|]. case_match; simpl; lia. Qed.

Lemma used_elem l e : e ∈ used l → e ∈ l ∧ e.2 ≠ 0.
Proof.
  induction l as [|e' l IH]; simpl; [set_solver|]. destruct (Z.eqb_spec e'.2 0); set_solver.
Qed.

Lemma le_sub_range o n m : Forall byte m → (o + n <= length m)%nat → 0 <= le (sub o n m) < 256 ^ Z.of_nat n.
Proof. intros Hm Ho. pose proof (le_range _ (sub_byte o n m Hm)) as H. by rewrite length_sub in H. Qed.

Lemma used_nonempty m i e : length m = 512%nat → Forall byte m → mbr_used m !! i = Some e → 0 < e.2.
Proof.
  intros Hl Hm Hi. apply list_elem_of_lookup_2, used_elem in Hi as [(j & -> & Hj%elem_of_seq)%list_elem_of_fmap Hne].
  pose proof (le_sub_range (446 + 16 * j + 12) 4 m Hm). simpl in *. lia.
Qed.

Section mbr.
Context {E : VfsEnv} {P : PartEnv}.
Set Default Proof Using "Type".

Lemma mbr_fit_test bs size e :
  0 < bs <= 512 → 0 <= e.1 < 2 ^ 32 → 0 <= e.2 < 2 ^ 32 →
  (size <? wrap64 (wrap64 (bs * e.1) + wrap64 (e.2 * bs))) = negb (bool_decide (fits_in bs size e)) ∧
  wrap64 (e.1 * bs) = e.1 * bs ∧ wrap64 (e.2 * bs) = e.2 * bs.
Proof.
  intros Hbs H1 H2. rewrite !wrap_small by (unfold in_u; repeat rewrite wrap_small by (unfold in_u; nia); nia).
  split; [|done]. replace (bs * e.1 + e.2 * bs) with ((e.1 + e.2) * bs) by lia. unfold fits_in.
  case_bool_decide; [apply Z.ltb_ge|apply Z.ltb_lt]; lia.
Qed.

Lemma mbr_entry_read m q (i : nat) (s : pst) :
  length m = 512%nat → Forall byte m → (i < 4)%nat → bytes_at (vmem (pv s)) q m →
  0 <= (mbr_entry m i).1 < 2 ^ 32 ∧ 0 <= (mbr_entry m i).2 < 2 ^ 32 ∧
  get_le 4 (q + 446 + 16 * Z.of_nat i + 8) s = Ret (mbr_entry m i).1 s ∧
  get_le 4 (q + 446 + 16 * Z.of_nat i + 12) s = Ret (mbr_entry m i).2 s.
Proof.
  intros Hlen Hby Hi Hm.
  repeat split; try (apply (le_sub_range _ 4 m Hby); lia); eapply (get_le_eq m q); try done; lia.
Qed.

(** The loop from the entry [i] on: every entry before the first empty one is
    tested and entered into the array; the first that does not fit ends it. *)
Lemma mbr_loop_eq (m : list Z) bs size dvn pl n q (k i : nat) s :
  length m = 512%nat → Forall byte m → 0 < bs <= 512 → (i + k = 4)%nat → 0 <= n → n + Z.of_nat k < 2 ^ 64 →
  bytes_at (vmem (pv s)) q m → pl ≠ 0 → (∀ j, (j < 4)%nat → is_Some (plist s !! (pl, Z.of_nat j))) →
  let es := used (mbr_entry m <$> seq i k) in
  ∃ r pl', mbr_loop k (Z.of_nat i) q bs size dvn pl (Some n) s = Ret r (s <| plist := pl' |>) ∧
    (Forall (fits_in bs size) es →
       r = (OBOS_STATUS_SUCCESS, Some (n + Z.of_nat (length es))) ∧
       (∀ j e, es !! j = Some e → pl' !! (pl, Z.of_nat (i + j)) = mbr_part bs dvn e <$> plist s !! (pl, Z.of_nat (i + j))) ∧
       (∀ x, (∀ j, (i <= j < i + length es)%nat → x ≠ (pl, Z.of_nat j)) → pl' !! x = plist s !! x)) ∧
    (¬ Forall (fits_in bs size) es → r = (OBOS_STATUS_INVALID_ARGUMENT, Some 0)).
Proof.
  intros Hlen Hby Hbs. revert n i s. induction k as [|k IH]; intros n i s Hi Hn0 Hn Hm Hpl Harr; cbv zeta.
  - exists (OBOS_STATUS_SUCCESS, Some n), (plist s). split; [by destruct s|]. simpl.
    split; [|by intros []]. intros _. split; [by rewrite Z.add_0_r|]. by split; intros.
  - destruct (mbr_entry_read m q i s) as (Hr1 & Hr2 & Hg1 & Hg2); [done|done|lia|done|].
    cbn [mbr_loop seq fmap list_fmap used]. remember (mbr_entry m i) as e eqn:Ee. clear Ee.
    erewrite bind_Ret by exact Hg2. unfold truthy.
    destruct (Z.eqb_spec e.2 0) as [E0|E0]; cbn [negb].
    + exists (OBOS_STATUS_SUCCESS, Some n), (plist s). split; [by destruct s|]. simpl.
      split; [|by intros []]. intros _. split; [by rewrite Z.add_0_r|]. by split; intros.
    + erewrite bind_Ret by exact Hg1.
      destruct (mbr_fit_test bs size e Hbs Hr1 Hr2) as (-> & -> & ->).
      setoid_rewrite Forall_cons. case_bool_decide as Hfit; cbn [negb fmap option_fmap option_map set_out].
      2: { eexists _, (plist s). split; [by destruct s|]. split; [by intros []|done]. }
      rewrite (proj2 (Z.eqb_neq pl 0)) by done. cbn [negb when].
      destruct (Harr i ltac:(lia)) as [p Hp].
      erewrite bind_Ret by (eapply store_eq; exact Hp). rewrite wrap_small by (unfold in_u; lia).
      replace (Z.of_nat i + 1) with (Z.of_nat (S i)) by lia.
      set (s1 := s <| plist := _ |>).
      destruct (IH (n + 1) (S i) s1) as (r & pl' & Er & Hok & Hbad); try done; try lia.
      { intros j Hj. unfold s1. simpl. destruct (decide (j = i)) as [->|Hne]; [rewrite lookup_insert_eq; eauto|].
        rewrite lookup_insert_ne by (injection 1; lia). by apply Harr. }
      exists r, pl'. split; [by rewrite Er|]. split; [|intros H; apply Hbad; tauto].
      intros [_ Hall]. destruct (Hok Hall) as (-> & Hin & Hout). split; [cbn [length]; do 2 f_equal; lia|]. split.
      * intros [|j] e' He'; simpl in He'.
        -- injection He' as <-. rewrite Nat.add_0_r, Hout, Hp by (intros j Hj [= ?]; lia). unfold s1. simpl.
           by rewrite lookup_insert_eq.
        -- replace (i + S j)%nat with (S i + j)%nat by lia. rewrite (Hin _ _ He'). unfold s1. simpl.
           by rewrite lookup_insert_ne by (injection 1; lia).
      * cbn [length]. intros x Hx. rewrite Hout; [|intros j Hj; apply Hx; lia]. unfold s1. simpl.
        rewrite lookup_insert_ne; [done|]. intros <-. by apply (Hx i); [lia|].
Qed.

(** What the code relies on of the allocator: [q] is a new mapped block, and
    freeing changes memory only. *)
Record alloc_env (v : vst) (q : Z) (n : nat) : Prop := {
  ae_alloc : ∃ m, kalloc (Z.of_nat n) v = Ret q (v <| vmem := m |>) ∧ mapped m q n;
  ae_nonnull : q ≠ 0;
  ae_free t : ∃ m, kfree q (Z.of_nat n) t = Ret () (t <| vmem := m |>)
}.

(** A descriptor at the start of a disk of whole blocks. *)
Record at_start (s : vst) (desc : Z) (d : fd) (v : vnode) (drv bs : Z) (disk : list Z) : Prop := {
  as_env : disk_env E drv (vdesc v) bs disk;
  as_disk : on_disk s desc d v drv;
  as_off : offset d = 0;
  as_base : base_offset v = 0;
  as_blk : 512 mod bs = 0;
  as_size : filesize v = Z.of_nat (length disk);
  as_len : 512 <= Z.of_nat (length disk) < 2 ^ 64;
  as_bytes : Forall byte disk
}.

Lemma at_start_bs s desc d v drv bs disk : at_start s desc d v drv bs disk → 0 < bs <= 512 ∧ 512 / bs * bs = 512.
Proof.
  intros [He _ _ _ Hm _ _ _]. pose proof (de_bs _ _ _ _ _ He) as [Hb _].
  pose proof (Z.div_mod 512 bs ltac:(lia)) as Hd. rewrite Hm in Hd. split; [|lia].
  split; [lia|]. apply Z.divide_pos_le; [lia|]. exists (512 / bs). lia.
Qed.

(** Reading the first 512 bytes. *)
Lemma read_boot_record s m desc d v drv bs disk q :
  at_start s desc d v drv bs disk → q ≠ 0 → mapped m q 512 →
  Vfs_FdRead desc q 512 (Some 0) (s <| vmem := m |>) =
    Ret (OBOS_STATUS_SUCCESS, Some 512)
      (s <| vmem := write_bytes m q (take 512 disk) |> <| fds ::= <[desc := d <| offset := 512 |>]> |>).
Proof.
  intros Hst Hq Hm. destruct (at_start_bs _ _ _ _ _ _ _ Hst) as [Hbs H512]. destruct Hst as [He Hod Hoff Hbase Hdiv Hsz Hlen Hby].
  assert (0 < 512 / bs) by (apply Z.div_str_pos; lia).
  rewrite <- H512. erewrite read_disk.
  - rewrite H512. simpl. rewrite Hoff, Hbase. done.
  - exact He.
  - destruct Hod. by split.
  - done.
  - done.
  - lia.
  - by rewrite Hoff.
  - lia.
  - by rewrite Hbase.
  - lia.
  - lia.
  - simpl. by rewrite H512.
Qed.

(** [C23] The boot record code on a disk whose block size divides 512, with an array and
    a count given: without the boot signature it reports [OBOS_STATUS_INVALID_FILE] and
    enters nothing; otherwise it reports the entries before the first empty one, counted
    and entered into the caller's array in order, provided every one of them lies within
    the drive, and refuses the whole table with [OBOS_STATUS_INVALID_ARGUMENT] and the
    count 0 when one of them does not. A partition that is reported ends within the
    drive. *)
Theorem mbr_partitions_bounded s desc d v drv bs disk q pl n0 :
  at_start (pv s) desc d v drv bs disk → alloc_env (pv s) q 512 → pl ≠ 0 →
  (∀ j, (j < 4)%nat → is_Some (plist s !! (pl, Z.of_nat j))) →
  let m := take 512 disk in
  let signed_ok := le (sub 510 2 m) = MBR_BOOT_SIGNATURE in
  let es := mbr_used m in
  ∃ r s', OBOS_IdentifyMBRPartitions desc pl (Some n0) s = Ret r s' ∧
    (¬ signed_ok → r = (OBOS_STATUS_INVALID_FILE, Some n0) ∧ plist s' = plist s) ∧
    (signed_ok → ¬ Forall (fits_in bs (filesize v)) es → r = (OBOS_STATUS_INVALID_ARGUMENT, Some 0)) ∧
    (signed_ok → Forall (fits_in bs (filesize v)) es →
       r = (OBOS_STATUS_SUCCESS, Some (Z.of_nat (length es))) ∧
       (∀ i e, es !! i = Some e → ∃ p, plist s' !! (pl, Z.of_nat i) = Some p ∧
          p_drive p = vn d ∧ p_off p = e.1 * bs ∧ p_size p = e.2 * bs ∧ 0 < p_size p ∧
          p_off p + p_size p <= Z.of_nat (length disk))).
Proof.
  intros Hst [(ma & Halloc & Hma) Hq Hfree] Hpl Harr m signed_ok es.
  destruct (at_start_bs _ _ _ _ _ _ _ Hst) as [Hbs H512]. pose proof Hst as [He Hod Hoff Hbase Hdiv Hsz Hlen Hby].
  pose proof Hod as [Hfd Hnn _ Hv _ _ _].
  assert (length m = 512%nat) as Hlm by (unfold m; rewrite length_take; lia).
  assert (Forall byte m) as Hbm by (by apply Forall_take).
  set (v1 := (pv s) <| vmem := write_bytes ma q m |> <| fds ::= <[desc := d <| offset := 512 |>]> |>).
  assert (bytes_at (vmem v1) q m) as Hat by apply write_bytes_same.
  assert (∀ t, ∃ m', vfs (kfree q SIZEOF_MBR) t = Ret () (t <| pv ::= λ v, v <| vmem := m' |> |>)) as Hfr.
  { intros t. destruct (Hfree (pv t)) as [m' Hm']. exists m'. by apply vfs_Ret. }
  unfold OBOS_IdentifyMBRPartitions. rewrite (proj2 (truthy_true desc)), (proj2 (truthy_true pl)) by done.
  cbn [negb andb orb].
  erewrite bind_Ret by (apply vfs_Ret; exact Halloc).
  unfold fd_filesize, get_fd, get_vnode.
  erewrite bind_Ret.
  2: { erewrite bind_Ret by (apply vfs_id, load_eq; exact Hfd).
       by erewrite bind_Ret by (apply vfs_id, load_eq; exact Hv). }
  assert ((filesize v <? SIZEOF_MBR) = false) as -> by (apply Z.ltb_ge; unfold SIZEOF_MBR; lia).
  erewrite bind_Ret by (apply vfs_Ret; by eapply read_boot_record). cbv beta. cbn [fst snd default].
  change (obos_is_error OBOS_STATUS_SUCCESS) with false. change (negb (id 512 =? SIZEOF_MBR)) with false. cbv iota.
  set (s1 := s <| pv := v1 |>).
  change ((s <| pv := _ |>) <| pv := _ |>) with s1. fold m.
  erewrite bind_Ret by (apply (get_le_eq (S := pst) m q _ 510 2); [exact Hat|lia|done]).
  destruct (Z.eqb_spec (le (sub 510 2 m)) MBR_BOOT_SIGNATURE) as [Hsig|Hsig]; cbn [negb].
  2: { destruct (Hfr s1) as [m' Hm']. eexists _, _. split; [erewrite bind_Ret by exact Hm'; reflexivity|].
       split; [done|]. split; intros; done. }
  assert (on_disk v1 desc (d <| offset := 512 |>) v drv) as Hod1.
  { destruct Hod. split; try done. simpl. by rewrite lookup_insert_eq. }
  erewrite bind_Ret.
  2: { apply vfs_id. unfold Vfs_FdGetBlkSz, get_fd, get_vnode. rewrite (proj2 (truthy_true desc)) by done. cbn [negb].
       erewrite bind_Ret by (apply load_eq, Hod1). erewrite bind_Ret by (apply load_eq; exact Hv).
       erewrite bind_Ret by (eapply driver_of_disk; exact Hod1). apply (de_blk _ _ _ _ _ He). }
  erewrite bind_Ret by (apply vfs_id, load_eq, Hod1).
  destruct (mbr_loop_eq m bs (filesize v) (vn d) pl 0 q 4 0 s1) as (r & pl' & Er & Hok & Hbad);
    try done; try lia.
  erewrite bind_Ret by exact Er. destruct (Hfr (s1 <| plist := pl' |>)) as [m' Hm'].
  eexists _, _. split; [erewrite bind_Ret by exact Hm'; reflexivity|].
  split; [done|]. split; [intros _; exact Hbad|]. intros _ Hfit. destruct (Hok Hfit) as (-> & Hin & _).
  split; [done|]. intros i e Hi. destruct (Harr i) as [p Hp].
  { apply lookup_lt_Some in Hi. pose proof (used_length (mbr_entry m <$> seq 0 4)) as H.
    unfold es, mbr_used in Hi. rewrite length_fmap, length_seq in H. lia. }
  exists (mbr_part bs (vn d) e p). split; [simpl; etrans; [exact (Hin i e Hi)|]; simpl; by rewrite Hp|].
  pose proof (Forall_lookup_1 _ _ _ _ Hfit Hi) as Hf. unfold fits_in in Hf.
  pose proof (used_nonempty m i e Hlm Hbm Hi). simpl. repeat split; nia.
Qed.

End mbr.

(** ** The GUID partition table *)

(** Unused entries have a type of zeros. *)
Definition unused (e : list Z) : Prop := take 16 e = replicate 16 0.
#[global] Instance unused_dec e : Decision (unused e).
Proof. unfold unused. apply _. Defined.

Section gpt.
Context {E : VfsEnv} {P : PartEnv}.
Set Default Proof Using "Type".

(** The bytes of the entry [i] of a table. *)
Definition entry (es : nat) (table : list Z) (i : nat) : list Z := sub (i * es) es table.

Lemma memcmp_entry s buf es table i :
  (16 <= es)%nat → ((i + 1) * es <= length table)%nat → bytes_at (vmem (pv s)) buf table →
  memcmp_b (buf + Z.of_nat (i * es)) 0 16 s = Ret (bool_decide (unused (entry es table i))) s.
Proof.
  intros Hes Hi Hb. assert (take 16 (entry es table i) = sub (i * es) 16 table) as Ht.
  { unfold entry, sub. rewrite take_take. f_equal. lia. }
  pose proof (memcmp_b_eq (S := pst) (sub (i * es) 16 table) (buf + Z.of_nat (i * es)) 0 s) as H.
  rewrite length_sub in H by lia. etrans; [apply H; by apply sub_bytes|]. f_equal. apply bool_decide_ext.
  unfold unused. by rewrite Ht.
Qed.

(** Counting stops at the first unused entry or at the end of the table. *)
Lemma gpt_count_eq s buf es table (n k i : nat) fuel c :
  (16 <= es)%nat → length table = (n * es)%nat → bytes_at (vmem (pv s)) buf table →
  (i + k <= n)%nat → (∀ j, (i <= j < i + k)%nat → ¬ unused (entry es table j)) →
  ((i + k < n)%nat → unused (entry es table (i + k))) → (k < fuel)%nat →
  gpt_count fuel (buf + Z.of_nat (i * es)) (buf + Z.of_nat (n * es)) (Z.of_nat es) c s =
    Ret (buf + Z.of_nat ((i + k) * es), c + Z.of_nat k) s.
Proof.
  intros Hes Hlen Hb. revert i fuel c. induction k as [|k IH]; intros i fuel c Hn Hu Hend Hf;
    (destruct fuel as [|fuel]; [lia|]); cbn [gpt_count].
  - rewrite Nat.add_0_r, Z.add_0_r in *. destruct (decide (i < n)%nat) as [Hi|Hi].
    + assert (i * es + es <= n * es)%nat by nia. rewrite (proj2 (Z.ltb_lt _ _)) by lia. cbn [negb].
      erewrite bind_Ret by (apply memcmp_entry; [done|rewrite Hlen; nia|done]). by rewrite bool_decide_eq_true_2 by auto.
    + replace i with n by lia. by rewrite Z.ltb_irrefl.
  - assert (i * es + es <= n * es)%nat by nia. rewrite (proj2 (Z.ltb_lt _ _)) by lia. cbn [negb].
    erewrite bind_Ret by (apply memcmp_entry; [done|rewrite Hlen; nia|done]). rewrite bool_decide_eq_false_2 by (apply Hu; lia).
    replace (buf + Z.of_nat (i * es) + Z.of_nat es) with (buf + Z.of_nat (S i * es)) by lia.
    rewrite IH; [do 2 f_equal; [do 3 f_equal; lia|lia]|lia| | |lia].
    + intros j Hj. apply Hu. lia.
    + intros Hlt. replace (S i + k)%nat with (i + S k)%nat by lia. apply Hend. lia.
Qed.

(** The sectors behind the used entries add nothing. *)
Lemma gpt_scan_rest s buf bs es size dvn total n j :
  0 < bs → buf mod bs = 0 → 0 < size →
  (∀ j', 0 <= j' → buf + (j + j') * bs < buf + size →
     bytes_at (vmem (pv s)) (buf + (j + j') * bs) (replicate 16 0)) →
  gpt_scan n (buf + j * bs) buf bs size es dvn 0 0 total s = Ret total s.
Proof.
  intros Hbs Hal Hsz. revert j. induction n as [|n IH]; intros j Hz; [done|]. cbn [gpt_scan].
  erewrite (bind_Ret _ _ _ (buf + j * bs, 0)).
  2: { destruct (Z.to_nat size) as [|f] eqn:Ef; [lia|]. cbn [gpt_count].
       destruct (Z.ltb_spec (buf + j * bs) (buf + size)) as [Hlt|]; cbn [negb]; [|done].
       pose proof (Hz 0 ltac:(lia)) as H0. rewrite Z.add_0_r in H0.
       erewrite bind_Ret by (apply (memcmp_b_eq (S := pst) (replicate 16 0)); by apply H0). done. }
  cbn [fst snd]. erewrite bind_Ret by reflexivity. change (truthy 0) with false. cbv iota.
  rewrite Z.add_0_r. rewrite Z.mod_add, Hal, Z.sub_0_r by lia.
  replace (buf + j * bs + bs) with (buf + (j + 1) * bs) by lia. apply IH.
  intros j' Hj'. replace (j + 1 + j') with (j + (j' + 1)) by lia. apply Hz. lia.
Qed.

(** In a partition table whose entries in use come first, the scan counts
    exactly these: the first sector's round walks over all of them, also those
    in later sectors, and the rounds for the other sectors find nothing more. *)
Theorem gpt_count_prefix s buf (es per nSectors k : nat) table dvn :
  (16 <= es)%nat → (0 < per)%nat → let bs := Z.of_nat (per * es) in
  buf mod bs = 0 → length table = (nSectors * (per * es))%nat → bytes_at (vmem (pv s)) buf table →
  (0 < nSectors)%nat → (k <= nSectors * per)%nat →
  (∀ i, (i < k)%nat → ¬ unused (entry es table i)) →
  (∀ i, (k <= i < nSectors * per)%nat → unused (entry es table i)) →
  gpt_scan nSectors buf buf bs (bs * Z.of_nat nSectors) (Z.of_nat es) dvn 0 0 0 s = Ret (Z.of_nat k) s.
Proof.
  intros Hes Hper bs Hal Hlen Hb Hns Hk Hused Hun. destruct nSectors as [|m]; [lia|].
  assert (bs * Z.of_nat (S m) = Z.of_nat (S m * per * es)) as -> by (unfold bs; lia).
  assert (0 < bs) as Hbs by (unfold bs; nia).
  cbn [gpt_scan]. replace buf with (buf + Z.of_nat (0 * es)) at 1 by lia.
  erewrite bind_Ret by (eapply (gpt_count_eq _ _ _ table _ k 0); try done; [lia|intros; apply Hused; lia|
    intros; apply Hun; lia|nia]).
  cbn [fst snd]. erewrite bind_Ret by reflexivity. change (truthy 0) with false. cbv iota.
  rewrite !Z.add_0_l, Nat.add_0_l.
  set (j := Z.of_nat (k * es) / bs + 1).
  replace (buf + Z.of_nat (k * es) + (bs - (buf + Z.of_nat (k * es)) mod bs)) with (buf + j * bs).
  2: { rewrite Zplus_mod, Hal, Z.add_0_l, Zmod_mod. pose proof (Z.div_mod (Z.of_nat (k * es)) bs ltac:(lia)). unfold j. lia. }
  apply gpt_scan_rest; try done; [nia|]. intros j' Hj' Hlt.
  pose proof (Z.div_pos (Z.of_nat (k * es)) bs ltac:(lia) ltac:(lia)) as Hd0.
  pose proof (Z.div_mod (Z.of_nat (k * es)) bs ltac:(lia)) as Hdm.
  pose proof (Z.mod_pos_bound (Z.of_nat (k * es)) bs ltac:(lia)) as Hmb.
  set (t := Z.to_nat (j + j')). assert (j + j' = Z.of_nat t) as Et by (unfold t, j; lia).
  rewrite Et in *. assert (k <= t * per < S m * per)%nat as Hr.
  { unfold j in Et. split; unfold bs in *; nia. }
  replace (Z.of_nat t * bs) with (Z.of_nat (t * per * es)) by (unfold bs; lia).
  rewrite <- (Hun _ Hr). unfold entry, sub. rewrite take_take. replace (16 `min` es)%nat with 16%nat by lia.
  exact (sub_bytes _ _ _ _ 16 Hb).
Qed.

End gpt.
