(* ===== verification/Initrd.v ===== *)
(** * The initial ramdisk driver ([drivers/generic/initrd])

    Looking up and reading files of a USTAR archive in memory.  A device
    descriptor is the address of a file's header.  The hash table that caches
    headers is reached through [Hashmap]; as its documentation says, it keeps
    copies of the items. *)

From S2P Require Import Prelude Bytes Libc.

(** ** State

    [cache] and [names] are the two tables' pointers; [hm] is what the cache
    contains: the address of its copy for a file name. *)
Record ist := mkIst { imem : bmem; OBOS_InitrdBinary : Z; cache : Z; names : Z; hm : gmap (list Z) Z }.
#[export] Instance eta_ist : Etable ist :=
  λ r, mkIst (imem r) (OBOS_InitrdBinary r) (cache r) (names r) (hm r).

#[global, program] Instance ist_HasMem : HasMem ist :=
  {| mem_of := imem; mem_upd := λ m s, s <| imem := m |> |}.
Solve Obligations with (intros; by repeat match goal with s : ist |- _ => destruct s end).

(** [hashmap_get], [hashmap_set] and [hashmap_free] on [cache]; a table with
    the driver's [malloc], [realloc] and [free]; a name entered into [names]. *)
Class Hashmap := {
  hashmap_new : K ist Z;
  hashmap_get : Z → K ist Z;
  hashmap_set : Z → K ist ();
  hashmap_free : Z → K ist ();
  names_set : Z → K ist ();
  imalloc : Z → K ist Z
}.

(** ** Header fields ([ustar_hdr.h]): offsets in the packed structure *)
Definition SIZEOF_USTAR_HDR : nat := 500.
Definition o_filename : Z := 0.
Definition o_filemode : Z := 100.
Definition o_filesize : Z := 124.
Definition o_type : Z := 156.
Definition o_linked : Z := 157.
Definition o_magic : Z := 257.
Definition AREGTYPE : Z := 0.
Definition REGTYPE : Z := 48.
Definition LNKTYPE : Z := 49.
Definition SYMTYPE : Z := 50.
Definition DIRTYPE : Z := 53.
(** ["ustar\0"] *)
Definition USTAR_MAGIC : list Z := [117; 115; 116; 97; 114; 0].

Inductive file_type := FILE_TYPE_DIRECTORY | FILE_TYPE_REGULAR_FILE | FILE_TYPE_SYMBOLIC_LINK.
Record driver_file_perm := mkDPerm {
  d_other_exec : bool; d_other_write : bool; d_other_read : bool;
  d_group_exec : bool; d_group_write : bool; d_group_read : bool;
  d_owner_exec : bool; d_owner_write : bool; d_owner_read : bool
}.

Section ops.
Context {U : UacpiLibc ist} {H : Hashmap}.

(** [parse.h] *)
Fixpoint oct2bin_loop (n : nat) (c ret : Z) : K ist Z :=
  match n with
  | O => mret ret
  | S n => x ← getb c; oct2bin_loop n (c + 1) (wrap64 (ret * 8 + (signed 8 x - 48)))
  end.
Definition oct2bin (str size : Z) : K ist Z := oct2bin_loop (Z.to_nat size) str 0.

(** [oct2bin(hdr->filesize, uacpi_strnlen(hdr->filesize, 12))] *)
Definition hdr_filesize (hdr : Z) : K ist Z :=
  n ← uacpi_strnlen (hdr + o_filesize) 12; oct2bin (hdr + o_filesize) n.

(** The header behind that of a file of [filesize] bytes: [(filesize + 0x1ff) &
    ~0x1ff] rounds up to blocks. *)
Definition round512 (filesize : Z) : Z := Z.land (wrap64 (filesize + 0x1ff)) (wrap64 (Z.lnot 0x1ff)).
Definition next_hdr (hdr filesize : Z) : Z := wrap64 (hdr + round512 filesize + 512).

(** [memcmp(hdr->magic, USTAR_MAGIC, 6)], the literal being at [magic]. *)
Definition is_hdr (magic hdr : Z) : K ist bool := memcmp (hdr + o_magic) magic 6.

(** The loop of [GetFile] from [hdr] on.  Headers are at different addresses as
    long as sizes do not wrap around, so there are fewer than mapped bytes. *)
Fixpoint getfile_loop (fuel : nat) (magic path path_slash pathlen hdr : Z) : K ist Z :=
  more ← is_hdr magic hdr;
  if negb more then mret nullptr else
  c1 ← uacpi_strncmp path_slash (hdr + o_filename) pathlen;
  found ← (if c1 =? 0 then mret true else
             c2 ← uacpi_strncmp path (hdr + o_filename) pathlen; mret (c2 =? 0));
  if (found : bool) then hashmap_set hdr;; mret hdr else
  filesize ← hdr_filesize hdr;
  match fuel with
  | O => stop Hang
  | S fuel => getfile_loop fuel magic path path_slash pathlen (next_hdr hdr filesize)
  end.

(** The second half of [GetFile], for a path that is not in the cache: [path_slash]
    is the address of the local array. *)
Definition getfile_search (magic path_slash path bin : Z) : K ist (Z * obos_status) :=
  pathlen ← uacpi_strnlen path 100;
  memcpy path_slash path pathlen;;
  last ← getb (path_slash + (pathlen - 1));
  pathlen ← (if negb (last =? 47) then
               putb (path_slash + pathlen) 47;; putb (path_slash + (pathlen + 1)) 0;; mret (pathlen + 1)
             else mret pathlen);
  m ← gets imem;
  hdr ← getfile_loop (size m) magic path path_slash pathlen bin;
  mret (hdr, OBOS_STATUS_SUCCESS).

(** [what] and [path_slash] are the addresses of the local variables.  A file
    that is not found leaves the status at success. *)
Definition GetFile (magic what path_slash path : Z) : K ist (Z * obos_status) :=
  bin ← gets OBOS_InitrdBinary;
  if negb (truthy bin) then mret (nullptr, OBOS_STATUS_NOT_FOUND) else
  n ← strlen path;
  if 100 <? n then mret (nullptr, OBOS_STATUS_INVALID_ARGUMENT) else
  c ← gets cache;
  when (negb (truthy c)) (t ← hashmap_new; modify (λ s, s <| cache := t |>));;
  memzero what (Z.of_nat SIZEOF_USTAR_HDR);;
  n ← uacpi_strnlen path 100;
  memcpy (what + o_filename) path n;;
  hdr ← hashmap_get what;
  if truthy hdr then mret (hdr, OBOS_STATUS_SUCCESS) else
  getfile_search magic path_slash path bin.

Definition FreeCache : K ist () := c ← gets cache; hashmap_free c.

(** ** The driver's functions ([main.c])

    An out-parameter is passed as the value it points to, [None] for null. *)

Definition get_blk_size (desc : Z) (blkSize : option Z) : K ist (obos_status * option Z) :=
  match blkSize with
  | None => mret (OBOS_STATUS_INVALID_ARGUMENT, None)
  | Some _ => mret (OBOS_STATUS_SUCCESS, Some 1)
  end.

(** The archive is read only. *)
Definition write_sync (desc buf blkCount blkOffset : Z) (nBlkWritten : option Z) : K ist obos_status :=
  mret OBOS_STATUS_READ_ONLY.
Definition move_desc_to (desc where' : Z) : K ist obos_status := mret OBOS_STATUS_READ_ONLY.
Definition mk_file (newDesc parent vn name type : Z) : K ist obos_status := mret OBOS_STATUS_READ_ONLY.
Definition remove_file (desc : Z) : K ist obos_status := mret OBOS_STATUS_READ_ONLY.
Definition set_file_perms (desc : Z) (newperm : driver_file_perm) : K ist obos_status := mret OBOS_STATUS_READ_ONLY.

Definition driver_cleanup_callback : K ist () :=
  FreeCache;;
  n ← gets names;
  when (truthy n) (hashmap_free n).

Definition is_regular (t : Z) : bool := (t =? AREGTYPE) || (t =? REGTYPE).

Definition get_max_blk_count (desc : Z) (count : option Z) : K ist (obos_status * option Z) :=
  if negb (truthy desc) || bool_decide (count = None) then mret (OBOS_STATUS_INVALID_ARGUMENT, count) else
  t ← getb (desc + o_type);
  if negb (is_regular t) then mret (OBOS_STATUS_NOT_A_FILE, count) else
  n ← hdr_filesize desc;
  mret (OBOS_STATUS_SUCCESS, Some n).

(** At the end of the file the count is stored through the pointer without a
    test; otherwise it is not stored. *)
Definition read_sync (desc buf blkCount blkOffset : Z) (nBlkRead : option Z) : K ist (obos_status * option Z) :=
  if negb (truthy desc) || negb (truthy buf) then mret (OBOS_STATUS_INVALID_ARGUMENT, nBlkRead) else
  if negb (truthy blkCount) then mret (OBOS_STATUS_SUCCESS, nBlkRead) else
  t ← getb (desc + o_type);
  if negb (is_regular t) then mret (OBOS_STATUS_NOT_A_FILE, nBlkRead) else
  filesize ← hdr_filesize desc;
  if filesize <=? blkOffset then
    match nBlkRead with
    | None => stop BadDeref
    | Some _ => mret (OBOS_STATUS_SUCCESS, Some 0)
    end
  else
  let nToRead := if filesize <=? wrap64 (blkOffset + blkCount) then filesize - blkOffset else blkCount in
  memcpy buf (desc + 0x200 + blkOffset) nToRead;;
  mret (OBOS_STATUS_SUCCESS, nBlkRead).

Definition query_path (desc : Z) (path : option Z) : K ist (obos_status * option Z) :=
  if negb (truthy desc) || bool_decide (path = None) then mret (OBOS_STATUS_INVALID_ARGUMENT, path) else
  n ← uacpi_strnlen (desc + o_filename) 100;
  if n =? 100 then
    t ← gets names;
    when (negb (truthy t)) (t ← hashmap_new; modify (λ s, s <| names := t |>));;
    filepath ← imalloc 101;
    putb (filepath + 100) 0;;
    memcpy filepath (desc + o_filename) 100;;
    names_set filepath;;
    mret (OBOS_STATUS_SUCCESS, Some filepath)
  else mret (OBOS_STATUS_SUCCESS, Some (desc + o_filename)).

(** The status of the lookup is not looked at. *)
Definition get_linked_desc (magic what path_slash desc : Z) (found : option Z) : K ist (obos_status * option Z) :=
  if negb (truthy desc) || bool_decide (found = None) then mret (OBOS_STATUS_INVALID_ARGUMENT, found) else
  t ← getb (desc + o_type);
  if negb (t =? LNKTYPE) && negb (t =? SYMTYPE) then mret (OBOS_STATUS_INVALID_ARGUMENT, found) else
  r ← GetFile magic what path_slash (desc + o_linked);
  mret (OBOS_STATUS_SUCCESS, Some r.1).

Definition path_search (magic what_hdr path_slash : Z) (found : option Z) (what : Z) : K ist (obos_status * option Z) :=
  if bool_decide (found = None) || negb (truthy what) then mret (OBOS_STATUS_INVALID_ARGUMENT, found) else
  r ← GetFile magic what_hdr path_slash what;
  mret (r.2, Some r.1).

Definition get_file_perms (desc : Z) (perm : option driver_file_perm) : K ist (obos_status * option driver_file_perm) :=
  if negb (truthy desc) || negb (bool_decide (is_Some perm)) then mret (OBOS_STATUS_INVALID_ARGUMENT, perm) else
  n ← uacpi_strnlen (desc + o_filemode) 8;
  f ← oct2bin (desc + o_filemode) n;
  let filemode := wrap16 f in
  mret (OBOS_STATUS_SUCCESS, Some (mkDPerm
    (has_flag filemode 1) false (has_flag filemode 4)
    (has_flag filemode 8) false (has_flag filemode 32)
    (has_flag filemode 64) false (has_flag filemode 256))).

Definition get_file_type (desc : Z) (type : option file_type) : K ist (obos_status * option file_type) :=
  if negb (truthy desc) || negb (bool_decide (is_Some type)) then mret (OBOS_STATUS_INVALID_ARGUMENT, type) else
  t ← getb (desc + o_type);
  if (t =? AREGTYPE) || (t =? REGTYPE) then mret (OBOS_STATUS_SUCCESS, Some FILE_TYPE_REGULAR_FILE)
  else if t =? DIRTYPE then mret (OBOS_STATUS_SUCCESS, Some FILE_TYPE_DIRECTORY)
  else if (t =? LNKTYPE) || (t =? SYMTYPE) then mret (OBOS_STATUS_SUCCESS, Some FILE_TYPE_SYMBOLIC_LINK)
  else mret (OBOS_STATUS_INTERNAL_ERROR, type).

(** The loop of [list_dir]; the decision [cb] returns is not looked at. *)
Fixpoint list_dir_loop (fuel : nat) (magic dir_filename dirnamelen real_dirnamelen : Z) (cb : Z → Z → Z → K ist ())
  (hdr : Z) : K ist () :=
  more ← is_hdr magic hdr;
  if negb more then mret () else
  filesize ← hdr_filesize hdr;
  filename_len ← uacpi_strnlen (hdr + o_filename) 100;
  inside ← (if negb (truthy dirnamelen) then mret true else
              c ← uacpi_strncmp dir_filename (hdr + o_filename) dirnamelen;
              mret ((c =? 0) && negb (real_dirnamelen =? filename_len)));
  when inside (
    p ← strchr (hdr + o_filename + real_dirnamelen) 47;
    when (p =? wrap64 (filename_len - real_dirnamelen)) (cb hdr 1 filesize));;
  match fuel with
  | O => stop Hang
  | S fuel => list_dir_loop fuel magic dir_filename dirnamelen real_dirnamelen cb (next_hdr hdr filesize)
  end.

(** [empty] is the literal "". *)
Definition list_dir (magic empty dir : Z) (cb : option (Z → Z → Z → K ist ())) : K ist obos_status :=
  match cb with
  | None => mret OBOS_STATUS_INVALID_ARGUMENT
  | Some cb =>
      if negb (truthy dir) then mret OBOS_STATUS_INVALID_ARGUMENT else
      let root := dir =? 2 ^ 64 - 1 in
      t ← (if root then mret DIRTYPE else getb (dir + o_type));
      if negb (t =? DIRTYPE) then mret OBOS_STATUS_INVALID_ARGUMENT else
      n ← (if root then mret 0 else uacpi_strnlen (dir + o_filename) 100);
      if n =? 100 then mret OBOS_STATUS_INTERNAL_ERROR else
      let dir_filename := if root then empty else dir + o_filename in
      real_dirnamelen ← uacpi_strnlen dir_filename 100;
      last ← getb (dir_filename + (real_dirnamelen - 1));
      let dirnamelen := if last =? 47 then wrap64 (real_dirnamelen - 1) else real_dirnamelen in
      bin ← gets OBOS_InitrdBinary;
      m ← gets imem;
      list_dir_loop (size m) magic dir_filename dirnamelen real_dirnamelen cb bin;;
      mret OBOS_STATUS_SUCCESS
  end.

End ops.
