(* ===== verification/InitrdProofs.v ===== *)
(** * The initial ramdisk driver: correctness

    Lookup finds the first file of the archive that the path names, reading
    gives the contents of a file; and what the cache hands out is a copy. *)

From S2P Require Import Prelude Bytes Libc Initrd.

(** ** Archives *)

(** The characters of a field before its null character. *)
Fixpoint text (l : list Z) : list Z :=
  match l with
  | [] => []
  | b :: l => if b =? 0 then [] else b :: text l
  end.

Definition field (off n : nat) (h : list Z) : list Z := take n (drop off h).

(** The number a list of octal digits denotes. *)
Definition oct_value (l : list Z) : Z := foldl (λ v c, wrap64 (v * 8 + (signed 8 c - 48))) 0 l.

Definition name_of (h : list Z) : list Z := text (field 0 100 h).
Definition size_of (h : list Z) : Z := oct_value (text (field 124 12 h)).

(** The archive at [p] has the files [fs], each with the address and the bytes
    of its header; it ends at the first block without the magic, and
    it does not run over the end of the address space. *)
Inductive archive (m : bmem) : Z → list (Z * list Z) → Prop :=
| archive_end p mg : bytes_at m (p + o_magic) mg → length mg = 6%nat → mg ≠ USTAR_MAGIC → archive m p []
| archive_file p h fs :
    bytes_at m p h → length h = SIZEOF_USTAR_HDR → field 257 6 h = USTAR_MAGIC →
    p < next_hdr p (size_of h) → archive m (next_hdr p (size_of h)) fs → archive m p ((p, h) :: fs).

(** The path with a slash at its end. *)
Definition slashed (path : list Z) : list Z :=
  if decide (last path = Some 47) then path else path ++ [47].

(** The file is the one named, or is in the directory named. *)
Definition matches (path name : list Z) : Prop := slashed path `prefix_of` name ∨ name = path.
#[global] Instance matches_dec path name : Decision (matches path name).
Proof. unfold matches. apply _. Defined.

Fixpoint lookup_file (path : list Z) (fs : list (Z * list Z)) : option (Z * list Z) :=
  match fs with
  | [] => None
  | f :: fs => if decide (matches path (name_of f.2)) then Some f else lookup_file path fs
  end.

Lemma text_nonzero l : 0 ∉ text l.
Proof. induction l as [|b l IH]; simpl; [set_solver|]. destruct (Z.eqb_spec b 0); set_solver. Qed.

Lemma text_length l : (length (text l) <= length l)%nat.
Proof. induction l as [|b l IH]; simpl; [lia|]. destruct (b =? 0); simpl; lia. Qed.

(** A field holds its text. *)
Lemma text_ncstr m p l : bytes_at m p l → ncstr_at m p (length l) (text l).
Proof.
  intros Hb. split; [|apply text_nonzero|]; revert p Hb; induction l as [|b l IH]; intros p Hb; simpl.
  - apply bytes_at_nil.
  - apply bytes_at_cons in Hb as [H0 Hb]. destruct (b =? 0); [apply bytes_at_nil|]. apply bytes_at_cons. auto.
  - by left.
  - apply bytes_at_cons in Hb as [H0 Hb]. destruct (Z.eqb_spec b 0) as [->|Hne]; simpl.
    + right. rewrite Z.add_0_r. split; [lia|done].
    + destruct (IH _ Hb) as [E|[E Hz]]; [left; lia|right; split; [lia|]].
      by replace (p + Z.of_nat (S (length (text l)))) with (p + 1 + Z.of_nat (length (text l))) by lia.
Qed.

(** A shorter limit cuts the text. *)
Lemma ncstr_take m p n k l : ncstr_at m p n l → (k <= n)%nat → ncstr_at m p k (take k l).
Proof.
  intros [Hb H0 He] Hk. split.
  - intros i b Hi. rewrite lookup_take in Hi. case_decide; [|done]. by apply Hb.
  - intros Hin. apply H0. rewrite <- (take_drop k l). set_solver.
  - rewrite length_take. destruct (decide (k <= length l)%nat); [left; lia|]. right.
    destruct He as [He|[He Hz]]; [lia|]. replace (k `min` length l)%nat with (length l) by lia. split; [lia|done].
Qed.

Lemma field_at m p h off n : bytes_at m p h → bytes_at m (p + Z.of_nat off) (field off n h).
Proof.
  intros Hb i b Hi. unfold field in Hi. rewrite lookup_take in Hi. case_decide; [|done]. rewrite lookup_drop in Hi.
  apply Hb in Hi. by replace (p + Z.of_nat off + Z.of_nat i) with (p + Z.of_nat (off + i)) by lia.
Qed.

Lemma field_length h off n : (off + n <= length h)%nat → length (field off n h) = n.
Proof. intros Hl. unfold field. rewrite length_take, length_drop. lia. Qed.

Lemma field_text m p h off n :
  bytes_at m p h → (off + n <= length h)%nat → ncstr_at m (p + Z.of_nat off) n (text (field off n h)).
Proof.
  intros Hb Hl. pose proof (text_ncstr _ _ _ (field_at m p h off n Hb)) as Ht. by rewrite field_length in Ht.
Qed.

(** Comparing the first characters of a path with a name. *)
Lemma slashed_prefix path name : slashed path = take (length (slashed path)) name ↔ slashed path `prefix_of` name.
Proof.
  split.
  - intros ->. exists (drop (length (slashed path)) name). by rewrite take_drop.
  - intros [k ->]. by rewrite take_app_length.
Qed.

Lemma path_equal path name :
  take (length (slashed path)) path = take (length (slashed path)) name → matches path name.
Proof.
  unfold matches, slashed. destruct (decide (last path = Some 47)).
  - rewrite firstn_all. intros E. left. exists (drop (length path) name). rewrite E at 1. by rewrite take_drop.
  - rewrite length_app. simpl. rewrite take_ge by lia. intros E. right.
    assert (length name <= length path)%nat by (apply (f_equal length) in E; rewrite length_take in E; lia).
    rewrite take_ge in E by lia. done.
Qed.

Lemma bytes_at_mono m m' p l : m ⊆ m' → bytes_at m p l → bytes_at m' p l.
Proof. intros Hs Hb i b Hi. eapply lookup_weaken; eauto. Qed.

Lemma archive_mono m m' p fs : m ⊆ m' → archive m p fs → archive m' p fs.
Proof.
  intros Hs Ha. induction Ha; econstructor; eauto using bytes_at_mono.
Qed.

Lemma archive_addrs m p fs :
  archive m p fs → NoDup fs.*1 ∧ ∀ a, a ∈ fs.*1 → p <= a ∧ is_Some (m !! a).
Proof.
  induction 1 as [|p h fs Hb Hl Hmag Hlt Har [IH1 IH2]]; simpl; [split; [apply NoDup_nil_2|set_solver]|]. split.
  - apply NoDup_cons_2; [|done]. intros Hin. apply IH2 in Hin. lia.
  - intros a [->|Hin]%elem_of_cons; [|destruct (IH2 _ Hin); split; [lia|done]]. split; [lia|].
    apply bytes_at_mapped in Hb. apply (mapped_at _ _ _ _ Hb). rewrite Hl. unfold SIZEOF_USTAR_HDR. lia.
Qed.

(** There are no more files than mapped bytes. *)
Lemma archive_size m p fs : archive m p fs → (length fs <= size m)%nat.
Proof.
  intros [Hnd Hin]%archive_addrs. rewrite <- (length_fmap fst fs), <- (size_list_to_set (C := gset Z)) by done.
  rewrite <- (size_dom (D := gset Z)). apply subseteq_size. intros a Ha%elem_of_list_to_set. apply elem_of_dom.
  by apply Hin.
Qed.

Lemma write_bytes_last m p l :
  (0 < length l)%nat → write_bytes m p l !! (p + (Z.of_nat (length l) - 1)) = Some (default 0 (last l)).
Proof.
  intros Hl. rewrite last_lookup. destruct (lookup_lt_is_Some_2 l (pred (length l))) as [b Hb]; [lia|]. rewrite Hb.
  replace (Z.of_nat (length l) - 1) with (Z.of_nat (pred (length l))) by lia. by apply write_bytes_same.
Qed.

Lemma lookup_file_addr m p fs w f : archive m p fs → lookup_file w fs = Some f → is_Some (m !! f.1).
Proof.
  intros [_ Hin]%archive_addrs Hf. apply Hin. clear Hin. induction fs as [|g fs IH]; simpl in *; [done|].
  case_decide; [injection Hf as <-|]; set_solver.
Qed.

Section lookup.
Context {U : UacpiLibc ist} {US : UacpiLibcSpec ist} {HMap : Hashmap}.
Set Default Proof Using "All".

(** What the code relies on of the hash table: a lookup of a header finds the
    copy entered for its name and changes nothing; entering a header copies it
    to memory of the table's own. *)
Record hashmap_ok : Prop := {
  hk_new s : ∃ t s', hashmap_new s = Ret t s' ∧ t ≠ 0 ∧ hm s' = ∅ ∧ imem s ⊆ imem s' ∧
    OBOS_InitrdBinary s' = OBOS_InitrdBinary s;
  hk_get s p h : bytes_at (imem s) p h → length h = SIZEOF_USTAR_HDR →
    hashmap_get p s = Ret (default nullptr (hm s !! name_of h)) s;
  hk_set s p h : bytes_at (imem s) p h → length h = SIZEOF_USTAR_HDR →
    ∃ q s', hashmap_set p s = Ret () s' ∧ q ≠ 0 ∧ hm s' !! name_of h = Some q ∧ bytes_at (imem s') q h ∧
      imem s !! q = None ∧ (∀ a, is_Some (imem s !! a) → imem s' !! a = imem s !! a) ∧
      OBOS_InitrdBinary s' = OBOS_InitrdBinary s ∧ cache s' = cache s
}.

Lemma oct2bin_loop_eq l c v s :
  bytes_at (imem s) c l →
  oct2bin_loop (length l) c v s = Ret (foldl (λ v c, wrap64 (v * 8 + (signed 8 c - 48))) v l) s.
Proof.
  revert c v. induction l as [|b l IH]; intros c v Hb; [done|]. apply bytes_at_cons in Hb as [H0 Hb]. simpl.
  erewrite bind_Ret by (by apply getb_eq). by apply IH.
Qed.

Lemma hdr_filesize_eq p h s :
  bytes_at (imem s) p h → length h = SIZEOF_USTAR_HDR → hdr_filesize p s = Ret (size_of h) s.
Proof.
  intros Hb Hl. unfold hdr_filesize. pose proof (field_text _ _ _ 124 12 Hb ltac:(rewrite Hl; unfold SIZEOF_USTAR_HDR; lia)) as Ht.
  erewrite bind_Ret by (exact (strnlen_spec _ _ 12 _ Ht)). unfold oct2bin. rewrite Nat2Z.id.
  by rewrite oct2bin_loop_eq by apply Ht.
Qed.

Lemma is_hdr_eq magic p mg s :
  bytes_at (imem s) magic USTAR_MAGIC → bytes_at (imem s) (p + o_magic) mg → length mg = 6%nat →
  is_hdr magic p s = Ret (bool_decide (mg = USTAR_MAGIC)) s.
Proof.
  intros Hm Hb Hl. unfold is_hdr. replace 6 with (Z.of_nat (length mg)) by (rewrite Hl; done).
  by apply memcmp_eq.
Qed.

(** The loop finds the first file that matches. *)
Lemma getfile_loop_eq fs fuel magic path path_slash w hdr s :
  hashmap_ok → archive (imem s) hdr fs → bytes_at (imem s) magic USTAR_MAGIC → (length fs <= fuel)%nat →
  cstr_at (imem s) path w → (length (slashed w) <= 100)%nat →
  ncstr_at (imem s) path_slash (length (slashed w)) (slashed w) →
  match lookup_file w fs with
  | None => getfile_loop fuel magic path path_slash (Z.of_nat (length (slashed w))) hdr s = Ret nullptr s
  | Some f => ∃ s', getfile_loop fuel magic path path_slash (Z.of_nat (length (slashed w))) hdr s = Ret f.1 s' ∧
      hashmap_set f.1 s = Ret () s' ∧ bytes_at (imem s) f.1 f.2 ∧ length f.2 = SIZEOF_USTAR_HDR
  end.
Proof.
  intros Hhm Har Hmg. revert fuel. induction Har as [p mg Hb Hl Hne|p h fs Hb Hl Hmag Hlt Har IH]; intros fuel Hf Hpath H100 Hps.
  - simpl. destruct fuel; simpl; (erewrite bind_Ret by (by apply is_hdr_eq)); by rewrite bool_decide_eq_false_2.
  - assert (is_hdr magic p s = Ret true s) as Hh.
    { erewrite is_hdr_eq; [|done|exact (field_at _ _ _ 257 6 Hb)|].
      - by rewrite bool_decide_eq_true_2.
      - rewrite field_length; [done|]. rewrite Hl. unfold SIZEOF_USTAR_HDR. lia. }
    pose proof (field_text _ _ _ 0 100 Hb ltac:(rewrite Hl; unfold SIZEOF_USTAR_HDR; lia)) as Hn.
    fold (name_of h) in Hn. pose proof (ncstr_take _ _ _ _ _ Hn H100) as Hn'.
    change (p + Z.of_nat 0) with (p + o_filename) in Hn'.
    pose proof (cstr_ncstr _ _ (length (slashed w)) _ Hpath) as Hp'.
    destruct (strncmp_spec (HM := ist_HasMem) s _ _ _ _ _ Hps Hn') as (r1 & E1 & Hr1).
    destruct (strncmp_spec (HM := ist_HasMem) s _ _ _ _ _ Hp' Hn') as (r2 & E2 & Hr2).
    set (found := bool_decide (matches w (name_of h))).
    assert (∀ k : bool → K ist Z, ((c1 ← uacpi_strncmp path_slash (p + o_filename) (Z.of_nat (length (slashed w)));
      found ← (if c1 =? 0 then mret true else
             c2 ← uacpi_strncmp path (p + o_filename) (Z.of_nat (length (slashed w))); mret (c2 =? 0)); k found) s) = k found s) as Htest.
    { intros k. erewrite bind_Ret by exact E1. rewrite slashed_prefix in Hr1. unfold found.
      destruct (Z.eqb_spec r1 0) as [Ez|Ez].
      - erewrite bind_Ret by reflexivity. rewrite bool_decide_eq_true_2; [done|left; tauto].
      - erewrite bind_Ret by (erewrite bind_Ret by exact E2; reflexivity). f_equal.
        destruct (Z.eqb_spec r2 0) as [Ez2|Ez2].
        + rewrite bool_decide_eq_true_2; [done|]. by apply path_equal, Hr2.
        + rewrite bool_decide_eq_false_2; [done|]. intros [Hx|Hx]; [tauto|]. rewrite Hx in Hr2. tauto. }
    simpl lookup_file. cbn [snd]. destruct (decide (matches w (name_of h))) as [Hmt|Hmt].
    + destruct (hk_set Hhm s p h Hb Hl) as (q & s' & Eset & _). exists s'. cbn [fst snd]. split; [|done].
      destruct fuel; simpl; (erewrite bind_Ret by exact Hh); cbn [negb]; rewrite Htest; unfold found;
        (rewrite bool_decide_eq_true_2 by done); by erewrite bind_Ret by exact Eset.
    + destruct fuel as [|fuel]; [simpl in Hf; lia|]. simpl in Hf. cbn [getfile_loop].
      erewrite bind_Ret by exact Hh. cbn [negb]. rewrite Htest. unfold found. rewrite bool_decide_eq_false_2 by done.
      erewrite bind_Ret by (by apply hdr_filesize_eq). apply IH; done || lia.
Qed.

(** The driver's view of memory during a lookup: the archive, the path and the
    literal are in [ro], which the local variables are not part of. *)
Record looking_up (s : ist) (ro : bmem) (magic what path_slash path : Z) (w : list Z) (fs : list (Z * list Z)) : Prop := {
  lu_ro : ro ⊆ imem s;
  lu_bin : OBOS_InitrdBinary s ≠ 0;
  lu_archive : archive ro (OBOS_InitrdBinary s) fs;
  lu_magic : bytes_at ro magic USTAR_MAGIC;
  lu_path : cstr_at ro path w;
  lu_len : (0 < length w <= 98)%nat;
  lu_what : mapped (imem s) what 500;
  lu_slash : mapped (imem s) path_slash 100;
  lu_disj : disjoint_blocks what 500 path_slash 100;
  lu_out a : what <= a < what + 500 ∨ path_slash <= a < path_slash + 100 → ro !! a = None
}.

(** Writing to the local variables. *)
Lemma looking_up_write s ro magic what path_slash path w fs p l :
  looking_up s ro magic what path_slash path w fs →
  (∀ a, p <= a < p + Z.of_nat (length l) → ro !! a = None) →
  looking_up (s <| imem := write_bytes (imem s) p l |>) ro magic what path_slash path w fs.
Proof.
  intros [? ? ? ? ? ? ? ? ? ?] Hout. split; try done; simpl; [|by apply write_bytes_mapped..].
  apply map_subseteq_spec. intros a b Hb. rewrite write_bytes_outside; [by eapply lookup_weaken|].
  intros Ha. by rewrite Hout in Hb.
Qed.

Lemma looking_up_frame s s' ro magic what path_slash path w fs :
  looking_up s ro magic what path_slash path w fs → OBOS_InitrdBinary s' = OBOS_InitrdBinary s →
  (∀ a, is_Some (imem s !! a) → imem s' !! a = imem s !! a) →
  looking_up s' ro magic what path_slash path w fs.
Proof.
  intros [? ? ? ? ? ? Hw Hs ? ?] Hb Hm. split; rewrite ?Hb; try done.
  - apply map_subseteq_spec. intros a b Hab. rewrite Hm; [by eapply lookup_weaken|].
    exists b. by eapply lookup_weaken.
  - intros i Hi. rewrite Hm by auto. auto.
  - intros i Hi. rewrite Hm by auto. auto.
Qed.

(** The header made up from the path. *)
Definition key (w : list Z) : list Z := w ++ replicate (500 - length w) 0.

Lemma key_length w : (0 < length w <= 98)%nat → length (key w) = SIZEOF_USTAR_HDR.
Proof. intros Hw. unfold key, SIZEOF_USTAR_HDR. rewrite length_app, length_replicate. lia. Qed.

Lemma text_app_zero l k : 0 ∉ l → text (l ++ 0 :: k) = l.
Proof.
  induction l as [|b l IH]; intros H0; [done|]. apply not_elem_of_cons in H0 as [Hb H0]. simpl.
  rewrite (proj2 (Z.eqb_neq b 0)) by done. by rewrite IH.
Qed.

Lemma key_name w : 0 ∉ w → (length w <= 98)%nat → name_of (key w) = w.
Proof.
  intros H0 Hl. unfold name_of, field, key. rewrite drop_0, take_app, take_ge by lia.
  rewrite take_replicate. replace ((100 - length w) `min` (500 - length w))%nat with (S (99 - length w)) by lia.
  by apply text_app_zero.
Qed.

Lemma path_len s ro magic what path_slash path w fs :
  looking_up s ro magic what path_slash path w fs →
  cstr_at (imem s) path w ∧ bytes_at (imem s) path w ∧ uacpi_strnlen path 100 s = Ret (Z.of_nat (length w)) s.
Proof.
  intros Hlu. pose proof (lu_path _ _ _ _ _ _ _ _ Hlu) as [Hb H0]. pose proof (lu_len _ _ _ _ _ _ _ _ Hlu).
  apply (bytes_at_mono _ _ _ _ (lu_ro _ _ _ _ _ _ _ _ Hlu)) in Hb.
  assert (cstr_at (imem s) path w) as Hc by done. split; [done|]. split; [by apply bytes_at_app in Hb as [? _]|].
  pose proof (cstr_ncstr _ _ 100 _ Hc) as Hn. rewrite take_ge in Hn by lia.
  exact (strnlen_spec (HM := ist_HasMem) s _ 100 _ Hn).
Qed.

(** The path is not in the local variables. *)
Lemma path_outside s ro magic what path_slash path w fs q n :
  looking_up s ro magic what path_slash path w fs → (0 < n)%nat →
  (∀ a, q <= a < q + Z.of_nat n → ro !! a = None) → disjoint_blocks q n path (length w).
Proof.
  intros Hlu Hn Hq. pose proof (lu_path _ _ _ _ _ _ _ _ Hlu) as [Hb _]. pose proof (lu_len _ _ _ _ _ _ _ _ Hlu).
  apply bytes_at_app in Hb as [Hb%bytes_at_mapped _]. apply disjoint_pointwise; [|lia|lia]. intros a Ha1 Ha2.
  destruct (mapped_at _ _ _ _ Hb Ha2) as [b Eb]. by rewrite Hq in Eb.
Qed.

Lemma getfile_key s ro magic what path_slash path w fs :
  hashmap_ok → looking_up s ro magic what path_slash path w fs →
  ∃ s1, GetFile magic what path_slash path s =
      (hdr ← hashmap_get what;
       if truthy hdr then mret (hdr, OBOS_STATUS_SUCCESS) else
       getfile_search magic path_slash path (OBOS_InitrdBinary s)) s1 ∧
    looking_up s1 ro magic what path_slash path w fs ∧ bytes_at (imem s1) what (key w) ∧
    hm s1 = (if truthy (cache s) then hm s else ∅) ∧ OBOS_InitrdBinary s1 = OBOS_InitrdBinary s ∧ cache s1 ≠ 0.
Proof.
  intros Hhm Hlu. pose proof (lu_len _ _ _ _ _ _ _ _ Hlu) as Hlen. pose proof (lu_path _ _ _ _ _ _ _ _ Hlu) as [_ Hw0].
  assert (∃ s0, when (negb (truthy (cache s))) (t ← hashmap_new; modify (λ s, s <| cache := t |>)) s = Ret () s0 ∧
    looking_up s0 ro magic what path_slash path w fs ∧ hm s0 = (if truthy (cache s) then hm s else ∅) ∧
    OBOS_InitrdBinary s0 = OBOS_InitrdBinary s ∧ cache s0 ≠ 0) as (s0 & E0 & Hlu0 & Hhm0 & Hbin0 & Hc0).
  { destruct (truthy (cache s)) eqn:Ec; cbn [negb when].
    - exists s. apply truthy_true in Ec. done.
    - destruct (hk_new Hhm s) as (t & s' & E & Ht & Hh & Hm & Hb). eexists. split; [erewrite bind_Ret by exact E; apply modify_eq|].
      split; [|done]. apply (looking_up_frame s); [done|done|]. simpl. intros a [b Ha]. rewrite Ha. by eapply lookup_weaken. }
  remember (s0 <| imem := write_bytes (imem s0) what (replicate 500 0) |>) as s1 eqn:Es1.
  assert (looking_up s1 ro magic what path_slash path w fs) as Hlu1.
  { rewrite Es1. apply looking_up_write; [done|]. rewrite length_replicate. intros a Ha. apply (lu_out _ _ _ _ _ _ _ _ Hlu). lia. }
  assert (disjoint_blocks what (length w) path (length w)) as Hd.
  { eapply path_outside; [done|lia|]. intros a Ha. apply (lu_out _ _ _ _ _ _ _ _ Hlu). lia. }
  destruct (path_len _ _ _ _ _ _ _ _ Hlu1) as (_ & Hp1 & El1). destruct (path_len _ _ _ _ _ _ _ _ Hlu) as (Hcs & _ & _).
  exists (s1 <| imem := write_bytes (imem s1) what w |>). split.
  - unfold GetFile. erewrite bind_Ret by apply gets_eq. rewrite (proj2 (truthy_true _)) by apply Hlu. cbn [negb].
    erewrite bind_Ret by (by apply strlen_eq). rewrite (proj2 (Z.ltb_ge _ _)) by lia.
    erewrite bind_Ret by apply gets_eq. erewrite bind_Ret by exact E0.
    erewrite bind_Ret by (apply memzero_eq; apply Hlu0).
    change (mem_upd _ s0) with (s0 <| imem := write_bytes (imem s0) what (replicate 500 0) |>). rewrite <- Es1.
    erewrite bind_Ret by exact El1.
    erewrite bind_Ret; [done|]. unfold o_filename. rewrite Z.add_0_r.
    refine (memcpy_eq (S := ist) w what path s1 Hp1 _ Hd). apply (mapped_le _ _ 500); [apply Hlu1|lia].
  - split; [|split; [|cbn [hm cache OBOS_InitrdBinary]]].
    + apply looking_up_write; [done|]. intros a Ha. apply (lu_out _ _ _ _ _ _ _ _ Hlu). lia.
    + change (imem (s1 <| imem := write_bytes (imem s1) what w |>)) with (write_bytes (imem s1) what w). unfold key. apply bytes_at_app. split; [apply write_bytes_same|].
      intros i b [-> Hi]%lookup_replicate. rewrite write_bytes_outside by lia.
      rewrite <- Z.add_assoc, <- Nat2Z.inj_add, Es1. apply zeros_at. lia.
    + by rewrite Es1.
Qed.

Lemma slashed_length w : (length w <= length (slashed w) <= length w + 1)%nat.
Proof. unfold slashed. case_decide; rewrite ?length_app; simpl; lia. Qed.

Lemma getfile_search_eq s ro magic what path_slash path w fs :
  hashmap_ok → looking_up s ro magic what path_slash path w fs → cache s ≠ 0 →
  ∃ s', getfile_search magic path_slash path (OBOS_InitrdBinary s) s =
      Ret (from_option fst nullptr (lookup_file w fs), OBOS_STATUS_SUCCESS) s' ∧
    looking_up s' ro magic what path_slash path w fs ∧ cache s' ≠ 0 ∧
    match lookup_file w fs with
    | None => hm s' = hm s
    | Some f => ∃ q, hm s' !! name_of f.2 = Some q ∧ q ≠ 0 ∧ ro !! q = None ∧ bytes_at (imem s') q f.2
    end.
Proof.
  intros Hhm Hlu Hc. pose proof (lu_len _ _ _ _ _ _ _ _ Hlu) as Hlen. pose proof (lu_path _ _ _ _ _ _ _ _ Hlu) as [_ Hw0].
  pose proof (slashed_length w) as Hsl.
  assert (∀ l : list Z, (length l <= 100)%nat → ∀ a, path_slash <= a < path_slash + Z.of_nat (length l) → ro !! a = None) as Hloc.
  { intros l Hl a Ha. apply (lu_out _ _ _ _ _ _ _ _ Hlu). lia. }
  destruct (path_len _ _ _ _ _ _ _ _ Hlu) as (_ & Hp & El).
  remember (s <| imem := write_bytes (imem s) path_slash w |>) as s1 eqn:Es1.
  assert (looking_up s1 ro magic what path_slash path w fs) as Hlu1 by (rewrite Es1; apply looking_up_write; [done|apply Hloc; lia]).
  assert (∃ s2, ((if negb (default 0 (last w) =? 47) then
      putb (path_slash + Z.of_nat (length w)) 47;; putb (path_slash + (Z.of_nat (length w) + 1)) 0;; mret (Z.of_nat (length w) + 1)
      else mret (Z.of_nat (length w))) : K ist Z) s1 = Ret (Z.of_nat (length (slashed w))) s2 ∧
    looking_up s2 ro magic what path_slash path w fs ∧ bytes_at (imem s2) path_slash (slashed w) ∧
    hm s2 = hm s ∧ cache s2 = cache s ∧ OBOS_InitrdBinary s2 = OBOS_InitrdBinary s)
    as (s2 & E2 & Hlu2 & Hb2 & Hhm2 & Hc2 & Hbin2).
  { unfold slashed. destruct (decide (last w = Some 47)) as [Hl|Hl].
    - rewrite Hl. exists s1. split; [reflexivity|]. split; [exact Hlu1|]. split; [rewrite Es1; apply write_bytes_same|]. by rewrite Es1.
    - assert (default 0 (last w) ≠ 47) as Hn by (intros E; apply Hl; destruct (last w); simpl in E; congruence).
      rewrite (proj2 (Z.eqb_neq _ _)) by done. cbn [negb].
      exists (s <| imem := write_bytes (imem s) path_slash (w ++ [47; 0]) |>). split.
      + erewrite bind_Ret by (apply putb_eq, (mapped_at _ _ _ _ (lu_slash _ _ _ _ _ _ _ _ Hlu1)); lia).
        erewrite bind_Ret.
        2: { apply putb_eq. rewrite mem_of_upd, lookup_insert_ne by lia.
             apply (mapped_at _ _ _ _ (lu_slash _ _ _ _ _ _ _ _ Hlu1)); lia. }
        unfold mret, K_ret. rewrite length_app. cbn [length]. f_equal; [lia|]. rewrite write_bytes_app. cbn [write_bytes].
        rewrite mem_upd_upd, mem_of_upd. rewrite Es1. cbn [mem_upd mem_of ist_HasMem imem]. by replace (path_slash + (Z.of_nat (length w) + 1)) with (path_slash + Z.of_nat (length w) + 1) by lia.
      + split; [|split; [|done]].
        * apply looking_up_write; [done|]. apply Hloc. rewrite length_app. simpl. lia.
        * simpl. replace (w ++ [47; 0]) with ((w ++ [47]) ++ [0]) by by rewrite <- app_assoc.
          pose proof (write_bytes_same (imem s) path_slash ((w ++ [47]) ++ [0])) as Hb. by apply bytes_at_app in Hb as [? _]. }
  pose proof (getfile_loop_eq fs (size (imem s2)) magic path path_slash w (OBOS_InitrdBinary s) s2 Hhm) as Hloop.
  pose proof (archive_mono _ _ _ _ (lu_ro _ _ _ _ _ _ _ _ Hlu2) (lu_archive _ _ _ _ _ _ _ _ Hlu2)) as Har.
  rewrite Hbin2 in Har. specialize (Hloop Har (bytes_at_mono _ _ _ _ (lu_ro _ _ _ _ _ _ _ _ Hlu2) (lu_magic _ _ _ _ _ _ _ _ Hlu2))
    (archive_size _ _ _ Har) (proj1 (path_len _ _ _ _ _ _ _ _ Hlu2)) ltac:(lia)).
  assert (ncstr_at (imem s2) path_slash (length (slashed w)) (slashed w)) as Hnc.
  { split; [done| |by left]. unfold slashed. case_decide; [done|]. set_solver. }
  specialize (Hloop Hnc).
  assert (∀ hdr s', getfile_loop (size (imem s2)) magic path path_slash (Z.of_nat (length (slashed w))) (OBOS_InitrdBinary s) s2 = Ret hdr s' →
    getfile_search magic path_slash path (OBOS_InitrdBinary s) s = Ret (hdr, OBOS_STATUS_SUCCESS) s') as Hrun.
  { intros hdr s' Er. unfold getfile_search. erewrite bind_Ret by exact El.
    erewrite bind_Ret.
    2: { refine (memcpy_eq (S := ist) w path_slash path s Hp _ _); [apply (mapped_le _ _ 100); [apply Hlu|lia]|].
         eapply path_outside; [done|lia|apply Hloc; lia]. }
    change (mem_upd _ s) with (s <| imem := write_bytes (imem s) path_slash w |>). rewrite <- Es1.
    erewrite (bind_Ret _ _ _ (default 0 (last w))).
    2: { apply getb_eq. rewrite Es1. apply write_bytes_last. lia. }
    erewrite bind_Ret by exact E2. erewrite bind_Ret by apply gets_eq. by erewrite bind_Ret by exact Er. }
  destruct (lookup_file w fs) as [f|].
  - destruct Hloop as (s' & Er & Eset & Hbf & Hlf). exists s'. split; [by apply Hrun|].
    destruct (hk_set Hhm s2 f.1 f.2 Hbf Hlf) as (q & s'' & Eset' & Hq & Hq1 & Hq2 & Hq3 & Hq4 & Hq5 & Hq6).
    rewrite Eset in Eset'. injection Eset' as <-. split; [by apply (looking_up_frame s2)|]. split; [congruence|].
    exists q. split; [done|]. split; [done|]. split; [|done].
    destruct (ro !! q) eqn:Eq; [|done]. pose proof (lookup_weaken _ _ _ _ Eq (lu_ro _ _ _ _ _ _ _ _ Hlu2)). congruence.
  - exists s2. split; [by apply Hrun|]. split; [done|]. split; [congruence|done].
Qed.

(** Looking up a path that is not cached gives the first file of the archive
    that the path names or whose name begins with the path as a directory, and
    a null descriptor when there is none; in both cases the status is success.
    The archive is not changed. *)
Theorem getfile_lookup s ro magic what path_slash path w fs :
  hashmap_ok → looking_up s ro magic what path_slash path w fs →
  (cache s ≠ 0 → hm s !! w = None) →
  ∃ s', GetFile magic what path_slash path s =
      Ret (from_option fst nullptr (lookup_file w fs), OBOS_STATUS_SUCCESS) s' ∧
    looking_up s' ro magic what path_slash path w fs.
Proof.
  intros Hhm Hlu Hnew. destruct (getfile_key _ _ _ _ _ _ _ _ Hhm Hlu) as (s1 & E1 & Hlu1 & Hkey & Hh & Hbin & Hc).
  destruct (getfile_search_eq _ _ _ _ _ _ _ _ Hhm Hlu1 Hc) as (s' & Es & Hlu' & _).
  exists s'. split; [|done]. rewrite E1. erewrite bind_Ret by (apply (hk_get Hhm _ _ (key w)); [done|apply key_length, Hlu]).
  rewrite key_name, Hh by apply Hlu. destruct (truthy (cache s)) eqn:Et.
  - apply truthy_true in Et. rewrite Hnew by done. simpl. rewrite <- Hbin. exact Es.
  - rewrite lookup_empty. simpl. rewrite <- Hbin. exact Es.
Qed.

(** A second lookup of the same path does not give the same descriptor: it
    gives the address of the copy of the header in the cache, which is not in
    the archive, although a descriptor is the address the data of the file is
    expected behind. *)
Theorem getfile_cached_copy s ro magic what path_slash path w fs f :
  hashmap_ok → looking_up s ro magic what path_slash path w fs → (cache s ≠ 0 → hm s !! w = None) →
  lookup_file w fs = Some f → name_of f.2 = w →
  ∃ s1 q s2, GetFile magic what path_slash path s = Ret (f.1, OBOS_STATUS_SUCCESS) s1 ∧
    GetFile magic what path_slash path s1 = Ret (q, OBOS_STATUS_SUCCESS) s2 ∧
    q ≠ f.1 ∧ ro !! q = None.
Proof.
  intros Hhm Hlu Hnew Hf Hname. destruct (getfile_key _ _ _ _ _ _ _ _ Hhm Hlu) as (s1 & E1 & Hlu1 & Hkey & Hh & Hbin & Hc).
  destruct (getfile_search_eq _ _ _ _ _ _ _ _ Hhm Hlu1 Hc) as (s' & Es & Hlu' & Hc' & Hq). rewrite Hf in Es, Hq.
  destruct Hq as (q & Hq & Hq0 & Hqro & Hqb).
  destruct (getfile_key _ _ _ _ _ _ _ _ Hhm Hlu') as (s2 & E2 & Hlu2 & Hkey2 & Hh2 & Hbin2 & Hc2).
  assert (∀ t, bytes_at (imem t) what (key w) → hashmap_get what t = Ret (default nullptr (hm t !! w)) t) as Hget.
  { intros t Ht. erewrite (hk_get Hhm _ _ (key w)); [by rewrite key_name by apply Hlu|done|apply key_length, Hlu]. }
  exists s', q, s2. split; [|split; [|split; [|done]]].
  - rewrite E1. erewrite bind_Ret by (by apply Hget). rewrite Hh. destruct (truthy (cache s)) eqn:Et.
    + apply truthy_true in Et. rewrite Hnew by done. simpl. rewrite <- Hbin. exact Es.
    + rewrite lookup_empty. simpl. rewrite <- Hbin. exact Es.
  - rewrite E2. erewrite bind_Ret by (by apply Hget). rewrite Hh2, (proj2 (truthy_true (cache s'))) by done.
    rewrite <- Hname, Hq. simpl. by rewrite (proj2 (truthy_true q)).
  - intros ->. destruct (lookup_file_addr _ _ _ _ _ (lu_archive _ _ _ _ _ _ _ _ Hlu) Hf) as [b Hb]. congruence.
Qed.

(** ** Reading *)

(** [C32] Reading [n] bytes at [off] of a regular file with the contents [data] copies
    the bytes there are and nothing else, and the count that was passed is
    returned as it was; behind the end nothing is read, and a null pointer for
    the count is followed. *)
Theorem initrd_read s hdr h data buf n off nr :
  bytes_at (imem s) hdr h → length h = SIZEOF_USTAR_HDR → bytes_at (imem s) (hdr + 0x200) data →
  size_of h = Z.of_nat (length data) → is_regular (default 0 (h !! 156%nat)) = true →
  hdr ≠ 0 → buf ≠ 0 → 0 < n → 0 <= off → off + n < 2 ^ 64 →
  let got := take (Z.to_nat n) (drop (Z.to_nat off) data) in
  mapped (imem s) buf (length got) →
  disjoint_blocks buf (length got) (hdr + 0x200 + off) (length got) →
  read_sync hdr buf n off nr s =
    if off <? Z.of_nat (length data) then
      Ret (OBOS_STATUS_SUCCESS, nr) (s <| imem := write_bytes (imem s) buf got |>)
    else match nr with None => Stop BadDeref | Some _ => Ret (OBOS_STATUS_SUCCESS, Some 0) s end.
Proof.
  intros Hh Hl Hdata Hsz Hreg Hhdr Hbuf Hn Hoff Hmax got Hm Hd. unfold read_sync.
  rewrite (proj2 (truthy_true hdr)), (proj2 (truthy_true buf)), (proj2 (truthy_true n)) by lia. cbn [negb orb].
  assert (is_Some (h !! 156%nat)) as [t Ht] by (apply lookup_lt_is_Some_2; rewrite Hl; unfold SIZEOF_USTAR_HDR; lia).
  erewrite bind_Ret by (apply getb_eq, (Hh 156%nat t Ht)). rewrite Ht in Hreg. simpl in Hreg. rewrite Hreg. cbn [negb].
  erewrite bind_Ret by (by apply hdr_filesize_eq). rewrite Hsz.
  destruct (Z.ltb_spec off (Z.of_nat (length data))) as [Hlt|Hge].
  2: { rewrite (proj2 (Z.leb_le _ _)) by lia. by destruct nr. }
  rewrite (proj2 (Z.leb_gt _ _)) by lia. rewrite wrap_small by (unfold in_u; lia).
  replace (if Z.of_nat (length data) <=? off + n then Z.of_nat (length data) - off else n) with (Z.of_nat (length got)).
  2: { unfold got. rewrite length_take, length_drop. destruct (Z.leb_spec (Z.of_nat (length data)) (off + n)); lia. }
  erewrite bind_Ret; [reflexivity|]. refine (memcpy_eq (S := ist) got buf _ s _ Hm Hd).
  intros i b Hi. unfold got in Hi. rewrite lookup_take in Hi. case_decide; [|done]. rewrite lookup_drop in Hi.
  apply Hdata in Hi. by replace (hdr + 512 + off + Z.of_nat i) with (hdr + 0x200 + Z.of_nat (Z.to_nat off + i)) by lia.
Qed.

End lookup.
