(* ===== verification/Pmm.v ===== *)
(** * Physical memory ([mm/pmm.c])

    Free physical memory is kept in two doubly linked lists of regions, one for
    the memory below 4 GiB.  The node of a region is stored in its first page,
    so the three words at the start of every physical page are part of the
    state: [pg_links] the links, [pg_nPages] the count; a page that was in use
    has whatever its user left there.  Nodes are named by their physical
    address (the direct map adds a constant). *)

From S2P Require Import Prelude DList KState Irql ThreadList Thread.

(** ** State *)

Inductive region := Low32 | High.
#[global] Instance region_eq_dec : EqDecision region.
Proof. solve_decision. Defined.

Record flist := mkFlist { fl_head : Z; fl_tail : Z }.

Record mst := mkMst {
  mk : kst;
  s_list32 : flist;
  s_list : flist;
  s_nNodes : Z;
  pg_links : lheap;
  pg_nPages : gmap Z Z;
  Mm_TotalPhysicalPages : Z;
  Mm_TotalPhysicalPagesUsed : Z;
  Mm_UsablePhysicalPages : Z;
  Mm_PhysicalMemoryBoundaries : Z
}.
#[export] Instance eta_mst : Etable mst :=
  λ r, mkMst (mk r) (s_list32 r) (s_list r) (s_nNodes r) (pg_links r) (pg_nPages r) (Mm_TotalPhysicalPages r)
    (Mm_TotalPhysicalPagesUsed r) (Mm_UsablePhysicalPages r) (Mm_PhysicalMemoryBoundaries r).

Definition list_of (r : region) (s : mst) : flist := match r with Low32 => s_list32 s | High => s_list s end.
Definition set_list_of (r : region) (l : flist) (s : mst) : mst :=
  match r with Low32 => s <| s_list32 := l |> | High => s <| s_list := l |> end.

(** A routine of the kernel core. *)
Definition kern {A} (m : K kst A) : K mst A := zoom mk (λ k s, s <| mk := k |>) m.

(** The list operations of the thread lists are those of the regions, which
    have no count of their own. *)
Definition flist_op (r : region) (op : lheap → dlist → option (lheap * dlist)) : K mst () :=
  l ← gets (list_of r);
  h ← gets pg_links;
  p ← deref_opt (op h (mkList (fl_head l) (fl_tail l) 0));
  modify (λ s, set_list_of r (mkFlist (dl_head p.2) (dl_tail p.2)) (s <| pg_links := p.1 |>)).

Definition get_nPages (node : Z) : K mst Z := load pg_nPages node.
Definition set_nPages (node v : Z) : K mst () := store pg_nPages (λ m s, s <| pg_nPages := m |>) node (λ _, v).

Section ops.
Context {DH : DpcHandlers}.

(** [IsRegionSufficient]: the answer and [*nPagesRequiredP]. *)
Definition IsRegionSufficient (node nPages alignmentMask : Z) : K mst (bool * Z) :=
  n ← get_nPages node;
  let required := wrap64 (nPages + Z.land n (wrap64 (wrap64 (alignmentMask + 1) / OBOS_PAGE_SIZE - 1))) in
  let required := wrap64 (required + Z.land node alignmentMask / OBOS_PAGE_SIZE) in
  mret (required <=? n, required).

(** The search from [node] on: the node found, or null, and the pages required. *)
Fixpoint find_region (fuel : nat) (node nPages alignmentMask : Z) : K mst (Z * Z) :=
  if negb (truthy node) then mret (nullptr, 0) else
  r ← IsRegionSufficient node nPages alignmentMask;
  if (r.1 : bool) then mret (node, r.2) else
  match fuel with
  | O => stop Hang
  | S fuel => l ← load pg_links node; find_region fuel (dl_next l) nPages alignmentMask
  end.

(** [*status = st], with and without the test for null. *)
Definition put_status (status : option obos_status) (st : obos_status) : option obos_status := (λ _, st) <$> status.

Definition allocate (nPages alignmentPages : Z) (status : option obos_status) (r : region)
  : K mst (Z * option obos_status) :=
  if negb (truthy nPages) then
    match status with
    | None => stop BadDeref
    | Some _ => mret (0, Some OBOS_STATUS_INVALID_ARGUMENT)
    end
  else
  let alignmentPages := if truthy alignmentPages then alignmentPages else 1 in
  if 1 <? popcount32 alignmentPages then mret (0, put_status status OBOS_STATUS_INVALID_ARGUMENT) else
  l ← gets (list_of r);
  if negb (truthy (fl_head l)) then mret (0, put_status status OBOS_STATUS_NOT_ENOUGH_MEMORY) else
  let nPages := if truthy (nPages mod alignmentPages)
                then wrap64 (nPages + (alignmentPages - nPages mod alignmentPages)) else nPages in
  let alignmentMask := wrap64 (alignmentPages * OBOS_PAGE_SIZE - 1) in
  oldIrql ← kern (Core_SpinlockAcquireExplicit (Some PmmLock) IRQL_DISPATCH true);
  l ← gets (list_of r);
  h ← gets pg_links;
  f ← find_region (size h) (fl_head l) nPages alignmentMask;
  let node := f.1 in
  if negb (truthy node) then
    kern (Core_SpinlockRelease PmmLock oldIrql);; mret (0, put_status status OBOS_STATUS_NOT_ENOUGH_MEMORY)
  else
  n ← get_nPages node;
  OBOS_ASSERT (f.2 <=? n);;
  set_nPages node (n - f.2);;
  modify (λ s, s <| Mm_TotalPhysicalPagesUsed ::= λ u, wrap64 (u + f.2) |>);;
  n ← get_nPages node;
  when (negb (truthy n)) (
    flist_op r (λ h l, unlink h l node);;
    modify (λ s, s <| s_nNodes ::= λ n, wrap64 (n - 1) |>));;
  let phys := wrap64 (node + wrap64 (n * OBOS_PAGE_SIZE)) in
  when (negb (truthy n)) (
    set_nPages node 0;;
    store pg_links (λ m s, s <| pg_links := m |>) node (λ _, unlinked));;
  kern (Core_SpinlockRelease PmmLock oldIrql);;
  OBOS_ASSERT (truthy phys);;
  b ← gets Mm_PhysicalMemoryBoundaries;
  OBOS_ASSERT (phys <? b);;
  mret (phys, put_status status OBOS_STATUS_SUCCESS).

Definition Mm_AllocatePhysicalPages (nPages alignmentPages : Z) (status : option obos_status)
  : K mst (Z * option obos_status) :=
  r ← allocate nPages alignmentPages status High;
  if truthy r.1 then mret r else
  allocate nPages alignmentPages (put_status r.2 OBOS_STATUS_SUCCESS) Low32.

Definition Mm_AllocatePhysicalPages32 (nPages alignmentPages : Z) (status : option obos_status)
  : K mst (Z * option obos_status) := allocate nPages alignmentPages status Low32.

(** The static [free]: the [next] word of the page is left as it is. *)
Definition pmm_free (addr nPages : Z) (r : region) : K mst obos_status :=
  if negb (truthy nPages) then mret OBOS_STATUS_SUCCESS else
  oldIrql ← kern (Core_SpinlockAcquireExplicit (Some PmmLock) IRQL_DISPATCH true);
  set_nPages addr nPages;;
  flist_op r (λ h l, link_tail h l addr);;
  modify (λ s, s <| s_nNodes ::= λ n, wrap64 (n - 1) |>);;
  modify (λ s, s <| Mm_TotalPhysicalPagesUsed ::= λ u, wrap64 (u - nPages) |>);;
  kern (Core_SpinlockRelease PmmLock oldIrql);;
  mret OBOS_STATUS_SUCCESS.

(** The loop over the threads waiting for memory, from [node] on. *)
Fixpoint wake_waiting (fuel : nat) (node nMemoryLeft : Z) : K kst () :=
  if negb (truthy node) then mret () else
  match fuel with
  | O => stop Hang
  | S fuel =>
      l ← get_link node;
      n ← get_node node;
      t ← get_thread (tn_data n);
      left ← (if nBytesWaitingFor t <=? nMemoryLeft then
                CoreH_ThreadListRemove (Some Mm_ThreadsAwaitingPhysicalMemory) node;;
                CoreH_ThreadReadyNode (tn_data n) (snode t);;
                mret (nMemoryLeft - nBytesWaitingFor t)
              else mret nMemoryLeft);
      wake_waiting fuel (dl_next l) left
  end.

(** [~0xffffffff] is an [unsigned int], that is [0]. *)
Definition Mm_FreePhysicalPages (addr nPages : Z) : K mst obos_status :=
  OBOS_ASSERT (truthy addr);;
  OBOS_ASSERT (negb (truthy (addr mod OBOS_PAGE_SIZE)));;
  b ← gets Mm_PhysicalMemoryBoundaries;
  OBOS_ASSERT (addr <? b);;
  let addr := addr - addr mod OBOS_PAGE_SIZE in
  if negb (truthy addr) then mret OBOS_STATUS_INVALID_ARGUMENT else
  nPages ←
    (if addr <? 0xffffffff then
       nPages ←
         (let top := wrap64 (addr + wrap64 (nPages * OBOS_PAGE_SIZE)) in
          if 0xffffffff <=? top then
            let pages := Z.land top (wrap32 (Z.lnot 0xffffffff)) / OBOS_PAGE_SIZE in
            pmm_free 0x100000000 pages High;;
            let nPages := wrap64 (nPages - pages) in
            OBOS_ASSERT (wrap64 (addr + wrap64 (nPages * OBOS_PAGE_SIZE)) <? 0xffffffff);;
            mret nPages
          else mret nPages);
       when (truthy nPages) (pmm_free addr nPages Low32;; mret ());;
       mret nPages
     else pmm_free addr nPages High;; mret nPages);
  kern (d ← get_list Mm_ThreadsAwaitingPhysicalMemory;
        h ← gets (λ s, tlinks (sch s));
        wake_waiting (size h + 1) (dl_head d) (wrap64 (nPages * OBOS_PAGE_SIZE)));;
  mret OBOS_STATUS_SUCCESS.

(** ** Setting up from the memory map

    An entry of the map the boot loader passes: base, size, and whether it is
    usable. *)
Record pmem_entry := mkPmem { pmem_map_base : Z; pmem_map_size : Z; usable : bool }.

Fixpoint pmm_add_entries (map : list pmem_entry) : K mst () :=
  match map with
  | [] => mret ()
  | e :: map =>
      let phys := pmem_map_base e in
      let nPages := pmem_map_size e / OBOS_PAGE_SIZE in
      let (phys, nPages) :=
        if truthy (phys mod OBOS_PAGE_SIZE)
        then (wrap64 (phys + (OBOS_PAGE_SIZE - phys mod OBOS_PAGE_SIZE)), wrap64 (nPages - 1)) else (phys, nPages) in
      let (phys, nPages) := if phys =? 0 then (OBOS_PAGE_SIZE, wrap64 (nPages - 1)) else (phys, nPages) in
      modify (λ s, s <| Mm_TotalPhysicalPages ::= λ n, wrap64 (n + nPages) |>);;
      let top := wrap64 (phys + wrap64 (nPages * OBOS_PAGE_SIZE)) in
      modify (λ s, if Mm_PhysicalMemoryBoundaries s <? top then s <| Mm_PhysicalMemoryBoundaries := top |> else s);;
      if negb (usable e) || negb (truthy nPages) then
        modify (λ s, s <| Mm_TotalPhysicalPagesUsed ::= λ n, wrap64 (n + nPages) |>);;
        pmm_add_entries map
      else
        modify (λ s, s <| Mm_UsablePhysicalPages ::= λ n, wrap64 (n + nPages) |>);;
        Mm_FreePhysicalPages phys nPages;;
        pmm_add_entries map
  end.

(** The boundary is rounded up to a multiple of 4 GiB. *)
Definition Mm_InitializePMM (map : list pmem_entry) : K mst obos_status :=
  if bool_decide (map = []) then mret OBOS_STATUS_INVALID_INIT_PHASE else
  pmm_add_entries map;;
  modify (λ s, let b := Mm_PhysicalMemoryBoundaries s in
    if truthy (Z.land b 4294967295)
    then s <| Mm_PhysicalMemoryBoundaries := Z.land (wrap64 (b + 4294967295)) (wrap64 (Z.lnot 4294967295)) |> else s);;
  mret OBOS_STATUS_SUCCESS.

End ops.
