(* ===== verification/PmmProofs.v ===== *)
(** * Physical memory: correctness

    What the allocator hands out was free, is aligned as asked for and is not
    free afterwards; what is freed becomes free; the lists stay well formed. *)

From S2P Require Import Prelude DList KState Irql ThreadList Thread Pmm.

(** ** The lock of the allocator

    It is taken with the variant that leaves the thread context alone. *)
Section bracket.
Context {DH : DpcHandlers}.
Set Default Proof Using "Type".

Definition nthr_up (i : irq_st) (l : lock_loc) : irq_st :=
  (set_level IRQL_DISPATCH i) <| locks ::= <[l := held i true]> |>.

Lemma set_level_wf i v : irq_wf i v → irq_wf (set_level IRQL_DISPATCH i) IRQL_DISPATCH.
Proof.
  intros [Hv Hc Hr H1 (t & Ht & Hctx)]. split; [by eapply set_level_irql|by rewrite set_level_cr8|unfold IRQL_DISPATCH; lia|done|].
  exists t. by rewrite set_level_thread, set_level_ctx_irql.
Qed.

#[local] Opaque set_level.

Lemma acquire_nthr_up s v l :
  quiet (irq s) v → lock_free (irq s) l →
  Core_SpinlockAcquireExplicit (Some l) IRQL_DISPATCH true s = Ret (acq_irql v) (s <| irq ::= λ i, nthr_up i l |>).
Proof.
  intros [Hwf Hle Hd Hctx] Hl. destruct (wf_thread _ _ Hwf) as (t & Ht & _).
  unfold Core_SpinlockAcquireExplicit. simpl.
  erewrite (bind_Ret _ _ _ (acq_irql v) (s <| irq ::= set_level IRQL_DISPATCH |>)).
  2: { erewrite bind_Ret by (eapply Core_GetIrql_eq; apply Hwf). unfold acq_irql. destruct (v <? IRQL_DISPATCH) eqn:E.
       - apply Z.ltb_lt in E. eapply Core_RaiseIrqlNoThread_eq; [done|unfold IRQL_DISPATCH in *; lia|done].
       - apply Z.ltb_ge in E. assert (v = IRQL_DISPATCH) as -> by lia. unfold mret, K_ret. simpl.
         rewrite set_level_id by apply Hwf. by destruct s. }
  unfold get_lock, set_lock.
  erewrite bind_Ret by (apply load_eq; simpl; rewrite set_level_locks; exact Hl). simpl.
  erewrite bind_Ret by (apply store_eq; simpl; rewrite set_level_locks; exact Hl). simpl.
  erewrite bind_Ret by (apply store_eq; simpl; apply lookup_insert_eq). simpl.
  erewrite bind_Ret by (apply Core_GetCurrentThread_eq; simpl; rewrite <- Ht; apply (set_level_thread IRQL_DISPATCH (irq s))). simpl.
  do 2 (erewrite bind_Ret by (apply store_eq; simpl; apply lookup_insert_eq); simpl).
  unfold mret, K_ret, nthr_up, held. rewrite Ht, !insert_insert_eq, set_level_locks. simpl. by rewrite set_level_locks.
Qed.

Lemma release_nthr_up s i v l :
  quiet i v → lock_free i l → irq s = nthr_up i l →
  Core_SpinlockRelease l (acq_irql v) s = Ret OBOS_STATUS_SUCCESS (s <| irq := i |>).
Proof.
  intros [Hwf Hle Hd Hctx] Hl Hs.
  assert (truthy (Z.land (acq_irql v) 0xf0) && negb (acq_irql v =? IRQL_INVALID) = false) as Ht.
  { unfold acq_irql. destruct (v <? IRQL_DISPATCH); [|done]. rewrite irql_nibble by apply Hwf. done. }
  unfold Core_SpinlockRelease. rewrite Ht. unfold get_lock, set_lock.
  erewrite bind_Ret by (apply store_eq; rewrite Hs; simpl; apply lookup_insert_eq). simpl.
  do 2 (erewrite bind_Ret by (apply store_eq; simpl; apply lookup_insert_eq); simpl).
  erewrite bind_Ret by (apply load_eq; simpl; apply lookup_insert_eq). simpl.
  rewrite Hs, !insert_insert_eq. simpl. rewrite !insert_insert_eq, set_level_locks.
  set (i2 := mkIrq _ _ _ _ _ _ _ _ _ _).
  assert (i2 = (set_level IRQL_DISPATCH i) <| locks := <[l := mkSpin false false true 0]> (locks i) |>) as Ei2 by done.
  assert (irq_wf i2 IRQL_DISPATCH) as Hwf2 by (rewrite Ei2; destruct (set_level_wf _ _ Hwf); by split).
  assert (set_level v i2 = i <| locks ::= <[l := mkSpin false false true 0]> |>) as Hback.
  { rewrite Ei2. transitivity ((set_level v (set_level IRQL_DISPATCH i)) <| locks := <[l := mkSpin false false true 0]> (locks i) |>).
    - Transparent set_level. unfold set_level, set_var. simpl. by destruct (this_cpu i).
    - Opaque set_level. rewrite set_level_level, set_level_id by apply Hwf. done. }
  assert (when (negb (acq_irql v =? IRQL_INVALID)) (Core_LowerIrqlNoThread (acq_irql v)) (mkK i2 (sch s) (obj s)) =
    Ret () (mkK (set_level v i2) (sch s) (obj s))) as Heq.
  { unfold acq_irql. destruct (v <? IRQL_DISPATCH) eqn:E; simpl.
    - apply Z.ltb_lt in E. rewrite (proj2 (Z.eqb_neq v IRQL_INVALID)) by (destruct Hwf; unfold IRQL_INVALID; lia). simpl.
      erewrite Core_LowerIrqlNoThread_eq; [done|exact Hwf2|destruct Hwf; lia|apply Hwf|].
      intros c. simpl. change (this_cpu i2) with (this_cpu (set_level IRQL_DISPATCH i)). change (dpcs i2) with (dpcs (set_level IRQL_DISPATCH i)).
      rewrite set_level_this, set_level_dpcs. apply Hd.
    - apply Z.ltb_ge in E. assert (v = IRQL_DISPATCH) as -> by lia. unfold mret, K_ret.
      by rewrite (set_level_id IRQL_DISPATCH i2) by apply Hwf2. }
  rewrite Hback in Heq.
  erewrite bind_Ret by exact Heq. simpl.
  erewrite bind_Ret by (apply store_eq; simpl; apply lookup_insert_eq). simpl.
  rewrite insert_insert_eq, insert_id by exact Hl. by destruct i.
Qed.

End bracket.

(** ** The lists of free regions *)

Abbreviation PG := OBOS_PAGE_SIZE.

(** The nodes [xs] are the free regions: not empty, page aligned, within the
    boundaries, and disjoint. *)
Record fl_inv (s : mst) (r : region) (xs : list Z) : Prop := {
  fi_rep : dl_rep (pg_links s) (mkList (fl_head (list_of r s)) (fl_tail (list_of r s)) (Z.of_nat (length xs))) xs;
  fi_node x : x ∈ xs → ∃ n, pg_nPages s !! x = Some n ∧ 0 < n ∧ 0 < x ∧ x mod PG = 0 ∧
    x + n * PG <= Mm_PhysicalMemoryBoundaries s;
  fi_disj x y n m : x ∈ xs → y ∈ xs → x ≠ y → pg_nPages s !! x = Some n → pg_nPages s !! y = Some m →
    x + n * PG <= y ∨ y + m * PG <= x;
  fi_bound : Mm_PhysicalMemoryBoundaries s < 2 ^ 64
}.

(** The address [a] is in a free region. *)
Definition free_in (s : mst) (xs : list Z) (a : Z) : Prop :=
  ∃ x n, x ∈ xs ∧ pg_nPages s !! x = Some n ∧ x <= a < x + n * PG.

(** The pages taken from the region [x] of [n] pages for [nPages] pages with the
    alignment [A]: those that make the end of the region and the result
    aligned are taken too. *)
Definition required (nPages A x n : Z) : Z := nPages + n mod A + x mod (A * PG) / PG.

(** Counts are rounded up to the alignment. *)
Definition round_pages (nPages A : Z) : Z := if truthy (nPages mod A) then nPages + (A - nPages mod A) else nPages.

Lemma kern_Ret {A} (m : K kst A) s a k : m (mk s) = Ret a k → kern m s = Ret a (s <| mk := k |>).
Proof. intros E. unfold kern, zoom. by rewrite E. Qed.

Lemma unlink_count h l x n :
  unlink h (l <| dl_nNodes := n |>) x = (λ p, (p.1, p.2 <| dl_nNodes := n |>)) <$> unlink h l x.
Proof.
  unfold unlink, opt_when. destruct l as [hd tl k]. simpl. destruct (h !! x) as [w|]; [|done]. simpl.
  destruct (if truthy (dl_next w) then _ else _) as [h1|]; [|done]. simpl. destruct (h1 !! x) as [w1|]; [|done]. simpl.
  destruct (if truthy (dl_prev w1) then _ else _) as [h2|]; [|done]. simpl. destruct (h2 !! x) as [w2|]; [|done]. simpl.
  destruct (hd =? x); simpl; by destruct (tl =? x).
Qed.

Lemma link_tail_count h l x n :
  link_tail h (l <| dl_nNodes := n |>) x = (λ p, (p.1, p.2 <| dl_nNodes := n |>)) <$> link_tail h l x.
Proof.
  unfold link_tail, opt_when. destruct l as [hd tl k]. simpl.
  destruct (if truthy tl then _ else _) as [h1|]; [|done]. simpl. destruct (truthy hd); simpl; by destruct (set_prev _ _ _).
Qed.

Section arith.
Context (A : Z) (k : nat) (HA : A = 2 ^ Z.of_nat k) (Hk : (k < 32)%nat).
Set Default Proof Using "All".

Lemma A_range : 0 < A < 2 ^ 32.
Proof.
  rewrite HA. split; [apply Z.pow_pos_nonneg; lia|]. apply Z.pow_lt_mono_r; lia.
Qed.

Lemma A_popcount : popcount32 A = 1.
Proof.
  rewrite HA. revert Hk. clear HA. intros Hk.
  assert (∀ j, (j < 32)%nat → popcount32 (2 ^ Z.of_nat j) = 1) as Hall; [|by apply Hall].
  intros j Hj. assert (forallb (λ i, popcount32 (2 ^ Z.of_nat i) =? 1) (seq 0 32) = true) as Hf by (vm_compute; reflexivity).
  rewrite forallb_forall in Hf. apply Z.eqb_eq, Hf, in_seq. lia.
Qed.

Lemma round_pages_spec n :
  0 < n → n <= round_pages n A < n + A ∧ round_pages n A mod A = 0.
Proof.
  intros Hn. pose proof A_range. unfold round_pages. pose proof (Z.mod_pos_bound n A ltac:(lia)).
  pose proof (Z.div_mod n A ltac:(lia)). destruct (truthy (n mod A)) eqn:E.
  - apply truthy_true in E. split; [lia|]. replace (n + (A - n mod A)) with ((n / A + 1) * A) by lia. apply Z.mod_mul. lia.
  - apply truthy_false in E. split; [lia|done].
Qed.

Lemma sufficient_eq s x n nP :
  pg_nPages s !! x = Some n → 0 <= x < 2 ^ 64 → 0 <= n < 2 ^ 52 → 0 <= nP < 2 ^ 62 →
  IsRegionSufficient x nP (wrap64 (A * PG - 1)) s = Ret (required nP A x n <=? n, required nP A x n) s.
Proof.
  intros Hn Hx Hnr HnP. pose proof A_range as HAr. unfold IsRegionSufficient, get_nPages.
  erewrite bind_Ret by (by apply load_eq). unfold PG.
  rewrite (wrap_small 64 (A * 4096 - 1)) by (unfold in_u; lia).
  replace (A * 4096 - 1 + 1) with (A * 4096) by lia. rewrite (wrap_small 64 (A * 4096)) by (unfold in_u; lia).
  rewrite Z.div_mul by lia. rewrite (wrap_small 64 (A - 1)) by (unfold in_u; lia).
  assert (Z.land n (A - 1) = n mod A) as ->.
  { rewrite HA, <- Z.land_ones by lia. f_equal. rewrite Z.ones_equiv. lia. }
  assert (Z.land x (A * 4096 - 1) = x mod (A * 4096)) as ->.
  { replace (A * 4096) with (2 ^ (Z.of_nat k + 12)) by (rewrite HA, Z.pow_add_r by lia; lia).
    rewrite <- Z.land_ones by lia. f_equal. rewrite Z.ones_equiv. lia. }
  pose proof (Z.mod_pos_bound n A ltac:(lia)). pose proof (Z.mod_pos_bound x (A * 4096) ltac:(lia)).
  assert (0 <= x mod (A * 4096) / 4096 < A) by (split; [apply Z.div_pos; lia|apply Z.div_lt_upper_bound; lia]).
  rewrite (wrap_small 64 (nP + n mod A)) by (unfold in_u; lia).
  rewrite wrap_small by (unfold in_u; lia). done.
Qed.

(** The address the allocator computes is aligned and has room behind it. *)
Lemma carve_aligned x n nP :
  x mod PG = 0 → nP mod A = 0 → 0 < nP → 0 <= n → required nP A x n <= n →
  let phys := x + (n - required nP A x n) * PG in
  phys mod (A * PG) = 0 ∧ x <= phys ∧ phys + nP * PG <= x + n * PG.
Proof.
  intros Hx HnP H0 Hn Hreq phys. pose proof A_range as HAr. unfold PG in *.
  pose proof (Z.mod_pos_bound n A ltac:(lia)). pose proof (Z.mod_pos_bound x (A * 4096) ltac:(lia)).
  pose proof (Z.div_mod n A ltac:(lia)). pose proof (Z.div_mod x (A * 4096) ltac:(lia)).
  pose proof (Z.div_mod nP A ltac:(lia)).
  assert (x mod (A * 4096) / 4096 * 4096 = x mod (A * 4096)) as Hm.
  { rewrite Z.mul_comm. symmetry. apply Z.div_exact; [lia|].
    pose proof (Z.div_mod x 4096 ltac:(lia)). rewrite Hx in *.
    replace (A * 4096) with (4096 * A) by lia. rewrite Z.rem_mul_r by lia. rewrite Hx, Z.add_0_l.
    rewrite Z.mul_comm. apply Z.mod_mul. lia. }
  assert (0 <= x mod (A * 4096) / 4096) by (apply Z.div_pos; lia).
  assert (phys = (x / (A * 4096) + n / A - nP / A) * (A * 4096)) as Hphys.
  { unfold phys, required. unfold PG. rewrite !Z.mul_sub_distr_r, !Z.mul_add_distr_r, Hm. nia. }
  split; [rewrite Hphys; apply Z.mod_mul; lia|]. unfold phys, required in *. unfold PG in *. split; [nia|]. nia.
Qed.

(** The search finds a region that suffices if there is one. *)
Lemma find_region_eq s p xs nP fuel :
  seg (pg_links s) p xs 0 → 0 ∉ xs → 0 <= nP < 2 ^ 62 → (length xs <= fuel)%nat →
  (∀ x, x ∈ xs → ∃ n, pg_nPages s !! x = Some n ∧ 0 <= x < 2 ^ 64 ∧ 0 <= n < 2 ^ 52) →
  (∃ l1 x l2 n, xs = l1 ++ x :: l2 ∧ pg_nPages s !! x = Some n ∧ required nP A x n <= n ∧
     find_region fuel (default 0 (head xs)) nP (wrap64 (A * PG - 1)) s = Ret (x, required nP A x n) s) ∨
  (find_region fuel (default 0 (head xs)) nP (wrap64 (A * PG - 1)) s = Ret (nullptr, 0) s ∧
     ∀ x n, x ∈ xs → pg_nPages s !! x = Some n → n < required nP A x n).
Proof.
  intros Hs H0 HnP. revert p fuel Hs H0. induction xs as [|x xs IH]; intros p fuel Hs H0 Hf Hx.
  - right. split; [by destruct fuel|]. set_solver.
  - destruct Hs as [Hl Hs]. destruct (Hx x) as (n & Hn & Hxr & Hnr); [set_solver|].
    assert (x ≠ 0) as Hx0 by set_solver. pose proof (sufficient_eq s x n nP Hn Hxr Hnr HnP) as Hsuf.
    change (default 0 (head (x :: xs))) with x.
    destruct (Z.leb_spec (required nP A x n) n) as [Hle|Hgt].
    + left. exists [], x, xs, n. split; [done|]. split; [done|]. split; [done|].
      destruct fuel; cbn [find_region]; rewrite (proj2 (truthy_true x)) by done; cbn [negb];
        (erewrite bind_Ret by exact Hsuf); done.
    + destruct fuel as [|fuel]; [simpl in Hf; lia|]. simpl in Hf.
      assert (find_region (S fuel) x nP (wrap64 (A * PG - 1)) s =
        find_region fuel (default 0 (head xs)) nP (wrap64 (A * PG - 1)) s) as ->.
      { cbn [find_region]. rewrite (proj2 (truthy_true x)) by done. cbn [negb]. erewrite bind_Ret by exact Hsuf. cbn [fst].
        by erewrite bind_Ret by (by apply load_eq). }
      destruct (IH x fuel Hs) as [(l1 & y & l2 & m & -> & Hm & Hreq & E)|[E Hall]]; [set_solver|lia|set_solver|..].
      * left. by exists (x :: l1), y, l2, m.
      * right. split; [done|]. intros y m [->|Hy]%elem_of_cons Hm; [|by eauto]. rewrite Hn in Hm. injection Hm as <-. done.
Qed.

End arith.

Lemma list_of_set r l s : list_of r (set_list_of r l s) = l.
Proof. by destruct r. Qed.
Lemma set_list_of_other r l s :
  pg_links (set_list_of r l s) = pg_links s ∧ pg_nPages (set_list_of r l s) = pg_nPages s ∧
  mk (set_list_of r l s) = mk s ∧ Mm_PhysicalMemoryBoundaries (set_list_of r l s) = Mm_PhysicalMemoryBoundaries s.
Proof. by destruct r. Qed.

Section alloc.
Context {DH : DpcHandlers}.
Set Default Proof Using "Type".

(** Only the list [r] and the nodes [ps] change. *)
Record pmm_frame (s s' : mst) (r : region) (ps : list Z) : Prop := {
  pf_other r' : r' ≠ r → list_of r' s' = list_of r' s;
  pf_bound : Mm_PhysicalMemoryBoundaries s' = Mm_PhysicalMemoryBoundaries s;
  pf_links y : y ∉ ps → pg_links s' !! y = pg_links s !! y;
  pf_nPages y : y ∉ ps → pg_nPages s' !! y = pg_nPages s !! y;
  pf_dom_links : dom (pg_links s') = dom (pg_links s);
  pf_dom_nPages : dom (pg_nPages s') = dom (pg_nPages s)
}.

Lemma dom_insert_same {A} (m : gmap Z A) x v : is_Some (m !! x) → dom (<[x := v]> m) = dom m.
Proof. intros Hx. rewrite dom_insert_L. apply elem_of_dom in Hx. set_solver. Qed.

(** Taking the last [req] pages of a region, which stays in the list unless it
    becomes empty. *)
Definition carved (s s' : mst) (r : region) (xs xs' : list Z) (x n req : Z) : Prop :=
  fl_inv s' r xs' ∧ mk s' = mk s ∧
  (∀ a, free_in s' xs' a ↔ free_in s xs a ∧ ¬ (x + (n - req) * PG <= a < x + n * PG)) ∧ pmm_frame s s' r xs.

Lemma carve_part s r xs x n req :
  fl_inv s r xs → x ∈ xs → pg_nPages s !! x = Some n → 0 < req < n →
  ∀ u, carved s (s <| pg_nPages ::= <[x := n - req]> |> <| Mm_TotalPhysicalPagesUsed := u |>) r xs xs x n req.
Proof.
  intros Hinv Hx Hn Hreq u. pose proof Hinv as [Hrep Hnode Hdisj Hb]. unfold PG in *.
  assert (∀ y m, y ∈ xs → <[x := n - req]> (pg_nPages s) !! y = Some m → ∃ m', pg_nPages s !! y = Some m' ∧ m <= m' ∧ (y = x → m = n - req)) as Hle.
  { intros y m Hy. destruct (decide (y = x)) as [->|Hne].
    - rewrite lookup_insert_eq. intros [= <-]. exists n. split; [done|]. split; [lia|done].
    - rewrite lookup_insert_ne by done. intros Hm. exists m. split; [done|]. split; [lia|done]. }
  split; [split|split; [done|split]]; simpl.
  - by destruct r.
  - intros y Hy. destruct (Hnode y Hy) as (m & Hm & ?). destruct (decide (y = x)) as [->|Hne].
    + rewrite lookup_insert_eq. rewrite Hn in Hm. injection Hm as <-. exists (n - req). split; [done|]. unfold PG in *. lia.
    + rewrite lookup_insert_ne by done. eauto.
  - intros y z m k Hy Hz Hne Hm Hk. destruct (Hle _ _ Hy Hm) as (m' & Hm' & ? & _). destruct (Hle _ _ Hz Hk) as (k' & Hk' & ? & _).
    unfold PG in *. destruct (Hdisj y z m' k' Hy Hz Hne Hm' Hk'); lia.
  - done.
  - intros a. split.
    + intros (y & m & Hy & Hm & Ha). destruct (Hle _ _ Hy Hm) as (m' & Hm' & Hmm & Hyx). unfold PG in *. split.
      * exists y, m'. split; [done|]. split; [done|]. unfold PG. lia.
      * intros Ha2. destruct (decide (y = x)) as [->|Hne]; [specialize (Hyx eq_refl); lia|].
        destruct (Hdisj y x m' n Hy Hx Hne Hm' Hn); lia.
    + intros [(y & m & Hy & Hm & Ha) Hna]. unfold PG in *. destruct (decide (y = x)) as [->|Hne].
      * exists x, (n - req). rewrite Hn in Hm. injection Hm as <-. split; [done|]. split; [apply lookup_insert_eq|]. unfold PG. lia.
      * exists y, m. split; [done|]. split; [simpl; by rewrite lookup_insert_ne|]. done.
  - split; try done; simpl.
    + intros y Hy. apply lookup_insert_ne. intros <-. done.
    + by apply dom_insert_same.
Qed.

Lemma carve_all s r l1 x l2 n h l u c :
  fl_inv s r (l1 ++ x :: l2) → pg_nPages s !! x = Some n →
  unlink (pg_links s) (mkList (fl_head (list_of r s)) (fl_tail (list_of r s)) 0) x = Some (h, l) →
  carved s ((set_list_of r (mkFlist (dl_head l) (dl_tail l)) (s <| pg_links := h |>))
      <| pg_nPages ::= <[x := 0]> |> <| pg_links ::= <[x := unlinked]> |>
      <| Mm_TotalPhysicalPagesUsed := u |> <| s_nNodes := c |>) r (l1 ++ x :: l2) (l1 ++ l2) x n n.
Proof.
  intros Hinv Hn Hun. pose proof Hinv as [Hrep Hnode Hdisj Hb].
  destruct (unlink_spec _ _ _ _ _ Hrep) as (h' & l' & Hun' & Hrep' & _ & Hxl & Hlf & Hldom).
  rewrite (unlink_count _ (mkList (fl_head (list_of r s)) (fl_tail (list_of r s)) (Z.of_nat (length (l1 ++ x :: l2)))) x 0) in Hun.
  rewrite Hun' in Hun. simpl in Hun. injection Hun as <- <-. cbn [dl_head dl_tail].
  assert (x ∉ l1 ++ l2) as Hxn.
  { pose proof (rep_nodup _ _ _ Hrep) as (Hn1 & Hd & [Hx2 Hn2]%NoDup_cons)%NoDup_app. set_solver. }
  assert (∀ y, y ∈ l1 ++ l2 → y ∈ l1 ++ x :: l2 ∧ y ≠ x) as Hin by set_solver.
  destruct (set_list_of_other r (mkFlist (dl_head l') (dl_tail l')) (s <| pg_links := h' |>)) as (E1 & E2 & E3 & E4).
  simpl in E1, E2, E3, E4.
  split; [split|split; [|split]].
  - assert (list_of r ((set_list_of r (mkFlist (dl_head l') (dl_tail l')) (s <| pg_links := h' |>))
      <| pg_nPages ::= <[x := 0]> |> <| pg_links ::= <[x := unlinked]> |>
      <| Mm_TotalPhysicalPagesUsed := u |> <| s_nNodes := c |>) = mkFlist (dl_head l') (dl_tail l')) as -> by by destruct r.
    simpl. rewrite E1. eapply dl_rep_frame; [|]. 2: { simpl in Hrep'.
      replace (Z.of_nat (length (l1 ++ l2))) with (Z.of_nat (length (l1 ++ x :: l2)) - 1) by (rewrite !length_app; simpl; lia). exact Hrep'. }
    intros y Hy. rewrite lookup_insert_ne; [done|]. intros <-. done.
  - intros y Hy. destruct (Hin y Hy) as [Hy' Hne]. simpl. rewrite E2, E4, lookup_insert_ne by done. by apply Hnode.
  - simpl. rewrite E2. intros y z m k Hy Hz Hne. destruct (Hin y Hy), (Hin z Hz).
    rewrite !lookup_insert_ne by done. by apply Hdisj.
  - simpl. by rewrite E4.
  - done.
  - intros a. split.
    + intros (y & m & Hy & Hm & Ha). destruct (Hin y Hy) as [Hy' Hne]. simpl in Hm. rewrite E2, lookup_insert_ne in Hm by done.
      split; [by exists y, m|]. intros Ha2. destruct (Hdisj y x m n Hy') as [H|H]; try done; [set_solver|..]; unfold PG in *; lia.
    + intros [(y & m & Hy & Hm & Ha) Hna]. assert (y ≠ x) as Hne by (intros ->; rewrite Hn in Hm; injection Hm as <-; lia).
      exists y, m. split; [set_solver|]. split; [|done]. simpl. by rewrite E2, lookup_insert_ne.
  - split; simpl; rewrite ?E1, ?E2, ?E4; try done.
    + intros r' Hr'. destruct r, r'; (done || by destruct Hr').
    + intros y Hy. rewrite lookup_insert_ne by set_solver. apply Hlf. set_solver.
    + intros y Hy. apply lookup_insert_ne. set_solver.
    + rewrite dom_insert_same by (by rewrite Hxl). done.
    + apply dom_insert_same. by rewrite Hn.
Qed.

(** The allocator's precondition on the machine: it may be called at any level
    up to [IRQL_DISPATCH] with the lock free. *)
Definition pmm_ready (s : mst) (v : Z) : Prop := quiet (irq (mk s)) v ∧ lock_free (irq (mk s)) PmmLock.

(** The state with the lock held. *)
Definition locked_st (s : mst) : mst := s <| mk ::= λ k, k <| irq ::= λ i, nthr_up i PmmLock |> |>.

Lemma pmm_acquire s v :
  pmm_ready s v →
  kern (Core_SpinlockAcquireExplicit (Some PmmLock) IRQL_DISPATCH true) s = Ret (acq_irql v) (locked_st s).
Proof. intros [Hq Hl]. by erewrite kern_Ret by (by apply acquire_nthr_up). Qed.

(** Releasing the lock in a state that differs outside the kernel core. *)
Lemma pmm_release s v t :
  pmm_ready s v → mk t = mk (locked_st s) →
  kern (Core_SpinlockRelease PmmLock (acq_irql v)) t = Ret OBOS_STATUS_SUCCESS (t <| mk := mk s |>).
Proof.
  intros [Hq Hl] Ht. erewrite kern_Ret.
  2: { apply (release_nthr_up _ (irq (mk s)) v); [done|done|]. by rewrite Ht. }
  f_equal. rewrite Ht. simpl. by destruct s as [[] ? ? ? ? ? ? ? ? ?].
Qed.

Lemma fl_inv_mk s r xs k : fl_inv s r xs → fl_inv (s <| mk := k |>) r xs.
Proof. intros [? ? ? ?]. split; by destruct r. Qed.

Lemma fl_inv_small s r xs x :
  fl_inv s r xs → x ∈ xs → ∃ n, pg_nPages s !! x = Some n ∧ 0 <= x < 2 ^ 64 ∧ 0 <= n < 2 ^ 52.
Proof. intros [_ Hn _ Hb] Hx. destruct (Hn x Hx) as (n & Hp & ?). exists n. unfold PG in *. split; [done|]. lia. Qed.

Lemma set_nPages_eq x v s : is_Some (pg_nPages s !! x) → set_nPages x v s = Ret () (s <| pg_nPages ::= <[x := v]> |>).
Proof. intros [n Hn]. exact (store_eq pg_nPages (λ m s, s <| pg_nPages := m |>) x (λ _, v) s n Hn). Qed.

Lemma zero_links_eq x s :
  is_Some (pg_links s !! x) →
  store pg_links (λ m s, s <| pg_links := m |>) x (λ _, unlinked) s = Ret () (s <| pg_links ::= <[x := unlinked]> |>).
Proof. intros [n Hn]. exact (store_eq pg_links (λ m s, s <| pg_links := m |>) x (λ _, unlinked) s n Hn). Qed.

(** What happens once a sufficient region is found. *)
Lemma allocate_take s v r l1 x l2 n req status :
  pmm_ready s v → fl_inv s r (l1 ++ x :: l2) → pg_nPages s !! x = Some n → 0 < req <= n →
  let xs := l1 ++ x :: l2 in
  let phys := x + (n - req) * PG in
  ∃ s' xs', (n ← get_nPages x;
    OBOS_ASSERT (req <=? n);;
    set_nPages x (n - req);;
    modify (λ s, s <| Mm_TotalPhysicalPagesUsed ::= λ u, wrap64 (u + req) |>);;
    n ← get_nPages x;
    when (negb (truthy n)) (
      flist_op r (λ h l, unlink h l x);;
      modify (λ s, s <| s_nNodes ::= λ n, wrap64 (n - 1) |>));;
    let phys := wrap64 (x + wrap64 (n * OBOS_PAGE_SIZE)) in
    when (negb (truthy n)) (
      set_nPages x 0;;
      store pg_links (λ m s, s <| pg_links := m |>) x (λ _, unlinked));;
    kern (Core_SpinlockRelease PmmLock (acq_irql v));;
    OBOS_ASSERT (truthy phys);;
    b ← gets Mm_PhysicalMemoryBoundaries;
    OBOS_ASSERT (phys <? b);;
    mret (phys, put_status status OBOS_STATUS_SUCCESS)) (locked_st s) = Ret (phys, put_status status OBOS_STATUS_SUCCESS) s' ∧
  carved s s' r xs xs' x n req.
Proof.
  intros Hr Hinv Hn Hreq xs phys. pose proof Hinv as [Hrep Hnode Hdisj Hb].
  destruct (Hnode x) as (n' & Hn' & H0n & H0x & Hxal & Hxb); [set_solver|]. rewrite Hn in Hn'. injection Hn' as <-.
  unfold get_nPages. erewrite bind_Ret by (by apply load_eq).
  erewrite bind_Ret by (apply assert_eq, Z.leb_le; lia).
  erewrite bind_Ret by (apply set_nPages_eq; by eexists). erewrite bind_Ret by apply modify_eq.
  pose (u := wrap64 (Mm_TotalPhysicalPagesUsed s + req)). erewrite bind_Ret by (apply load_eq; apply lookup_insert_eq).
  assert (wrap64 (x + wrap64 ((n - req) * PG)) = phys) as Hphys.
  { unfold phys, PG in *. by rewrite !wrap_small by (unfold in_u; rewrite ?wrap_small by (unfold in_u; lia); lia). }
  assert (0 < phys < Mm_PhysicalMemoryBoundaries s) as Hpr by (unfold phys, PG in *; lia).
  assert (∀ t : mst, mk t = mk (locked_st s) → Mm_PhysicalMemoryBoundaries t = Mm_PhysicalMemoryBoundaries s →
    (kern (Core_SpinlockRelease PmmLock (acq_irql v));;
     OBOS_ASSERT (truthy phys);;
     b ← gets Mm_PhysicalMemoryBoundaries;
     OBOS_ASSERT (phys <? b);;
     mret (phys, put_status status OBOS_STATUS_SUCCESS)) t = Ret (phys, put_status status OBOS_STATUS_SUCCESS) (t <| mk := mk s |>)) as Hend.
  { intros t Ht Htb. erewrite bind_Ret by (by apply pmm_release). erewrite bind_Ret by (apply assert_eq, truthy_true; lia).
    erewrite bind_Ret by apply gets_eq. erewrite bind_Ret; [done|]. apply assert_eq, Z.ltb_lt. simpl. rewrite Htb. lia. }
  destruct (decide (req = n)) as [->|Hne].
  - rewrite Z.sub_diag in *. change (negb (truthy 0)) with true. unfold when.
    destruct (unlink_spec _ _ _ _ _ Hrep) as (h & l & Hun & _ & _ & Hxl & _).
    assert (unlink (pg_links s) (mkList (fl_head (list_of r s)) (fl_tail (list_of r s)) 0) x = Some (h, l <| dl_nNodes := 0 |>)) as Hun0.
    { rewrite (unlink_count _ (mkList (fl_head (list_of r s)) (fl_tail (list_of r s)) (Z.of_nat (length (l1 ++ x :: l2)))) x 0).
      by rewrite Hun. }
    eexists _, (l1 ++ l2). split.
    + erewrite bind_Ret.
      2: { erewrite bind_Ret.
           2: { unfold flist_op. erewrite bind_Ret by apply gets_eq. erewrite bind_Ret by apply gets_eq.
                erewrite bind_Ret; [apply modify_eq|]. apply deref_opt_eq.
                replace (list_of r _) with (list_of r s) by (by destruct r). exact Hun0. }
           apply modify_eq. }
      cbv zeta. rewrite Hphys. erewrite bind_Ret.
      2: { erewrite bind_Ret.
           2: { apply set_nPages_eq. destruct r; simpl; rewrite lookup_insert_eq; eauto. }
           apply zero_links_eq. destruct r; simpl; eauto. }
      apply Hend; by destruct r.
    + pose proof (carve_all s r l1 x l2 n h (l <| dl_nNodes := 0 |>) u (wrap64 (s_nNodes s - 1)) Hinv Hn Hun0) as Hc.
      refine (eq_ind _ (λ t, carved s t r _ _ x n n) Hc _ _).
      destruct r; simpl; unfold set_field; simpl; rewrite insert_insert_eq; done.
  - rewrite (proj2 (truthy_true (n - req))) by lia. cbn [negb when].
    eexists _, xs. split.
    + do 2 erewrite bind_Ret by reflexivity. rewrite Hphys. apply Hend; done.
    + refine (eq_ind _ (λ t, carved s t r _ _ x n req) (carve_part s r xs x n req Hinv ltac:(set_solver) Hn ltac:(lia) u) _ _).
      by destruct s.
Qed.

(** Allocation from one of the lists, whether or not the caller wants a status. *)
Lemma allocate_ok s v r xs nPages A k status :
  pmm_ready s v → fl_inv s r xs → A = 2 ^ Z.of_nat k → (k < 32)%nat → 0 < nPages < 2 ^ 61 →
  let n' := round_pages nPages A in
  (∃ phys s' xs' x n, allocate nPages A status r s = Ret (phys, put_status status OBOS_STATUS_SUCCESS) s' ∧
     carved s s' r xs xs' x n (required n' A x n) ∧ phys = x + (n - required n' A x n) * PG ∧
     x ∈ xs ∧ pg_nPages s !! x = Some n ∧ required n' A x n <= n ∧
     0 < phys ∧ phys mod (A * PG) = 0 ∧ nPages <= n' ∧ n' <= required n' A x n) ∨
  (allocate nPages A status r s = Ret (0, put_status status OBOS_STATUS_NOT_ENOUGH_MEMORY) s ∧
     ∀ x n, x ∈ xs → pg_nPages s !! x = Some n → n < required n' A x n).
Proof.
  intros Hr Hinv HA Hk Hn n'. pose proof (A_range A k HA Hk) as HAr.
  pose proof (round_pages_spec A k HA Hk nPages ltac:(lia)) as [Hn'1 Hn'2]. fold n' in Hn'1, Hn'2.
  pose proof Hinv as [Hrep Hnode Hdisj Hb]. pose proof (rep_head _ _ _ Hrep) as Hhd. simpl in Hhd.
  unfold allocate. rewrite (proj2 (truthy_true nPages)), (proj2 (truthy_true A)), (A_popcount A k HA Hk) by lia. cbn [negb Z.ltb].
  change (1 <? 1) with false. cbv iota. rewrite (bind_Ret _ _ _ _ _ (gets_eq _ _)), Hhd.
  destruct xs as [|x0 xs0].
  { right. split; [done|]. set_solver. }
  set (xs := x0 :: xs0) in *. assert (default 0 (head xs) ≠ 0) as Hh0.
  { simpl. intros E. apply (rep_nonnull _ _ _ Hrep). subst xs. rewrite E. set_solver. }
  rewrite (proj2 (truthy_true _)) by done. cbn [negb].
  assert ((if truthy (nPages mod A) then wrap64 (nPages + (A - nPages mod A)) else nPages) = n') as ->.
  { unfold n', round_pages. pose proof (Z.mod_pos_bound nPages A ltac:(lia)). destruct (truthy _); [|done].
    apply wrap_small. unfold in_u. lia. }
  cbv zeta. rewrite (bind_Ret _ _ _ _ _ (pmm_acquire s v Hr)).
  rewrite (bind_Ret _ _ _ _ _ (gets_eq _ _)), (bind_Ret _ _ _ _ _ (gets_eq _ _)).
  replace (list_of r (locked_st s)) with (list_of r s) by (by destruct r). rewrite Hhd.
  destruct (find_region_eq A k HA Hk (locked_st s) 0 xs n' (size (pg_links s))) as
    [(l1 & x & l2 & n & Exs & Hx & Hreq & E)|[E Hall]].
  { exact (rep_seg _ _ _ Hrep). }
  { exact (rep_nonnull _ _ _ Hrep). }
  { lia. }
  { exact (seg_size _ _ _ _ (rep_seg _ _ _ Hrep) (rep_nodup _ _ _ Hrep)). }
  { intros y Hy. exact (fl_inv_small _ _ _ _ Hinv Hy). }
  - left. rewrite (bind_Ret _ _ _ _ _ E). cbn [fst snd].
    destruct (Hnode x) as (n0 & Hn0 & H0n & H0x & Hxal & Hxb); [rewrite Exs; set_solver|].
    change (pg_nPages (locked_st s)) with (pg_nPages s) in Hx. rewrite Hx in Hn0. injection Hn0 as <-.
    rewrite (proj2 (truthy_true x)) by lia. cbn [negb].
    assert (0 < required n' A x n) as Hr0.
    { unfold required. pose proof (Z.mod_pos_bound n A ltac:(lia)).
      pose proof (Z.mod_pos_bound x (A * PG) ltac:(unfold PG; lia)).
      pose proof (Z.div_pos (x mod (A * PG)) PG ltac:(lia) ltac:(unfold PG; lia)). lia. }
    destruct (carve_aligned A k HA Hk x n n' Hxal Hn'2 ltac:(lia) ltac:(lia) Hreq) as (Hal & Hge & Hroom).
    rewrite Exs in Hinv. destruct (allocate_take s v r l1 x l2 n (required n' A x n) status Hr Hinv Hx ltac:(lia))
      as (s' & xs' & Erun & Hcarved). cbv zeta in Erun. rewrite <- Exs in *.
    eexists _, s', xs', x, n. split; [exact Erun|]. split; [done|]. split; [done|]. split; [rewrite Exs; set_solver|].
    split; [done|]. split; [done|]. split; [lia|]. split; [done|]. split; [lia|]. unfold required.
    pose proof (Z.mod_pos_bound n A ltac:(lia)). pose proof (Z.mod_pos_bound x (A * PG) ltac:(unfold PG; lia)).
    pose proof (Z.div_pos (x mod (A * PG)) PG ltac:(lia) ltac:(unfold PG; lia)). lia.
  - right. split; [|exact Hall]. rewrite (bind_Ret _ _ _ _ _ E). cbn [fst]. change (negb (truthy 0)) with true. cbv iota.
    erewrite bind_Ret by (by apply pmm_release). unfold mret, K_ret. f_equal. by destruct s as [[] ? ? ? ? ? ? ? ? ?].
Qed.

(** [C3] Allocating [nPages] pages with an alignment of [A = 2^k] pages either gives
    an address, aligned to [A] pages, of a run of at least that many pages that
    were all free and are not free any more, while no other page becomes free
    and the list stays well formed; or there is no region that is large enough
    once the alignment is allowed for, and nothing changes.  Either way the lock
    is free again and the interrupt level is what it was. *)
Theorem pmm_allocate_correct s v r xs nPages A k st :
  pmm_ready s v → fl_inv s r xs → A = 2 ^ Z.of_nat k → (k < 32)%nat → 0 < nPages < 2 ^ 61 →
  let n' := round_pages nPages A in
  (∃ phys s' xs', allocate nPages A (Some st) r s = Ret (phys, Some OBOS_STATUS_SUCCESS) s' ∧
     mk s' = mk s ∧ fl_inv s' r xs' ∧ 0 < phys ∧ phys mod (A * PG) = 0 ∧ nPages <= n' ∧
     (∀ a, phys <= a < phys + n' * PG → free_in s xs a ∧ ¬ free_in s' xs' a) ∧
     (∀ a, free_in s' xs' a → free_in s xs a)) ∨
  (allocate nPages A (Some st) r s = Ret (0, Some OBOS_STATUS_NOT_ENOUGH_MEMORY) s ∧
     ∀ x n, x ∈ xs → pg_nPages s !! x = Some n → n < required n' A x n).
Proof.
  intros Hr Hinv HA Hk Hn n'. destruct (allocate_ok s v r xs nPages A k (Some st) Hr Hinv HA Hk Hn)
    as [(phys & s' & xs' & x & n & E & (Hinv' & Hmk & Hfree & _) & Hphys & Hx & Hxn & Hle & H0 & Hal & Hge & Hreq)|?]; [left|by right].
  fold n' in Hle, Hge, Hreq, Hphys, Hfree. exists phys, s', xs'. do 6 (split; [done|]). split; [|intros a Ha; by apply Hfree].
  intros a Ha. split; [exists x, n; split; [done|]; split; [done|]; unfold PG in *; nia|]. intros Hf. apply Hfree in Hf as [_ Hf]. apply Hf.
  pose proof (fi_node _ _ _ Hinv x Hx) as (m & Hm & _). unfold PG in *. lia.
Qed.

(** ** Freeing *)

(** The run of [n] pages at [addr] can be freed: it is aligned, within the
    boundaries, and no part of it is free. *)
Record freeable (s : mst) (xs : list Z) (addr n : Z) : Prop := {
  fr_pos : 0 < addr;
  fr_n : 0 < n;
  fr_align : addr mod PG = 0;
  fr_bound : addr + n * PG <= Mm_PhysicalMemoryBoundaries s;
  fr_used a : addr <= a < addr + n * PG → ¬ free_in s xs a;
  fr_page : is_Some (pg_nPages s !! addr)
}.

Lemma pmm_free_eq s v r xs addr n lk :
  pmm_ready s v → fl_inv s r xs → freeable s xs addr n → pg_links s !! addr = Some lk → dl_next lk = 0 →
  ∃ s', pmm_free addr n r s = Ret OBOS_STATUS_SUCCESS s' ∧ mk s' = mk s ∧ fl_inv s' r (xs ++ [addr]) ∧
    (∀ a, free_in s' (xs ++ [addr]) a ↔ free_in s xs a ∨ addr <= a < addr + n * PG) ∧ pmm_frame s s' r (addr :: xs).
Proof.
  intros Hr Hinv [H0 Hn Hal Hbd Hus Hpg] Hlk Hnx. pose proof Hinv as [Hrep Hnode Hdisj Hb].
  assert (addr ∉ xs) as Hnin.
  { intros Hin. destruct (Hnode addr Hin) as (m & Hm & Hm0 & _). apply (Hus addr); [unfold PG; lia|].
    exists addr, m. split; [done|]. split; [done|]. unfold PG. lia. }
  destruct (link_tail_spec _ _ _ addr lk Hrep Hnin ltac:(lia) Hlk Hnx) as (h & Hlt & Hseg & Hlf & Hldom).
  assert (link_tail (pg_links s) (mkList (fl_head (list_of r s)) (fl_tail (list_of r s)) 0) addr =
    Some (h, mkList (default addr (head xs)) addr 0)) as Hlt0.
  { rewrite (link_tail_count _ (mkList (fl_head (list_of r s)) (fl_tail (list_of r s)) (Z.of_nat (length xs))) addr 0).
    by rewrite Hlt. }
  pose proof (rep_of_link_tail _ _ _ _ (Z.of_nat (length xs) + 1) _ Hrep Hnin ltac:(lia) Hseg eq_refl) as Hrep'.
  assert (∀ y, y ∈ xs → y ≠ addr) as Hya by (intros y Hy ->; done).
  set (s1 := (set_list_of r (mkFlist (default addr (head xs)) addr) (s <| pg_nPages ::= <[addr := n]> |> <| pg_links := h |>))
    <| s_nNodes := wrap64 (s_nNodes s - 1) |> <| Mm_TotalPhysicalPagesUsed := wrap64 (Mm_TotalPhysicalPagesUsed s - n) |>).
  assert (pg_nPages s1 = <[addr := n]> (pg_nPages s) ∧ pg_links s1 = h ∧ mk s1 = mk s ∧
    Mm_PhysicalMemoryBoundaries s1 = Mm_PhysicalMemoryBoundaries s ∧ list_of r s1 = mkFlist (default addr (head xs)) addr)
    as (E1 & E2 & E3 & E4 & E5) by (unfold s1; by destruct r).
  exists s1. split; [|split; [done|]].
  - unfold pmm_free. rewrite (proj2 (truthy_true n)) by lia. cbn [negb]. rewrite (bind_Ret _ _ _ _ _ (pmm_acquire s v Hr)).
    erewrite bind_Ret by (by apply set_nPages_eq). erewrite bind_Ret.
    2: { unfold flist_op. rewrite (bind_Ret _ _ _ _ _ (gets_eq _ _)), (bind_Ret _ _ _ _ _ (gets_eq _ _)).
         erewrite bind_Ret; [apply modify_eq|]. apply deref_opt_eq.
         replace (list_of r _) with (list_of r s) by (by destruct r). exact Hlt0. }
    do 2 erewrite bind_Ret by apply modify_eq. erewrite bind_Ret by (apply (pmm_release s v); [done|by destruct r]).
    unfold mret, K_ret. f_equal. unfold s1. by destruct s, r.
  - split.
    + split.
      * rewrite E2, E5. rewrite length_app. replace (Z.of_nat _) with (Z.of_nat (length xs) + 1) by (simpl; lia). exact Hrep'.
      * rewrite E1, E4. intros y [Hy| ->%list_elem_of_singleton]%elem_of_app.
        -- rewrite lookup_insert_ne by (intros E; by apply (Hya y)). by apply Hnode.
        -- rewrite lookup_insert_eq. eauto 10.
      * rewrite E1. assert (∀ y m, y ∈ xs → pg_nPages s !! y = Some m → addr + n * PG <= y ∨ y + m * PG <= addr) as Hsep.
        { intros y m Hy Hm. destruct (Hnode y Hy) as (m' & Hm' & Hm0 & _). rewrite Hm in Hm'. injection Hm' as <-.
          destruct (decide (addr + n * PG <= y ∨ y + m * PG <= addr)) as [|Hov]; [done|]. exfalso.
          apply (Hus (Z.max addr y)); [unfold PG in *; lia|]. exists y, m. split; [done|]. split; [done|]. unfold PG in *; lia. }
        intros y z m k [Hy| ->%list_elem_of_singleton]%elem_of_app [Hz| ->%list_elem_of_singleton]%elem_of_app Hne.
        -- rewrite !lookup_insert_ne by (by apply not_eq_sym, Hya). by apply Hdisj.
        -- rewrite lookup_insert_eq, lookup_insert_ne by (by apply not_eq_sym, Hya). intros Hm [= <-]. destruct (Hsep y m Hy Hm); lia.
        -- rewrite lookup_insert_eq, lookup_insert_ne by (by apply not_eq_sym, Hya). intros [= <-] Hk. destruct (Hsep z k Hz Hk); lia.
        -- done.
      * by rewrite E4.
    + split; [|split; [by unfold s1; intros r' Hr'; destruct r, r'; (done || by destruct Hr')|done|by rewrite E2| |by rewrite E2|]].
      2: { intros y Hy. rewrite E1. apply lookup_insert_ne. set_solver. }
      2: { rewrite E1. by apply dom_insert_same. }
      intros a. split.
      * intros (y & m & [Hy| ->%list_elem_of_singleton]%elem_of_app & Hm & Ha); rewrite E1 in Hm.
        -- left. exists y, m. rewrite lookup_insert_ne in Hm by (intros E; by apply (Hya y)). done.
        -- right. rewrite lookup_insert_eq in Hm. by injection Hm as <-.
      * intros [(y & m & Hy & Hm & Ha)|Ha].
        -- exists y, m. rewrite E1, lookup_insert_ne by (intros E; by apply (Hya y)). split; [set_solver|done].
        -- exists addr, n. rewrite E1, lookup_insert_eq. split; [set_solver|done].
Qed.

(** The list a run at [addr] belongs to. *)
Definition region_of (addr : Z) : region := if addr <? 0xffffffff then Low32 else High.

(** Freeing a run that does not reach over the boundary at 4 GiB. *)
Lemma free_pages_ok s v xs addr n lk :
  pmm_ready s v → fl_inv s (region_of addr) xs → freeable s xs addr n →
  (addr < 0xffffffff → addr + n * PG < 0xffffffff) →
  pg_links s !! addr = Some lk → dl_next lk = 0 →
  (∃ d, lists (sch (mk s)) !! Mm_ThreadsAwaitingPhysicalMemory = Some d ∧ dl_head d = 0) →
  ∃ s', Mm_FreePhysicalPages addr n s = Ret OBOS_STATUS_SUCCESS s' ∧ mk s' = mk s ∧
    fl_inv s' (region_of addr) (xs ++ [addr]) ∧
    (∀ a, free_in s' (xs ++ [addr]) a ↔ free_in s xs a ∨ addr <= a < addr + n * PG) ∧ pmm_frame s s' (region_of addr) (addr :: xs).
Proof.
  intros Hr Hinv Hfr Hlow Hlk Hnx (d & Hd & Hd0).
  destruct (pmm_free_eq _ _ _ _ _ _ _ Hr Hinv Hfr Hlk Hnx) as (s' & E & Hmk & Hres).
  exists s'. split; [|done]. destruct Hfr as [H0 Hn Hal Hbd _ _]. pose proof (fi_bound _ _ _ Hinv) as Hb.
  unfold Mm_FreePhysicalPages. erewrite bind_Ret by (apply assert_eq, truthy_true; lia). rewrite Hal.
  erewrite bind_Ret by (by apply assert_eq). rewrite (bind_Ret _ _ _ _ _ (gets_eq _ _)).
  erewrite bind_Ret by (apply assert_eq, Z.ltb_lt; unfold PG in *; lia). rewrite Z.sub_0_r. cbv zeta.
  rewrite (proj2 (truthy_true addr)) by lia. cbn [negb].
  erewrite (bind_Ret _ _ _ n s').
  2: { unfold region_of in E. destruct (Z.ltb_spec addr 0xffffffff) as [Hlt|Hge].
       - rewrite (wrap_small 64 (n * PG)), (wrap_small 64 (addr + n * PG)) by (unfold in_u, PG in *; lia).
         rewrite (proj2 (Z.leb_gt _ _)) by (apply Hlow; lia). erewrite bind_Ret by reflexivity.
         rewrite (proj2 (truthy_true n)) by lia. unfold when. by erewrite bind_Ret by (by erewrite bind_Ret by exact E).
       - by erewrite bind_Ret by exact E. }
  erewrite bind_Ret; [reflexivity|]. erewrite kern_Ret.
  2: { rewrite Hmk. unfold get_list. erewrite bind_Ret by (apply load_eq; exact Hd).
       rewrite (bind_Ret _ _ _ _ _ (gets_eq _ _)), Hd0. by destruct (_ + 1)%nat. }
  f_equal. rewrite <- Hmk. by destruct s'.
Qed.

(** [C30] Freeing a run of pages that does not reach over the 4 GiB boundary, whose
    first page has a null [next] word, makes exactly these pages free in
    addition, when no thread waits for memory. *)
Theorem pmm_free_correct s v xs addr n lk :
  pmm_ready s v → fl_inv s (region_of addr) xs → freeable s xs addr n →
  (addr < 0xffffffff → addr + n * PG < 0xffffffff) →
  pg_links s !! addr = Some lk → dl_next lk = 0 →
  (∃ d, lists (sch (mk s)) !! Mm_ThreadsAwaitingPhysicalMemory = Some d ∧ dl_head d = 0) →
  ∃ s', Mm_FreePhysicalPages addr n s = Ret OBOS_STATUS_SUCCESS s' ∧ mk s' = mk s ∧
    fl_inv s' (region_of addr) (xs ++ [addr]) ∧
    (∀ a, free_in s' (xs ++ [addr]) a ↔ free_in s xs a ∨ addr <= a < addr + n * PG).
Proof.
  intros Hr Hinv Hfr Hlow Hlk Hnx Hd. destruct (free_pages_ok s v xs addr n lk Hr Hinv Hfr Hlow Hlk Hnx Hd) as (s' & ? & ? & ? & ? & _). eauto.
Qed.

(** A run of pages that begins below 4 GiB and reaches the boundary, or ends
    just there, cannot be freed: the part above is computed as empty and the
    assertion behind it fails. *)
Theorem pmm_free_across_4g s addr n :
  0 < addr < 0xffffffff → addr mod PG = 0 → addr < Mm_PhysicalMemoryBoundaries s →
  0 <= n → 0xffffffff <= addr + n * PG < 2 ^ 64 →
  Mm_FreePhysicalPages addr n s = Stop Panic.
Proof.
  intros Ha Hal Hb Hn Htop. unfold Mm_FreePhysicalPages.
  erewrite bind_Ret by (apply assert_eq, truthy_true; lia). rewrite Hal.
  erewrite bind_Ret by (by apply assert_eq). rewrite (bind_Ret _ _ _ _ _ (gets_eq _ _)).
  erewrite bind_Ret by (apply assert_eq, Z.ltb_lt; lia). rewrite Z.sub_0_r. cbv zeta.
  rewrite (proj2 (truthy_true addr)) by lia. cbn [negb]. apply bind_Stop.
  rewrite (proj2 (Z.ltb_lt _ _)) by lia. apply bind_Stop.
  rewrite (wrap_small 64 (n * PG)), (wrap_small 64 (addr + n * PG)) by (unfold in_u, PG in *; lia).
  rewrite (proj2 (Z.leb_le _ _)) by lia. change (wrap32 (Z.lnot 0xffffffff)) with 0. rewrite Z.land_0_r.
  change (0 / PG) with 0. erewrite bind_Ret by reflexivity. rewrite Z.sub_0_r, (wrap_small 64 n) by (unfold in_u, PG in *; lia).
  apply bind_Stop. rewrite (wrap_small 64 (n * PG)), (wrap_small 64 (addr + n * PG)) by (unfold in_u, PG in *; lia).
  by rewrite (proj2 (Z.ltb_ge _ _)) by lia.
Qed.

(** Freeing does not set the [next] word of the page, so that whatever its last
    user left there becomes part of the list: when the word is the address [w]
    of no page, a later request that the region cannot satisfy follows it. *)
Theorem pmm_free_stale_next s v r addr n lk st :
  pmm_ready s v → fl_inv s r [] → freeable s [] addr n → n < 2 ^ 50 →
  pg_links s !! addr = Some lk → dl_next lk ≠ 0 → pg_nPages s !! dl_next lk = None →
  ∃ s', pmm_free addr n r s = Ret OBOS_STATUS_SUCCESS s' ∧
    allocate (n + 1) 1 (Some st) r s' = Stop BadDeref.
Proof.
  intros Hr [Hrep _ _ Hb] [H0 Hn Hal Hbd _ [n0 Hpg]] Hn50 Hlk Hnx Hw.
  pose proof (rep_head _ _ _ Hrep) as Hhd. pose proof (rep_tail _ _ _ Hrep) as Htl. simpl in Hhd, Htl.
  set (h := <[addr := mkLink (dl_next lk) 0]> (pg_links s)).
  set (s1 := (set_list_of r (mkFlist addr addr) (s <| pg_nPages ::= <[addr := n]> |> <| pg_links := h |>))
    <| s_nNodes := wrap64 (s_nNodes s - 1) |> <| Mm_TotalPhysicalPagesUsed := wrap64 (Mm_TotalPhysicalPagesUsed s - n) |>).
  assert (pg_nPages s1 = <[addr := n]> (pg_nPages s) ∧ pg_links s1 = h ∧ mk s1 = mk s ∧ list_of r s1 = mkFlist addr addr)
    as (E1 & E2 & E3 & E4) by (unfold s1; by destruct r).
  exists s1. split.
  - unfold pmm_free. rewrite (proj2 (truthy_true n)) by lia. cbn [negb]. rewrite (bind_Ret _ _ _ _ _ (pmm_acquire s v Hr)).
    erewrite bind_Ret by (apply set_nPages_eq; by eexists). erewrite bind_Ret.
    2: { unfold flist_op. rewrite (bind_Ret _ _ _ _ _ (gets_eq _ _)), (bind_Ret _ _ _ _ _ (gets_eq _ _)).
         erewrite bind_Ret; [apply modify_eq|]. apply deref_opt_eq.
         replace (list_of r _) with (list_of r s) by (by destruct r). unfold link_tail. rewrite Hhd, Htl. simpl.
         unfold set_prev. simpl. rewrite Hlk. reflexivity. }
    do 2 erewrite bind_Ret by apply modify_eq. erewrite bind_Ret by (apply (pmm_release s v); [done|by destruct r]).
    unfold mret, K_ret. f_equal. unfold s1, h. by destruct s, r.
  - assert (pmm_ready s1 v) as Hr1 by (unfold pmm_ready; by rewrite E3).
    unfold allocate. rewrite (proj2 (truthy_true (n + 1))) by lia. change (truthy 1) with true. cbn [negb].
    change (1 <? popcount32 1) with false. cbv iota zeta. rewrite (bind_Ret _ _ _ _ _ (gets_eq _ _)), E4. cbn [fl_head].
    rewrite (proj2 (truthy_true addr)) by lia. cbn [negb]. rewrite Z.mod_1_r. change (truthy 0) with false. cbv iota.
    rewrite (bind_Ret _ _ _ _ _ (pmm_acquire s1 v Hr1)), (bind_Ret _ _ _ _ _ (gets_eq _ _)), (bind_Ret _ _ _ _ _ (gets_eq _ _)).
    replace (list_of r (locked_st s1)) with (list_of r s1) by (by destruct r). rewrite E4. cbn [fl_head]. apply bind_Stop.
    change (pg_links (locked_st s1)) with (pg_links s1). rewrite E2.
    destruct (size h) as [|f] eqn:Ef.
    { apply map_size_empty_inv in Ef. unfold h in Ef. by apply insert_non_empty in Ef. }
    cbn [find_region]. rewrite (proj2 (truthy_true addr)) by lia. cbn [negb].
    erewrite bind_Ret.
    2: { apply (sufficient_eq 1 0 eq_refl ltac:(lia) (locked_st s1) addr n (n + 1)); [|unfold PG in *; lia..].
         change (pg_nPages (locked_st s1)) with (pg_nPages s1). rewrite E1. apply lookup_insert_eq. }
    cbn [fst]. assert ((required (n + 1) 1 addr n <=? n) = false) as ->.
    { apply Z.leb_gt. unfold required. rewrite Z.mod_1_r. change (1 * PG) with PG. rewrite Hal. change (0 / PG) with 0. lia. }
    cbv iota. erewrite bind_Ret.
    2: { apply load_eq. change (pg_links (locked_st s1)) with (pg_links s1). rewrite E2. apply lookup_insert_eq. }
    cbn [dl_next]. destruct f; cbn [find_region]; rewrite (proj2 (truthy_true (dl_next lk))) by done; cbn [negb];
      apply bind_Stop, bind_Stop; unfold get_nPages, load; change (pg_nPages (locked_st s1)) with (pg_nPages s1);
      rewrite E1, lookup_insert_ne, Hw by (intros E; rewrite <- E in Hw; congruence); done.
Qed.

End alloc.
