(* ===== verification/Gdb.v ===== *)
(** * The connection of the GDB stub ([arch/x86_64/gdbstub/connection.c],
    [packet_dispatcher.c])

    Packets of the remote serial protocol over a pipe driver.  [rx] is what the
    peer has sent and was not read yet, [tx] what the stub has written; reading
    and writing go through the driver's function table, the interface [Pipe].
    Packet buffers are allocated blocks: a list of characters with a capacity. *)

From S2P Require Import Prelude Bytes Hex.

(** ** State *)

(** [packet_handlers]: the handler and its user data by packet name, [None]
    before the table is created. *)
Record gst := mkGst {
  rx : list Z;
  tx : list Z;
  pipe_interface : Z;
  pipe : Z;
  gflags : Z;
  packet_handlers : option (gmap (list Z) (Z * Z))
}.
#[export] Instance eta_gst : Etable gst :=
  λ r, mkGst (rx r) (tx r) (pipe_interface r) (pipe r) (gflags r) (packet_handlers r).

(** [write_sync(pipe, buf, n, 0, nullptr)], and [read_sync(pipe, &ch, 1, 0,
    &nRead)] with the character and [nRead] passed in and out; a call of a
    handler with its arguments, their length and its user data. *)
Class Pipe := {
  pipe_write : list Z → K gst obos_status;
  pipe_read : Z → Z → K gst (obos_status * Z * Z);
  call_handler : Z → list Z → Z → Z → K gst obos_status
}.

Definition FLAGS_ENABLE_ACK : Z := 1.

(** [mod256]: [uint8_t] arithmetic on (signed) characters. *)
Definition mod256 (data : list Z) : Z := foldl (λ c b, wrap8 (c + b)) 0 data.

(** [KdbgH_hex2bin] has the text of [hex2bin]; [checksum] is a local array of
    two characters, the only memory the call may read. *)
Definition KdbgH_hex2bin (str size : Z) : K bmem Z := hex2bin str size.
Definition parse_checksum (c0 c1 : Z) : K gst Z :=
  match KdbgH_hex2bin 0 2 (write_bytes ∅ 0 [c0; c1]) with
  | Ret v _ => mret v
  | _ => stop BadDeref
  end.

(** A buffer: the characters stored, and the capacity. *)
Record buffer := mkBuf { b_data : list Z; b_cap : Z }.

Section ops.
Context {P : Pipe}.

Definition Kdbg_ConnectionInitialize (conn ftable desc : Z) : K gst obos_status :=
  if negb (truthy conn) || negb (truthy ftable) then mret OBOS_STATUS_INVALID_ARGUMENT else
  modify (λ s, s <| pipe_interface := ftable |> <| pipe := desc |>
                 <| gflags ::= λ f, Z.lor f FLAGS_ENABLE_ACK |>);;
  mret OBOS_STATUS_SUCCESS.

Definition Kdbg_ConnectionSetAck (conn : Z) (ack : bool) : K gst obos_status :=
  if negb (truthy conn) then mret OBOS_STATUS_INVALID_ARGUMENT else
  modify (λ s, s <| gflags ::= λ f, if ack then Z.lor f FLAGS_ENABLE_ACK else Z.land f (Z.lnot FLAGS_ENABLE_ACK) |>);;
  mret OBOS_STATUS_SUCCESS.

(** From the label [try_again]: at most 1000 reads; [None] asks for the packet
    to be sent again. *)
Fixpoint await_ack (spins : nat) (ack nRead : Z) : K gst (option obos_status) :=
  r ← pipe_read ack nRead;
  let '(status, ack, nRead) := r in
  match spins with
  | O => mret (Some OBOS_STATUS_SUCCESS)
  | S spins =>
      if negb (nRead =? 1) then await_ack spins ack nRead else
      if obos_is_error status then mret (Some status) else
      if ack =? 43 then mret (Some OBOS_STATUS_SUCCESS)
      else if ack =? 45 then mret None
      else mret (Some OBOS_STATUS_INTERNAL_ERROR)
  end.

Fixpoint send_attempts (n : nat) (buf : list Z) : K gst obos_status :=
  match n with
  | O => mret OBOS_STATUS_RETRY
  | S n =>
      status ← pipe_write buf;
      if obos_is_error status then mret status else
      a ← await_ack (Z.to_nat 1000) 0 0;
      match a with
      | Some status => mret status
      | None => send_attempts n buf
      end
  end.

(** ["$%s#%02x"] *)
Definition format_packet (packet : list Z) : list Z := 36 :: packet ++ 35 :: fmt_hex 2 (mod256 packet).

Definition Kdbg_ConnectionSendPacket (conn : Z) (packet : list Z) : K gst obos_status :=
  if negb (truthy conn) then mret OBOS_STATUS_INVALID_ARGUMENT else
  i ← gets pipe_interface;
  if negb (truthy i) then mret OBOS_STATUS_UNINITIALIZED else
  let buf := format_packet packet in
  f ← gets gflags;
  if negb (has_flag f FLAGS_ENABLE_ACK) then pipe_write buf else
  send_attempts 5 buf.

(** [recv_char]: at most 100000 reads; the character is [0] when none comes. *)
Fixpoint recv_loop (spins : nat) (ch nRead : Z) : K gst Z :=
  if negb (nRead <? 1) then mret ch else
  match spins with
  | O => mret ch
  | S spins => r ← pipe_read ch nRead; recv_loop spins r.1.2 r.2
  end.
Definition recv_char : K gst Z := recv_loop (Z.to_nat 100000) 0 0.

(** The loop that waits for ['$']: the last character read. *)
Fixpoint await_start (spins : nat) : K gst Z :=
  ch ← recv_char;
  if ch =? 36 then mret ch else
  match spins with
  | O => mret ch
  | S spins => await_start spins
  end.

(** [rawPacket[szRawPacket++] = ch], which must be within the block. *)
Definition buf_put (b : buffer) (ch : Z) : K gst buffer :=
  if Z.of_nat (length (b_data b)) <? b_cap b then mret (mkBuf (b_data b ++ [ch]) (b_cap b)) else stop BadDeref.

(** [if (szRawPacket >= capRawPacket) { capRawPacket += step; ... }] *)
Definition buf_grow (b : buffer) : buffer :=
  if b_cap b <=? Z.of_nat (length (b_data b)) then mkBuf (b_data b) (b_cap b + 8) else b.

(** The loop up to ['#']: the buffer and the checksum.  It goes on for ever when
    no ['#'] comes. *)
Fixpoint recv_body (fuel : nat) (b : buffer) (sum : Z) (isEscaped : bool) : K gst (buffer * Z) :=
  ch ← recv_char;
  if ch =? 35 then mret (b, sum) else
  match fuel with
  | O => stop Hang
  | S fuel =>
      let b := buf_grow b in
      let sum := wrap8 (sum + ch) in
      if (ch =? 125) && negb isEscaped then recv_body fuel b sum true else
      b ← buf_put b (if isEscaped then Z.lxor ch 0x20 else ch);
      recv_body fuel b sum false
  end.

(** [Kdbg_ConnectionRecvPacket]: the packet without its terminating null
    character.  [fuel] bounds the characters of a packet, [retries] the packets
    that are refused. *)
Fixpoint Kdbg_ConnectionRecvPacket (retries fuel : nat) (conn : Z) : K gst (obos_status * list Z) :=
  if negb (truthy conn) then mret (OBOS_STATUS_INVALID_ARGUMENT, []) else
  ch ← await_start (Z.to_nat 500000);
  r ← (if negb (ch =? 36) then mret (mkBuf [] 0, false) else
       p ← recv_body fuel (mkBuf [] 0) 0 false;
       c0 ← recv_char;
       c1 ← recv_char;
       remote ← parse_checksum c0 c1;
       mret (p.1, wrap8 remote =? p.2));
  let '(b, ack) := r in
  pipe_write [if (ack : bool) then 43 else 45];;
  if negb ack then
    match retries with
    | O => stop Hang
    | S retries => Kdbg_ConnectionRecvPacket retries fuel conn
    end
  else
  buf_put (buf_grow b) 0;;
  mret (OBOS_STATUS_SUCCESS, b_data b).

(** ** Dispatching *)

Definition Kdbg_AddPacketHandler (name : option (list Z)) (handler userdata : Z) : K gst () :=
  match name with
  | None => mret ()
  | Some name =>
      if negb (truthy handler) then mret () else
      modify (λ s, s <| packet_handlers := Some (<[name := (handler, userdata)]> (default ∅ (packet_handlers s))) |>)
  end.

(** The [switch]: the length of the name and the offset of the arguments. *)
Definition packet_name (packet : list Z) : Z * Z :=
  let packetLen := Z.of_nat (length packet) in
  let pos c := Z.of_nat (chr_pos c packet) in
  match packet with
  | [] => (0, 0)
  | c :: _ =>
      if c =? 118 (* v *) then
        let n := if pos 59 =? packetLen then pos 63 else pos 59 in
        ((if negb (n =? packetLen) then n - 1 else n), 0)
      else if (c =? 81) || (c =? 113) (* Q, q *) then
        let n := if pos 58 =? packetLen then (if pos 44 =? packetLen then packetLen else pos 44 - 1)
                 else pos 58 - 1 in
        (n, n + (if negb (n =? packetLen) then 1 else 0))
      else if (c =? 122) || (c =? 90) (* z, Z *) then (2, 2 + (if negb (2 =? packetLen) then 1 else 0))
      else (1, 1)
  end.

Definition Kdbg_DispatchPacket (con : Z) (packet : list Z) : K gst obos_status :=
  modify (λ s, s <| packet_handlers := Some (default ∅ (packet_handlers s)) |>);;
  if negb (truthy con) || bool_decide (packet = []) then mret OBOS_STATUS_INVALID_ARGUMENT else
  let '(nameLen, argsOffset) := packet_name packet in
  let name := take (Z.to_nat nameLen) packet in
  hs ← gets packet_handlers;
  match default ∅ hs !! name with
  | None => Kdbg_ConnectionSendPacket con [];; mret OBOS_STATUS_UNHANDLED
  | Some (handler, userdata) =>
      call_handler handler (drop (Z.to_nat argsOffset) packet) (wrap64 (Z.of_nat (length packet) - argsOffset)) userdata
  end.

End ops.

(** ** Correctness *)

(** What the receiver makes of the characters between ['$'] and ['#'];
    [esc]: the last one was an escape. *)
Fixpoint unescape (esc : bool) (w : list Z) : list Z :=
  match w with
  | [] => []
  | c :: w => if (c =? 125) && negb esc then unescape true w
              else (if esc then Z.lxor c 0x20 else c) :: unescape false w
  end.

(** A packet on the wire. *)
Definition wire (w : list Z) (c0 c1 : Z) : list Z := 36 :: w ++ [35; c0; c1].

Lemma unescape_plain w : 125 ∉ w → unescape false w = w.
Proof.
  induction w as [|c w IH]; intros H; [done|]. apply not_elem_of_cons in H as [Hc H]. simpl.
  rewrite (proj2 (Z.eqb_neq c 125)) by done. simpl. by rewrite IH.
Qed.

Lemma mod256_snoc l c : mod256 (l ++ [c]) = wrap8 (mod256 l + c).
Proof. unfold mod256. by rewrite foldl_app. Qed.

Lemma mod256_range l : 0 <= mod256 l < 256.
Proof. induction l as [|c l IH] using rev_ind; [done|]. rewrite mod256_snoc. by apply wrap_range. Qed.

Lemma parse_checksum_eq c0 c1 s : c0 ≠ 10 → parse_checksum c0 c1 s = Ret (hex_value [c0; c1]) s.
Proof.
  intros H. unfold parse_checksum, KdbgH_hex2bin.
  pose proof (hex2bin_eq (S := bmem) [c0; c1] 0 (write_bytes ∅ 0 [c0; c1])) as Hx. change (Z.of_nat (length [c0; c1])) with 2 in Hx.
  rewrite Hx; [done|apply (write_bytes_same ∅ 0 [c0; c1])|simpl; lia|by intros [= ?]].
Qed.

Section recv.
Context {P : Pipe}.
Set Default Proof Using "Type".

(** A pipe that delivers what the peer sent, in order, and accepts what is
    written. *)
Record pipe_ok : Prop := {
  pk_read ch n s b r : rx s = b :: r → pipe_read ch n s = Ret (OBOS_STATUS_SUCCESS, b, 1) (s <| rx := r |>);
  pk_write l s : pipe_write l s = Ret OBOS_STATUS_SUCCESS (s <| tx ::= λ t, t ++ l |>)
}.

Context (Hpipe : pipe_ok).
Set Default Proof Using "All".

Lemma recv_char_eq s b r : rx s = b :: r → recv_char s = Ret b (s <| rx := r |>).
Proof.
  intros H. unfold recv_char. replace (Z.to_nat 100000) with (S (Z.to_nat 99999)) by lia. cbn [recv_loop].
  change (negb (0 <? 1)) with false. cbv iota. erewrite bind_Ret by (by apply (pk_read Hpipe)). cbn [fst snd].
  by destruct (Z.to_nat 99999).
Qed.

Lemma await_start_eq spins g s r :
  rx s = g ++ 36 :: r → 36 ∉ g → (length g <= spins)%nat → await_start spins s = Ret 36 (s <| rx := r |>).
Proof.
  revert spins s. induction g as [|c g IH]; intros spins s Hr Hg Hl.
  - destruct spins; cbn [await_start]; by erewrite bind_Ret by (by apply recv_char_eq).
  - apply not_elem_of_cons in Hg as [Hc Hg]. destruct spins as [|spins]; [simpl in Hl; lia|]. cbn [await_start].
    erewrite bind_Ret by (by apply recv_char_eq). rewrite (proj2 (Z.eqb_neq c 36)) by done.
    rewrite IH; [done|done|done|simpl in Hl; lia].
Qed.

(** The characters stored are within the block. *)
Definition buf_ok (b : buffer) : Prop := Z.of_nat (length (b_data b)) <= b_cap b.

Lemma buf_grow_ok b : buf_ok b → buf_ok (buf_grow b) ∧ b_data (buf_grow b) = b_data b.
Proof. unfold buf_ok, buf_grow. intros H. case_match; simpl; split; done || lia. Qed.

Lemma buf_put_grow b ch s :
  buf_ok b → ∃ b', buf_put (buf_grow b) ch s = Ret b' s ∧ b_data b' = b_data b ++ [ch] ∧ buf_ok b'.
Proof.
  unfold buf_ok, buf_put, buf_grow. intros Hc.
  destruct (Z.leb_spec (b_cap b) (Z.of_nat (length (b_data b)))) as [Hle|Hlt]; simpl;
    rewrite (proj2 (Z.ltb_lt _ _)) by lia; eexists; (split; [done|]); simpl; rewrite length_app; simpl; split; done || lia.
Qed.

(** The loop takes in the characters up to ['#'], unescapes and adds them up. *)
Lemma recv_body_eq w fuel b sum esc r s :
  rx s = w ++ 35 :: r → 35 ∉ w → (length w <= fuel)%nat → buf_ok b →
  ∃ b', recv_body fuel b sum esc s = Ret (b', foldl (λ c b, wrap8 (c + b)) sum w) (s <| rx := r |>) ∧
    b_data b' = b_data b ++ unescape esc w ∧ buf_ok b'.
Proof.
  revert fuel b sum esc s. induction w as [|c w IH]; intros fuel b sum esc s Hr H35 Hf Hb.
  - exists b. split; [|by rewrite app_nil_r]. destruct fuel; cbn [recv_body]; by erewrite bind_Ret by (by apply recv_char_eq).
  - apply not_elem_of_cons in H35 as [Hc H35]. destruct fuel as [|fuel]; [simpl in Hf; lia|]. simpl in Hf. cbn [recv_body].
    erewrite bind_Ret by (by apply recv_char_eq). rewrite (proj2 (Z.eqb_neq c 35)) by done. cbv zeta. cbn [unescape].
    destruct (buf_grow_ok b Hb) as [Hg Eg].
    destruct ((c =? 125) && negb esc).
    + destruct (IH fuel (buf_grow b) (wrap8 (sum + c)) true (s <| rx := w ++ 35 :: r |>)) as (b' & E & Ed & Hb'); try done; [lia|].
      exists b'. split; [etrans; [exact E|done]|]. by rewrite Ed, Eg.
    + destruct (buf_put_grow b (if esc then Z.lxor c 32 else c) (s <| rx := w ++ 35 :: r |>) Hb) as (b1 & E1 & Ed1 & Hb1).
      erewrite bind_Ret by exact E1.
      destruct (IH fuel b1 (wrap8 (sum + c)) false (s <| rx := w ++ 35 :: r |>)) as (b' & E & Ed & Hb'); try done; [lia|].
      exists b'. split; [etrans; [exact E|done]|]. split; [|done]. by rewrite Ed, Ed1, <- app_assoc.
Qed.

(** One packet from the wire: accepted and unescaped when the checksum is right,
    refused otherwise. *)
Lemma recv_packet_eq retries fuel conn g w c0 c1 r s :
  conn ≠ 0 → rx s = g ++ wire w c0 c1 ++ r → 36 ∉ g → Z.of_nat (length g) <= 500000 → 35 ∉ w → (length w <= fuel)%nat → c0 ≠ 10 →
  let good := hex_value [c0; c1] =? mod256 w in
  let s' := s <| rx := r |> <| tx ::= λ t, t ++ [if good then 43 else 45] |> in
  Kdbg_ConnectionRecvPacket retries fuel conn s =
    if good then Ret (OBOS_STATUS_SUCCESS, unescape false w) s'
    else match retries with O => Stop Hang | S retries => Kdbg_ConnectionRecvPacket retries fuel conn s' end.
Proof.
  intros Hcn Hr Hg Hgl H35 Hf Hc0 good s'.
  assert (∀ {A} (k : buffer * bool → K gst A) (t0 := s <| rx := w ++ 35 :: c0 :: c1 :: r |>), ∃ b, buf_ok b ∧ b_data b = unescape false w ∧
    (ch ← await_start (Z.to_nat 500000);
     x ← (if negb (ch =? 36) then mret (mkBuf [] 0, false) else
       p ← recv_body fuel (mkBuf [] 0) 0 false;
       c0 ← recv_char;
       c1 ← recv_char;
       remote ← parse_checksum c0 c1;
       mret (p.1, wrap8 remote =? p.2)); k x) s = k (b, good) (s <| rx := r |>)) as Hmain.
  { intros A k t0. destruct (recv_body_eq w fuel (mkBuf [] 0) 0 false (c0 :: c1 :: r) t0) as (b & E & Ed & Hb); try done.
    exists b. split; [done|]. split; [done|]. erewrite bind_Ret.
    2: { apply (await_start_eq _ g _ (w ++ 35 :: c0 :: c1 :: r)); [|done|lia]. rewrite Hr. unfold wire. simpl. by rewrite <- app_assoc. }
    change (negb (36 =? 36)) with false. cbv iota. fold t0.
    erewrite bind_Ret; [reflexivity|]. erewrite bind_Ret by exact E.
    do 2 erewrite bind_Ret by (by apply recv_char_eq). erewrite bind_Ret by (by apply parse_checksum_eq).
    unfold mret, K_ret. cbn [fst snd]. f_equal. unfold good. f_equal. pose proof (hex_value_range [c0; c1]). simpl in *.
    rewrite wrap_small by (unfold in_u; lia). done. }
  destruct (Hmain _ (λ x, let '(b, ack) := x in
      pipe_write [if (ack : bool) then 43 else 45];;
      if negb ack then
        match retries with O => stop Hang | S retries => Kdbg_ConnectionRecvPacket retries fuel conn end
      else buf_put (buf_grow b) 0;; mret (OBOS_STATUS_SUCCESS, b_data b))) as (b & Hb & Ed & Erun).
  transitivity ((pipe_write [if good then 43 else 45];;
      if negb good then
        match retries with O => stop Hang | S retries => Kdbg_ConnectionRecvPacket retries fuel conn end
      else buf_put (buf_grow b) 0;; mret (OBOS_STATUS_SUCCESS, b_data b)) (s <| rx := r |>)).
  { rewrite <- Erun. destruct retries; cbn [Kdbg_ConnectionRecvPacket]; by rewrite (proj2 (truthy_true conn)) by done. }
  erewrite bind_Ret by apply (pk_write Hpipe). unfold s'. clear Hmain Erun. destruct good; cbn [negb].
  - destruct (buf_put_grow b 0 (s <| rx := r |> <| tx ::= λ t, t ++ [43] |>) Hb) as (b' & E' & _).
    erewrite bind_Ret by exact E'. by rewrite Ed.
  - by destruct retries.
Qed.

(** [C24] What one end sends the other receives: without acknowledgements, the packet
    goes out as one frame; and whoever finds this frame in its input, behind at most
    500000 characters that contain no '$', accepts it and has the packet again, if the
    packet contains neither '#' nor an escape character. *)
Theorem gdb_packet_roundtrip conn packet s t g r retries fuel :
  conn ≠ 0 → pipe_interface s ≠ 0 → has_flag (gflags s) FLAGS_ENABLE_ACK = false →
  35 ∉ packet → 125 ∉ packet → 36 ∉ g → Z.of_nat (length g) <= 500000 → (length packet <= fuel)%nat →
  ∃ frame, Kdbg_ConnectionSendPacket conn packet s = Ret OBOS_STATUS_SUCCESS (s <| tx ::= λ o, o ++ frame |>) ∧
    (rx t = g ++ frame ++ r →
     Kdbg_ConnectionRecvPacket retries fuel conn t =
       Ret (OBOS_STATUS_SUCCESS, packet) (t <| rx := r |> <| tx ::= λ o, o ++ [43] |>)).
Proof.
  intros Hc Hi Ha H35 H125 Hg Hgl Hf. exists (format_packet packet). split.
  - unfold Kdbg_ConnectionSendPacket. rewrite (proj2 (truthy_true conn)) by done. cbn [negb].
    rewrite (bind_Ret _ _ _ _ _ (gets_eq _ _)), (proj2 (truthy_true (pipe_interface s))) by done. cbn [negb].
    rewrite (bind_Ret _ _ _ _ _ (gets_eq _ _)), Ha. cbn [negb]. apply (pk_write Hpipe).
  - intros Hr. pose proof (mod256_range packet) as Hm.
    assert (∃ c0 c1, fmt_hex 2 (mod256 packet) = [c0; c1]) as (c0 & c1 & Efmt).
    { pose proof (length_fmt_hex 2 (mod256 packet) Hm ltac:(lia)) as Hl.
      destruct (fmt_hex 2 (mod256 packet)) as [|c0 [|c1 [|]]]; try done. eauto. }
    assert (c0 ≠ 10) as Hc0.
    { assert (48 <= c0 <= 102); [|lia]. apply (hexn_printable (Nat.max 2 (ndigits (mod256 packet))) (mod256 packet)).
      fold (fmt_hex 2 (mod256 packet)). rewrite Efmt. set_solver. }
    pose proof (hex_value_fmt 2 (mod256 packet) ltac:(lia)) as Hv. rewrite Efmt in Hv.
    rewrite (recv_packet_eq retries fuel conn g packet c0 c1 r); try done.
    + cbv zeta. rewrite Hv, Z.eqb_refl, unescape_plain by done. done.
    + rewrite Hr. unfold format_packet, wire. by rewrite Efmt.
Qed.

(** A frame with a wrong checksum is refused with ['-'] and forgotten, and the
    next frame is accepted in its place, its escapes undone. *)
Theorem gdb_bad_checksum_retried conn s w c0 c1 w' d0 d1 r retries fuel :
  conn ≠ 0 → rx s = wire w c0 c1 ++ wire w' d0 d1 ++ r → 35 ∉ w → 35 ∉ w' → c0 ≠ 10 → d0 ≠ 10 →
  (length w <= fuel)%nat → (length w' <= fuel)%nat →
  hex_value [c0; c1] ≠ mod256 w → hex_value [d0; d1] = mod256 w' →
  Kdbg_ConnectionRecvPacket (S retries) fuel conn s =
    Ret (OBOS_STATUS_SUCCESS, unescape false w') (s <| rx := r |> <| tx ::= λ o, o ++ [45; 43] |>).
Proof.
  intros Hc Hr H35 H35' Hc0 Hd0 Hf Hf' Hbad Hgood.
  rewrite (recv_packet_eq (S retries) fuel conn [] w c0 c1 (wire w' d0 d1 ++ r)); try done; [|set_solver].
  cbv zeta. rewrite (proj2 (Z.eqb_neq _ _)) by done.
  rewrite (recv_packet_eq retries fuel conn [] w' d0 d1 r); try done; [|set_solver].
  cbv zeta. rewrite Hgood, Z.eqb_refl. f_equal. simpl. by rewrite <- app_assoc.
Qed.

End recv.
