(* ===== verification/Timer.v ===== *)
(** * Timers ([irq/timer.c])

    Timer objects are linked in a list; the timer interrupt queues a DPC that
    looks for expired timers and queues the DPC of each.  The time base, the
    interrupt object and the allocator are reached through [TimerHw]. *)

From S2P Require Import Prelude DList KState Irql ThreadList Dpc.

(** ** State ([irq/timer.h]) *)

Inductive timer_mode := TIMER_UNINITIALIZED | TIMER_EXPIRED | TIMER_MODE_DEADLINE | TIMER_MODE_INTERVAL.
#[global] Instance timer_mode_eq_dec : EqDecision timer_mode.
Proof. solve_decision. Defined.
(** The value of the enumerator. *)
Definition mode_value (m : timer_mode) : Z :=
  match m with TIMER_UNINITIALIZED => 0 | TIMER_EXPIRED => 1 | TIMER_MODE_DEADLINE => 2 | TIMER_MODE_INTERVAL => 3 end.

(** [timing] is the union of [deadline] and [interval]; [handler_dpc] is the
    address of the embedded DPC. *)
Record timer := mkTimer {
  timing : Z; lastTimeTicked : Z; mode : timer_mode; t_handler : Z; t_userdata : Z; handler_dpc : Z; dpc_udata : Z
}.
#[export] Instance eta_timer : Etable timer :=
  λ r, mkTimer (timing r) (lastTimeTicked r) (mode r) (t_handler r) (t_userdata r) (handler_dpc r) (dpc_udata r).

Record tst := mkTst {
  tk : kst;
  timers : gmap Z timer;
  timer_links : lheap;
  timer_list : dlist;
  work : Z;
  Core_TimerIRQ : Z;
  Core_TimerInterfaceInitialized : bool
}.
#[export] Instance eta_tst : Etable tst :=
  λ r, mkTst (tk r) (timers r) (timer_links r) (timer_list r) (work r) (Core_TimerIRQ r)
    (Core_TimerInterfaceInitialized r).

(** The handlers' addresses are constants. *)
Class TimerHw := {
  CoreS_GetTimerTick : K tst Z;
  CoreS_InitializeTimer : K tst obos_status;
  Core_IrqObjectAllocate : K tst (Z * obos_status);
  Core_IrqObjectFree : Z → K tst ();
  timer_zalloc : K tst Z;
  timer_free : Z → K tst obos_status;
  timer_handler_call : Z → Z → K tst ();
  timer_dispatcher_addr : Z;
  notify_timer_dpc_addr : Z
}.

Definition tkern {A} (m : K kst A) : K tst A := zoom tk (λ k s, s <| tk := k |>) m.
Definition get_timer (t : Z) : K tst timer := load timers t.
Definition set_timer (t : Z) (f : timer → timer) : K tst () := store timers (λ m s, s <| timers := m |>) t f.
Definition timer_list_op (op : lheap → dlist → option (lheap * dlist)) : K tst () :=
  h ← gets timer_links; l ← gets timer_list;
  p ← deref_opt (op h l);
  modify (λ s, s <| timer_links := p.1 |> <| timer_list := p.2 |>).

(** ** Microseconds to ticks

    The fixed point library is configured with 32 bits, 8 of them fractional;
    [fixedptd] is 64 bits wide and the quotient is cut to 32. *)
Definition fixedpt_fromint (i : Z) : Z := signed 64 (wrap64 (i * 256)).
Definition fixedpt_toint (f : Z) : Z := f / 256.
Definition fixedpt_xdiv (a b : Z) : Z := signed 32 (wrap32 (Z.quot (signed 64 (wrap64 (a * 256))) b)).

Definition CoreH_TimeFrameToTick (us : Z) : K tst Z :=
  let tp := fixedpt_fromint us in
  let divisor := fixedpt_fromint 1000 in
  OBOS_ASSERT (fixedpt_toint tp =? signed 64 us);;
  OBOS_ASSERT (fixedpt_toint divisor =? 1000);;
  mret (wrap64 (fixedpt_toint (fixedpt_xdiv tp divisor) + 1)).

Section ops.
Context {DH : DpcHandlers} {TH : TimerHw}.

(** The list changed by [op] and its count by [f] under the lock of the list. *)
Definition timer_list_update (op : lheap → dlist → option (lheap * dlist)) (f : Z → Z) : K tst () :=
  oldIrql ← tkern (Core_SpinlockAcquireExplicit (Some TimerListLock) IRQL_TIMER false);
  timer_list_op op;;
  modify (λ s, s <| timer_list ::= λ l, l <| dl_nNodes ::= f |> |>);;
  tkern (Core_SpinlockRelease TimerListLock oldIrql);;
  mret ().

Definition Core_CancelTimer (t : Z) : K tst obos_status :=
  if negb (truthy t) then mret OBOS_STATUS_INVALID_ARGUMENT else
  x ← get_timer t;
  if bool_decide (mode x = TIMER_UNINITIALIZED) then mret OBOS_STATUS_INVALID_ARGUMENT else
  if bool_decide (mode x = TIMER_EXPIRED) then mret OBOS_STATUS_SUCCESS else
  timer_list_update (λ h l, unlink h l t) (λ n, wrap64 (n - 1));;
  set_timer t (λ x, x <| mode := TIMER_EXPIRED |>);;
  mret OBOS_STATUS_SUCCESS.

(** [udata] is the address of [dpc_udata] in the timer. *)
Definition notify_timer (t udata : Z) : K tst () :=
  now ← CoreS_GetTimerTick;
  set_timer t (λ x, x <| lastTimeTicked := now |>);;
  x ← get_timer t;
  when (bool_decide (mode x = TIMER_MODE_DEADLINE)) (Core_CancelTimer t;; mret ());;
  tkern (set_dpc (handler_dpc x) (λ d, d <| userdata := udata |>));;
  def ← gets (λ s, Core_DefaultThreadAffinity (sch (tk s)));
  tkern (CoreH_InitializeDPC (handler_dpc x) notify_timer_dpc_addr def);;
  set_timer t (λ x, x <| dpc_udata := t |>).

(** The handler of that DPC: [udata[0]] is the timer. *)
Definition notify_timer_dpc (t : Z) : K tst () :=
  x ← get_timer t; timer_handler_call (t_handler x) (t_userdata x).

Definition timer_expired (x : timer) (now : Z) : bool :=
  match mode x with
  | TIMER_MODE_DEADLINE => timing x <=? now
  | TIMER_MODE_INTERVAL => wrap64 (timing x + lastTimeTicked x) <=? now
  | _ => false
  end.

(** The loop of [timer_dispatcher] from [t] on; [udata_of] is the offset of
    [dpc_udata]. *)
Fixpoint timer_dispatch_loop (fuel : nat) (udata_off t : Z) : K tst () :=
  if negb (truthy t) then mret () else
  match fuel with
  | O => stop Hang
  | S fuel =>
      x ← get_timer t;
      now ← (match mode x with
             | TIMER_MODE_DEADLINE | TIMER_MODE_INTERVAL => CoreS_GetTimerTick
             | _ => mret 0
             end);
      when (timer_expired x now) (
        OBOS_ASSERT (negb (bool_decide (mode x = TIMER_EXPIRED)));;
        notify_timer t (t + udata_off));;
      oldIrql ← tkern (Core_SpinlockAcquireExplicit (Some TimerListLock) IRQL_TIMER false);
      l ← load timer_links t;
      tkern (Core_SpinlockRelease TimerListLock oldIrql);;
      timer_dispatch_loop fuel udata_off (dl_next l)
  end.
Definition timer_dispatcher (udata_off : Z) : K tst () :=
  l ← gets timer_list; h ← gets timer_links;
  timer_dispatch_loop (size h) udata_off (dl_head l).

(** On x86-64 the timer is not of the deadline kind. *)
Definition timer_irq : K tst () :=
  w ← gets work;
  d ← tkern (get_dpc w);
  idle ← (match dpc_cpu d with
          | None => mret true
          | Some c =>
              l ← tkern (load (λ s, dpcs (irq s)) c);
              h ← gets (λ s, dpc_links (irq (tk s)));
              deref_opt (LIST_IS_NODE_UNLINKED h l w)
          end);
  when idle (
    def ← gets (λ s, Core_DefaultThreadAffinity (sch (tk s)));
    tkern (CoreH_InitializeDPC w timer_dispatcher_addr def);; mret ()).

Definition Core_InitializeTimerInterface (garbage : dpc) (glink : dlink) : K tst obos_status :=
  oldIrql ← tkern (Core_RaiseIrql IRQL_TIMER);
  r ← Core_IrqObjectAllocate;
  modify (λ s, s <| Core_TimerIRQ := r.1 |>);;
  status ← (if obos_is_error r.2 then mret r.2 else
            st ← CoreS_InitializeTimer;
            when (obos_is_success st) (modify (λ s, s <| Core_TimerInterfaceInitialized := true |>));;
            mret st);
  i ← gets Core_TimerIRQ;
  when (obos_is_error status && truthy i) (Core_IrqObjectFree i);;
  w ← tkern (CoreH_AllocateDPC garbage glink);
  modify (λ s, s <| work := w.1 |>);;
  tkern (Core_LowerIrql oldIrql);;
  mret status.

Definition Core_TimerObjectAllocate : K tst Z := timer_zalloc.

Definition Core_TimerObjectFree (t : Z) : K tst obos_status :=
  if negb (truthy t) then mret OBOS_STATUS_INVALID_ARGUMENT else
  x ← get_timer t;
  if mode_value TIMER_EXPIRED <? mode_value (mode x) then mret OBOS_STATUS_ACCESS_DENIED else
  tkern (CoreH_FreeDPC (handler_dpc x) false);;
  timer_free t.

(** The deadline is computed from the time the object last ticked, before that
    is set to the current time. *)
Definition Core_TimerObjectInitialize (t : Z) (m : timer_mode) (us : Z) : K tst obos_status :=
  if negb (truthy t) || negb (truthy us) || (mode_value m <? mode_value TIMER_EXPIRED)
  then mret OBOS_STATUS_INVALID_ARGUMENT else
  oldIrql ← tkern (Core_RaiseIrql IRQL_DISPATCH);
  ticks ← CoreH_TimeFrameToTick us;
  match m with
  | TIMER_UNINITIALIZED | TIMER_EXPIRED =>
      tkern (Core_LowerIrql oldIrql);; mret OBOS_STATUS_INVALID_ARGUMENT
  | TIMER_MODE_DEADLINE | TIMER_MODE_INTERVAL =>
      set_timer t (λ x, x <| timing := if bool_decide (m = TIMER_MODE_DEADLINE)
                                       then wrap64 (lastTimeTicked x + ticks) else ticks |>);;
      now ← CoreS_GetTimerTick;
      set_timer t (λ x, x <| lastTimeTicked := now |>);;
      set_timer t (λ x, x <| mode := m |>);;
      timer_list_update (λ h l, link_tail h l t) (λ n, wrap64 (n + 1));;
      tkern (Core_LowerIrql oldIrql);;
      mret OBOS_STATUS_SUCCESS
  end.

End ops.
