(* ===== verification/TimerProofs.v ===== *)
(** * Timers: correctness

    The conversion of time frames within its range and beyond it, starting and
    cancelling a timer, and when a fresh deadline timer expires. *)

From S2P Require Import Prelude DList KState Irql ThreadList Dpc Timer.

(** ** The conversion *)

Lemma time_frame_to_tick_eq us s :
  0 <= us < 8388608000 → CoreH_TimeFrameToTick us s = Ret (us / 1000 + 1) s.
Proof.
  intros Hus. unfold CoreH_TimeFrameToTick.
  assert (fixedpt_fromint us = us * 256) as Hf.
  { unfold fixedpt_fromint. rewrite wrap_small by (unfold in_u; lia). unfold signed.
    by rewrite (proj2 (Z.ltb_lt _ _)) by lia. }
  rewrite Hf. assert (fixedpt_toint (us * 256) = us) as -> by (apply Z.div_mul; lia). cbv zeta.
  erewrite bind_Ret.
  2: { apply assert_eq, Z.eqb_eq. unfold signed. by rewrite (proj2 (Z.ltb_lt _ _)) by lia. }
  erewrite bind_Ret by (by apply assert_eq). change (fixedpt_fromint 1000) with 256000.
  unfold fixedpt_xdiv. rewrite (wrap_small 64 (us * 256 * 256)) by (unfold in_u; lia).
  replace (signed 64 (us * 256 * 256)) with (us * 256 * 256) by (unfold signed; rewrite (proj2 (Z.ltb_lt _ _)) by lia; done).
  rewrite Z.quot_div_nonneg by lia.
  replace (us * 256 * 256 / 256000) with (us * 256 / 1000) by (rewrite <- (Z.div_mul_cancel_r (us * 256) 1000 256) by lia; f_equal).
  assert (0 <= us * 256 / 1000 < 2 ^ 31) as Hq by (split; [apply Z.div_pos; lia|apply Z.div_lt_upper_bound; lia]).
  rewrite (wrap_small 32 (us * 256 / 1000)) by (unfold in_u; lia).
  replace (signed 32 (us * 256 / 1000)) with (us * 256 / 1000) by (unfold signed; rewrite (proj2 (Z.ltb_lt _ _)) by lia; done).
  unfold fixedpt_toint. rewrite Z.div_div by lia. replace (1000 * 256) with (256 * 1000) by lia.
  rewrite <- Z.div_div, Z.div_mul by lia. unfold mret, K_ret. f_equal. apply wrap_small.
  assert (0 <= us / 1000 < 2 ^ 60) by (split; [apply Z.div_pos; lia|apply Z.div_lt_upper_bound; lia]). unfold in_u. lia.
Qed.

(** A time frame of less than 8388608000 microseconds (about 2 h 20 min) is
    converted to its milliseconds, rounded down, plus one; from there on the
    32-bit quotient overflows, and the limit itself gives a number of ticks
    above 2^63. *)
Theorem time_frame_to_tick_bounds s :
  (∀ us, 0 <= us < 8388608000 → CoreH_TimeFrameToTick us s = Ret (us / 1000 + 1) s) ∧
  CoreH_TimeFrameToTick 8388608000 s = Ret (2 ^ 64 - 8388607) s.
Proof. split; [intros us Hus; by apply time_frame_to_tick_eq|reflexivity]. Qed.

(** ** The lock of the list, taken at [IRQL_TIMER] *)

Section bracket.
Context {DH : DpcHandlers}.
Set Default Proof Using "Type".

Definition timer_up (i : irq_st) : irq_st := set_ctx IRQL_TIMER (set_level IRQL_TIMER i).
Definition timer_locked (i : irq_st) : irq_st := (timer_up i) <| locks ::= <[TimerListLock := held i false]> |>.

#[local] Opaque set_level set_ctx.

Lemma timer_up_wf i v : irq_wf i v → irq_wf (timer_up i) IRQL_TIMER.
Proof.
  intros [Hv Hc Hr H1 (t & Ht & Hctx)]. unfold timer_up. split.
  - rewrite set_ctx_irql. by eapply set_level_irql.
  - by rewrite set_ctx_cr8, set_level_cr8.
  - unfold IRQL_TIMER. lia.
  - done.
  - exists t. rewrite set_ctx_thread, set_level_thread. split; [done|]. intros H0.
    rewrite set_ctx_lookup by (rewrite ?set_level_thread; done). eauto.
Qed.

Lemma timer_up_down i v : quiet i v → set_ctx v (set_level v (timer_up i)) = i.
Proof.
  intros [[Hv Hc _ _ _] _ _ Hctx]. unfold timer_up.
  rewrite set_level_ctx, set_ctx_ctx, set_level_level, set_level_id by done. by apply set_ctx_id.
Qed.

Lemma acquire_timer s v :
  quiet (irq s) v → lock_free (irq s) TimerListLock →
  Core_SpinlockAcquireExplicit (Some TimerListLock) IRQL_TIMER false s = Ret v (s <| irq ::= timer_locked |>).
Proof.
  intros [Hwf Hle Hd Hctx] Hl. destruct (wf_thread _ _ Hwf) as (t & Ht & _).
  assert (thread_of (timer_up (irq s)) = Some t) as Ht'.
  { unfold timer_up. by rewrite set_ctx_thread, set_level_thread. }
  assert (locks (timer_up (irq s)) = locks (irq s)) as Hlk.
  { unfold timer_up. by rewrite set_ctx_locks, set_level_locks. }
  unfold Core_SpinlockAcquireExplicit. simpl.
  erewrite (bind_Ret _ _ _ v (s <| irq ::= timer_up |>)).
  2: { erewrite bind_Ret by (eapply Core_GetIrql_eq; apply Hwf).
       rewrite (proj2 (Z.ltb_lt _ _)) by (unfold IRQL_DISPATCH, IRQL_TIMER in *; lia).
       eapply Core_RaiseIrql_eq; [done|destruct Hwf; unfold IRQL_DISPATCH, IRQL_TIMER in *; lia|done]. }
  unfold get_lock, set_lock.
  erewrite bind_Ret by (apply load_eq; simpl; rewrite Hlk; exact Hl). simpl.
  erewrite bind_Ret by (apply store_eq; simpl; rewrite Hlk; exact Hl). simpl.
  erewrite bind_Ret by (apply store_eq; simpl; apply lookup_insert_eq). simpl.
  erewrite bind_Ret by (apply Core_GetCurrentThread_eq; simpl; exact Ht'). simpl.
  do 2 (erewrite bind_Ret by (apply store_eq; simpl; apply lookup_insert_eq); simpl).
  unfold mret, K_ret, timer_locked, held. rewrite Ht, !insert_insert_eq. simpl. by rewrite !Hlk.
Qed.

Lemma release_timer s i v :
  quiet i v → lock_free i TimerListLock → irq s = timer_locked i →
  Core_SpinlockRelease TimerListLock v s = Ret OBOS_STATUS_SUCCESS (s <| irq := i |>).
Proof.
  intros Hq Hl Hs. pose proof Hq as [Hwf Hle Hd Hctx]. pose proof (wf_range _ _ Hwf) as Hr.
  assert (locks (timer_up i) = locks i) as Hlk.
  { unfold timer_up. by rewrite set_ctx_locks, set_level_locks. }
  unfold Core_SpinlockRelease. rewrite irql_nibble by done. cbn [truthy Z.eqb negb andb]. unfold get_lock, set_lock.
  erewrite bind_Ret by (apply store_eq; rewrite Hs; simpl; apply lookup_insert_eq). simpl.
  do 2 (erewrite bind_Ret by (apply store_eq; simpl; apply lookup_insert_eq); simpl).
  erewrite bind_Ret by (apply load_eq; simpl; apply lookup_insert_eq). simpl.
  rewrite Hs, !insert_insert_eq. simpl. rewrite insert_insert_eq, Hlk, (insert_id _ _ _ Hl).
  replace (mkIrq _ _ _ _ _ _ _ _ _ _) with (timer_up i) by (rewrite <- Hlk; by destruct (timer_up i)).
  rewrite (proj2 (Z.eqb_neq v IRQL_INVALID)) by (unfold IRQL_INVALID; lia). simpl.
  erewrite bind_Ret.
  2: { unfold when. eapply Core_LowerIrql_eq; simpl.
       - exact (timer_up_wf _ _ Hwf).
       - unfold IRQL_DISPATCH, IRQL_TIMER in *. lia.
       - apply Hwf.
       - intros c. unfold timer_up. rewrite set_ctx_this, set_level_this, set_ctx_dpcs, set_level_dpcs. apply Hd. }
  simpl. rewrite timer_up_down by done.
  erewrite bind_Ret by (apply store_eq; simpl; exact Hl). simpl.
  rewrite insert_id by exact Hl. by destruct i.
Qed.

End bracket.

(** ** Starting and cancelling *)

Section timers.
Context {DH : DpcHandlers} {TH : TimerHw}.
Set Default Proof Using "Type".

(** The list of timers is [xs]; the processor may take its lock. *)
Record timers_at (s : tst) (v : Z) (xs : list Z) : Prop := {
  ta_quiet : quiet (irq (tk s)) v;
  ta_lock : lock_free (irq (tk s)) TimerListLock;
  ta_rep : dl_rep (timer_links s) (timer_list s) xs;
  ta_len : Z.of_nat (length xs) + 1 < 2 ^ 64
}.

Lemma tkern_Ret {A} (m : K kst A) s a k : m (tk s) = Ret a k → tkern m s = Ret a (s <| tk := k |>).
Proof. intros E. unfold tkern, zoom. by rewrite E. Qed.

(** The list operation under its lock, from a quiet state. *)
Lemma timer_list_locked s v op f h l :
  quiet (irq (tk s)) v → lock_free (irq (tk s)) TimerListLock → op (timer_links s) (timer_list s) = Some (h, l) →
  timer_list_update op f s =
  Ret () (s <| timer_links := h |> <| timer_list := l <| dl_nNodes ::= f |> |>).
Proof.
  intros Hq Hl Hop. unfold timer_list_update. erewrite bind_Ret by (apply tkern_Ret; by apply acquire_timer).
  erewrite bind_Ret.
  2: { unfold timer_list_op. rewrite (bind_Ret _ _ _ _ _ (gets_eq _ _)), (bind_Ret _ _ _ _ _ (gets_eq _ _)).
       erewrite bind_Ret by (apply deref_opt_eq; exact Hop). apply modify_eq. }
  erewrite bind_Ret by apply modify_eq. erewrite bind_Ret by (apply tkern_Ret; by apply (release_timer _ (irq (tk s)) v)).
  unfold mret, K_ret. f_equal. by destruct s as [[] ? ? ? ? ? ?].
Qed.

(** The contents of a timer that was started at [now]. *)
Definition started (m : timer_mode) (ticks now : Z) (x : timer) : timer :=
  mkTimer (if bool_decide (m = TIMER_MODE_DEADLINE) then wrap64 (lastTimeTicked x + ticks) else ticks)
    now m (t_handler x) (t_userdata x) (handler_dpc x) (dpc_udata x).

Lemma timer_initialize_eq s v xs t x lk m us now :
  timers_at s v xs → t ≠ 0 → t ∉ xs → timers s !! t = Some x → timer_links s !! t = Some lk → dl_next lk = 0 →
  m = TIMER_MODE_DEADLINE ∨ m = TIMER_MODE_INTERVAL → 0 < us < 8388608000 →
  (∀ s, CoreS_GetTimerTick s = Ret now s) →
  ∃ h l, Core_TimerObjectInitialize t m us s =
      Ret OBOS_STATUS_SUCCESS (s <| timers ::= <[t := started m (us / 1000 + 1) now x]> |>
        <| timer_links := h |> <| timer_list := l |>) ∧
    dl_rep h l (xs ++ [t]).
Proof.
  intros [Hq Hl Hrep Hlen] Ht Hnin Hx Hlk Hnx Hm Hus Hnow.
  destruct (link_tail_spec _ _ _ t lk Hrep Hnin Ht Hlk Hnx) as (h & Hlt & Hseg & _).
  pose proof (rep_of_link_tail _ _ _ _ (dl_nNodes (timer_list s) + 1) _ Hrep Hnin Ht Hseg
    ltac:(rewrite (rep_count _ _ _ Hrep); lia)) as Hrep'.
  pose proof Hq as [Hwf Hle Hd Hctx]. pose proof (wf_range _ _ Hwf) as Hr.
  set (s1 := s <| tk ::= λ k, k <| irq ::= level_up |> |>).
  assert (quiet (irq (tk s1)) IRQL_DISPATCH) as Hq1 by (by eapply level_up_quiet).
  assert (lock_free (irq (tk s1)) TimerListLock) as Hl1 by (unfold lock_free; simpl; by rewrite level_up_locks).
  unfold Core_TimerObjectInitialize.
  rewrite (proj2 (truthy_true t)), (proj2 (truthy_true us)) by lia. cbn [negb orb].
  assert ((mode_value m <? mode_value TIMER_EXPIRED) = false) as -> by (by destruct Hm as [-> | ->]).
  erewrite bind_Ret.
  2: { apply tkern_Ret. eapply Core_RaiseIrql_eq; [done|unfold IRQL_DISPATCH in *; lia|done]. }
  change (s <| tk := _ |>) with s1.
  erewrite bind_Ret by (apply time_frame_to_tick_eq; lia).
  set (x1 := started m (us / 1000 + 1) now x).
  set (s2 := s1 <| timers ::= <[t := x1]> |>).
  assert (∀ k : K tst obos_status, (set_timer t (λ x, x <| timing := if bool_decide (m = TIMER_MODE_DEADLINE)
                                       then wrap64 (lastTimeTicked x + (us / 1000 + 1)) else us / 1000 + 1 |>);;
      now ← CoreS_GetTimerTick;
      set_timer t (λ x, x <| lastTimeTicked := now |>);;
      set_timer t (λ x, x <| mode := m |>);; k) s1 = k s2) as Hset.
  { intros k. unfold set_timer. erewrite bind_Ret by (apply store_eq; exact Hx). erewrite bind_Ret by apply Hnow.
    do 2 erewrite bind_Ret by (apply store_eq; apply lookup_insert_eq). f_equal. unfold s2. simpl. by rewrite !insert_insert_eq. }
  exists h, (mkList (default t (head xs)) t (dl_nNodes (timer_list s) + 1)). split; [|done].
  assert ((timer_list_update (λ h l, link_tail h l t) (λ n, wrap64 (n + 1));; tkern (Core_LowerIrql v);; mret OBOS_STATUS_SUCCESS) s2 =
    Ret OBOS_STATUS_SUCCESS (s <| timers ::= <[t := x1]> |>
        <| timer_links := h |> <| timer_list := mkList (default t (head xs)) t (dl_nNodes (timer_list s) + 1) |>)) as Hrest.
  { erewrite bind_Ret by (by apply (timer_list_locked s2 IRQL_DISPATCH); [..|exact Hlt]). erewrite bind_Ret.
    2: { apply tkern_Ret. eapply Core_LowerIrql_eq; [apply Hq1|unfold IRQL_DISPATCH in *; lia|apply Hwf|apply Hq1]. }
    unfold mret, K_ret. f_equal. simpl. rewrite level_up_down by done. rewrite wrap_small by (unfold in_u; rewrite (rep_count _ _ _ Hrep); lia).
    by destruct s as [[] ? ? ? ? ? ?]. }
  rewrite <- Hrest, <- Hset. by destruct Hm as [-> | ->].
Qed.

Lemma timer_cancel_eq s v l1 t l2 x :
  timers_at s v (l1 ++ t :: l2) → timers s !! t = Some x →
  mode x = TIMER_MODE_DEADLINE ∨ mode x = TIMER_MODE_INTERVAL →
  ∃ h l, Core_CancelTimer t s =
      Ret OBOS_STATUS_SUCCESS (s <| timer_links := h |> <| timer_list := l |>
        <| timers ::= <[t := x <| mode := TIMER_EXPIRED |>]> |>) ∧
    dl_rep h l (l1 ++ l2).
Proof.
  intros [Hq Hl Hrep Hlen] Hx Hm. destruct (unlink_spec _ _ _ _ _ Hrep) as (h & l & Hun & Hrep' & Hnn & _ & _).
  assert (t ≠ 0) as Ht by (intros ->; apply (rep_nonnull _ _ _ Hrep); set_solver).
  exists h, (l <| dl_nNodes := dl_nNodes (timer_list s) - 1 |>). split; [|done].
  unfold Core_CancelTimer. rewrite (proj2 (truthy_true t)) by done. cbn [negb].
  unfold get_timer, set_timer. erewrite bind_Ret by (by apply load_eq).
  rewrite (bool_decide_eq_false_2 (mode x = TIMER_UNINITIALIZED)), (bool_decide_eq_false_2 (mode x = TIMER_EXPIRED))
    by (destruct Hm as [-> | ->]; done).
  erewrite bind_Ret by (by apply (timer_list_locked s v); [..|exact Hun]).
  erewrite bind_Ret by (apply store_eq; exact Hx). unfold mret, K_ret. f_equal. simpl.
  rewrite wrap_small; [by rewrite Hnn|]. unfold in_u. rewrite Hnn, (rep_count _ _ _ Hrep), length_app in *. simpl in *. lia.
Qed.

(** [C25] Starting a timer of between 1 and 8388607999 microseconds and cancelling it
    again leaves the list of timers, the interrupt level and the locks as they were; in
    between the timer is last in the list and runs in the mode asked for; afterwards it
    is expired. The timer's [next] link must be null before, which holds for a timer
    that is new, but not for every timer that was cancelled: [Core_CancelTimer] does not
    clear the links and [Core_TimerObjectInitialize] does not set this one. *)
Theorem timer_start_cancel s v xs t x lk m us now :
  timers_at s v xs → t ≠ 0 → t ∉ xs → timers s !! t = Some x → timer_links s !! t = Some lk → dl_next lk = 0 →
  m = TIMER_MODE_DEADLINE ∨ m = TIMER_MODE_INTERVAL → 0 < us < 8388608000 → Z.of_nat (length xs) + 2 < 2 ^ 64 →
  (∀ s, CoreS_GetTimerTick s = Ret now s) →
  ∃ s1 s2, Core_TimerObjectInitialize t m us s = Ret OBOS_STATUS_SUCCESS s1 ∧
    dl_rep (timer_links s1) (timer_list s1) (xs ++ [t]) ∧ mode <$> timers s1 !! t = Some m ∧
    Core_CancelTimer t s1 = Ret OBOS_STATUS_SUCCESS s2 ∧
    timers_at s2 v xs ∧ tk s2 = tk s ∧ mode <$> timers s2 !! t = Some TIMER_EXPIRED.
Proof.
  intros Hta Ht Hnin Hx Hlk Hnx Hm Hus Hlen Hnow.
  destruct (timer_initialize_eq _ _ _ _ _ _ _ _ _ Hta Ht Hnin Hx Hlk Hnx Hm Hus Hnow) as (h & l & E1 & Hrep1).
  set (s1 := s <| timers ::= _ |> <| timer_links := h |> <| timer_list := l |>) in E1.
  assert (timers_at s1 v (xs ++ [t])) as Hta1.
  { destruct Hta. split; try done. rewrite length_app. simpl. lia. }
  destruct (timer_cancel_eq s1 v xs t [] (started m (us / 1000 + 1) now x)) as (h2 & l2 & E2 & Hrep2); [done| |done|].
  { simpl. apply lookup_insert_eq. }
  rewrite app_nil_r in Hrep2.
  eexists s1, _. split; [exact E1|]. split; [done|]. split; [simpl; by rewrite lookup_insert_eq|].
  split; [exact E2|]. split; [|split; [done|simpl; by rewrite lookup_insert_eq]].
  destruct Hta. by split.
Qed.

(** A deadline timer that is started for the first time does not run for the
    time asked for: its deadline is counted from the start of the clock, so
    that it counts as expired at once when the machine has been running for
    that long already. *)
Theorem timer_deadline_fresh s v xs t x lk us now :
  timers_at s v xs → t ≠ 0 → t ∉ xs → timers s !! t = Some x → lastTimeTicked x = 0 →
  timer_links s !! t = Some lk → dl_next lk = 0 → 0 < us < 8388608000 →
  (∀ s, CoreS_GetTimerTick s = Ret now s) → us / 1000 + 1 <= now →
  ∃ s1 x1, Core_TimerObjectInitialize t TIMER_MODE_DEADLINE us s = Ret OBOS_STATUS_SUCCESS s1 ∧
    timers s1 !! t = Some x1 ∧ lastTimeTicked x1 = now ∧ timing x1 = us / 1000 + 1 ∧ timer_expired x1 now = true.
Proof.
  intros Hta Ht Hnin Hx H0 Hlk Hnx Hus Hnow Hlate.
  destruct (timer_initialize_eq _ _ _ _ _ _ TIMER_MODE_DEADLINE us now Hta Ht Hnin Hx Hlk Hnx (or_introl eq_refl) Hus Hnow) as (h & l & E1 & _).
  eexists _, _. split; [exact E1|]. split; [simpl; apply lookup_insert_eq|].
  assert (0 <= us / 1000 < 2 ^ 60) by (split; [apply Z.div_pos; lia|apply Z.div_lt_upper_bound; lia]).
  unfold started, timer_expired. simpl. rewrite H0, wrap_small by (unfold in_u; lia).
  split; [done|]. split; [lia|]. apply Z.leb_le. lia.
Qed.

End timers.
