(* ===== verification/BasicAlloc.v ===== *)
(** * The basic allocator ([allocators/basic_allocator.c])

    Memory comes from a page source in regions; a region is cut into nodes, a
    header followed by its block, which are in the region's list of free or of
    allocated nodes.  Headers are objects in typed maps ([nodes], [regions],
    their links in heaps of links); [amem] has the bytes, whose presence says
    which addresses are mapped.  A header can be written wherever memory is
    mapped.  The build is without address sanitizer. *)

From S2P Require Import Prelude DList KState Irql Bytes.

(** ** Data ([allocators/basic_allocator.h]) *)

Definition MEMBLOCK_MAGIC : Z := 0x6AB450AA.
Definition PAGEBLOCK_MAGIC : Z := 0x768AADFC.
Definition OBOS_BASIC_ALLOCATOR_MAGIC : Z := 0x7E046A92E7735.

Inductive blockSource :=
| BLOCK_SOURCE_INVALID | BLOCK_SOURCE_PHYSICAL_MEMORY | BLOCK_SOURCE_BASICMM | BLOCK_SOURCE_VMA.
#[global] Instance blockSource_eq_dec : EqDecision blockSource.
Proof. solve_decision. Defined.

(** Every field is aligned to 16 bytes. *)
Definition SIZEOF_NODE : Z := 80.
Definition SIZEOF_REGION : Z := 176.

Record basicalloc_node := mkNode { n_magic : Z; n_size : Z; containingRegion : Z }.
#[export] Instance eta_basicalloc_node : Etable basicalloc_node :=
  λ r, mkNode (n_magic r) (n_size r) (containingRegion r).

Record basicalloc_region := mkRegion {
  r_magic : Z; r_size : Z; nFreeBytes : Z; r_free : dlist; r_allocated : dlist;
  biggestFreeNode : Z; r_source : blockSource
}.
#[export] Instance eta_basicalloc_region : Etable basicalloc_region :=
  λ r, mkRegion (r_magic r) (r_size r) (nFreeBytes r) (r_free r) (r_allocated r) (biggestFreeNode r) (r_source r).

(** A header in memory that reads as zeros ([blockSource] 0 is the second
    constructor). *)
Definition zero_region : basicalloc_region :=
  mkRegion 0 0 0 empty_list empty_list nullptr BLOCK_SOURCE_PHYSICAL_MEMORY.

(** [magic] of the header, and the list [regionHead], [regionTail],
    [nRegions]; [lock] is [AllocatorLock], [totalPagesAllocated] is not used. *)
Record basic_allocator := mkBasic { a_magic : Z; a_regions : dlist }.
#[export] Instance eta_basic_allocator : Etable basic_allocator := λ r, mkBasic (a_magic r) (a_regions r).

Record ast := mkAst {
  ak : kst;
  amem : bmem;
  nodes : gmap Z basicalloc_node;
  node_links : lheap;
  regions : gmap Z basicalloc_region;
  region_links : lheap;
  allocators : gmap Z basic_allocator;
  Mm_Allocator : Z;
  OBOS_NonPagedPoolAllocator : Z
}.
#[export] Instance eta_ast : Etable ast :=
  λ r, mkAst (ak r) (amem r) (nodes r) (node_links r) (regions r) (region_links r) (allocators r)
    (Mm_Allocator r) (OBOS_NonPagedPoolAllocator r).

#[global, program] Instance ast_HasMem : HasMem ast :=
  {| mem_of := amem; mem_upd := λ m s, s <| amem := m |> |}.
Solve Obligations with (intros; by repeat match goal with s : ast |- _ => destruct s end).

(** The memory managers below: [Mm_AllocatePhysicalPages] with the direct map,
    [Mm_VirtualMemoryAlloc] and [OBOS_BasicMMAllocatePages], with the address
    ([0] on failure) and the status they set; and their counterparts. *)
Class PageSource := {
  Mm_IsInitialized : K ast bool;
  phys_alloc : Z → K ast (Z * obos_status);
  phys_free : Z → Z → K ast ();
  MapToHHDM : Z → Z;
  UnmapFromHHDM : Z → Z;
  vma_alloc : Z → bool → K ast (Z * obos_status);
  vma_free : Z → Z → K ast ();
  basicmm_alloc : Z → K ast (Z * obos_status);
  basicmm_free : Z → Z → K ast ()
}.

Definition akern {A} (m : K kst A) : K ast A := zoom ak (λ k s, s <| ak := k |>) m.

(** [size] bytes from [p] on are mapped. *)
Definition mappedb (m : bmem) (p size : Z) : bool :=
  forallb (λ i, bool_decide (is_Some (m !! (p + i)))) (seqZ 0 size).

(** Writing whole headers. *)
Definition put_node (n size region : Z) : K ast () :=
  m ← gets amem;
  if negb (mappedb m n SIZEOF_NODE) then stop BadDeref else
  modify (λ s, s <| nodes ::= <[n := mkNode MEMBLOCK_MAGIC size region]> |> <| node_links ::= <[n := unlinked]> |>).
Definition zero_region_at (r : Z) : K ast () :=
  m ← gets amem;
  if negb (mappedb m r SIZEOF_REGION) then stop BadDeref else
  modify (λ s, s <| regions ::= <[r := zero_region]> |> <| region_links ::= <[r := unlinked]> |>).

Definition get_node (n : Z) : K ast basicalloc_node := load nodes n.
Definition set_node (n : Z) (f : basicalloc_node → basicalloc_node) : K ast () :=
  store nodes (λ m s, s <| nodes := m |>) n f.
Definition next_node (n : Z) : K ast Z := l ← load node_links n; mret (dl_next l).
Definition get_region (r : Z) : K ast basicalloc_region := load regions r.
Definition set_region (r : Z) (f : basicalloc_region → basicalloc_region) : K ast () :=
  store regions (λ m s, s <| regions := m |>) r f.
Definition next_region (r : Z) : K ast Z := l ← load region_links r; mret (dl_next l).
Definition get_alloc (a : Z) : K ast basic_allocator := load allocators a.
Definition set_alloc (a : Z) (f : basic_allocator → basic_allocator) : K ast () :=
  store allocators (λ m s, s <| allocators := m |>) a f.

(** ** List code

    Unlinking in the order of this file, the predecessor first. *)
Definition unlink_pn (h : lheap) (l : dlist) (n : Z) : option (lheap * dlist) :=
  w ← h !! n;
  h ← opt_when (truthy (dl_prev w)) (λ h, set_next h (dl_prev w) (dl_next w)) h;
  w ← h !! n;
  h ← opt_when (truthy (dl_next w)) (λ h, set_prev h (dl_next w) (dl_prev w)) h;
  w ← h !! n;
  let l := if dl_head l =? n then l <| dl_head := dl_next w |> else l in
  let l := if dl_tail l =? n then l <| dl_tail := dl_prev w |> else l in
  Some (h, l).

(** Applying a list operation to the free or the allocated nodes of a region,
    and counting. *)
Definition free_op (r : Z) (op : lheap → dlist → option (lheap * dlist)) (count : Z → Z) : K ast () :=
  x ← get_region r;
  h ← gets node_links;
  p ← deref_opt (op h (r_free x));
  modify (λ s, s <| node_links := p.1 |>);;
  set_region r (λ x, x <| r_free := p.2 <| dl_nNodes ::= count |> |>).
Definition allocated_op (r : Z) (op : lheap → dlist → option (lheap * dlist)) (count : Z → Z) : K ast () :=
  x ← get_region r;
  h ← gets node_links;
  p ← deref_opt (op h (r_allocated x));
  modify (λ s, s <| node_links := p.1 |>);;
  set_region r (λ x, x <| r_allocated := p.2 <| dl_nNodes ::= count |> |>).
Definition regions_op (this : Z) (op : lheap → dlist → option (lheap * dlist)) (count : Z → Z) : K ast () :=
  a ← get_alloc this;
  h ← gets region_links;
  p ← deref_opt (op h (a_regions a));
  modify (λ s, s <| region_links := p.1 |>);;
  set_alloc this (λ a, a <| a_regions := p.2 <| dl_nNodes ::= count |> |>).
Definition incr (n : Z) : Z := wrap64 (n + 1).
Definition decr (n : Z) : Z := wrap64 (n - 1).

Definition round_up (x to : Z) : Z := if truthy (x mod to) then wrap64 (x + (to - x mod to)) else x.

Definition set_status (p : option obos_status) (to : obos_status) : option obos_status := (λ _, to) <$> p.

Section ops.
Context {DH : DpcHandlers} {PS : PageSource}.

Definition pages_for (size : Z) : Z := size / OBOS_PAGE_SIZE + (if truthy (size mod OBOS_PAGE_SIZE) then 1 else 0).

(** [memzero(blk, size)] clears the bytes, and the header that will be there. *)
Definition clear_block (blk size : Z) : K ast () := memzero blk size;; zero_region_at blk.

Definition allocateBlock (this size : Z) (status : option obos_status) : K ast (Z * blockSource * option obos_status) :=
  i ← Mm_IsInitialized;
  if (i : bool) then
    mm ← gets Mm_Allocator;
    np ← gets OBOS_NonPagedPoolAllocator;
    if this =? mm then
      p ← phys_alloc (pages_for size);
      let status := set_status status p.2 in
      if negb (truthy p.1) then mret (nullptr, BLOCK_SOURCE_INVALID, status) else
      let ret := MapToHHDM p.1 in
      clear_block ret size;;
      mret (ret, BLOCK_SOURCE_PHYSICAL_MEMORY, status)
    else
      p ← vma_alloc size (this =? np);
      let status := set_status status p.2 in
      if negb (truthy p.1) then mret (nullptr, BLOCK_SOURCE_INVALID, status) else
      when (this =? np) (clear_block p.1 size);;
      mret (p.1, BLOCK_SOURCE_VMA, status)
  else
    p ← basicmm_alloc size;
    let status := set_status status p.2 in
    if negb (truthy p.1) then mret (nullptr, BLOCK_SOURCE_INVALID, status) else
    let blk := Z.land (wrap64 (p.1 + 0xf)) (wrap64 (Z.lnot 0xf)) in
    clear_block blk size;;
    mret (blk, BLOCK_SOURCE_BASICMM, status).

Definition allocateNewRegion (this size : Z) (status : option obos_status) : K ast (Z * option obos_status) :=
  let size := round_up size (OBOS_PAGE_SIZE * 4) in
  let initialSize := wrap64 (size + (SIZEOF_REGION + SIZEOF_NODE)) in
  b ← allocateBlock this initialSize status;
  let '(blk, source, status) := b in
  if negb (truthy blk) then mret (nullptr, status) else
  set_region blk (λ r, r <| r_magic := PAGEBLOCK_MAGIC |> <| r_size := wrap64 (initialSize + SIZEOF_REGION) |>);;
  let n := blk + SIZEOF_REGION in
  put_node n initialSize blk;;
  set_region blk (λ r, r <| biggestFreeNode := n |> <| r_free := mkList n n (incr (dl_nNodes (r_free r))) |>
    <| nFreeBytes ::= λ f, wrap64 (f + initialSize) |> <| r_source := source |>);;
  regions_op this (λ h l, link_tail h l blk) incr;;
  mret (blk, status).

Definition freeRegion (this block : Z) : K ast () :=
  regions_op this (λ h l, unlink_pn h l block) decr;;
  x ← get_region block;
  OBOS_ASSERT (negb (bool_decide (r_source x = BLOCK_SOURCE_INVALID)));;
  match r_source x with
  | BLOCK_SOURCE_BASICMM => basicmm_free block (r_size x)
  | BLOCK_SOURCE_VMA => vma_free block (r_size x)
  | BLOCK_SOURCE_PHYSICAL_MEMORY => phys_free (UnmapFromHHDM block) (pages_for (r_size x))
  | BLOCK_SOURCE_INVALID => stop Panic
  end.

(** The first region from [r] on whose biggest free node is large enough. *)
Fixpoint find_from (fuel : nat) (r size : Z) : K ast Z :=
  if negb (truthy r) then mret nullptr else
  x ← get_region r;
  ok ← (if negb (truthy (dl_nNodes (r_free x))) || negb (truthy (biggestFreeNode x)) then mret false
        else n ← get_node (biggestFreeNode x); mret (size <=? n_size n));
  if (ok : bool) then mret r else
  match fuel with
  | O => stop Hang
  | S fuel => r' ← next_region r; find_from fuel r' size
  end.

(** The search for the biggest free node from [n] on. *)
Fixpoint biggest_loop (fuel : nat) (n res : Z) : K ast Z :=
  if negb (truthy n) then mret res else
  x ← get_node n;
  better ← (if negb (truthy res) then mret true else y ← get_node res; mret (n_size y <? n_size x));
  match fuel with
  | O => stop Hang
  | S fuel => n' ← next_node n; biggest_loop fuel n' (if (better : bool) then n else res)
  end.
Definition update_biggest (from : Z) : K ast () :=
  x ← get_region from;
  h ← gets node_links;
  b ← biggest_loop (size h) (dl_head (r_free x)) nullptr;
  set_region from (λ x, x <| biggestFreeNode := b |>).

(** The search for a free node from [n] on: one of exactly the size is taken out
    of the list, a larger one is cut.  The comparison of [biggestFreeNode] with
    [freeNode] in the second case is with the null pointer [freeNode] still is. *)
Fixpoint take_node (fuel : nat) (from n size : Z) : K ast Z :=
  if negb (truthy n) then mret nullptr else
  x ← get_node n;
  r ← get_region from;
  if negb (n_magic x =? MEMBLOCK_MAGIC) || (r_size r <? n_size x) || negb (containingRegion x =? from) then stop Panic else
  if n_size x =? size then
    free_op from (λ h l, unlink_pn h l n) decr;;
    r ← get_region from;
    when (biggestFreeNode r =? n) (update_biggest from);;
    mret n
  else if wrap64 (size + SIZEOF_NODE) <=? n_size x then
    set_node n (λ x, x <| n_size ::= λ z, wrap64 (z - wrap64 (size + SIZEOF_NODE)) |>);;
    x ← get_node n;
    when (negb (truthy (n_size x))) (
      free_op from (λ h l, unlink_pn h l n) decr;;
      r ← get_region from;
      when (biggestFreeNode r =? nullptr) (update_biggest from));;
    mret (n + SIZEOF_NODE + n_size x)
  else
  match fuel with
  | O => stop Hang
  | S fuel => n' ← next_node n; take_node fuel from n' size
  end.

(** From the label [tryAgain] on: the node, or null, and the status. *)
Fixpoint allocate_from (fuel : nat) (this start size : Z) (status : option obos_status)
  : K ast (Z * option obos_status) :=
  h ← gets region_links;
  from ← find_from (Datatypes.S (base.size h)) start size;
  p ← (if truthy from then mret (from, status) else allocateNewRegion this size status);
  let '(from, status) := p in
  if negb (truthy from) then mret (nullptr, status) else
  x ← get_region from;
  h ← gets node_links;
  freeNode ← take_node (base.size h) from (dl_head (r_free x)) size;
  if negb (truthy freeNode) then
    match fuel with
    | O => stop Hang
    | S fuel => start ← next_region from; allocate_from fuel this start size status
    end
  else
  put_node freeNode size from;;
  allocated_op from (λ h l, link_tail h l freeNode) incr;;
  set_region from (λ r, r <| nFreeBytes ::= λ f, wrap64 (f - size) |>);;
  mret (freeNode, status).

Definition Allocate (this size : Z) (status : option obos_status) : K ast (Z * option obos_status) :=
  if negb (truthy this) then mret (nullptr, set_status status OBOS_STATUS_INVALID_ARGUMENT) else
  a ← get_alloc this;
  if negb (a_magic a =? OBOS_BASIC_ALLOCATOR_MAGIC) || negb (truthy size)
  then mret (nullptr, set_status status OBOS_STATUS_INVALID_ARGUMENT) else
  oldIrql ← akern (Core_SpinlockAcquireExplicit (Some (AllocatorLock this)) IRQL_DISPATCH false);
  a ← get_alloc this;
  h ← gets region_links;
  p ← allocate_from (Datatypes.S (base.size h)) this (dl_head (a_regions a)) (round_up size 0x10) (set_status status OBOS_STATUS_SUCCESS);
  akern (Core_SpinlockRelease (AllocatorLock this) oldIrql);;
  mret (if truthy p.1 then p.1 + SIZEOF_NODE else nullptr, p.2).

Definition ZeroAllocate (this nObjects bytesPerObject : Z) (status : option obos_status) : K ast (Z * option obos_status) :=
  if negb (truthy this) then mret (nullptr, set_status status OBOS_STATUS_INVALID_ARGUMENT) else
  a ← get_alloc this;
  if negb (a_magic a =? OBOS_BASIC_ALLOCATOR_MAGIC)
  then mret (nullptr, set_status status OBOS_STATUS_INVALID_ARGUMENT) else
  let size := wrap64 (bytesPerObject * nObjects) in
  p ← Allocate this size status;
  memzero p.1 size;;
  mret p.

Definition Free (this base nBytes : Z) : K ast obos_status :=
  if negb (truthy this) then mret OBOS_STATUS_INVALID_ARGUMENT else
  a ← get_alloc this;
  if negb (a_magic a =? OBOS_BASIC_ALLOCATOR_MAGIC) then mret OBOS_STATUS_INVALID_ARGUMENT else
  if negb (truthy base) then mret OBOS_STATUS_SUCCESS else
  let n := base - SIZEOF_NODE in
  x ← get_node n;
  if negb (n_magic x =? MEMBLOCK_MAGIC) then mret OBOS_STATUS_MISMATCH else
  let r := containingRegion x in
  if negb (truthy r) then mret OBOS_STATUS_INTERNAL_ERROR else
  oldIrql ← akern (Core_SpinlockAcquireExplicit (Some (AllocatorLock this)) IRQL_DISPATCH false);
  allocated_op r (λ h l, unlink_pn h l n) decr;;
  y ← get_region r;
  (if negb (truthy (dl_nNodes (r_allocated y))) then freeRegion this r else
   store node_links (λ m s, s <| node_links := m |>) n (λ _, unlinked);;
   free_op r (λ h l, link_tail h l n) incr;;
   x ← get_node n;
   set_region r (λ y, y <| nFreeBytes ::= λ f, wrap64 (f + n_size x) |>);;
   y ← get_region r;
   bigger ← (if negb (truthy (biggestFreeNode y)) then mret true
             else z ← get_node (biggestFreeNode y); mret (n_size z <? n_size x));
   when bigger (set_region r (λ y, y <| biggestFreeNode := n |>)));;
  akern (Core_SpinlockRelease (AllocatorLock this) oldIrql);;
  mret OBOS_STATUS_SUCCESS.

(** The status, and [*nBytes] when the pointer is not null. *)
Definition QueryBlockSize (this base : Z) (nBytes : option Z) : K ast (obos_status * option Z) :=
  if negb (truthy this) then mret (OBOS_STATUS_INVALID_ARGUMENT, nBytes) else
  a ← get_alloc this;
  if negb (a_magic a =? OBOS_BASIC_ALLOCATOR_MAGIC) || bool_decide (nBytes = None) || negb (truthy base)
  then mret (OBOS_STATUS_INVALID_ARGUMENT, nBytes) else
  x ← get_node (base - SIZEOF_NODE);
  if negb (n_magic x =? MEMBLOCK_MAGIC) then mret (OBOS_STATUS_MISMATCH, nBytes) else
  if negb (truthy (containingRegion x)) then mret (OBOS_STATUS_MISMATCH, nBytes) else
  mret (OBOS_STATUS_SUCCESS, Some (n_size x)).

Definition Reallocate (this base newSize : Z) (status : option obos_status) : K ast (Z * option obos_status) :=
  if negb (truthy this) then mret (nullptr, set_status status OBOS_STATUS_INVALID_ARGUMENT) else
  a ← get_alloc this;
  if negb (a_magic a =? OBOS_BASIC_ALLOCATOR_MAGIC)
  then mret (nullptr, set_status status OBOS_STATUS_INVALID_ARGUMENT) else
  if negb (truthy newSize) then
    q ← QueryBlockSize this base (Some 0);
    Free this base (default 0 q.2);;
    mret (nullptr, status)
  else if negb (truthy base) then Allocate this newSize status else
  let newSize := round_up newSize 0x10 in
  q ← QueryBlockSize this base (Some 0);
  let objSize := default 0 q.2 in
  if objSize =? SIZE_MAX then mret (nullptr, status) else
  if objSize =? newSize then mret (base, status) else
  if newSize <? objSize then
    set_node (base - SIZEOF_NODE) (λ x, x <| n_size := newSize |>);;
    mret (base, status)
  else
  p ← Allocate this newSize status;
  memcpy p.1 base objSize;;
  f ← Free this base objSize;
  mret (p.1, set_status p.2 f).

(** The function pointers of the header are those above. *)
Definition OBOSH_ConstructBasicAllocator (this : Z) : K ast obos_status :=
  if negb (truthy this) then mret OBOS_STATUS_INVALID_ARGUMENT else
  set_alloc this (λ a, a <| a_magic := OBOS_BASIC_ALLOCATOR_MAGIC |>);;
  mret OBOS_STATUS_SUCCESS.

End ops.
