(* ===== verification/BasicAllocProofs.v ===== *)
(** * The basic allocator: correctness

    Blocks that are allocated lie inside the regions, are disjoint from each
    other, from every free block and from every header; allocating adds exactly
    one, freeing removes exactly one; nothing else in memory changes.  An
    allocation fails only when every region was passed over and the page source
    refuses; a freed block joins the free list of its region or takes the region
    with it. *)

From S2P Require Import Prelude DList KState Irql Bytes BasicAlloc.

(** ** Lists *)

Lemma unlink_pn_unlink h l x a b :
  h !! x = Some (mkLink b a) → a ≠ x → b ≠ x → (a = b → a = 0) → unlink_pn h l x = unlink h l x.
Proof.
  intros Hx Ha Hb Hab. unfold unlink_pn, unlink, set_next, set_prev. rewrite Hx. simpl.
  destruct (truthy a) eqn:Ta, (truthy b) eqn:Tb; simpl.
  - apply truthy_true in Ta. assert (a ≠ b) by naive_solver.
    destruct (h !! a) as [la|] eqn:Ela; simpl; (destruct (h !! b) as [lb|] eqn:Elb; simpl);
      rewrite ?lookup_insert_ne by done; rewrite ?Hx; simpl; rewrite ?Ta, ?Tb, ?(truthy_nz a) by done; simpl;
      rewrite ?lookup_insert_ne by done; rewrite ?Ela, ?Elb; simpl; try done.
    rewrite !lookup_insert_ne, Hx by done. simpl. by rewrite (insert_insert_ne _ b a).
  - destruct (h !! a) as [la|] eqn:Ela; simpl; rewrite ?Hx; simpl; rewrite ?Ta, ?Tb; simpl; rewrite ?Ela; simpl; [|done].
    rewrite !lookup_insert_ne, Hx by done. simpl. rewrite Tb. simpl. by rewrite lookup_insert_ne, Hx by done.
  - rewrite Hx. simpl. rewrite Tb. simpl. destruct (h !! b) as [lb|] eqn:Elb; simpl; [|done].
    rewrite !lookup_insert_ne, Hx by done. simpl. rewrite Ta. simpl. by rewrite lookup_insert_ne, Hx by done.
  - rewrite Hx. simpl. rewrite Ta, Tb. simpl. by rewrite Hx.
Qed.

Lemma unlink_pn_spec h l l1 x l2 :
  dl_rep h l (l1 ++ x :: l2) → Z.of_nat (length (l1 ++ x :: l2)) < 2 ^ 64 →
  ∃ h' l', unlink_pn h l x = Some (h', l') ∧ dl_rep h' (l' <| dl_nNodes ::= decr |>) (l1 ++ l2) ∧
    links_frame (l1 ++ l2) h h'.
Proof.
  intros Hrep Hlen. pose proof (rep_neighbours _ _ _ _ _ Hrep) as (_ & Ha & Hb & Hab).
  destruct (unlink_spec _ _ _ _ _ Hrep) as (h' & l' & Hun & Hrep' & Hn & _ & Hf).
  exists h', l'. split; [|split; [|done]].
  - rewrite (unlink_pn_unlink _ _ _ _ _ (seg_mid _ _ _ _ (rep_seg _ _ _ Hrep))); done.
  - replace (l' <| dl_nNodes ::= decr |>) with (l' <| dl_nNodes := dl_nNodes l - 1 |>); [done|].
    destruct l' as [? ? n']. simpl in *. subst n'. f_equal. unfold decr. symmetry. apply wrap_small. unfold in_u.
    rewrite (rep_count _ _ _ Hrep), length_app in *. simpl in *. lia.
Qed.

Lemma push_spec h l xs x lk :
  dl_rep h l xs → x ∉ xs → x ≠ 0 → h !! x = Some lk → dl_next lk = 0 → Z.of_nat (length xs) + 1 < 2 ^ 64 →
  ∃ h' l', link_tail h l x = Some (h', l') ∧ dl_rep h' (l' <| dl_nNodes ::= incr |>) (xs ++ [x]) ∧
    links_frame (x :: xs) h h'.
Proof.
  intros Hrep Hin Hx Hlk Hnx Hlen. destruct (link_tail_spec _ _ _ _ _ Hrep Hin Hx Hlk Hnx) as (h' & Hlt & Hseg & Hf).
  eexists h', _. split; [exact Hlt|]. split; [|done].
  apply (rep_of_link_tail h' l xs x _ h Hrep Hin Hx Hseg). simpl. unfold incr.
  rewrite (rep_count _ _ _ Hrep). apply wrap_small. unfold in_u. lia.
Qed.

(** Distinct addresses between [lo] and [hi] are at most [hi - lo]. *)
Lemma length_in_range l lo hi :
  NoDup l → (∀ x, x ∈ l → lo <= x < hi) → Z.of_nat (length l) <= Z.max 0 (hi - lo).
Proof.
  intros Hnd Hin. assert (l ⊆+ seqZ lo (hi - lo)) as Hs.
  { apply NoDup_submseteq; [done|]. intros x Hx. apply elem_of_seqZ. apply Hin in Hx. lia. }
  apply submseteq_length in Hs. rewrite length_seqZ in Hs. lia.
Qed.

Lemma mappedb_spec m p n : mappedb m p n = true ↔ mapped m p (Z.to_nat n).
Proof.
  unfold mappedb. rewrite forallb_forall. split.
  - intros H i Hi. specialize (H (Z.of_nat i)). rewrite bool_decide_eq_true in H. apply H.
    apply list_elem_of_In, elem_of_seqZ. lia.
  - intros H i Hi%list_elem_of_In%elem_of_seqZ. apply bool_decide_eq_true.
    specialize (H (Z.to_nat i)). rewrite Z2Nat.id in H by lia. apply H. lia.
Qed.

(** ** The invariant *)

Abbreviation PG := OBOS_PAGE_SIZE.
Abbreviation node_ok := (mkNode MEMBLOCK_MAGIC).

(** The end of the pages of the region at [r]. *)
Definition rtop (r : Z) (x : basicalloc_region) : Z := r + pages_for (r_size x) * PG.

Lemma mod16_add a b : a mod 16 = 0 → b mod 16 = 0 → (a + b) mod 16 = 0.
Proof. intros. Z.div_mod_to_equations. lia. Qed.
Lemma mod16_sub a b : a mod 16 = 0 → b mod 16 = 0 → (a - b) mod 16 = 0.
Proof. intros. Z.div_mod_to_equations. lia. Qed.

(** Two address ranges are apart. *)
Definition apart (a n b m : Z) : Prop := a + n <= b ∨ b + m <= a.

(** The region at [r] has the free nodes [fs] and the allocated nodes [al]: each
    with its header and block inside the region, apart from all the others. *)
Record region_ok (s : ast) (r : Z) (x : basicalloc_region) (fs al : list Z) : Prop := {
  ro_hdr : regions s !! r = Some x;
  ro_pos : 0 < r ∧ r mod 16 = 0;
  ro_top : rtop r x < 2 ^ 64;
  ro_mapped a : r <= a < rtop r x → is_Some (amem s !! a);
  ro_free : dl_rep (node_links s) (r_free x) fs;
  ro_alloc : dl_rep (node_links s) (r_allocated x) al;
  ro_nodup : NoDup (fs ++ al);
  ro_node n : n ∈ fs ++ al → ∃ z, nodes s !! n = Some (node_ok z r) ∧ 0 <= z <= r_size x ∧
    r + SIZEOF_REGION <= n ∧ n + SIZEOF_NODE + z <= rtop r x ∧ n mod 16 = 0 ∧ z mod 16 = 0;
  ro_apart n m z w : n ∈ fs ++ al → m ∈ fs ++ al → n ≠ m → nodes s !! n = Some (node_ok z r) →
    nodes s !! m = Some (node_ok w r) → apart n (SIZEOF_NODE + z) m (SIZEOF_NODE + w);
  ro_biggest : biggestFreeNode x = 0 ∨
    (is_Some (nodes s !! biggestFreeNode x) ∧ r <= biggestFreeNode x < rtop r x);
  ro_source : r_source x ≠ BLOCK_SOURCE_INVALID;
  ro_size : 0 < r_size x
}.

(** The allocator [this] has the regions [rs] with the headers [X], the free
    nodes [F] and the allocated nodes [A]. *)
Record alloc_inv (s : ast) (this : Z) (rs : list Z) (X : Z → basicalloc_region) (F A : Z → list Z) : Prop := {
  ai_this : this ≠ 0;
  ai_alloc : ∃ a, allocators s !! this = Some a ∧ a_magic a = OBOS_BASIC_ALLOCATOR_MAGIC ∧
    dl_rep (region_links s) (a_regions a) rs;
  ai_region r : r ∈ rs → region_ok s r (X r) (F r) (A r);
  ai_apart r q : r ∈ rs → q ∈ rs → r ≠ q → rtop r (X r) <= q ∨ rtop q (X q) <= r
}.

(** [p] is an allocated block of [z] bytes. *)
Definition live (s : ast) (rs : list Z) (A : Z → list Z) (p z : Z) : Prop :=
  ∃ r n, r ∈ rs ∧ n ∈ A r ∧ nodes s !! n = Some (node_ok z r) ∧ p = n + SIZEOF_NODE.

Lemma ro_length s r x fs al : region_ok s r x fs al → Z.of_nat (length (fs ++ al)) + 1 < 2 ^ 64.
Proof.
  intros H. pose proof (length_in_range (fs ++ al) r (rtop r x) (ro_nodup _ _ _ _ _ H)) as Hl.
  pose proof (ro_top _ _ _ _ _ H). pose proof (ro_pos _ _ _ _ _ H).
  assert (r <= rtop r x ∨ fs ++ al = []) as Hr.
  { destruct (fs ++ al) as [|n l] eqn:E; [by right|left].
    destruct (ro_node _ _ _ _ _ H n) as (z & _ & ? & ? & ? & _); [rewrite E; set_solver|].
    unfold SIZEOF_REGION, SIZEOF_NODE in *. lia. }
  destruct Hr as [Hr| ->]; [|simpl; lia].
  enough (∀ n, n ∈ fs ++ al → r <= n < rtop r x) as Hin by (specialize (Hl Hin); lia).
  intros n Hn. destruct (ro_node _ _ _ _ _ H n Hn) as (z & _ & ? & ? & ? & _).
  unfold SIZEOF_REGION, SIZEOF_NODE in *. lia.
Qed.

(** Only the region [r], up to [top], is changed. *)
Record changes (s s' : ast) (r top : Z) : Prop := {
  ch_rest : s' = s <| nodes := nodes s' |> <| node_links := node_links s' |> <| regions := regions s' |>;
  ch_nodes m : ¬ (r <= m < top) → nodes s' !! m = nodes s !! m;
  ch_links m : ¬ (r <= m < top) → node_links s' !! m = node_links s !! m;
  ch_regions q : q ≠ r → regions s' !! q = regions s !! q
}.

Lemma changes_trans s1 s2 s3 r top : changes s1 s2 r top → changes s2 s3 r top → changes s1 s3 r top.
Proof.
  intros [E1 N1 L1 R1] [E2 N2 L2 R2]. split.
  - rewrite E2, E1. by destruct s1.
  - intros m Hm. by rewrite N2, N1.
  - intros m Hm. by rewrite L2, L1.
  - intros q Hq. by rewrite R2, R1.
Qed.

(** Nothing outside the addresses from [q] to [top] is changed. *)
Record same_outside (s s' : ast) (q top : Z) : Prop := {
  so_nodes m : ¬ (q <= m < top) → nodes s' !! m = nodes s !! m;
  so_links m : ¬ (q <= m < top) → node_links s' !! m = node_links s !! m;
  so_regions m : ¬ (q <= m < top) → regions s' !! m = regions s !! m;
  so_mem m : ¬ (q <= m < top) → amem s' !! m = amem s !! m
}.

Lemma changes_outside s s' r top : r < top → changes s s' r top → same_outside s s' r top.
Proof.
  intros Hr [Es HN HL HR]. split; auto; [|by rewrite Es]. intros m Hm. apply HR. lia.
Qed.

Lemma rtop_pos s r x fs al : region_ok s r x fs al → r < rtop r x.
Proof.
  intros H. pose proof (ro_size _ _ _ _ _ H). unfold rtop, pages_for, OBOS_PAGE_SIZE.
  destruct (truthy (r_size x mod 4096)) eqn:E; [apply truthy_true in E|apply truthy_false in E];
    Z.div_mod_to_equations; lia.
Qed.

Lemma ro_node_range s r x fs al n : region_ok s r x fs al → n ∈ fs ++ al → r <= n < rtop r x.
Proof.
  intros H Hn. destruct (ro_node _ _ _ _ _ H n Hn) as (z & _ & ? & ? & ? & _).
  unfold SIZEOF_REGION, SIZEOF_NODE in *. lia.
Qed.

(** Another region is not concerned. *)
Lemma region_ok_frame s s' r x fs al q top :
  region_ok s r x fs al → same_outside s s' q top → (top <= r ∨ rtop r x <= q) → region_ok s' r x fs al.
Proof.
  intros H [HN HL HR HM] Hap. pose proof (λ n, ro_node_range _ _ _ _ _ n H) as Hrange. pose proof (rtop_pos _ _ _ _ _ H).
  assert (∀ n, n ∈ fs ++ al → nodes s' !! n = nodes s !! n) as HN'.
  { intros n Hn. apply HN. apply Hrange in Hn. lia. }
  assert (∀ n, n ∈ fs ++ al → node_links s' !! n = node_links s !! n) as HL'.
  { intros n Hn. apply HL. apply Hrange in Hn. lia. }
  destruct H. split; try done.
  - rewrite HR by lia. done.
  - intros a Ha. rewrite HM by lia. auto.
  - eapply dl_rep_frame; [|done]. set_solver.
  - eapply dl_rep_frame; [|done]. set_solver.
  - intros n Hn. rewrite HN' by done. auto.
  - intros n m z w Hn Hm. rewrite !HN' by done. auto.
  - destruct ro_biggest0 as [?|[? ?]]; [by left|right]. rewrite HN by lia. done.
Qed.

(** A region of which nodes are left out or made smaller. *)
Lemma region_ok_shrink s s' r x x' fs fs' al :
  region_ok s r x fs al → amem s' = amem s → regions s' !! r = Some x' →
  r_size x' = r_size x → r_source x' = r_source x →
  dl_rep (node_links s') (r_free x') fs' → dl_rep (node_links s') (r_allocated x') al →
  NoDup (fs' ++ al) → (∀ m, m ∈ fs' → m ∈ fs) →
  (∀ m z, m ∈ fs' ++ al → nodes s !! m = Some (node_ok z r) →
     ∃ w, nodes s' !! m = Some (node_ok w r) ∧ 0 <= w <= z ∧ w mod 16 = 0) →
  (biggestFreeNode x' = 0 ∨ (is_Some (nodes s' !! biggestFreeNode x') ∧ r <= biggestFreeNode x' < rtop r x)) →
  region_ok s' r x' fs' al.
Proof.
  intros H Hm Hx Hsz Hsrc Hf Ha Hnd Hsub Hn Hb.
  assert (rtop r x' = rtop r x) as Et by (unfold rtop; by rewrite Hsz).
  assert (∀ m, m ∈ fs' ++ al → m ∈ fs ++ al) as Hin by set_solver.
  destruct H. split; rewrite ?Et, ?Hm, ?Hsz, ?Hsrc; try done.
  - intros n Hn'. destruct (ro_node0 n) as (z & Hz & ? & ? & ? & ? & ?); [auto|].
    destruct (Hn n z Hn' Hz) as (w & Hw & ? & ?). exists w. repeat split; try done; lia.
  - intros n m z w Hn' Hm' Hne Hz Hw. destruct (ro_node0 n) as (z0 & Hz0 & _); [auto|].
    destruct (ro_node0 m) as (w0 & Hw0 & _); [auto|].
    destruct (Hn n z0 Hn' Hz0) as (z1 & Hz1 & ? & _). destruct (Hn m w0 Hm' Hw0) as (w1 & Hw1 & ? & _).
    destruct (ro_apart0 n m z0 w0) as [?|?]; auto; simplify_eq; unfold apart; lia.
Qed.

(** ** Execution of the primitives *)

Lemma free_op_eq s r x op count h l :
  regions s !! r = Some x → op (node_links s) (r_free x) = Some (h, l) →
  free_op r op count s =
    Ret () (s <| node_links := h |> <| regions ::= <[r := x <| r_free := l <| dl_nNodes ::= count |> |>]> |>).
Proof.
  intros Hx Hop. unfold free_op. erewrite bind_Ret by (by apply load_eq).
  rewrite (bind_Ret _ _ _ _ _ (gets_eq _ _)). erewrite bind_Ret by (by apply deref_opt_eq).
  erewrite bind_Ret by apply modify_eq. unfold set_region, set_alloc. by erewrite store_eq by exact Hx.
Qed.

Lemma allocated_op_eq s r x op count h l :
  regions s !! r = Some x → op (node_links s) (r_allocated x) = Some (h, l) →
  allocated_op r op count s =
    Ret () (s <| node_links := h |> <| regions ::= <[r := x <| r_allocated := l <| dl_nNodes ::= count |> |>]> |>).
Proof.
  intros Hx Hop. unfold allocated_op. erewrite bind_Ret by (by apply load_eq).
  rewrite (bind_Ret _ _ _ _ _ (gets_eq _ _)). erewrite bind_Ret by (by apply deref_opt_eq).
  erewrite bind_Ret by apply modify_eq. unfold set_region, set_alloc. by erewrite store_eq by exact Hx.
Qed.

Lemma regions_op_eq s this a op count h l :
  allocators s !! this = Some a → op (region_links s) (a_regions a) = Some (h, l) →
  regions_op this op count s =
    Ret () (s <| region_links := h |> <| allocators ::= <[this := a <| a_regions := l <| dl_nNodes ::= count |> |>]> |>).
Proof.
  intros Hx Hop. unfold regions_op. erewrite bind_Ret by (by apply load_eq).
  rewrite (bind_Ret _ _ _ _ _ (gets_eq _ _)). erewrite bind_Ret by (by apply deref_opt_eq).
  erewrite bind_Ret by apply modify_eq. unfold set_region, set_alloc. by erewrite store_eq by exact Hx.
Qed.

Lemma put_node_eq s n size r :
  mapped (amem s) n 80 →
  put_node n size r s = Ret () (s <| nodes ::= <[n := node_ok size r]> |> <| node_links ::= <[n := unlinked]> |>).
Proof.
  intros Hm. unfold put_node. rewrite (bind_Ret _ _ _ _ _ (gets_eq _ _)).
  by rewrite (proj2 (mappedb_spec (amem s) n SIZEOF_NODE)) by exact Hm.
Qed.

Lemma next_node_eq s n lk : node_links s !! n = Some lk → next_node n s = Ret (dl_next lk) s.
Proof. intros H. unfold next_node. by erewrite bind_Ret by (by apply load_eq). Qed.
Lemma next_region_eq s n lk : region_links s !! n = Some lk → next_region n s = Ret (dl_next lk) s.
Proof. intros H. unfold next_region. by erewrite bind_Ret by (by apply load_eq). Qed.

(** ** Searching *)

(** The search for the biggest node gives one of the nodes. *)
Lemma biggest_loop_eq l fuel p res s :
  seg (node_links s) p l 0 → 0 ∉ l → (∀ n, n ∈ l → is_Some (nodes s !! n)) →
  (res = 0 ∨ is_Some (nodes s !! res)) → (length l <= fuel)%nat →
  ∃ b, biggest_loop fuel (default 0 (head l)) res s = Ret b s ∧ (b = res ∨ b ∈ l).
Proof.
  revert fuel p res. induction l as [|n l IH]; intros fuel p res Hs H0 Hn Hr Hf.
  - exists res. split; [|by left]. by destruct fuel.
  - destruct Hs as [Hlk Hs]. simpl in Hf. destruct fuel as [|fuel]; [lia|]. simpl.
    rewrite (proj2 (truthy_true n)) by set_solver. cbn [negb].
    destruct (Hn n) as [y Hy]; [set_solver|]. erewrite bind_Ret by (by apply load_eq).
    assert (∃ b : bool, (if negb (truthy res) then mret true else y0 ← get_node res; mret (n_size y0 <? n_size y)) s = Ret b s) as [b Hb].
    { destruct (truthy res) eqn:E; simpl; [|by eexists]. apply truthy_true in E. destruct Hr as [?|[w Hw]]; [done|].
      eexists. by erewrite bind_Ret by (by apply load_eq). }
    erewrite bind_Ret by exact Hb. erewrite bind_Ret by (by apply next_node_eq). simpl.
    destruct (IH fuel n (if b then n else res)) as (c & Hc & Hcr); [done|set_solver|intros; apply Hn; set_solver| |lia|].
    { destruct b; [right|done]. eauto. }
    exists c. split; [done|]. destruct b; set_solver.
Qed.

Lemma update_biggest_eq s r x fs :
  regions s !! r = Some x → dl_rep (node_links s) (r_free x) fs → (∀ n, n ∈ fs → is_Some (nodes s !! n)) →
  ∃ b, update_biggest r s = Ret () (s <| regions ::= <[r := x <| biggestFreeNode := b |>]> |>) ∧ (b = 0 ∨ b ∈ fs).
Proof.
  intros Hx Hrep Hn. unfold update_biggest. erewrite bind_Ret by (by apply load_eq).
  rewrite (bind_Ret _ _ _ _ _ (gets_eq _ _)). rewrite (rep_head _ _ _ Hrep).
  destruct (biggest_loop_eq fs (size (node_links s)) 0 nullptr s) as (b & Hb & Hr);
    [apply Hrep|apply Hrep|done|by left|eapply seg_size; apply Hrep|].
  erewrite bind_Ret by exact Hb. exists b. split; [|done]. unfold set_region. by erewrite store_eq by exact Hx.
Qed.

(** ** Taking a node

    [n] is the place of a header and [size] bytes in the region [r] that no
    node of it uses any more. *)
Record cut (s : ast) (r : Z) (x : basicalloc_region) (al : list Z) (size n : Z) (s' : ast)
  (x' : basicalloc_region) (fs' : list Z) : Prop := {
  cu_ok : region_ok s' r x' fs' al;
  cu_size : r_size x' = r_size x;
  cu_source : r_source x' = r_source x;
  cu_range : r + SIZEOF_REGION <= n ∧ n + SIZEOF_NODE + size <= rtop r x ∧ n mod 16 = 0;
  cu_fit : size <= r_size x;
  cu_apart m w : m ∈ fs' ++ al → nodes s' !! m = Some (node_ok w r) → apart n (SIZEOF_NODE + size) m (SIZEOF_NODE + w);
  cu_al m : m ∈ al → nodes s' !! m = nodes s !! m;
  cu_changes : changes s s' r (rtop r x)
}.

Section takes.
Context {DH : DpcHandlers} {PS : PageSource}.
Set Default Proof Using "Type".

Lemma ro_elem s r x l1 n l2 al :
  region_ok s r x (l1 ++ n :: l2) al →
  NoDup ((l1 ++ l2) ++ al) ∧ n ∉ (l1 ++ l2) ++ al ∧ n ≠ 0 ∧ ∀ m, m ∈ (l1 ++ l2) ++ al → m ∈ (l1 ++ n :: l2) ++ al.
Proof.
  intros H. pose proof (ro_nodup _ _ _ _ _ H) as Hnd. rewrite <- app_assoc in Hnd. simpl in Hnd.
  assert (NoDup (n :: (l1 ++ l2) ++ al)) as [Hn Hnd']%NoDup_cons.
  { rewrite <- (Permutation_middle l1 (l2 ++ al) n), app_assoc in Hnd. done. }
  split; [done|]. split; [done|]. split; [|set_solver].
  destruct (ro_node _ _ _ _ _ H n) as (z & _ & _ & ? & _); [set_solver|]. pose proof (ro_pos _ _ _ _ _ H).
  unfold SIZEOF_REGION in *. lia.
Qed.

(** Unlinking the node [n] from the free list. *)
Lemma unlink_free_node s r x l1 n l2 al :
  region_ok s r x (l1 ++ n :: l2) al →
  ∃ h l, free_op r (λ h l, unlink_pn h l n) decr s =
      Ret () (s <| node_links := h |> <| regions ::= <[r := x <| r_free := l |>]> |>) ∧
    dl_rep h l (l1 ++ l2) ∧ dl_rep h (r_allocated x) al ∧ links_frame (l1 ++ l2) (node_links s) h.
Proof.
  intros H. pose proof (ro_length _ _ _ _ _ H) as Hlen. rewrite length_app in Hlen.
  destruct (unlink_pn_spec _ _ _ _ _ (ro_free _ _ _ _ _ H)) as (h & l & Hun & Hrep & Hf); [lia|].
  exists h, (l <| dl_nNodes ::= decr |>). split; [|split; [done|split; [|done]]].
  - by rewrite (free_op_eq _ _ _ _ _ _ _ (ro_hdr _ _ _ _ _ H) Hun).
  - eapply links_frame_rep; [exact Hf| |apply H]. intros y Hy Hy'.
    pose proof (ro_nodup _ _ _ _ _ H) as (_ & Hd & _)%NoDup_app. apply (Hd y); [set_solver|done].
Qed.

(** Taking the node [n] out of the free list, with the search for a new biggest
    node when it is [p]. *)
Lemma drop_node s r x l1 n l2 al p :
  region_ok s r x (l1 ++ n :: l2) al →
  ∃ s' x', (free_op r (λ h l, unlink_pn h l n) decr;; y ← get_region r;
            when (biggestFreeNode y =? p) (update_biggest r)) s = Ret () s' ∧
    region_ok s' r x' (l1 ++ l2) al ∧ r_size x' = r_size x ∧ r_source x' = r_source x ∧
    nodes s' = nodes s ∧ changes s s' r (rtop r x).
Proof.
  intros H. destruct (ro_elem _ _ _ _ _ _ _ H) as (Hnd & Hnin & Hn0 & Hin).
  destruct (unlink_free_node _ _ _ _ _ _ _ H) as (h & l & Hop & Hrep & Hal & Hf).
  set (x1 := x <| r_free := l |>) in *. set (s1 := s <| node_links := h |> <| regions ::= <[r := x1]> |>) in *.
  assert (∃ b, (y ← get_region r; when (biggestFreeNode y =? p) (update_biggest r)) s1 =
      Ret () (s1 <| regions ::= <[r := x1 <| biggestFreeNode := b |>]> |>) ∧
      (b = 0 ∨ (is_Some (nodes s !! b) ∧ r <= b < rtop r x))) as (b & Hb & Hbr).
  { assert (regions s1 !! r = Some x1) as Hx1 by apply lookup_insert_eq.
    erewrite bind_Ret by (by apply load_eq). unfold when. destruct (biggestFreeNode x1 =? p).
    - destruct (update_biggest_eq s1 r x1 (l1 ++ l2)) as (b & Hb & Hbr); [done|done| |].
      { intros m Hm. destruct (ro_node _ _ _ _ _ H m) as (w & Hw & _); [set_solver|]. by eexists. }
      exists b. split; [done|]. destruct Hbr as [->|Hbr]; [by left|right].
      assert (b ∈ (l1 ++ n :: l2) ++ al) as Hb' by set_solver.
      destruct (ro_node _ _ _ _ _ H b Hb') as (w & Hw & _). split; [by eexists|by eapply ro_node_range].
    - exists (biggestFreeNode x). split; [|apply H]. unfold mret, K_ret. f_equal. unfold s1. simpl.
      rewrite insert_insert_eq. by destruct x. }
  set (x2 := x1 <| biggestFreeNode := b |>). exists (s1 <| regions ::= <[r := x2]> |>), x2.
  split; [by erewrite bind_Ret by exact Hop|]. split; [|split; [done|split; [done|split; [done|]]]].
  - eapply region_ok_shrink; [exact H|done|apply lookup_insert_eq|done|done|done|done|done|set_solver| |exact Hbr].
    intros m w Hm Hw. destruct (ro_node _ _ _ _ _ H m) as (w' & Hw' & ? & ? & ? & ? & ?); [auto|].
    exists w. simplify_eq. repeat split; try done; lia.
  - split; [by destruct s|done| |].
    + intros m Hm. simpl. destruct (decide (m ∈ l1 ++ l2)); [|by apply Hf].
      destruct Hm. eapply ro_node_range; [done|set_solver].
    + intros q Hq. simpl. by rewrite !lookup_insert_ne.
Qed.

(** A node of exactly the size. *)
Lemma take_exact s r x l1 n l2 al size p :
  region_ok s r x (l1 ++ n :: l2) al → nodes s !! n = Some (node_ok size r) →
  ∃ s' x', (free_op r (λ h l, unlink_pn h l n) decr;; y ← get_region r;
            when (biggestFreeNode y =? p) (update_biggest r)) s = Ret () s' ∧
    cut s r x al size n s' x' (l1 ++ l2).
Proof.
  intros H Hn. destruct (ro_elem _ _ _ _ _ _ _ H) as (_ & Hnin & _ & Hin).
  destruct (ro_node _ _ _ _ _ H n) as (z & Hz & Hzr & Hlo & Hhi & Hal16 & _); [set_solver|]. simplify_eq.
  destruct (drop_node _ _ _ _ _ _ _ p H) as (s' & x' & E & Hok & Hs & Hsrc & HN & Hch).
  exists s', x'. split; [done|]. split; rewrite ?HN; try done; try lia.
  intros m w Hm Hw. eapply (ro_apart _ _ _ _ _ H); [set_solver|auto|set_solver|done|done].
Qed.

(** Making the node [n] smaller. *)
Lemma resize_node s r x l1 n l2 al z w :
  region_ok s r x (l1 ++ n :: l2) al → nodes s !! n = Some (node_ok z r) → 0 <= w <= z → w mod 16 = 0 →
  let s' := s <| nodes ::= <[n := node_ok w r]> |> in
  region_ok s' r x (l1 ++ n :: l2) al ∧ changes s s' r (rtop r x) ∧
  nodes s' !! n = Some (node_ok w r) ∧ (∀ m, m ≠ n → nodes s' !! m = nodes s !! m).
Proof.
  intros H Hn Hw H16 s'.
  assert (∀ m, m ≠ n → nodes s' !! m = nodes s !! m) as Hother by (intros; by apply lookup_insert_ne).
  assert (nodes s' !! n = Some (node_ok w r)) as Hself by apply lookup_insert_eq.
  split; [|split; [|done]].
  - eapply region_ok_shrink; [exact H|done|apply H|done|done|apply H|apply H|apply H|set_solver| |].
    + intros m y Hm Hy. destruct (ro_node _ _ _ _ _ H m Hm) as (y' & Hy' & ? & ? & ? & ? & ?). simplify_eq.
      destruct (decide (m = n)) as [->|Hne]; [exists w; simplify_eq|exists y; rewrite Hother by done];
        repeat split; try done; lia.
    + destruct (ro_biggest _ _ _ _ _ H) as [?|[Hb ?]]; [by left|right]. split; [|done].
      destruct (decide (biggestFreeNode x = n)) as [->|Hne]; [by eexists|]. by rewrite Hother.
  - split; [by destruct s| |done|done]. intros m Hm. apply Hother. intros ->. apply Hm.
    eapply ro_node_range; [done|set_solver].
Qed.

(** A larger node is cut: the new node is behind what remains of it, or, when
    nothing remains, behind its header, and it leaves the list. *)
Lemma take_split s r x l1 n l2 al size z p :
  region_ok s r x (l1 ++ n :: l2) al → nodes s !! n = Some (node_ok z r) → 0 < size → size mod 16 = 0 →
  size + SIZEOF_NODE <= z →
  let w := z - (size + SIZEOF_NODE) in
  ∃ s' x' fs', when (negb (truthy w)) (free_op r (λ h l, unlink_pn h l n) decr;; y ← get_region r;
            when (biggestFreeNode y =? p) (update_biggest r)) (s <| nodes ::= <[n := node_ok w r]> |>) = Ret () s' ∧
    cut s r x al size (n + SIZEOF_NODE + w) s' x' fs'.
Proof.
  intros H Hn Hsz H16 Hlt w. destruct (ro_elem _ _ _ _ _ _ _ H) as (_ & Hnin & _ & Hin).
  assert (n ∈ (l1 ++ n :: l2) ++ al) as Hn' by set_solver.
  destruct (ro_node _ _ _ _ _ H n Hn') as (z' & Hz & Hzr & Hlo & Hhi & Hal16 & Hz16). rewrite Hn in Hz. injection Hz as <-.
  assert (w mod 16 = 0) as Hw16 by (apply mod16_sub; [done|by apply mod16_add]).
  assert ((n + SIZEOF_NODE + w) mod 16 = 0) as Hm16 by (apply mod16_add; [by apply mod16_add|done]).
  destruct (resize_node _ _ _ _ _ _ _ _ w H Hn) as (H1 & Hch & Hself & Hother); [unfold w, SIZEOF_NODE in *; lia|done|].
  set (s1 := s <| nodes ::= <[n := node_ok w r]> |>) in *.
  assert (∀ m y, m ∈ (l1 ++ n :: l2) ++ al → nodes s1 !! m = Some (node_ok y r) →
    apart (n + SIZEOF_NODE + w) (SIZEOF_NODE + size) m (SIZEOF_NODE + y) ∨ (m = n ∧ y = w)) as Hap.
  { intros m y Hm Hy. destruct (decide (m = n)) as [->|Hne]; [right; by simplify_eq|left].
    rewrite Hother in Hy by done. destruct (ro_node _ _ _ _ _ H m Hm) as (y' & Hy' & ? & _). rewrite Hy in Hy'. injection Hy' as <-.
    pose proof (ro_apart _ _ _ _ _ H n m z y Hn' Hm ltac:(done) Hn Hy). unfold apart, w, SIZEOF_NODE in *. lia. }
  unfold when. destruct (truthy w) eqn:Ew; cbn [negb].
  - exists s1, x, (l1 ++ n :: l2). split; [done|]. split; try done; unfold w, SIZEOF_NODE, SIZEOF_REGION in *.
    + lia.
    + lia.
    + intros m y Hm Hy. destruct (Hap m y Hm Hy) as [?|[-> ->]]; [done|]. unfold apart. lia.
    + intros m Hm. apply Hother. pose proof (ro_nodup _ _ _ _ _ H) as (_ & Hd & _)%NoDup_app.
      intros ->. apply (Hd n); set_solver.
  - destruct (drop_node _ _ _ _ _ _ _ p H1) as (s' & x' & E & Hok & Hs & Hsrc & HN & Hch').
    exists s', x', (l1 ++ l2). split; [done|]. split; rewrite ?HN; try done; unfold w, SIZEOF_NODE, SIZEOF_REGION in *.
    + lia.
    + lia.
    + intros m y Hm Hy. destruct (Hap m y) as [?|[-> ->]]; [auto|done|done|done].
    + intros m Hm. apply Hother. set_solver.
    + by eapply changes_trans.
Qed.

(** The search in the free list: when no node fits, nothing changes. *)
Lemma take_node_spec l2 : ∀ l1 fuel s r x al size,
  region_ok s r x (l1 ++ l2) al → 0 < size < 2 ^ 62 → size mod 16 = 0 → (length l2 <= fuel)%nat →
  (take_node fuel r (default 0 (head l2)) size s = Ret 0 s ∧
     ∀ n z, n ∈ l2 → nodes s !! n = Some (node_ok z r) → z < size + SIZEOF_NODE ∧ z ≠ size) ∨
  (∃ n s' x' fs', take_node fuel r (default 0 (head l2)) size s = Ret n s' ∧ cut s r x al size n s' x' fs').
Proof.
  induction l2 as [|n l2 IH]; intros l1 fuel s r x al size H Hsz H16 Hf.
  { left. split; [by destruct fuel|set_solver]. }
  destruct (ro_elem _ _ _ _ _ _ _ H) as (_ & Hnin & Hn0 & Hin).
  destruct (ro_node _ _ _ _ _ H n) as (z & Hz & Hzr & Hlo & Hhi & _); [set_solver|].
  simpl in Hf. destruct fuel as [|fuel]; [lia|]. change (default 0 (head (n :: l2))) with n. cbn [take_node].
  rewrite (proj2 (truthy_true n)) by done. cbn [negb].
  erewrite bind_Ret by (by apply load_eq). erewrite bind_Ret by (apply load_eq; apply H). cbn [n_magic n_size containingRegion].
  rewrite !Z.eqb_refl, (proj2 (Z.ltb_ge (r_size x) z)) by lia. cbn [negb orb].
  rewrite (wrap_small 64 (size + SIZEOF_NODE)) by (unfold in_u, SIZEOF_NODE; lia).
  destruct (Z.eqb_spec z size) as [->|Hne].
  - right. destruct (take_exact _ _ _ _ _ _ _ _ n H Hz) as (s' & x' & E & Hc). exists n, s', x', (l1 ++ l2). split; [|done].
    destruct (bind_Ret_inv _ _ _ _ _ E) as ([] & s1 & E1 & E2). erewrite bind_Ret by exact E1.
    destruct (bind_Ret_inv _ _ _ _ _ E2) as (y & s2 & E3 & E4). erewrite bind_Ret by exact E3. by erewrite bind_Ret by exact E4.
  - destruct (Z.leb_spec (size + SIZEOF_NODE) z) as [Hle|Hgt].
    + right. destruct (take_split s r x l1 n l2 al size z nullptr H Hz ltac:(lia) H16 Hle) as (s' & x' & fs' & E & Hc).
      eexists _, s', x', fs'. split; [|exact Hc]. unfold set_node. erewrite bind_Ret by (by apply store_eq). cbn [n_size].
      pose proof (ro_top _ _ _ _ _ H). pose proof (ro_pos _ _ _ _ _ H).
      erewrite bind_Ret by (apply load_eq; simpl; apply lookup_insert_eq). simpl.
      rewrite (wrap_small 64 (z - (size + SIZEOF_NODE))) by (unfold in_u, SIZEOF_NODE, SIZEOF_REGION in *; lia).
      by erewrite bind_Ret by exact E.
    + destruct (IH (l1 ++ [n]) fuel s r x al size) as [[E Hno]|(m & s' & x' & fs' & E & Hc)];
        [by rewrite <- app_assoc|done|done|lia| |].
      all: pose proof (seg_mid _ _ _ _ (rep_seg _ _ _ (ro_free _ _ _ _ _ H))) as Hlk.
      * left. split; [by erewrite bind_Ret by (by apply next_node_eq)|]. intros m w [->|Hm]%elem_of_cons Hw; [by simplify_eq|eauto].
      * right. exists m, s', x', fs'. split; [|done]. by erewrite bind_Ret by (by apply next_node_eq).
Qed.

(** The new node joins the allocated ones. *)
Lemma add_allocated s r x al size n s1 x1 fs1 :
  cut s r x al size n s1 x1 fs1 → 0 < size → size mod 16 = 0 →
  ∃ s2 x2, (put_node n size r;; allocated_op r (λ h l, link_tail h l n) incr;;
            set_region r (λ y, y <| nFreeBytes ::= λ f, wrap64 (f - size) |>)) s1 = Ret () s2 ∧
    region_ok s2 r x2 fs1 (al ++ [n]) ∧ r_size x2 = r_size x ∧ changes s s2 r (rtop r x) ∧
    nodes s2 !! n = Some (node_ok size r) ∧ (∀ m, m ∈ al → nodes s2 !! m = nodes s !! m) ∧ n ∉ fs1 ++ al.
Proof.
  intros [Hok Hs Hsrc (Hlo & Hhi & H16) Hfit Hap Hal Hch] Hsz Hs16.
  assert (rtop r x1 = rtop r x) as Et by (unfold rtop; by rewrite Hs).
  pose proof (ro_pos _ _ _ _ _ Hok) as [Hr0 _]. unfold SIZEOF_NODE, SIZEOF_REGION in *.
  assert (n ∉ fs1 ++ al) as Hnin.
  { intros Hin. destruct (ro_node _ _ _ _ _ Hok n Hin) as (z & Hz & ? & _). specialize (Hap n z Hin Hz). unfold apart in Hap. lia. }
  assert (mapped (amem s1) n 80) as Hm.
  { intros i Hi. apply (ro_mapped _ _ _ _ _ Hok). lia. }
  set (s2 := s1 <| nodes ::= <[n := node_ok size r]> |> <| node_links ::= <[n := unlinked]> |>).
  assert (∀ m, m ≠ n → nodes s2 !! m = nodes s1 !! m) as HN by (intros; by apply lookup_insert_ne).
  assert (∀ m, m ≠ n → node_links s2 !! m = node_links s1 !! m) as HL by (intros; by apply lookup_insert_ne).
  pose proof (ro_length _ _ _ _ _ Hok) as Hlen. rewrite length_app in Hlen.
  assert (dl_rep (node_links s2) (r_allocated x1) al) as Hrep.
  { eapply dl_rep_frame; [|apply Hok]. intros y Hy. apply HL. set_solver. }
  destruct (push_spec (node_links s2) (r_allocated x1) al n unlinked) as (h & l & Hlt & Hrep' & Hf);
    [done|set_solver|lia|apply lookup_insert_eq|done|lia|].
  set (x2 := x1 <| r_allocated := l <| dl_nNodes ::= incr |> |> <| nFreeBytes ::= λ f, wrap64 (f - size) |>).
  eexists (s2 <| node_links := h |> <| regions ::= <[r := x2]> |>), x2.
  split; [|split; [|split; [done|split; [|split; [apply lookup_insert_eq|split; [|done]]]]]].
  - erewrite bind_Ret by (by apply put_node_eq). fold s2.
    erewrite bind_Ret by (apply allocated_op_eq; [apply Hok|exact Hlt]). unfold set_region.
    erewrite store_eq by apply lookup_insert_eq. simpl. by rewrite insert_insert_eq.
  - destruct Hf as [Hf _]. destruct Hok. split; simpl; try done.
    + apply lookup_insert_eq.
    + eapply dl_rep_frame; [|exact ro_free0]. intros y Hy. rewrite Hf; [apply HL; set_solver|].
      apply NoDup_app in ro_nodup0 as (_ & Hd & _). intros [->|Hy']%elem_of_cons; [set_solver|]. by apply (Hd y).
    + rewrite app_assoc. apply NoDup_snoc; done.
    + intros m Hm'. destruct (decide (m = n)) as [->|Hne].
      * exists size. rewrite lookup_insert_eq. change (rtop r x2) with (rtop r x1). rewrite Et. simpl. rewrite Hs.
        unfold SIZEOF_NODE, SIZEOF_REGION. repeat split; try done; lia.
      * rewrite lookup_insert_ne by done. apply ro_node0. set_solver.
    + intros m1 m2 z w H1 H2 Hne.
      destruct (decide (m1 = n)) as [->|Hn1], (decide (m2 = n)) as [->|Hn2]; [done|..];
        rewrite ?lookup_insert_eq, ?lookup_insert_ne by done.
      * intros [= <-] Hw. unfold SIZEOF_NODE. apply Hap; [set_solver|done].
      * intros Hz [= <-]. unfold SIZEOF_NODE. specialize (Hap m1 z). unfold apart in *. destruct Hap; [set_solver|done|lia|lia].
      * intros Hz Hw. apply ro_apart0; set_solver.
    + destruct ro_biggest0 as [?|[Hb ?]]; [by left|right]. split; [|done].
      destruct (decide (biggestFreeNode x1 = n)) as [->|Hne]; [rewrite lookup_insert_eq; by eexists|].
      by rewrite lookup_insert_ne.
  - eapply changes_trans; [exact Hch|]. split; simpl.
    + by destruct s1.
    + intros m Hm'. apply lookup_insert_ne. intros <-. lia.
    + intros m Hm'. destruct Hf as [Hf _]. rewrite Hf; [apply HL; intros ->; lia|].
      intros [->|Hy]%elem_of_cons; [lia|]. apply Hm'. rewrite <- Et. eapply ro_node_range; [done|set_solver].
    + intros q Hq. by rewrite lookup_insert_ne.
  - intros m Hm'. rewrite <- Hal by done. simpl. apply HN. set_solver.
Qed.

End takes.

(** ** The allocator as a whole *)

Definition upd {V} (f : Z → V) (r : Z) (v : V) : Z → V := λ q, if decide (q = r) then v else f q.
Lemma upd_eq {V} (f : Z → V) r v : upd f r v r = v.
Proof. unfold upd. by rewrite decide_True. Qed.
Lemma upd_ne {V} (f : Z → V) r v q : q ≠ r → upd f r v q = f q.
Proof. intros. unfold upd. by rewrite decide_False. Qed.

(** What an allocation of the node [n] amounts to. *)
Record allocated (s s' : ast) (rs rs' : list Z) (A A' : Z → list Z) (n size : Z) : Prop := {
  ald_node : 0 < n ∧ n mod 16 = 0;
  ald_live p z : live s' rs' A' p z ↔ live s rs A p z ∨ (p = n + SIZEOF_NODE ∧ z = size);
  ald_fresh z : ¬ live s rs A (n + SIZEOF_NODE) z;
  ald_mem a : is_Some (amem s !! a) → amem s' !! a = amem s !! a;
  ald_ak : ak s' = ak s
}.

(** A change of one region. *)
Lemma alloc_inv_region s s' this rs X F A r x fs al :
  alloc_inv s this rs X F A → r ∈ rs → changes s s' r (rtop r (X r)) → region_ok s' r x fs al → r_size x = r_size (X r) →
  alloc_inv s' this rs (upd X r x) (upd F r fs) (upd A r al).
Proof.
  intros H Hr Hch Hok Hsz. assert (rtop r x = rtop r (X r)) as Et by (unfold rtop; by rewrite Hsz).
  pose proof (changes_outside _ _ _ _ (rtop_pos _ _ _ _ _ (ai_region _ _ _ _ _ _ H r Hr)) Hch) as Hso.
  split; [apply H| | |].
  - destruct (ai_alloc _ _ _ _ _ _ H) as (a & Ha & Hm & Hrep). exists a. by rewrite (ch_rest _ _ _ _ Hch).
  - intros q Hq. destruct (decide (q = r)) as [->|Hne]; [by rewrite !upd_eq|]. rewrite !upd_ne by done.
    eapply region_ok_frame; [by apply H|exact Hso|]. destruct (ai_apart _ _ _ _ _ _ H r q); auto; lia.
  - intros q q' Hq Hq' Hne. destruct (ai_apart _ _ _ _ _ _ H q q') as [Ha|Ha]; auto;
      (destruct (decide (q = r)) as [->|Hn1]; [|rewrite (upd_ne _ _ _ q) by done]);
      (destruct (decide (q' = r)) as [->|Hn2]; [|rewrite (upd_ne _ _ _ q') by done]);
      rewrite ?upd_eq, ?Et; auto.
Qed.

Section alloc.
Context {DH : DpcHandlers} {PS : PageSource}.
Set Default Proof Using "Type".

(** A node taken from a region and added to its allocated nodes. *)
Lemma allocated_in s this rs X F A r size n s1 x1 fs1 :
  alloc_inv s this rs X F A → r ∈ rs → cut s r (X r) (A r) size n s1 x1 fs1 → 0 < size → size mod 16 = 0 →
  ∃ s2 X' F', (put_node n size r;; allocated_op r (λ h l, link_tail h l n) incr;;
               set_region r (λ y, y <| nFreeBytes ::= λ f, wrap64 (f - size) |>)) s1 = Ret () s2 ∧
    let A' := upd A r (A r ++ [n]) in
    alloc_inv s2 this rs X' F' A' ∧ allocated s s2 rs rs A A' n size.
Proof.
  intros H Hr Hc Hsz H16. destruct (add_allocated _ _ _ _ _ _ _ _ _ Hc Hsz H16) as (s2 & x2 & E & Hok & Hs & Hch & Hn & Hal & Hnin).
  exists s2, (upd X r x2), (upd F r fs1). split; [done|]. split; [by apply (alloc_inv_region s)|].
  pose proof (cu_range _ _ _ _ _ _ _ _ _ Hc) as (Hlo & Hhi & Hn16).
  pose proof (ai_region _ _ _ _ _ _ H r Hr) as Hrok. pose proof (ro_pos _ _ _ _ _ Hrok) as [Hr0 _].
  assert (∀ q m, q ∈ rs → q ≠ r → m ∈ A q → nodes s2 !! m = nodes s !! m ∧ m ≠ n) as Hothers.
  { intros q m Hq Hne Hm. assert (q <= m < rtop q (X q)) as Hrange.
    { eapply ro_node_range; [by apply H|set_solver]. }
    destruct (ai_apart _ _ _ _ _ _ H r q) as [?|?]; try done; unfold SIZEOF_NODE, SIZEOF_REGION in *;
      (split; [apply (ch_nodes _ _ _ _ Hch)|]; lia). }
  split.
  - unfold SIZEOF_REGION in *. split; [lia|done].
  - intros p z. split.
    + intros (q & m & Hq & Hm & Hz & ->). destruct (decide (q = r)) as [->|Hne].
      * rewrite upd_eq in Hm. apply elem_of_app in Hm as [Hm| ->%list_elem_of_singleton].
        -- left. exists r, m. rewrite <- Hal by done. done.
        -- right. by simplify_eq.
      * rewrite upd_ne in Hm by done. left. exists q, m. by rewrite <- (proj1 (Hothers q m Hq Hne Hm)).
    + intros [(q & m & Hq & Hm & Hz & ->)|[-> ->]].
      * exists q, m. split; [done|]. destruct (decide (q = r)) as [->|Hne].
        -- rewrite upd_eq, Hal by done. set_solver.
        -- rewrite upd_ne by done. by rewrite (proj1 (Hothers q m Hq Hne Hm)).
      * exists r, n. rewrite upd_eq. set_solver.
  - intros z (q & m & Hq & Hm & Hz & E'). assert (m = n) as -> by lia. destruct (decide (q = r)) as [->|Hne].
    + set_solver.
    + by apply (Hothers q n Hq Hne Hm).
  - intros a _. by rewrite (ch_rest _ _ _ _ Hch).
  - by rewrite (ch_rest _ _ _ _ Hch).
Qed.

(** Two blocks in use are apart. *)
Lemma live_apart s this rs X F A p z q w :
  alloc_inv s this rs X F A → live s rs A p z → live s rs A q w → p ≠ q → apart p z q w.
Proof.
  intros H (r & n & Hr & Hn & Hz & ->) (r' & m & Hr' & Hm & Hw & ->) Hne. unfold apart.
  pose proof (ai_region _ _ _ _ _ _ H r Hr) as H1. pose proof (ai_region _ _ _ _ _ _ H r' Hr') as H2.
  destruct (ro_node _ _ _ _ _ H1 n) as (z' & Hz' & ? & ? & ? & _); [set_solver|].
  destruct (ro_node _ _ _ _ _ H2 m) as (w' & Hw' & ? & ? & ? & _); [set_solver|]. simplify_eq.
  unfold SIZEOF_NODE, SIZEOF_REGION in *. destruct (decide (r = r')) as [->|Hrr].
  - pose proof (ro_apart _ _ _ _ _ H1 n m z w) as Hap. unfold apart, SIZEOF_NODE in Hap. destruct Hap; try done; [set_solver..|lia|lia].
  - destruct (ai_apart _ _ _ _ _ _ H r r'); try done; lia.
Qed.

(** The search passes the region over: its list of free nodes is empty, or no
    biggest node is recorded, or the recorded one is too small. *)
Definition skipped (s : ast) (x : basicalloc_region) (size : Z) : Prop :=
  dl_nNodes (r_free x) = 0 ∨ biggestFreeNode x = 0 ∨ ∃ n, nodes s !! biggestFreeNode x = Some n ∧ n_size n < size.
(** No free node of the region can be taken or cut. *)
Definition none_fits (s : ast) (r : Z) (fs : list Z) (size : Z) : Prop :=
  ∀ n z, n ∈ fs → nodes s !! n = Some (node_ok z r) → z < size + SIZEOF_NODE ∧ z ≠ size.
Definition passed_over (s : ast) (r : Z) (x : basicalloc_region) (fs : list Z) (size : Z) : Prop :=
  skipped s x size ∨ none_fits s r fs size.

(** The search for a region. *)
Lemma find_from_eq l fuel p X size s :
  seg (region_links s) p l 0 → 0 ∉ l → (∀ r, r ∈ l → ∃ fs al, region_ok s r (X r) fs al) → (length l <= fuel)%nat →
  (find_from fuel (default 0 (head l)) size s = Ret 0 s ∧ ∀ r, r ∈ l → skipped s (X r) size) ∨
  ∃ l1 r l2, l = l1 ++ r :: l2 ∧ find_from fuel (default 0 (head l)) size s = Ret r s ∧ ∀ q, q ∈ l1 → skipped s (X q) size.
Proof.
  revert fuel p. induction l as [|r l IH]; intros fuel p Hs H0 Hok Hf.
  - left. split; [by destruct fuel|set_solver].
  - destruct Hs as [Hlk Hs]. simpl in Hf. destruct fuel as [|fuel]; [lia|]. change (default 0 (head (r :: l))) with r.
    cbn [find_from]. rewrite (proj2 (truthy_true r)) by set_solver. cbn [negb].
    destruct (Hok r) as (fs & al & Hr); [set_solver|]. erewrite bind_Ret by (apply load_eq; apply Hr).
    assert (∃ b : bool, (if negb (truthy (dl_nNodes (r_free (X r)))) || negb (truthy (biggestFreeNode (X r))) then mret false
        else n ← get_node (biggestFreeNode (X r)); mret (size <=? n_size n)) s = Ret b s ∧ (b = false → skipped s (X r) size)) as (b & Hb & Hskip).
    { destruct (truthy (biggestFreeNode (X r))) eqn:E.
      2:{ apply truthy_false in E. rewrite orb_true_r. exists false. split; [done|]. intros _. by right; left. }
      apply truthy_true in E. destruct (truthy (dl_nNodes (r_free (X r)))) eqn:En.
      2:{ apply truthy_false in En. exists false. split; [done|]. intros _. by left. }
      cbn [negb orb]. destruct (ro_biggest _ _ _ _ _ Hr) as [?|[[y Hy] _]]; [done|].
      exists (size <=? n_size y). split; [by erewrite bind_Ret by (by apply load_eq)|].
      intros Hlt%Z.leb_gt. right; right. by exists y. }
    erewrite bind_Ret by exact Hb. destruct b.
    + right. exists [], r, l. split; [done|]. split; [done|set_solver].
    + specialize (Hskip eq_refl). erewrite bind_Ret by (by apply next_region_eq). cbn [dl_next].
      destruct (IH fuel r) as [[E Hall]|(l1 & r' & l2 & -> & E & Hall)]; [done|set_solver|intros; apply Hok; set_solver|lia| |].
      * left. split; [done|]. intros q [->|Hq]%elem_of_cons; auto.
      * right. exists (r :: l1), r', l2. split; [done|]. split; [done|]. intros q [->|Hq]%elem_of_cons; auto.
Qed.

End alloc.

(** ** The page sources

    [s'] is [s] with the pages from [blk] on, [n] bytes, in addition. *)
Record granted (s : ast) (blk n : Z) (s' : ast) : Prop := {
  gr_pos : 0 < blk ∧ blk mod 16 = 0 ∧ blk + n < 2 ^ 64;
  gr_fresh a : blk <= a < blk + n → amem s !! a = None;
  gr_mapped a : blk <= a < blk + n → is_Some (amem s' !! a);
  gr_mem a : ¬ (blk <= a < blk + n) → amem s' !! a = amem s !! a;
  gr_regions q : ¬ (blk <= q < blk + n) → regions s' !! q = regions s !! q;
  gr_rlinks q : ¬ (blk <= q < blk + n) → region_links s' !! q = region_links s !! q;
  gr_rest : s' = s <| amem := amem s' |> <| regions := regions s' |> <| region_links := region_links s' |>
}.

(** Memory that reads as zeros reads as an empty header. *)
Definition zero_at (s : ast) (blk : Z) : Prop :=
  regions s !! blk = Some zero_region ∧ region_links s !! blk = Some unlinked.

Definition page_bytes (size : Z) : Z := pages_for size * PG.

(** A request is refused without any effect, or granted. *)
Definition serves (op : K ast (Z * obos_status)) (f : Z → Z) (n : Z) (zeroed : bool) : Prop :=
  ∀ s, (∃ e, op s = Ret (nullptr, e) s) ∨
       (∃ q s', op s = Ret (q, OBOS_STATUS_SUCCESS) s' ∧ q ≠ 0 ∧ granted s (f q) n s' ∧
          (zeroed = true → zero_at s' (f q))).

(** What the allocator relies on: whole pages, and pages of the virtual memory
    manager that are cleared unless they are non-paged. *)
Record page_source_ok {PS : PageSource} : Prop := {
  ps_init s : ∃ b, Mm_IsInitialized s = Ret b s;
  ps_phys n : 0 < n < 2 ^ 50 → serves (phys_alloc n) MapToHHDM (n * PG) false;
  ps_vma size np : 0 < size < 2 ^ 62 → serves (vma_alloc size np) Datatypes.id (page_bytes size) (negb np);
  ps_basicmm size : 0 < size < 2 ^ 62 → serves (basicmm_alloc size) Datatypes.id (page_bytes size) false
}.

(** Given-back pages take with them whatever was in them, and nothing else. *)
Definition takes_back (op : K ast ()) (blk n : Z) : Prop :=
  ∀ s, ∃ s', op s = Ret () s' ∧ same_outside s s' blk (blk + n) ∧ region_links s' = region_links s ∧
    allocators s' = allocators s ∧ ak s' = ak s ∧ (∀ a, blk <= a < blk + n → amem s' !! a = None).
Record page_sink_ok {PS : PageSource} : Prop := {
  pk_phys blk n : takes_back (phys_free (UnmapFromHHDM blk) n) blk (n * PG);
  pk_vma blk size : takes_back (vma_free blk size) blk (page_bytes size);
  pk_basicmm blk size : takes_back (basicmm_free blk size) blk (page_bytes size)
}.

Lemma page_bytes_ge size : 0 <= size → size <= page_bytes size < size + PG.
Proof.
  intros H. unfold page_bytes, pages_for, OBOS_PAGE_SIZE.
  destruct (truthy (size mod 4096)) eqn:E; [apply truthy_true in E|apply truthy_false in E]; Z.div_mod_to_equations; lia.
Qed.

(** Rounding up to 16 does not move an aligned address. *)
Lemma align_up_16 q : 0 < q ∧ q mod 16 = 0 ∧ q + 0xf < 2 ^ 64 → Z.land (wrap64 (q + 0xf)) (wrap64 (Z.lnot 0xf)) = q.
Proof.
  intros (H0 & H16 & Hn). rewrite (wrap_small 64 (q + 0xf)) by (unfold in_u; lia).
  change (wrap64 (Z.lnot 0xf)) with (Z.shiftl (Z.ones 60) 4). apply Z.bits_inj'. intros i Hi. rewrite Z.land_spec.
  destruct (decide (i < 4)) as [Hlt|Hge].
  - rewrite (Z.shiftl_spec_low _ _ _ Hlt), andb_false_r. symmetry.
    rewrite <- (Z.mod_pow2_bits_low q 4 i) by lia. change (2 ^ 4) with 16. by rewrite H16, Z.bits_0.
  - rewrite Z.shiftl_spec_high by lia. destruct (decide (i < 64)) as [Hlt|Hgt].
    + rewrite Z.ones_spec_low, andb_true_r by lia.
      replace i with (i - 4 + 4) by lia. rewrite <- !Z.div_pow2_bits by lia. change (2 ^ 4) with 16.
      f_equal. Z.div_mod_to_equations. lia.
    + rewrite Z.ones_spec_high, andb_false_r by lia. symmetry. apply Z.bits_above_log2; [lia|].
      apply Z.log2_lt_pow2; [lia|]. apply (Z.lt_le_trans _ (2 ^ 64)); [lia|]. apply Z.pow_le_mono_r; lia.
Qed.

Section source.
Context {DH : DpcHandlers} {PS : PageSource}.
Set Default Proof Using "Type".

Lemma clear_block_eq s blk n s1 size :
  granted s blk n s1 → SIZEOF_REGION <= size <= n →
  ∃ s2, clear_block blk size s1 = Ret () s2 ∧ granted s blk n s2 ∧ zero_at s2 blk.
Proof.
  intros [(H0 & H16 & Hn) Hfr Hmap Hmem HR HL Hrest] Hsz. unfold SIZEOF_REGION in *.
  assert (mapped (amem s1) blk (Z.to_nat size)) as Hm by (intros i Hi; apply Hmap; lia).
  unfold clear_block. rewrite <- (Z2Nat.id size) by lia. erewrite bind_Ret by (by apply memzero_eq).
  set (m := write_bytes (amem s1) blk (replicate (Z.to_nat size) 0)). change (mem_upd _ s1) with (s1 <| amem := m |>).
  unfold zero_region_at. rewrite (bind_Ret _ _ _ _ _ (gets_eq _ _)).
  assert (∀ a, ¬ (blk <= a < blk + n) → m !! a = amem s1 !! a) as Hout.
  { intros a Ha. apply write_bytes_outside. rewrite length_replicate. lia. }
  assert (∀ a, blk <= a < blk + n → is_Some (m !! a)) as Hin.
  { intros a Ha. unfold m. rewrite write_bytes_lookup. case_decide as Hd; [|by apply Hmap].
    rewrite length_replicate in Hd. apply lookup_lt_is_Some_2. rewrite length_replicate. lia. }
  change (amem (s1 <| amem := m |>)) with m.
  rewrite (proj2 (mappedb_spec m blk SIZEOF_REGION)) by (intros i Hi; apply Hin; unfold SIZEOF_REGION in Hi; lia).
  eexists. split; [reflexivity|]. split; [split; simpl|].
  - done.
  - done.
  - done.
  - intros a Ha. rewrite Hout by done. auto.
  - intros q Hq. rewrite lookup_insert_ne by lia. auto.
  - intros q Hq. rewrite lookup_insert_ne by lia. auto.
  - rewrite Hrest. by destruct s.
  - split; apply lookup_insert_eq.
Qed.

Lemma allocateBlock_ok s this size st :
  page_source_ok → SIZEOF_REGION <= size < 2 ^ 61 →
  (∃ e, allocateBlock this size (Some st) s = Ret (nullptr, BLOCK_SOURCE_INVALID, Some e) s) ∨
  (∃ blk src s', allocateBlock this size (Some st) s = Ret (blk, src, Some OBOS_STATUS_SUCCESS) s' ∧
     src ≠ BLOCK_SOURCE_INVALID ∧ granted s blk (page_bytes size) s' ∧ zero_at s' blk).
Proof.
  intros Hps Hsz. pose proof (page_bytes_ge size ltac:(unfold SIZEOF_REGION in *; lia)) as Hpb.
  assert (0 < pages_for size < 2 ^ 50) as Hpf.
  { unfold page_bytes, OBOS_PAGE_SIZE, SIZEOF_REGION in *. lia. }
  destruct (ps_init Hps s) as [b Hb]. unfold allocateBlock. erewrite bind_Ret by exact Hb. destruct b.
  - rewrite (bind_Ret _ _ _ _ _ (gets_eq _ _)), (bind_Ret _ _ _ _ _ (gets_eq _ _)).
    destruct (this =? Mm_Allocator s).
    + destruct (ps_phys Hps (pages_for size) Hpf s) as [[e He]|(q & s' & He & Hq & Hg & _)]; erewrite bind_Ret by exact He.
      * left. by eexists.
      * right. cbn [fst snd]. rewrite (proj2 (truthy_true q)) by done. cbn [negb].
        destruct (clear_block_eq _ _ _ _ size Hg) as (s2 & E & Hg2 & Hz); [unfold page_bytes in Hpb; lia|].
        eexists _, _, s2. split; [by erewrite bind_Ret by exact E|]. done.
    + set (np := this =? OBOS_NonPagedPoolAllocator s).
      destruct (ps_vma Hps size np ltac:(unfold SIZEOF_REGION in *; lia) s) as [[e He]|(q & s' & He & Hq & Hg & Hz)];
        erewrite bind_Ret by exact He.
      * left. by eexists.
      * right. cbn [fst snd]. rewrite (proj2 (truthy_true q)) by done. cbn [negb]. unfold when. destruct np.
        -- destruct (clear_block_eq _ _ _ _ size Hg) as (s2 & E & Hg2 & Hz2); [lia|].
           eexists _, _, s2. split; [by erewrite bind_Ret by exact E|]. done.
        -- eexists _, _, s'. split; [reflexivity|]. split; [done|]. split; [done|]. by apply Hz.
  - destruct (ps_basicmm Hps size ltac:(unfold SIZEOF_REGION in *; lia) s) as [[e He]|(q & s' & He & Hq & Hg & _)];
      erewrite bind_Ret by exact He.
    + left. by eexists.
    + right. cbn [fst snd]. rewrite (proj2 (truthy_true q)) by done. cbn [negb].
      rewrite align_up_16 by (pose proof (gr_pos _ _ _ _ Hg); unfold Datatypes.id, SIZEOF_REGION in *; lia).
      destruct (clear_block_eq _ _ _ _ size Hg) as (s2 & E & Hg2 & Hz2); [lia|].
      eexists _, _, s2. split; [by erewrite bind_Ret by exact E|]. done.
Qed.

End source.

(** ** A new region *)

Lemma round_up_spec x to : 0 < to < 2 ^ 62 → 0 <= x < 2 ^ 62 →
  x <= round_up x to < x + to ∧ round_up x to mod to = 0.
Proof.
  intros Ht Hx. unfold round_up. pose proof (Z.mod_pos_bound x to ltac:(lia)) as Hm.
  destruct (truthy (x mod to)) eqn:E; [apply truthy_true in E|apply truthy_false in E; lia].
  rewrite wrap_small by (unfold in_u; lia). split; [lia|].
  replace (x + (to - x mod to)) with ((x / to + 1) * to) by (pose proof (Z.div_mod x to ltac:(lia)); lia).
  apply Z.mod_mul. lia.
Qed.

Lemma page_bytes_within R k : R mod PG = 0 → 0 < k <= PG → 0 <= R → page_bytes (R + k) = R + PG.
Proof.
  unfold page_bytes, pages_for, OBOS_PAGE_SIZE. intros HR Hk H0.
  destruct (truthy ((R + k) mod 4096)) eqn:E; [apply truthy_true in E|apply truthy_false in E]; Z.div_mod_to_equations; lia.
Qed.

(** Pages that were not mapped are apart from every region. *)
Lemma granted_apart s this rs X F A blk n s' :
  alloc_inv s this rs X F A → granted s blk n s' → 0 < n →
  (∀ r, r ∈ rs → rtop r (X r) <= blk ∨ blk + n <= r) ∧ blk ∉ rs.
Proof.
  intros H Hg Hn.
  assert (∀ r, r ∈ rs → rtop r (X r) <= blk ∨ blk + n <= r) as Hapart.
  { intros r Hr. pose proof (ai_region _ _ _ _ _ _ H r Hr) as Hok. pose proof (rtop_pos _ _ _ _ _ Hok).
    destruct (decide (rtop r (X r) <= blk)) as [|Hn1]; [by left|]. destruct (decide (blk + n <= r)) as [|Hn2]; [by right|].
    exfalso. destruct (ro_mapped _ _ _ _ _ Hok (Z.max r blk)) as [b Hb]; [lia|]. rewrite (gr_fresh _ _ _ _ Hg) in Hb by lia. done. }
  split; [done|]. intros Hr. pose proof (rtop_pos _ _ _ _ _ (ai_region _ _ _ _ _ _ H blk Hr)).
  destruct (Hapart blk Hr); lia.
Qed.

(** There are fewer regions than addresses. *)
Lemma regions_length s this rs X F A : alloc_inv s this rs X F A → Z.of_nat (length rs) + 1 < 2 ^ 64.
Proof.
  intros H. destruct (ai_alloc _ _ _ _ _ _ H) as (a & _ & _ & Hrep).
  pose proof (length_in_range rs 1 (2 ^ 64 - 2) (rep_nodup _ _ _ Hrep)) as Hl.
  enough (∀ r, r ∈ rs → 1 <= r < 2 ^ 64 - 2) as Hin by (specialize (Hl Hin); lia). intros r Hr.
  pose proof (ai_region _ _ _ _ _ _ H r Hr) as Hok. pose proof (ro_pos _ _ _ _ _ Hok) as [? Hr16]. pose proof (ro_top _ _ _ _ _ Hok).
  pose proof (rtop_pos _ _ _ _ _ Hok). Z.div_mod_to_equations. lia.
Qed.

Section newregion.
Context {DH : DpcHandlers} {PS : PageSource}.
Set Default Proof Using "Type".

(** The allocator after a new region [blk] of one free node [n] of [z] bytes. *)
Record grown (s s' : ast) (this : Z) (rs : list Z) (X : Z → basicalloc_region) (F A : Z → list Z)
  (blk n z : Z) (x : basicalloc_region) : Prop := {
  gw_inv : alloc_inv s' this (rs ++ [blk]) (upd X blk x) (upd F blk [n]) (upd A blk []);
  gw_live p w : live s' (rs ++ [blk]) (upd A blk []) p w ↔ live s rs A p w;
  gw_node : nodes s' !! n = Some (node_ok z blk);
  gw_new : blk ∉ rs;
  gw_mem a : is_Some (amem s !! a) → amem s' !! a = amem s !! a;
  gw_ak : ak s' = ak s
}.

(** The header of a new region is well formed. *)
Lemma new_region_ok R blk s' x :
  let T := R + (SIZEOF_REGION + SIZEOF_NODE) in let n := blk + SIZEOF_REGION in
  0 < R < 2 ^ 61 → R mod (PG * 4) = 0 → 0 < blk → blk mod 16 = 0 → blk + page_bytes T < 2 ^ 64 →
  (∀ a, blk <= a < blk + page_bytes T → is_Some (amem s' !! a)) →
  regions s' !! blk = Some x → r_size x = T + SIZEOF_REGION → r_free x = mkList n n 1 → r_allocated x = empty_list →
  biggestFreeNode x = n → r_source x ≠ BLOCK_SOURCE_INVALID →
  nodes s' !! n = Some (node_ok T blk) → node_links s' !! n = Some unlinked →
  rtop blk x = blk + page_bytes T ∧ region_ok s' blk x [n] [].
Proof.
  intros T n HR HRm Hb0 Hb16 Htop Hmap Hx Hsz Hfl Hal Hbig Hsrc Hn Hlk.
  assert (R mod PG = 0 ∧ R mod 16 = 0) as [HRp HR16] by (unfold OBOS_PAGE_SIZE in *; Z.div_mod_to_equations; lia).
  assert (page_bytes T = R + PG) as HT by (apply page_bytes_within; unfold OBOS_PAGE_SIZE, SIZEOF_REGION, SIZEOF_NODE; done || lia).
  assert (rtop blk x = blk + page_bytes T) as Et.
  { unfold rtop. rewrite Hsz. change (pages_for (T + SIZEOF_REGION) * PG) with (page_bytes (T + SIZEOF_REGION)). rewrite HT. unfold T.
    rewrite <- Z.add_assoc, page_bytes_within; unfold OBOS_PAGE_SIZE, SIZEOF_REGION, SIZEOF_NODE; done || lia. }
  assert (n mod 16 = 0) as Hn16 by (by apply mod16_add). assert (T mod 16 = 0) as HT16 by (by apply mod16_add).
  split; [done|]. unfold OBOS_PAGE_SIZE, SIZEOF_REGION, SIZEOF_NODE in *. split; rewrite ?Et; try done.
  - rewrite Hfl. split; simpl; try done; [apply NoDup_singleton|]. intros Hin%list_elem_of_singleton.
    unfold n, SIZEOF_REGION in Hin. lia.
  - rewrite Hal. apply dl_rep_empty.
  - apply NoDup_singleton.
  - intros m ->%list_elem_of_singleton. exists T. rewrite Hsz, HT. unfold T, n, SIZEOF_REGION, SIZEOF_NODE in *.
    repeat split; try done; lia.
  - intros m m' z w ->%list_elem_of_singleton ->%list_elem_of_singleton. done.
  - right. rewrite Hbig, Hn. split; [by eexists|]. rewrite HT. unfold n, SIZEOF_REGION. lia.
  - rewrite Hsz. unfold T, SIZEOF_REGION, SIZEOF_NODE. lia.
Qed.

Lemma allocateNewRegion_ok s this rs X F A size st :
  page_source_ok → alloc_inv s this rs X F A → 0 < size < 2 ^ 60 →
  (∃ e, allocateNewRegion this size (Some st) s = Ret (nullptr, Some e) s) ∨
  (∃ blk n z s' x, allocateNewRegion this size (Some st) s = Ret (blk, Some OBOS_STATUS_SUCCESS) s' ∧ blk ≠ 0 ∧
     size + SIZEOF_NODE <= z ∧ grown s s' this rs X F A blk n z x).
Proof.
  intros Hps H Hsz. destruct (round_up_spec size (PG * 4)) as [HR HRm]; [unfold OBOS_PAGE_SIZE; lia|lia|].
  unfold allocateNewRegion. set (R := round_up size (PG * 4)) in *. set (T := R + (SIZEOF_REGION + SIZEOF_NODE)).
  assert (wrap64 T = T) as ET.
  { apply wrap_small. unfold in_u, T, OBOS_PAGE_SIZE, SIZEOF_REGION, SIZEOF_NODE in *. lia. }
  cbv zeta. rewrite ET.
  destruct (allocateBlock_ok s this T st Hps) as [[e He]|(blk & src & s1 & He & Hsrc & Hg & Hz)];
    [unfold T, OBOS_PAGE_SIZE, SIZEOF_REGION, SIZEOF_NODE in *; lia|left|right]; erewrite bind_Ret by exact He; [by eexists|].
  pose proof Hg as [(Hb0 & Hb16 & Htop) Hfr Hmap Hmem HRg HRl Hrest]. destruct Hz as [Hzr Hzl].
  assert (256 < T) as HT0 by (unfold T, SIZEOF_REGION, SIZEOF_NODE; lia).
  pose proof (page_bytes_ge T ltac:(lia)) as Hpb.
  rewrite (proj2 (truthy_true blk)) by lia. cbn [negb].
  set (n := blk + SIZEOF_REGION).
  set (x := mkRegion PAGEBLOCK_MAGIC (T + SIZEOF_REGION) T (mkList n n 1) empty_list n src).
  assert (nodes s1 = nodes s ∧ node_links s1 = node_links s ∧ allocators s1 = allocators s ∧ ak s1 = ak s) as (EN & EL & EA & EK).
  { rewrite Hrest. done. }
  destruct (ai_alloc _ _ _ _ _ _ H) as (a & Ha & Hmag & Hrep).
  destruct (granted_apart _ _ _ _ _ _ _ _ _ H Hg) as [Hapart Hnew]; [lia|].
  assert (region_links s1 !! blk = Some unlinked ∧ dl_rep (region_links s1) (a_regions a) rs) as [Hblk Hrep1].
  { split; [done|]. eapply dl_rep_frame; [|exact Hrep]. intros r Hr. apply HRl.
    pose proof (rtop_pos _ _ _ _ _ (ai_region _ _ _ _ _ _ H r Hr)). destruct (Hapart r Hr); lia. }
  pose proof (regions_length _ _ _ _ _ _ H) as Hlen.
  destruct (push_spec (region_links s1) (a_regions a) rs blk unlinked) as (h & l & Hlt & Hrep' & Hf); [done|done|lia|done|done|done|].
  set (s2 := s1 <| nodes ::= <[n := node_ok T blk]> |> <| node_links ::= <[n := unlinked]> |> <| regions ::= <[blk := x]> |>
    <| region_links := h |> <| allocators ::= <[this := a <| a_regions := l <| dl_nNodes ::= incr |> |>]> |>).
  exists blk, n, T, s2, x. split; [|split; [lia|split; [unfold T, SIZEOF_REGION, SIZEOF_NODE; lia|]]].
  - assert (wrap64 (T + SIZEOF_REGION) = T + SIZEOF_REGION) as ES.
    { apply wrap_small. unfold in_u, T, SIZEOF_REGION, SIZEOF_NODE, OBOS_PAGE_SIZE in *. lia. }
    unfold set_region. erewrite bind_Ret by (apply store_eq; exact Hzr). rewrite ES.
    erewrite bind_Ret by (apply put_node_eq; intros i Hi; apply Hmap; unfold n, SIZEOF_REGION; lia).
    erewrite bind_Ret by (apply store_eq; apply lookup_insert_eq).
    erewrite bind_Ret by (eapply regions_op_eq; [simpl; rewrite EA; exact Ha|exact Hlt]).
    unfold mret, K_ret. f_equal. unfold s2, x. simpl. rewrite !insert_insert_eq. by rewrite Z.add_0_l, ET.
  - destruct (new_region_ok R blk s2 x) as [Et Hok]; try done; [unfold OBOS_PAGE_SIZE in *; lia|apply lookup_insert_eq..|].
    assert (same_outside s s2 blk (blk + page_bytes T)) as Hso.
    { assert (blk <= n < blk + page_bytes T) as Hn by (unfold n, SIZEOF_REGION; lia).
      split; simpl; intros m Hm; [rewrite EN|rewrite EL|..].
      - apply lookup_insert_ne. intros <-. lia.
      - apply lookup_insert_ne. intros <-. lia.
      - rewrite lookup_insert_ne by (intros <-; lia). auto.
      - auto. }
    assert (∀ r, r ∈ rs → region_ok s2 r (X r) (F r) (A r)) as Hframe'.
    { intros r Hr. eapply region_ok_frame; [by apply H|exact Hso|]. destruct (Hapart r Hr); auto. }
    split.
    + split.
      * apply H.
      * eexists. split; [apply lookup_insert_eq|]. split; [done|]. exact Hrep'.
      * intros r [Hr| ->%list_elem_of_singleton]%elem_of_app; [|by rewrite !upd_eq].
        rewrite !upd_ne by set_solver. auto.
      * intros r q [Hr| ->%list_elem_of_singleton]%elem_of_app [Hq| ->%list_elem_of_singleton]%elem_of_app Hne; [| | |done].
        -- rewrite !upd_ne by set_solver. by apply H.
        -- rewrite upd_ne, upd_eq, Et by set_solver. auto.
        -- rewrite upd_eq, upd_ne, Et by set_solver. destruct (Hapart q Hq); auto.
    + intros p w. assert (∀ r m, r ∈ rs → m ∈ A r → nodes s2 !! m = nodes s !! m) as Hnodes.
      { intros r m Hr Hm. apply Hso. pose proof (ro_node_range _ _ _ _ _ m (ai_region _ _ _ _ _ _ H r Hr) ltac:(set_solver)).
        destruct (Hapart r Hr); lia. }
      split.
      * intros (r & m & [Hr| ->%list_elem_of_singleton]%elem_of_app & Hm & Hz & ->); [|rewrite upd_eq in Hm; set_solver].
        rewrite upd_ne in Hm by set_solver. exists r, m. by rewrite <- (Hnodes r m).
      * intros (r & m & Hr & Hm & Hz & ->). exists r, m. rewrite upd_ne, (Hnodes r m) by set_solver. set_solver.
    + apply lookup_insert_eq.
    + done.
    + intros b [c Hb]. change (amem s1 !! b = amem s !! b). apply Hmem. intros Hin. by rewrite Hfr in Hb.
    + done.
Qed.

End newregion.

(** ** Allocating *)

Section allocate.
Context {DH : DpcHandlers} {PS : PageSource}.
Set Default Proof Using "Type".

(** From a region that is found or new: its free list is searched, and the node
    found is added to the allocated ones. *)
Definition take_from (from size : Z) (status : option obos_status) (retry : K ast (Z * option obos_status))
  : K ast (Z * option obos_status) :=
  x ← get_region from;
  h ← gets node_links;
  freeNode ← take_node (base.size h) from (dl_head (r_free x)) size;
  if negb (truthy freeNode) then retry else
  put_node freeNode size from;;
  allocated_op from (λ h l, link_tail h l freeNode) incr;;
  set_region from (λ r, r <| nFreeBytes ::= λ f, wrap64 (f - size) |>);;
  mret (freeNode, status).

(** The allocator has one block more, at the node [n]. *)
Definition one_more (s : ast) (this : Z) (rs : list Z) (A : Z → list Z) (size n : Z) (s' : ast) : Prop :=
  ∃ rs' X' F' A', alloc_inv s' this rs' X' F' A' ∧ allocated s s' rs rs' A A' n size.

(** The node [n], its header and [size] bytes, is in the region. *)
Definition node_in (r : Z) (x : basicalloc_region) (size n : Z) : Prop :=
  r + SIZEOF_REGION <= n ∧ n + SIZEOF_NODE + size <= rtop r x.

Lemma take_from_ok s this rs X F A r size status retry :
  alloc_inv s this rs X F A → r ∈ rs → 0 < size < 2 ^ 62 → size mod 16 = 0 →
  (take_from r size status retry s = retry s ∧
     none_fits s r (F r) size) ∨
  (∃ n s', take_from r size status retry s = Ret (n, status) s' ∧ one_more s this rs A size n s' ∧ node_in r (X r) size n).
Proof.
  intros H Hr Hsz H16. pose proof (ai_region _ _ _ _ _ _ H r Hr) as Hok. unfold take_from.
  erewrite bind_Ret by (apply load_eq; apply Hok). rewrite (bind_Ret _ _ _ _ _ (gets_eq _ _)).
  rewrite (rep_head _ _ _ (ro_free _ _ _ _ _ Hok)).
  destruct (take_node_spec (F r) [] (base.size (node_links s)) s r (X r) (A r) size) as [[E Hno]|(n & s1 & x1 & fs1 & E & Hc)];
    [done|done|done|eapply seg_size; apply (ro_free _ _ _ _ _ Hok)|left|right].
  - split; [|done]. by erewrite bind_Ret by exact E.
  - erewrite bind_Ret by exact E. destruct (allocated_in _ _ _ _ _ _ _ _ _ _ _ _ H Hr Hc ltac:(lia) H16) as (s2 & X' & F' & E2 & Hinv & Hal).
    pose proof (ald_node _ _ _ _ _ _ _ _ Hal) as [Hn _]. rewrite (proj2 (truthy_true n)) by lia. cbn [negb].
    exists n, s2. split; [|split; [by eexists _, _, _, _|by destruct (cu_range _ _ _ _ _ _ _ _ _ Hc) as (? & ? & _)]].
    destruct (bind_Ret_inv _ _ _ _ _ E2) as ([] & t1 & E3 & E4). erewrite bind_Ret by exact E3.
    destruct (bind_Ret_inv _ _ _ _ _ E4) as ([] & t2 & E5 & E6). erewrite bind_Ret by exact E5.
    by erewrite bind_Ret by exact E6.
Qed.

Lemma allocate_from_eq fuel this start size status :
  allocate_from (S fuel) this start size status =
  (h ← gets region_links;
   from ← find_from (S (base.size h)) start size;
   p ← (if truthy from then mret (from, status) else allocateNewRegion this size status);
   let '(from, status) := p in
   if negb (truthy from) then mret (nullptr, status) else
   take_from from size status (start ← next_region from; allocate_from fuel this start size status)).
Proof. done. Qed.

(** From the label [tryAgain] on, with the regions [l] left to be tried: the
    request is refused and nothing has changed, or there is one block more. *)
Lemma allocate_from_ok l : ∀ l0 fuel s this X F A size st,
  page_source_ok → alloc_inv s this (l0 ++ l) X F A → 0 < size < 2 ^ 60 → size mod 16 = 0 → (length l < fuel)%nat →
  st = OBOS_STATUS_SUCCESS →
  (∃ e, allocate_from fuel this (default 0 (head l)) size (Some st) s = Ret (nullptr, Some e) s ∧
     allocateNewRegion this size (Some st) s = Ret (nullptr, Some e) s ∧ ∀ r, r ∈ l → passed_over s r (X r) (F r) size) ∨
  (∃ n s', allocate_from fuel this (default 0 (head l)) size (Some st) s = Ret (n, Some OBOS_STATUS_SUCCESS) s' ∧
     one_more s this (l0 ++ l) A size n s' ∧
     ((∃ r, r ∈ l ∧ node_in r (X r) size n) ∨ ∀ r, r ∈ l → passed_over s r (X r) (F r) size)).
Proof.
  induction l as [l IH] using (induction_ltof1 _ length). intros l0 fuel s this X F A size st Hps H Hsz H16 Hf ->.
  destruct fuel as [|fuel]; [lia|]. rewrite allocate_from_eq, (bind_Ret _ _ _ _ _ (gets_eq _ _)).
  destruct (ai_alloc _ _ _ _ _ _ H) as (a & _ & _ & Hrep).
  pose proof (rep_seg _ _ _ Hrep) as [_ Hseg]%seg_app.
  assert (length l <= S (base.size (region_links s)))%nat as Hlen.
  { pose proof (seg_size _ _ _ _ (rep_seg _ _ _ Hrep) (rep_nodup _ _ _ Hrep)) as Hl. rewrite length_app in Hl. lia. }
  destruct (find_from_eq l (S (base.size (region_links s))) _ X size s Hseg) as [[E Hskip]|(l1 & r & l2 & -> & E & Hskip)];
    [pose proof (rep_nonnull _ _ _ Hrep); set_solver|intros r Hr; eexists _, _; apply H; set_solver|done| |];
    erewrite bind_Ret by exact E.
  - cbn [truthy Z.eqb negb].
    destruct (allocateNewRegion_ok s this (l0 ++ l) X F A size OBOS_STATUS_SUCCESS Hps H Hsz)
      as [[e He]|(blk & n0 & z & s1 & x & He & Hb0 & Hz & Hg)]; [left|right]; change (truthy 0) with false; cbv iota;
      erewrite bind_Ret by exact He; [eexists; split; [done|split; [done|intros r Hr; left; auto]]|].
    cbv beta iota. rewrite (proj2 (truthy_true blk)) by done. cbn [negb].
    destruct (take_from_ok s1 this _ _ _ _ blk size (Some OBOS_STATUS_SUCCESS)
       (start ← next_region blk; allocate_from fuel this start size (Some OBOS_STATUS_SUCCESS)) (gw_inv _ _ _ _ _ _ _ _ _ _ _ Hg))
      as [[_ Hno]|(n & s2 & E2 & (rs2 & X2 & F2 & A2 & Hinv2 & Hal2) & _)]; [set_solver|lia|done| |].
    { exfalso. rewrite upd_eq in Hno. specialize (Hno n0 z ltac:(set_solver) (gw_node _ _ _ _ _ _ _ _ _ _ _ Hg)). lia. }
    exists n, s2. split; [done|]. split; [|right; intros r Hr; left; auto]. exists rs2, X2, F2, A2. split; [done|]. destruct Hal2 as [? Hl Hfr Hm Hk]. split; [done| | | |].
    + intros p w. rewrite Hl, (gw_live _ _ _ _ _ _ _ _ _ _ _ Hg). done.
    + intros w. by rewrite <- (gw_live _ _ _ _ _ _ _ _ _ _ _ Hg).
    + intros b Hb. rewrite Hm; [by apply Hg|]. rewrite (gw_mem _ _ _ _ _ _ _ _ _ _ _ Hg) by done. done.
    + by rewrite Hk, (gw_ak _ _ _ _ _ _ _ _ _ _ _ Hg).
  - assert (r ≠ 0) as Hr0 by (pose proof (rep_nonnull _ _ _ Hrep); set_solver).
    rewrite (proj2 (truthy_true r)) by done. rewrite bind_ret_l, (proj2 (truthy_true r)) by done. cbn [negb].
    destruct (take_from_ok s this _ X F A r size (Some OBOS_STATUS_SUCCESS)
       (start ← next_region r; allocate_from fuel this start size (Some OBOS_STATUS_SUCCESS)) H)
      as [[E2 Hno]|(n & s2 & E2 & Hone & Hn)]; [set_solver|lia|done| |right; exists n, s2; split; [done|split; [done|left; exists r; set_solver]]].
    rewrite E2. rewrite app_assoc in Hrep. pose proof (seg_mid _ _ _ _ (rep_seg _ _ _ Hrep)) as Hlk.
    erewrite bind_Ret by (by apply next_region_eq). cbn [dl_next].
    rewrite length_app in Hf. simpl in Hf.
    replace (l0 ++ l1 ++ r :: l2) with ((l0 ++ l1 ++ [r]) ++ l2) in * by (by rewrite <- !app_assoc).
    assert ((∀ q, q ∈ l2 → passed_over s q (X q) (F q) size) → ∀ q, q ∈ l1 ++ r :: l2 → passed_over s q (X q) (F q) size) as Hpass.
    { intros Hl2 q [Hq|[->|Hq]%elem_of_cons]%elem_of_app; [left; auto|by right|auto]. }
    destruct (IH l2) with (l0 := l0 ++ l1 ++ [r]) (fuel := fuel) (s := s) (this := this) (X := X) (F := F) (A := A) (size := size)
      (st := OBOS_STATUS_SUCCESS) as [(e & ? & ? & Hl2)|(n & s' & ? & ? & Hl2)]; try done; [|lia| |].
    + unfold ltof. rewrite length_app. simpl. lia.
    + left. exists e. auto.
    + right. exists n, s'. split; [done|]. split; [done|]. destruct Hl2 as [(q & Hq & Hn)|Hl2]; [left; exists q; set_solver|auto].
Qed.

Lemma region_ok_ak s k r x fs al : region_ok s r x fs al → region_ok (s <| ak := k |>) r x fs al.
Proof. intros []. by split. Qed.
Lemma alloc_inv_ak s k this rs X F A : alloc_inv s this rs X F A → alloc_inv (s <| ak := k |>) this rs X F A.
Proof. intros []. split; try done. intros r Hr. apply region_ok_ak. auto. Qed.

Lemma akern_Ret {B} (m : K kst B) s a k : m (ak s) = Ret a k → akern m s = Ret a (s <| ak := k |>).
Proof. intros E. unfold akern, zoom. by rewrite E. Qed.

(** The allocator's lock is taken and released around the work: on the way back
    the processor and the lock are as before. *)
Definition a_ready (s : ast) (this v : Z) : Prop :=
  quiet (irq (ak s)) v ∧ lock_free (irq (ak s)) (AllocatorLock this).
Definition locked (s : ast) (this : Z) : ast := s <| ak ::= λ k, k <| irq ::= λ i, acq_st i (AllocatorLock this) |> |>.

Lemma round_16 size : 0 < size < 2 ^ 59 →
  size <= round_up size 0x10 < size + 16 ∧ round_up size 0x10 mod 16 = 0.
Proof. intros. destruct (round_up_spec size 0x10); lia. Qed.

(** What a granted allocation of [z] bytes at [p] amounts to. *)
Record gives (s : ast) (this : Z) (rs : list Z) (A : Z → list Z) (p z : Z) (s' : ast) : Prop := {
  gv_inv : ∃ rs' X' F' A', alloc_inv s' this rs' X' F' A' ∧
    ∀ q w, live s' rs' A' q w ↔ live s rs A q w ∨ (q = p ∧ w = z);
  gv_align : 0 < p ∧ p mod 16 = 0;
  gv_apart q w : live s rs A q w → apart p z q w;
  gv_mapped a : p <= a < p + z → is_Some (amem s' !! a);
  gv_mem a : is_Some (amem s !! a) → amem s' !! a = amem s !! a;
  gv_ak : ak s' = ak s
}.

Lemma live_mapped s this rs X F A p z a :
  alloc_inv s this rs X F A → live s rs A p z → p <= a < p + z → is_Some (amem s !! a).
Proof.
  intros H (r & n & Hr & Hn & Hz & ->) Ha. pose proof (ai_region _ _ _ _ _ _ H r Hr) as Hok.
  destruct (ro_node _ _ _ _ _ Hok n) as (w & Hw & ? & ? & ? & _); [set_solver|]. simplify_eq.
  apply (ro_mapped _ _ _ _ _ Hok). unfold SIZEOF_NODE, SIZEOF_REGION in *. lia.
Qed.

Lemma gives_one_more s this rs A size n s' :
  one_more (locked s this) this rs A size n s' → gives s this rs A (n + SIZEOF_NODE) size (s' <| ak := ak s |>).
Proof.
  intros (rs' & X' & F' & A' & Hinv & [[Hn0 Hn16] Hl Hfr Hm Hk]).
  assert (live s' rs' A' (n + SIZEOF_NODE) size) as Hnew by (apply Hl; auto).
  split; simpl; [|unfold SIZEOF_NODE; split; [lia|by apply mod16_add]| | |done|done].
  - exists rs', X', F', A'. split; [by apply alloc_inv_ak|done].
  - intros q w Hq. eapply live_apart; [exact Hinv|done|apply Hl; by left|]. intros <-. by apply (Hfr w).
  - intros a Ha. by eapply live_mapped.
Qed.

Lemma a_acquire s this v :
  a_ready s this v → akern (Core_SpinlockAcquireExplicit (Some (AllocatorLock this)) IRQL_DISPATCH false) s =
    Ret (acq_irql v) (locked s this).
Proof. intros [Hq Hl]. erewrite akern_Ret by exact (acquire_quiet _ _ _ Hq Hl). by destruct s. Qed.
Lemma a_release s this v s' :
  a_ready s this v → ak s' = ak (locked s this) →
  akern (Core_SpinlockRelease (AllocatorLock this) (acq_irql v)) s' = Ret OBOS_STATUS_SUCCESS (s' <| ak := ak s |>).
Proof.
  intros [Hq Hl] E. erewrite akern_Ret by (apply (release_quiet _ (irq (ak s))); [done|done|by rewrite E]).
  rewrite E. by destruct s as [[] ? ? ? ? ? ? ? ?].
Qed.

(** [C6] Allocating [size] bytes, below 2^59, terminates without a fault. Either every
    region is passed over and the page source refuses a new one: the result is null, the
    status is the source's and nothing has changed. A region is passed over when its
    list of free nodes is empty, when no biggest free node is recorded for it or the
    recorded one is too small, or when no free node of it has exactly the size or enough
    to be cut; the recorded one can be too small although another would fit. Or the
    result is an address, aligned to 16 bytes, of a block of [size] bytes, rounded up to
    16, that is mapped and apart from every block in use; it is the only new block, no
    byte that was mapped has changed, and the allocator is well formed; and the block
    lies in one of the regions unless all of them were passed over. The headers of nodes
    and regions are kept apart from the bytes, so the last but one part is about the
    bytes of blocks. A non-null pointer for the status is assumed, and a page source
    that meets [page_source_ok]. *)
Theorem basic_allocate_correct s v this rs X F A size st :
  page_source_ok → alloc_inv s this rs X F A → a_ready s this v → 0 < size < 2 ^ 59 →
  let z := round_up size 0x10 in
  (∃ e, Allocate this size (Some st) s = Ret (nullptr, Some e) s ∧
     (∀ r, r ∈ rs → passed_over s r (X r) (F r) z) ∧
     allocateNewRegion this z (Some OBOS_STATUS_SUCCESS) (locked s this) = Ret (nullptr, Some e) (locked s this)) ∨
  (∃ p s', Allocate this size (Some st) s = Ret (p, Some OBOS_STATUS_SUCCESS) s' ∧ gives s this rs A p z s' ∧
     ((∃ r, r ∈ rs ∧ r + SIZEOF_REGION + SIZEOF_NODE <= p ∧ p + z <= rtop r (X r)) ∨
      ∀ r, r ∈ rs → passed_over s r (X r) (F r) z)).
Proof.
  intros Hps H Hrd Hsz z. destruct (round_16 _ Hsz) as [Hr Hr16].
  assert (alloc_inv (locked s this) this rs X F A) as HL by (by apply alloc_inv_ak).
  destruct (ai_alloc _ _ _ _ _ _ H) as (a & Ha & Hmag & Hrep). pose proof (ai_this _ _ _ _ _ _ H) as Hthis.
  unfold Allocate. rewrite (proj2 (truthy_true this)) by done. cbn [negb].
  unfold get_alloc. erewrite bind_Ret by (by apply load_eq). rewrite Hmag, Z.eqb_refl, (proj2 (truthy_true size)) by lia. cbn [negb orb].
  erewrite bind_Ret by (by apply a_acquire). erewrite bind_Ret by (by apply load_eq). rewrite (bind_Ret _ _ _ _ _ (gets_eq _ _)).
  rewrite (rep_head _ _ _ Hrep). change (region_links (locked s this)) with (region_links s). cbn [set_status fmap option_fmap option_map].
  assert (length rs < Datatypes.S (base.size (region_links s)))%nat as Hlen.
  { pose proof (seg_size _ _ _ _ (rep_seg _ _ _ Hrep) (rep_nodup _ _ _ Hrep)). lia. }
  destruct (allocate_from_ok rs [] _ _ this X F A (round_up size 0x10) _ Hps HL ltac:(lia) Hr16 Hlen eq_refl) as [(e & E & Enew & Hpass)|(n & s' & E & Hone & Hin)];
    [left|right]; unfold set_status; simpl; erewrite bind_Ret by exact E; cbn [fst snd].
  - exists e. split; [|done]. erewrite bind_Ret by (by apply a_release). by destruct s.
  - exists (n + SIZEOF_NODE), (s' <| ak := ak s |>). split; [|split; [by apply gives_one_more|]].
    2:{ destruct Hin as [(r & Hr' & Hlo & Hhi)|Hpass]; [left; exists r; split; [done|]; unfold z; lia|by right]. }
    destruct Hone as (rs' & X' & F' & A' & Hinv & Hal).
    erewrite bind_Ret by (by apply a_release; [|apply (ald_ak _ _ _ _ _ _ _ _ Hal)]).
    rewrite (proj2 (truthy_true n)); [done|]. pose proof (ald_node _ _ _ _ _ _ _ _ Hal). lia.
Qed.

(** When the allocation is refused, clearing the memory writes through the null
    pointer. *)
Lemma zero_allocate_refused s this nObjects bytesPerObject st st' s' a :
  this ≠ 0 → allocators s !! this = Some a → a_magic a = OBOS_BASIC_ALLOCATOR_MAGIC →
  0 < wrap64 (bytesPerObject * nObjects) →
  Allocate this (wrap64 (bytesPerObject * nObjects)) st s = Ret (nullptr, st') s' → amem s' !! 0 = None →
  ZeroAllocate this nObjects bytesPerObject st s = Stop BadDeref.
Proof.
  intros Hthis Ha Hmag Hsz E H0. unfold ZeroAllocate. rewrite (proj2 (truthy_true this)) by done. cbn [negb].
  unfold get_alloc. erewrite bind_Ret by (by apply load_eq). rewrite Hmag, Z.eqb_refl. cbn [negb].
  erewrite bind_Ret by exact E. cbn [fst]. apply bind_Stop. unfold memzero, memset. apply bind_Stop.
  destruct (Z.to_nat _) as [|k] eqn:Ek; [lia|]. cbn [memset_loop]. apply bind_Stop.
  unfold setb, putb, store. change (mem_of s' !! (nullptr + 0)) with (amem s' !! 0). by rewrite H0.
Qed.

End allocate.

(** ** Freeing *)

Section free.
Context {DH : DpcHandlers} {PS : PageSource}.
Set Default Proof Using "Type".

(** Nodes move between the two lists of a region. *)
Lemma region_ok_move s s' r x x' fs fs' al al' :
  region_ok s r x fs al → amem s' = amem s → nodes s' = nodes s → regions s' !! r = Some x' →
  r_size x' = r_size x → r_source x' = r_source x →
  dl_rep (node_links s') (r_free x') fs' → dl_rep (node_links s') (r_allocated x') al' →
  fs' ++ al' ≡ₚ fs ++ al → (biggestFreeNode x' = biggestFreeNode x ∨ biggestFreeNode x' ∈ fs ++ al) →
  region_ok s' r x' fs' al'.
Proof.
  intros H Hm HN Hx Hsz Hsrc Hf Ha Hp Hb.
  assert (rtop r x' = rtop r x) as Et by (unfold rtop; by rewrite Hsz).
  assert (biggestFreeNode x' = 0 ∨ (is_Some (nodes s !! biggestFreeNode x') ∧ r <= biggestFreeNode x' < rtop r x)) as Hb'.
  { destruct Hb as [->|Hb]; [apply H|right]. split; [|by eapply ro_node_range].
    destruct (ro_node _ _ _ _ _ H _ Hb) as (z & Hz & _). by eexists. }
  destruct H. split; rewrite ?Et, ?Hm, ?HN, ?Hsz, ?Hsrc; try done.
  - by rewrite Hp.
  - intros n. rewrite Hp. auto.
  - intros n m z w. rewrite !Hp. auto.
Qed.

(** Unlinking the node [n] from the allocated ones. *)
Lemma unlink_allocated s r x fs l1 n l2 :
  region_ok s r x fs (l1 ++ n :: l2) →
  ∃ h l, allocated_op r (λ h l, unlink_pn h l n) decr s =
      Ret () (s <| node_links := h |> <| regions ::= <[r := x <| r_allocated := l |>]> |>) ∧
    dl_rep h l (l1 ++ l2) ∧ dl_rep h (r_free x) fs ∧ links_frame (l1 ++ l2) (node_links s) h.
Proof.
  intros H. pose proof (ro_length _ _ _ _ _ H) as Hlen. rewrite length_app in Hlen.
  destruct (unlink_pn_spec _ _ _ _ _ (ro_alloc _ _ _ _ _ H)) as (h & l & Hun & Hrep & Hf); [lia|].
  exists h, (l <| dl_nNodes ::= decr |>). split; [|split; [done|split; [|done]]].
  - by rewrite (allocated_op_eq _ _ _ _ _ _ _ (ro_hdr _ _ _ _ _ H) Hun).
  - eapply links_frame_rep; [exact Hf| |apply H]. intros y Hy Hy'.
    pose proof (ro_nodup _ _ _ _ _ H) as (_ & Hd & _)%NoDup_app. apply (Hd y); [done|set_solver].
Qed.

(** The block goes to the free list. *)
Definition give_back (r n : Z) : K ast () :=
  store node_links (λ m s, s <| node_links := m |>) n (λ _, unlinked);;
  free_op r (λ h l, link_tail h l n) incr;;
  x ← get_node n;
  set_region r (λ y, y <| nFreeBytes ::= λ f, wrap64 (f + n_size x) |>);;
  y ← get_region r;
  bigger ← (if negb (truthy (biggestFreeNode y)) then mret true
            else z ← get_node (biggestFreeNode y); mret (n_size z <? n_size x));
  when bigger (set_region r (λ y, y <| biggestFreeNode := n |>)).

Lemma give_back_eq s r x n z c lk h l :
  regions s !! r = Some x → nodes s !! n = Some (node_ok z c) → node_links s !! n = Some lk →
  link_tail (<[n := unlinked]> (node_links s)) (r_free x) n = Some (h, l) →
  (biggestFreeNode x = 0 ∨ is_Some (nodes s !! biggestFreeNode x)) →
  ∃ b, give_back r n s = Ret () (s <| node_links := h |> <| regions ::= <[r := x <| r_free := l <| dl_nNodes ::= incr |> |>
      <| nFreeBytes ::= λ f, wrap64 (f + z) |> <| biggestFreeNode := b |>]> |>) ∧ (b = biggestFreeNode x ∨ b = n).
Proof.
  intros Hx Hz Hlk Hlt Hbg. unfold give_back. erewrite bind_Ret by (apply store_eq; exact Hlk).
  erewrite bind_Ret by (eapply free_op_eq; [exact Hx|exact Hlt]).
  unfold get_node. erewrite bind_Ret by (apply load_eq; exact Hz). unfold set_region.
  erewrite bind_Ret by (apply store_eq; apply lookup_insert_eq). unfold get_region.
  erewrite bind_Ret by (apply load_eq; apply lookup_insert_eq). cbn [n_size]. simpl.
  assert (∀ s2, nodes s2 = nodes s → ∃ c : bool, (if negb (truthy (biggestFreeNode x)) then mret true
          else z0 ← load nodes (biggestFreeNode x); mret (n_size z0 <? z)) s2 = Ret c s2) as Hbig.
  { intros s2 Es2. destruct (truthy (biggestFreeNode x)) eqn:Eb; [|by eexists]. apply truthy_true in Eb.
    destruct Hbg as [?|[y Hy]]; [done|]. eexists. cbn [negb].
    erewrite bind_Ret by (apply load_eq; rewrite Es2; exact Hy). done. }
  match goal with |- context [(_ ≫= _) ?s2] => destruct (Hbig s2 eq_refl) as [d Hd] end.
  erewrite bind_Ret by exact Hd. unfold when. destruct d.
  - exists n. split; [|by right]. erewrite store_eq by apply lookup_insert_eq. f_equal. simpl. by rewrite !insert_insert_eq.
  - exists (biggestFreeNode x). split; [|by left]. unfold mret, K_ret. f_equal. simpl. by rewrite !insert_insert_eq.
Qed.

Lemma give_back_ok s r x fs l1 n l2 h l :
  region_ok s r x fs (l1 ++ n :: l2) →
  dl_rep h l (l1 ++ l2) → dl_rep h (r_free x) fs → links_frame (l1 ++ l2) (node_links s) h →
  ∃ s' x', give_back r n (s <| node_links := h |> <| regions ::= <[r := x <| r_allocated := l |>]> |>) = Ret () s' ∧
    region_ok s' r x' (fs ++ [n]) (l1 ++ l2) ∧ r_size x' = r_size x ∧ nodes s' = nodes s ∧ changes s s' r (rtop r x).
Proof.
  intros H Hal Hfr Hf. set (s1 := s <| node_links := h |> <| regions ::= <[r := x <| r_allocated := l |>]> |>).
  assert (n ∈ fs ++ l1 ++ n :: l2) as Hn by set_solver. destruct (ro_node _ _ _ _ _ H n Hn) as (z & Hz & _ & Hlo & _).
  pose proof (ro_nodup _ _ _ _ _ H) as Hnd. rewrite app_assoc, <- Permutation_middle, <- app_assoc in Hnd.
  apply NoDup_cons in Hnd as [Hnin Hnd]. pose proof (ro_pos _ _ _ _ _ H) as [Hr0 _].
  destruct Hf as [Hf Hdom].
  assert (∃ lk, h !! n = Some lk) as [lk Hlk].
  { pose proof (seg_mid _ _ _ _ (rep_seg _ _ _ (ro_alloc _ _ _ _ _ H))) as Hm. rewrite Hf by set_solver. by eexists. }
  set (h1 := <[n := unlinked]> h).
  assert (∀ m, m ≠ n → h1 !! m = h !! m) as Hh1 by (intros; by apply lookup_insert_ne).
  pose proof (ro_length _ _ _ _ _ H) as Hlen. rewrite length_app in Hlen.
  destruct (push_spec h1 (r_free x) fs n unlinked) as (h2 & l' & Hlt & Hrep & Hf2);
    [eapply dl_rep_frame; [|exact Hfr]; intros; apply Hh1; set_solver|set_solver|unfold SIZEOF_REGION in *; lia|apply lookup_insert_eq|done|lia|].
  set (x3 := x <| r_allocated := l |> <| r_free := l' <| dl_nNodes ::= incr |> |> <| nFreeBytes ::= λ f, wrap64 (f + z) |>).
  destruct (give_back_eq s1 r (x <| r_allocated := l |>) n z r lk h2 l') as (b & E & Hb);
    [apply lookup_insert_eq|done|done|done|by destruct (ro_biggest _ _ _ _ _ H) as [?|[? _]]; [left|right]|].
  set (s4 := s1 <| node_links := h2 |> <| regions ::= <[r := x3 <| biggestFreeNode := b |>]> |>) in *.
  destruct Hf2 as [Hf2 _].
  assert (∀ m, m ∉ fs ++ l1 ++ n :: l2 → h2 !! m = node_links s !! m) as Hlinks.
  { intros m Hm. rewrite Hf2, Hh1, Hf by set_solver. done. }
  exists s4, (x3 <| biggestFreeNode := b |>). split; [done|]. split; [|split; [done|split; [done|]]].
  - eapply region_ok_move; [exact H|done|done|apply lookup_insert_eq|done|done|done| | |].
    + eapply dl_rep_frame; [|exact Hal]. intros y Hy. simpl. assert (y ≠ n) by set_solver.
      rewrite Hf2; [by apply Hh1|]. rewrite elem_of_cons. intros [?|Hy']; [done|].
      apply NoDup_app in Hnd as (_ & Hd & _). by apply (Hd y).
    + by rewrite <- app_assoc, (Permutation_middle l1 l2 n).
    + simpl. destruct Hb as [->| ->]; [by left|by right].
  - split; [by destruct s|done| |].
    + intros m Hm. apply Hlinks. intros Hin. by eapply Hm, ro_node_range.
    + intros q Hq. simpl. by rewrite !lookup_insert_ne.
Qed.

(** Where the node [n] of the region [r] goes: to the end of the free list of the
    region, or, when it is the last in use there, the region leaves the list of
    regions and all its bytes go back to the page source. *)
Definition node_goes (s' : ast) (rs rs' : list Z) (X : Z → basicalloc_region) (F F' A : Z → list Z) (r n : Z) : Prop :=
  if decide (A r = [n]) then
    (∃ q1 q2, rs = q1 ++ r :: q2 ∧ rs' = q1 ++ q2) ∧ ∀ a, r <= a < rtop r (X r) → amem s' !! a = None
  else rs' = rs ∧ F' r = F r ++ [n].

(** What freeing the block [p] amounts to. *)
Record takes (s : ast) (this : Z) (rs : list Z) (X : Z → basicalloc_region) (F A : Z → list Z) (p : Z) (s' : ast) : Prop := {
  tk_inv : ∃ rs' X' F' A', alloc_inv s' this rs' X' F' A' ∧
    (∀ q w, live s' rs' A' q w ↔ live s rs A q w ∧ q ≠ p) ∧
    ∃ r n, p = n + SIZEOF_NODE ∧ r ∈ rs ∧ n ∈ A r ∧ node_goes s' rs rs' X F F' A r n;
  tk_mem q w a : live s rs A q w → q ≠ p → q <= a < q + w → amem s' !! a = amem s !! a;
  tk_ak : ak s' = ak s
}.

(** The list of allocated nodes around [n]. *)
Lemma live_split s this rs X F A p z :
  alloc_inv s this rs X F A → live s rs A p z →
  ∃ r n l1 l2, p = n + SIZEOF_NODE ∧ r ∈ rs ∧ A r = l1 ++ n :: l2 ∧ n ∉ l1 ++ l2 ∧ nodes s !! n = Some (node_ok z r) ∧
    r + SIZEOF_REGION <= n ∧ n + SIZEOF_NODE + z <= rtop r (X r) ∧ 0 <= z.
Proof.
  intros H (r & n & Hr & Hn & Hz & ->). pose proof (ai_region _ _ _ _ _ _ H r Hr) as Hok.
  destruct (ro_node _ _ _ _ _ Hok n) as (w & Hw & ? & ? & ? & _); [set_solver|]. simplify_eq.
  pose proof (ro_nodup _ _ _ _ _ Hok) as (_ & _ & Hnd)%NoDup_app.
  apply list_elem_of_split in Hn as (l1 & l2 & E). rewrite E in Hnd.
  rewrite <- Permutation_middle in Hnd. apply NoDup_cons in Hnd as [Hnin _].
  exists r, n, l1, l2. repeat split; try done; lia.
Qed.

Lemma live_range s this rs X F A r n :
  alloc_inv s this rs X F A → r ∈ rs → n ∈ A r → r <= n < rtop r (X r).
Proof. intros H Hr Hn. eapply ro_node_range; [by apply H|set_solver]. Qed.

(** The region keeps other blocks. *)
Lemma takes_block s this rs X F A r l1 n l2 s' x fs :
  alloc_inv s this rs X F A → r ∈ rs → A r = l1 ++ n :: l2 → n ∉ l1 ++ l2 →
  region_ok s' r x fs (l1 ++ l2) → r_size x = r_size (X r) → nodes s' = nodes s → changes s s' r (rtop r (X r)) →
  l1 ++ l2 ≠ [] → fs = F r ++ [n] →
  takes s this rs X F A (n + SIZEOF_NODE) s'.
Proof.
  intros H Hr E Hnin Hok Hsz HN Hch Hne12 Hfs. split.
  - exists rs, (upd X r x), (upd F r fs), (upd A r (l1 ++ l2)). split; [by eapply alloc_inv_region|].
    split; [|exists r, n; split; [done|]; split; [done|]; split; [rewrite E; set_solver|];
      unfold node_goes; rewrite decide_False; [by rewrite upd_eq|];
      rewrite E; intros [[-> [= ->]]|[-> [=]]]%app_eq_unit; by apply Hne12].
    intros q w. unfold live. rewrite HN. split.
    + intros (r' & m & Hr' & Hm & Hw & ->). destruct (decide (r' = r)) as [->|Hne].
      * rewrite upd_eq in Hm. split; [exists r, m; rewrite E; set_solver|]. intros ?. assert (m = n) as -> by lia. done.
      * rewrite upd_ne in Hm by done. split; [by exists r', m|]. intros ?. assert (m = n) as -> by lia.
        pose proof (live_range _ _ _ _ _ _ _ _ H Hr' Hm). pose proof (live_range _ _ _ _ _ _ _ n H Hr ltac:(rewrite E; set_solver)).
        destruct (ai_apart _ _ _ _ _ _ H r r'); try done; lia.
    + intros [(r' & m & Hr' & Hm & Hw & ->) Hne]. exists r', m. split; [done|]. split; [|done].
      destruct (decide (r' = r)) as [->|Hne']; [|by rewrite upd_ne]. rewrite upd_eq. rewrite E in Hm.
      assert (m ≠ n) by (intros ->; lia). set_solver.
  - intros. by rewrite (ch_rest _ _ _ _ Hch).
  - by rewrite (ch_rest _ _ _ _ Hch).
Qed.

(** The region goes. *)
Lemma takes_region s this q1 r q2 X F A n s' a :
  alloc_inv s this (q1 ++ r :: q2) X F A → A r = [n] →
  same_outside s s' r (rtop r (X r)) → allocators s' !! this = Some a → a_magic a = OBOS_BASIC_ALLOCATOR_MAGIC →
  dl_rep (region_links s') (a_regions a) (q1 ++ q2) → ak s' = ak s →
  (∀ b, r <= b < rtop r (X r) → amem s' !! b = None) →
  takes s this (q1 ++ r :: q2) X F A (n + SIZEOF_NODE) s'.
Proof.
  intros H E Hso Ha Hmag Hrep Hk Hgone. assert (r ∈ q1 ++ r :: q2) as Hr by set_solver.
  destruct (ai_alloc _ _ _ _ _ _ H) as (a0 & _ & _ & Hrep0). pose proof (rep_nodup _ _ _ Hrep0) as Hnd.
  rewrite <- Permutation_middle in Hnd. apply NoDup_cons in Hnd as [Hnin _].
  assert (∀ q, q ∈ q1 ++ q2 → q ∈ q1 ++ r :: q2 ∧ q ≠ r) as Hin by set_solver.
  assert (∀ q, q ∈ q1 ++ q2 → rtop q (X q) <= r ∨ rtop r (X r) <= q) as Hap.
  { intros q Hq. destruct (Hin q Hq). destruct (ai_apart _ _ _ _ _ _ H q r); auto. }
  assert (∀ q m, q ∈ q1 ++ q2 → m ∈ A q → ¬ (r <= m < rtop r (X r))) as Hout.
  { intros q m Hq Hm. pose proof (live_range _ _ _ _ _ _ _ _ H (proj1 (Hin q Hq)) Hm). destruct (Hap q Hq); lia. }
  pose proof (live_range _ _ _ _ _ _ _ n H Hr ltac:(rewrite E; set_solver)) as Hnr.
  split; [|intros q w b|done].
  - exists (q1 ++ q2), X, F, A. split; [split|].
    + apply H.
    + by exists a.
    + intros q Hq. eapply region_ok_frame; [apply H; by apply Hin|exact Hso|]. destruct (Hap q Hq); auto.
    + intros q q' Hq Hq'. apply H; by apply Hin.
    + split; [|exists r, n; split; [done|]; split; [done|]; split; [rewrite E; set_solver|];
        unfold node_goes; rewrite decide_True by done; split; [by exists q1, q2|done]].
      intros p w. split.
      * intros (q & m & Hq & Hm & Hw & ->). rewrite (so_nodes _ _ _ _ Hso) in Hw by eauto.
        split; [exists q, m; set_solver|]. intros ?. assert (m = n) as -> by lia. by apply (Hout q n).
      * intros [(q & m & Hq & Hm & Hw & ->) Hne]. assert (q ≠ r) by (intros ->; rewrite E in Hm; apply Hne; set_solver).
        assert (q ∈ q1 ++ q2) as Hq' by set_solver. exists q, m. by rewrite (so_nodes _ _ _ _ Hso) by eauto.
  - intros (q' & m & Hq & Hm & Hw & ->) Hne Hb. assert (q' ≠ r) by (intros ->; rewrite E in Hm; apply Hne; set_solver).
    assert (q' ∈ q1 ++ q2) as Hq' by set_solver. apply Hso. pose proof (ai_region _ _ _ _ _ _ H q' Hq) as Hok.
    destruct (ro_node _ _ _ _ _ Hok m) as (z & Hz & ? & ? & ? & _); [set_solver|]. simplify_eq.
    unfold SIZEOF_REGION, SIZEOF_NODE in *. destruct (Hap q' Hq'); lia.
Qed.

Lemma freeRegion_ok s this q1 r q2 a x :
  page_sink_ok → allocators s !! this = Some a → dl_rep (region_links s) (a_regions a) (q1 ++ r :: q2) →
  Z.of_nat (length (q1 ++ r :: q2)) < 2 ^ 64 → regions s !! r = Some x → r_source x ≠ BLOCK_SOURCE_INVALID →
  ∃ s' a', freeRegion this r s = Ret () s' ∧ same_outside s s' r (rtop r x) ∧ allocators s' !! this = Some a' ∧
    a_magic a' = a_magic a ∧ dl_rep (region_links s') (a_regions a') (q1 ++ q2) ∧ ak s' = ak s ∧
    (∀ b, r <= b < rtop r x → amem s' !! b = None).
Proof.
  intros Hpk Ha Hrep Hlen Hx Hsrc. destruct (unlink_pn_spec _ _ _ _ _ Hrep Hlen) as (h & l & Hun & Hrep' & _).
  unfold freeRegion. erewrite bind_Ret by (by eapply regions_op_eq). unfold get_region.
  erewrite bind_Ret by (by apply load_eq). rewrite bool_decide_eq_false_2 by done. cbn [negb].
  set (s1 := s <| region_links := h |> <| allocators ::= <[this := a <| a_regions := l <| dl_nNodes ::= decr |> |>]> |>).
  assert (∀ op, takes_back op r (rtop r x - r) → ∃ s' a', op s1 = Ret () s' ∧ same_outside s s' r (rtop r x) ∧
    allocators s' !! this = Some a' ∧ a_magic a' = a_magic a ∧ dl_rep (region_links s') (a_regions a') (q1 ++ q2) ∧ ak s' = ak s ∧
    (∀ b, r <= b < rtop r x → amem s' !! b = None)) as Hop.
  { intros op Hop. destruct (Hop s1) as (s' & E & Hso & Hrl & Hal & Hk & Hgone). exists s'. eexists. split; [done|].
    replace (r + (rtop r x - r)) with (rtop r x) in Hso, Hgone by lia. split; [by destruct Hso; split|].
    rewrite Hal, Hrl, Hk. split; [apply lookup_insert_eq|done]. }
  erewrite bind_Ret by (by apply assert_eq). replace (rtop r x - r) with (page_bytes (r_size x)) in Hop by (unfold rtop, page_bytes; lia).
  destruct (r_source x); [done|apply Hop..]; apply Hpk.
Qed.

Lemma locked_takes s this rs X F A p s' : takes (locked s this) this rs X F A p s' → takes s this rs X F A p (s' <| ak := ak s |>).
Proof.
  intros [(rs' & X' & F' & A' & Hinv & Hl) Hm Hk]. split; [|done|done].
  exists rs', X', F', A'. split; [by apply alloc_inv_ak|done].
Qed.


End free.
