(* ===== verification/IrqObj.v ===== *)
(** * IRQ objects and vectors ([irq/irq.c], [arch/x86_64/idt.c])

    An interrupt vector has a list of IRQ objects; an object is put on a vector
    of the level it asks for or on the vector it names, moving other objects out
    of the way when forced.  The dispatcher finds the object an interrupt belongs
    to and calls its handler at the level of the vector.  A [irq_vector*] points
    into [s_irqVectors]: it is the index, the null pointer being [None]. *)

From S2P Require Import Prelude DList KState Irql ThreadList Schedule Thread.

(** ** Data ([irq/irq.h], [arch/x86_64/irq_vector.h]) *)

Definition OBOS_IRQ_VECTOR_ID_MAX : Z := 224.
Definition OBOS_IRQ_VECTOR_ID_COUNT_PER_IRQL : nat := 16.
Definition OBOS_IRQ_VECTOR_ID_TO_IRQL (x : Z) : Z := wrap8 (Z.shiftr x 4 + 2).
Definition OBOS_IRQL_TO_IRQ_VECTOR_ID (x : Z) : Z := wrap8 (Z.shiftl x 4 - 0x20).

(** The [irqObjects] of a vector are linked through [irq_node]s, whose [data] is
    the object. *)
Record irq_vector := mkVec {
  v_id : Z; irqObjects : dlist; irqObjectsCapacity : Z; allowWorkSharing : bool; nIRQsWithChosenID : Z
}.
#[export] Instance eta_irq_vector : Etable irq_vector :=
  λ r, mkVec (v_id r) (irqObjects r) (irqObjectsCapacity r) (allowWorkSharing r) (nIRQsWithChosenID r).

Record irq_obj := mkIrqObj {
  vector : option Z; choseVector : bool; irqCheckerUserdata : Z; handlerUserdata : Z;
  irqMoveCallbackUserdata : Z; irqChecker : Z; irq_handler : Z; moveCallback : Z
}.
#[export] Instance eta_irq_obj : Etable irq_obj :=
  λ r, mkIrqObj (vector r) (choseVector r) (irqCheckerUserdata r) (handlerUserdata r)
    (irqMoveCallbackUserdata r) (irqChecker r) (irq_handler r) (moveCallback r).
Definition zero_irq : irq_obj := mkIrqObj None false 0 0 0 0 0 0.

(** [interrupts] is the processor's interrupt flag. *)
Record qst := mkQst {
  qk : kst;
  s_irqVectors : gmap Z irq_vector;
  s_irqInterfaceInitialized : bool;
  irq_nodes : gmap Z Z;
  irq_links : lheap;
  irqs : gmap Z irq_obj;
  Arch_IRQHandlers : gmap Z Z;
  interrupts : bool
}.
#[export] Instance eta_qst : Etable qst :=
  λ r, mkQst (qk r) (s_irqVectors r) (s_irqInterfaceInitialized r) (irq_nodes r) (irq_links r) (irqs r)
    (Arch_IRQHandlers r) (interrupts r).

(** The callbacks of IRQ objects (function, object, arguments, user data), the
    local APIC, addresses fixed by the linker, and what memory that was just
    allocated holds where a node will have its links. *)
Class IrqEnv := {
  check_call : Z → Z → Z → K qst bool;
  handler_call : Z → Z → Z → Z → Z → K qst ();
  move_call : Z → Z → Z → Z → Z → K qst ();
  Arch_LAPICSendEOI : K qst ();
  Core_IRQDispatcher_addr : Z;
  Mm_KernelContext : Z;
  fresh_links : Z → dlink
}.

Definition qkern {A} (m : K kst A) : K qst A := zoom qk (λ k s, s <| qk := k |>) m.
Definition get_vec (v : Z) : K qst irq_vector := load s_irqVectors v.
Definition set_vec (v : Z) (f : irq_vector → irq_vector) : K qst () :=
  store s_irqVectors (λ m s, s <| s_irqVectors := m |>) v f.
Definition get_irq (o : Z) : K qst irq_obj := load irqs o.
Definition set_irq (o : Z) (f : irq_obj → irq_obj) : K qst () := store irqs (λ m s, s <| irqs := m |>) o f.
Definition node_data (n : Z) : K qst Z := load irq_nodes n.
Definition next_node (n : Z) : K qst Z := l ← load irq_links n; mret (dl_next l).

(** A list operation on the objects of a vector, and the count. *)
Definition vec_op (v : Z) (op : lheap → dlist → option (lheap * dlist)) (count : Z → Z) : K qst () :=
  x ← get_vec v;
  h ← gets irq_links;
  p ← deref_opt (op h (irqObjects x));
  modify (λ s, s <| irq_links := p.1 |>);;
  set_vec v (λ x, x <| irqObjects := p.2 <| dl_nNodes ::= count |> |>).

(** ** The interrupt table of the processor ([arch/x86_64/idt.c]) *)

Definition CoreS_IsIRQVectorInUse (vector : Z) : K qst obos_status :=
  if 224 <? vector then mret OBOS_STATUS_INVALID_ARGUMENT else
  h ← load Arch_IRQHandlers (vector + 32);
  mret (if truthy h then OBOS_STATUS_IN_USE else OBOS_STATUS_SUCCESS).

Definition CoreS_RegisterIRQHandler (vector handler : Z) : K qst obos_status :=
  s ← CoreS_IsIRQVectorInUse vector;
  if obos_is_error s && truthy handler then mret s else
  if negb ((Z.shiftr handler 47 =? 0) || (Z.shiftr handler 47 =? 0x1ffff)) then mret OBOS_STATUS_INVALID_ARGUMENT else
  if (handler <? OBOS_KERNEL_ADDRESS_SPACE_BASE) && truthy handler then mret OBOS_STATUS_INVALID_ARGUMENT else
  store Arch_IRQHandlers (λ m s, s <| Arch_IRQHandlers := m |>) (vector + 32) (λ _, handler);;
  mret OBOS_STATUS_SUCCESS.

(** [sti] and [cli]. *)
Definition CoreS_EnterIRQHandler : K qst bool := modify (λ s, s <| interrupts := true |>);; mret true.
Definition CoreS_ExitIRQHandler : K qst () := modify (λ s, s <| interrupts := false |>).

Section ops.
Context {DH : DpcHandlers} {IE : IrqEnv}.

Definition CoreS_SendEOI : K qst () := Arch_LAPICSendEOI.

(** [ZeroAllocate] of an [irq] from the non-paged pool or the kernel allocator. *)
Definition Core_IrqObjectAllocate (status : option obos_status) : K qst (Z * option obos_status) :=
  np ← gets (λ s, nonpaged_alloc (sch (qk s)));
  ka ← gets (λ s, kernel_alloc (sch (qk s)));
  if negb np && negb ka then stop BadDeref else
  p ← qkern next_addr;
  when (truthy p) (modify (λ s, s <| irqs ::= <[p := zero_irq]> |>));;
  mret (p, (λ _, if truthy p then OBOS_STATUS_SUCCESS else OBOS_STATUS_NOT_ENOUGH_MEMORY) <$> status).

(** ** The dispatcher *)

(** The search among the objects of a shared vector, from [node] on. *)
Fixpoint check_loop (fuel : nat) (node : Z) : K qst Z :=
  if negb (truthy node) then mret nullptr else
  cur ← node_data node;
  o ← get_irq cur;
  OBOS_ASSERT (truthy (irqChecker o));;
  mine ← (if truthy (irqChecker o) then check_call (irqChecker o) cur (irqCheckerUserdata o) else mret false);
  if (mine : bool) then next_node node;; mret cur else
  match fuel with
  | O => stop Hang
  | S fuel => node ← next_node node; check_loop fuel node
  end.

Definition find_irq (vector : Z) : K qst Z :=
  v ← get_vec vector;
  if negb (allowWorkSharing v) then node_data (dl_head (irqObjects v))
  else h ← gets irq_links; check_loop (size h) (dl_head (irqObjects v)).

Definition set_context (c : nat) (ctx : Z) : K qst () := qkern (set_cpu c (λ x, x <| currentContext := ctx |>)).

Definition Core_IRQDispatcher (vector : Z) : K qst () :=
  let irql_ := OBOS_IRQ_VECTOR_ID_TO_IRQL vector in
  oldIrql2 ← qkern (Core_RaiseIrqlNoThread irql_);
  enter ← CoreS_EnterIRQHandler;
  if negb (enter : bool) then mret () else
  CoreS_SendEOI;;
  c ← qkern CoreS_GetCPULocalPtr;
  x ← qkern (get_cpu c);
  let oldCtx := currentContext x in
  set_context c Mm_KernelContext;;
  irq_obj ← find_irq vector;
  c ← qkern CoreS_GetCPULocalPtr;
  if negb (truthy irq_obj) then
    set_context c oldCtx;;
    qkern (Core_LowerIrqlNoDPCDispatch oldIrql2);;
    CoreS_ExitIRQHandler
  else
  o ← get_irq irq_obj;
  when (truthy (irq_handler o)) (handler_call (irq_handler o) irq_obj vector (handlerUserdata o) oldIrql2);;
  c ← qkern CoreS_GetCPULocalPtr;
  set_context c oldCtx;;
  CoreS_ExitIRQHandler;;
  qkern (Core_LowerIrqlNoThread oldIrql2).

(** ** Registering *)

(** The loop over the [n] vectors from [i] on. *)
Fixpoint init_vectors (n : nat) (i : Z) : K qst () :=
  match n with
  | O => mret ()
  | Datatypes.S n =>
      set_vec i (λ v, v <| allowWorkSharing := true |> <| irqObjectsCapacity := 16 |> <| v_id := i |>
        <| irqObjects := empty_list |>);;
      init_vectors n (i + 1)
  end.
Definition Core_InitializeIRQInterface : K qst obos_status :=
  b ← gets s_irqInterfaceInitialized;
  if (b : bool) then mret OBOS_STATUS_ALREADY_INITIALIZED else
  init_vectors (Z.to_nat OBOS_IRQ_VECTOR_ID_MAX) 0;;
  modify (λ s, s <| s_irqInterfaceInitialized := true |>);;
  mret OBOS_STATUS_SUCCESS.

(** The new node is [Allocate]d, not cleared: its [next] is what was there. *)
Definition append_irq_to_vector (this what : Z) : K qst () :=
  OBOS_ASSERT (truthy what);;
  ka ← gets (λ s, kernel_alloc (sch (qk s)));
  if negb ka then stop BadDeref else
  node ← qkern next_addr;
  OBOS_ASSERT (truthy node);;
  modify (λ s, s <| irq_nodes ::= <[node := what]> |> <| irq_links ::= <[node := fresh_links node]> |>);;
  vec_op this (λ h l, link_tail h l node) (λ n, wrap64 (n + 1)).

Definition remove_irq_from_vector (this what : Z) : K qst () :=
  OBOS_ASSERT (truthy what);;
  vec_op this (λ h l, unlink h l what) (λ n, wrap64 (n - 1)).

Definition register_irq_vector_handler (v handler : Z) : K qst obos_status :=
  u ← CoreS_IsIRQVectorInUse v;
  s ← (if bool_decide (u = OBOS_STATUS_IN_USE) then CoreS_RegisterIRQHandler v nullptr else mret OBOS_STATUS_SUCCESS);
  if bool_decide (s = OBOS_STATUS_SUCCESS) then CoreS_RegisterIRQHandler v handler else mret s.

(** Reading a vector in the searches, with their assertions. *)
Definition candidate (vec : Z) : K qst irq_vector :=
  v ← get_vec vec;
  OBOS_ASSERT (v_id v =? vec);;
  OBOS_ASSERT (truthy (irqObjectsCapacity v));;
  mret v.

(** The first of the [n] vectors from [vec] on that has no objects. *)
Fixpoint find_empty (n : nat) (vec : Z) : K qst Z :=
  match n with
  | O => mret OBOS_IRQ_VECTOR_ID_MAX
  | Datatypes.S n =>
      v ← candidate vec;
      if negb (truthy (dl_nNodes (irqObjects v))) then mret vec else find_empty n (vec + 1)
  end.

(** The first that can take an object, leaving out [skip]. *)
Definition usable (v : irq_vector) (aws ignoreCapacity : bool) : bool :=
  ((dl_nNodes (irqObjects v) <? irqObjectsCapacity v) || ignoreCapacity) &&
  (negb (truthy (nIRQsWithChosenID v)) || (allowWorkSharing v && aws)).
Fixpoint find_usable (n : nat) (vec : Z) (skip : option Z) (aws ignoreCapacity : bool) : K qst Z :=
  match n with
  | O => mret OBOS_IRQ_VECTOR_ID_MAX
  | Datatypes.S n =>
      v ← candidate vec;
      if bool_decide (skip = Some vec) then find_usable n (vec + 1) skip aws ignoreCapacity else
      if usable v aws ignoreCapacity then
        when ignoreCapacity (set_vec vec (λ v, v <| irqObjectsCapacity ::= λ c, wrap64 (c + c / 4) |>));;
        mret vec
      else find_usable n (vec + 1) skip aws ignoreCapacity
  end.

(** From the label [find] on.  [ignoreCapacity] is [shouldIgnoreObjectCapacity],
    which nothing sets. *)
Fixpoint find_again (fuel : nat) (base : Z) (skip : option Z) (aws ignoreCapacity : bool) : K qst Z :=
  found ← find_usable OBOS_IRQ_VECTOR_ID_COUNT_PER_IRQL base skip aws ignoreCapacity;
  if found =? OBOS_IRQ_VECTOR_ID_MAX then
    if negb ignoreCapacity then
      match fuel with O => stop Hang | Datatypes.S fuel => find_again fuel base skip aws ignoreCapacity end
    else mret found
  else mret found.

(** [cur->moveCallback(...)], or a warning that reads [cur->vector->id]. *)
Definition notify_move (cur from to : Z) : K qst () :=
  o ← get_irq cur;
  if truthy (moveCallback o) then move_call (moveCallback o) cur from to (irqMoveCallbackUserdata o)
  else v ← deref_opt (vector o); get_vec v;; mret ().

(** The objects from [node] on go from one vector to another. *)
Fixpoint move_loop (fuel : nat) (from to node : Z) : K qst () :=
  if negb (truthy node) then mret () else
  match fuel with
  | O => stop Hang
  | Datatypes.S fuel =>
      cur ← node_data node;
      OBOS_ASSERT (truthy cur);;
      notify_move cur from to;;
      nnode ← next_node node;
      remove_irq_from_vector from node;;
      append_irq_to_vector to cur;;
      set_irq cur (λ o, o <| vector := Some to |>);;
      move_loop fuel from to nnode
  end.

(** The handlers of both vectors, after a move. *)
Definition register_both (a b : Z) : K qst obos_status :=
  x ← get_vec a;
  status ← register_irq_vector_handler (v_id x) Core_IRQDispatcher_addr;
  if obos_is_error status then mret status else
  y ← get_vec b;
  register_irq_vector_handler (v_id y) Core_IRQDispatcher_addr.

(** An object that does not share its vector gives way to [obj], which shares. *)
Definition displace_one (obj v : Z) (aws : bool) : K qst obos_status :=
  x ← get_vec v;
  cur ← node_data (dl_head (irqObjects x));
  o ← get_irq cur;
  if choseVector o then mret OBOS_STATUS_IN_USE else
  let base := OBOS_IRQL_TO_IRQ_VECTOR_ID (OBOS_IRQ_VECTOR_ID_TO_IRQL (v_id x)) in
  found ← find_empty OBOS_IRQ_VECTOR_ID_COUNT_PER_IRQL base;
  if found =? OBOS_IRQ_VECTOR_ID_MAX then mret OBOS_STATUS_IN_USE else
  notify_move cur v found;;
  x ← get_vec v;
  remove_irq_from_vector v (dl_head (irqObjects x));;
  append_irq_to_vector found cur;;
  append_irq_to_vector v obj;;
  set_irq cur (λ o, o <| vector := Some found |>);;
  x ← get_vec v;
  set_vec found (λ y, y <| allowWorkSharing := allowWorkSharing x |>);;
  set_vec v (λ x, x <| allowWorkSharing := aws |>);;
  register_both v found.

(** The objects of a vector give way to [obj], which does not share. *)
Definition displace_all (fuel : nat) (obj v : Z) (aws : bool) : K qst obos_status :=
  x ← get_vec v;
  if truthy (nIRQsWithChosenID x) then mret OBOS_STATUS_IN_USE else
  let base := OBOS_IRQL_TO_IRQ_VECTOR_ID (OBOS_IRQ_VECTOR_ID_TO_IRQL (v_id x)) in
  found ← find_again fuel base (Some v) aws false;
  if found =? OBOS_IRQ_VECTOR_ID_MAX then mret OBOS_STATUS_NOT_FOUND else
  x ← get_vec v;
  h ← gets irq_links;
  move_loop (size h) v found (dl_head (irqObjects x));;
  x ← get_vec v;
  set_vec found (λ y, y <| allowWorkSharing := allowWorkSharing x |>);;
  set_vec v (λ x, x <| allowWorkSharing := false |>);;
  append_irq_to_vector v obj;;
  register_both v found.

(** [fuel] bounds the repetitions of a search that finds nothing. *)
Definition register_irq_vector (fuel : nat) (obj v : Z) (aws force : bool) : K qst obos_status :=
  x ← get_vec v;
  set_irq obj (λ o, o <| vector := Some v |>);;
  if (aws && allowWorkSharing x) || negb (truthy (dl_nNodes (irqObjects x))) then
    append_irq_to_vector v obj;;
    set_vec v (λ x, x <| allowWorkSharing := aws |>);;
    register_irq_vector_handler (v_id x) Core_IRQDispatcher_addr
  else if negb force then mret OBOS_STATUS_IN_USE
  else if aws && negb (allowWorkSharing x) then displace_one obj v aws
  else displace_all fuel obj v aws.

Definition Core_IrqObjectInitializeIRQL (fuel : nat) (obj requiredIrql : Z) (aws force : bool) : K qst obos_status :=
  b ← gets s_irqInterfaceInitialized;
  if negb b then mret OBOS_STATUS_INVALID_INIT_PHASE else
  if negb (truthy obj) || (IRQL_MASKED <? requiredIrql) || (requiredIrql =? 0) || (requiredIrql =? 1)
  then mret OBOS_STATUS_INVALID_ARGUMENT else
  o ← get_irq obj;
  if bool_decide (vector o ≠ None) then mret OBOS_STATUS_ALREADY_INITIALIZED else
  oldIrql ← qkern (Core_SpinlockAcquire IrqLock);
  found ← find_again fuel (OBOS_IRQL_TO_IRQ_VECTOR_ID requiredIrql) None aws false;
  if found =? OBOS_IRQ_VECTOR_ID_MAX then
    qkern (Core_SpinlockRelease IrqLock oldIrql);; mret OBOS_STATUS_NOT_FOUND
  else
  set_irq obj (λ o, o <| choseVector := false |>);;
  res ← register_irq_vector fuel obj found aws force;
  qkern (Core_SpinlockRelease IrqLock oldIrql);;
  mret res.

Definition Core_IrqObjectInitializeVector (fuel : nat) (obj v : Z) (aws force : bool) : K qst obos_status :=
  b ← gets s_irqInterfaceInitialized;
  if negb b then mret OBOS_STATUS_INVALID_INIT_PHASE else
  if negb (truthy obj) || (OBOS_IRQ_VECTOR_ID_MAX <=? v) then mret OBOS_STATUS_INVALID_ARGUMENT else
  o ← get_irq obj;
  if bool_decide (vector o ≠ None) then mret OBOS_STATUS_ALREADY_INITIALIZED else
  set_irq obj (λ o, o <| choseVector := true |>);;
  oldIrql ← qkern (Core_SpinlockAcquire IrqLock);
  res ← register_irq_vector fuel obj v aws force;
  o ← get_irq obj;
  w ← deref_opt (vector o);
  set_vec w (λ x, x <| nIRQsWithChosenID ::= λ n, wrap64 (n + 1) |>);;
  qkern (Core_SpinlockRelease IrqLock oldIrql);;
  mret res.

(** The node of [obj] from [cur] on. *)
Fixpoint node_of (fuel : nat) (cur obj : Z) : K qst Z :=
  if negb (truthy cur) then mret nullptr else
  d ← node_data cur;
  if d =? obj then next_node cur;; mret cur else
  match fuel with
  | O => stop Hang
  | Datatypes.S fuel => cur ← next_node cur; node_of fuel cur obj
  end.

Definition Core_IrqObjectFree (obj : Z) : K qst obos_status :=
  b ← gets s_irqInterfaceInitialized;
  if negb b then mret OBOS_STATUS_INVALID_INIT_PHASE else
  if negb (truthy obj) then mret OBOS_STATUS_INVALID_ARGUMENT else
  o ← get_irq obj;
  match vector o with
  | None => mret ()
  | Some v =>
      oldIrql ← qkern (Core_SpinlockAcquire IrqLock);
      x ← get_vec v;
      h ← gets irq_links;
      node ← (if negb (allowWorkSharing x) then mret (dl_head (irqObjects x))
              else node_of (size h) (dl_head (irqObjects x)) obj);
      OBOS_ASSERT (truthy node);;
      d ← node_data node;
      OBOS_ASSERT (d =? obj);;
      remove_irq_from_vector v node;;
      x ← get_vec v;
      when (negb (truthy (dl_nNodes (irqObjects x))))
        (set_vec v (λ x, x <| allowWorkSharing := true |> <| irqObjectsCapacity := 16 |>));;
      set_vec v (λ x, x <| nIRQsWithChosenID ::= λ n, wrap64 (n - (if choseVector o then 1 else 0)) |>);;
      qkern (Core_SpinlockRelease IrqLock oldIrql);;
      mret ()
  end;;
  ka ← gets (λ s, kernel_alloc (sch (qk s)));
  if negb ka then stop BadDeref else
  modify (λ s, s <| irqs ::= delete obj |>);;
  mret OBOS_STATUS_SUCCESS.

Definition Core_IrqInterfaceInitialized : K qst bool := gets s_irqInterfaceInitialized.

End ops.
