(* ===== verification/IrqProofs.v ===== *)
(** * IRQ objects: correctness

    The lists of the vectors hold the objects that were put on them, each on the
    vector it points to; the dispatcher calls the handler of the object an
    interrupt belongs to, gives the processor its level and address space back, and
    runs the deferred calls queued meanwhile when the level allows it. *)

From S2P Require Import Prelude DList KState Irql ThreadList Schedule Thread Dpc IrqObj.

(** Function update. *)
Definition fupd {V} (f : Z → V) (k : Z) (v : V) : Z → V := λ q, if decide (q = k) then v else f q.
Lemma fupd_eq {V} (f : Z → V) k v : fupd f k v k = v.
Proof. unfold fupd. by rewrite decide_True. Qed.
Lemma fupd_ne {V} (f : Z → V) k v q : q ≠ k → fupd f k v q = f q.
Proof. intros. unfold fupd. by rewrite decide_False. Qed.

Definition is_vec (v : Z) : Prop := 0 <= v < OBOS_IRQ_VECTOR_ID_MAX.

(** ** The lists

    [N v] are the nodes of the vector [v]. *)
Record table (s : qst) (N : Z → list Z) : Prop := {
  tb_vec v : is_vec v → ∃ x, s_irqVectors s !! v = Some x ∧ v_id x = v ∧ dl_rep (irq_links s) (irqObjects x) (N v);
  tb_data v n : is_vec v → n ∈ N v → is_Some (irq_nodes s !! n);
  tb_disj v w n : is_vec v → is_vec w → n ∈ N v → n ∈ N w → v = w;
  tb_free : NoDup (free_addrs (sch (qk s)));
  tb_fresh a : a ∈ free_addrs (sch (qk s)) → a ≠ 0 ∧ ∀ v, is_vec v → a ∉ N v;
  tb_len v : is_vec v → Z.of_nat (length (N v)) + Z.of_nat (length (free_addrs (sch (qk s)))) < 2 ^ 64
}.

(** The objects on a vector. *)
Definition objects (s : qst) (N : Z → list Z) (v : Z) : list Z := (λ n, default 0 (irq_nodes s !! n)) <$> N v.

(** The attributes of a vector besides its list. *)
Definition attrs (s : qst) (v : Z) : option (Z * bool * Z) :=
  (λ x, (irqObjectsCapacity x, allowWorkSharing x, nIRQsWithChosenID x)) <$> s_irqVectors s !! v.

(** Everything but the lists. *)
Record same_but_lists (s s' : qst) : Prop := {
  sb_rest : s' = s <| qk := qk s' |> <| s_irqVectors := s_irqVectors s' |> <| irq_nodes := irq_nodes s' |>
                   <| irq_links := irq_links s' |>;
  sb_qk : qk s' = (qk s) <| sch ::= λ c, c <| free_addrs := free_addrs (sch (qk s')) |> |>;
  sb_attrs v : attrs s' v = attrs s v
}.

Lemma same_but_lists_trans s1 s2 s3 : same_but_lists s1 s2 → same_but_lists s2 s3 → same_but_lists s1 s3.
Proof.
  intros [R1 Q1 A1] [R2 Q2 A2]. split; [rewrite R2, R1; by destruct s1|rewrite Q2, Q1; by destruct (qk s1)|].
  intros v. by rewrite A2.
Qed.

Section lists.
Context {DH : DpcHandlers} {IE : IrqEnv}.

Lemma vec_op_eq s v x op count h l :
  s_irqVectors s !! v = Some x → op (irq_links s) (irqObjects x) = Some (h, l) →
  vec_op v op count s =
    Ret () (s <| irq_links := h |> <| s_irqVectors ::= <[v := x <| irqObjects := l <| dl_nNodes ::= count |> |>]> |>).
Proof.
  intros Hx Hop. unfold vec_op, get_vec. erewrite bind_Ret by (by apply load_eq).
  rewrite (bind_Ret _ _ _ _ _ (gets_eq _ _)). erewrite bind_Ret by (by apply deref_opt_eq).
  erewrite bind_Ret by apply modify_eq. unfold set_vec. by erewrite store_eq by exact Hx.
Qed.

Lemma qkern_Ret {B} (m : K kst B) s a k : m (qk s) = Ret a k → qkern m s = Ret a (s <| qk := k |>).
Proof. intros E. unfold qkern, zoom. by rewrite E. Qed.

Lemma attrs_insert s v x l h :
  s_irqVectors s !! v = Some x →
  ∀ w, attrs (s <| irq_links := h |> <| s_irqVectors ::= <[v := x <| irqObjects := l |>]> |>) w = attrs s w.
Proof.
  intros Hx w. unfold attrs. simpl. destruct (decide (w = v)) as [->|Hne].
  - by rewrite lookup_insert_eq, Hx.
  - by rewrite lookup_insert_ne.
Qed.

(** A table whose vector [v] got another list. *)
Lemma table_update s s' N v x l ns :
  table s N → is_vec v → s_irqVectors s !! v = Some x → v_id x = v →
  s_irqVectors s' = <[v := x <| irqObjects := l |>]> (s_irqVectors s) →
  dl_rep (irq_links s') l ns → (∀ w, is_vec w → w ≠ v → ∀ n, n ∈ N w → irq_links s' !! n = irq_links s !! n) →
  (∀ n, is_Some (irq_nodes s !! n) → is_Some (irq_nodes s' !! n)) →
  (∀ n, n ∈ ns → n ∈ N v ∨ (is_Some (irq_nodes s' !! n) ∧ ∀ w, is_vec w → n ∉ N w)) →
  NoDup (free_addrs (sch (qk s'))) → (∀ a, a ∈ free_addrs (sch (qk s')) → a ∈ free_addrs (sch (qk s)) ∧ a ∉ ns) →
  Z.of_nat (length ns) + Z.of_nat (length (free_addrs (sch (qk s')))) < 2 ^ 64 →
  (length (free_addrs (sch (qk s'))) <= length (free_addrs (sch (qk s))))%nat →
  table s' (fupd N v ns).
Proof.
  intros [Hv Hd Hdj Hf Hfr Hlen] Hiv Hx Hid Ev Hrep Hlinks Hnodes Hns Hnd Hfa Hl1 Hl2.
  split.
  - intros w Hw. rewrite Ev. destruct (decide (w = v)) as [->|Hne].
    + rewrite lookup_insert_eq, fupd_eq. by eexists.
    + rewrite lookup_insert_ne, fupd_ne by done. destruct (Hv w Hw) as (y & Hy & Hyi & Hyr). exists y.
      split; [done|]. split; [done|]. eapply dl_rep_frame; [|exact Hyr]. by apply Hlinks.
  - intros w n Hw Hn. destruct (decide (w = v)) as [->|Hne].
    + rewrite fupd_eq in Hn. destruct (Hns n Hn) as [Hn'|[? _]]; [|done]. eapply Hnodes, Hd; [exact Hiv|done].
    + rewrite fupd_ne in Hn by done. eapply Hnodes, Hd; [exact Hw|done].
  - intros a b n Ha Hb. destruct (decide (a = v)) as [->|Hna], (decide (b = v)) as [->|Hnb]; [done|..];
      rewrite ?fupd_eq, ?fupd_ne by done; intros Hin Hin'.
    + destruct (Hns n Hin) as [?|[_ Hno]]; [by eapply Hdj|]. by destruct (Hno b Hb).
    + destruct (Hns n Hin') as [?|[_ Hno]]; [by eapply Hdj|]. by destruct (Hno a Ha).
    + by eapply Hdj.
  - done.
  - intros a Ha. destruct (Hfa a Ha) as [Ha' Hno]. destruct (Hfr a Ha') as [? Hout]. split; [done|].
    intros w Hw. destruct (decide (w = v)) as [->|Hne]; [by rewrite fupd_eq|]. rewrite fupd_ne by done. auto.
  - intros w Hw. destruct (decide (w = v)) as [->|Hne]; [by rewrite fupd_eq|]. rewrite fupd_ne by done.
    specialize (Hlen w Hw). lia.
Qed.

(** What the memory of a new node holds reads as a null [next]. *)
Definition fresh_cleared (n : Z) : Prop := dl_next (fresh_links n) = 0.

Lemma append_ok s N v o node rest :
  fresh_cleared node → table s N → is_vec v → o ≠ 0 → kernel_alloc (sch (qk s)) = true →
  free_addrs (sch (qk s)) = node :: rest →
  ∃ s', append_irq_to_vector v o s = Ret () s' ∧ table s' (fupd N v (N v ++ [node])) ∧ same_but_lists s s' ∧
    free_addrs (sch (qk s')) = rest ∧ irq_nodes s' = <[node := o]> (irq_nodes s).
Proof.
  intros Hc Ht Hv Ho Hk Hfa. destruct (tb_vec _ _ Ht v Hv) as (x & Hx & Hid & Hrep).
  pose proof (tb_free _ _ Ht) as Hnd. rewrite Hfa in Hnd. apply NoDup_cons in Hnd as [Hnr Hndr].
  destruct (tb_fresh _ _ Ht node) as [Hn0 Hnout]; [rewrite Hfa; set_solver|].
  set (h1 := <[node := fresh_links node]> (irq_links s)).
  assert (∀ n, n ≠ node → h1 !! n = irq_links s !! n) as Hh1 by (intros; by apply lookup_insert_ne).
  assert (dl_rep h1 (irqObjects x) (N v)) as Hrep1.
  { eapply dl_rep_frame; [|exact Hrep]. intros y Hy. apply Hh1. intros ->. by apply (Hnout v). }
  pose proof (tb_len _ _ Ht v Hv) as Hlen. rewrite Hfa in Hlen. simpl in Hlen.
  destruct (link_tail_spec _ _ _ node (fresh_links node) Hrep1) as (h2 & Hlt & Hseg & Hf & _);
    [by apply Hnout|done|apply lookup_insert_eq|apply Hc|].
  set (l := (irqObjects x) <| dl_head := default node (head (N v)) |> <| dl_tail := node |> <| dl_nNodes ::= λ n, wrap64 (n + 1) |>).
  set (s1 := s <| qk ::= λ k, k <| sch ::= λ c, c <| free_addrs := rest |> |> |>
               <| irq_nodes ::= <[node := o]> |> <| irq_links := h1 |>).
  assert (s_irqVectors s1 !! v = Some x) as Hx1 by done.
  exists (s1 <| irq_links := h2 |> <| s_irqVectors ::= <[v := x <| irqObjects := l |>]> |>).
  assert (dl_rep h2 l (N v ++ [node])) as Hrep2.
  { unfold l. simpl. rewrite (rep_count _ _ _ Hrep), wrap_small by (unfold in_u; lia).
    by apply (rep_of_link_tail h2 (irqObjects x) (N v) node _ h1); try done; apply Hnout. }
  split; [|split; [|split; [|done]]].
  - unfold append_irq_to_vector. rewrite (proj2 (truthy_true o)) by done. erewrite bind_Ret by (by apply assert_eq).
    rewrite (bind_Ret _ _ _ _ _ (gets_eq _ _)), Hk. cbn [negb].
    erewrite bind_Ret by (apply qkern_Ret; unfold next_addr; rewrite Hfa; reflexivity).
    rewrite (proj2 (truthy_true node)) by done. erewrite bind_Ret by (by apply assert_eq).
    erewrite bind_Ret by apply modify_eq. by erewrite vec_op_eq by (done || exact Hlt).
  - eapply (table_update s _ N v x l); try done; simpl.
    + intros w Hw Hne n Hn. rewrite Hf; [apply Hh1; intros ->; by apply (Hnout w)|].
      intros [->|Hn']%elem_of_cons; [by apply (Hnout w)|]. by apply Hne, (tb_disj _ _ Ht w v n).
    + intros n Hn. destruct (decide (n = node)) as [->|]; [by rewrite lookup_insert_eq; eexists|by rewrite lookup_insert_ne].
    + intros n [?| ->%list_elem_of_singleton]%elem_of_app; [by left|right]. rewrite lookup_insert_eq. split; [by eexists|done].
    + intros a Ha. rewrite Hfa. split; [set_solver|]. assert (a ≠ node) by (intros ->; done).
      destruct (tb_fresh _ _ Ht a) as [_ Hno]; [rewrite Hfa; set_solver|]. specialize (Hno v Hv). set_solver.
    + rewrite length_app. simpl. lia.
    + rewrite Hfa. simpl. lia.
  - split; [by destruct s|by destruct s as [[? ? ?] ? ? ? ? ? ? ?]|]. intros w. by rewrite (attrs_insert s1 v x l h2).
Qed.

Lemma remove_ok s N v l1 n l2 :
  table s N → is_vec v → N v = l1 ++ n :: l2 →
  ∃ s', remove_irq_from_vector v n s = Ret () s' ∧ table s' (fupd N v (l1 ++ l2)) ∧ same_but_lists s s' ∧
    qk s' = qk s ∧ irq_nodes s' = irq_nodes s.
Proof.
  intros Ht Hv HN. destruct (tb_vec _ _ Ht v Hv) as (x & Hx & Hid & Hrep). rewrite HN in Hrep.
  pose proof (tb_len _ _ Ht v Hv) as Hlen. rewrite HN in Hlen.
  destruct (unlink_spec _ _ _ _ _ Hrep) as (h & l & Hun & Hrep' & Hcnt & _ & Hf & _).
  assert (n ≠ 0) as Hn0 by (intros ->; apply (rep_nonnull _ _ _ Hrep); set_solver).
  assert (l <| dl_nNodes ::= λ n, wrap64 (n - 1) |> = l <| dl_nNodes := dl_nNodes (irqObjects x) - 1 |>) as El.
  { destruct l as [? ? c]. simpl in *. subst c. f_equal. apply wrap_small. unfold in_u.
    rewrite (rep_count _ _ _ Hrep), length_app in *. simpl in *. lia. }
  eexists. split; [|split; [|split]].
  - unfold remove_irq_from_vector. rewrite (proj2 (truthy_true n)) by done. erewrite bind_Ret by (by apply assert_eq).
    by erewrite vec_op_eq by (done || exact Hun).
  - pose proof (rep_nodup _ _ _ Hrep) as Hnd.
    eapply (table_update s _ N v x (l <| dl_nNodes ::= λ n, wrap64 (n - 1) |>)); try done; simpl.
    + simpl in El. by rewrite El.
    + intros w Hw Hne m Hm. apply Hf. intros Hin. apply Hne, (tb_disj _ _ Ht w v m); try done. rewrite HN. set_solver.
    + intros m Hm. left. rewrite HN. set_solver.
    + apply Ht.
    + intros a Ha. destruct (tb_fresh _ _ Ht a Ha) as [_ Hno]. specialize (Hno v Hv). rewrite HN in Hno. set_solver.
    + rewrite !length_app in *. simpl in *. lia.
  - split; [by destruct s|by destruct s as [[? [] ?] ? ? ? ? ? ? ?]|]. by apply attrs_insert.
  - done.
Qed.

End lists.

(** ** The interrupt table *)

Section handlers.
Context {DH : DpcHandlers} {IE : IrqEnv}.

(** The dispatcher is in the kernel's half of the address space. *)
Definition dispatcher_placed : Prop := OBOS_KERNEL_ADDRESS_SPACE_BASE <= Core_IRQDispatcher_addr < 2 ^ 64.

Lemma kernel_canonical a : OBOS_KERNEL_ADDRESS_SPACE_BASE <= a < 2 ^ 64 → Z.shiftr a 47 = 0x1ffff.
Proof. unfold OBOS_KERNEL_ADDRESS_SPACE_BASE. intros H. rewrite Z.shiftr_div_pow2 by lia. Z.div_mod_to_equations. lia. Qed.

Lemma in_use_eq s v h :
  is_vec v → Arch_IRQHandlers s !! (v + 32) = Some h →
  CoreS_IsIRQVectorInUse v s = Ret (if truthy h then OBOS_STATUS_IN_USE else OBOS_STATUS_SUCCESS) s.
Proof.
  intros Hv Hh. unfold CoreS_IsIRQVectorInUse, is_vec, OBOS_IRQ_VECTOR_ID_MAX in *.
  rewrite (proj2 (Z.ltb_ge _ _)) by lia. by erewrite bind_Ret by (by apply load_eq).
Qed.

(** Whatever was in the table, the dispatcher is there afterwards. *)
Lemma register_handler_ok s v :
  dispatcher_placed → is_vec v → is_Some (Arch_IRQHandlers s !! (v + 32)) →
  register_irq_vector_handler v Core_IRQDispatcher_addr s =
    Ret OBOS_STATUS_SUCCESS (s <| Arch_IRQHandlers ::= <[v + 32 := Core_IRQDispatcher_addr]> |>).
Proof.
  intros Hd Hv [h Hh]. pose proof (kernel_canonical _ Hd) as Hcan. unfold dispatcher_placed, OBOS_KERNEL_ADDRESS_SPACE_BASE in Hd.
  assert (∀ s, Arch_IRQHandlers s !! (v + 32) = Some 0 → CoreS_RegisterIRQHandler v Core_IRQDispatcher_addr s =
    Ret OBOS_STATUS_SUCCESS (s <| Arch_IRQHandlers ::= <[v + 32 := Core_IRQDispatcher_addr]> |>)) as Hset.
  { intros s' Hs'. unfold CoreS_RegisterIRQHandler. erewrite bind_Ret by (by apply in_use_eq). cbn [truthy Z.eqb negb obos_is_error].
    change (obos_is_error (if truthy 0 then _ else _)) with false. cbn [andb]. rewrite Hcan. change ((0x1ffff =? 0) || (0x1ffff =? 0x1ffff)) with true. cbn [negb].
    unfold OBOS_KERNEL_ADDRESS_SPACE_BASE. rewrite (proj2 (Z.ltb_ge _ _)) by lia.
    change (obos_is_error OBOS_STATUS_SUCCESS) with false. cbn [andb]. by erewrite bind_Ret by (by apply store_eq). }
  unfold register_irq_vector_handler. erewrite bind_Ret by (by apply in_use_eq). destruct (truthy h) eqn:Eh.
  - rewrite bool_decide_eq_true_2 by done.
    assert (CoreS_RegisterIRQHandler v 0 s = Ret OBOS_STATUS_SUCCESS (s <| Arch_IRQHandlers ::= <[v + 32 := 0]> |>)) as Eclr.
    { unfold CoreS_RegisterIRQHandler. erewrite bind_Ret by (by apply in_use_eq). rewrite Eh. cbn [truthy Z.eqb negb].
      change (truthy 0) with false. rewrite !andb_false_r. change ((Z.shiftr 0 47 =? 0) || (Z.shiftr 0 47 =? 0x1ffff)) with true. cbn [negb].
      by erewrite bind_Ret by (by apply store_eq). }
    erewrite bind_Ret by exact Eclr. rewrite bool_decide_eq_true_2 by done.
    rewrite Hset by (simpl; apply lookup_insert_eq). f_equal. simpl. by rewrite insert_insert_eq.
  - apply truthy_false in Eh as ->. rewrite bool_decide_eq_false_2 by done. rewrite bind_ret_l.
    rewrite bool_decide_eq_true_2 by done. by apply Hset.
Qed.

End handlers.

(** ** The invariant *)

Definition chosen (s : qst) (o : Z) : bool := match irqs s !! o with Some ob => choseVector ob | None => false end.

(** Every object is on the vector it points to, once; a vector that is not shared
    has at most one. *)
Record irq_inv (s : qst) (N : Z → list Z) : Prop := {
  ii_table : table s N;
  ii_init : s_irqInterfaceInitialized s = true;
  ii_idt v : is_vec v → is_Some (Arch_IRQHandlers s !! (v + 32));
  ii_obj v o : is_vec v → o ∈ objects s N v → o ≠ 0 ∧ ∃ ob, irqs s !! o = Some ob ∧ vector ob = Some v;
  ii_nodup v : is_vec v → NoDup (objects s N v);
  ii_share v c k : is_vec v → attrs s v = Some (c, false, k) → (length (N v) <= 1)%nat;
  ii_cap v c a k : is_vec v → attrs s v = Some (c, a, k) → 0 < c
}.

(** The number of objects that chose their vector is counted. *)
Definition counted (s : qst) (N : Z → list Z) : Prop :=
  ∀ v c a k, is_vec v → attrs s v = Some (c, a, k) → k = Z.of_nat (length (filter (chosen s) (objects s N v))).

Section objects.
Context {DH : DpcHandlers} {IE : IrqEnv}.

Lemma vec_attrs s N v : table s N → is_vec v → ∃ x, s_irqVectors s !! v = Some x ∧ v_id x = v ∧
  attrs s v = Some (irqObjectsCapacity x, allowWorkSharing x, nIRQsWithChosenID x) ∧
  dl_rep (irq_links s) (irqObjects x) (N v).
Proof.
  intros Ht Hv. destruct (tb_vec _ _ Ht v Hv) as (x & Hx & Hid & Hrep). exists x. unfold attrs. by rewrite Hx.
Qed.

(** Setting attributes of one vector. *)
Lemma table_set_vec s N v x f :
  table s N → s_irqVectors s !! v = Some x → (∀ x, v_id (f x) = v_id x ∧ irqObjects (f x) = irqObjects x) →
  table (s <| s_irqVectors ::= <[v := f x]> |>) N.
Proof.
  intros [Hv Hd Hdj Hf Hfr Hlen] Hx Hfx. split; try done. intros w Hw. destruct (Hv w Hw) as (y & Hy & Hyi & Hyr). simpl.
  destruct (decide (w = v)) as [->|Hne]; [|exists y; by rewrite lookup_insert_ne].
  rewrite Hx in Hy. injection Hy as <-. exists (f x). destruct (Hfx x) as [-> ->]. by rewrite lookup_insert_eq.
Qed.

Lemma table_irqs s N m : table s N → table (s <| irqs := m |>) N.
Proof. by intros []. Qed.
Lemma table_idt s N m : table s N → table (s <| Arch_IRQHandlers := m |>) N.
Proof. by intros []. Qed.

(** An object without a vector is on no list. *)
Lemma loose_object s N o ob v : irq_inv s N → irqs s !! o = Some ob → vector ob = None → is_vec v → o ∉ objects s N v.
Proof.
  intros H Ho Hn Hv Hin. destruct (ii_obj _ _ H v o Hv Hin) as (_ & ob' & Ho' & Hv'). rewrite Ho in Ho'. by simplify_eq.
Qed.

(** The objects after a node was added at the end of [v]. *)
Lemma objects_append s N v node o s' w :
  table s N → is_vec v → is_vec w → (∀ w, is_vec w → node ∉ N w) → irq_nodes s' = <[node := o]> (irq_nodes s) →
  objects s' (fupd N v (N v ++ [node])) w = fupd (objects s N) v (objects s N v ++ [o]) w.
Proof.
  intros Ht Hv Hw Hno En. unfold objects. rewrite En. assert (∀ w, is_vec w →
    (λ n, default 0 (<[node := o]> (irq_nodes s) !! n)) <$> N w = (λ n, default 0 (irq_nodes s !! n)) <$> N w) as Hsame.
  { intros u Hu. apply list_fmap_ext. intros i n Hn%list_elem_of_lookup_2. rewrite lookup_insert_ne; [done|].
    intros ->. by apply (Hno u). }
  destruct (decide (w = v)) as [->|Hne]; [|by rewrite !fupd_ne, Hsame].
  rewrite !fupd_eq, fmap_app, Hsame by done. simpl. by rewrite lookup_insert_eq.
Qed.

End objects.

(** ** Putting an object on a vector *)

(** [s'] is [s] with the object [o], now [ob], on the vector [v], which is shared
    as [aws] says; [node] is its node. *)
Record placed {IE : IrqEnv} (s : qst) (N : Z → list Z) (v o : Z) (ob : irq_obj) (aws : bool) (node : Z) (s' : qst) : Prop := {
  pl_inv : irq_inv s' (fupd N v (N v ++ [node]));
  pl_objects w : is_vec w →
    objects s' (fupd N v (N v ++ [node])) w = fupd (objects s N) v (objects s N v ++ [o]) w;
  pl_attrs w : attrs s' w = (λ p : Z * bool * Z, (p.1.1, if decide (w = v) then aws else p.1.2, p.2)) <$> attrs s w;
  pl_node : irq_nodes s' = <[node := o]> (irq_nodes s);
  pl_irqs : irqs s' = <[o := ob]> (irqs s);
  pl_idt : Arch_IRQHandlers s' = <[v + 32 := Core_IRQDispatcher_addr]> (Arch_IRQHandlers s);
  pl_qk : qk s' = (qk s) <| sch ::= λ c, c <| free_addrs ::= tail |> |>
}.

Section place.
Context {DH : DpcHandlers} {IE : IrqEnv}.

(** The vector can take the object as it is. *)
Definition takes (s : qst) (N : Z → list Z) (v : Z) (aws : bool) : Prop :=
  (aws = true ∧ ∃ c k, attrs s v = Some (c, true, k)) ∨ N v = [].

Lemma register_takes fuel s N v o ob aws force x :
  takes s N v aws → table s N → s_irqVectors s !! v = Some x → is_vec v → irqs s !! o = Some ob →
  register_irq_vector fuel o v aws force s =
    (append_irq_to_vector v o;; set_vec v (λ x, x <| allowWorkSharing := aws |>);;
     register_irq_vector_handler (v_id x) Core_IRQDispatcher_addr) (s <| irqs ::= <[o := ob <| vector := Some v |>]> |>).
Proof.
  intros Htk Ht Hx Hv Ho. destruct (vec_attrs _ _ _ Ht Hv) as (y & Hy & _ & Ha & Hrep). rewrite Hx in Hy. injection Hy as <-.
  unfold register_irq_vector, get_vec, set_irq. erewrite bind_Ret by (by apply load_eq). erewrite bind_Ret by (by apply store_eq).
  assert ((aws && allowWorkSharing x) || negb (truthy (dl_nNodes (irqObjects x))) = true) as ->; [|done].
  destruct Htk as [[-> (c & k & Ha')]|HN].
  - rewrite Ha in Ha'. injection Ha' as _ -> _. done.
  - rewrite (rep_count _ _ _ Hrep), HN. apply orb_true_r.
Qed.

Lemma register_place fuel s N v o ob aws force node rest :
  fresh_cleared node → dispatcher_placed → irq_inv s N → irqs s !! o = Some ob → vector ob = None → o ≠ 0 → is_vec v →
  kernel_alloc (sch (qk s)) = true → free_addrs (sch (qk s)) = node :: rest → takes s N v aws →
  ∃ s', register_irq_vector fuel o v aws force s = Ret OBOS_STATUS_SUCCESS s' ∧
    placed s N v o (ob <| vector := Some v |>) aws node s'.
Proof.
  intros Hc Hd H Ho Hno Ho0 Hv Hk Hfa Htk. pose proof (ii_table _ _ H) as Ht.
  destruct (vec_attrs _ _ _ Ht Hv) as (x & Hx & Hid & Ha & _).
  rewrite (register_takes fuel s N v o ob aws force x Htk Ht Hx Hv Ho).
  set (s1 := s <| irqs ::= <[o := ob <| vector := Some v |>]> |>).
  destruct (append_ok s1 N v o node rest Hc) as (s2 & E2 & Ht2 & Hsb & Hfa2 & Hn2); [by apply table_irqs|done..|].
  pose proof (sb_rest _ _ Hsb) as Hrest. pose proof (sb_attrs _ _ Hsb) as Hat.
  destruct (vec_attrs _ _ _ Ht2 Hv) as (x2 & Hx2 & Hid2 & Ha2 & _).
  erewrite bind_Ret by exact E2. unfold set_vec. erewrite bind_Ret by (by apply store_eq). rewrite Hid.
  assert (Arch_IRQHandlers s2 = Arch_IRQHandlers s ∧ irqs s2 = irqs s1 ∧
    s_irqInterfaceInitialized s2 = s_irqInterfaceInitialized s) as (EA & EI & EN) by (rewrite Hrest; done).
  rewrite register_handler_ok by (try done; simpl; rewrite EA; by apply H).
  eexists. split; [reflexivity|].
  assert (∀ w, is_vec w → node ∉ N w) as Hfresh.
  { intros w Hw. apply (tb_fresh _ _ Ht node); [rewrite Hfa; set_solver|done]. }
  set (s3 := s2 <| s_irqVectors ::= <[v := x2 <| allowWorkSharing := aws |>]> |>).
  assert (∀ w, is_vec w → objects s3 (fupd N v (N v ++ [node])) w = fupd (objects s N) v (objects s N v ++ [o]) w) as Hobj.
  { intros w Hw. apply (objects_append s1 N v node o s3); [by apply table_irqs|done|done|done|exact Hn2]. }
  assert (∀ w, attrs s3 w = (λ p : Z * bool * Z, (p.1.1, if decide (w = v) then aws else p.1.2, p.2)) <$> attrs s w) as Hattr.
  { intros w. change (attrs s w) with (attrs s1 w). rewrite <- Hat. unfold s3, attrs. simpl. destruct (decide (w = v)) as [->|Hne].
    - by rewrite lookup_insert_eq, Hx2.
    - rewrite lookup_insert_ne by done. by destruct (s_irqVectors s2 !! w). }
  assert (o ∉ objects s N v) as Hloose by (by eapply loose_object).
  split; simpl; [|exact Hobj|exact Hattr|exact Hn2|done|by rewrite EA|].
  2:{ change (qk s2 = (qk s) <| sch ::= λ c, c <| free_addrs ::= tail |> |>).
      rewrite (sb_qk _ _ Hsb), Hfa2. simpl. rewrite Hfa. done. }
  split; simpl.
  - apply (table_idt s3). apply table_set_vec; [done|done|by intros []].
  - rewrite EN. apply H.
  - intros w Hw. rewrite EA. destruct (decide (w = v)) as [->|]; [rewrite lookup_insert_eq; by eexists|].
    rewrite lookup_insert_ne by lia. by apply H.
  - intros w p Hw. change (objects _ _ w) with (objects s3 (fupd N v (N v ++ [node])) w). rewrite Hobj by done. rewrite EI. simpl.
    assert (p ∈ objects s N w → p ≠ 0 ∧ ∃ q, <[o := ob <| vector := Some v |>]> (irqs s) !! p = Some q ∧ vector q = Some w) as Hold.
    { intros Hp. destruct (ii_obj _ _ H w p Hw Hp) as (? & q & Hq & ?). split; [done|]. exists q. rewrite lookup_insert_ne; [done|].
      intros <-. rewrite Ho in Hq. congruence. }
    destruct (decide (w = v)) as [->|Hne]; [rewrite fupd_eq|by rewrite fupd_ne].
    intros [Hp| ->%list_elem_of_singleton]%elem_of_app; [auto|]. rewrite lookup_insert_eq. by eauto.
  - intros w Hw. change (objects _ _ w) with (objects s3 (fupd N v (N v ++ [node])) w). rewrite Hobj by done.
    destruct (decide (w = v)) as [->|Hne]; [rewrite fupd_eq|rewrite fupd_ne by done; by apply H].
    apply NoDup_snoc; [by apply H|done].
  - intros w cc k Hw Hat'. change (attrs s3 w = Some (cc, false, k)) in Hat'. rewrite Hattr in Hat'.
    destruct (attrs s w) as [[[c' a'] k']|] eqn:Eaw; [|done]. simpl in Hat'. injection Hat' as <- Eaws <-.
    destruct (decide (w = v)) as [->|Hne]; [rewrite fupd_eq|rewrite fupd_ne by done; subst; by eapply H].
    destruct Htk as [[-> _]| ->]; [done|]. simpl. lia.
  - intros w c' a' k' Hw Hat'. change (attrs s3 w = Some (c', a', k')) in Hat'. rewrite Hattr in Hat'.
    destruct (attrs s w) as [[[c0 a0] k0]|] eqn:Eaw; [|done]. simpl in Hat'. injection Hat' as <- _ _. by eapply H.
Qed.

End place.

(** ** The lock *)

Section lock.
Context {DH : DpcHandlers} {IE : IrqEnv}.

Definition q_ready (s : qst) (v : Z) : Prop := quiet (irq (qk s)) v ∧ lock_free (irq (qk s)) IrqLock.
Definition with_irq (i : irq_st) (s : qst) : qst := s <| qk ::= λ k, k <| irq := i |> |>.
Definition qlocked (s : qst) : qst := with_irq (acq_st (irq (qk s)) IrqLock) s.

Lemma irq_inv_irq s i N : irq_inv s N → irq_inv (with_irq i s) N.
Proof. intros [[] ? ? ? ? ? ?]. by split. Qed.

Lemma q_acquire s v : q_ready s v → qkern (Core_SpinlockAcquire IrqLock) s = Ret (acq_irql v) (qlocked s).
Proof. intros [Hq Hl]. erewrite qkern_Ret by exact (acquire_quiet _ _ _ Hq Hl). by destruct s. Qed.
Lemma q_release s v s' :
  q_ready s v → irq (qk s') = acq_st (irq (qk s)) IrqLock →
  qkern (Core_SpinlockRelease IrqLock (acq_irql v)) s' = Ret OBOS_STATUS_SUCCESS (with_irq (irq (qk s)) s').
Proof. intros [Hq Hl] E. by erewrite qkern_Ret by (by apply (release_quiet _ (irq (qk s)))). Qed.

Lemma with_irq_twice i j s : with_irq i (with_irq j s) = with_irq i s.
Proof. by destruct s. Qed.
Lemma with_irq_id s i : irq (qk s) = i → with_irq i s = s.
Proof. intros <-. by destruct s as [[] ? ? ? ? ? ? ?]. Qed.

End lock.

(** ** Freeing *)

Section freeing.
Context {DH : DpcHandlers} {IE : IrqEnv}.

Lemma next_irq_eq s n lk : irq_links s !! n = Some lk → next_node n s = Ret (dl_next lk) s.
Proof. intros H. unfold next_node. by erewrite bind_Ret by (by apply load_eq). Qed.

(** The search for the node of an object. *)
Lemma node_of_eq l1 n l2 fuel p o s :
  seg (irq_links s) p (l1 ++ n :: l2) 0 → 0 ∉ l1 ++ n :: l2 → (∀ m, m ∈ l1 → ∃ q, irq_nodes s !! m = Some q ∧ q ≠ o) →
  irq_nodes s !! n = Some o → (length l1 <= fuel)%nat →
  node_of fuel (default 0 (head (l1 ++ n :: l2))) o s = Ret n s.
Proof.
  revert p fuel. induction l1 as [|m l1 IH]; intros p fuel Hs H0 Hl Hn Hf.
  - destruct Hs as [Hlk _]. change (default 0 (head ([] ++ n :: l2))) with n. assert (truthy n = true) as Hn0 by (apply truthy_true; set_solver).
    destruct fuel; cbn [node_of]; rewrite Hn0; cbn [negb]; unfold node_data; erewrite bind_Ret by (by apply load_eq);
      rewrite Z.eqb_refl; by erewrite bind_Ret by (by apply next_irq_eq).
  - destruct Hs as [Hlk Hs]. simpl in Hf. destruct fuel as [|fuel]; [lia|]. change (default 0 (head ((m :: l1) ++ n :: l2))) with m.
    cbn [node_of]. rewrite (proj2 (truthy_true m)) by set_solver. cbn [negb].
    destruct (Hl m) as (q & Hq & Hqo); [set_solver|]. unfold node_data. erewrite bind_Ret by (by apply load_eq).
    rewrite (proj2 (Z.eqb_neq q o)) by done. erewrite bind_Ret by (by apply next_irq_eq).
    change (dl_next _) with (default 0 (head (l1 ++ n :: l2))). apply (IH m); [done|set_solver|set_solver|done|lia].
Qed.

Lemma objects_split s N v l1 n l2 o :
  N v = l1 ++ n :: l2 → irq_nodes s !! n = Some o →
  objects s N v = ((λ m, default 0 (irq_nodes s !! m)) <$> l1) ++ o :: ((λ m, default 0 (irq_nodes s !! m)) <$> l2).
Proof. intros HN Hn. unfold objects. rewrite HN, fmap_app. simpl. by rewrite Hn. Qed.

(** The node that [Core_IrqObjectFree] looks up is the object's. *)
Lemma find_node_ok s N v x l1 n l2 o :
  irq_inv s N → is_vec v → s_irqVectors s !! v = Some x → N v = l1 ++ n :: l2 → irq_nodes s !! n = Some o →
  (if negb (allowWorkSharing x) then mret (dl_head (irqObjects x))
   else node_of (size (irq_links s)) (dl_head (irqObjects x)) o) s = Ret n s.
Proof.
  intros H Hv Hx HN Hn. pose proof (ii_table _ _ H) as Ht. destruct (vec_attrs _ _ _ Ht Hv) as (y & Hy & _ & Ha & Hrep).
  rewrite Hx in Hy. injection Hy as <-. rewrite HN in Hrep. rewrite (rep_head _ _ _ Hrep).
  destruct (allowWorkSharing x); cbn [negb].
  - pose proof (seg_size _ _ _ _ (rep_seg _ _ _ Hrep) (rep_nodup _ _ _ Hrep)) as Hlen. rewrite length_app in Hlen.
    apply (node_of_eq l1 n l2 _ 0); [apply Hrep|apply Hrep| |done|lia].
    intros m Hm. destruct (tb_data _ _ Ht v m Hv) as [q Hq]; [rewrite HN; set_solver|]. exists q. split; [done|]. intros ->.
    pose proof (ii_nodup _ _ H v Hv) as Hnd. rewrite (objects_split _ _ _ _ _ _ _ HN Hn) in Hnd.
    apply NoDup_app in Hnd as (_ & Hdis & _). apply (Hdis o); [|set_solver].
    apply list_elem_of_fmap. exists m. by rewrite Hq.
  - pose proof (ii_share _ _ H v _ _ Hv Ha) as Hlen. rewrite HN, length_app in Hlen. simpl in Hlen.
    destruct l1; [done|simpl in Hlen; lia].
Qed.

(** [s'] is [s] without the object [o], which was on the vector [v]. *)
Record freed (s : qst) (N : Z → list Z) (v o : Z) (N' : Z → list Z) (s' : qst) : Prop := {
  fr_inv : irq_inv s' N';
  fr_objects w : is_vec w → objects s' N' w = if decide (w = v) then filter (λ p, p ≠ o) (objects s N v) else objects s N w;
  fr_attrs w : w ≠ v → attrs s' w = attrs s w;
  fr_irqs : irqs s' = delete o (irqs s);
  fr_qk : qk s' = qk s
}.

Lemma filter_other (l1 l2 : list Z) (o : Z) : NoDup (l1 ++ o :: l2) → filter (λ p, p ≠ o) (l1 ++ o :: l2) = l1 ++ l2.
Proof.
  intros Hnd. apply NoDup_app in Hnd as (_ & Hd & [Ho _]%NoDup_cons).
  rewrite filter_app, filter_cons_False, !filter_ne_id by (done || naive_solver || (intros Hin; apply (Hd o); set_solver)). done.
Qed.

(** The attributes of the vector the object leaves. *)
Definition leave (empty : bool) (ob : irq_obj) (x : irq_vector) : irq_vector :=
  (if empty then x <| allowWorkSharing := true |> <| irqObjectsCapacity := 16 |> else x)
    <| nIRQsWithChosenID ::= λ n, wrap64 (n - (if choseVector ob then 1 else 0)) |>.

Lemma irq_free_run s N v x o ob l1 n l2 i0 :
  irq_inv s N → q_ready s i0 → kernel_alloc (sch (qk s)) = true → o ≠ 0 → irqs s !! o = Some ob → vector ob = Some v → is_vec v →
  s_irqVectors s !! v = Some x → N v = l1 ++ n :: l2 → irq_nodes s !! n = Some o →
  ∃ s2 x2, Core_IrqObjectFree o s =
      Ret OBOS_STATUS_SUCCESS (s2 <| s_irqVectors ::= <[v := leave (bool_decide (l1 ++ l2 = [])) ob x2]> |> <| irqs ::= delete o |>) ∧
    table s2 (fupd N v (l1 ++ l2)) ∧ same_but_lists s s2 ∧ qk s2 = qk s ∧ irq_nodes s2 = irq_nodes s ∧ s_irqVectors s2 !! v = Some x2.
Proof.
  intros H Hrd Hk Ho0 Ho Hvo Hv Hx HN Hn. pose proof (irq_inv_irq _ (acq_st (irq (qk s)) IrqLock) _ H) as HL. fold (qlocked s) in HL.
  destruct (remove_ok _ _ _ _ _ _ (ii_table _ _ HL) Hv HN) as (s2 & E2 & Ht2 & Hsb & Hqk & Hnd).
  destruct (vec_attrs _ _ _ Ht2 Hv) as (x2 & Hx2 & _ & _ & Hrep2). rewrite fupd_eq in Hrep2.
  assert (irqs s2 = irqs s) as EI by (rewrite (sb_rest _ _ Hsb); done).
  exists (with_irq (irq (qk s)) s2), x2. split; [|split; [|split; [|split; [|done]]]].
  - unfold Core_IrqObjectFree. rewrite (bind_Ret _ _ _ _ _ (gets_eq _ _)), (ii_init _ _ H), (proj2 (truthy_true o)) by done. cbn [negb].
    unfold get_irq. erewrite bind_Ret by (by apply load_eq). rewrite Hvo.
    erewrite bind_Ret; [rewrite (bind_Ret _ _ _ _ _ (gets_eq _ _))|].
    2:{ erewrite bind_Ret by (by apply q_acquire). unfold get_vec at 1. erewrite bind_Ret by (apply load_eq; exact Hx).
        rewrite (bind_Ret _ _ _ _ _ (gets_eq _ _)). erewrite bind_Ret by (by apply (find_node_ok _ _ _ _ _ _ _ _ HL Hv Hx HN Hn)).
        assert (n ≠ 0) as Hn0. { destruct (vec_attrs _ _ _ (ii_table _ _ H) Hv) as (? & _ & _ & _ & Hrep). intros ->.
          apply (rep_nonnull _ _ _ Hrep). rewrite HN. set_solver. }
        rewrite (proj2 (truthy_true n)) by done. erewrite bind_Ret by (by apply assert_eq).
        unfold node_data. erewrite bind_Ret by (apply load_eq; exact Hn). rewrite Z.eqb_refl. erewrite bind_Ret by (by apply assert_eq).
        erewrite bind_Ret by exact E2. unfold get_vec. erewrite bind_Ret by (by apply load_eq).
        rewrite (rep_count _ _ _ Hrep2).
        assert (when (negb (truthy (Z.of_nat (length (l1 ++ l2)))))
          (set_vec v (λ x, x <| allowWorkSharing := true |> <| irqObjectsCapacity := 16 |>)) s2 =
          Ret () (s2 <| s_irqVectors ::= <[v := if bool_decide (l1 ++ l2 = []) then x2 <| allowWorkSharing := true |> <| irqObjectsCapacity := 16 |> else x2]> |>)) as Hw.
        { unfold when, set_vec. destruct (l1 ++ l2); cbn [length].
          - rewrite bool_decide_eq_true_2 by done. simpl. by erewrite store_eq by done.
          - rewrite bool_decide_eq_false_2 by done. rewrite (proj2 (truthy_true _)) by lia. cbn [negb].
            unfold mret, K_ret. f_equal. destruct s2. simpl in *. by rewrite insert_id. }
        rewrite (bind_Ret _ _ _ _ _ Hw). unfold set_vec. erewrite bind_Ret by (apply store_eq; apply lookup_insert_eq).
        erewrite bind_Ret by (apply (q_release s i0); [done|exact (f_equal irq Hqk)]). reflexivity. }
    simpl. rewrite Hqk. simpl. rewrite Hk. cbn [negb]. erewrite bind_Ret by apply modify_eq. unfold mret, K_ret. f_equal.
    unfold leave, with_irq. simpl. rewrite insert_insert_eq. rewrite ?Hqk. by destruct (bool_decide _).
  - by destruct Ht2.
  - destruct Hsb as [R Q A]. split; [|simpl; rewrite Hqk; by destruct s as [[? [] ?] ? ? ? ? ? ? ?]|done].
    rewrite R. by destruct s.
  - simpl. rewrite Hqk. by destruct s as [[? [] ?] ? ? ? ? ? ? ?].
Qed.

Lemma free_ok s N v o ob l1 n l2 i0 :
  irq_inv s N → q_ready s i0 → kernel_alloc (sch (qk s)) = true → o ≠ 0 → irqs s !! o = Some ob → vector ob = Some v → is_vec v →
  N v = l1 ++ n :: l2 → irq_nodes s !! n = Some o →
  ∃ s', Core_IrqObjectFree o s = Ret OBOS_STATUS_SUCCESS s' ∧ freed s N v o (fupd N v (l1 ++ l2)) s' ∧
    ∀ x, s_irqVectors s !! v = Some x → attrs s' v =
      Some (let y := leave (bool_decide (l1 ++ l2 = [])) ob x in (irqObjectsCapacity y, allowWorkSharing y, nIRQsWithChosenID y)).
Proof.
  intros H Hrd Hk Ho0 Ho Hvo Hv HN Hn. destruct (vec_attrs _ _ _ (ii_table _ _ H) Hv) as (x & Hx & Hid & Ha & Hrep).
  destruct (irq_free_run _ _ _ _ _ _ _ _ _ _ H Hrd Hk Ho0 Ho Hvo Hv Hx HN Hn) as (s2 & x2 & E & Ht2 & Hsb & Hqk & Hnd & Hx2).
  eexists. split; [exact E|]. set (e := bool_decide (l1 ++ l2 = [])).
  set (s' := s2 <| s_irqVectors ::= <[v := leave e ob x2]> |> <| irqs ::= delete o |>).
  assert (∀ w, w ≠ v → attrs s' w = attrs s w) as Hattr.
  { intros w Hne. rewrite <- (sb_attrs _ _ Hsb). unfold attrs. simpl. by rewrite lookup_insert_ne. }
  assert (irqObjectsCapacity x2 = irqObjectsCapacity x ∧ allowWorkSharing x2 = allowWorkSharing x ∧
    nIRQsWithChosenID x2 = nIRQsWithChosenID x) as (Ec & Ew & En).
  { pose proof (sb_attrs _ _ Hsb v) as Hav. unfold attrs in Hav. rewrite Hx, Hx2 in Hav. by injection Hav. }
  assert (attrs s' v = Some (let y := leave e ob x in (irqObjectsCapacity y, allowWorkSharing y, nIRQsWithChosenID y))) as Hav.
  { unfold attrs, s'. simpl. rewrite lookup_insert_eq. unfold leave. destruct e; simpl; by rewrite ?Ec, ?Ew, ?En. }
  pose proof (ii_nodup _ _ H v Hv) as Hndo. rewrite (objects_split _ _ _ _ _ _ _ HN Hn) in Hndo.
  assert (∀ w, is_vec w → objects s' (fupd N v (l1 ++ l2)) w =
    if decide (w = v) then filter (λ p, p ≠ o) (objects s N v) else objects s N w) as Hobj.
  { intros w Hw. unfold objects at 1. simpl. rewrite Hnd. case_decide as Hd; [subst w; rewrite fupd_eq|by rewrite fupd_ne].
    rewrite (objects_split _ _ _ _ _ _ _ HN Hn), filter_other, fmap_app by done. done. }
  assert (irqs s' = delete o (irqs s) ∧ Arch_IRQHandlers s' = Arch_IRQHandlers s ∧
    s_irqInterfaceInitialized s' = s_irqInterfaceInitialized s) as (EI & EA & EN) by (unfold s'; simpl; rewrite (sb_rest _ _ Hsb); done).
  split; [|intros y Hy; rewrite Hx in Hy; injection Hy as <-; exact Hav].
  split; [|exact Hobj|exact Hattr|done|exact Hqk].
  split; rewrite ?EI, ?EA, ?EN; try apply H.
  - unfold s'. apply (table_irqs (s2 <| s_irqVectors ::= <[v := leave e ob x2]> |>)).
    apply table_set_vec; [done|done|]. intros []. unfold leave. by destruct e.
  - intros w p Hw Hp. rewrite Hobj in Hp by done.
    assert (p ∈ objects s N w ∧ p ≠ o) as [Hp' Hpo].
    { case_decide as Hd; [subst w; by apply list_elem_of_filter in Hp as [? ?]|]. split; [done|]. intros ->.
      destruct (ii_obj _ _ H w o Hw Hp) as (_ & q & Hq & Hqv). rewrite Ho in Hq. congruence. }
    destruct (ii_obj _ _ H w p Hw Hp') as (? & q & Hq & Hqv). split; [done|]. exists q. by rewrite lookup_delete_ne.
  - intros w Hw. rewrite Hobj by done. case_decide; [apply NoDup_filter|]; by apply H.
  - intros w c k Hw Hat. destruct (decide (w = v)) as [->|Hne].
    + rewrite fupd_eq. rewrite Hav in Hat. unfold leave in Hat. destruct e; simpl in Hat; [done|]. injection Hat as _ Ew' _.
      pose proof (ii_share _ _ H v (irqObjectsCapacity x) (nIRQsWithChosenID x) Hv) as Hl. rewrite Ha, Ew', HN in Hl.
      specialize (Hl eq_refl). rewrite !length_app in *. simpl in *. lia.
    + rewrite fupd_ne by done. rewrite Hattr in Hat by done. by eapply H.
  - intros w c a k Hw Hat. destruct (decide (w = v)) as [->|Hne]; [|rewrite Hattr in Hat by done; by eapply H].
    rewrite Hav in Hat. unfold leave in Hat. destruct e; simpl in Hat; injection Hat as <- _ _; [lia|]. by eapply H.
Qed.

End freeing.

(** ** Initialising objects *)

Section initialise.
Context {DH : DpcHandlers} {IE : IrqEnv}.

(** The environment an object is initialised in: the processor is quiet, memory is
    there, [o] is an object without a vector. *)
Record may_init (s : qst) (N : Z → list Z) (o : Z) (ob : irq_obj) (i0 node : Z) : Prop := {
  mi_inv : irq_inv s N;
  mi_ready : q_ready s i0;
  mi_alloc : kernel_alloc (sch (qk s)) = true;
  mi_node : head (free_addrs (sch (qk s))) = Some node;
  mi_obj : o ≠ 0 ∧ irqs s !! o = Some ob ∧ vector ob = None
}.

(** [s'] is [s] with the object [o] on the vector [v]. *)
Record initialised (s : qst) (N : Z → list Z) (v o : Z) (ob : irq_obj) (aws : bool) (node : Z) (s' : qst) : Prop := {
  in_inv : irq_inv s' (fupd N v (N v ++ [node]));
  in_objects w : is_vec w →
    objects s' (fupd N v (N v ++ [node])) w = fupd (objects s N) v (objects s N v ++ [o]) w;
  in_attrs c a k : attrs s v = Some (c, a, k) → attrs s' v = Some (c, aws, if choseVector ob then wrap64 (k + 1) else k);
  in_others w : w ≠ v → attrs s' w = attrs s w;
  in_node : irq_nodes s' = <[node := o]> (irq_nodes s);
  in_irqs : irqs s' = <[o := ob]> (irqs s);
  in_idt : Arch_IRQHandlers s' = <[v + 32 := Core_IRQDispatcher_addr]> (Arch_IRQHandlers s);
  in_qk : qk s' = (qk s) <| sch ::= λ c, c <| free_addrs ::= tail |> |>
}.

Lemma irq_inv_attr s N v x f :
  irq_inv s N → s_irqVectors s !! v = Some x → (∀ x, v_id (f x) = v_id x ∧ irqObjects (f x) = irqObjects x ∧
    irqObjectsCapacity (f x) = irqObjectsCapacity x ∧ allowWorkSharing (f x) = allowWorkSharing x) →
  irq_inv (s <| s_irqVectors ::= <[v := f x]> |>) N.
Proof.
  intros H Hx Hf. assert (∀ w, attrs (s <| s_irqVectors ::= <[v := f x]> |>) w =
    (λ p : Z * bool * Z, (p.1.1, p.1.2, if decide (w = v) then nIRQsWithChosenID (f x) else p.2)) <$> attrs s w) as Hat.
  { intros w. unfold attrs. simpl. destruct (decide (w = v)) as [->|Hne].
    - rewrite lookup_insert_eq, Hx. simpl. by destruct (Hf x) as (_ & _ & -> & ->).
    - rewrite lookup_insert_ne by done. by destruct (s_irqVectors s !! w). }
  destruct H. split; try done.
  - apply table_set_vec; [done|done|]. intros y. destruct (Hf y) as (-> & -> & _). done.
  - intros w c k Hw. rewrite Hat. destruct (attrs s w) as [[[c' a'] k']|] eqn:Ew; [|done]. intros [= -> -> _]. by eapply ii_share0.
  - intros w c a k Hw. rewrite Hat. destruct (attrs s w) as [[[c' a'] k']|] eqn:Ew; [|done]. intros [= -> -> _]. by eapply ii_cap0.
Qed.

(** Setting [choseVector] before. *)
Lemma irq_inv_loose s N o ob ob' : irq_inv s N → irqs s !! o = Some ob → vector ob = None →
  irq_inv (s <| irqs ::= <[o := ob']> |>) N.
Proof.
  intros H Ho Hno. pose proof (λ v, loose_object s N o ob v H Ho Hno) as Hl. destruct H. split; try done; [by apply table_irqs|].
  intros v p Hv Hp. change (objects _ _ v) with (objects s N v) in Hp. destruct (ii_obj0 v p Hv Hp) as (? & q & Hq & ?).
  split; [done|]. exists q. simpl. rewrite lookup_insert_ne; [done|]. intros <-. by apply (Hl v).
Qed.

(** The state in which the object is registered. *)
Definition prepared (s : qst) (o : Z) (ob : irq_obj) : qst := qlocked (s <| irqs ::= <[o := ob]> |>).

Lemma prepared_placed fuel s N o ob i0 node v aws force b :
  fresh_cleared node → dispatcher_placed → may_init s N o ob i0 node → is_vec v → takes s N v aws →
  ∃ s2, register_irq_vector fuel o v aws force (prepared s o (ob <| choseVector := b |>)) = Ret OBOS_STATUS_SUCCESS s2 ∧
    placed (prepared s o (ob <| choseVector := b |>)) N v o (ob <| choseVector := b |> <| vector := Some v |>) aws node s2.
Proof.
  intros Hc Hd [H Hrd Hk Hnode (Ho0 & Ho & Hno)] Hv Htk.
  destruct (free_addrs (sch (qk s))) as [|node' rest] eqn:Hfa; [done|]. injection Hnode as ->.
  eapply (register_place _ _ _ _ _ (ob <| choseVector := b |>)); try done.
  - apply irq_inv_irq. by eapply irq_inv_loose.
  - apply lookup_insert_eq.
Qed.

Lemma placed_done s N v o ob1 ob aws node s2 :
  placed (prepared s o ob1) N v o ob aws node s2 → choseVector ob = false →
  initialised s N v o ob aws node (with_irq (irq (qk s)) s2).
Proof.
  intros [Hinv Hobj Hat Hnd Hir Hidt Hq] Hb. split; try done.
  - by apply irq_inv_irq.
  - intros c a k Ha. change (attrs (with_irq _ s2) v) with (attrs s2 v). rewrite Hat.
    change (attrs (prepared s o _) v) with (attrs s v). rewrite Ha, Hb. simpl. by case_decide.
  - intros w Hne. change (attrs (with_irq _ s2) w) with (attrs s2 w). rewrite Hat.
    change (attrs (prepared s o _) w) with (attrs s w). destruct (attrs s w) as [[[]]|]; simpl; [|done]. by case_decide.
  - change (irqs (with_irq _ s2)) with (irqs s2). rewrite Hir. unfold prepared, qlocked, with_irq. simpl. by rewrite insert_insert_eq.
  - unfold with_irq. simpl. rewrite Hq. by destruct s as [[? [] ?] ? ? ? ? ? ? ?].
Qed.

Lemma placed_counted s N v o ob1 ob aws node s2 x2 :
  placed (prepared s o ob1) N v o ob aws node s2 → choseVector ob = true → s_irqVectors s2 !! v = Some x2 →
  initialised s N v o ob aws node (with_irq (irq (qk s))
    (s2 <| s_irqVectors ::= <[v := x2 <| nIRQsWithChosenID ::= λ n, wrap64 (n + 1) |>]> |>)).
Proof.
  intros [Hinv Hobj Hat Hnd Hir Hidt Hq] Hb Hx2.
  set (s3 := s2 <| s_irqVectors ::= <[v := x2 <| nIRQsWithChosenID ::= λ n, wrap64 (n + 1) |>]> |>).
  split; try done.
  - apply irq_inv_irq. by apply (irq_inv_attr _ _ _ x2 (λ x, x <| nIRQsWithChosenID ::= λ n, wrap64 (n + 1) |>)).
  - intros c a k Ha. specialize (Hat v). change (attrs (prepared s o _) v) with (attrs s v) in Hat. rewrite Ha in Hat.
    unfold attrs in Hat at 1. rewrite Hx2 in Hat. simpl in Hat. unfold attrs. simpl. rewrite lookup_insert_eq. simpl.
    injection Hat as -> -> ->. rewrite Hb. by case_decide.
  - intros w Hne. specialize (Hat w). change (attrs (prepared s o _) w) with (attrs s w) in Hat.
    unfold attrs at 1. simpl. rewrite lookup_insert_ne by done. unfold attrs in Hat at 1. rewrite Hat.
    destruct (attrs s w) as [[[]]|]; simpl; [|done]. by case_decide.
  - change (irqs (with_irq _ s3)) with (irqs s2). rewrite Hir. unfold prepared, qlocked, with_irq. simpl. by rewrite insert_insert_eq.
  - unfold with_irq. simpl. rewrite Hq. by destruct s as [[? [] ?] ? ? ? ? ? ? ?].
Qed.

Lemma init_vector_ok fuel s N o ob i0 node v aws force :
  fresh_cleared node → dispatcher_placed → may_init s N o ob i0 node → is_vec v → takes s N v aws →
  ∃ s', Core_IrqObjectInitializeVector fuel o v aws force s = Ret OBOS_STATUS_SUCCESS s' ∧
    initialised s N v o (ob <| choseVector := true |> <| vector := Some v |>) aws node s'.
Proof.
  intros Hc Hd Hm Hv Htk. destruct (prepared_placed fuel s N o ob i0 node v aws force true Hc Hd Hm Hv Htk) as (s2 & E2 & Hpl).
  destruct Hm as [H Hrd Hk Hnode (Ho0 & Ho & Hno)].
  destruct (vec_attrs _ _ _ (ii_table _ _ (pl_inv _ _ _ _ _ _ _ _ Hpl)) Hv) as (x2 & Hx2 & _).
  eexists. split; [|by eapply placed_counted].
  unfold Core_IrqObjectInitializeVector. rewrite (bind_Ret _ _ _ _ _ (gets_eq _ _)), (ii_init _ _ H), (proj2 (truthy_true o)) by done.
  rewrite (proj2 (Z.leb_gt _ _)) by apply Hv. cbn [negb orb]. unfold get_irq. erewrite bind_Ret by (by apply load_eq).
  rewrite Hno, bool_decide_eq_false_2 by naive_solver. unfold set_irq. erewrite bind_Ret by (by apply store_eq).
  erewrite bind_Ret by (apply (q_acquire _ i0); exact Hrd). erewrite bind_Ret by exact E2.
  erewrite bind_Ret by (apply load_eq; rewrite (pl_irqs _ _ _ _ _ _ _ _ Hpl); apply lookup_insert_eq).
  erewrite bind_Ret by (by apply deref_opt_eq). unfold set_vec. erewrite bind_Ret by (by apply store_eq).
  erewrite bind_Ret by (apply (q_release s i0); [done|]; simpl; rewrite (pl_qk _ _ _ _ _ _ _ _ Hpl); done). done.
Qed.


(** The vector can be chosen for an object of its level. *)
Definition can_take (s : qst) (w : Z) (aws : bool) : Prop := ∃ x, s_irqVectors s !! w = Some x ∧ usable x aws false = true.

(** The search takes the first vector that can be chosen. *)
Lemma find_usable_ok s N n vec aws :
  irq_inv s N → 0 <= vec → vec + Z.of_nat n <= OBOS_IRQ_VECTOR_ID_MAX →
  (∃ w, find_usable n vec None aws false s = Ret w s ∧ vec <= w < vec + Z.of_nat n ∧ can_take s w aws ∧
     ∀ u, vec <= u < w → ¬ can_take s u aws) ∨
  (find_usable n vec None aws false s = Ret OBOS_IRQ_VECTOR_ID_MAX s ∧ ∀ u, vec <= u < vec + Z.of_nat n → ¬ can_take s u aws).
Proof.
  intros H. revert vec. induction n as [|n IH]; intros vec H0 Hn; [right; split; [done|lia]|].
  assert (is_vec vec) as Hv by (unfold is_vec; lia). destruct (vec_attrs _ _ _ (ii_table _ _ H) Hv) as (x & Hx & Hid & Ha & _).
  assert (candidate vec s = Ret x s) as Ec.
  { unfold candidate, get_vec. erewrite bind_Ret by (by apply load_eq). rewrite Hid, Z.eqb_refl. erewrite bind_Ret by (by apply assert_eq).
    pose proof (ii_cap _ _ H vec _ _ _ Hv Ha). erewrite bind_Ret by (apply assert_eq, truthy_true; lia). done. }
  cbn [find_usable]. erewrite bind_Ret by exact Ec. rewrite bool_decide_eq_false_2 by done.
  destruct (usable x aws false) eqn:Eu.
  - left. exists vec. split; [done|]. split; [lia|]. split; [by exists x|lia].
  - assert (¬ can_take s vec aws) as Hnot by (intros (y & Hy & Hyu); congruence).
    destruct (IH (vec + 1)) as [(w & E & Hw & Hc & Hno)|[E Hno]]; [lia|lia|left|right]; rewrite E.
    + exists w. split; [done|]. split; [lia|]. split; [done|]. intros u Hu. destruct (decide (u = vec)) as [->|]; [done|apply Hno; lia].
    + split; [done|]. intros u Hu. destruct (decide (u = vec)) as [->|]; [done|apply Hno; lia].
Qed.

(** The vectors of a level. *)
Lemma level_base l : 2 <= l <= 15 → OBOS_IRQL_TO_IRQ_VECTOR_ID l = 16 * l - 32.
Proof.
  intros Hl. unfold OBOS_IRQL_TO_IRQ_VECTOR_ID. rewrite Z.shiftl_mul_pow2 by lia. rewrite wrap_small by (unfold in_u; lia). lia.
Qed.
Lemma level_vectors l v : 2 <= l <= 15 → OBOS_IRQL_TO_IRQ_VECTOR_ID l <= v < OBOS_IRQL_TO_IRQ_VECTOR_ID l + 16 ↔
  is_vec v ∧ OBOS_IRQ_VECTOR_ID_TO_IRQL v = l.
Proof.
  intros Hl. rewrite level_base by done. unfold is_vec, OBOS_IRQ_VECTOR_ID_MAX, OBOS_IRQ_VECTOR_ID_TO_IRQL.
  rewrite Z.shiftr_div_pow2 by lia. change (2 ^ 4) with 16. split.
  - intros Hv. split; [lia|]. rewrite wrap_small; unfold in_u; Z.div_mod_to_equations; lia.
  - intros [Hv E]. rewrite wrap_small in E by (unfold in_u; Z.div_mod_to_equations; lia). Z.div_mod_to_equations. lia.
Qed.

(** Up to the search, under the lock. *)
Lemma init_irql_enter fuel s N o ob i0 node l aws force :
  may_init s N o ob i0 node → 2 <= l <= 15 →
  Core_IrqObjectInitializeIRQL fuel o l aws force s =
    (found ← find_again fuel (OBOS_IRQL_TO_IRQ_VECTOR_ID l) None aws false;
     if found =? OBOS_IRQ_VECTOR_ID_MAX then
       qkern (Core_SpinlockRelease IrqLock (acq_irql i0));; mret OBOS_STATUS_NOT_FOUND
     else
     set_irq o (λ o, o <| choseVector := false |>);;
     res ← register_irq_vector fuel o found aws force;
     qkern (Core_SpinlockRelease IrqLock (acq_irql i0));;
     mret res) (qlocked s).
Proof.
  intros [H Hrd Hk Hnode (Ho0 & Ho & Hno)] Hl. unfold Core_IrqObjectInitializeIRQL.
  rewrite (bind_Ret _ _ _ _ _ (gets_eq _ _)), (ii_init _ _ H), (proj2 (truthy_true o)) by done.
  unfold IRQL_MASKED. rewrite (proj2 (Z.ltb_ge 15 l)), (proj2 (Z.eqb_neq l 0)), (proj2 (Z.eqb_neq l 1)) by lia. cbn [negb orb].
  unfold get_irq. erewrite bind_Ret by (by apply load_eq). rewrite Hno, bool_decide_eq_false_2 by naive_solver.
  by erewrite bind_Ret by (apply (q_acquire _ i0); exact Hrd).
Qed.

Lemma init_irql_ok fuel s N o ob i0 node l v aws force :
  fresh_cleared node → dispatcher_placed → may_init s N o ob i0 node → is_vec v → OBOS_IRQ_VECTOR_ID_TO_IRQL v = l → 2 <= l <= 15 →
  can_take s v aws → (∀ u, is_vec u → OBOS_IRQ_VECTOR_ID_TO_IRQL u = l → u < v → ¬ can_take s u aws) → takes s N v aws →
  ∃ s', Core_IrqObjectInitializeIRQL fuel o l aws force s = Ret OBOS_STATUS_SUCCESS s' ∧
    initialised s N v o (ob <| choseVector := false |> <| vector := Some v |>) aws node s'.
Proof.
  intros Hc Hd Hm Hv Hlv Hl Hct Hfirst Htk.
  destruct (prepared_placed fuel s N o ob i0 node v aws force false Hc Hd Hm Hv Htk) as (s2 & E2 & Hpl).
  rewrite (init_irql_enter fuel s N o ob i0 node l aws force Hm Hl). destruct Hm as [H Hrd Hk Hnode (Ho0 & Ho & Hno)].
  pose proof (level_base l Hl) as Hb. pose proof (proj2 (level_vectors l v Hl) (conj Hv Hlv)) as Hr.
  assert (find_again fuel (OBOS_IRQL_TO_IRQ_VECTOR_ID l) None aws false (qlocked s) = Ret v (qlocked s)) as Ef.
  { assert (find_usable OBOS_IRQ_VECTOR_ID_COUNT_PER_IRQL (OBOS_IRQL_TO_IRQ_VECTOR_ID l) None aws false (qlocked s) = Ret v (qlocked s)) as Eu.
    { destruct (find_usable_ok (qlocked s) N OBOS_IRQ_VECTOR_ID_COUNT_PER_IRQL (OBOS_IRQL_TO_IRQ_VECTOR_ID l) aws) as [(w & E & Hw & Hcw & Hno')|[E Hno']];
        [by apply irq_inv_irq|lia|unfold OBOS_IRQ_VECTOR_ID_COUNT_PER_IRQL, OBOS_IRQ_VECTOR_ID_MAX; lia| |].
      - unfold OBOS_IRQ_VECTOR_ID_COUNT_PER_IRQL in Hw. destruct (proj1 (level_vectors l w Hl) ltac:(lia)) as [Hwv Hwl].
        destruct (decide (w < v)); [by destruct (Hfirst w)|]. destruct (decide (v < w)); [|assert (w = v) as -> by lia; done].
        by destruct (Hno' v ltac:(lia)).
      - by destruct (Hno' v ltac:(unfold OBOS_IRQ_VECTOR_ID_COUNT_PER_IRQL; lia)). }
    destruct fuel; cbn [find_again]; erewrite bind_Ret by exact Eu; unfold is_vec, OBOS_IRQ_VECTOR_ID_MAX in *;
      rewrite (proj2 (Z.eqb_neq v 224)) by lia; done. }
  erewrite bind_Ret by exact Ef. unfold is_vec in Hv. rewrite (proj2 (Z.eqb_neq v OBOS_IRQ_VECTOR_ID_MAX)) by lia.
  eexists. split; [|by apply (placed_done _ _ _ _ _ _ _ _ _ Hpl)].
  unfold set_irq. erewrite bind_Ret by (by apply store_eq). erewrite bind_Ret by exact E2.
  erewrite bind_Ret by (apply (q_release s i0); [done|]; rewrite (pl_qk _ _ _ _ _ _ _ _ Hpl); done). done.
Qed.

(** When no vector of the level can be chosen, the search starts over without
    end, under the lock and with interrupts of the dispatch level off:
    [shouldIgnoreObjectCapacity] stays false. *)
Theorem irq_search_hangs fuel s N o ob i0 node l aws force :
  may_init s N o ob i0 node → 2 <= l <= 15 →
  (∀ v, is_vec v → OBOS_IRQ_VECTOR_ID_TO_IRQL v = l → ¬ can_take s v aws) →
  Core_IrqObjectInitializeIRQL fuel o l aws force s = Stop Hang.
Proof.
  intros Hm Hl Hnone. rewrite (init_irql_enter fuel s N o ob i0 node l aws force Hm Hl). apply bind_Stop.
  pose proof (level_base l Hl) as Hb.
  assert (find_usable OBOS_IRQ_VECTOR_ID_COUNT_PER_IRQL (OBOS_IRQL_TO_IRQ_VECTOR_ID l) None aws false (qlocked s) =
    Ret OBOS_IRQ_VECTOR_ID_MAX (qlocked s)) as Eu.
  { destruct (find_usable_ok (qlocked s) N OBOS_IRQ_VECTOR_ID_COUNT_PER_IRQL (OBOS_IRQL_TO_IRQ_VECTOR_ID l) aws) as [(w & E & Hw & Hcw & _)|[E _]];
      [apply irq_inv_irq, Hm|lia|unfold OBOS_IRQ_VECTOR_ID_COUNT_PER_IRQL, OBOS_IRQ_VECTOR_ID_MAX; lia| |done].
    unfold OBOS_IRQ_VECTOR_ID_COUNT_PER_IRQL in Hw. destruct (proj1 (level_vectors l w Hl) ltac:(lia)) as [Hwv Hwl]. by destruct (Hnone w). }
  induction fuel as [|fuel IH]; cbn [find_again]; erewrite bind_Ret by exact Eu; rewrite Z.eqb_refl; cbn [negb]; done.
Qed.


(** [C11] Putting an object on a vector that can take it and freeing it again succeeds
    both times and leaves every vector with the objects it had; an empty vector is reset
    to shared with room for 16. The node allocated for the object is not given back. It
    is assumed that a node can be allocated and that the memory it is made of has a null
    [next] word: [append_irq_to_vector] does not set it, and with another value the list
    would not end. *)
Theorem irq_register_free_roundtrip fuel s N o ob i0 node v aws force c a k :
  fresh_cleared node → dispatcher_placed → may_init s N o ob i0 node → is_vec v → takes s N v aws →
  attrs s v = Some (c, a, k) → in_u 64 k →
  ∃ s1 s2 N2, Core_IrqObjectInitializeVector fuel o v aws force s = Ret OBOS_STATUS_SUCCESS s1 ∧
    objects s1 (fupd N v (N v ++ [node])) v = objects s N v ++ [o] ∧
    Core_IrqObjectFree o s1 = Ret OBOS_STATUS_SUCCESS s2 ∧ irq_inv s2 N2 ∧
    (∀ w, is_vec w → objects s2 N2 w = objects s N w) ∧ (∀ w, w ≠ v → attrs s2 w = attrs s w) ∧
    attrs s2 v = Some (if decide (N v = []) then 16 else c, true, k) ∧ irqs s2 = delete o (irqs s) ∧
    qk s2 = (qk s) <| sch ::= λ c, c <| free_addrs ::= tail |> |>.
Proof.
  intros Hc Hd Hm Hv Htk Ha Hk. destruct (init_vector_ok fuel s N o ob i0 node v aws force Hc Hd Hm Hv Htk) as (s1 & E1 & Hin).
  destruct Hm as [H Hrd Hka Hnode (Ho0 & Ho & Hno)]. pose proof (in_inv _ _ _ _ _ _ _ _ Hin) as H1.
  pose proof (in_qk _ _ _ _ _ _ _ _ Hin) as Hqk. pose proof (in_objects _ _ _ _ _ _ _ _ Hin) as Hob1.
  destruct (free_ok s1 (fupd N v (N v ++ [node])) v o (ob <| choseVector := true |> <| vector := Some v |>) (N v) node [] i0)
    as (s2 & E2 & Hfr & Hav); try done.
  { unfold q_ready. rewrite Hqk. done. }
  { rewrite Hqk. done. }
  { rewrite (in_irqs _ _ _ _ _ _ _ _ Hin). apply lookup_insert_eq. }
  { apply fupd_eq. }
  { rewrite (in_node _ _ _ _ _ _ _ _ Hin). apply lookup_insert_eq. }
  rewrite app_nil_r in *. eexists s1, s2, _. split; [done|]. split; [by rewrite Hob1, fupd_eq|]. split; [done|].
  split; [apply Hfr|]. split; [|split; [|split; [|split]]].
  - intros w Hw. rewrite (fr_objects _ _ _ _ _ _ Hfr w Hw), !Hob1 by done. case_decide as Hwv; [subst w; rewrite fupd_eq|by rewrite fupd_ne].
    pose proof (ii_nodup _ _ H1 v Hv) as Hnd. rewrite Hob1, fupd_eq in Hnd by done. by rewrite filter_other, app_nil_r.
  - intros w Hw. rewrite (fr_attrs _ _ _ _ _ _ Hfr w Hw). by apply Hin.
  - destruct (vec_attrs _ _ _ (ii_table _ _ H1) Hv) as (x & Hx & _ & Hax & _). rewrite (Hav x Hx).
    rewrite (in_attrs _ _ _ _ _ _ _ _ Hin c a k Ha) in Hax. injection Hax as Ec Ew Hn.
    assert (wrap64 (wrap64 (k + 1) - 1) = k) as Ek.
    { unfold wrap. rewrite Zminus_mod_idemp_l, Z.add_simpl_r. by apply wrap_small. }
    destruct Htk as [[-> _]|HN].
    + unfold leave. case_bool_decide as Hb; simpl; rewrite <- ?Hn, <- ?Ec, <- ?Ew, Ek; by case_decide.
    + unfold leave. rewrite HN, bool_decide_eq_true_2 by done. simpl. rewrite <- Hn, Ek. done.
  - rewrite (fr_irqs _ _ _ _ _ _ Hfr), (in_irqs _ _ _ _ _ _ _ _ Hin). apply delete_insert_eq.
  - rewrite (fr_qk _ _ _ _ _ _ Hfr). apply Hin.
Qed.

(** A refused object is broken: on a vector whose one object does not share,
    initialising another without force reports that the vector is in use, but the
    other object points to the vector and is counted there; freeing it panics. *)
Theorem irq_refused_free_panics fuel s N o ob i0 node v aws c k n q :
  may_init s N o ob i0 node → is_vec v → N v = [n] → irq_nodes s !! n = Some q → attrs s v = Some (c, false, k) →
  ∃ s1, Core_IrqObjectInitializeVector fuel o v aws false s = Ret OBOS_STATUS_IN_USE s1 ∧
    attrs s1 v = Some (c, false, wrap64 (k + 1)) ∧ Core_IrqObjectFree o s1 = Stop Panic.
Proof.
  intros [H Hrd Hka Hnode (Ho0 & Ho & Hno)] Hv HN Hq Ha. pose proof (ii_table _ _ H) as Ht.
  destruct (vec_attrs _ _ _ Ht Hv) as (x & Hx & Hid & Hax & Hrep). rewrite Hax in Ha. injection Ha as <- Hsh <-.
  assert (q ≠ o) as Hqo.
  { intros ->. apply (loose_object s N o ob v); try done. unfold objects. rewrite HN. simpl. rewrite Hq. set_solver. }
  set (ob1 := ob <| choseVector := true |> <| vector := Some v |>). set (x1 := x <| nIRQsWithChosenID ::= λ n, wrap64 (n + 1) |>).
  exists (s <| irqs ::= <[o := ob1]> |> <| s_irqVectors ::= <[v := x1]> |>). split; [|split].
  - unfold Core_IrqObjectInitializeVector. rewrite (bind_Ret _ _ _ _ _ (gets_eq _ _)), (ii_init _ _ H), (proj2 (truthy_true o)) by done.
    rewrite (proj2 (Z.leb_gt _ _)) by apply Hv. cbn [negb orb]. unfold get_irq. erewrite bind_Ret by (by apply load_eq).
    rewrite Hno, bool_decide_eq_false_2 by naive_solver. unfold set_irq. erewrite bind_Ret by (by apply store_eq).
    erewrite bind_Ret by (apply (q_acquire _ i0); exact Hrd).
    erewrite bind_Ret.
    2:{ unfold register_irq_vector, get_vec. erewrite bind_Ret by (apply load_eq; exact Hx). unfold set_irq.
        erewrite bind_Ret by (apply store_eq; apply lookup_insert_eq).
        rewrite Hsh, andb_false_r, (rep_count _ _ _ Hrep), HN. reflexivity. }
    erewrite bind_Ret by (apply load_eq; apply lookup_insert_eq). erewrite bind_Ret by (by apply deref_opt_eq).
    unfold set_vec. erewrite bind_Ret by (apply store_eq; exact Hx).
    erewrite bind_Ret by (apply (q_release s i0); done). unfold mret, K_ret. f_equal.
    unfold qlocked, with_irq. simpl. rewrite insert_insert_eq. by destruct s as [[] ? ? ? ? ? ? ?].
  - unfold attrs. simpl. rewrite lookup_insert_eq. simpl. by rewrite Hsh.
  - unfold Core_IrqObjectFree. rewrite (bind_Ret _ _ _ _ _ (gets_eq _ _)). simpl. rewrite (ii_init _ _ H), (proj2 (truthy_true o)) by done.
    cbn [negb]. unfold get_irq. erewrite bind_Ret by (apply load_eq; apply lookup_insert_eq). cbn [vector ob1]. simpl.
    apply bind_Stop. erewrite bind_Ret by (apply (q_acquire _ i0); exact Hrd).
    unfold get_vec. erewrite bind_Ret by (apply load_eq; apply lookup_insert_eq). rewrite (bind_Ret _ _ _ _ _ (gets_eq _ _)).
    simpl. rewrite Hsh. cbn [negb]. rewrite bind_ret_l, (rep_head _ _ _ Hrep), HN. simpl.
    assert (n ≠ 0) as Hn0 by (intros ->; apply (rep_nonnull _ _ _ Hrep); rewrite HN; set_solver).
    rewrite (proj2 (truthy_true n)) by done. erewrite bind_Ret by (by apply assert_eq).
    unfold node_data. erewrite bind_Ret by (apply load_eq; exact Hq). apply bind_Stop. unfold OBOS_ASSERT.
    by rewrite (proj2 (Z.eqb_neq q o)) by done.
Qed.

End initialise.

(** ** Dispatching *)

Section dispatch.
Context {DH : DpcHandlers} {IE : IrqEnv}.

(** An interrupt on [v] belongs to the one object of a vector that is not shared,
    and to the first object that says so of one that is. *)
Definition claimant (s : qst) (N : Z → list Z) (v : Z) (mine : Z → bool) : option Z :=
  match attrs s v with
  | Some (_, true, _) => head (filter mine (objects s N v))
  | _ => head (objects s N v)
  end.

(** The checkers answer [mine] and change nothing. *)
Definition checkers (s : qst) (N : Z → list Z) (v : Z) (mine : Z → bool) : Prop :=
  ∀ o ob, o ∈ objects s N v → irqs s !! o = Some ob →
    irqChecker ob ≠ 0 ∧ ∀ s', check_call (irqChecker ob) o (irqCheckerUserdata ob) s' = Ret (mine o) s'.

Lemma check_loop_eq l fuel p s s0 N v mine :
  irq_inv s0 N → is_vec v → irqs s = irqs s0 → irq_nodes s = irq_nodes s0 → checkers s0 N v mine →
  (∀ n, n ∈ l → n ∈ N v) → seg (irq_links s) p l 0 → 0 ∉ l → (length l <= fuel)%nat →
  check_loop fuel (default 0 (head l)) s =
    Ret (default 0 (head (filter mine ((λ n, default 0 (irq_nodes s0 !! n)) <$> l)))) s.
Proof.
  intros H Hv EI EN Hch. revert fuel p. induction l as [|n l IH]; intros fuel p Hl Hs H0 Hf; [by destruct fuel|].
  destruct Hs as [Hlk Hs]. simpl in Hf. destruct fuel as [|fuel]; [lia|]. change (default 0 (head (n :: l))) with n. cbn [check_loop].
  rewrite (proj2 (truthy_true n)) by set_solver. cbn [negb].
  destruct (tb_data _ _ (ii_table _ _ H) v n Hv) as [o Ho]; [set_solver|].
  assert (o ∈ objects s0 N v) as Hin.
  { apply list_elem_of_fmap. exists n. rewrite Ho. split; [done|set_solver]. }
  destruct (ii_obj _ _ H v o Hv Hin) as (Ho0 & ob & Hob & _). destruct (Hch o ob Hin Hob) as [Hc0 Hc].
  unfold node_data. erewrite bind_Ret by (apply load_eq; rewrite EN; exact Ho).
  unfold get_irq. erewrite bind_Ret by (apply load_eq; rewrite EI; exact Hob).
  rewrite (proj2 (truthy_true _) Hc0). erewrite bind_Ret by (by apply assert_eq). erewrite bind_Ret by apply Hc.
  cbn [fmap list_fmap]. rewrite Ho. change (default 0 (Some o)) with o. destruct (mine o) eqn:Em.
  - rewrite filter_cons_True by (by apply Is_true_true). by erewrite bind_Ret by (by apply next_irq_eq).
  - rewrite filter_cons_False by (intros ?%Is_true_true; congruence). erewrite bind_Ret by (by apply next_irq_eq). cbn [dl_next].
    apply (IH fuel n); [set_solver|done|set_solver|lia].
Qed.

(** While the interrupt is served: the level of the vector, interrupts enabled, the
    kernel's address space. *)
Definition serving (s : qst) (c : nat) (x : cpu_local) (l : Z) : qst :=
  s <| qk ::= λ k, k <| irq ::= set_level l |>
                     <| sch ::= λ h, h <| cpus ::= <[c := x <| currentContext := Mm_KernelContext |>]> |> |> |>
    <| interrupts := true |>.

(** What the dispatcher starts from. *)
Record interruptible (s : qst) (N : Z → list Z) (v : Z) (c : nat) (x : cpu_local) (i0 : Z) : Prop := {
  it_inv : irq_inv s N;
  it_vec : is_vec v;
  it_objects : N v ≠ [];
  it_wf : irq_wf (irq (qk s)) i0;
  it_level : i0 <= OBOS_IRQ_VECTOR_ID_TO_IRQL v;
  it_cpu : this_cpu (irq (qk s)) = Some c ∧ cpus (sch (qk s)) !! c = Some x
}.

Lemma find_irq_eq s N v c x l mine :
  irq_inv s N → is_vec v → N v ≠ [] → checkers s N v mine →
  find_irq v (serving s c x l) = Ret (default 0 (claimant s N v mine)) (serving s c x l).
Proof.
  intros H Hv Hne Hch. destruct (vec_attrs _ _ _ (ii_table _ _ H) Hv) as (y & Hy & _ & Ha & Hrep).
  unfold find_irq, get_vec. erewrite bind_Ret by (apply load_eq; exact Hy). unfold claimant. rewrite Ha.
  destruct (allowWorkSharing y); cbn [negb].
  - rewrite (bind_Ret _ _ _ _ _ (gets_eq _ _)). rewrite (rep_head _ _ _ Hrep).
    apply (check_loop_eq (N v) _ 0 (serving s c x l) s N v mine); try done; [apply Hrep|apply Hrep|].
    apply (seg_size _ _ _ _ (rep_seg _ _ _ Hrep) (rep_nodup _ _ _ Hrep)).
  - rewrite (rep_head _ _ _ Hrep). unfold objects. destruct (N v) as [|n l0] eqn:HN; [done|]. simpl.
    destruct (tb_data _ _ (ii_table _ _ H) v n Hv) as [o Ho]; [rewrite HN; set_solver|]. rewrite Ho.
    unfold node_data. by rewrite (load_eq _ _ _ o) by exact Ho.
Qed.

Lemma vector_level v : is_vec v → 2 <= OBOS_IRQ_VECTOR_ID_TO_IRQL v <= 15.
Proof.
  unfold is_vec, OBOS_IRQ_VECTOR_ID_MAX, OBOS_IRQ_VECTOR_ID_TO_IRQL. intros Hv. rewrite Z.shiftr_div_pow2 by lia. change (2 ^ 4) with 16.
  rewrite wrap_small; unfold in_u; Z.div_mod_to_equations; lia.
Qed.

Lemma level_wf i v w : irq_wf i v → 0 <= w <= 15 → w ≠ 1 → irq_wf (set_level w i) w.
Proof.
  intros [Hv Hc Hr H1 (t & Ht & Hctx)] Hw Hw1. split; [by eapply set_level_irql|by rewrite set_level_cr8|done|done|].
  exists t. by rewrite set_level_thread, set_level_ctx_irql.
Qed.

#[local] Opaque set_level.

(** From the search on. *)
Definition serve_irq (v oldIrql2 oldCtx : Z) : K qst () :=
  irq_obj ← find_irq v;
  c ← qkern CoreS_GetCPULocalPtr;
  if negb (truthy irq_obj) then
    set_context c oldCtx;;
    qkern (Core_LowerIrqlNoDPCDispatch oldIrql2);;
    CoreS_ExitIRQHandler
  else
  o ← get_irq irq_obj;
  when (truthy (irq_handler o)) (handler_call (irq_handler o) irq_obj v (handlerUserdata o) oldIrql2);;
  c ← qkern CoreS_GetCPULocalPtr;
  set_context c oldCtx;;
  CoreS_ExitIRQHandler;;
  qkern (Core_LowerIrqlNoThread oldIrql2).

Lemma dispatch_enter s N v c x i0 :
  interruptible s N v c x i0 → (∀ s, Arch_LAPICSendEOI s = Ret () s) →
  Core_IRQDispatcher v s = serve_irq v i0 (currentContext x) (serving s c x (OBOS_IRQ_VECTOR_ID_TO_IRQL v)).
Proof.
  intros [H Hv Hne Hwf Hlev [Hc Hx]] Heoi. pose proof (vector_level v Hv) as Hl. unfold Core_IRQDispatcher. cbv zeta.
  erewrite bind_Ret by (apply qkern_Ret; apply Core_RaiseIrqlNoThread_eq; [exact Hwf|lia|lia]).
  unfold CoreS_EnterIRQHandler. erewrite bind_Ret by (erewrite bind_Ret by apply modify_eq; reflexivity). cbn [negb].
  unfold CoreS_SendEOI. erewrite bind_Ret by apply Heoi.
  erewrite bind_Ret by (apply qkern_Ret; unfold CoreS_GetCPULocalPtr; rewrite (bind_Ret _ _ _ _ _ (gets_eq _ _)); simpl;
    rewrite set_level_this, Hc; reflexivity).
  erewrite bind_Ret by (apply qkern_Ret; unfold get_cpu; simpl; rewrite Hx; reflexivity).
  unfold set_context. erewrite bind_Ret by (apply qkern_Ret; unfold set_cpu; simpl; rewrite Hx; reflexivity).
  unfold serving. by destruct s as [[? [] ?] ? ? ? ? ? ? ?].
Qed.

(** The handler is done: interrupts are off again, and the processor, whose record is
    now [x2], has the context back that it had. *)
Definition served (s2 : qst) (c : nat) (x2 : cpu_local) (ctx : Z) : qst :=
  s2 <| qk ::= λ k, k <| sch ::= λ h, h <| cpus ::= <[c := x2 <| currentContext := ctx |>]> |> |> |> <| interrupts := false |>.
Definition at_level (l : Z) (k : kst) : kst := k <| irq ::= set_level l |>.

Lemma set_context_eq s c x ctx :
  cpus (sch (qk s)) !! c = Some x →
  set_context c ctx s = Ret () (s <| qk ::= λ k, k <| sch ::= λ h, h <| cpus ::= <[c := x <| currentContext := ctx |>]> |> |> |>).
Proof. intros Hx. unfold set_context. by erewrite qkern_Ret by (unfold set_cpu; rewrite Hx; reflexivity). Qed.

Lemma cpu_ptr_eq s c : this_cpu (irq (qk s)) = Some c → qkern CoreS_GetCPULocalPtr s = Ret c s.
Proof.
  intros Hc. erewrite qkern_Ret by (unfold CoreS_GetCPULocalPtr; rewrite (bind_Ret _ _ _ _ _ (gets_eq _ _)), Hc; reflexivity).
  by destruct s.
Qed.

(** What the handler of an interrupt has to leave behind: the level and the processor
    it was called on.  It may queue DPCs and change anything else. *)
Record handler_left (s2 : qst) (c : nat) (x2 : cpu_local) (l : Z) : Prop := {
  hl_wf : irq_wf (irq (qk s2)) l;
  hl_cpu : this_cpu (irq (qk s2)) = Some c ∧ cpus (sch (qk s2)) !! c = Some x2
}.

(** After the search, with the object [o] found. *)
Lemma serve_found s N v c x i0 o ob mine s2 x2 :
  let l := OBOS_IRQ_VECTOR_ID_TO_IRQL v in
  interruptible s N v c x i0 → (∀ s, Arch_LAPICSendEOI s = Ret () s) → checkers s N v mine →
  claimant s N v mine = Some o → o ≠ 0 → irqs s !! o = Some ob →
  (if truthy (irq_handler ob) then handler_call (irq_handler ob) o v (handlerUserdata ob) i0 (serving s c x l) = Ret () s2 else s2 = serving s c x l) →
  handler_left s2 c x2 l →
  Core_IRQDispatcher v s = qkern (Core_LowerIrqlNoThread i0) (served s2 c x2 (currentContext x)).
Proof.
  intros l Hi Heoi Hch Ecl Ho0 Hob Hh [Hwf2 [Hc2 Hx2]]. pose proof Hi as [H Hv Hne Hwf Hlev [Hc Hx]].
  pose proof (find_irq_eq s N v c x l mine H Hv Hne Hch) as Ef. rewrite Ecl in Ef. change (default 0 (Some o)) with o in Ef.
  rewrite (dispatch_enter s N v c x i0 Hi Heoi). fold l. unfold serve_irq.
  erewrite bind_Ret by exact Ef. erewrite bind_Ret by (apply cpu_ptr_eq; simpl; by rewrite set_level_this).
  rewrite (proj2 (truthy_true o)) by done. cbn [negb].
  unfold get_irq. erewrite bind_Ret by (apply load_eq; exact Hob).
  assert (when (truthy (irq_handler ob)) (handler_call (irq_handler ob) o v (handlerUserdata ob) i0) (serving s c x l) = Ret () s2) as Ew.
  { unfold when. destruct (truthy (irq_handler ob)); [done|by subst]. }
  erewrite bind_Ret by exact Ew. erewrite bind_Ret by (by apply cpu_ptr_eq).
  erewrite bind_Ret by (by apply set_context_eq). by erewrite bind_Ret by apply modify_eq.
Qed.

(** [C7] An interrupt on a vector that has objects calls the handler of the object it
    belongs to, and no other: of the one object, or on a shared vector of the first
    whose checker claims it. The handler runs at the level of the vector, in the
    kernel's address space, with interrupts enabled; it may change anything and queue
    deferred procedure calls, if it returns on the same processor at the same level.
    Afterwards the processor has its address space back, interrupts are disabled, and
    the level is the one from before; if that is below [IRQL_DISPATCH], the calls queued
    on the processor have been run in order before, at [IRQL_DISPATCH]. An interrupt no
    object claims only leaves interrupts disabled. It is assumed that every object on
    the vector has a checker, that checkers answer and change nothing, that the handlers
    of deferred calls return and leave those still queued in place ([handlers_ok]), and
    that the acknowledgement to the controller changes nothing of the state modelled. *)
Theorem irq_dispatch_correct I s N v c x i0 mine :
  let l := OBOS_IRQ_VECTOR_ID_TO_IRQL v in
  interruptible s N v c x i0 → (∀ s, Arch_LAPICSendEOI s = Ret () s) → checkers s N v mine →
  handlers_ok I c → (∀ k, I k → irq_wf (irq k) IRQL_DISPATCH) →
  match claimant s N v mine with
  | None => Core_IRQDispatcher v s = Ret () (s <| interrupts := false |>)
  | Some o => ∃ ob, irqs s !! o = Some ob ∧
      ∀ s2 x2, (if truthy (irq_handler ob) then handler_call (irq_handler ob) o v (handlerUserdata ob) i0 (serving s c x l) = Ret () s2 else s2 = serving s c x l) →
        handler_left s2 c x2 l →
        let s3 := served s2 c x2 (currentContext x) in
        if i0 <? IRQL_DISPATCH then
          ∀ xs, I (at_level IRQL_DISPATCH (qk s3)) → dpc_rep (irq (qk s2)) c xs → Z.of_nat (length xs) < 2 ^ 64 →
            (∀ d, d ∈ xs → is_Some (dpc_objs (irq (qk s2)) !! d)) →
            ∃ k post, handled c [] xs (at_level IRQL_DISPATCH (qk s3)) post k ∧ dpc_rep (irq k) c post ∧
              Core_IRQDispatcher v s = Ret () (s3 <| qk := at_level i0 k |>)
        else Core_IRQDispatcher v s = Ret () (s3 <| qk ::= at_level i0 |>)
  end.
Proof.
  intros l Hi Heoi Hch Hok HI. pose proof Hi as [H Hv Hne Hwf Hlev [Hc Hx]]. pose proof (vector_level v Hv) as Hl. fold l in Hl, Hlev.
  pose proof (wf_range _ _ Hwf). pose proof (wf_not1 _ _ Hwf).
  destruct (claimant s N v mine) as [o|] eqn:Ecl.
  - assert (o ∈ objects s N v) as Hin.
    { unfold claimant in Ecl. destruct (attrs s v) as [[[? []] ?]|]; apply head_Some_elem in Ecl;
        [by apply list_elem_of_filter in Ecl as [_ ?]|done|done]. }
    destruct (ii_obj _ _ H v o Hv Hin) as (Ho0 & ob & Hob & _). exists ob. split; [done|]. intros s2 x2 Hh Hleft s3.
    rewrite (serve_found s N v c x i0 o ob mine s2 x2) by done. fold s3. pose proof Hleft as [Hwf2 [Hc2 Hx2]].
    destruct (Z.ltb_spec i0 IRQL_DISPATCH) as [Hlt|Hge].
    + intros xs HIs Hrep Hlen Hobj.
      destruct (dispatch_runs_all I (at_level IRQL_DISPATCH (qk s3)) c xs) as (k & post & E & Hh' & Hpost & HIk); try done.
      { simpl. by rewrite set_level_this. }
      { destruct Hrep as (q & Hq & Hrep). exists q. simpl. by rewrite set_level_dpcs, set_level_dpc_links. }
      { simpl. by rewrite set_level_dpc_objs. }
      exists k, post. split; [done|]. split; [done|].
      erewrite qkern_Ret by (eapply (Core_LowerIrqlNoThread_pending _ l i0 c k); [done|lia|done|done|done|exact E|by apply HI]). done.
    + erewrite qkern_Ret by (eapply (Core_LowerIrqlNoThread_above _ l); [done|lia]). by destruct s3.
  - pose proof (find_irq_eq s N v c x l mine H Hv Hne Hch) as Ef. rewrite Ecl in Ef.
    rewrite (dispatch_enter s N v c x i0 Hi Heoi). fold l. unfold serve_irq.
    erewrite bind_Ret by exact Ef. erewrite bind_Ret by (apply cpu_ptr_eq; simpl; by rewrite set_level_this).
    change (truthy (default 0 None)) with false. cbn [negb].
    erewrite bind_Ret by (eapply set_context_eq; simpl; rewrite list_lookup_insert_eq by (by eapply lookup_lt_Some); reflexivity).
    erewrite bind_Ret by (apply qkern_Ret; eapply Core_LowerIrqlNoDPCDispatch_eq; simpl; [eapply level_wf; [exact Hwf|lia|lia]|lia|lia]).
    unfold CoreS_ExitIRQHandler. rewrite modify_eq. f_equal. simpl. rewrite set_level_level, set_level_id by apply Hwf.
    rewrite list_insert_insert_eq, list_insert_id by (rewrite Hx; by destruct x). by destruct s as [[? [] ?] ? ? ? ? ? ? ?].
Qed.

End dispatch.
