(* ===== verification/Paging.v ===== *)
(** * Page tables of the x86-64 port ([arch/x86_64/map.c])

    Physical memory in use is a map from the addresses of its 8-byte words;
    the direct map adds a constant to a physical address, so a pointer into it
    is the physical address.  A page table is a page of 512 entries. *)

From S2P Require Import Prelude DList KState Irql ThreadList Pmm.

(** ** Data *)

Definition OBOS_HUGE_PAGE_SIZE : Z := 0x200000.

(** The [prot] of a [page] ([mm/page.h]). *)
Record page_prot := mkProt {
  present : bool; rw : bool; user : bool; touched : bool; huge_page : bool; executable : bool; uc : bool; ro : bool
}.
#[export] Instance eta_page_prot : Etable page_prot :=
  λ r, mkProt (present r) (rw r) (user r) (touched r) (huge_page r) (executable r) (uc r) (ro r).
Definition zero_prot : page_prot := mkProt false false false false false false false false.

(** A translation the processor has cached: the frame, the rights, and whether it
    is part of a large page. *)
Record cached := mkCached { t_frame : Z; t_w : bool; t_u : bool; t_x : bool; t_huge : bool }.

(** [tlb] are the cached translations of the current address space, by page
    number; [efer_nxe] is the bit of [IA32_EFER] that enables the XD bit. *)
Record gst := mkGst {
  pm : mst;
  words : gmap Z Z;
  cr3 : Z;
  efer_nxe : bool;
  tlb : gmap Z cached;
  Arch_SMPInitialized : bool
}.
#[export] Instance eta_gst : Etable gst :=
  λ r, mkGst (pm r) (words r) (cr3 r) (efer_nxe r) (tlb r) (Arch_SMPInitialized r).

(** The physical memory manager as the page tables use it, and the interprocessor
    interrupt that invalidates a page elsewhere. *)
Class PagingEnv := {
  frame_alloc : Z → Z → option obos_status → K gst (Z * option obos_status);
  frame_free : Z → Z → K gst obos_status;
  shootdown : Z → K gst ()
}.

Definition load_word (a : Z) : K gst Z := load words a.
Definition store_word (a v : Z) : K gst () := store words (λ m s, s <| words := m |>) a (λ _, v).

(** [memzero] and [memcmp_b] with zero, on [n] words. *)
Fixpoint zero_words (n : nat) (a : Z) : K gst () :=
  match n with
  | O => mret ()
  | Datatypes.S n => store_word a 0;; zero_words n (a + 8)
  end.
Fixpoint words_zero (n : nat) (a : Z) : K gst bool :=
  match n with
  | O => mret true
  | Datatypes.S n => v ← load_word a; if truthy v then mret false else words_zero n (a + 8)
  end.
Definition PT_ENTRIES : nat := 512.

(** ** Walking the tables *)

Definition AddressToIndex (address level : Z) : Z := Z.land (Z.shiftr address (9 * level + 12)) 0x1FF.
Definition Arch_MaskPhysicalAddressFromEntry (phys : Z) : Z := Z.land phys 0xffffffffff000.
Definition entry_of (table address level : Z) : Z := table + 8 * AddressToIndex address level.

(** The entry of the table an entry of the level above points to. *)
Definition next_entry (entry address level : Z) : K gst Z :=
  let phys := Arch_MaskPhysicalAddressFromEntry entry in
  if negb (truthy phys) then mret 0 else load_word (entry_of phys address level).

Definition Arch_GetPML4Entry (pml4Base addr : Z) : K gst Z :=
  if negb (truthy pml4Base) then mret 0
  else load_word (entry_of (Arch_MaskPhysicalAddressFromEntry pml4Base) addr 3).
Definition Arch_GetPML3Entry (pml4Base addr : Z) : K gst Z :=
  e ← Arch_GetPML4Entry pml4Base addr; next_entry e addr 2.
Definition Arch_GetPML2Entry (pml4Base addr : Z) : K gst Z :=
  e ← Arch_GetPML3Entry pml4Base addr; next_entry e addr 1.
Definition Arch_GetPML1Entry (pml4Base addr : Z) : K gst Z :=
  e ← Arch_GetPML2Entry pml4Base addr; next_entry e addr 0.

Definition GetPageMapEntryForDepth (pml4Base addr depth : Z) : K gst Z :=
  if depth =? 1 then Arch_GetPML2Entry pml4Base addr
  else if depth =? 2 then Arch_GetPML3Entry pml4Base addr
  else if depth =? 3 then Arch_GetPML4Entry pml4Base addr
  else mret 0.

(** [1UL << n] and the like. *)
Definition bit (n : Z) : Z := Z.shiftl 1 n.
Definition canonical (at_ : Z) : bool := (Z.shiftr at_ 47 =? 0) || (Z.shiftr at_ 47 =? 0x1ffff).

Section ops.
Context {PE : PagingEnv}.

(** ** Tables *)

(** The body of the loop: the table of level [i] gets an entry. *)
Definition allocate_level (pml4Base at_ cpuFlags i : Z) : K gst () :=
  table ← (if i + 1 =? 4 then mret pml4Base
           else e ← GetPageMapEntryForDepth pml4Base at_ (i + 1); mret (Arch_MaskPhysicalAddressFromEntry e));
  entry ← load_word (entry_of table at_ i);
  if negb (truthy entry) then
    r ← frame_alloc 1 1 None;
    zero_words PT_ENTRIES r.1;;
    store_word (entry_of table at_ i) (Z.lor r.1 cpuFlags)
  else
    let entry := if has_flag entry (bit 63) && negb (has_flag cpuFlags (bit 63)) then Z.ldiff entry (bit 63) else entry in
    let entry := if negb (has_flag entry (bit 2)) && has_flag cpuFlags (bit 2) then Z.lor entry (bit 2) else entry in
    let entry := if negb (has_flag entry (bit 1)) && has_flag cpuFlags (bit 1) then Z.lor entry (bit 1) else entry in
    store_word (entry_of table at_ i) entry.

(** The levels from [i] down, [n] of them. *)
Fixpoint allocate_levels (n : nat) (pml4Base at_ cpuFlags i : Z) : K gst () :=
  match n with
  | O => mret ()
  | Datatypes.S n => allocate_level pml4Base at_ cpuFlags i;; allocate_levels n pml4Base at_ cpuFlags (i - 1)
  end.

(** The flags of the entries that point to tables. *)
Definition table_flags (cpuFlags : Z) : Z :=
  let cpuFlags := Z.lor (Z.ldiff cpuFlags 0xfffffffff0000) 1 in
  let cpuFlags := Z.ldiff (Z.ldiff (Z.ldiff cpuFlags (bit 3)) (bit 4)) (bit 7) in
  Z.ldiff cpuFlags 0x07F0000000000E00.

Definition Arch_AllocatePageMapAt (pml4Base at_ cpuFlags depth : Z) : K gst (option Z) :=
  if (3 <? depth) || (depth =? 0) then mret None else
  allocate_levels (Z.to_nat depth) pml4Base at_ (table_flags cpuFlags) 3;;
  e ← GetPageMapEntryForDepth pml4Base at_ (4 - depth);
  mret (Some (Arch_MaskPhysicalAddressFromEntry e)).

(** The body of the loop: the table below level [i] is freed when it is empty. *)
Definition free_level (pml4Base at_ i : Z) : K gst () :=
  e ← GetPageMapEntryForDepth pml4Base at_ (i + 1);
  if negb (has_flag e 1) then mret () else
  e ← GetPageMapEntryForDepth pml4Base at_ (i + 1);
  let pageMap := Arch_MaskPhysicalAddressFromEntry e in
  sub ← load_word (entry_of pageMap at_ i);
  let phys := Arch_MaskPhysicalAddressFromEntry sub in
  empty ← words_zero PT_ENTRIES phys;
  when empty (store_word (entry_of pageMap at_ i) 0;; frame_free phys 1;; mret ()).

Fixpoint free_levels (n : nat) (pml4Base at_ i : Z) : K gst () :=
  match n with
  | O => mret ()
  | Datatypes.S n => free_level pml4Base at_ i;; free_levels n pml4Base at_ (i + 1)
  end.

Definition Arch_FreePageMapAt (pml4Base at_ maxDepth : Z) : K gst bool :=
  if (3 <? maxDepth) || (maxDepth =? 0) then mret false else
  free_levels (Z.to_nat maxDepth) pml4Base at_ (4 - maxDepth);;
  mret true.

(** ** Cached translations *)

(** The page number of an address, in the 48 bits that are translated. *)
Definition vpn (a : Z) : Z := (a / 4096) mod 2 ^ 36.

(** [invlpg]: the cached translation of the page that has the address goes, for a
    large page all of it. *)
Definition invlpg (at_ : Z) : K gst () :=
  modify (λ s, s <| tlb ::= filter (λ p : Z * cached,
    ¬ (p.1 = vpn at_ ∨ (t_huge p.2 = true ∧ p.1 / 512 = vpn at_ / 512))) |>).

Definition invlpg_impl (at_ : Z) : K gst obos_status :=
  invlpg at_;;
  smp ← gets Arch_SMPInitialized;
  n ← gets (λ s, Z.of_nat (length (cpus (sch (mk (pm s))))));
  if negb smp || (n =? 1) then mret OBOS_STATUS_SUCCESS else
  shootdown at_;;
  mret OBOS_STATUS_SUCCESS.

(** ** Mapping *)

Definition Arch_MapPage (cr3 at_ phys flags : Z) : K gst obos_status :=
  if negb (canonical at_) then mret OBOS_STATUS_INVALID_ARGUMENT else
  let flags := Z.lor flags 1 in
  if truthy (Z.land phys 0xfff) || truthy (Z.land at_ 0xfff) then mret OBOS_STATUS_INVALID_ARGUMENT else
  nxe ← gets efer_nxe;
  let flags := if negb nxe then Z.ldiff flags (bit 63) else flags in
  let phys := Arch_MaskPhysicalAddressFromEntry phys in
  o ← Arch_AllocatePageMapAt cr3 at_ flags 3;
  table ← deref_opt o;
  old ← load_word (entry_of table at_ 0);
  store_word (entry_of table at_ 0) (Z.lor phys flags);;
  when (has_flag old 1) (invlpg_impl at_;; mret ());;
  mret OBOS_STATUS_SUCCESS.

Definition Arch_MapHugePage (cr3 at_ phys flags : Z) : K gst obos_status :=
  if negb (canonical at_) then mret OBOS_STATUS_INVALID_ARGUMENT else
  let flags := Z.lor flags 1 in
  if truthy (Z.land phys 0x1fffff) || truthy (Z.land at_ 0x1fffff) then mret OBOS_STATUS_INVALID_ARGUMENT else
  nxe ← gets efer_nxe;
  let flags := if negb nxe then Z.ldiff flags (bit 63) else flags in
  let flags := if has_flag flags (bit 7) then Z.lor flags (bit 12) else flags in
  let phys := Arch_MaskPhysicalAddressFromEntry phys in
  o ← Arch_AllocatePageMapAt cr3 at_ flags 2;
  table ← deref_opt o;
  old ← load_word (entry_of table at_ 1);
  store_word (entry_of table at_ 1) (Z.lor (Z.lor phys flags) (bit 7));;
  when (has_flag old 1) (invlpg_impl at_;; mret ());;
  mret OBOS_STATUS_SUCCESS.

Definition Arch_UnmapPage (cr3 at_ : Z) : K gst obos_status :=
  if negb (canonical at_) then mret OBOS_STATUS_INVALID_ARGUMENT else
  if truthy (Z.land at_ 0xfff) then mret OBOS_STATUS_INVALID_ARGUMENT else
  entry ← Arch_GetPML2Entry cr3 at_;
  if negb (has_flag entry 1) then mret OBOS_STATUS_SUCCESS else
  let isHugePage := has_flag entry (bit 7) in
  entry ← (if isHugePage then Arch_GetPML3Entry cr3 at_ else mret entry);
  if negb (has_flag entry 1) then mret OBOS_STATUS_SUCCESS else
  let pt := Arch_MaskPhysicalAddressFromEntry entry in
  store_word (entry_of pt at_ (if isHugePage then 1 else 0)) 0;;
  Arch_FreePageMapAt cr3 at_ (3 - (if isHugePage then 1 else 0));;
  invlpg_impl at_.

Definition OBOSS_MapPage_RW_XD (at_ phys : Z) : K gst obos_status :=
  cr3 ← gets cr3; Arch_MapPage cr3 at_ phys 0x8000000000000003.
Definition OBOSS_UnmapPage (at_ : Z) : K gst obos_status :=
  cr3 ← gets cr3; Arch_UnmapPage cr3 at_.

(** The status and, when it is written, [*oPhys]. *)
Definition OBOSS_GetPagePhysicalAddress (at_ : Z) (oPhys : bool) : K gst (obos_status * option Z) :=
  if negb (canonical at_) then mret (OBOS_STATUS_INVALID_ARGUMENT, None) else
  if negb oPhys then mret (OBOS_STATUS_INVALID_ARGUMENT, None) else
  cr3 ← gets cr3;
  entry ← Arch_GetPML2Entry cr3 at_;
  if negb (has_flag entry 1) then mret (OBOS_STATUS_SUCCESS, Some 0) else
  let isHugePage := has_flag entry (bit 7) in
  entry ← (if isHugePage then Arch_GetPML3Entry cr3 at_ else mret entry);
  if negb (has_flag entry 1) then mret (OBOS_STATUS_SUCCESS, Some 0) else
  e ← load_word (entry_of (Arch_MaskPhysicalAddressFromEntry entry) at_ (if isHugePage then 1 else 0));
  mret (OBOS_STATUS_SUCCESS, Some (Arch_MaskPhysicalAddressFromEntry e)).

(** The entries from index [i] on, [n] of them, of a table of level [level]; the
    tables below are freed with their tables. *)
Fixpoint free_entries (level : nat) : Z → nat → Z → K gst () :=
  fix entries (pm : Z) (n : nat) (i : Z) : K gst () :=
    match n with
    | O => mret ()
    | Datatypes.S n =>
        e ← load_word (pm + 8 * i);
        (if negb (truthy e) then mret () else
         if has_flag e (bit 7) then mret () else
         match level with
         | O => mret ()
         | Datatypes.S level =>
             let sub := Arch_MaskPhysicalAddressFromEntry e in
             when (truthy sub) (free_entries level sub PT_ENTRIES 0);;
             e ← load_word (pm + 8 * i);
             frame_free (Arch_MaskPhysicalAddressFromEntry e) 1;; mret ()
         end);;
        entries pm n (i + 1)
    end.
Definition FreePageTables (pm : Z) (level beginIndex : nat) : K gst () :=
  when (truthy pm) (free_entries level pm (PT_ENTRIES - beginIndex) (Z.of_nat beginIndex)).

(** ** Protection *)

(** [ppage] are the address and the protection of the page that is filled in. *)
Definition MmS_QueryPageInfo (pt addr : Z) (ppage : option (Z * page_prot))
  : K gst (obos_status * option (Z * page_prot)) :=
  match ppage with
  | None => mret (OBOS_STATUS_INVALID_ARGUMENT, None)
  | Some p =>
      if negb (truthy pt) then mret (OBOS_STATUS_INVALID_ARGUMENT, ppage) else
      pml2Entry ← Arch_GetPML2Entry pt addr;
      pml1Entry ← Arch_GetPML1Entry pt addr;
      if negb (has_flag pml2Entry 1) then mret (OBOS_STATUS_SUCCESS, Some (p.1, zero_prot)) else
      let huge := has_flag pml2Entry (bit 7) in
      let addr := if huge then Z.ldiff addr 0x1fffff else Z.ldiff addr 0xfff in
      let entry := if huge then pml2Entry else pml1Entry in
      let prot := mkProt (if huge then true else has_flag pml1Entry 1) (has_flag entry (bit 1)) (has_flag entry (bit 2))
        (has_flag entry (Z.lor (bit 5) (bit 6))) huge (negb (has_flag entry (bit 63))) false false in
      table ← (if huge then Arch_GetPML3Entry pt addr else mret pml2Entry);
      let slot := entry_of (Arch_MaskPhysicalAddressFromEntry table) addr (if huge then 1 else 0) in
      e ← load_word slot;
      store_word slot (Z.ldiff e (Z.lor (bit 5) (bit 6)));;
      mret (OBOS_STATUS_SUCCESS, Some (addr, prot))
  end.

Definition MmS_SetPageMapping (pt : Z) (page : option (Z * page_prot)) (phys : Z) : K gst obos_status :=
  match page with
  | None => mret OBOS_STATUS_INVALID_ARGUMENT
  | Some (addr, prot) =>
      if negb (truthy pt) then mret OBOS_STATUS_INVALID_ARGUMENT else
      if negb (present prot) then Arch_UnmapPage pt addr else
      let flags := 1 in
      let flags := if rw prot then Z.lor flags (bit 1) else flags in
      let flags := if user prot then Z.lor flags (bit 2) else flags in
      let flags := if negb (executable prot) then Z.lor flags (bit 63) else flags in
      if negb (huge_page prot) then Arch_MapPage pt (Z.ldiff addr 0xfff) phys flags
      else Arch_MapHugePage pt (Z.ldiff addr 0x1fffff) phys flags
  end.

End ops.
