(* ===== verification/PagingProofs.v ===== *)
(** * The page tables implement an address space

    [walk] is what the processor does with the tables.  The invariant [ptree]
    says that the tables form a tree whose upper entries grant at least what the
    entries below grant; under it the address space [walk] gives is changed by
    mapping and unmapping exactly at the page concerned. *)

From S2P Require Import Prelude DList KState Irql ThreadList Pmm Paging.

Abbreviation mask := Arch_MaskPhysicalAddressFromEntry.

(** ** The translation of the processor *)

(** Rights: write, user mode, execution. *)
Record rights := mkR { r_w : bool; r_u : bool; r_x : bool }.
Definition rmeet (a b : rights) : rights := mkR (r_w a && r_w b) (r_u a && r_u b) (r_x a && r_x b).
Definition rle (a b : rights) : Prop := (r_w a → r_w b) ∧ (r_u a → r_u b) ∧ (r_x a → r_x b).
Definition e_rights (e : Z) : rights := mkR (Z.testbit e 1) (Z.testbit e 2) (negb (Z.testbit e 63)).

(** The index of page [v] in a table of level [l]. *)
Definition idx (l : nat) (v : Z) : Z := v / 512 ^ Z.of_nat l mod 512.
Definition slot (f : Z) (l : nat) (v : Z) : Z := f + 8 * idx l v.

(** The frame of the page number [v], whether it is part of a large page, and the
    rights, from the table [f] of level [l] on.  An entry with bit 7 above the
    lowest level is a large page. *)
Fixpoint walk (w : gmap Z Z) (l : nat) (f v : Z) : option (Z * bool * rights) :=
  e ← w !! slot f l v;
  if negb (Z.testbit e 0) then None else
  match l with
  | O => Some (mask e, false, e_rights e)
  | Datatypes.S l' =>
      if Z.testbit e 7 then Some (Z.ldiff (mask e) 0x1fffff + 4096 * (v mod 512 ^ Z.of_nat l), true, e_rights e)
      else (λ r, (r.1, rmeet (e_rights e) r.2)) <$> walk w l' (mask e) v
  end.

(** The address space of the tables at [root]. *)
Definition translate (s : gst) (root v : Z) : option (Z * bool * rights) := walk (words s) 3 root v.

Lemma rle_refl a : rle a a.
Proof. by split_and!. Qed.
Lemma rle_trans a b c : rle a b → rle b c → rle a c.
Proof. unfold rle. naive_solver. Qed.
Lemma rmeet_le_r a b : rle (rmeet a b) b.
Proof. destruct a, b. unfold rle. simpl. repeat split; intros [_ ?]%andb_True; done. Qed.
Lemma rmeet_absorb a b : rle b a → rmeet a b = b.
Proof.
  destruct a as [aw au ax], b as [bw bu bx]. intros (H1 & H2 & H3). unfold rmeet. simpl in *.
  f_equal; [destruct bw, aw|destruct bu, au|destruct bx, ax]; naive_solver.
Qed.

(** ** Index arithmetic *)

Lemma idx_range l v : 0 <= idx l v < 512.
Proof. apply Z.mod_pos_bound. lia. Qed.

Lemma idx_split l v : v / 512 ^ Z.of_nat l = v / 512 ^ Z.of_nat (S l) * 512 + idx l v.
Proof.
  unfold idx. rewrite Nat2Z.inj_succ, Z.pow_succ_r, (Z.mul_comm 512), <- Z.div_div by lia.
  pose proof (Z.div_mod (v / 512 ^ Z.of_nat l) 512 ltac:(lia)). lia.
Qed.

Lemma split_prefix p i : 0 <= i < 512 → (p * 512 + i) / 512 = p ∧ (p * 512 + i) mod 512 = i.
Proof. intros Hi. rewrite Z.add_comm, Z.div_add, Z.mod_add, Z.div_small, Z.mod_small by lia. lia. Qed.

Lemma idx_0 v : v / 512 ^ Z.of_nat 0 = v.
Proof. apply Z.div_1_r. Qed.

Lemma AddressToIndex_eq a l : AddressToIndex a (Z.of_nat l) = idx l (vpn a) ∨ (3 < l)%nat.
Proof.
  destruct (decide (3 < l)%nat) as [|Hl]; [by right|left]. unfold AddressToIndex, idx, vpn.
  rewrite Z.shiftr_div_pow2 by lia. change 0x1FF with (Z.ones 9). rewrite Z.land_ones by lia. change (2 ^ 9) with 512.
  replace (9 * Z.of_nat l + 12) with (12 + 9 * Z.of_nat l) by lia. rewrite Z.pow_add_r by lia.
  rewrite <- Z.div_div by lia. change (2 ^ 12) with 4096. rewrite Z.pow_mul_r by lia. change (2 ^ 9) with 512.
  set (x := a / 4096). assert (0 < 512 ^ Z.of_nat l) by (apply Z.pow_pos_nonneg; lia).
  assert (2 ^ 36 = 512 ^ Z.of_nat l * 512 ^ (4 - Z.of_nat l)) as ->.
  { rewrite <- Z.pow_add_r by lia. by replace (Z.of_nat l + (4 - Z.of_nat l)) with 4 by lia. }
  rewrite Z.rem_mul_r by (try apply Z.pow_pos_nonneg; lia). rewrite Z.add_comm, Z.mul_comm, Z.div_add_l by lia.
  rewrite (Z.div_small (x mod _)) by (apply Z.mod_pos_bound; lia). rewrite Z.add_0_r.
  apply Znumtheory.Zmod_div_mod; [lia|apply Z.pow_pos_nonneg; lia|].
  exists (512 ^ (3 - Z.of_nat l)). replace (4 - Z.of_nat l) with (Z.succ (3 - Z.of_nat l)) by lia.
  rewrite Z.pow_succ_r by lia. lia.
Qed.

Lemma entry_of_slot f a l : (l <= 3)%nat → entry_of f a (Z.of_nat l) = slot f l (vpn a).
Proof. intros Hl. unfold entry_of, slot. destruct (AddressToIndex_eq a l); [congruence|lia]. Qed.

Lemma vpn_range a : 0 <= vpn a < 2 ^ 36.
Proof. apply Z.mod_pos_bound. lia. Qed.

(** ** The tree of tables

    [T] gives the tables: their level and the part of the page numbers they
    translate, the table of level [l] for the prefix [p] being used for the page
    numbers [v] with [v / 512 ^ (l + 1) = p]. *)

Definition prefix (l : nat) (v : Z) : Z := v / 512 ^ Z.of_nat (S l).

(** The pages the entry of level [l] for [v] is used for. *)
Abbreviation same_entry l v := (λ u : Z, u / 512 ^ Z.of_nat l = v / 512 ^ Z.of_nat l).

(** The entry [i] of a table for the prefix [p] is used for these page numbers. *)
Definition under (l : nat) (p i v : Z) : Prop := v / 512 ^ Z.of_nat l = p * 512 + i.
#[global] Instance under_dec l p i v : Decision (under l p i v) := Z.eq_dec _ _.

Record ptree (w : gmap Z Z) (root : Z) (T : gmap Z (nat * Z)) : Prop := {
  pt_root : T !! root = Some (3%nat, 0);
  pt_inj f g x : T !! f = Some x → T !! g = Some x → f = g;
  pt_frame f l p : T !! f = Some (l, p) → 0 < f < 2 ^ 52 ∧ f mod 4096 = 0 ∧ (l <= 3)%nat;
  pt_words f x i : T !! f = Some x → 0 <= i < 512 → is_Some (w !! (f + 8 * i));
  pt_entry f l p i e : T !! f = Some (S l, p) → 0 <= i < 512 → w !! (f + 8 * i) = Some e → e ≠ 0 →
    Z.testbit e 0 = true ∧ if Z.testbit e 7 then l = 0%nat else T !! mask e = Some (l, p * 512 + i);
  pt_parent f l p : T !! f = Some (l, p) → (l < 3)%nat → ∃ h e, T !! h = Some (S l, p / 512) ∧
    w !! (h + 8 * (p mod 512)) = Some e ∧ e ≠ 0 ∧ Z.testbit e 7 = false ∧ mask e = f;
  pt_perm f l p i e v r : T !! f = Some (S l, p) → 0 <= i < 512 → w !! (f + 8 * i) = Some e → e ≠ 0 →
    Z.testbit e 7 = false → v / 512 ^ Z.of_nat (S l) = p * 512 + i → walk w l (mask e) v = Some r → rle r.2 (e_rights e)
}.

Lemma slot_inj f g i j : f mod 4096 = 0 → g mod 4096 = 0 → 0 <= i < 512 → 0 <= j < 512 →
  f + 8 * i = g + 8 * j → f = g ∧ i = j.
Proof.
  intros Hf Hg Hi Hj E.
  pose proof (Z.div_mod f 4096 ltac:(lia)). pose proof (Z.div_mod g 4096 ltac:(lia)). lia.
Qed.

#[local] Arguments Z.testbit : simpl never.

Section tree.
Context (w : gmap Z Z) (root : Z) (T : gmap Z (nat * Z)).
Context (Ht : ptree w root T).
Set Default Proof Using "Type*".

Lemma slot_other f g x y i j : T !! f = Some x → T !! g = Some y → 0 <= i < 512 → 0 <= j < 512 →
  f ≠ g ∨ i ≠ j → f + 8 * i ≠ g + 8 * j.
Proof.
  destruct x, y. intros Hf Hg Hi Hj Hne E. destruct (pt_frame _ _ _ Ht f _ _ Hf) as (_ & Hfa & _).
  destruct (pt_frame _ _ _ Ht g _ _ Hg) as (_ & Hga & _). destruct (slot_inj f g i j Hfa Hga Hi Hj E). naive_solver.
Qed.

(** An entry that is not zero and not a large page points to the table of the
    next level for the page. *)
Lemma child f l v e : T !! f = Some (S l, prefix (S l) v) → w !! slot f (S l) v = Some e → e ≠ 0 →
  Z.testbit e 7 = false → T !! mask e = Some (l, prefix l v).
Proof.
  intros Hf He H0 H7. destruct (pt_entry _ _ _ Ht _ _ _ _ _ Hf (idx_range _ _) He H0) as [_ H]. rewrite H7 in H.
  rewrite H. unfold prefix. by rewrite <- idx_split.
Qed.

(** Memories that agree on the path of [v] below the table [g], except for one
    table below which they translate [v] alike, translate it alike.  [Q] holds of
    the tables the path may go through before that one. *)
Lemma walk_agree_on (Q : Z → Prop) w' f lf pf v m g :
  (∀ h k e, T !! h = Some (S k, prefix (S k) v) → w !! slot h (S k) v = Some e → e ≠ 0 → Z.testbit e 7 = false →
     Q h → h ≠ f → Q (mask e)) →
  T !! f = Some (lf, pf) → Q g → T !! g = Some (m, prefix m v) →
  (∀ h k, T !! h = Some (k, prefix k v) → (k <= m)%nat → Q h → h ≠ f → w' !! slot h k v = w !! slot h k v) →
  (pf = prefix lf v → (lf <= m)%nat → walk w' lf f v = walk w lf f v) →
  walk w' m g v = walk w m g v.
Proof.
  intros HQ Hlf. revert g. induction m as [|m IH]; intros g Hq Hg Hag Hf.
  - destruct (decide (g = f)) as [->|Hne].
    + rewrite Hlf in Hg. injection Hg as -> ->. by apply Hf.
    + simpl. rewrite Hag by (done || lia). done.
  - destruct (decide (g = f)) as [->|Hne].
    + rewrite Hlf in Hg. injection Hg as -> ->. by apply Hf.
    + cbn [walk]. rewrite Hag by (done || lia). destruct (w !! slot g (S m) v) as [e|] eqn:Ee; [|done]. simpl.
      destruct (Z.testbit e 0) eqn:E0; [|done]. simpl. destruct (Z.testbit e 7) eqn:E7; [done|].
      assert (e ≠ 0) as H0 by (intros ->; by rewrite Z.testbit_0_l in E0).
      rewrite IH; [done|by eapply HQ|by eapply child|..].
      * intros h k Hh Hk. apply Hag; [done|lia].
      * intros Hp Hl. apply Hf; [done|lia].
Qed.

Lemma walk_agree w' f lf pf v m g :
  T !! f = Some (lf, pf) → T !! g = Some (m, prefix m v) →
  (∀ h k, T !! h = Some (k, prefix k v) → (k <= m)%nat → h ≠ f → w' !! slot h k v = w !! slot h k v) →
  (pf = prefix lf v → (lf <= m)%nat → walk w' lf f v = walk w lf f v) →
  walk w' m g v = walk w m g v.
Proof. intros Hf Hg Hag. eapply (walk_agree_on (λ _, True)); eauto. Qed.

(** Memories that agree on all tables. *)
Lemma walk_same w' v m g :
  (∀ f x i, T !! f = Some x → 0 <= i < 512 → w' !! (f + 8 * i) = w !! (f + 8 * i)) →
  T !! g = Some (m, prefix m v) → walk w' m g v = walk w m g v.
Proof.
  intros Hag. revert g. induction m as [|m IH]; intros g Hg; cbn [walk]; unfold slot; rewrite (Hag g _ _ Hg (idx_range _ _)); [done|].
  fold (slot g (S m) v). destruct (w !! slot g (S m) v) as [e|] eqn:Ee; [|done]. simpl. destruct (Z.testbit e 0) eqn:E0; [|done]. simpl.
  destruct (Z.testbit e 7) eqn:E7; [done|]. rewrite IH; [done|]. eapply child; [done|done| |done]. intros ->. by rewrite Z.testbit_0_l in E0.
Qed.
Lemma ptree_same w' :
  (∀ f x i, T !! f = Some x → 0 <= i < 512 → w' !! (f + 8 * i) = w !! (f + 8 * i)) → ptree w' root T.
Proof.
  intros Hag. pose proof Ht as [P1 P2 P3 P4 P5 P6 P7]. split; [done|done|done| | | |].
  - intros f x i Hf Hi. rewrite (Hag f x i) by done. by eapply P4.
  - intros f l p i e Hf Hi. rewrite (Hag f _ i) by done. by eapply P5.
  - intros f l p Hf Hl. destruct (P6 f l p Hf Hl) as (h & e & Hh & He & ?). exists h, e. split; [done|].
    rewrite (Hag h _ (p mod 512)) by (done || apply Z.mod_pos_bound; lia). done.
  - intros f l p i e v r Hf Hi He H0 H7 Hv. rewrite (Hag f _ i) in He by done. destruct (P5 f l p i e Hf Hi He H0) as [_ Hc]. rewrite H7 in Hc.
    rewrite walk_same; [by eapply P7|done|]. rewrite Hc. unfold prefix. by rewrite Hv.
Qed.

(** The tables above a table are on the path of its pages. *)
Lemma parent f l v : T !! f = Some (l, prefix l v) → (l < 3)%nat →
  ∃ h e, T !! h = Some (S l, prefix (S l) v) ∧ w !! slot h (S l) v = Some e ∧ e ≠ 0 ∧ Z.testbit e 7 = false ∧ mask e = f.
Proof.
  intros Hf Hl. destruct (pt_parent _ _ _ Ht f l _ Hf Hl) as (h & e & Hh & He & Hrest).
  assert (prefix l v / 512 = prefix (S l) v ∧ prefix l v mod 512 = idx (S l) v) as [E1 E2].
  { unfold prefix. rewrite (idx_split (S l) v). apply split_prefix, idx_range. }
  rewrite E1 in Hh. rewrite E2 in He. by exists h, e.
Qed.

Lemma path_entry f l v g k : T !! f = Some (l, prefix l v) → T !! g = Some (k, prefix k v) → (l < k)%nat →
  ∃ e, w !! slot g k v = Some e ∧ e ≠ 0 ∧ Z.testbit e 7 = false.
Proof.
  intros Hf Hg Hlk. remember (k - l)%nat as d eqn:Ed. revert f l Ed Hf Hlk. induction d as [|d IH]; intros f l Ed Hf Hlk; [lia|].
  destruct (pt_frame _ _ _ Ht g _ _ Hg) as (_ & _ & Hk3).
  destruct (parent f l v Hf) as (h & e & Hh & He & H0 & H7 & _); [lia|]. destruct (decide (k = S l)) as [->|Hne].
  - rewrite (pt_inj _ _ _ Ht g h _ Hg Hh). eauto.
  - apply (IH h (S l)); [lia|done|lia].
Qed.

(** The path of a page goes through every table for its prefix, and the entries
    above a table do not take rights away. *)
Lemma walk_down f l v : 0 <= v < 2 ^ 36 → T !! f = Some (l, prefix l v) → walk w 3 root v = walk w l f v.
Proof.
  intros Hv. remember (3 - l)%nat as d eqn:Ed. revert f l Ed. induction d as [|d IH]; intros f l Ed Hf.
  - destruct (pt_frame _ _ _ Ht f _ _ Hf) as (_ & _ & Hl3). assert (l = 3%nat) as -> by lia.
    rewrite (pt_inj _ _ _ Ht f root (3%nat, 0)); [done| |apply Ht]. rewrite Hf. unfold prefix.
    rewrite Z.div_small; [done|]. change (512 ^ Z.of_nat 4) with (2 ^ 36). done.
  - destruct (parent f l v Hf) as (h & e & Hh & He & H0 & H7 & Hm); [lia|].
    rewrite (IH h (S l)); [|lia|done]. destruct (pt_entry _ _ _ Ht _ _ _ _ _ Hh (idx_range _ _) He H0) as [Hp _].
    cbn [walk]. rewrite He. simpl. rewrite Hp, H7. simpl. rewrite Hm. destruct (walk w l f v) as [[a r]|] eqn:Er; [|done].
    simpl. do 2 f_equal. apply rmeet_absorb. apply (pt_perm _ _ _ Ht h l _ _ e v (a, r) Hh (idx_range (S l) v)); try done.
    + by rewrite (idx_split (S l) v).
    + by rewrite Hm.
Qed.

(** The rights of a translation are among those of the entry at its end. *)
Lemma walk_leaf_rights w' f l v m g e r :
  T !! f = Some (l, prefix l v) → T !! g = Some (m, prefix m v) → (l <= m)%nat →
  (∀ h k, T !! h = Some (k, prefix k v) → h ≠ f → w' !! slot h k v = w !! slot h k v) →
  w' !! slot f l v = Some e → (l = 0%nat ∨ e = 0 ∨ Z.testbit e 7 = true) → walk w' m g v = Some r →
  Z.testbit e 0 = true ∧ rle r.2 (e_rights e).
Proof.
  intros Hf. revert g r. induction m as [|m IH]; intros g r Hg Hlm Hag He Hleaf; cbn [walk].
  - assert (l = 0%nat) as -> by lia. assert (g = f) as -> by (eapply (pt_inj _ _ _ Ht); [exact Hg|exact Hf]).
    rewrite He. simpl. destruct (Z.testbit e 0); [|done]. simpl. intros [= <-]. split; [done|apply rle_refl].
  - destruct (decide (g = f)) as [->|Hne].
    + rewrite Hf in Hg. injection Hg as ->. rewrite He. simpl. destruct (Z.testbit e 0) eqn:E0; [|done]. simpl.
      destruct Hleaf as [?|[->| ->]]; [lia|by rewrite Z.testbit_0_l in E0|]. intros [= <-]. split; [done|apply rle_refl].
    + assert (l <> S m) as Hlm' by (intros ->; apply Hne; eapply (pt_inj _ _ _ Ht); [exact Hg|exact Hf]).
      destruct (path_entry f l v g (S m) Hf Hg) as (e' & Ee & H0 & H7); [lia|]. rewrite Hag, Ee by done. simpl.
      destruct (Z.testbit e' 0) eqn:E0; [|done]. simpl. rewrite H7.
      intros (r' & Hr' & ->)%fmap_Some_1. simpl. destruct (IH (mask e') r') as [? ?]; [|lia|done..|].
      { by eapply child. }
      split; [done|]. eapply rle_trans; [apply rmeet_le_r|done].
Qed.

(** ** Changing one entry *)

(** [w'] has [e'] as the entry [i] of the table [f], and is [w] at all others. *)
Definition entry_set (w' : gmap Z Z) (f i e' : Z) : Prop :=
  w' !! (f + 8 * i) = Some e' ∧
  ∀ h x j, T !! h = Some x → 0 <= j < 512 → h ≠ f ∨ j ≠ i → w' !! (h + 8 * j) = w !! (h + 8 * j).

Lemma entry_set_insert f x i e' : T !! f = Some x → 0 <= i < 512 → entry_set (<[f + 8 * i := e']> w) f i e'.
Proof.
  intros Hf Hi. split; [apply lookup_insert_eq|]. intros h y j Hh Hj Hne. apply lookup_insert_ne.
  by eapply slot_other; [..|naive_solver].
Qed.

Lemma under_prefix l p i v : 0 <= i < 512 → under l p i v → prefix l v = p ∧ idx l v = i.
Proof. unfold under. intros Hi H. rewrite idx_split in H. pose proof (idx_range l v). unfold prefix. lia. Qed.

(** Below an entry that is not used for the page nothing changes. *)
Lemma walk_other w' f l p i e' v m g :
  T !! f = Some (l, p) → 0 <= i < 512 → entry_set w' f i e' → ¬ under l p i v →
  T !! g = Some (m, prefix m v) → walk w' m g v = walk w m g v.
Proof.
  intros Hf Hi [_ Hag] Hv Hg. eapply walk_agree; [exact Hf|exact Hg| |].
  - intros h k Hh Hk Hne. eapply Hag; [exact Hh|apply idx_range|by left].
  - intros Hp _.
    assert (idx l v ≠ i) as Hi' by (intros <-; apply Hv; unfold under; rewrite idx_split; by rewrite Hp).
    assert (w' !! slot f l v = w !! slot f l v) as E by (eapply Hag; [exact Hf|apply idx_range|by right]).
    destruct l as [|l]; cbn [walk]; rewrite E; [done|]. destruct (w !! slot f (S l) v) as [e|] eqn:Ee; [|done]. simpl.
    destruct (Z.testbit e 0) eqn:E0; [|done]. simpl. destruct (Z.testbit e 7) eqn:E7; [done|].
    f_equal. eapply (walk_agree w' f (S l) p); [exact Hf| | |lia].
    + eapply child; [by rewrite <- Hp|exact Ee|intros ->; by rewrite Z.testbit_0_l in E0|done].
    + intros h k Hh Hk Hne. eapply Hag; [exact Hh|apply idx_range|by left].
Qed.

(** The tree after a change of an entry that keeps the tables. *)
Lemma ptree_set w' f lf p i e e' :
  T !! f = Some (lf, p) → 0 <= i < 512 → w !! (f + 8 * i) = Some e → entry_set w' f i e' →
  (∀ l, lf = S l → e' ≠ 0 → Z.testbit e' 0 = true ∧ if Z.testbit e' 7 then l = 0%nat else T !! mask e' = Some (l, p * 512 + i)) →
  (∀ l, lf = S l → e ≠ 0 → Z.testbit e 7 = false → e' ≠ 0 ∧ Z.testbit e' 7 = false ∧ mask e' = mask e) →
  (∀ f l p i e v (r : Z * bool * rights), T !! f = Some (S l, p) → 0 <= i < 512 → w' !! (f + 8 * i) = Some e → e ≠ 0 →
    Z.testbit e 7 = false → under (S l) p i v → walk w' l (mask e) v = Some r → rle r.2 (e_rights e)) →
  ptree w' root T.
Proof.
  intros Hf Hi He [He' Hag] Hent Hpar Hperm. pose proof Ht as [Hr Hinj Hfr Hw Hen Hpa _]. split; try done.
  - intros h x j Hh Hj. destruct (decide (h = f ∧ j = i)) as [[-> ->]|Hne]; [by rewrite He'|].
    erewrite Hag; [by eapply Hw|exact Hh|done|]. destruct (decide (h = f)); naive_solver.
  - intros h l q j d Hh Hj Hd H0. destruct (decide (h = f ∧ j = i)) as [[-> ->]|Hne].
    + rewrite He' in Hd. injection Hd as <-. rewrite Hf in Hh. injection Hh as -> ->. by apply Hent.
    + erewrite Hag in Hd; [by eapply Hen|exact Hh|done|]. destruct (decide (h = f)); naive_solver.
  - intros g l q Hg Hl. destruct (Hpa g l q Hg Hl) as (h & d & Hh & Hd & H0 & H7 & Hm).
    pose proof (Z.mod_pos_bound q 512 ltac:(lia)) as Hq.
    destruct (decide (h = f ∧ q mod 512 = i)) as [[-> Ei]|Hne].
    + rewrite Hf in Hh. injection Hh as -> ->. rewrite Ei in *. rewrite He in Hd. injection Hd as ->.
      destruct (Hpar l eq_refl H0 H7) as (? & ? & ?). exists f, e'. by rewrite Hf, He'; split_and!; congruence.
    + exists h, d. split; [done|]. split; [|done]. erewrite Hag; [done|exact Hh|done|]. destruct (decide (h = f)); naive_solver.
Qed.

(** An upper entry that gets more rights. *)
Lemma upgrade_entry w' f l p i e e' :
  T !! f = Some (S l, p) → 0 <= i < 512 → w !! (f + 8 * i) = Some e → e ≠ 0 → Z.testbit e 7 = false →
  entry_set w' f i e' → Z.testbit e' 0 = true → Z.testbit e' 7 = false → mask e' = mask e → rle (e_rights e) (e_rights e') →
  ptree w' root T ∧ ∀ v m g, T !! g = Some (m, prefix m v) → walk w' m g v = walk w m g v.
Proof.
  intros Hf Hi He H0 H7 Hset H0' H7' Hm Hr. pose proof Hset as [He' Hag].
  destruct (pt_entry _ _ _ Ht f l p i e Hf Hi He H0) as [Hp Hch]. rewrite H7 in Hch.
  assert (∀ v, under (S l) p i v → walk w' l (mask e) v = walk w l (mask e) v) as Hbelow.
  { intros v Hv. eapply (walk_agree w' f (S l) p); [exact Hf| | |lia].
    - rewrite Hch. unfold prefix. by rewrite Hv.
    - intros h k Hh Hk Hne. eapply Hag; [exact Hh|apply idx_range|by left]. }
  assert (∀ v m g, T !! g = Some (m, prefix m v) → walk w' m g v = walk w m g v) as Hwalk.
  { intros v m g Hg. destruct (decide (under (S l) p i v)) as [Hv|Hv]; [|by apply (walk_other w' f (S l) p i e')].
    destruct (under_prefix _ _ _ _ Hi Hv) as [Hpr Hix].
    eapply walk_agree; [exact Hf|exact Hg| |].
    - intros h k Hh Hk Hne. eapply Hag; [exact Hh|apply idx_range|by left].
    - intros _ _. cbn [walk]. unfold slot. rewrite Hix, He', He. simpl. rewrite H0', H7', Hp, H7. simpl.
      rewrite Hm, Hbelow by done. destruct (walk w l (mask e) v) as [[a r]|] eqn:Er; [|done]. simpl.
      assert (rle r (e_rights e)) as Hle by (eapply (pt_perm _ _ _ Ht f l p i e v (a, r)); done).
      by rewrite !rmeet_absorb by (try done; by eapply rle_trans). }
  split; [|done]. eapply ptree_set; [exact Hf|done|exact He|exact Hset| | |].
  - intros ? [= <-] _. split; [done|]. rewrite H7', Hm. done.
  - intros ? [= <-] _ _. split; [|done]. intros ->. by rewrite Z.testbit_0_l in H0'.
  - intros h k q j d v r Hh Hj Hd Hd0 Hd7 Hv Hwr. destruct (decide (h = f ∧ j = i)) as [[-> ->]|Hne].
    + rewrite Hf in Hh. injection Hh as -> ->. rewrite He' in Hd. injection Hd as <-. rewrite Hm, Hbelow in Hwr by done.
      eapply rle_trans; [|exact Hr]. by eapply (pt_perm _ _ _ Ht f k q i e v r).
    + erewrite Hag in Hd; [|exact Hh|done|destruct (decide (h = f)); naive_solver].
      rewrite Hwalk in Hwr; [by eapply (pt_perm _ _ _ Ht h k q j d v r)|].
      destruct (pt_entry _ _ _ Ht h k q j d Hh Hj Hd Hd0) as [_ Hc]. rewrite Hd7 in Hc. rewrite Hc. unfold prefix. by rewrite Hv.
Qed.

(** An entry at the end of the path: of the lowest level, or a large page. *)
Lemma leaf_entry w' f l p i e e' :
  T !! f = Some (l, p) → 0 <= i < 512 → w !! (f + 8 * i) = Some e → entry_set w' f i e' →
  l = 0%nat ∨ l = 1%nat ∧ (e = 0 ∨ Z.testbit e 7 = true) ∧ (e' = 0 ∨ Z.testbit e' 0 = true ∧ Z.testbit e' 7 = true) →
  (Z.testbit e' 0 = true → ∀ h k d v, T !! h = Some (k, prefix k v) → (l < k)%nat → under l p i v →
     w !! slot h k v = Some d → rle (e_rights e') (e_rights d)) →
  ptree w' root T ∧ (∀ v m g, ¬ under l p i v → T !! g = Some (m, prefix m v) → walk w' m g v = walk w m g v).
Proof.
  intros Hf Hi He Hset Hl Hrights. pose proof Hset as [He' Hag].
  split; [|intros v m g Hv Hg; by apply (walk_other w' f l p i e')].
  eapply ptree_set; [exact Hf|done|exact He|exact Hset| | |].
  - intros k -> H0. destruct Hl as [?|([= ->] & _ & [?|[-> ->]])]; done.
  - intros k -> H0 H7. destruct Hl as [?|([= ->] & [?|H7'] & _)]; [done..|congruence].
  - intros h k q j d v r Hh Hj Hd Hd0 Hd7 Hv Hwr. destruct (decide (h = f ∧ j = i)) as [[-> ->]|Hne].
    { rewrite Hf in Hh. injection Hh as -> ->. rewrite He' in Hd. injection Hd as <-.
      destruct Hl as [?|([= ->] & _ & [?|[_ ?]])]; congruence. }
    erewrite Hag in Hd; [|exact Hh|done|destruct (decide (h = f)); naive_solver].
    destruct (under_prefix _ _ _ _ Hj Hv) as [Hpr Hix].
    assert (T !! mask d = Some (k, prefix k v)) as Hc.
    { destruct (pt_entry _ _ _ Ht h k q j d Hh Hj Hd Hd0) as [_ Hc]. rewrite Hd7 in Hc. rewrite Hc. unfold prefix. by rewrite Hv. }
    destruct (decide (under l p i v)) as [Hu|Hu].
    2: { rewrite (walk_other w' f l p i e') in Hwr by done. by eapply (pt_perm _ _ _ Ht h k q j d v r). }
    destruct (under_prefix _ _ _ _ Hi Hu) as [Hpr' Hix']. rewrite <- Hpr in Hh. rewrite <- Hpr' in Hf.
    assert (l <= k)%nat as Hlk.
    { destruct (decide (l <= k)%nat) as [|Hgt]; [done|]. destruct (decide (l = S k)) as [->|Hne'].
      - destruct Hne. split; [by eapply (pt_inj _ _ _ Ht)|congruence].
      - destruct Hl as [?|(-> & _)]; lia. }
    destruct (walk_leaf_rights w' f l v k (mask d) e' r Hf Hc Hlk) as [H0' Hle]; [|unfold slot; by rewrite Hix'| |done|].
    + intros g k' Hg Hgne. eapply Hag; [exact Hg|apply idx_range|by left].
    + destruct Hl as [?|(_ & _ & [?|[_ ?]])]; auto.
    + eapply rle_trans; [exact Hle|]. apply (Hrights H0' h (S k) d v); [done|lia|done|]. unfold slot. by rewrite Hix.
Qed.

Lemma zero_walk w' l g v : (∀ j, 0 <= j < 512 → w' !! (g + 8 * j) = Some 0) → walk w' l g v = None.
Proof. intros H. destruct l; cbn [walk]; unfold slot; by rewrite H by apply idx_range. Qed.

(** An empty table below an entry that was zero. *)
Lemma new_table w' f l p i e' g :
  T !! f = Some (S l, p) → 0 <= i < 512 → w !! (f + 8 * i) = Some 0 → T !! g = None →
  0 < g < 2 ^ 52 → g mod 4096 = 0 → entry_set w' f i e' → (∀ j, 0 <= j < 512 → w' !! (g + 8 * j) = Some 0) →
  Z.testbit e' 0 = true → Z.testbit e' 7 = false → mask e' = g →
  ptree w' root (<[g := (l, p * 512 + i)]> T) ∧ ∀ v m h, T !! h = Some (m, prefix m v) → walk w' m h v = walk w m h v.
Proof.
  intros Hf Hi He Hg Hgr Hga [He' Hag] Hz H0 H7 Hm. pose proof Ht as [Hr Hinj Hfr Hw Hen Hpa Hpe].
  assert (∀ h x, T !! h = Some x → h ≠ g) as Hng by (intros h x Hh ->; congruence).
  assert (∀ h, T !! h ≠ Some (l, p * 512 + i)) as Hfresh.
  { intros h Hh. destruct (Hpa h l _ Hh) as (h' & d & Hh' & Hd & Hd0 & _).
    { destruct (Hfr f _ _ Hf) as (_ & _ & ?). lia. }
    destruct (split_prefix p i Hi) as [E1 E2]. rewrite E1 in Hh'. rewrite E2 in Hd.
    assert (h' = f) as -> by (by eapply Hinj). congruence. }
  assert (∀ v m h, T !! h = Some (m, prefix m v) → walk w' m h v = walk w m h v) as Hwalk.
  { intros v m h Hh. eapply walk_agree; [exact Hf|exact Hh| |].
    - intros h' k Hh' Hk Hne. eapply Hag; [exact Hh'|apply idx_range|by left].
    - intros Hp _. destruct (decide (under (S l) p i v)) as [Hu|Hu].
      + destruct (under_prefix _ _ _ _ Hi Hu) as [_ Hix]. cbn [walk]. unfold slot. rewrite Hix, He', He. simpl.
        rewrite H0, H7, Hm. simpl. by rewrite zero_walk.
      + eapply (walk_other w' f (S l) p i e'); [done..|by split|done|]. by rewrite <- Hp. }
  split; [|done]. split.
  - rewrite lookup_insert_ne; [done|]. by apply not_eq_sym, (Hng root _ Hr).
  - intros a b x Ha Hb. destruct (decide (a = g)) as [->|Hna], (decide (b = g)) as [->|Hnb]; [done|..];
      rewrite ?lookup_insert_eq, ?lookup_insert_ne in * by done; [injection Ha as <-; by destruct (Hfresh b)|injection Hb as <-; by destruct (Hfresh a)|by eapply Hinj].
  - intros a k q Ha. destruct (decide (a = g)) as [->|Hna]; rewrite ?lookup_insert_eq, ?lookup_insert_ne in Ha by done; [|by eapply Hfr].
    injection Ha as <- <-. destruct (Hfr f _ _ Hf) as (_ & _ & ?). split; [done|]. split; [done|lia].
  - intros a x j Ha Hj. destruct (decide (a = g)) as [->|Hna]; [by rewrite Hz|]. rewrite lookup_insert_ne in Ha by done.
    destruct (decide (a = f ∧ j = i)) as [[-> ->]|Hne]; [by rewrite He'|].
    erewrite Hag; [by eapply Hw|exact Ha|done|]. destruct (decide (a = f)); naive_solver.
  - intros a k q j d Ha Hj Hd Hd0. destruct (decide (a = g)) as [->|Hna]; [rewrite Hz in Hd by done; congruence|].
    rewrite lookup_insert_ne in Ha by done. destruct (decide (a = f ∧ j = i)) as [[-> ->]|Hne].
    + rewrite He' in Hd. injection Hd as <-. rewrite Hf in Ha. injection Ha as <- <-. rewrite H7, Hm, lookup_insert_eq. done.
    + erewrite Hag in Hd; [|exact Ha|done|destruct (decide (a = f)); naive_solver].
      destruct (Hen a k q j d Ha Hj Hd Hd0) as [? Hc]. split; [done|]. destruct (Z.testbit d 7); [done|].
      rewrite lookup_insert_ne; [done|]. intros E. rewrite <- E in Hc. congruence.
  - intros a k q Ha Hk. destruct (decide (a = g)) as [->|Hna].
    + rewrite lookup_insert_eq in Ha. injection Ha as <- <-. exists f, e'.
      destruct (split_prefix p i Hi) as [-> ->]. rewrite lookup_insert_ne by (by apply not_eq_sym, (Hng f _ Hf)). split_and!; try done. intros ->. by rewrite Z.testbit_0_l in H0.
    + rewrite lookup_insert_ne in Ha by done. destruct (Hpa a k q Ha Hk) as (h & d & Hh & Hd & Hd0 & Hd7 & Hdm).
      exists h, d. rewrite lookup_insert_ne by (by apply not_eq_sym, (Hng h _ Hh)). split; [done|]. split; [|done].
      erewrite Hag; [done|exact Hh|apply Z.mod_pos_bound; lia|].
      destruct (decide (h = f)) as [->|]; [right|by left]. intros E. rewrite E in Hd. congruence.
  - intros a k q j d v r Ha Hj Hd Hd0 Hd7 Hv Hwr. destruct (decide (a = g)) as [->|Hna]; [rewrite Hz in Hd by done; congruence|].
    rewrite lookup_insert_ne in Ha by done. destruct (decide (a = f ∧ j = i)) as [[-> ->]|Hne].
    + rewrite He' in Hd. injection Hd as <-. rewrite Hm, zero_walk in Hwr by done. done.
    + erewrite Hag in Hd; [|exact Ha|done|destruct (decide (a = f)); naive_solver].
      destruct (Hen a k q j d Ha Hj Hd Hd0) as [_ Hc]. rewrite Hd7 in Hc. rewrite Hwalk in Hwr; [by eapply (Hpe a k q j d v r)|].
      rewrite Hc. unfold prefix. by rewrite Hv.
Qed.

(** An empty table is taken away; what becomes of its words does not matter. *)
Lemma drop_table w' f l p i e g :
  T !! f = Some (S l, p) → 0 <= i < 512 → w !! (f + 8 * i) = Some e → e ≠ 0 → Z.testbit e 7 = false → mask e = g →
  (∀ j, 0 <= j < 512 → w !! (g + 8 * j) = Some 0) → w' !! (f + 8 * i) = Some 0 →
  (∀ h x j, T !! h = Some x → h ≠ g → 0 <= j < 512 → h ≠ f ∨ j ≠ i → w' !! (h + 8 * j) = w !! (h + 8 * j)) →
  ptree w' root (delete g T) ∧ ∀ v m h, T !! h = Some (m, prefix m v) → h ≠ g → walk w' m h v = walk w m h v.
Proof.
  intros Hf Hi He He0 He7 Hm Hz He' Hag. pose proof Ht as [Hr Hinj Hfr Hw Hen Hpa Hpe].
  assert (T !! g = Some (l, p * 512 + i)) as Hg.
  { destruct (Hen f l p i e Hf Hi He He0) as [_ H]. by rewrite He7, Hm in H. }
  assert (g ≠ f) as Hgf by (intros ->; rewrite Hf in Hg; injection Hg; lia).
  assert (g ≠ root) as Hgr.
  { intros ->. rewrite Hr in Hg. injection Hg as <- _. destruct (Hfr f _ _ Hf) as (_ & _ & ?). lia. }
  assert (∀ h k q j d, T !! h = Some (S k, q) → 0 <= j < 512 → w !! (h + 8 * j) = Some d → d ≠ 0 → Z.testbit d 7 = false →
    mask d = g → h = f ∧ j = i) as Honly.
  { intros h k q j d Hh Hj Hd Hd0 Hd7 Hdm. destruct (Hen h k q j d Hh Hj Hd Hd0) as [_ H]. rewrite Hd7, Hdm, Hg in H.
    injection H as -> E. assert (p = q ∧ i = j) as [-> ->] by lia.
    split; [by eapply Hinj|done]. }
  assert (∀ v m h, T !! h = Some (m, prefix m v) → h ≠ g → walk w' m h v = walk w m h v) as Hwalk.
  { intros v m h Hh Hne. eapply (walk_agree_on (λ h, h ≠ g)); [|exact Hf|exact Hne|exact Hh| |].
    - intros h' k d Hh' Hd Hd0 Hd7 _ Hnf E. by destruct (Honly h' k _ _ d Hh' (idx_range _ _) Hd Hd0 Hd7 E).
    - intros h' k Hh' Hk Hq Hnf. eapply Hag; [exact Hh'|done|apply idx_range|by left].
    - intros Hp _. cbn [walk]. destruct (decide (idx (S l) v = i)) as [Hix|Hix].
      + unfold slot. rewrite Hix, He', He. simpl. rewrite He7, Hm, zero_walk by done. by destruct (Z.testbit e 0).
      + assert (w' !! slot f (S l) v = w !! slot f (S l) v) as -> by (eapply Hag; [exact Hf|done|apply idx_range|by right]).
        destruct (w !! slot f (S l) v) as [d|] eqn:Ed; [|done]. simpl. destruct (Z.testbit d 0) eqn:E0; [|done]. simpl.
        destruct (Z.testbit d 7) eqn:E7; [done|]. assert (d ≠ 0) as Hd0 by (intros ->; by rewrite Z.testbit_0_l in E0). f_equal.
        eapply (walk_agree_on (λ h, h ≠ g)); [|exact Hf| | | |lia].
        * intros h' k d' Hh' Hd' Hd0' Hd7' _ Hnf E. by destruct (Honly h' k _ _ d' Hh' (idx_range _ _) Hd' Hd0' Hd7' E).
        * intros E. destruct (Honly f l p (idx (S l) v) d Hf (idx_range _ _) Ed Hd0 E7 E). done.
        * eapply child; [by rewrite <- Hp|done..].
        * intros h' k Hh' Hk Hq Hnf. eapply Hag; [exact Hh'|done|apply idx_range|by left]. }
  split; [|done]. split.
  - by rewrite lookup_delete_ne.
  - intros a b x [_ Ha]%lookup_delete_Some [_ Hb]%lookup_delete_Some. by eapply Hinj.
  - intros a k q [_ Ha]%lookup_delete_Some. by eapply Hfr.
  - intros a x j [Hna Ha]%lookup_delete_Some Hj. destruct (decide (a = f ∧ j = i)) as [[-> ->]|Hne]; [by rewrite He'|].
    erewrite Hag; [by eapply Hw|exact Ha|done|done|]. destruct (decide (a = f)); naive_solver.
  - intros a k q j d [Hna Ha]%lookup_delete_Some Hj Hd Hd0. destruct (decide (a = f ∧ j = i)) as [[-> ->]|Hne]; [congruence|].
    erewrite Hag in Hd; [|exact Ha|done|done|destruct (decide (a = f)); naive_solver].
    destruct (Hen a k q j d Ha Hj Hd Hd0) as [? Hc]. split; [done|]. destruct (Z.testbit d 7) eqn:E7; [done|].
    rewrite lookup_delete_ne; [done|]. intros E. by destruct Hne; eapply Honly.
  - intros a k q [Hna Ha]%lookup_delete_Some Hk. destruct (Hpa a k q Ha Hk) as (h & d & Hh & Hd & Hd0 & Hd7 & Hdm).
    assert (0 <= q mod 512 < 512) as Hq by (apply Z.mod_pos_bound; lia).
    assert (h ≠ g) as Hhg by (intros ->; rewrite Hz in Hd by done; congruence).
    exists h, d. rewrite lookup_delete_ne by done. split; [done|]. split; [|done]. erewrite Hag; [done|exact Hh|done|done|].
    destruct (decide (h = f)) as [->|]; [right|by left]. intros E. rewrite E, He in Hd. congruence.
  - intros a k q j d v r [Hna Ha]%lookup_delete_Some Hj Hd Hd0 Hd7 Hv Hwr.
    destruct (decide (a = f ∧ j = i)) as [[-> ->]|Hne]; [congruence|].
    erewrite Hag in Hd; [|exact Ha|done|done|destruct (decide (a = f)); naive_solver].
    destruct (Hen a k q j d Ha Hj Hd Hd0) as [_ Hc]. rewrite Hd7 in Hc. rewrite Hwalk in Hwr; [by eapply (Hpe a k q j d v r)| |].
    + rewrite Hc. unfold prefix. by rewrite Hv.
    + intros E. by destruct Hne; eapply Honly.
Qed.
End tree.

(** ** Bits of entries *)

Lemma bit_testbit n m : 0 <= n → Z.testbit (bit n) m = bool_decide (n = m).
Proof.
  intros Hn. unfold bit. rewrite Z.shiftl_1_l. case_bool_decide as E; [subst; by apply Z.pow2_bits_true|].
  by apply Z.pow2_bits_false.
Qed.

Lemma has_flag_testbit e n : 0 <= n → has_flag e (bit n) = Z.testbit e n.
Proof.
  intros Hn. unfold has_flag. destruct (Z.testbit e n) eqn:E.
  - apply truthy_true. intros H. assert (Z.testbit (Z.land e (bit n)) n = true) as Hb.
    { by rewrite Z.land_spec, E, bit_testbit, bool_decide_eq_true_2. }
    rewrite H in Hb. by rewrite Z.testbit_0_l in Hb.
  - apply truthy_false. apply Z.bits_inj'. intros m Hm. rewrite Z.land_spec, bit_testbit, Z.testbit_0_l by done.
    case_bool_decide; [subst; by rewrite E|apply andb_false_r].
Qed.
Lemma has_flag_1 e : has_flag e 1 = Z.testbit e 0.
Proof. by rewrite <- has_flag_testbit. Qed.

Lemma mask_lor_bit e n : 0 <= n → Z.testbit 0xffffffffff000 n = false → mask (Z.lor e (bit n)) = mask e.
Proof.
  intros Hn Hc. apply Z.bits_inj'. intros m Hm. unfold mask. rewrite !Z.land_spec, Z.lor_spec, bit_testbit by done.
  case_bool_decide; [subst; by rewrite Hc, !andb_false_r|by rewrite orb_false_r].
Qed.
Lemma mask_ldiff_bit e n : 0 <= n → Z.testbit 0xffffffffff000 n = false → mask (Z.ldiff e (bit n)) = mask e.
Proof.
  intros Hn Hc. apply Z.bits_inj'. intros m Hm. unfold mask. rewrite !Z.land_spec, Z.ldiff_spec, bit_testbit by done.
  case_bool_decide; [subst; by rewrite Hc, !andb_false_r|by rewrite andb_true_r].
Qed.

Lemma mask_ones : 0xffffffffff000 = Z.ldiff (Z.ones 52) (Z.ones 12).
Proof. reflexivity. Qed.

(** A frame is left alone by the mask; its low bits are zero. *)
Lemma mask_id f : 0 <= f < 2 ^ 52 → f mod 4096 = 0 → mask f = f.
Proof.
  intros Hf Ha. unfold mask. rewrite mask_ones. apply Z.bits_inj'. intros n Hn.
  rewrite Z.land_spec, Z.ldiff_spec. destruct (decide (n < 12)) as [Hl|Hl].
  - rewrite (Z.ones_spec_low 12) by lia. rewrite andb_false_r, andb_false_r.
    rewrite <- (Z.mod_pow2_bits_low f 12 n) by lia. change (2 ^ 12) with 4096. by rewrite Ha, Z.testbit_0_l.
  - rewrite (Z.ones_spec_high 12) by lia. destruct (decide (n < 52)) as [Hh|Hh].
    + rewrite Z.ones_spec_low by lia. by rewrite !andb_true_r.
    + rewrite Z.ones_spec_high by lia. rewrite andb_false_r. rewrite <- (Z.mod_small f (2 ^ 52)) by lia.
      by rewrite Z.mod_pow2_bits_high by lia.
Qed.

(** Flags: bits outside the address and bit 7. *)
Definition flags_ok (c : Z) : Prop := Z.land c 0xffffffffff000 = 0 ∧ Z.testbit c 7 = false.

Lemma entry_mask f c : 0 <= f < 2 ^ 52 → f mod 4096 = 0 → mask c = 0 → mask (Z.lor f c) = f.
Proof.
  intros Hf Ha Hc. unfold mask in *. rewrite Z.land_comm, Z.land_lor_distr_r, !(Z.land_comm _ c), Hc, Z.lor_0_r.
  rewrite Z.land_comm. by apply mask_id.
Qed.
Lemma frame_low f n : f mod 4096 = 0 → 0 <= n < 12 → Z.testbit f n = false.
Proof. intros Ha Hn. rewrite <- (Z.mod_pow2_bits_low f 12 n) by lia. change (2 ^ 12) with 4096. by rewrite Ha, Z.testbit_0_l. Qed.
Lemma frame_high f n : 0 <= f < 2 ^ 52 → 52 <= n → Z.testbit f n = false.
Proof. intros Hf Hn. rewrite <- (Z.mod_small f (2 ^ 52)) by lia. by rewrite Z.mod_pow2_bits_high by lia. Qed.

(** The rights of an entry are those of its flags. *)
Lemma entry_rights f c : 0 <= f < 2 ^ 52 → f mod 4096 = 0 → e_rights (Z.lor f c) = e_rights c.
Proof.
  intros Hf Ha. unfold e_rights. rewrite !Z.lor_spec, (frame_low f 1), (frame_low f 2), (frame_high f 63) by (done || lia). done.
Qed.
