(* ===== verification/PagingOps.v ===== *)
(** * Mapping and unmapping change the address space at one page

    The routines of [Paging] against the tree of [PagingProofs].  The physical
    memory manager is used through the laws of [FrameLaws]. *)

From S2P Require Import Prelude DList KState Irql ThreadList Pmm Paging PagingProofs.

#[local] Arguments Z.testbit : simpl never.

(** ** The frames *)

(** Only the memory manager and the words of the frame [g] change. *)
Record frame_only (g : Z) (s s' : gst) : Prop := {
  fo_rest : s' = s <| pm := pm s' |> <| words := words s' |>;
  fo_kern : mk (pm s') = mk (pm s);
  fo_words a : ¬ (g <= a < g + 4096) → words s' !! a = words s !! a
}.

(** Another interrupt state from which the kernel may be called, with the same locks but
    those of contexts. *)
Definition irq_like (i i' : irq_st) : Prop :=
  (∃ v, quiet i' v) ∧ ∀ l, (∀ c, l ≠ ContextLock c) → locks i' !! l = locks i !! l.
Definition girq (s : gst) : irq_st := irq (mk (pm s)).
Definition with_girq (i : irq_st) (s : gst) : gst := s <| pm ::= λ p, p <| mk ::= λ k, k <| irq := i |> |> |>.

(** What the physical memory manager promises: [fr_free] are the free frames,
    [fr_used] those it has given out. *)
Class FrameLaws {PE : PagingEnv} := {
  fr_inv : gst → Prop;
  fr_free : gst → Z → Prop;
  fr_used : gst → Z → Prop;
  fr_disj s a : fr_inv s → fr_used s a → fr_free s a → False;
  fr_alloc st s a : fr_inv s → fr_free s a → ∃ g s', frame_alloc 1 1 st s = Ret (g, put_status st OBOS_STATUS_SUCCESS) s' ∧ fr_inv s' ∧ frame_only g s s' ∧
    fr_free s g ∧ 0 < g < 2 ^ 52 ∧ g mod 4096 = 0 ∧ (∀ j, 0 <= j < 512 → is_Some (words s' !! (g + 8 * j))) ∧
    (∀ a, fr_free s' a ↔ fr_free s a ∧ a ≠ g) ∧ (∀ a, fr_used s' a ↔ fr_used s a ∨ a = g);
  fr_release s g : fr_inv s → fr_used s g → (∀ j, 0 <= j < 512 → is_Some (words s !! (g + 8 * j))) → words s !! (g + 8) = Some 0 →
    ∃ s', frame_free g 1 s = Ret OBOS_STATUS_SUCCESS s' ∧ fr_inv s' ∧ frame_only g s s' ∧
    (∀ a, fr_free s' a ↔ fr_free s a ∨ a = g) ∧ (∀ a, fr_used s' a ↔ fr_used s a ∧ a ≠ g);
  fr_stable s s' : fr_inv s → pm s' = pm s → (∀ a, is_Some (words s' !! a) ↔ is_Some (words s !! a)) →
    fr_inv s' ∧ (∀ a, fr_free s' a ↔ fr_free s a) ∧ (∀ a, fr_used s' a ↔ fr_used s a);
  fr_irq s i : fr_inv s → irq_like (girq s) i →
    fr_inv (with_girq i s) ∧ (∀ a, fr_free (with_girq i s) a ↔ fr_free s a) ∧ (∀ a, fr_used (with_girq i s) a ↔ fr_used s a);
  fr_shootdown a s : shootdown a s = Ret () s
}.

(** Frames that are left. *)
Definition frames_left `{FrameLaws} (n : nat) (s : gst) : Prop := ∃ fs, NoDup fs ∧ (n <= length fs)%nat ∧ Forall (fr_free s) fs.

Section ops.
Context `{FL : FrameLaws}.
#[local] Set Default Proof Using "Type".

(** The tables of the address space at [root], all in frames given out. *)
Record paging_inv (s : gst) (root : Z) (T : gmap Z (nat * Z)) : Prop := {
  pi_tree : ptree (words s) root T;
  pi_frames : fr_inv s;
  pi_used f x : T !! f = Some x → fr_used s f
}.

(** The kernel's own state does not change, and no frame in use becomes a table or is
    given back but those of the tables. *)
Record kept (T T' : gmap Z (nat * Z)) (s s' : gst) : Prop := {
  kp_kern : mk (pm s') = mk (pm s);
  kp_used a : T !! a = None → fr_used s a → fr_used s' a ∧ T' !! a = None
}.

Lemma kept_refl T s : kept T T s s.
Proof. by split. Qed.
Lemma space_kept_trans T1 T2 T3 s1 s2 s3 : kept T1 T2 s1 s2 → kept T2 T3 s2 s3 → kept T1 T3 s1 s3.
Proof. intros [K1 U1] [K2 U2]. split; [congruence|]. intros a Ha Hu. destruct (U1 a Ha Hu). auto. Qed.
Lemma kept_words T s w : fr_inv s → (∀ a, is_Some (w !! a) ↔ is_Some (words s !! a)) → kept T T s (s <| words := w |>).
Proof. intros Hf Hw. destruct (fr_stable s (s <| words := w |>) Hf) as (_ & _ & Hu); [done..|]. split; [done|]. intros a Ha H. split; [by apply Hu|done]. Qed.

(** The address space of [s'] is that of [s], and only the tables of [T] differ. *)
Record same_space (T T' : gmap Z (nat * Z)) (s s' : gst) : Prop := {
  ss_rest : s' = s <| pm := pm s' |> <| words := words s' |>;
  ss_kept : kept T T' s s';
  ss_tables f x : T !! f = Some x → T' !! f = Some x;
  ss_words a : (∀ f x, T' !! f = Some x → ¬ f <= a < f + 4096) → words s' !! a = words s !! a;
  ss_walk v m h : T !! h = Some (m, prefix m v) → walk (words s') m h v = walk (words s) m h v
}.

(** ** Words *)

Lemma insert_dom (w : gmap Z Z) a v : is_Some (w !! a) → ∀ b, is_Some (<[a := v]> w !! b) ↔ is_Some (w !! b).
Proof. intros Ha b. destruct (decide (a = b)) as [->|]; [by rewrite lookup_insert_eq|by rewrite lookup_insert_ne]. Qed.

Lemma zero_words_eq n a s :
  (∀ j, 0 <= j < Z.of_nat n → is_Some (words s !! (a + 8 * j))) →
  ∃ w, zero_words n a s = Ret () (s <| words := w |>) ∧ (∀ j, 0 <= j < Z.of_nat n → w !! (a + 8 * j) = Some 0) ∧
    (∀ b, ¬ (a <= b < a + 8 * Z.of_nat n) → w !! b = words s !! b) ∧ (∀ b, is_Some (w !! b) ↔ is_Some (words s !! b)).
Proof.
  revert a s. induction n as [|n IH]; intros a s Hw.
  { exists (words s). split; [by destruct s|]. split; [lia|done]. }
  destruct (Hw 0) as [x Hx]; [lia|]. rewrite Z.mul_0_r, Z.add_0_r in Hx.
  destruct (IH (a + 8) (s <| words ::= <[a := 0]> |>)) as (w & E & Hz & Ho & Hdom).
  { intros j Hj. simpl. replace (a + 8 + 8 * j) with (a + 8 * (j + 1)) by lia. rewrite lookup_insert_ne by lia. apply Hw. lia. }
  exists w. split; [|split; [|split]].
  - simpl. unfold store_word. erewrite bind_Ret by (by apply store_eq). refine (eq_trans E _). by destruct s.
  - intros j Hj. destruct (decide (j = 0)) as [->|Hj0].
    + rewrite Z.mul_0_r, Z.add_0_r. rewrite Ho by lia. apply lookup_insert_eq.
    + replace (a + 8 * j) with (a + 8 + 8 * (j - 1)) by lia. apply Hz. lia.
  - intros b Hb. rewrite Ho by lia. apply lookup_insert_ne. lia.
  - intros b. rewrite Hdom. simpl. apply insert_dom. by rewrite Hx.
Qed.

Lemma words_zero_eq n a s :
  (∀ j, 0 <= j < Z.of_nat n → is_Some (words s !! (a + 8 * j))) →
  words_zero n a s = Ret (bool_decide (Forall (λ j, words s !! (a + 8 * j) = Some 0) (seqZ 0 (Z.of_nat n)))) s.
Proof.
  intros Hw. revert a Hw. induction n as [|n IH]; intros a Hw.
  { reflexivity. }
  destruct (Hw 0) as [x Hx]; [lia|]. rewrite Z.mul_0_r, Z.add_0_r in Hx. cbn [words_zero].
  unfold load_word. erewrite bind_Ret by (by apply load_eq). rewrite seqZ_cons by lia.
  destruct (truthy x) eqn:Ex.
  - rewrite bool_decide_eq_false_2; [done|]. rewrite Forall_cons. intros [E _]. rewrite Z.mul_0_r, Z.add_0_r, Hx in E.
    injection E as ->. done.
  - apply truthy_false in Ex as ->. rewrite IH.
    + f_equal. apply bool_decide_ext. rewrite Forall_cons, Z.mul_0_r, Z.add_0_r, Hx.
      replace (Z.pred (Z.of_nat (S n))) with (Z.of_nat n) by lia. change (Z.succ 0) with (0 + 1).
      rewrite <- (fmap_add_seqZ 1 0), Forall_fmap. split.
      * intros Hf. split; [done|]. eapply Forall_impl; [exact Hf|]. intros j Hj. simpl in *. by replace (a + 8 * (1 + j)) with (a + 8 + 8 * j) by lia.
      * intros [_ Hf]. eapply Forall_impl; [exact Hf|]. intros j Hj. simpl in *. by replace (a + 8 + 8 * j) with (a + 8 * (1 + j)) by lia.
    + intros j Hj. replace (a + 8 + 8 * j) with (a + 8 * (j + 1)) by lia. apply Hw. lia.
Qed.

(** ** Reading the tables *)

(** The routine that reads the entry of a level. *)
Definition get_entry (l : nat) : Z → Z → K gst Z :=
  match l with
  | 3%nat => Arch_GetPML4Entry
  | 2%nat => Arch_GetPML3Entry
  | 1%nat => Arch_GetPML2Entry
  | _ => Arch_GetPML1Entry
  end.

Lemma depth_entry l root at_ : (1 <= l <= 3)%nat → GetPageMapEntryForDepth root at_ (Z.of_nat l) = get_entry l root at_.
Proof. intros Hl. destruct l as [|[|[|[|l]]]]; [lia|done..|lia]. Qed.

Lemma get_entry_step l root at_ : (l < 3)%nat →
  get_entry l root at_ = (e ← get_entry (S l) root at_; next_entry e at_ (Z.of_nat l)).
Proof. intros Hl. by destruct l as [|[|[|l]]]; [..|lia]. Qed.

Lemma next_entry_eq e at_ l s f x :
  (l <= 3)%nat → mask e = f → 0 < f → words s !! slot f l (vpn at_) = Some x → next_entry e at_ (Z.of_nat l) s = Ret x s.
Proof.
  intros Hl Hm Hf Hx. unfold next_entry. rewrite Hm, (proj2 (truthy_true f)) by lia. cbn [negb].
  rewrite entry_of_slot by done. by apply load_eq.
Qed.

Section walk.
Context (s : gst) (root : Z) (T : gmap Z (nat * Z)) (Ht : ptree (words s) root T).
#[local] Set Default Proof Using "Type*".

Lemma root_mask : mask root = root ∧ 0 < root.
Proof. destruct (pt_frame _ _ _ Ht root _ _ (pt_root _ _ _ Ht)) as (? & ? & _). split; [apply mask_id; [lia|done]|lia]. Qed.

Lemma root_prefix v : 0 <= v < 2 ^ 36 → T !! root = Some (3%nat, prefix 3 v).
Proof.
  intros Hv. rewrite (pt_root _ _ _ Ht). unfold prefix. rewrite Z.div_small; [done|].
  change (512 ^ Z.of_nat 4) with (2 ^ 36). done.
Qed.

(** The entry for an address of a table on its path. *)
Lemma get_entry_eq l f at_ e :
  T !! f = Some (l, prefix l (vpn at_)) → words s !! slot f l (vpn at_) = Some e → get_entry l root at_ s = Ret e s.
Proof.
  remember (3 - l)%nat as d eqn:Ed. revert l f e Ed. induction d as [|d IH]; intros l f e Ed Hf He;
    destruct (pt_frame _ _ _ Ht f _ _ Hf) as (Hfr & _ & Hl).
  - assert (l = 3%nat) as -> by lia. assert (f = root) as ->.
    { eapply (pt_inj _ _ _ Ht); [exact Hf|apply root_prefix, vpn_range]. }
    destruct root_mask as [Hm H0]. simpl. unfold Arch_GetPML4Entry. rewrite (proj2 (truthy_true root)), Hm by lia. cbn [negb].
    change 3 with (Z.of_nat 3). rewrite entry_of_slot by lia. by apply load_eq.
  - destruct (parent _ _ _ Ht f l (vpn at_) Hf) as (h & d' & Hh & Hd & _ & _ & Hm); [lia|].
    rewrite get_entry_step by lia. erewrite bind_Ret by (eapply (IH (S l) h); [lia|exact Hh|exact Hd]).
    eapply next_entry_eq; [done|exact Hm|lia|done].
Qed.

(** Above an entry that is zero the entries below read as zero. *)
Lemma get_entry_zero l at_ : (l < 3)%nat → get_entry (S l) root at_ s = Ret 0 s → get_entry l root at_ s = Ret 0 s.
Proof. intros Hl E. rewrite get_entry_step by done. by erewrite bind_Ret by exact E. Qed.

End walk.

Lemma same_space_refl T s : same_space T T s s.
Proof. split; [by destruct s|done..]. Qed.

Lemma same_space_trans T1 T2 T3 s1 s2 s3 : same_space T1 T2 s1 s2 → same_space T2 T3 s2 s3 → same_space T1 T3 s1 s3.
Proof.
  intros [R1 P1 A1 W1 K1] [R2 P2 A2 W2 K2]. split.
  - rewrite R2, R1. by destruct s1.
  - by eapply space_kept_trans.
  - auto.
  - intros a Ha. rewrite W2, W1; [done| |done]. intros f x Hf. eapply Ha, A2, Hf.
  - intros v m h Hh. rewrite K2, K1 by auto. done.
Qed.

Lemma frames_left_alloc n s s' g : frames_left (S n) s → (∀ a, fr_free s' a ↔ fr_free s a ∧ a ≠ g) → frames_left n s'.
Proof.
  intros (fs & Hnd & Hlen & Hall) Hf. exists (filter (λ a, a ≠ g) fs). split; [by apply NoDup_filter|]. split.
  - clear -Hnd Hlen. assert (length fs <= S (length (filter (λ a, a ≠ g) fs)))%nat; [|lia]. clear Hlen.
    induction Hnd as [|x l Hx Hnd IH]; [simpl; lia|]. destruct (decide (x = g)) as [->|Hne].
    + rewrite filter_cons_False by naive_solver. rewrite filter_ne_id by done. simpl. lia.
    + rewrite filter_cons_True by done. simpl. lia.
  - apply Forall_forall. intros a [Ha Hin]%list_elem_of_filter. apply Hf. split; [|done]. by eapply Forall_forall in Hall.
Qed.

(** ** Allocating the tables of a path *)

(** The page [v] is not part of a large page. *)
Definition no_large (w : gmap Z Z) (T : gmap Z (nat * Z)) (v : Z) : Prop :=
  ∀ h e, T !! h = Some (1%nat, prefix 1 v) → w !! slot h 1 v = Some e → Z.testbit e 7 = false.

(** Flags for an entry that points to a table. *)
Record table_entry_flags (cf : Z) : Prop := {
  tf_present : Z.testbit cf 0 = true;
  tf_small : Z.testbit cf 7 = false;
  tf_address : mask cf = 0
}.

(** The table the body of the loop works on. *)
Lemma level_table s root T at_ l f :
  ptree (words s) root T → (1 <= l)%nat → T !! f = Some (l, prefix l (vpn at_)) →
  (if Z.of_nat l + 1 =? 4 then mret root
   else e ← GetPageMapEntryForDepth root at_ (Z.of_nat l + 1); mret (mask e)) s = Ret f s.
Proof.
  intros Ht Hl1 Hf. destruct (pt_frame _ _ _ Ht f _ _ Hf) as (_ & _ & Hl3). destruct (Z.eqb_spec (Z.of_nat l + 1) 4) as [E|E].
  - assert (l = 3%nat) as -> by lia. unfold mret, K_ret. f_equal. symmetry. eapply (pt_inj _ _ _ Ht); [exact Hf|].
    apply (root_prefix _ _ _ Ht), vpn_range.
  - destruct (parent _ _ _ Ht f l _ Hf) as (h & e & Hh & He & _ & _ & Hm); [lia|].
    replace (Z.of_nat l + 1) with (Z.of_nat (S l)) by lia. rewrite depth_entry by lia.
    erewrite bind_Ret by (by eapply get_entry_eq). by rewrite Hm.
Qed.

(** The entry the loop writes when there is a table already. *)
Definition raise_entry (entry cpuFlags : Z) : Z :=
  let entry := if has_flag entry (bit 63) && negb (has_flag cpuFlags (bit 63)) then Z.ldiff entry (bit 63) else entry in
  let entry := if negb (has_flag entry (bit 2)) && has_flag cpuFlags (bit 2) then Z.lor entry (bit 2) else entry in
  if negb (has_flag entry (bit 1)) && has_flag cpuFlags (bit 1) then Z.lor entry (bit 1) else entry.

Lemma raise_entry_testbit e cf n : 0 <= n →
  Z.testbit (raise_entry e cf) n =
    if bool_decide (n = 63) then Z.testbit e 63 && Z.testbit cf 63
    else if bool_decide (n = 1 ∨ n = 2) then Z.testbit e n || Z.testbit cf n else Z.testbit e n.
Proof.
  intros Hn. unfold raise_entry. rewrite !has_flag_testbit by lia.
  assert (∀ x b c, 0 <= b → Z.testbit (if negb (Z.testbit x b) && (c : bool) then Z.lor x (bit b) else x) n =
    if bool_decide (n = b) then Z.testbit x b || c else Z.testbit x n) as Hlor.
  { intros x b c Hb. case_bool_decide as E; [subst|].
    - destruct (Z.testbit x b) eqn:Ex, c; simpl; rewrite ?Z.lor_spec, ?bit_testbit, ?Ex by lia; try done.
      by rewrite bool_decide_eq_true_2.
    - destruct (_ && _); [|done]. rewrite Z.lor_spec, bit_testbit, bool_decide_eq_false_2 by (done || lia). apply orb_false_r. }
  assert (∀ m, 0 <= m → Z.testbit (if Z.testbit e 63 && negb (Z.testbit cf 63) then Z.ldiff e (bit 63) else e) m =
    if bool_decide (m = 63) then Z.testbit e 63 && Z.testbit cf 63 else Z.testbit e m) as Hnx.
  { intros m Hm. case_bool_decide as E; [subst|].
    - destruct (Z.testbit e 63) eqn:Ex, (Z.testbit cf 63); simpl; rewrite ?Z.ldiff_spec, ?bit_testbit, ?Ex by lia; try done.
    - destruct (_ && _); [|done]. rewrite Z.ldiff_spec, bit_testbit, bool_decide_eq_false_2 by (done || lia). apply andb_true_r. }
  rewrite Hlor by lia. case_bool_decide as E1; [subst n|].
  - rewrite bool_decide_eq_false_2 by lia. rewrite bool_decide_eq_true_2 by lia. f_equal.
    destruct (negb _ && Z.testbit cf 2); rewrite ?Z.lor_spec, ?bit_testbit, Hnx by lia; rewrite ?bool_decide_eq_false_2 by lia; by rewrite ?orb_false_r.
  - rewrite Hlor by lia. case_bool_decide as E2; [subst n|].
    + rewrite bool_decide_eq_false_2 by lia. rewrite bool_decide_eq_true_2 by lia. f_equal. rewrite Hnx by lia.
      by rewrite bool_decide_eq_false_2 by lia.
    + rewrite Hnx by done. case_bool_decide; [done|]. by rewrite bool_decide_eq_false_2 by lia.
Qed.

Lemma raise_entry_ok e cf :
  Z.testbit e 7 = false → Z.testbit (raise_entry e cf) 0 = Z.testbit e 0 ∧ Z.testbit (raise_entry e cf) 7 = false ∧
  mask (raise_entry e cf) = mask e ∧ rle (e_rights e) (e_rights (raise_entry e cf)) ∧ rle (e_rights cf) (e_rights (raise_entry e cf)).
Proof.
  intros H7. split; [by rewrite raise_entry_testbit|]. split; [by rewrite raise_entry_testbit|]. split; [|split].
  - apply Z.bits_inj'. intros n Hn. unfold mask. rewrite !Z.land_spec, raise_entry_testbit by done.
    case_bool_decide; [subst; by rewrite !andb_false_r|]. case_bool_decide as E; [|done].
    destruct E as [-> | ->]; by rewrite !andb_false_r.
  - unfold rle, e_rights. simpl. rewrite !raise_entry_testbit by lia. simpl.
    destruct (Z.testbit e 1), (Z.testbit e 2), (Z.testbit e 63), (Z.testbit cf 63); naive_solver.
  - unfold rle, e_rights. simpl. rewrite !raise_entry_testbit by lia. simpl.
    destruct (Z.testbit e 1), (Z.testbit e 2), (Z.testbit e 63), (Z.testbit cf 63), (Z.testbit cf 1), (Z.testbit cf 2); naive_solver.
Qed.

(** What a step of the loop leaves for the page [v]: the table [g] of the level
    below, and an entry of [f] that grants [cf]. *)
Record level_done (s : gst) (T : gmap Z (nat * Z)) (v cf f : Z) (l : nat) (root : Z) (s' : gst) (T' : gmap Z (nat * Z)) (g : Z) : Prop := {
  ld_inv : paging_inv s' root T';
  ld_same : same_space T T' s s';
  ld_table : T' !! g = Some (l, prefix l v);
  ld_grant : ∃ e, words s' !! slot f (S l) v = Some e ∧ rle (e_rights cf) (e_rights e);
  ld_above h k : T !! h = Some (k, prefix k v) → h ≠ f → words s' !! slot h k v = words s !! slot h k v;
  ld_below h k e : T' !! h = Some (k, prefix k v) → (k <= l)%nat → words s' !! slot h k v = Some e →
    e = 0 ∨ T !! h = Some (k, prefix k v) ∧ words s !! slot h k v = Some e;
  ld_large : l ≠ 0%nat → no_large (words s) T v → no_large (words s') T' v;
  ld_left n : frames_left (S n) s → frames_left n s'
}.

Lemma paging_inv_words s root T T' w :
  paging_inv s root T → (∀ a, is_Some (w !! a) ↔ is_Some (words s !! a)) → ptree w root T' →
  (∀ f x, T' !! f = Some x → fr_used s f) → paging_inv (s <| words := w |>) root T'.
Proof.
  intros [Ht Hfr Hu] Hw Ht' Hu'. destruct (fr_stable s (s <| words := w |>) Hfr) as (Hfr' & _ & Hus); [done|done|].
  split; [done|done|]. intros f x Hf. apply Hus. by eapply Hu'.
Qed.

Lemma frames_left_stable s s' n : fr_inv s → pm s' = pm s → (∀ a, is_Some (words s' !! a) ↔ is_Some (words s !! a)) →
  frames_left (S n) s → frames_left n s'.
Proof.
  intros Hi Hp Hw (fs & Hnd & Hl & Hall). destruct (fr_stable s s' Hi Hp Hw) as (_ & Hf & _). exists fs. split; [done|]. split; [lia|].
  eapply Forall_impl; [exact Hall|]. intros a Ha. by apply Hf.
Qed.

Lemma slot_in f l v : f <= slot f l v < f + 4096.
Proof. unfold slot. pose proof (idx_range l v). lia. Qed.

(** The entry points to a table already. *)
Lemma level_raise s root T v cf l f e :
  paging_inv s root T → T !! f = Some (S l, prefix (S l) v) → words s !! slot f (S l) v = Some e → e ≠ 0 → Z.testbit e 7 = false →
  level_done s T v cf f l root (s <| words ::= <[slot f (S l) v := raise_entry e cf]> |>) T (mask e).
Proof.
  intros Hi Hf He H0 H7. pose proof Hi as [Ht Hfr Hu]. pose proof (idx_range (S l) v) as Hix.
  destruct (pt_entry _ _ _ Ht f l _ _ e Hf Hix He H0) as [Hp _].
  destruct (raise_entry_ok e cf H7) as (R0 & R7 & Rm & Rr & Rc). rewrite Hp in R0.
  pose proof (entry_set_insert _ _ _ Ht f _ _ (raise_entry e cf) Hf Hix) as Hset.
  destruct (upgrade_entry _ _ _ Ht _ f l _ _ e (raise_entry e cf) Hf Hix He H0 H7 Hset R0 R7 Rm Rr) as [Ht' Hwalk].
  set (s' := s <| words ::= _ |>).
  assert (∀ a, is_Some (words s' !! a) ↔ is_Some (words s !! a)) as Hdom by (apply insert_dom; by rewrite He).
  assert (∀ h k, T !! h = Some (k, prefix k v) → h ≠ f → words s' !! slot h k v = words s !! slot h k v) as Habove.
  { intros h k Hh Hne. eapply Hset; [exact Hh|apply idx_range|by left]. }
  split.
  - exact (paging_inv_words s root T T _ Hi Hdom Ht' Hu).
  - split; [by destruct s|by apply kept_words|done| |done]. intros a Ha. simpl. apply lookup_insert_ne. intros <-. eapply Ha; [exact Hf|apply slot_in].
  - exact (child _ _ _ Ht f l v e Hf He H0 H7).
  - exists (raise_entry e cf). split; [apply lookup_insert_eq|done].
  - done.
  - intros h k d Hh Hk Hd. right. split; [done|]. rewrite Habove in Hd; [done|done|]. intros ->. rewrite Hf in Hh. injection Hh. lia.
  - intros Hl Hnl h d Hh Hd. rewrite Habove in Hd; [by eapply Hnl|done|]. intros ->. rewrite Hf in Hh. injection Hh as ?. lia.
  - intros n. by apply frames_left_stable.
Qed.

(** There is no table yet. *)
Lemma level_new s root T v cf l f :
  paging_inv s root T → T !! f = Some (S l, prefix (S l) v) → words s !! slot f (S l) v = Some 0 → frames_left 1 s →
  table_entry_flags cf →
  ∃ g s', (r ← frame_alloc 1 1 None; zero_words PT_ENTRIES r.1;; store_word (slot f (S l) v) (Z.lor r.1 cf)) s = Ret () s' ∧
    level_done s T v cf f l root s' (<[g := (l, prefix l v)]> T) g.
Proof.
  intros Hi Hf He (fs & _ & Hlen & Hall) [C0 C7 Cm]. pose proof Hi as [Ht Hfr Hu]. pose proof (idx_range (S l) v) as Hix.
  destruct fs as [|a fs]; [simpl in Hlen; lia|]. apply Forall_cons in Hall as [Ha _].
  destruct (fr_alloc None s a Hfr Ha) as (g & s1 & E1 & Hfr1 & [R1 Kn1 W1] & Hgf & Hgr & Hga & Hgw & Hfree & Hused).
  assert (T !! g = None) as Hg.
  { destruct (T !! g) eqn:Eg; [|done]. exfalso. eapply (fr_disj s g); [done|by eapply Hu|done]. }
  assert (∀ h x j, T !! h = Some x → 0 <= j < 512 → ¬ (g <= h + 8 * j < g + 4096)) as Hout.
  { intros h [k q] j Hh Hj Hin. destruct (pt_frame _ _ _ Ht h _ _ Hh) as (_ & Hha & _). assert (h = g); [|congruence].
    pose proof (Z.div_mod h 4096 ltac:(lia)). pose proof (Z.div_mod g 4096 ltac:(lia)). lia. }
  destruct (zero_words_eq PT_ENTRIES g s1) as (w2 & E2 & Hz & Ho & Hdom2); [exact Hgw|]. change (8 * Z.of_nat PT_ENTRIES) with 4096 in Ho.
  change (Z.of_nat PT_ENTRIES) with 512 in Hz.
  assert (∀ b, ¬ (g <= b < g + 4096) → w2 !! b = words s !! b) as Hw2 by (intros b Hb; rewrite Ho, W1 by done; done).
  assert (w2 !! slot f (S l) v = Some 0) as He2 by (rewrite Hw2; [done|by eapply Hout]).
  set (e' := Z.lor g cf). set (w3 := <[slot f (S l) v := e']> w2).
  assert (entry_set (words s) T w3 f (idx (S l) v) e') as Hset.
  { split; [apply lookup_insert_eq|]. intros h x j Hh Hj Hne. unfold w3. rewrite lookup_insert_ne.
    - rewrite Hw2; [done|by eapply Hout].
    - eapply (slot_other _ _ _ Ht); [exact Hf|exact Hh|done|done|destruct Hne; [left|right]; by apply not_eq_sym]. }
  assert (∀ j, 0 <= j < 512 → w3 !! (g + 8 * j) = Some 0) as Hz3.
  { intros j Hj. unfold w3. rewrite lookup_insert_ne; [by apply Hz|]. intros E. apply (Hout f _ _ Hf Hix). fold (slot f (S l) v). lia. }
  assert (mask e' = g) as Hm by (apply entry_mask; [lia|done|done]).
  destruct (new_table _ _ _ Ht w3 f l _ _ e' g Hf Hix He Hg Hgr Hga Hset Hz3) as [Ht3 Hwalk]; [| |done|].
  { unfold e'. by rewrite Z.lor_spec, C0, orb_true_r. }
  { unfold e'. rewrite Z.lor_spec, C7, orb_false_r. apply frame_low; [done|lia]. }
  assert (prefix (S l) v * 512 + idx (S l) v = prefix l v) as Hpre by (unfold prefix; by rewrite (idx_split (S l) v)).
  rewrite Hpre in Ht3. set (s3 := s1 <| words := w3 |>).
  assert (∀ b, is_Some (words s3 !! b) ↔ is_Some (words s1 !! b)) as Hdom.
  { intros b. simpl. unfold w3. rewrite insert_dom by (by rewrite He2). apply Hdom2. }
  destruct (fr_stable s1 s3 Hfr1 eq_refl Hdom) as (Hfr3 & Hfree3 & Hused3).
  exists g, s3. split.
  { erewrite bind_Ret by exact E1. cbn [fst]. erewrite bind_Ret by exact E2. unfold store_word.
    erewrite store_eq by exact He2. by destruct s1. }
  assert (∀ h k, T !! h = Some (k, prefix k v) → h ≠ f → words s3 !! slot h k v = words s !! slot h k v) as Habove.
  { intros h k Hh Hne. eapply Hset; [exact Hh|apply idx_range|by left]. }
  split.
  - split; [done|done|]. intros h x Hh. apply Hused3, Hused. destruct (decide (h = g)) as [->|Hne]; [by right|left].
    rewrite lookup_insert_ne in Hh by done. by eapply Hu.
  - split; [unfold s3; rewrite R1; by destruct s| | |intros b Hb|done].
    + split; [exact Kn1|]. intros b Hb Hub. split; [by apply Hused3, Hused; left|]. apply lookup_insert_None. split; [done|].
      intros <-. exact (fr_disj s g Hfr Hub Hgf).
    + intros h x Hh. rewrite lookup_insert_ne; [done|]. intros <-. congruence.
    + simpl. unfold w3. rewrite lookup_insert_ne.
      * apply Hw2. apply (Hb g (l, prefix l v)), lookup_insert_eq.
      * intros <-. apply (Hb f (S l, prefix (S l) v)); [|apply slot_in]. rewrite lookup_insert_ne; [done|]. intros <-. congruence.
  - apply lookup_insert_eq.
  - exists e'. split; [apply lookup_insert_eq|]. unfold e'. rewrite entry_rights by (done || lia). apply rle_refl.
  - done.
  - intros h k d Hh Hk Hd. destruct (decide (h = g)) as [->|Hne].
    + left. simpl in Hd. unfold slot in Hd. rewrite Hz3 in Hd by apply idx_range. by injection Hd as <-.
    + right. rewrite lookup_insert_ne in Hh by done. split; [done|]. rewrite Habove in Hd; [done|done|].
      intros ->. rewrite Hf in Hh. injection Hh. lia.
  - intros Hl Hnl h d Hh Hd. destruct (decide (h = g)) as [->|Hne].
    + simpl in Hd. unfold slot in Hd. rewrite Hz3 in Hd by apply idx_range. injection Hd as <-. apply Z.testbit_0_l.
    + rewrite lookup_insert_ne in Hh by done. rewrite Habove in Hd; [by eapply Hnl|done|]. intros ->. rewrite Hf in Hh. injection Hh as ?. lia.
  - intros n Hn. eapply frames_left_alloc in Hn; [|exact Hfree]. destruct Hn as (gs & ? & ? & Hall).
    exists gs. split; [done|]. split; [done|]. eapply Forall_impl; [exact Hall|]. intros b Hb. by apply Hfree3.
Qed.

Lemma allocate_level_ok s root T at_ cf l f :
  paging_inv s root T → T !! f = Some (S l, prefix (S l) (vpn at_)) → frames_left 1 s → table_entry_flags cf →
  (l = 0%nat → no_large (words s) T (vpn at_)) →
  ∃ s' T' g, allocate_level root at_ cf (Z.of_nat (S l)) s = Ret () s' ∧ level_done s T (vpn at_) cf f l root s' T' g.
Proof.
  intros Hi Hf Hl Hc Hnl. pose proof Hi as [Ht Hfr Hu]. pose proof (idx_range (S l) (vpn at_)) as Hix.
  destruct (pt_words _ _ _ Ht f _ _ Hf Hix) as [e He]. destruct (pt_frame _ _ _ Ht f _ _ Hf) as (_ & _ & Hl3).
  unfold allocate_level. erewrite bind_Ret by (eapply level_table; [exact Ht|lia|exact Hf]).
  rewrite entry_of_slot by done. unfold load_word. erewrite bind_Ret by (apply load_eq; exact He).
  destruct (truthy e) eqn:Et; cbn [negb].
  - apply truthy_true in Et. assert (Z.testbit e 7 = false) as H7.
    { destruct (Z.testbit e 7) eqn:E7; [|done]. destruct (pt_entry _ _ _ Ht f l _ _ e Hf Hix He Et) as [_ H]. rewrite E7 in H.
      subst l. rewrite (Hnl eq_refl f e Hf He) in E7. done. }
    eexists _, T, (mask e). split; [|by apply level_raise]. unfold store_word. erewrite store_eq by exact He. by destruct s.
  - apply truthy_false in Et as ->. destruct (level_new s root T (vpn at_) cf l f Hi Hf He Hl Hc) as (g & s' & E & Hd). eauto.
Qed.

(** What the loop from level [l0] down to [l] leaves: the table [g] of level [l],
    and entries on the way that grant [cf]. *)
Record path_done (s : gst) (T : gmap Z (nat * Z)) (v cf : Z) (l0 l : nat) (root : Z) (s' : gst) (T' : gmap Z (nat * Z)) (g : Z) : Prop := {
  pd_inv : paging_inv s' root T';
  pd_same : same_space T T' s s';
  pd_table : T' !! g = Some (l, prefix l v);
  pd_grant h k e : T' !! h = Some (k, prefix k v) → (l < k <= l0)%nat → words s' !! slot h k v = Some e →
    rle (e_rights cf) (e_rights e);
  pd_above h k : T !! h = Some (k, prefix k v) → (l0 < k)%nat → words s' !! slot h k v = words s !! slot h k v;
  pd_below h k e : T' !! h = Some (k, prefix k v) → (k <= l)%nat → words s' !! slot h k v = Some e →
    e = 0 ∨ T !! h = Some (k, prefix k v) ∧ words s !! slot h k v = Some e;
  pd_left n : frames_left (l0 - l + n) s → frames_left n s'
}.

Lemma allocate_levels_ok n s root T at_ cf l f :
  paging_inv s root T → T !! f = Some ((n + l)%nat, prefix (n + l) (vpn at_)) → frames_left n s → table_entry_flags cf →
  (l = 0%nat → n ≠ 0%nat → no_large (words s) T (vpn at_)) →
  ∃ s' T' g, allocate_levels n root at_ cf (Z.of_nat (n + l)) s = Ret () s' ∧
    path_done s T (vpn at_) cf (n + l) l root s' T' g.
Proof.
  revert s T f. induction n as [|n IH]; intros s T f Hi Hf Hl Hc Hnl.
  { exists s, T, f. split; [done|]. split; [done|apply same_space_refl|done|lia|done|by right|].
    intros n. simpl. by rewrite Nat.sub_diag. }
  destruct (allocate_level_ok s root T at_ cf (n + l) f) as (s1 & T1 & g1 & E1 & [I1 S1 B1 (e1 & He1 & Hr1) A1 D1 L1 F1]); try done.
  { destruct Hl as (fs & ? & ? & ?). exists fs. split; [done|]. split; [lia|done]. }
  { intros H0. apply Hnl; lia. }
  destruct (IH s1 T1 g1 I1 B1) as (s2 & T2 & g2 & E2 & [I2 S2 B2 G2 A2 D2 F2]); [by apply F1|done| |].
  { intros -> Hn. apply L1; [lia|by apply Hnl]. }
  exists s2, T2, g2. split.
  { cbn [allocate_levels]. change (S n + l)%nat with (S (n + l)). erewrite bind_Ret by exact E1.
    replace (Z.of_nat (S (n + l)) - 1) with (Z.of_nat (n + l)) by lia. exact E2. }
  assert (T1 !! f = Some (S (n + l), prefix (S (n + l)) (vpn at_))) as Hf1 by (by apply (ss_tables _ _ _ _ S1)).
  assert (T2 !! f = Some (S (n + l), prefix (S (n + l)) (vpn at_))) as Hf2 by (by apply (ss_tables _ _ _ _ S2)).
  split; [done|by eapply same_space_trans|done| | | |].
  - intros h k e Hh Hk He. destruct (decide (k = S (n + l))) as [->|Hne]; [|apply (G2 h k e); [done|lia|done]].
    assert (h = f) as -> by (eapply (pt_inj _ _ _ (pi_tree _ _ _ I2)); [exact Hh|exact Hf2]).
    rewrite A2 in He by (done || lia). rewrite He1 in He. by injection He as <-.
  - intros h k Hh Hk. rewrite A2; [|by apply (ss_tables _ _ _ _ S1)|lia]. apply A1; [done|].
    intros ->. rewrite Hf in Hh. injection Hh. lia.
  - intros h k e Hh Hk He. destruct (D2 h k e Hh Hk He) as [?|[Hh1 He']]; [by left|]. apply (D1 h k e Hh1); [lia|done].
  - intros m Hm. apply F2, F1. by replace (S (n + l - l + m)) with (S n + l - l + m)%nat by lia.
Qed.

(** The flags of the upper entries grant what the flags of the page grant. *)
Lemma table_flags_testbit c n : 0 <= n →
  Z.testbit (table_flags c) n = (bool_decide (n = 0) || Z.testbit c n && negb (Z.testbit 0xfffffffff0000 n)) &&
    negb (bool_decide (n = 3)) && negb (bool_decide (n = 4)) && negb (bool_decide (n = 7)) && negb (Z.testbit 0x07F0000000000E00 n).
Proof.
  intros Hn. unfold table_flags. rewrite !Z.ldiff_spec, Z.lor_spec, Z.ldiff_spec, !bit_testbit by lia.
  assert (∀ m, bool_decide (m = n) = bool_decide (n = m)) as Hsym by (intros m; apply bool_decide_ext; split; congruence).
  change 1 with (bit 0). rewrite bit_testbit by lia. rewrite !Hsym. by rewrite orb_comm.
Qed.

(** Flags that do not reach into the address. *)
Lemma table_flags_ok c : mask c = 0 → table_entry_flags (table_flags c) ∧ e_rights (table_flags c) = e_rights c.
Proof.
  intros Hc. split; [split|].
  - by rewrite table_flags_testbit.
  - rewrite table_flags_testbit by lia. by rewrite !andb_false_r.
  - apply Z.bits_inj'. intros n Hn. unfold mask. rewrite Z.land_spec, table_flags_testbit, Z.testbit_0_l by done.
    assert (Z.testbit c n && Z.testbit 0xffffffffff000 n = false) as H.
    { rewrite <- Z.land_spec. unfold mask in Hc. by rewrite Hc, Z.testbit_0_l. }
    destruct (Z.testbit 0xffffffffff000 n) eqn:E; [|by rewrite andb_false_r]. rewrite andb_true_r in *. rewrite H.
    case_bool_decide; [by subst|done].
  - unfold e_rights. rewrite !table_flags_testbit by lia. simpl. by rewrite !andb_true_r.
Qed.

Lemma Arch_AllocatePageMapAt_ok s root T at_ c l :
  paging_inv s root T → (l < 3)%nat → frames_left (3 - l) s → mask c = 0 → (l = 0%nat → no_large (words s) T (vpn at_)) →
  ∃ s' T' g, Arch_AllocatePageMapAt root at_ c (Z.of_nat (3 - l)) s = Ret (Some g) s' ∧
    path_done s T (vpn at_) (table_flags c) 3 l root s' T' g.
Proof.
  intros Hi Hl Hfr Hc Hnl. destruct (table_flags_ok c Hc) as [Hf _].
  assert (3 = 3 - l + l)%nat as E3 by lia. pose proof (root_prefix _ _ _ (pi_tree _ _ _ Hi) (vpn at_) (vpn_range _)) as Hr.
  rewrite E3 in Hr. destruct (allocate_levels_ok (3 - l) s root T at_ (table_flags c) l root Hi Hr Hfr Hf) as (s' & T' & g & E & Hd).
  { auto. }
  exists s', T', g. rewrite <- E3 in Hd, E. split; [|done]. unfold Arch_AllocatePageMapAt.
  rewrite (proj2 (Z.ltb_ge 3 _)), (proj2 (Z.eqb_neq _ 0)) by lia. cbn [orb]. rewrite Nat2Z.id.
  erewrite bind_Ret by exact E. replace (4 - Z.of_nat (3 - l)) with (Z.of_nat (S l)) by lia. rewrite depth_entry by lia.
  destruct Hd as [[Ht' _ _] _ Hg _ _ _ _]. destruct (parent _ _ _ Ht' g l (vpn at_) Hg Hl) as (h & e & Hh & He & _ & _ & Hm).
  erewrite bind_Ret by (eapply get_entry_eq; [exact Ht'|exact Hh|exact He]). by rewrite Hm.
Qed.

(** ** Cached translations *)

(** The translations cached for the current address space are those of its tables. *)
Definition coherent (s : gst) (root : Z) : Prop :=
  cr3 s = root → ∀ v c, tlb s !! v = Some c → 0 <= v < 2 ^ 36 ∧ translate s root v = Some (t_frame c, t_huge c, mkR (t_w c) (t_u c) (t_x c)).

Definition drop_tlb (at_ : Z) (s : gst) : gst :=
  s <| tlb ::= filter (λ p : Z * cached, ¬ (p.1 = vpn at_ ∨ (t_huge p.2 = true ∧ p.1 / 512 = vpn at_ / 512))) |>.

Lemma invlpg_impl_eq at_ s : invlpg_impl at_ s = Ret OBOS_STATUS_SUCCESS (drop_tlb at_ s).
Proof using FL.
  unfold invlpg_impl, invlpg. rewrite (bind_Ret _ _ _ _ _ (modify_eq _ _)), (bind_Ret _ _ _ _ _ (gets_eq _ _)), (bind_Ret _ _ _ _ _ (gets_eq _ _)).
  destruct (_ || _); [done|]. by rewrite (bind_Ret _ _ _ _ _ (fr_shootdown _ _)).
Qed.

Lemma paging_inv_tlb s root T m : paging_inv s root T → paging_inv (s <| tlb := m |>) root T.
Proof.
  intros [Ht Hfr Hu]. destruct (fr_stable s (s <| tlb := m |>) Hfr) as (Hfr' & _ & Hus); [done..|].
  split; [done|done|]. intros f x Hf. apply Hus. by eapply Hu.
Qed.

(** After a change at the pages of [P], which are not cached any more, the cache
    is right. *)
Lemma coherent_change s s' root (P : Z → Prop) :
  coherent s root → cr3 s' = cr3 s → (cr3 s = root → ∀ v c, tlb s' !! v = Some c → tlb s !! v = Some c ∧ ¬ P v) →
  (∀ v, 0 <= v < 2 ^ 36 → ¬ P v → translate s' root v = translate s root v) → coherent s' root.
Proof.
  intros Hco Hcr Htlb Htr Hroot v c Hv. rewrite Hcr in Hroot. destruct (Htlb Hroot v c Hv) as [Hv0 Hp].
  destruct (Hco Hroot v c Hv0) as [Hr Ht]. split; [done|]. by rewrite Htr.
Qed.

Lemma drop_tlb_lookup at_ s v c : tlb (drop_tlb at_ s) !! v = Some c → tlb s !! v = Some c ∧ v ≠ vpn at_.
Proof. simpl. intros [H Hn]%map_lookup_filter_Some. split; [done|]. naive_solver. Qed.

(** ** Mapping a page *)

(** The flags of the entry: present, and without XD when it is not enabled. *)
Definition page_flags (s : gst) (flags : Z) : Z :=
  if negb (efer_nxe s) then Z.ldiff (Z.lor flags 1) (bit 63) else Z.lor flags 1.

Lemma page_flags_ok s flags : mask flags = 0 → mask (page_flags s flags) = 0 ∧ Z.testbit (page_flags s flags) 0 = true.
Proof.
  intros Hm. unfold page_flags. change 1 with (bit 0). destruct (efer_nxe s); cbn [negb].
  - rewrite mask_lor_bit by (done || lia). by rewrite Z.lor_spec, bit_testbit, orb_true_r.
  - rewrite mask_ldiff_bit, mask_lor_bit by (done || lia). by rewrite Z.ldiff_spec, Z.lor_spec, !bit_testbit, orb_true_r by lia.
Qed.

(** What an entry at the end of the path of level [l] translates the page [u] to. *)
Definition leaf_value (l : nat) (e u : Z) : option (Z * bool * rights) :=
  if negb (Z.testbit e 0) then None else
  Some (match l with O => (mask e, false) | _ => (Z.ldiff (mask e) 0x1fffff + 4096 * (u mod 512), true) end, e_rights e).

(** The entry is of the lowest level, or a large page comes or goes. *)
Definition leaf_change (l : nat) (e e' : Z) : Prop :=
  l = 0%nat ∨ l = 1%nat ∧ (e = 0 ∨ Z.testbit e 7 = true) ∧ (e' = 0 ∨ Z.testbit e' 0 = true ∧ Z.testbit e' 7 = true).

Lemma same_path l k u v : u / 512 ^ Z.of_nat l = v / 512 ^ Z.of_nat l → (l <= k)%nat → prefix k u = prefix k v ∧ idx k u = idx k v.
Proof.
  intros E Hk. assert (u / 512 ^ Z.of_nat k = v / 512 ^ Z.of_nat k) as Ek.
  { replace (Z.of_nat k) with (Z.of_nat l + Z.of_nat (k - l)) by lia. rewrite Z.pow_add_r, <- !Z.div_div by (try apply Z.pow_pos_nonneg; lia).
    by rewrite E. }
  unfold idx. rewrite Ek. split; [|done]. pose proof (idx_split k u) as Hu. pose proof (idx_split k v) as Hv.
  unfold prefix. unfold idx in *. rewrite Ek in Hu. lia.
Qed.

(** Writing such an entry once its table is there. *)
Lemma write_leaf s root T v l g e e' :
  paging_inv s root T → 0 <= v < 2 ^ 36 → T !! g = Some (l, prefix l v) → words s !! slot g l v = Some e → leaf_change l e e' →
  (Z.testbit e' 0 = true → ∀ h k d, T !! h = Some (k, prefix k v) → (l < k)%nat → words s !! slot h k v = Some d →
     rle (e_rights e') (e_rights d)) →
  let s2 := s <| words ::= <[slot g l v := e']> |> in
  paging_inv s2 root T ∧
  (∀ u, 0 <= u < 2 ^ 36 → translate s2 root u =
     if decide (u / 512 ^ Z.of_nat l = v / 512 ^ Z.of_nat l) then leaf_value l e' u else translate s root u).
Proof.
  intros Hi Hv Hg He Hlc Hr s2. pose proof Hi as [Ht Hfr Hu]. pose proof (idx_range l v) as Hix.
  pose proof (entry_set_insert _ _ _ Ht g _ _ e' Hg Hix) as Hset.
  assert (∀ u, under l (prefix l v) (idx l v) u ↔ u / 512 ^ Z.of_nat l = v / 512 ^ Z.of_nat l) as Hun.
  { intros u. unfold under, prefix. by rewrite <- idx_split. }
  destruct (leaf_entry _ _ _ Ht _ g l _ _ e e' Hg Hix He Hset) as [Ht2 Hother]; [done| |].
  { intros H0 h k d u Hh Hk Hun' Hd'. apply Hun in Hun'. destruct (same_path l k u v Hun') as [Ep Ei]; [lia|].
    rewrite Ep in Hh. unfold slot in Hd'. rewrite Ei in Hd'. by apply (Hr H0 h k d). }
  split.
  { refine (paging_inv_words s root T T _ Hi _ Ht2 Hu). exact (insert_dom (words s) (slot g l v) e' (ex_intro _ e He)). }
  intros u Hur. unfold translate. change (words s2) with (<[g + 8 * idx l v := e']> (words s)). case_decide as Huv.
  - destruct (same_path l l u v Huv) as [Ep Ei]; [done|]. rewrite <- Ep in Hg. rewrite (walk_down _ _ _ Ht2 g l u Hur Hg).
    unfold leaf_value. destruct Hlc as [->|(-> & _ & Hl)]; cbn [walk]; unfold slot; rewrite Ei, lookup_insert_eq; simpl;
      destruct (Z.testbit e' 0) eqn:E0; try done. destruct Hl as [->|[_ ->]]; [by rewrite Z.testbit_0_l in E0|done].
  - apply Hother; [by rewrite Hun|]. by apply (root_prefix _ _ _ Ht).
Qed.

(** What a change of the mapping of the pages [P] leaves: they translate to [x],
    all others as before, and memory that is not in a table is as before. *)
Record mapped (s : gst) (root : Z) (T : gmap Z (nat * Z)) (P : Z → Prop) (x : Z → option (Z * bool * rights)) (s' : gst) : Prop := {
  mp_inv : ∃ T', paging_inv s' root T' ∧ kept T T' s s' ∧
    ∀ a, (∀ f y, T !! f = Some y ∨ T' !! f = Some y → ¬ f <= a < f + 4096) → words s' !! a = words s !! a;
  mp_rest : s' = s <| pm := pm s' |> <| words := words s' |> <| tlb := tlb s' |>;
  mp_page u : 0 <= u < 2 ^ 36 → P u → translate s' root u = x u;
  mp_other u : 0 <= u < 2 ^ 36 → ¬ P u → translate s' root u = translate s root u
}.

Lemma mapped_tlb s root T P x s' m : mapped s root T P x s' → mapped s root T P x (s' <| tlb := m |>).
Proof.
  intros [(T' & Hi & Hk & ?) Hr ? ?]. split; [|rewrite Hr; by destruct s|done..]. exists T'. split; [by apply paging_inv_tlb|]. split; [|done].
  eapply space_kept_trans; [exact Hk|]. destruct (fr_stable s' (s' <| tlb := m |>) (pi_frames _ _ _ Hi)) as (_ & _ & Hu); [done..|].
  split; [done|]. intros a Ha H'. split; [by apply Hu|done].
Qed.

(** The tables of the path are made, then the entry is written. *)
Lemma map_leaf s root T at_ c l e' :
  paging_inv s root T → (l < 3)%nat → frames_left (3 - l) s → mask c = 0 → (l = 0%nat → no_large (words s) T (vpn at_)) →
  e_rights e' = e_rights c → Z.testbit e' 0 = true → (l = 0%nat ∨ l = 1%nat ∧ Z.testbit e' 7 = true) →
  (l = 1%nat → ∀ h e, T !! h = Some (1%nat, prefix 1 (vpn at_)) → words s !! slot h 1 (vpn at_) = Some e → e = 0 ∨ Z.testbit e 7 = true) →
  ∃ s1 g e T1, Arch_AllocatePageMapAt root at_ c (Z.of_nat (3 - l)) s = Ret (Some g) s1 ∧
    T1 !! g = Some (l, prefix l (vpn at_)) ∧ paging_inv (s1 <| words ::= <[slot g l (vpn at_) := e']> |>) root T1 ∧
    words s1 !! slot g l (vpn at_) = Some e ∧ tlb s1 = tlb s ∧ cr3 s1 = cr3 s ∧
    (Z.testbit e 0 = false → ∀ u, 0 <= u < 2 ^ 36 → same_entry l (vpn at_) u → translate s root u = None) ∧
    (l = 1%nat → ∀ u y, 0 <= u < 2 ^ 36 → same_entry l (vpn at_) u → translate s root u = Some y → y.1.2 = true) ∧
    mapped s root T (same_entry l (vpn at_)) (leaf_value l e') (s1 <| words ::= <[slot g l (vpn at_) := e']> |>).
Proof.
  intros Hi Hl Hfr Hm Hnl Hre H0 Hlv Hold. pose proof (vpn_range at_) as Hv.
  destruct (Arch_AllocatePageMapAt_ok s root T at_ c l Hi) as (s1 & T1 & g & E1 & Hd); [done..|]. set (v := vpn at_) in *.
  pose proof Hd as [I1 S1 B1 G1 _ D1 _]. pose proof (pi_tree _ _ _ I1) as Ht1. pose proof (pi_tree _ _ _ Hi) as Ht.
  destruct (pt_words _ _ _ Ht1 g _ (idx l v) B1 (idx_range _ _)) as [e He]. change (words s1 !! slot g l v = Some e) in He.
  destruct (table_flags_ok c Hm) as [_ Hrt].
  assert (∀ u, 0 <= u < 2 ^ 36 → same_entry l v u → translate s root u = walk (words s1) l g u) as Hbefore.
  { intros u Hu Huv. destruct (same_path l l u v Huv) as [Ep _]; [done|]. rewrite <- Ep in B1. unfold translate.
    rewrite <- (ss_walk _ _ _ _ S1) by (by apply (root_prefix _ _ _ Ht)). by apply (walk_down _ _ _ Ht1). }
  assert (∀ u, same_entry l v u → slot g l u = slot g l v) as Hslot.
  { intros u Huv. unfold slot. by destruct (same_path l l u v Huv) as [_ ->]. }
  assert (l = 1%nat → e = 0 ∨ Z.testbit e 7 = true) as Hold1.
  { intros ->. destruct (D1 g 1%nat e B1 ltac:(lia) He) as [->|[Hg Hge]]; [by left|]. by apply (Hold eq_refl g). }
  destruct (write_leaf s1 root T1 v l g e e' I1 Hv B1 He) as [I2 Htr].
  { destruct Hlv as [->|[-> H7]]; [by left|right]. split; [done|]. split; [by apply Hold1|by right]. }
  { intros _ h k d Hh Hk Hdd. rewrite Hre, <- Hrt. apply (G1 h k d); [done| |done].
    destruct (pt_frame _ _ _ Ht1 h _ _ Hh) as (_ & _ & ?). lia. }
  exists s1, g, e, T1. split; [done|]. split; [done|]. split; [done|]. split; [done|]. split; [by rewrite (ss_rest _ _ _ _ S1)|]. split; [by rewrite (ss_rest _ _ _ _ S1)|].
  split; [|split; [|split]].
  - intros He0 u Hu Huv. rewrite Hbefore by done. destruct l; cbn [walk]; rewrite Hslot, He by done; simpl; by rewrite He0.
  - intros Hl1 u y Hu Huv. rewrite Hbefore by done. subst l. cbn [walk]. rewrite Hslot, He by done. simpl.
    destruct (Z.testbit e 0) eqn:Ee0; [|done]. destruct (Hold1 eq_refl) as [->| ->]; [by rewrite Z.testbit_0_l in Ee0|]. by intros [= <-].
  - exists T1. split; [done|]. split.
    { eapply space_kept_trans; [apply S1|]. apply (kept_words T1 s1); [apply I1|]. apply insert_dom. by rewrite He. }
    intros a Ha. simpl. rewrite lookup_insert_ne.
    + apply S1. intros f y Hf. apply (Ha f y). by right.
    + intros <-. apply (Ha g (l, prefix l v)); [by right|apply slot_in].
  - pose proof (ss_rest _ _ _ _ S1) as R1. rewrite R1. by destruct s.
  - intros u Hu Huv. rewrite Htr by done. by rewrite decide_True.
  - intros u Hu Huv. rewrite Htr, decide_False by done. unfold translate. apply (ss_walk _ _ _ _ S1), (root_prefix _ _ _ Ht u Hu).
Qed.

(** The invalidation after the write keeps the cache right. *)
Lemma map_coherent s root at_ l e s2 :
  (l = 0 ∨ l = 1)%nat → tlb s2 = tlb s → cr3 s2 = cr3 s →
  (Z.testbit e 0 = false → ∀ u, 0 <= u < 2 ^ 36 → same_entry l (vpn at_) u → translate s root u = None) →
  (l = 1%nat → ∀ u y, 0 <= u < 2 ^ 36 → same_entry l (vpn at_) u → translate s root u = Some y → y.1.2 = true) →
  (∀ u, 0 <= u < 2 ^ 36 → ¬ same_entry l (vpn at_) u → translate s2 root u = translate s root u) →
  coherent s root → coherent (if has_flag e 1 then drop_tlb at_ s2 else s2) root.
Proof.
  intros Hl Etlb Ecr Hnone Hlarge Hother Hco. set (s3 := if has_flag e 1 then _ else _).
  assert (translate s3 root = translate s2 root ∧ cr3 s3 = cr3 s) as [Et Ec] by (unfold s3; by destruct (has_flag e 1)).
  eapply (coherent_change s s3 root (same_entry l (vpn at_))); [done|done| |by rewrite Et].
  intros Hroot u c Hu. unfold s3 in Hu. rewrite has_flag_1 in Hu. destruct (Z.testbit e 0) eqn:E0.
  - simpl in Hu. apply map_lookup_filter_Some in Hu as [Hu Hn]. rewrite Etlb in Hu. split; [done|]. intros Huv. apply Hn. simpl.
    destruct (Hco Hroot u c Hu) as [Hur Ht]. destruct Hl as [-> | ->].
    + left. by rewrite !idx_0 in Huv.
    + right. split; [by apply (Hlarge eq_refl u _ Hur Huv Ht)|]. exact Huv.
  - rewrite Etlb in Hu. split; [done|]. intros Huv. destruct (Hco Hroot u c Hu) as [Hur Ht]. by rewrite Hnone in Ht.
Qed.

Lemma low_mask a n : 0 <= n → Z.land a (Z.ones n) = a mod 2 ^ n.
Proof. apply Z.land_ones. Qed.

(** The page at [at_] can be mapped to the frame [phys]. *)
Record mappable (s : gst) (root : Z) (T : gmap Z (nat * Z)) (at_ phys flags : Z) : Prop := {
  ma_inv : paging_inv s root T;
  ma_small : no_large (words s) T (vpn at_);
  ma_left : frames_left 3 s;
  ma_flags : mask flags = 0;
  ma_canonical : canonical at_ = true;
  ma_aligned : at_ mod 4096 = 0;
  ma_phys : 0 <= phys < 2 ^ 52;
  ma_phys_aligned : phys mod 4096 = 0
}.

Lemma map_page_run s root T at_ phys flags :
  mappable s root T at_ phys flags →
  ∃ s' T' g, Arch_MapPage root at_ phys flags s = Ret OBOS_STATUS_SUCCESS s' ∧ paging_inv s' root T' ∧
    T' !! g = Some (0%nat, prefix 0 (vpn at_)) ∧ words s' !! slot g 0 (vpn at_) = Some (Z.lor phys (page_flags s flags)) ∧
    cr3 s' = cr3 s ∧
    mapped s root T (λ u, u = vpn at_) (λ _, Some (phys, false, e_rights (page_flags s flags))) s' ∧
    (coherent s root → coherent s' root).
Proof using FL.
  intros [Hi Hnl Hfr Hfl Hcan Hat Hph Hpa]. destruct (page_flags_ok s flags Hfl) as [Hm H0]. set (fl := page_flags s flags) in *.
  assert (Z.testbit (Z.lor phys fl) 0 = true) as H0' by (by rewrite Z.lor_spec, H0, orb_true_r).
  destruct (map_leaf s root T at_ fl 0 (Z.lor phys fl)) as (s1 & g & e & T1 & E1 & Hg & I2 & He & Etlb & Ecr & Hnone & Hlarge & Hmap); try done.
  { lia. }
  { by apply entry_rights. }
  { by left. }
  set (s2 := s1 <| words ::= _ |>) in *. exists (if has_flag e 1 then drop_tlb at_ s2 else s2), T1, g. split; [|split_and!].
  - unfold Arch_MapPage. rewrite Hcan. cbn [negb]. change 0xfff with (Z.ones 12). rewrite !low_mask by lia. change (2 ^ 12) with 4096.
    rewrite Hat, Hpa. change (truthy 0 || truthy 0) with false. cbv iota.
    rewrite (bind_Ret _ _ _ _ _ (gets_eq _ _)). fold (page_flags s flags). fold fl.
    rewrite (mask_id phys) by done. change 3 with (Z.of_nat (3 - 0)). erewrite bind_Ret by exact E1.
    erewrite bind_Ret by (by apply deref_opt_eq). change 0 with (Z.of_nat 0). rewrite entry_of_slot by lia.
    unfold load_word. erewrite bind_Ret by (apply load_eq; exact He). unfold store_word. erewrite bind_Ret by (apply store_eq; exact He).
    change (Z.of_nat 0) with 0. destruct (has_flag e 1); unfold when; [|done].
    by erewrite bind_Ret by (erewrite bind_Ret by apply invlpg_impl_eq; reflexivity).
  - destruct (has_flag e 1); [by apply paging_inv_tlb|done].
  - done.
  - destruct (has_flag e 1); apply lookup_insert_eq.
  - by destruct (has_flag e 1).
  - assert (mapped s root T (λ u, u = vpn at_) (λ _, Some (phys, false, e_rights fl)) s2) as Hm2.
    { destruct Hmap as [M1 MR M2 M3]. split; [done|done| |].
      - intros u Hu ->. rewrite M2 by done. unfold leaf_value. rewrite H0', entry_mask, entry_rights by done. done.
      - intros u Hu Hne. apply M3; [done|]. by rewrite !idx_0. }
    destruct (has_flag e 1); [by apply mapped_tlb|done].
  - apply (map_coherent s root at_ 0 e s2); auto; apply Hmap.
Qed.

(** [C2] Mapping a page of 4 KiB that is not part of a large page, with three frames
    free for tables, makes its address translate to the frame with the rights of the
    flags, whatever was mapped there; no other page of the address space changes, no
    memory but that of tables is written, and the cached translations stay right. *)
Theorem map_page_correct s root T at_ phys flags :
  mappable s root T at_ phys flags →
  ∃ s', Arch_MapPage root at_ phys flags s = Ret OBOS_STATUS_SUCCESS s' ∧
    mapped s root T (λ u, u = vpn at_) (λ _, Some (phys, false, e_rights (page_flags s flags))) s' ∧
    (coherent s root → coherent s' root).
Proof using FL. intros H. destruct (map_page_run _ _ _ _ _ _ H) as (s' & _ & _ & ? & _ & _ & _ & _ & ? & ?). eauto. Qed.

(** [C34] Mapping a large page where no smaller ones are mapped makes its 512 pages
    translate to the frames of the large frame in order, and no others. *)
Theorem map_huge_page_correct s root T at_ phys flags :
  paging_inv s root T → frames_left 2 s →
  (∀ h e, T !! h = Some (1%nat, prefix 1 (vpn at_)) → words s !! slot h 1 (vpn at_) = Some e → e = 0 ∨ Z.testbit e 7 = true) →
  mask flags = 0 → Z.testbit flags 7 = false → canonical at_ = true → at_ mod 0x200000 = 0 →
  0 <= phys < 2 ^ 52 → phys mod 0x200000 = 0 →
  ∃ s', Arch_MapHugePage root at_ phys flags s = Ret OBOS_STATUS_SUCCESS s' ∧
    mapped s root T (λ u, u / 512 = vpn at_ / 512)
      (λ u, Some (phys + 4096 * (u mod 512), true, e_rights (page_flags s flags))) s' ∧
    (coherent s root → coherent s' root).
Proof using FL.
  intros Hi Hfr Hold Hfl H7 Hcan Hat Hph Hpa. destruct (page_flags_ok s flags Hfl) as [Hm H0]. set (fl := page_flags s flags) in *.
  assert (phys mod 4096 = 0) as Hpa' by (pose proof (Z.div_mod phys 0x200000 ltac:(lia)); apply Z.mod_divide; [lia|]; exists (512 * (phys / 0x200000)); lia).
  set (e' := Z.lor (Z.lor phys fl) (bit 7)).
  assert (Z.testbit e' 0 = true ∧ Z.testbit e' 7 = true ∧ e_rights e' = e_rights fl ∧ mask e' = phys) as (H0' & H7' & Hre & Hme).
  { unfold e'. split_and!.
    - by rewrite !Z.lor_spec, H0, orb_true_r.
    - by rewrite !Z.lor_spec, bit_testbit, orb_true_r.
    - rewrite <- (entry_rights phys fl) by done. unfold e_rights. by rewrite !(Z.lor_spec (Z.lor _ _)), !bit_testbit, !orb_false_r by lia.
    - rewrite mask_lor_bit by (done || lia). by apply entry_mask. }
  assert (Z.testbit fl 7 = false) as Hf7.
  { unfold fl, page_flags. change 1 with (bit 0). destruct (efer_nxe s); cbn [negb]; rewrite ?Z.ldiff_spec, Z.lor_spec, !bit_testbit, H7 by lia; done. }
  destruct (map_leaf s root T at_ fl 1 e') as (s1 & g & e & T1 & E1 & Hg & I2 & He & Etlb & Ecr & Hnone & Hlarge & Hmap); try done.
  { lia. }
  { by right. }
  set (s2 := s1 <| words ::= _ |>) in *. exists (if has_flag e 1 then drop_tlb at_ s2 else s2). split; [|split].
  - unfold Arch_MapHugePage. rewrite Hcan. cbn [negb]. change 0x1fffff with (Z.ones 21). rewrite !low_mask by lia. change (2 ^ 21) with 0x200000.
    rewrite Hat, Hpa. change (truthy 0 || truthy 0) with false. cbv iota.
    rewrite (bind_Ret _ _ _ _ _ (gets_eq _ _)). fold (page_flags s flags). fold fl. rewrite has_flag_testbit, Hf7 by lia.
    rewrite (mask_id phys) by done. change 2 with (Z.of_nat (3 - 1)). erewrite bind_Ret by exact E1.
    erewrite bind_Ret by (by apply deref_opt_eq). change (entry_of g at_ 1) with (entry_of g at_ (Z.of_nat 1)). rewrite entry_of_slot by lia.
    unfold load_word. erewrite bind_Ret by (apply load_eq; exact He). unfold store_word. erewrite bind_Ret by (apply store_eq; exact He).
    destruct (has_flag e 1); unfold when; [|done].
    by erewrite bind_Ret by (erewrite bind_Ret by apply invlpg_impl_eq; reflexivity).
  - assert (mapped s root T (λ u, u / 512 = vpn at_ / 512) (λ u, Some (phys + 4096 * (u mod 512), true, e_rights fl)) s2) as Hm2.
    { destruct Hmap as [M1 MR M2 M3]. split; [done|done| |].
      - intros u Hu Huv. rewrite M2 by done. unfold leaf_value. rewrite H0', Hre, Hme. cbn [negb]. do 4 f_equal.
        change 0x1fffff with (Z.ones 21). rewrite Z.ldiff_ones_r, Z.shiftl_mul_pow2, Z.shiftr_div_pow2 by lia.
        change (2 ^ 21) with 0x200000. pose proof (Z.div_mod phys 0x200000 ltac:(lia)). lia.
      - intros u Hu Hne. by apply M3. }
    destruct (has_flag e 1); [by apply mapped_tlb|done].
  - apply (map_coherent s root at_ 1 e s2); auto; apply Hmap.
Qed.

End ops.
