(* ===== verification/PagingUnmap.v ===== *)
(** * Unmapping, and asking about pages

    The other half of [PagingOps]: taking pages away with the tables that become
    empty, the physical address of a page, and its protection. *)

From S2P Require Import Prelude DList KState Irql ThreadList Pmm Paging PagingProofs PagingOps.

#[local] Arguments Z.testbit : simpl never.

Section ops.
Context `{FL : FrameLaws}.
#[local] Set Default Proof Using "Type".

(** ** Reading *)

(** The entry of a level above the lowest: that of the table on the path, or zero
    when the page is not mapped. *)
Lemma get_entry_cases s root T at_ l :
  ptree (words s) root T → (1 <= l <= 3)%nat →
  ∃ e, get_entry l root at_ s = Ret e s ∧
    ((∃ f, T !! f = Some (l, prefix l (vpn at_)) ∧ words s !! slot f l (vpn at_) = Some e) ∨
     (e = 0 ∧ translate s root (vpn at_) = None)).
Proof.
  intros Ht Hl. set (v := vpn at_). pose proof (vpn_range at_) as Hv. fold v in Hv.
  remember (3 - l)%nat as d eqn:Ed. revert l Hl Ed. induction d as [|d IH]; intros l Hl Ed.
  - assert (l = 3%nat) as -> by lia. pose proof (root_prefix _ _ _ Ht v Hv) as Hr.
    destruct (pt_words _ _ _ Ht root _ (idx 3 v) Hr (idx_range _ _)) as [e He]. exists e. split; [|left; eauto].
    by eapply (get_entry_eq s root T Ht 3 root).
  - destruct (IH (S l)) as (e & E & Hcase); [lia|lia|]. rewrite get_entry_step by lia. destruct Hcase as [(f & Hf & He)|[-> Hn]].
    + destruct (decide (e = 0)) as [->|Hne].
      { exists 0. split; [by erewrite bind_Ret by exact E|]. right. split; [done|]. unfold translate.
        rewrite (walk_down _ _ _ Ht f (S l) v Hv Hf). cbn [walk]. by rewrite He. }
      destruct (pt_entry _ _ _ Ht f l _ _ e Hf (idx_range _ _) He Hne) as [_ Hc].
      destruct (Z.testbit e 7) eqn:E7; [lia|]. pose proof (child _ _ _ Ht f l v e Hf He Hne E7) as Hch.
      destruct (pt_frame _ _ _ Ht _ _ _ Hch) as (Hgr & _). destruct (pt_words _ _ _ Ht _ _ (idx l v) Hch (idx_range _ _)) as [e' He'].
      exists e'. split; [|left; eauto]. erewrite bind_Ret by exact E. eapply next_entry_eq; [lia|done|lia|exact He'].
    + exists 0. split; [by erewrite bind_Ret by exact E|]. by right.
Qed.

(** ** Empty tables *)

(** What freeing the tables of a path leaves. *)
Record tables_freed (root : Z) (T T' : gmap Z (nat * Z)) (s s' : gst) : Prop := {
  tf_inv : paging_inv s' root T';
  tf_rest : s' = s <| pm := pm s' |> <| words := words s' |>;
  tf_kept : kept T T' s s';
  tf_free a : fr_free s a → fr_free s' a;
  tf_tables f x : T' !! f = Some x → T !! f = Some x;
  tf_words a : (∀ f x, T !! f = Some x → ¬ f <= a < f + 4096) → words s' !! a = words s !! a;
  tf_translate u : 0 <= u < 2 ^ 36 → translate s' root u = translate s root u
}.

Lemma tables_freed_refl root T s : paging_inv s root T → tables_freed root T T s s.
Proof. intros Hi. split; [done|by destruct s|done..]. Qed.

Lemma tables_freed_trans root T1 T2 T3 s1 s2 s3 :
  tables_freed root T1 T2 s1 s2 → tables_freed root T2 T3 s2 s3 → tables_freed root T1 T3 s1 s3.
Proof.
  intros [I1 R1 P1 F1 A1 W1 K1] [I2 R2 P2 F2 A2 W2 K2]. split; [done|rewrite R2, R1; by destruct s1|by eapply space_kept_trans|auto|auto| |].
  - intros a Ha. rewrite W2, W1; [done|done|]. intros f x Hf. eapply Ha, A1, Hf.
  - intros u Hu. by rewrite K2, K1.
Qed.

(** The table has an entry. *)
Definition table_used (w : gmap Z Z) (f : Z) : Prop := ∃ j e, 0 <= j < 512 ∧ w !! (f + 8 * j) = Some e ∧ e ≠ 0.

(** The table [g] of level [l] below [f] is freed when it is empty. *)
Lemma free_level_ok s root T at_ l f g :
  paging_inv s root T → (l < 2)%nat → T !! f = Some (S l, prefix (S l) (vpn at_)) → T !! g = Some (l, prefix l (vpn at_)) →
  ∃ s' T', free_level root at_ (Z.of_nat (S l)) s = Ret () s' ∧ tables_freed root T T' s s' ∧
    (∀ h x, T !! h = Some x → h ≠ g → T' !! h = Some x) ∧
    (is_Some (T' !! g) → table_used (words s') g) ∧ (T' !! g = None → fr_free s' g) ∧
    (∀ h x j, T !! h = Some x → h ≠ g → h ≠ f → 0 <= j < 512 → words s' !! (h + 8 * j) = words s !! (h + 8 * j)).
Proof.
  intros Hi Hl Hf Hg. pose proof Hi as [Ht Hfr Hu]. set (v := vpn at_) in *. pose proof (vpn_range at_) as Hv. fold v in Hv.
  destruct (parent _ _ _ Ht f (S l) v Hf) as (h & d & Hh & Hd & Hd0 & Hd7 & Hdm); [lia|].
  destruct (parent _ _ _ Ht g l v Hg) as (f' & e & Hf' & He & He0 & He7 & Hem); [lia|].
  assert (f' = f) as -> by (eapply (pt_inj _ _ _ Ht); [exact Hf'|exact Hf]). clear Hf'.
  destruct (pt_entry _ _ _ Ht h (S l) _ _ d Hh (idx_range _ _) Hd Hd0) as [Hdp _].
  assert (free_level root at_ (Z.of_nat (S l)) s = (
    empty ← words_zero PT_ENTRIES g; when empty (store_word (slot f (S l) v) 0;; frame_free g 1;; mret ())) s) as Erun.
  { unfold free_level. replace (Z.of_nat (S l) + 1) with (Z.of_nat (S (S l))) by lia. rewrite depth_entry by lia.
    pose proof (get_entry_eq s root T Ht (S (S l)) h at_ d Hh Hd) as Eg.
    erewrite bind_Ret by exact Eg. rewrite has_flag_1, Hdp. cbn [negb]. erewrite bind_Ret by exact Eg.
    rewrite Hdm, entry_of_slot by lia. unfold load_word. erewrite bind_Ret by (apply load_eq; exact He). by rewrite Hem. }
  rewrite Erun. rewrite (bind_Ret _ _ _ _ _ (words_zero_eq PT_ENTRIES g s (λ j Hj, pt_words _ _ _ Ht g _ j Hg Hj))).
  case_bool_decide as Hz; unfold when.
  2: { exists s, T. split; [done|]. split; [by apply tables_freed_refl|]. split; [done|]. split; [|split; [congruence|done]]. intros _.
       apply not_Forall_Exists in Hz; [|apply _]. apply Exists_exists in Hz as (j & Hj%elem_of_seqZ & Hj0).
       assert (0 <= j < 512) as Hj' by (change (Z.of_nat PT_ENTRIES) with 512 in Hj; lia).
       destruct (pt_words _ _ _ Ht g _ j Hg Hj') as [w Hw]. exists j, w. split; [done|]. split; [done|]. intros ->. by apply Hj0. }
  assert (∀ j, 0 <= j < 512 → words s !! (g + 8 * j) = Some 0) as Hz'.
  { intros j Hj. eapply (Forall_forall _ (seqZ 0 512)) in Hz; [exact Hz|]. apply elem_of_seqZ. lia. }
  assert (g ≠ f) as Hgf by (intros ->; rewrite Hf in Hg; injection Hg; lia).
  set (s1 := s <| words ::= <[slot f (S l) v := 0]> |>).
  assert (∀ j, 0 <= j < 512 → words s1 !! (g + 8 * j) = Some 0) as Hz1.
  { intros j Hj. simpl. rewrite lookup_insert_ne; [by apply Hz'|]. eapply (slot_other _ _ _ Ht); [exact Hf|exact Hg|apply idx_range|done|].
    left. by apply not_eq_sym. }
  destruct (fr_stable s s1 Hfr eq_refl) as (Hfr1 & Hfs1 & Hus1); [apply insert_dom; by rewrite He|].
  destruct (fr_release s1 g Hfr1) as (s2 & E2 & Hfr2 & [R2 Kn2 W2] & Hfr2' & Hus2);
    [apply Hus1; by eapply Hu|intros j Hj; rewrite Hz1 by done; eauto|exact (Hz1 1 ltac:(lia))|].
  assert (∀ h x j, T !! h = Some x → h ≠ g → 0 <= j < 512 → words s2 !! (h + 8 * j) = words s1 !! (h + 8 * j)) as Hw2.
  { intros b [k q] j Hb Hbg Hj. apply W2. intros Hin. destruct (pt_frame _ _ _ Ht b _ _ Hb) as (_ & Hba & _).
    destruct (pt_frame _ _ _ Ht g _ _ Hg) as (_ & Hga & _). apply Hbg.
    pose proof (Z.div_mod b 4096 ltac:(lia)). pose proof (Z.div_mod g 4096 ltac:(lia)). lia. }
  destruct (drop_table _ _ _ Ht (words s2) f l _ _ e g Hf (idx_range _ _) He He0 He7 Hem Hz') as [Ht2 Hwalk].
  { rewrite (Hw2 f _ _ Hf) by (done || apply idx_range). apply lookup_insert_eq. }
  { intros b x j Hb Hbg Hj Hne. rewrite (Hw2 b x j Hb Hbg Hj). simpl. apply lookup_insert_ne.
    eapply (slot_other _ _ _ Ht); [exact Hf|exact Hb|apply idx_range|done|]. destruct Hne; [left|right]; by apply not_eq_sym. }
  exists s2, (delete g T). split; [|split; [|split; [|split; [|split]]]].
  - unfold store_word. erewrite bind_Ret by (apply store_eq; exact He).
    refine (bind_Ret _ _ _ _ _ (E2 : frame_free g 1 _ = _)).
  - split.
    + split; [done|done|]. intros b x [Hbg Hb]%lookup_delete_Some. apply Hus2. split; [|done]. apply Hus1. by eapply Hu.
    + rewrite R2. by destruct s.
    + split; [exact Kn2|]. intros b Hb Hub. split; [|by rewrite lookup_delete_None; right]. apply Hus2. split; [by apply Hus1|]. intros ->. congruence.
    + intros b Hb. apply Hfr2'. left. by apply Hfs1.
    + intros b x [_ Hb]%lookup_delete_Some. done.
    + intros a Ha. rewrite W2 by (by eapply Ha). simpl. apply lookup_insert_ne. intros <-. eapply Ha; [exact Hf|apply slot_in].
    + intros u Hur. unfold translate. apply Hwalk; [by apply (root_prefix _ _ _ Ht)|].
      intros ->. rewrite (pt_root _ _ _ Ht) in Hg. injection Hg. lia.
  - intros b x Hb Hbg. by rewrite lookup_delete_ne.
  - rewrite lookup_delete_eq. by intros [].
  - intros _. apply Hfr2'. by right.
  - intros b x j Hb Hbg Hbf Hj. rewrite (Hw2 b x j Hb Hbg Hj). simpl. apply lookup_insert_ne.
    eapply (slot_other _ _ _ Ht); [exact Hf|exact Hb|apply idx_range|done|]. left. done.
Qed.

Lemma free_top root at_ s : free_level root at_ 3 s = Ret () s.
Proof. done. Qed.

Lemma Arch_FreePageMapAt_ok s root T at_ l g :
  paging_inv s root T → (l <= 1)%nat → T !! g = Some (l, prefix l (vpn at_)) →
  ∃ s' T', Arch_FreePageMapAt root at_ (Z.of_nat (3 - l)) s = Ret true s' ∧ tables_freed root T T' s s' ∧
    (∀ k h, (l <= k <= 1)%nat → T' !! h = Some (k, prefix k (vpn at_)) → table_used (words s') h) ∧
    (∀ h x, T !! h = Some x → T' !! h = None → fr_free s' h).
Proof.
  intros Hi Hl Hg. pose proof (pi_tree _ _ _ Hi) as Ht. destruct (parent _ _ _ Ht g l _ Hg) as (f & _ & Hf & _); [lia|].
  unfold Arch_FreePageMapAt. rewrite (proj2 (Z.ltb_ge 3 _)), (proj2 (Z.eqb_neq _ 0)) by lia. cbn [orb]. rewrite Nat2Z.id.
  replace (4 - Z.of_nat (3 - l)) with (Z.of_nat (S l)) by lia.
  destruct (free_level_ok s root T at_ l f g Hi ltac:(lia) Hf Hg) as (s1 & T1 & E1 & F1 & K1 & U1 & G1 & _).
  assert (∀ h x, T !! h = Some x → T1 !! h = None → h = g) as Only1.
  { intros h x Hh Hn. destruct (decide (h = g)); [done|]. by rewrite (K1 h x) in Hn. }
  assert (l = 0%nat ∨ l = 1%nat) as [-> | ->] by lia.
  - destruct (parent _ _ _ Ht f 1 _ Hf) as (h & _ & Hh & _); [lia|].
    assert (f ≠ g ∧ h ≠ g) as [Hfg Hhg] by (split; intros ->; congruence).
    assert (h ≠ f) as Hhf by (intros ->; congruence).
    destruct (free_level_ok s1 root T1 at_ 1 h f (tf_inv _ _ _ _ _ F1)) as (s2 & T2 & E2 & F2 & K2 & U2 & G2 & W2); [lia|by apply K1..|].
    exists s2, T2. split; [|split; [by eapply tables_freed_trans|split]].
    + simpl. erewrite bind_Ret; [reflexivity|]. erewrite bind_Ret by exact E1. erewrite bind_Ret by exact E2. done.
    + intros k b Hk Hb. pose proof (tf_tables _ _ _ _ _ F2 _ _ Hb) as Hb1. pose proof (tf_tables _ _ _ _ _ F1 _ _ Hb1) as Hb0.
      assert (k = 0%nat ∨ k = 1%nat) as [-> | ->] by lia.
      * assert (b = g) as -> by (eapply (pt_inj _ _ _ Ht); [exact Hb0|exact Hg]).
        destruct U1 as (j & w & Hj & Hw & Hw0); [by eexists|]. exists j, w. split; [done|]. split; [|done].
        rewrite (W2 g _ j Hb1); [done|congruence..|done].
      * assert (b = f) as -> by (eapply (pt_inj _ _ _ Ht); [exact Hb0|exact Hf]). apply U2. by eexists.
    + intros b x Hb Hn. destruct (T1 !! b) as [y|] eqn:Hb1.
      * destruct (decide (b = f)) as [->|Hne]; [by apply G2|]. by rewrite (K2 b y) in Hn.
      * pose proof (Only1 b x Hb Hb1) as ->. apply (tf_free _ _ _ _ _ F2). by apply G1.
  - exists s1, T1. split; [|split; [done|split]].
    + simpl. erewrite bind_Ret; [reflexivity|]. erewrite bind_Ret by exact E1. done.
    + intros k b Hk Hb. assert (k = 1%nat) as -> by lia. pose proof (tf_tables _ _ _ _ _ F1 _ _ Hb) as Hb0.
      assert (b = g) as -> by (eapply (pt_inj _ _ _ Ht); [exact Hb0|exact Hg]). apply U1. by eexists.
    + intros b x Hb Hn. pose proof (Only1 b x Hb Hn) as ->. by apply G1.
Qed.

(** The pages that the page of [v] is mapped with: itself, or the large page. *)
Definition page_of (s : gst) (root v u : Z) : Prop :=
  match translate s root v with Some (_, true, _) => u / 512 = v / 512 | _ => u = v end.

(** The tables of the path of the page, below the second level, that are left have an
    entry, and the frames of those that are not left are free. *)
Definition path_clean (T T' : gmap Z (nat * Z)) (v : Z) (s' : gst) : Prop :=
  (∀ k f, (k <= 1)%nat → T' !! f = Some (k, prefix k v) → table_used (words s') f) ∧
  (∀ f x, T !! f = Some x → T' !! f = None → fr_free s' f).

(** The entry is cleared, the tables that become empty go, and the cached
    translation is dropped. *)
Lemma unmap_leaf s root T at_ l g e :
  paging_inv s root T → T !! g = Some (l, prefix l (vpn at_)) → words s !! slot g l (vpn at_) = Some e →
  l = 0%nat ∨ l = 1%nat ∧ Z.testbit e 7 = true ∧ Z.testbit e 0 = true →
  ∃ s', (store_word (entry_of g at_ (Z.of_nat l)) 0;; Arch_FreePageMapAt root at_ (Z.of_nat (3 - l));; invlpg_impl at_) s =
      Ret OBOS_STATUS_SUCCESS s' ∧
    mapped s root T (page_of s root (vpn at_)) (λ _, None) s' ∧ (coherent s root → coherent s' root) ∧ (∀ a, fr_free s a → fr_free s' a) ∧
    ∃ T', paging_inv s' root T' ∧ path_clean T T' (vpn at_) s'.
Proof using FL.
  intros Hi Hg He Hl. pose proof (vpn_range at_) as Hv. set (v := vpn at_) in *. pose proof (pi_tree _ _ _ Hi) as Ht.
  destruct (write_leaf s root T v l g e 0 Hi Hv Hg He) as [I1 Htr].
  { destruct Hl as [->|(-> & H7 & _)]; [by left|right]. auto. }
  { by rewrite Z.testbit_0_l. }
  set (s1 := s <| words ::= _ |>) in *.
  destruct (Arch_FreePageMapAt_ok s1 root T at_ l g I1) as (s2 & T2 & E2 & F2 & U2 & G2); [lia|done|].
  assert (∀ u, 0 <= u < 2 ^ 36 → same_entry l v u → translate s root u = leaf_value l e u) as Hbefore.
  { intros u Hu Huv. destruct (same_path l l u v Huv) as [Ep Ei]; [done|]. unfold translate.
    rewrite (walk_down _ _ _ Ht g l u Hu) by (by rewrite Ep). unfold leaf_value.
    destruct Hl as [->|(-> & H7 & H0)]; cbn [walk]; unfold slot; rewrite Ei; fold (slot g 0 v) (slot g 1 v); rewrite He; simpl;
      [by destruct (Z.testbit e 0)|by rewrite H0, H7]. }
  assert (∀ u, page_of s root v u ↔ same_entry l v u) as Hpo.
  { intros u. unfold page_of. rewrite Hbefore by done. unfold leaf_value.
    destruct Hl as [->|(-> & H7 & H0)]; [rewrite !idx_0; by destruct (Z.testbit e 0)|by rewrite H0]. }
  assert (∀ u, 0 <= u < 2 ^ 36 → translate s2 root u = if decide (same_entry l v u) then None else translate s root u) as Htr2.
  { intros u Hu. rewrite (tf_translate _ _ _ _ _ F2), Htr by done. case_decide; [|done]. unfold leaf_value. by rewrite Z.testbit_0_l. }
  exists (drop_tlb at_ s2). split; [|split; [|split; [|split]]].
  - rewrite entry_of_slot by lia. unfold store_word. erewrite bind_Ret by (apply store_eq; exact He).
    rewrite (bind_Ret _ _ _ _ _ (E2 : Arch_FreePageMapAt _ _ _ _ = _)). apply invlpg_impl_eq.
  - apply mapped_tlb. split.
    + exists T2. split; [apply F2|]. split.
      { eapply space_kept_trans; [apply (kept_words T s); [apply Hi|]|apply F2]. apply insert_dom. by rewrite He. }
      intros a Ha. rewrite (tf_words _ _ _ _ _ F2) by eauto. simpl. apply lookup_insert_ne.
      intros <-. eapply Ha; [left; exact Hg|apply slot_in].
    + pose proof (tf_rest _ _ _ _ _ F2) as R2. rewrite R2. by destruct s.
    + intros u Hu Hp. rewrite Htr2 by done. by rewrite decide_True by (by apply Hpo).
    + intros u Hu Hp. rewrite Htr2 by done. by rewrite decide_False by (by rewrite <- Hpo).
  - intros Hco. refine (map_coherent s root at_ l 1 s2 _ _ _ _ _ _ Hco); [lia|..].
    + by rewrite (tf_rest _ _ _ _ _ F2).
    + by rewrite (tf_rest _ _ _ _ _ F2).
    + done.
    + intros -> u y Hu Huv. rewrite Hbefore by done. unfold leaf_value. destruct (Z.testbit e 0); [|done]. by intros [= <-].
    + intros u Hu Hne. rewrite Htr2 by done. by rewrite decide_False.
  - intros a Ha. destruct (fr_stable s2 (drop_tlb at_ s2) (pi_frames _ _ _ (tf_inv _ _ _ _ _ F2))) as (_ & Hf & _); [done..|].
    apply Hf, (tf_free _ _ _ _ _ F2). destruct (fr_stable s s1 (pi_frames _ _ _ Hi)) as (_ & Hf1 & _); [done|apply insert_dom; by rewrite He|].
    by apply Hf1.
  - exists T2. split; [apply paging_inv_tlb, F2|]. split.
    + intros k b Hk Hb. destruct (decide (l <= k)%nat); [by apply (U2 k); [lia|]|]. assert (k = 0%nat ∧ l = 1%nat) as [-> ->] by lia.
      pose proof (tf_tables _ _ _ _ _ F2 _ _ Hb) as Hb0. destruct (parent _ _ _ Ht b 0 _ Hb0) as (g' & e' & Hg' & He' & _ & H7' & _); [lia|].
      assert (g' = g) as -> by (eapply (pt_inj _ _ _ Ht); [exact Hg'|exact Hg]). destruct Hl as [?|(_ & H7 & _)]; [done|]. congruence.
    + intros b x Hb Hn. destruct (fr_stable s2 (drop_tlb at_ s2) (pi_frames _ _ _ (tf_inv _ _ _ _ _ F2))) as (_ & Hf & _); [done..|].
      apply Hf. eauto.
Qed.

Lemma unmap_page_run s root T at_ :
  paging_inv s root T → canonical at_ = true → at_ mod 4096 = 0 →
  ∃ s', Arch_UnmapPage root at_ s = Ret OBOS_STATUS_SUCCESS s' ∧
    mapped s root T (page_of s root (vpn at_)) (λ _, None) s' ∧ (coherent s root → coherent s' root) ∧ (∀ a, fr_free s a → fr_free s' a) ∧
    ∃ T', paging_inv s' root T' ∧ (translate s root (vpn at_) ≠ None → path_clean T T' (vpn at_) s').
Proof using FL.
  intros Hi Hcan Hat. pose proof (vpn_range at_) as Hv. pose proof (pi_tree _ _ _ Hi) as Ht.
  destruct (get_entry_cases s root T at_ 1 Ht) as (e & E & Hcase); [lia|]. simpl in E.
  assert (translate s root (vpn at_) = None → mapped s root T (page_of s root (vpn at_)) (λ _, None) s) as Hsame.
  { intros Hn. split; [exists T; split; [done|]; split; [apply kept_refl|done]|by destruct s| |done]. unfold page_of. rewrite Hn. by intros u _ ->. }
  unfold Arch_UnmapPage. rewrite Hcan. cbn [negb]. change 0xfff with (Z.ones 12). rewrite low_mask by lia. change (2 ^ 12) with 4096.
  rewrite Hat. change (truthy 0) with false. cbv iota. erewrite bind_Ret by exact E. rewrite has_flag_1.
  destruct Hcase as [(f & Hf & He)|[-> Hn]]; [|exists s; split; [done|]; split; [auto|]; split; [done|]; split; [done|]; exists T; done]. destruct (Z.testbit e 0) eqn:E0; cbn [negb].
  2: { assert (translate s root (vpn at_) = None) as Hn; [|exists s; split; [done|]; split; [auto|]; split; [done|]; split; [done|]; exists T; done]. unfold translate. rewrite (walk_down _ _ _ Ht f 1 _ Hv Hf).
       cbn [walk]. rewrite He. simpl. by rewrite E0. }
  assert (e ≠ 0) as Hne by (intros ->; by rewrite Z.testbit_0_l in E0).
  rewrite has_flag_testbit by lia. destruct (Z.testbit e 7) eqn:E7.
  - destruct (parent _ _ _ Ht f 1 _ Hf) as (h & d & Hh & Hd & Hd0 & Hd7 & Hdm); [lia|].
    pose proof (get_entry_eq s root T Ht 2 h at_ d Hh Hd) as E2. simpl in E2. erewrite bind_Ret by exact E2.
    destruct (pt_entry _ _ _ Ht h 1 _ _ d Hh (idx_range _ _) Hd Hd0) as [Hdp _]. rewrite has_flag_1, Hdp. cbn [negb]. rewrite Hdm.
    destruct (unmap_leaf s root T at_ 1 f e) as (s' & ? & ? & ? & ? & T' & ? & ?); auto.
    exists s'. split; [done|]. split; [done|]. split; [done|]. split; [done|]. by exists T'.
  - rewrite bind_ret_l, has_flag_1, E0. cbn [negb]. pose proof (child _ _ _ Ht f 0 _ e Hf He Hne E7) as Hg.
    destruct (pt_words _ _ _ Ht _ _ (idx 0 (vpn at_)) Hg (idx_range _ _)) as [e0 He0].
    destruct (unmap_leaf s root T at_ 0 (mask e) e0) as (s' & ? & ? & ? & ? & T' & ? & ?); auto.
    exists s'. split; [done|]. split; [done|]. split; [done|]. split; [done|]. by exists T'.
Qed.


(** ** Protection *)

(** The flags [MmS_SetPageMapping] computes. *)
Definition prot_flags (p : page_prot) : Z :=
  let flags := 1 in
  let flags := if rw p then Z.lor flags (bit 1) else flags in
  let flags := if user p then Z.lor flags (bit 2) else flags in
  if negb (executable p) then Z.lor flags (bit 63) else flags.

Lemma prot_flags_testbit p n : 0 <= n → Z.testbit (prot_flags p) n =
  (bool_decide (n = 0) || rw p && bool_decide (n = 1) || user p && bool_decide (n = 2) || negb (executable p) && bool_decide (n = 63)).
Proof.
  intros Hn. assert (∀ m, bool_decide (m = n) = bool_decide (n = m)) as Hsym by (intros m; apply bool_decide_ext; split; congruence).
  assert (Z.testbit 1 n = bool_decide (n = 0)) as H1 by (change 1 with (bit 0); by rewrite bit_testbit, Hsym).
  unfold prot_flags. destruct (rw p), (user p), (executable p); cbn [negb]; rewrite ?Z.lor_spec, ?bit_testbit, ?H1, ?Hsym by lia;
    by rewrite ?andb_true_l, ?andb_false_l, ?orb_false_r, ?orb_assoc.
Qed.

Lemma prot_flags_mask p : mask (prot_flags p) = 0.
Proof.
  apply Z.bits_inj'. intros n Hn. unfold mask. rewrite Z.land_spec, prot_flags_testbit, Z.testbit_0_l by done.
  repeat case_bool_decide; subst; rewrite ?andb_false_r; done.
Qed.

Lemma page_aligned addr : addr mod 4096 = 0 → Z.ldiff addr 0xfff = addr.
Proof.
  intros Ha. change 0xfff with (Z.ones 12). rewrite Z.ldiff_ones_r, Z.shiftl_mul_pow2, Z.shiftr_div_pow2 by lia. change (2 ^ 12) with 4096.
  pose proof (Z.div_mod addr 4096 ltac:(lia)). lia.
Qed.

(** What a query finds at the end of the path of a page of 4 KiB. *)
Lemma query_leaf s root T addr g e x :
  ptree (words s) root T → T !! g = Some (0%nat, prefix 0 (vpn addr)) → words s !! slot g 0 (vpn addr) = Some e →
  addr mod 4096 = 0 → Z.testbit e 0 = true →
  MmS_QueryPageInfo root addr (Some x) s =
    Ret (OBOS_STATUS_SUCCESS, Some (addr, mkProt true (Z.testbit e 1) (Z.testbit e 2) (has_flag e (Z.lor (bit 5) (bit 6)))
           false (negb (Z.testbit e 63)) false false))
      (s <| words ::= <[slot g 0 (vpn addr) := Z.ldiff e (Z.lor (bit 5) (bit 6))]> |>).
Proof.
  intros Ht Hg He Ha H0. destruct (parent _ _ _ Ht g 0 _ Hg) as (f & d & Hf & Hd & Hd0 & Hd7 & Hdm); [lia|].
  destruct (pt_entry _ _ _ Ht f 0 _ _ d Hf (idx_range _ _) Hd Hd0) as [Hdp _].
  unfold MmS_QueryPageInfo. destruct (root_mask _ _ _ Ht) as [_ Hr]. rewrite (proj2 (truthy_true root)) by lia. cbn [negb].
  erewrite bind_Ret by (exact (get_entry_eq s root T Ht 1 f addr d Hf Hd)).
  erewrite bind_Ret by (exact (get_entry_eq s root T Ht 0 g addr e Hg He)).
  rewrite has_flag_1, Hdp, has_flag_testbit, Hd7 by lia. cbn [negb]. rewrite bind_ret_l.
  rewrite (page_aligned addr) by done.
  rewrite Hdm. change 0 with (Z.of_nat 0) at 1 2. rewrite entry_of_slot by lia.
  unfold load_word. erewrite bind_Ret by (apply load_eq; exact He). unfold store_word. erewrite bind_Ret by (apply store_eq; exact He).
  rewrite has_flag_1, H0, !has_flag_testbit by lia. by destruct s.
Qed.

Lemma phys_leaf s T at_ g e :
  ptree (words s) (cr3 s) T → T !! g = Some (0%nat, prefix 0 (vpn at_)) → words s !! slot g 0 (vpn at_) = Some e →
  canonical at_ = true → OBOSS_GetPagePhysicalAddress at_ true s = Ret (OBOS_STATUS_SUCCESS, Some (mask e)) s.
Proof.
  intros Ht Hg He Hc. destruct (parent _ _ _ Ht g 0 _ Hg) as (f & d & Hf & Hd & Hd0 & Hd7 & Hdm); [lia|].
  destruct (pt_entry _ _ _ Ht f 0 _ _ d Hf (idx_range _ _) Hd Hd0) as [Hdp _].
  unfold OBOSS_GetPagePhysicalAddress. rewrite Hc. cbn [negb]. rewrite (bind_Ret _ _ _ _ _ (gets_eq _ _)).
  erewrite bind_Ret by (exact (get_entry_eq s _ T Ht 1 f at_ d Hf Hd)). rewrite has_flag_1, Hdp, has_flag_testbit, Hd7 by lia. cbn [negb].
  rewrite bind_ret_l, has_flag_1, Hdp. cbn [negb]. rewrite Hdm. change 0 with (Z.of_nat 0) at 1. rewrite entry_of_slot by lia.
  unfold load_word. by erewrite bind_Ret by (apply load_eq; exact He).
Qed.

Lemma set_mapping_present root addr prot phys s :
  root ≠ 0 → present prot = true → huge_page prot = false → addr mod 4096 = 0 →
  MmS_SetPageMapping root (Some (addr, prot)) phys s = Arch_MapPage root addr phys (prot_flags prot) s.
Proof.
  intros Hr Hp Hh Ha. unfold MmS_SetPageMapping. rewrite (proj2 (truthy_true root)) by done. rewrite Hp, Hh. cbn [negb].
  by rewrite page_aligned.
Qed.

(** [C35] A 4 KiB page that is mapped with a protection has the physical address it was
    given, and a query finds the protection again, not touched. The flags [uc] and [ro]
    are not kept in the tables: the query finds them cleared whatever they were; and
    while execution rights are not enforced ([EFER.NXE] clear) it finds every page
    executable. Huge pages are excluded; three free frames, for tables, are assumed. *)
Theorem set_mapping_roundtrip s T addr prot phys x :
  mappable s (cr3 s) T addr phys (prot_flags prot) → present prot = true → huge_page prot = false →
  ∃ s' s'', MmS_SetPageMapping (cr3 s) (Some (addr, prot)) phys s = Ret OBOS_STATUS_SUCCESS s' ∧
    OBOSS_GetPagePhysicalAddress addr true s' = Ret (OBOS_STATUS_SUCCESS, Some phys) s' ∧
    MmS_QueryPageInfo (cr3 s) addr (Some x) s' =
      Ret (OBOS_STATUS_SUCCESS, Some (addr, prot <| touched := false |> <| uc := false |> <| ro := false |>
        <| executable := executable prot || negb (efer_nxe s) |>)) s''.
Proof using FL.
  intros Hma Hpr Hhg. destruct (map_page_run _ _ _ _ _ _ Hma) as (s' & T' & g & E & I' & Hg & He & Ecr & _ & _).
  destruct Hma as [Hi _ _ Hfl Hcan Hat Hph Hpa]. pose proof (pi_tree _ _ _ I') as Ht'.
  destruct (page_flags_ok s (prot_flags prot) Hfl) as [Hm H0]. set (fl := page_flags s (prot_flags prot)) in *.
  assert (∀ n, 1 <= n → Z.testbit fl n = Z.testbit (prot_flags prot) n && (efer_nxe s || negb (bool_decide (n = 63)))) as Hbits.
  { intros n Hn. unfold fl, page_flags. destruct (efer_nxe s); cbn [negb orb]; rewrite ?Z.ldiff_spec, Z.lor_spec; change 1 with (bit 0) at 1;
      rewrite !bit_testbit, (bool_decide_eq_false_2 (0 = n)) by lia; rewrite orb_false_r; [by rewrite andb_true_r|].
    do 2 f_equal. apply bool_decide_ext. split; congruence. }
  assert (Z.testbit (Z.lor phys fl) 0 = true) as H0' by (by rewrite Z.lor_spec, H0, orb_true_r).
  assert (∀ n, 1 <= n < 12 ∨ 52 <= n → Z.testbit (Z.lor phys fl) n = Z.testbit (prot_flags prot) n && (efer_nxe s || negb (bool_decide (n = 63)))) as Hlow.
  { intros n Hn. rewrite Z.lor_spec, <- Hbits by lia. destruct Hn; [rewrite (frame_low phys n)|rewrite (frame_high phys n)]; done || lia. }
  exists s'. eexists. split; [|split].
  - destruct (root_mask _ _ _ (pi_tree _ _ _ Hi)) as [_ Hr]. by rewrite set_mapping_present by (done || lia).
  - erewrite (phys_leaf s' T' addr g) by (try done; by rewrite Ecr). by rewrite entry_mask.
  - erewrite query_leaf by done. f_equal. do 3 f_equal.
    assert (has_flag (Z.lor phys fl) (Z.lor (bit 5) (bit 6)) = false) as ->.
    { apply truthy_false, Z.bits_inj'. intros n Hn. rewrite Z.land_spec, (Z.lor_spec (bit 5)), !bit_testbit, Z.testbit_0_l by lia.
      destruct (decide (n = 5 ∨ n = 6)) as [Hn'|Hn']; [|by rewrite !bool_decide_eq_false_2, andb_false_r by lia].
      rewrite Hlow, prot_flags_testbit by lia. rewrite !bool_decide_eq_false_2 by lia. by rewrite !andb_false_r. }
    rewrite !Hlow, !prot_flags_testbit by lia. destruct prot as [? [] [] ? ? [] ? ?], (efer_nxe s); simpl in *; by subst.
Qed.

End ops.
