(* ===== verification/PagingFrames.v ===== *)
(** * The physical memory manager keeps the laws the page tables rely on

    [PagingEnv] with the routines of [Pmm], and its laws [FrameLaws].  A page that
    is in use has its first three words among the [words] of memory; a free page
    has them in the nodes of the manager, so they are handed over when a page is
    allocated or freed. *)

From S2P Require Import Prelude DList KState Irql ThreadList Pmm PmmProofs Paging PagingProofs PagingOps.

(** ** Handing pages over *)

Definition pmm_in {A} (m : K mst A) : K gst A := zoom pm (λ k s, s <| pm := k |>) m.

(** A node is the number of pages, [next] and [prev]. *)
Definition hand_out (g : Z) (s : gst) : gst :=
  match pg_nPages (pm s) !! g, pg_links (pm s) !! g with
  | Some n, Some l => s <| words ::= λ w, <[g := n]> (<[g + 8 := dl_next l]> (<[g + 16 := dl_prev l]> w)) |>
  | _, _ => s
  end.
Definition hand_back (g : Z) (s : gst) : gst :=
  match words s !! g, words s !! (g + 8), words s !! (g + 16) with
  | Some n, Some a, Some b => s <| pm ::= λ p, p <| pg_nPages ::= <[g := n]> |> <| pg_links ::= <[g := mkLink a b]> |> |>
  | _, _, _ => s
  end.
Definition pages (f : Z → gst → gst) (g n : Z) (s : gst) : gst := foldr (λ i s, f (g + 4096 * i) s) s (seqZ 0 n).

#[export] Instance pmm_env {DH : DpcHandlers} : PagingEnv := {|
  frame_alloc n a st :=
    r ← pmm_in (Mm_AllocatePhysicalPages n a st);
    modify (λ s, if truthy r.1 then pages hand_out r.1 n s else s);;
    mret r;
  frame_free g n := modify (pages hand_back g n);; pmm_in (Mm_FreePhysicalPages g n);
  (* no other processor *)
  shootdown _ := mret ()
|}.

(** ** The free frames *)

Section frames.
Context {DH : DpcHandlers}.
#[local] Set Default Proof Using "Type".

Lemma seg_unique h p q xs ys : seg h p xs 0 → seg h q ys 0 → 0 ∉ xs → 0 ∉ ys → default 0 (head xs) = default 0 (head ys) → xs = ys.
Proof.
  revert p q ys. induction xs as [|x xs IH]; intros p q [|y ys] Hx Hy H0 H0' E; simpl in E; [done|set_solver..|]. subst y.
  destruct Hx as [Hx Hxs], Hy as [Hy Hys]. rewrite Hx in Hy. injection Hy as E _. f_equal. eapply IH; [done..|set_solver|set_solver|done].
Qed.
Lemma fl_inv_unique s r xs ys : fl_inv s r xs → fl_inv s r ys → xs = ys.
Proof.
  intros [Hx _ _ _] [Hy _ _ _]. eapply seg_unique; [apply Hx|apply Hy|apply Hx|apply Hy|].
  rewrite <- (rep_head _ _ _ Hx), <- (rep_head _ _ _ Hy). done.
Qed.

(** The lists of both regions: [xs] below 4 GiB, without the last page, and [ys] above. *)
Record both_lists (s : mst) (xs ys : list Z) : Prop := {
  bl_low : fl_inv s Low32 xs;
  bl_high : fl_inv s High ys;
  bl_below x n : x ∈ xs → pg_nPages s !! x = Some n → x + n * PG <= 0xfffff000;
  bl_above y : y ∈ ys → 0x100000000 <= y
}.

(** The manager is ready, and all memory below the boundary is there. *)
Record pmm_inv (s : gst) : Prop := {
  pi_ready : ∃ v, pmm_ready (pm s) v;
  pi_lists : ∃ xs ys, both_lists (pm s) xs ys;
  pi_waiting : ∃ d, lists (sch (mk (pm s))) !! Mm_ThreadsAwaitingPhysicalMemory = Some d ∧ dl_head d = 0;
  pi_bound : Mm_PhysicalMemoryBoundaries (pm s) <= 2 ^ 52;
  pi_nodes f : 0 < f → f + PG <= Mm_PhysicalMemoryBoundaries (pm s) → f mod PG = 0 →
    is_Some (pg_nPages (pm s) !! f) ∧ is_Some (pg_links (pm s) !! f);
  pi_words f j : 0 < f → f + PG <= Mm_PhysicalMemoryBoundaries (pm s) → f mod PG = 0 → 0 <= j < 512 → is_Some (words s !! (f + 8 * j))
}.

Definition pmm_is_free (s : gst) (a : Z) : Prop :=
  a mod PG = 0 ∧ ∃ xs ys, both_lists (pm s) xs ys ∧ (free_in (pm s) xs a ∨ free_in (pm s) ys a).
Definition pmm_is_used (s : gst) (a : Z) : Prop :=
  a mod PG = 0 ∧ 0 < a ∧ a + PG <= Mm_PhysicalMemoryBoundaries (pm s) ∧ a ≠ 0xfffff000 ∧ ¬ pmm_is_free s a.

Lemma is_free_iff s xs ys a : both_lists (pm s) xs ys →
  pmm_is_free s a ↔ a mod PG = 0 ∧ (free_in (pm s) xs a ∨ free_in (pm s) ys a).
Proof.
  intros Hb. split; [|intros [? ?]; split; [done|by exists xs, ys]]. intros (Ha & xs' & ys' & Hb' & Hf). split; [done|].
  by rewrite (fl_inv_unique _ _ xs xs' (bl_low _ _ _ Hb) (bl_low _ _ _ Hb')), (fl_inv_unique _ _ ys ys' (bl_high _ _ _ Hb) (bl_high _ _ _ Hb')).
Qed.

Lemma frame_other s s' r r' ps ys : pmm_frame s s' r ps → r' ≠ r → (∀ y, y ∈ ys → y ∉ ps) → fl_inv s r' ys →
  fl_inv s' r' ys ∧ ∀ a, free_in s' ys a ↔ free_in s ys a.
Proof.
  intros [Ho Hb Hl Hn _ _] Hr Hd [Hrep Hno Hdi Hbd]. split.
  - split.
    + rewrite (Ho r' Hr). eapply dl_rep_frame; [|exact Hrep]. intros y Hy. apply Hl. auto.
    + intros y Hy. rewrite Hn, Hb by auto. auto.
    + intros y z m k Hy Hz. rewrite !Hn by auto. auto.
    + by rewrite Hb.
  - intros a. split; intros (y & m & Hy & Hm & Ha); exists y, m; rewrite Hn in * by auto; auto.
Qed.

(** Frames of the two lists are apart. *)
Lemma lists_apart s xs ys : both_lists s xs ys → (∀ y, y ∈ ys → y ∉ xs) ∧ (∀ x, x ∈ xs → x ∉ ys).
Proof.
  intros [Hl Hh Hb Ha]. assert (∀ x, x ∈ xs → x ∉ ys) as H; [|split; [intros y Hy Hx; by apply (H y)|done]].
  intros x Hx Hy. destruct (fi_node _ _ _ Hl x Hx) as (n & Hn & H0 & _). pose proof (Hb x n Hx Hn). pose proof (Ha x Hy). unfold PG in *. lia.
Qed.

Lemma node_frames x n a : x mod PG = 0 → a mod PG = 0 → x + (n - 1) * PG <= a < x + n * PG → a = x + (n - 1) * PG.
Proof.
  unfold PG. intros Hx Ha H. pose proof (Z.div_mod x 4096 ltac:(lia)). pose proof (Z.div_mod a 4096 ltac:(lia)). lia.
Qed.

(** One page from one of the lists. *)
Lemma allocate_one s v r xs status x0 :
  pmm_ready s v → fl_inv s r xs → x0 ∈ xs →
  ∃ g s' xs' x n, allocate 1 1 status r s = Ret (g, put_status status OBOS_STATUS_SUCCESS) s' ∧ mk s' = mk s ∧ fl_inv s' r xs' ∧
    pmm_frame s s' r xs ∧ x ∈ xs ∧ pg_nPages s !! x = Some n ∧ g = x + (n - 1) * PG ∧ 0 < g ∧ g mod PG = 0 ∧
    (∀ a, free_in s' xs' a → free_in s xs a) ∧
    ∀ a, a mod PG = 0 → free_in s' xs' a ↔ free_in s xs a ∧ a ≠ g.
Proof.
  intros Hr Hi Hx0. assert (∀ y n, required (round_pages 1 1) 1 y n = 1 + y mod PG / PG) as Hreq.
  { intros y n. unfold required. change (round_pages 1 1) with 1. by rewrite Z.mod_1_r, Z.mul_1_l, Z.add_0_r. }
  destruct (allocate_ok s v r xs 1 1 0 status Hr Hi) as [(g & s' & xs' & x & n & E & (Hi' & Hmk & Hfree & Hfr) & Hg & Hx & Hn & Hle & H0 & Hal & _)|[E Hall]];
    [done|lia|lia| |].
  - rewrite Hreq in *. destruct (fi_node _ _ _ Hi x Hx) as (n' & Hn' & Hn0 & Hx1 & Hxa & _). rewrite Hn in Hn'. injection Hn' as <-.
    rewrite Hxa in *. change (1 + 0 / PG) with 1 in *. exists g, s', xs', x, n. rewrite Z.mul_1_l in Hal. do 9 (split; [done|]). split.
    + intros a Ha. by apply Hfree.
    + intros a Ha. rewrite Hfree. split; intros [Hf Hne]; (split; [done|]).
      * intros ->. apply Hne. unfold PG in *. lia.
      * intros Hin. apply Hne. rewrite Hg. by apply node_frames.
  - exfalso. destruct (fi_node _ _ _ Hi x0 Hx0) as (n & Hn & Hn0 & _ & Hxa & _). specialize (Hall x0 n Hx0 Hn). rewrite Hreq, Hxa in Hall.
    change (1 + 0 / PG) with 1 in Hall. lia.
Qed.

(** The lists after a change of one of them. *)
Lemma both_after s s' xs ys r ps zs :
  both_lists s xs ys → pmm_frame s s' r ps → fl_inv s' r zs →
  (∀ y, y ∈ (if decide (r = Low32) then ys else xs) → y ∉ ps) →
  (∀ a, free_in s' zs a → if decide (r = Low32) then a < 0xfffff000 else 0x100000000 <= a) →
  both_lists s' (if decide (r = Low32) then zs else xs) (if decide (r = Low32) then ys else zs) ∧
  ∀ a, free_in s' (if decide (r = Low32) then ys else xs) a ↔ free_in s (if decide (r = Low32) then ys else xs) a.
Proof.
  intros [Hl Hh Hb Ha] Hf Hz Hd Hr.
  assert (∀ x n, x ∈ zs → pg_nPages s' !! x = Some n → 0 < n ∧ free_in s' zs x ∧ free_in s' zs (x + n * PG - 1)) as Hends.
  { intros x n Hx Hn. destruct (fi_node _ _ _ Hz x Hx) as (m & Hm & H0 & _). rewrite Hn in Hm. injection Hm as <-. unfold PG.
    split; [done|]. split; exists x, n; (split; [done|]; split; [done|]; unfold PG; lia). }
  destruct r; simpl in *.
  - destruct (frame_other s s' Low32 High ps ys Hf) as [Hh' Hfr]; [done|done|done|]. split; [|done]. split; [done|done| |done].
    intros x n Hx Hn. destruct (Hends x n Hx Hn) as (_ & _ & Hfe). apply Hr in Hfe. destruct (fi_node _ _ _ Hz x Hx) as (m & Hm & _ & _ & Hxa & _).
    unfold PG in *. pose proof (Z.div_mod x 4096 ltac:(lia)). lia.
  - destruct (frame_other s s' High Low32 ps xs Hf) as [Hl' Hfr]; [done|done|done|]. split; [|done]. split; [done|done| |].
    + intros x n Hx Hn. rewrite (pf_nPages _ _ _ _ Hf) in Hn by auto. by apply (Hb x n).
    + intros y Hy. destruct (fi_node _ _ _ Hz y Hy) as (m & Hm & _). destruct (Hends y m Hy Hm) as (_ & Hfy & _). by apply Hr in Hfy.
Qed.

Lemma free_low s xs a : (∀ x n, x ∈ xs → pg_nPages s !! x = Some n → x + n * PG <= 0xfffff000) → free_in s xs a → a < 0xfffff000.
Proof. intros H (x & n & Hx & Hn & Ha). specialize (H x n Hx Hn). lia. Qed.
Lemma free_high s ys a : (∀ y, y ∈ ys → 0x100000000 <= y) → free_in s ys a → 0x100000000 <= a.
Proof. intros H (x & n & Hx & Hn & Ha). specialize (H x Hx). lia. Qed.

(** [Mm_AllocatePhysicalPages] for one page: from the high list when it has one. *)
Lemma Mm_Allocate_one st s v xs ys a0 :
  pmm_ready s v → both_lists s xs ys → free_in s xs a0 ∨ free_in s ys a0 →
  ∃ g s' xs' ys', Mm_AllocatePhysicalPages 1 1 st s = Ret (g, put_status st OBOS_STATUS_SUCCESS) s' ∧ mk s' = mk s ∧ both_lists s' xs' ys' ∧
    (∃ r ps, pmm_frame s s' r ps) ∧ (free_in s xs g ∨ free_in s ys g) ∧ 0 < g ∧ g mod PG = 0 ∧
    ∀ a, a mod PG = 0 → free_in s' xs' a ∨ free_in s' ys' a ↔ (free_in s xs a ∨ free_in s ys a) ∧ a ≠ g.
Proof.
  intros Hr Hb Hf0. pose proof Hb as [Hl Hh Hbl Hba]. destruct (lists_apart _ _ _ Hb) as [Hap1 Hap2].
  unfold Mm_AllocatePhysicalPages. destruct ys as [|y0 ys0] eqn:Eys; [|rewrite <- Eys in *].
  - destruct Hf0 as [(x0 & n0 & Hx0 & _)|(? & ? & ?%not_elem_of_nil & _)]; [|done].
    destruct (allocate_ok s v High [] 1 1 0 st Hr Hh) as [(? & ? & ? & ? & ? & _ & _ & _ & ?%not_elem_of_nil & _)|[E _]]; [done|lia|lia|done|].
    destruct (allocate_one s v Low32 xs (put_status st OBOS_STATUS_SUCCESS) x0 Hr Hl Hx0)
      as (g & s' & xs' & x & n & E' & Hmk & Hl' & Hfr & Hx & Hn & Hg & Hg0 & Hga & Hsub & Hfree).
    destruct (both_after s s' xs [] Low32 xs xs' Hb Hfr Hl') as [Hb' Hoth]; [set_solver|intros a Ha; eapply free_low; [exact Hbl|auto]|].
    simpl in Hb', Hoth. exists g, s', xs', []. split; [rewrite (bind_Ret _ _ _ _ _ E); by destruct st|]. do 2 (split; [done|]). split; [eauto|].
    assert (free_in s xs g) as Hgf.
    { exists x, n. split; [done|]. split; [done|]. destruct (fi_node _ _ _ Hl x Hx) as (m & Hm & ? & _). rewrite Hn in Hm. injection Hm as <-. unfold PG in *. lia. }
    split; [by left|]. do 2 (split; [done|]). intros a Ha. rewrite Hfree, Hoth by done. split; [|intuition].
    intros [[? ?]|(? & ? & ?%not_elem_of_nil & _)]; [auto|done].
  - destruct (allocate_one s v High ys st y0 Hr Hh) as (g & s' & ys' & x & n & E & Hmk & Hh' & Hfr & Hx & Hn & Hg & Hg0 & Hga & Hsub & Hfree);
      [rewrite Eys; set_solver|].
    destruct (both_after s s' xs ys High ys ys' Hb Hfr Hh') as [Hb' Hoth]; [done|intros a Ha; eapply free_high; [exact Hba|auto]|].
    simpl in Hb', Hoth. exists g, s', xs, ys'. split; [rewrite (bind_Ret _ _ _ _ _ E); cbn [fst]; by rewrite (proj2 (truthy_true g)) by lia|].
    do 2 (split; [done|]). split; [eauto|].
    assert (free_in s ys g) as Hgf.
    { exists x, n. split; [done|]. split; [done|]. destruct (fi_node _ _ _ Hh x Hx) as (m & Hm & ? & _). rewrite Hn in Hm. injection Hm as <-. unfold PG in *. lia. }
    split; [by right|]. do 2 (split; [done|]). intros a Ha. rewrite Hfree, Hoth by done. split; [|intuition].
    intros [?|[? ?]]; [|auto]. split; [auto|]. intros ->. pose proof (free_low s xs g Hbl H). pose proof (free_high s ys g Hba Hgf). lia.
Qed.

Lemma pmm_in_Ret {A} (m : K mst A) s a p : m (pm s) = Ret a p → pmm_in m s = Ret a (s <| pm := p |>).
Proof. intros E. unfold pmm_in, zoom. by rewrite E. Qed.

Lemma free_frame s r xs a : fl_inv s r xs → free_in s xs a → a mod PG = 0 → 0 < a ∧ a + PG <= Mm_PhysicalMemoryBoundaries s.
Proof.
  intros Hi (x & n & Hx & Hn & Ha) Hal. destruct (fi_node _ _ _ Hi x Hx) as (m & Hm & H0 & Hx0 & Hxa & Hb). rewrite Hn in Hm. injection Hm as <-.
  unfold PG in *. pose proof (Z.div_mod x 4096 ltac:(lia)). pose proof (Z.div_mod a 4096 ltac:(lia)). lia.
Qed.

(** What the manager's frame says about the invariant. *)
Lemma pmm_inv_after s s' r ps xs ys :
  pmm_inv s → mk (pm s') = mk (pm s) → pmm_frame (pm s) (pm s') r ps → both_lists (pm s') xs ys →
  (∀ a, is_Some (words s !! a) → is_Some (words s' !! a)) → pmm_inv s'.
Proof.
  intros [[v Hr] _ Hw Hb Hn Hwo] Hmk [_ Hbd _ _ Hdl Hdn] Hbl Hws. split.
  - exists v. unfold pmm_ready. by rewrite Hmk.
  - eauto.
  - by rewrite Hmk.
  - by rewrite Hbd.
  - intros f H0 Hf Ha. rewrite Hbd in Hf. rewrite <- !elem_of_dom, Hdl, Hdn, !elem_of_dom. auto.
  - intros f j H0 Hf Ha Hj. rewrite Hbd in Hf. auto.
Qed.

Lemma pmm_alloc_law st s a :
  pmm_inv s → pmm_is_free s a → ∃ g s', frame_alloc 1 1 st s = Ret (g, put_status st OBOS_STATUS_SUCCESS) s' ∧ pmm_inv s' ∧ frame_only g s s' ∧
    pmm_is_free s g ∧ 0 < g < 2 ^ 52 ∧ g mod 4096 = 0 ∧ (∀ j, 0 <= j < 512 → is_Some (words s' !! (g + 8 * j))) ∧
    (∀ a, pmm_is_free s' a ↔ pmm_is_free s a ∧ a ≠ g) ∧ (∀ a, pmm_is_used s' a ↔ pmm_is_used s a ∨ a = g).
Proof.
  intros Hi Hfa. pose proof Hi as [[v Hr] (xs & ys & Hb) _ Hbd Hn Hw]. rewrite (is_free_iff _ xs ys) in Hfa by done. destruct Hfa as [Haa Hfa].
  destruct (Mm_Allocate_one st (pm s) v xs ys a Hr Hb Hfa) as (g & p & xs' & ys' & E & Hmk & Hb' & (r & ps & Hfr) & Hgf & Hg0 & Hga & Hfree).
  assert (g + PG <= Mm_PhysicalMemoryBoundaries (pm s)) as Hgb.
  { destruct Hgf as [Hgf|Hgf]; [apply (free_frame _ Low32 xs)|apply (free_frame _ High ys)]; try done; apply Hb. }
  assert (g ≠ 0xfffff000) as Hg4.
  { destruct Hgf as [Hgf|Hgf]; [apply free_low in Hgf; [lia|apply Hb]|apply free_high in Hgf; [lia|apply Hb]]. }
  destruct (Hn g Hg0 Hgb Hga) as [Hn1 Hn2].
  assert (is_Some (pg_nPages p !! g) ∧ is_Some (pg_links p !! g)) as [[n1 E1] [l1 E2]].
  { rewrite <- !elem_of_dom, (pf_dom_links _ _ _ _ Hfr), (pf_dom_nPages _ _ _ _ Hfr), !elem_of_dom. done. }
  set (s' := s <| pm := p |> <| words ::= λ w, <[g := n1]> (<[g + 8 := dl_next l1]> (<[g + 16 := dl_prev l1]> w)) |>).
  assert (∀ b, is_Some (words s !! b) → is_Some (words s' !! b)) as Hws.
  { intros b Hsb. simpl. rewrite !lookup_insert. repeat case_decide; done. }
  assert (∀ b, pmm_is_free s' b ↔ pmm_is_free s b ∧ b ≠ g) as Hf'.
  { intros b. rewrite (is_free_iff s' xs' ys'), (is_free_iff s xs ys) by done. simpl. split; [intros [Hba Hbf]|intros [[Hba Hbf] Hbg]].
    - apply Hfree in Hbf as [? ?]; [|done]. done.
    - split; [done|]. by apply Hfree. }
  exists g, s'. split.
  { simpl. rewrite (bind_Ret _ _ _ _ _ (pmm_in_Ret _ _ _ _ E)). cbn [fst]. rewrite (proj2 (truthy_true g)) by lia.
    rewrite (bind_Ret _ _ _ _ _ (modify_eq _ _)). unfold mret, K_ret. f_equal. unfold pages. change (seqZ 0 1) with [0]. cbn [foldr].
    rewrite Z.mul_0_r, Z.add_0_r. unfold hand_out. simpl. rewrite E1, E2. done. }
  split; [by eapply (pmm_inv_after s s' r ps)|]. split.
  { split; [by destruct s|done|]. intros b Hbo. simpl. rewrite !lookup_insert_ne by lia. done. }
  split; [rewrite (is_free_iff s xs ys) by done; done|]. split; [unfold PG in *; lia|]. split; [done|].
  split; [intros j Hj; apply Hws, Hw; try done; lia|]. split; [done|].
  intros b. unfold pmm_is_used. rewrite Hf'. simpl. rewrite (pf_bound _ _ _ _ Hfr). split.
  - intros (? & ? & ? & ? & Hnf). destruct (decide (b = g)) as [->|]; [by right|left]. split_and!; try done. intros Hbf. by apply Hnf.
  - intros [(? & ? & ? & ? & Hnf)| ->].
    + split_and!; try done. by intros [? _].
    + split_and!; try done. by intros [_ ?].
Qed.

Lemma pmm_release_law s g :
  pmm_inv s → pmm_is_used s g → (∀ j, 0 <= j < 512 → is_Some (words s !! (g + 8 * j))) → words s !! (g + 8) = Some 0 →
  ∃ s', frame_free g 1 s = Ret OBOS_STATUS_SUCCESS s' ∧ pmm_inv s' ∧ frame_only g s s' ∧
    (∀ a, pmm_is_free s' a ↔ pmm_is_free s a ∨ a = g) ∧ (∀ a, pmm_is_used s' a ↔ pmm_is_used s a ∧ a ≠ g).
Proof.
  intros Hi (Hga & Hg0 & Hgb & Hg4 & Hgf) Hz Z1. destruct (Hz 0 ltac:(lia)) as [n0 Z0]. destruct (Hz 2 ltac:(lia)) as [q0 Z2].
  rewrite Z.mul_0_r, Z.add_0_r in Z0. change (8 * 2) with 16 in Z2. pose proof Hi as [[v Hr] (xs & ys & Hb) Hwt Hbd Hn Hw].
  set (p1 := (pm s) <| pg_nPages ::= <[g := n0]> |> <| pg_links ::= <[g := mkLink 0 q0]> |>).
  rewrite (is_free_iff s xs ys) in Hgf by done. destruct (Hn g Hg0 Hgb Hga) as [Hn1 Hn2].
  assert (∀ r zs, fl_inv (pm s) r zs → ¬ free_in (pm s) zs g → g ∉ zs ∧ ∀ a, g <= a < g + 1 * PG → ¬ free_in (pm s) zs a) as Hout.
  { intros r zs Hzi Hnf. split.
    - intros Hin. destruct (fi_node _ _ _ Hzi g Hin) as (n & Hgn & H0 & _). apply Hnf. exists g, n. unfold PG. split_and!; try done; lia.
    - intros a Ha (x & n & Hx & Hxn & Hin). destruct (fi_node _ _ _ Hzi x Hx) as (m & _ & _ & _ & Hxa & _). apply Hnf. exists x, n.
      split; [done|]. split; [done|]. unfold PG in *. pose proof (Z.div_mod x 4096 ltac:(lia)). pose proof (Z.div_mod g 4096 ltac:(lia)). lia. }
  destruct (Hout Low32 xs (bl_low _ _ _ Hb)) as [Hgx Hgxf]; [naive_solver|]. destruct (Hout High ys (bl_high _ _ _ Hb)) as [Hgy Hgyf]; [naive_solver|].
  assert (∀ r, pmm_frame (pm s) p1 r [g]) as Hfr1.
  { intros r. split; simpl; try done; intros; rewrite ?lookup_insert_ne by set_solver; rewrite ?dom_insert_same by done; done. }
  assert (∀ r zs, fl_inv (pm s) r zs → g ∉ zs → fl_inv p1 r zs ∧ ∀ a, free_in p1 zs a ↔ free_in (pm s) zs a) as Hkeep.
  { intros r zs Hzi Hgz. apply (frame_other (pm s) p1 (match r with Low32 => High | High => Low32 end) r [g]);
      [apply Hfr1|by destruct r|set_solver|done]. }
  destruct (Hkeep Low32 xs (bl_low _ _ _ Hb) Hgx) as [Hl1 Hfl1]. destruct (Hkeep High ys (bl_high _ _ _ Hb) Hgy) as [Hh1 Hfh1].
  assert (both_lists p1 xs ys) as Hb1.
  { split; [done|done| |apply Hb]. intros x n Hx. simpl. rewrite lookup_insert_ne by (intros ->; done). by apply Hb. }
  set (r := region_of g). set (zs := if decide (r = Low32) then xs else ys).
  assert (fl_inv p1 r zs ∧ (∀ a, g <= a < g + 1 * PG → ¬ free_in p1 zs a) ∧ g ∉ zs) as (Hz1 & Hzf & Hgz).
  { unfold zs. destruct r; simpl; (split; [done|split; [|done]]); intros a Ha; rewrite ?Hfl1, ?Hfh1; auto. }
  destruct (free_pages_ok p1 v zs g 1 (mkLink 0 q0)) as (p2 & E2 & Hmk & Hz2 & Hfree & Hfr2); try done.
  { split; [done|lia|done|simpl; lia|done|]. simpl. by rewrite lookup_insert_eq. }
  { unfold PG in *. intros Hlt. pose proof (Z.div_mod g 4096 ltac:(lia)). lia. }
  { apply lookup_insert_eq. }
  destruct (lists_apart _ _ _ Hb1) as [Hap1 Hap2]. fold r in Hz2, Hfr2.
  destruct (both_after p1 p2 xs ys r (g :: zs) (zs ++ [g]) Hb1 Hfr2 Hz2) as [Hb2 Hoth].
  { unfold zs. destruct r; simpl; set_solver. }
  { intros a [Ha|Ha]%Hfree; unfold zs, r, region_of in *; destruct (Z.ltb_spec g 0xffffffff); simpl in *.
    - eapply free_low; [|exact Ha]. apply Hb1.
    - eapply free_high; [|exact Ha]. apply Hb1.
    - unfold PG in *. pose proof (Z.div_mod g 4096 ltac:(lia)). lia.
    - unfold PG in *. pose proof (Z.div_mod g 4096 ltac:(lia)). lia. }
  set (s' := s <| pm := p2 |>). exists s'. split.
  { simpl. rewrite (bind_Ret _ _ _ _ _ (modify_eq _ _)). unfold pages. change (seqZ 0 1) with [0]. cbn [foldr]. rewrite Z.mul_0_r, Z.add_0_r.
    unfold hand_back. rewrite Z0, Z1, Z2. exact (pmm_in_Ret (Mm_FreePhysicalPages g 1) (s <| pm := p1 |>) _ _ E2). }
  assert (∀ b, pmm_is_free s' b ↔ pmm_is_free s b ∨ b = g) as Hf'.
  { intros b. rewrite (is_free_iff s' _ _ b Hb2), (is_free_iff s xs ys b Hb). simpl.
    assert (b mod PG = 0 → (g <= b < g + 1 * PG ↔ b = g)) as Hbg.
    { intros Hba. unfold PG in *. pose proof (Z.div_mod g 4096 ltac:(lia)). pose proof (Z.div_mod b 4096 ltac:(lia)). lia. }
    assert (b mod PG = 0 → (free_in p2 (if decide (r = Low32) then zs ++ [g] else xs) b ∨ free_in p2 (if decide (r = Low32) then ys else zs ++ [g]) b) ↔
      (free_in (pm s) xs b ∨ free_in (pm s) ys b) ∨ b = g) as Hiff.
    { intros Hba. specialize (Hbg Hba). pose proof (Hoth b) as Hob. pose proof (Hfree b) as Hfb. pose proof (Hfl1 b). pose proof (Hfh1 b).
      unfold zs in *. destruct r; simpl in *; tauto. }
    split; [intros [Hba H]; apply (Hiff Hba) in H; tauto|]. intros [[Hba H]| ->]; (split; [done|]); apply Hiff; tauto. }
  split.
  { eapply (pmm_inv_after s s' r (g :: zs)); [done|exact Hmk| |exact Hb2|done]. destruct Hfr2 as [F1 F2 F3 F4 F5 F6]. simpl.
    split; simpl in *.
    - intros r' Hr'. rewrite F1 by done. by destruct r'.
    - done.
    - intros y Hy. rewrite F3 by done. simpl. apply lookup_insert_ne. set_solver.
    - intros y Hy. rewrite F4 by done. simpl. apply lookup_insert_ne. set_solver.
    - rewrite F5. by apply dom_insert_same.
    - rewrite F6. by apply dom_insert_same. }
  split; [split; [by destruct s|exact Hmk|done]|]. split; [done|]. intros b. unfold pmm_is_used. rewrite Hf'. simpl. rewrite (pf_bound _ _ _ _ Hfr2). simpl. tauto.
Qed.

Lemma pmm_stable_law s s' : pmm_inv s → pm s' = pm s → (∀ a, is_Some (words s' !! a) ↔ is_Some (words s !! a)) →
  pmm_inv s' ∧ (∀ a, pmm_is_free s' a ↔ pmm_is_free s a) ∧ (∀ a, pmm_is_used s' a ↔ pmm_is_used s a).
Proof.
  intros [Hr Hl Hw Hb Hn Hwo] Hp Hws. assert (∀ a, pmm_is_free s' a ↔ pmm_is_free s a) as Hf by (intros a; unfold pmm_is_free; by rewrite Hp).
  split; [|split; [done|intros a; unfold pmm_is_used; by rewrite Hp, Hf]]. split; rewrite ?Hp; try done.
  intros f j H0 Hf' Ha Hj. apply Hws. by apply Hwo.
Qed.

Lemma both_lists_irq p xs ys k : both_lists p xs ys ↔ both_lists (p <| mk := k |>) xs ys.
Proof.
  assert (∀ p k, both_lists p xs ys → both_lists (p <| mk := k |>) xs ys) as H.
  { clear. intros p k [[? ? ? ?] [? ? ? ?] ? ?]. split; [split|split|..]; done. }
  split; [apply H|]. intros Hb. apply (H _ (mk p)) in Hb. by destruct p.
Qed.

Lemma pmm_irq_law s i : pmm_inv s → irq_like (girq s) i →
  pmm_inv (with_girq i s) ∧ (∀ a, pmm_is_free (with_girq i s) a ↔ pmm_is_free s a) ∧ (∀ a, pmm_is_used (with_girq i s) a ↔ pmm_is_used s a).
Proof.
  intros [[v [Hq Hk]] (xs & ys & Hl) Hw Hb Hn Hwo] [[v' Hq'] Hlk]. pose proof (proj1 (both_lists_irq _ _ _ (mk (pm (with_girq i s)))) Hl) as Hl'.
  assert (∀ a, pmm_is_free (with_girq i s) a ↔ pmm_is_free s a) as Hf.
  { intros a. rewrite (is_free_iff (with_girq i s) xs ys a Hl'), (is_free_iff s xs ys a Hl). done. }
  split; [|split; [exact Hf|intros a; unfold pmm_is_used; by rewrite Hf]]. split; try done.
  - exists v'. split; [done|]. unfold lock_free. simpl. by rewrite Hlk.
  - by exists xs, ys.
Qed.

#[export] Instance pmm_frames : FrameLaws := {|
  fr_inv := pmm_inv; fr_free := pmm_is_free; fr_used := pmm_is_used;
  fr_disj s a _ Hu Hf := proj2 (proj2 (proj2 (proj2 Hu))) Hf;
  fr_alloc := pmm_alloc_law; fr_release := pmm_release_law; fr_stable := pmm_stable_law; fr_irq := pmm_irq_law;
  fr_shootdown _ _ := eq_refl
|}.
End frames.
