(* ===== verification/BareMap.v ===== *)
(** * The memory manager of early boot ([mm/bare_map.c])

    Before the virtual memory manager runs, pages come from a static buffer that is
    handed out from its start on and never taken back, and the ranges of the kernel's
    address space that are in use are registered in a list ordered by address. *)

From S2P Require Import Prelude DList KState Irql.

(** ** Data *)

Definition REGION_MAGIC_INT : Z := 0x4F424F534253434D.

(** [basicmm_region]; [next] and [prev] are in [region_links]. *)
Record basicmm_region := mkRegion { r_magic : Z; r_addr : Z; mmioRange : bool; r_size : Z }.
#[export] Instance eta_basicmm_region : Etable basicmm_region :=
  λ r, mkRegion (r_magic r) (r_addr r) (mmioRange r) (r_size r).

Record bst := mkBst {
  bk : kst;
  mm_regions : gmap Z basicmm_region;
  region_links : lheap;
  s_regionList : dlist;
  bump_region : basicmm_region;
  bump_offset : Z;
  s_regionListLockInitialized : bool
}.
#[export] Instance eta_bst : Etable bst :=
  λ r, mkBst (bk r) (mm_regions r) (region_links r) (s_regionList r) (bump_region r) (bump_offset r)
    (s_regionListLockInitialized r).

(** The static buffer of 4 MiB, which is aligned to a page. *)
Definition BUMP_SIZE : Z := 4 * 1024 * 1024.
Class BumpBuffer := {
  bump_buffer : Z;
  bump_buffer_aligned : bump_buffer mod OBOS_PAGE_SIZE = 0;
  bump_buffer_range : 0 < bump_buffer < 2 ^ 64 - BUMP_SIZE
}.

(** ** Linking by hand

    At the head, and behind a node; neither touches the other pointer of the node. *)
Definition link_head (h : lheap) (l : dlist) (node : Z) : option (lheap * dlist) :=
  h ← opt_when (truthy (dl_head l)) (λ h, set_prev h (dl_head l) node) h;
  let l := if truthy (dl_tail l) then l else l <| dl_tail := node |> in
  h ← set_next h node (dl_head l);
  Some (h, l <| dl_head := node |>).
Definition link_after (found : Z) (h : lheap) (l : dlist) (node : Z) : option (lheap * dlist) :=
  f ← h !! found;
  h ← opt_when (truthy (dl_next f)) (λ h, set_prev h (dl_next f) node) h;
  let l := if dl_tail l =? found then l <| dl_tail := node |> else l in
  f ← h !! found;
  h ← set_next h node (dl_next f);
  h ← set_next h found node;
  h ← set_prev h node found;
  Some (h, l).

Section ops.
Context {DH : DpcHandlers} {BB : BumpBuffer}.

Definition bkern {A} (m : K kst A) : K bst A := zoom bk (λ k s, s <| bk := k |>) m.

(** ** The lock *)

Definition Lock : K bst Z :=
  b ← gets s_regionListLockInitialized;
  when (negb b) (
    bkern (set_lock RegionListLock (λ _, Core_SpinlockCreate));;
    modify (λ s, s <| s_regionListLockInitialized := true |>));;
  bkern (Core_SpinlockAcquire RegionListLock).
Definition Unlock (oldIrql : Z) : K bst () :=
  b ← gets s_regionListLockInitialized;
  OBOS_ASSERT b;;
  bkern (Core_SpinlockRelease RegionListLock oldIrql);;
  mret ().

(** ** Pages *)

(** The address, and [*status] afterwards. *)
Definition OBOS_BasicMMAllocatePages (sz : Z) (status : option obos_status) : K bst (Z * option obos_status) :=
  oldIrql ← Lock;
  b ← gets bump_region;
  when (negb (truthy (r_addr b))) (
    modify (λ s, s <| bump_region ::= λ b, b <| r_size := BUMP_SIZE |> |>);;
    modify (λ s, s <| bump_region ::= λ b, b <| r_addr := bump_buffer |> |>));;
  let sz := wrap64 (sz + (OBOS_PAGE_SIZE - sz mod OBOS_PAGE_SIZE)) in
  b ← gets bump_region;
  off ← gets bump_offset;
  if r_size b <=? wrap64 (off + sz) then stop Panic else
  let status := (λ _, OBOS_STATUS_SUCCESS) <$> status in
  let addr := wrap64 (r_addr b + off) in
  modify (λ s, s <| bump_offset ::= λ o, wrap64 (o + sz) |>);;
  Unlock oldIrql;;
  mret (addr, status).

Definition OBOS_BasicMMFreePages (base_ sz : Z) : K bst obos_status := mret OBOS_STATUS_SUCCESS.

(** ** The regions *)

Definition get_region (p : Z) : K bst basicmm_region := load mm_regions p.
Definition set_region (p : Z) (f : basicmm_region → basicmm_region) : K bst () :=
  store mm_regions (λ m s, s <| mm_regions := m |>) p f.
Definition region_op (op : lheap → dlist → Z → option (lheap * dlist)) (node : Z) : K bst () :=
  l ← gets s_regionList;
  h ← gets region_links;
  hl ← deref_opt (op h l node);
  modify (λ s, s <| region_links := hl.1 |>
    <| s_regionList := hl.2 <| dl_nNodes ::= λ n, wrap64 (n + 1) |> |>).

(** The node the new one goes behind, from [n] on. *)
Fixpoint find_predecessor (fuel : nat) (node base n : Z) : K bst Z :=
  if negb (truthy n) then mret nullptr else
  l ← load region_links n;
  if negb (truthy (dl_next l)) then mret nullptr else
  match fuel with
  | O => stop Hang
  | S fuel =>
      r ← get_region n;
      hit ← (if r_addr r <? base then
               x ← get_region (dl_next l); y ← get_region node; mret (r_addr y <=? r_addr x)
             else mret false);
      if (hit : bool) then mret n else find_predecessor fuel node base (dl_next l)
  end.

Definition OBOSH_BasicMMAddRegion (node base sz : Z) : K bst () :=
  set_region node (λ r, r <| r_magic := REGION_MAGIC_INT |>);;
  set_region node (λ r, r <| r_addr := base |>);;
  set_region node (λ r, r <| r_size := sz |>);;
  l ← gets s_regionList;
  above ← (if truthy (dl_tail l) then t ← get_region (dl_tail l); mret (r_addr t <? base) else mret false);
  if (above : bool) then
    oldIrql ← Lock;
    region_op link_tail node;;
    Unlock oldIrql
  else
  below ← (if truthy (dl_head l) then t ← get_region (dl_head l); mret (base <? r_addr t) else mret false);
  if (below : bool) then
    oldIrql ← Lock;
    region_op link_head node;;
    Unlock oldIrql
  else
    oldIrql ← Lock;
    l ← gets s_regionList;
    h ← gets region_links;
    found ← find_predecessor (size h) node base (dl_head l);
    if negb (truthy found) then
      region_op link_tail node;;
      Unlock oldIrql
    else
      region_op (link_after found) node;;
      Unlock oldIrql.

(** The callback may change the state of its component, which has this one as a part. *)
Section iterate.
Context {S : Type} (get : S → bst) (set : bst → S → S) (callback : Z → K S bool).
Abbreviation bare := (zoom get set).

(** The regions from [cur] on, until the callback returns false. *)
Fixpoint iterate_regions (fuel : nat) (cur : Z) : K S () :=
  if negb (truthy cur) then mret () else
  match fuel with
  | O => stop Hang
  | Datatypes.S fuel =>
      r ← bare (get_region cur);
      go ← (if mmioRange r then mret true else callback cur);
      if negb go then mret () else
      l ← bare (load region_links cur);
      iterate_regions fuel (dl_next l)
  end.

Definition OBOSH_BasicMMIterateRegions : K S () :=
  oldIrql ← bare (bkern (Core_SpinlockAcquireExplicit (Some RegionListLock) IRQL_DISPATCH false));
  l ← bare (gets s_regionList);
  h ← bare (gets region_links);
  iterate_regions (size h) (dl_head l);;
  bare (bkern (Core_SpinlockRelease RegionListLock oldIrql));;
  mret ().
End iterate.

End ops.
