(* ===== verification/BareMapProofs.v ===== *)
(** * Early memory: blocks are disjoint, regions stay ordered

    The blocks of the static buffer are aligned, lie in it and do not overlap; adding a
    region puts it at its place in the ordered list. *)

From Stdlib Require Import Sorting.Sorted.
From S2P Require Import Prelude DList KState Irql BareMap.

(** ** Linking *)

Lemma link_head_spec h l b xs x lk :
  dl_rep h l (b :: xs) → x ∉ b :: xs → x ≠ 0 → h !! x = Some lk → dl_prev lk = 0 →
  ∃ h', link_head h l x = Some (h', l <| dl_head := x |>) ∧ links_frame (x :: b :: xs) h h' ∧ seg h' 0 (x :: b :: xs) 0.
Proof.
  intros [Hnd Hnn Hh Ht Hc Hs] Hx Hx0 Hlk Hp. simpl in Hh. destruct Hs as [Hb Hs]. apply NoDup_cons in Hnd as [Hbx Hnd].
  unfold link_head. rewrite Hh. assert (truthy b = true) as Hb1 by (apply truthy_true; set_solver).
  assert (truthy (dl_tail l) = true) as ->.
  { apply truthy_true. rewrite Ht. destruct (last_is_Some (b :: xs)) as [_ Hl]. destruct Hl as [t Hl]; [done|]. rewrite Hl. simpl.
    apply last_Some_elem in Hl. intros ->. by apply Hnn. }
  rewrite Hb1. simpl. rewrite (set_prev_eq _ _ _ _ Hb). simpl. rewrite (set_next_eq _ _ _ lk) by heap_lookup. simpl.
  rewrite Hh, Hp. eexists. split; [reflexivity|]. split; [solve_frame|]. cbn [seg head default]. split; [heap_lookup|].
  assert (b ≠ x) by set_solver. split; [heap_lookup|]. eapply seg_frame; [|exact Hs]. intros y Hy.
  assert (y ≠ x ∧ y ≠ b) as [? ?] by (split; intros ->; set_solver). heap_lookup.
Qed.

Lemma link_after_spec h l l1 f b l2 x lk :
  dl_rep h l (l1 ++ f :: b :: l2) → x ∉ l1 ++ f :: b :: l2 → x ≠ 0 → h !! x = Some lk →
  ∃ h', link_after f h l x = Some (h', l) ∧ links_frame (x :: l1 ++ f :: b :: l2) h h' ∧
    seg h' 0 (l1 ++ f :: x :: b :: l2) 0.
Proof.
  intros [Hnd Hnn Hh Ht Hc Hs] Hx Hx0 Hlk. apply seg_app in Hs as [Hs1 (Hf & Hb & Hs2)]. cbn [head default] in Hf.
  apply NoDup_app in Hnd as (Hn1 & Hd & (Hfb & [Hbn Hn2]%NoDup_cons)%NoDup_cons).
  assert (x ≠ f ∧ x ≠ b ∧ f ≠ b) as (? & ? & ?) by set_solver.
  unfold link_after. rewrite Hf. simpl. rewrite (proj2 (truthy_true b)) by set_solver. simpl.
  rewrite (set_prev_eq _ _ _ _ Hb). simpl. rewrite lookup_insert_ne by done. rewrite Hf. simpl.
  rewrite (set_next_eq _ _ _ lk) by heap_lookup. simpl. rewrite (set_next_eq _ _ _ _) by heap_lookup. simpl.
  erewrite set_prev_eq by heap_lookup. simpl.
  assert (dl_tail l =? f = false) as ->.
  { apply Z.eqb_neq. rewrite Ht, last_app_cons. simpl. intros E. destruct (last_is_Some (b :: l2)) as [_ [t Hl]]; [done|].
    replace (last (f :: b :: l2)) with (last (b :: l2)) in E by done. rewrite Hl in E. simpl in E. subst t.
    apply last_Some_elem in Hl. done. }
  eexists. split; [reflexivity|]. split; [solve_frame|]. apply seg_app. split.
  - cbn [head default]. eapply seg_frame; [|exact Hs1]. intros y Hy.
    assert (y ≠ x ∧ y ≠ f ∧ y ≠ b) as (? & ? & ?) by (split_and!; intros ->; set_solver). heap_lookup.
  - cbn [seg head default]. split; [heap_lookup|]. split; [heap_lookup|]. split; [heap_lookup|].
    eapply seg_frame; [|exact Hs2]. intros y Hy.
    assert (y ≠ x ∧ y ≠ f ∧ y ≠ b) as (? & ? & ?) by (split_and!; intros ->; set_solver). heap_lookup.
Qed.

Section proofs.
Context {DH : DpcHandlers} {BB : BumpBuffer}.
#[local] Set Default Proof Using "Type".

(** ** The lock *)

Definition b_ready (s : bst) (v : Z) : Prop := quiet (irq (bk s)) v ∧ lock_free (irq (bk s)) RegionListLock.
Definition with_irq (i : irq_st) (s : bst) : bst :=
  s <| bk ::= λ k, k <| irq := i |> |> <| s_regionListLockInitialized := true |>.

Lemma bkern_Ret {A} (m : K kst A) s a k : m (bk s) = Ret a k → bkern m s = Ret a (s <| bk := k |>).
Proof. intros E. unfold bkern, zoom. by rewrite E. Qed.

Lemma Lock_eq s v : b_ready s v → Lock s = Ret (acq_irql v) (with_irq (acq_st (irq (bk s)) RegionListLock) s).
Proof.
  intros [Hq Hl]. unfold Lock. rewrite (bind_Ret _ _ _ _ _ (gets_eq _ _)).
  destruct (s_regionListLockInitialized s) eqn:E; cbn [negb].
  - unfold when. rewrite bind_ret_l. erewrite bkern_Ret by exact (acquire_quiet _ _ _ Hq Hl).
    destruct s; simpl in *. by subst.
  - unfold when.
    assert ((bkern (set_lock RegionListLock (λ _, Core_SpinlockCreate));; modify (λ s, s <| s_regionListLockInitialized := true |>)) s
      = Ret () (s <| s_regionListLockInitialized := true |>)) as E1.
    { erewrite bind_Ret; [reflexivity|]. erewrite bkern_Ret by (by apply store_eq). f_equal. rewrite insert_id by done.
      by destruct s as [[[] ? ?] ? ? ? ? ? ?]. }
    erewrite bind_Ret by exact E1. by erewrite bkern_Ret by exact (acquire_quiet _ _ _ Hq Hl).
Qed.
Lemma Unlock_eq s v s' :
  b_ready s v → irq (bk s') = acq_st (irq (bk s)) RegionListLock → s_regionListLockInitialized s' = true →
  Unlock (acq_irql v) s' = Ret () (with_irq (irq (bk s)) s').
Proof.
  intros [Hq Hl] E Ei. unfold Unlock. rewrite (bind_Ret _ _ _ _ _ (gets_eq _ _)), Ei.
  rewrite (bind_Ret _ _ _ _ _ (assert_eq _ _ eq_refl)).
  erewrite bind_Ret by (erewrite bkern_Ret by (by apply (release_quiet _ (irq (bk s)))); reflexivity).
  unfold mret, K_ret. f_equal. destruct s'; simpl in *. by subst.
Qed.

(** ** The static buffer *)

(** What a request takes: the next multiple of a page above the size. *)
Definition bump_step (sz : Z) : Z := sz + (OBOS_PAGE_SIZE - sz mod OBOS_PAGE_SIZE).

(** The buffer has been handed out up to [off]. *)
Record bump_ok (s : bst) (off : Z) : Prop := {
  bu_off : bump_offset s = off;
  bu_range : 0 <= off < BUMP_SIZE;
  bu_aligned : off mod OBOS_PAGE_SIZE = 0;
  bu_region : r_addr (bump_region s) = 0 ∨ r_addr (bump_region s) = bump_buffer ∧ r_size (bump_region s) = BUMP_SIZE
}.

Lemma bump_step_bounds sz : sz < bump_step sz <= sz + OBOS_PAGE_SIZE ∧ bump_step sz mod OBOS_PAGE_SIZE = 0.
Proof.
  unfold bump_step, OBOS_PAGE_SIZE. pose proof (Z.mod_pos_bound sz 4096 ltac:(lia)). split; [lia|].
  apply Z.mod_divide; [lia|]. exists (sz / 4096 + 1). pose proof (Z.div_mod sz 4096 ltac:(lia)). lia.
Qed.

Definition with_buffer (s : bst) : bst :=
  if truthy (r_addr (bump_region s)) then s
  else s <| bump_region ::= λ b, b <| r_size := BUMP_SIZE |> <| r_addr := bump_buffer |> |>.

Lemma with_buffer_eq (s : bst) off : bump_ok s off → 
  when (negb (truthy (r_addr (bump_region s)))) (
    modify (λ s, s <| bump_region ::= λ b, b <| r_size := BUMP_SIZE |> |>);;
    modify (λ s, s <| bump_region ::= λ b, b <| r_addr := bump_buffer |> |>)) s = Ret () (with_buffer s) ∧
  r_addr (bump_region (with_buffer s)) = bump_buffer ∧ r_size (bump_region (with_buffer s)) = BUMP_SIZE ∧
  bump_offset (with_buffer s) = bump_offset s ∧ bk (with_buffer s) = bk s.
Proof.
  intros [_ _ _ H]. unfold with_buffer. pose proof bump_buffer_range. destruct H as [E|[E Hs]].
  - rewrite E. done.
  - rewrite E, (proj2 (truthy_true bump_buffer)) by lia. done.
Qed.

(** One request: a block, or a panic when the buffer is used up. *)
Lemma bump_run s v off sz st :
  b_ready s v → bump_ok s off → 0 <= sz < 2 ^ 63 →
  if decide (off + bump_step sz < BUMP_SIZE) then
    ∃ s', OBOS_BasicMMAllocatePages sz st s = Ret (bump_buffer + off, (λ _, OBOS_STATUS_SUCCESS) <$> st) s' ∧
      bump_ok s' (off + bump_step sz) ∧ bk s' = bk s
  else OBOS_BasicMMAllocatePages sz st s = Stop Panic.
Proof.
  intros Hr Hb Hsz. pose proof Hb as [Ho Hor Hoa Hbr]. destruct (bump_step_bounds sz) as [Hst Hsta]. unfold OBOS_PAGE_SIZE, BUMP_SIZE in *.
  pose proof bump_buffer_range as Hbb. unfold BUMP_SIZE in Hbb.
  set (s1 := with_irq (acq_st (irq (bk s)) RegionListLock) s).
  destruct (with_buffer_eq s1 off) as (E2 & Ea & Es & Eo & Ek); [by split|]. set (s2 := with_buffer s1) in *.
  assert (OBOS_BasicMMAllocatePages sz st s = (b ← gets bump_region; off ← gets bump_offset;
    if r_size b <=? wrap64 (off + bump_step sz) then stop Panic else
    modify (λ s, s <| bump_offset ::= λ o, wrap64 (o + bump_step sz) |>);; Unlock (acq_irql v);;
    mret (wrap64 (r_addr b + off), (λ _, OBOS_STATUS_SUCCESS) <$> st)) s2) as ->.
  { unfold OBOS_BasicMMAllocatePages. erewrite bind_Ret by (by apply Lock_eq). fold s1.
    rewrite (bind_Ret _ _ _ _ _ (gets_eq _ _)), (bind_Ret _ _ _ _ _ E2). fold (bump_step sz).
    by rewrite (wrap_small 64 (bump_step sz)) by (unfold in_u; lia). }
  rewrite !(bind_Ret _ _ _ _ _ (gets_eq _ _)), Ea, Es, Eo. change (bump_offset s1) with (bump_offset s). rewrite Ho.
  rewrite (wrap_small 64 (off + _)), (wrap_small 64 (bump_buffer + off)) by (unfold in_u; lia).
  case_decide as Hd; [|by rewrite (proj2 (Z.leb_le _ _)) by (unfold BUMP_SIZE; lia)].
  rewrite (proj2 (Z.leb_gt _ _)) by (unfold BUMP_SIZE; lia). rewrite (bind_Ret _ _ _ _ _ (modify_eq _ _)).
  assert (s_regionListLockInitialized s2 = true) as Hi2 by (unfold s2, with_buffer; by case_match).
  erewrite bind_Ret; [|apply (Unlock_eq s); [done|by simpl; rewrite Ek|done]]. eexists. split; [reflexivity|].
  split; [split|].
  - simpl. rewrite Eo. change (bump_offset s1) with (bump_offset s). rewrite Ho. apply wrap_small. unfold in_u. lia.
  - unfold BUMP_SIZE. lia.
  - unfold OBOS_PAGE_SIZE. rewrite Z.add_mod, Hoa, Hsta by lia. done.
  - right. done.
  - simpl. rewrite Ek. simpl. by destruct s as [[] ? ? ? ? ? ?].
Qed.

(** Several requests, and what they take together. *)
Fixpoint allocate_all (szs : list Z) : K bst (list Z) :=
  match szs with
  | [] => mret []
  | sz :: szs => r ← OBOS_BasicMMAllocatePages sz None; rs ← allocate_all szs; mret (r.1 :: rs)
  end.
Definition bump_total (szs : list Z) : Z := foldr (λ sz n, bump_step sz + n) 0 szs.

(** A block [x] of [x.2] bytes at [x.1]. *)
Definition block_before (x y : Z * Z) : Prop := x.1 + x.2 < y.1.

Lemma bump_total_nonneg szs : Forall (λ sz, 0 <= sz < 2 ^ 63) szs → 0 <= bump_total szs.
Proof. induction 1 as [|sz szs ? ? IH]; simpl; [lia|]. destruct (bump_step_bounds sz). lia. Qed.

(** [C37] The pages of early boot: as long as the buffer is large enough every request is
    granted a page-aligned block of the buffer; no two blocks overlap, and there is
    at least one byte between them. *)
Theorem bump_blocks_disjoint szs s v off :
  b_ready s v → bump_ok s off → Forall (λ sz, 0 <= sz < 2 ^ 63) szs → off + bump_total szs < BUMP_SIZE →
  ∃ addrs s', allocate_all szs s = Ret addrs s' ∧ length addrs = length szs ∧
    StronglySorted block_before (zip addrs szs) ∧
    Forall (λ x, x.1 mod OBOS_PAGE_SIZE = 0 ∧ bump_buffer + off <= x.1 ∧ x.1 + x.2 < bump_buffer + BUMP_SIZE) (zip addrs szs).
Proof.
  revert s off. induction szs as [|sz szs IH]; intros s off Hr Hb Hsz Ht.
  { exists [], s. split_and!; [done|done|constructor|constructor]. }
  apply Forall_cons in Hsz as [Hsz Hszs]. cbn [bump_total foldr] in Ht. pose proof (bump_total_nonneg szs Hszs) as Hn.
  unfold bump_total in Hn. pose proof (bump_run s v off sz None Hr Hb Hsz) as H. rewrite decide_True in H by lia.
  destruct H as (s1 & E1 & Hb1 & Ek). destruct (bump_step_bounds sz) as [Hst _]. pose proof (bu_range _ _ Hb) as Hor.
  destruct (IH s1 (off + bump_step sz)) as (addrs & s' & E & Hlen & Hs & Hf); [unfold b_ready; by rewrite Ek|done|done|unfold bump_total; lia|].
  exists (bump_buffer + off :: addrs), s'. split; [|split; [|split]].
  - cbn [allocate_all]. erewrite bind_Ret by exact E1. by erewrite bind_Ret by exact E.
  - simpl. by rewrite Hlen.
  - cbn [zip zip_with]. constructor; [done|]. eapply Forall_impl; [exact Hf|]. intros [a z] (_ & Ha & _). unfold block_before. simpl in *. lia.
  - cbn [zip zip_with]. constructor.
    + simpl. split; [|lia]. rewrite Z.add_mod, bump_buffer_aligned, (bu_aligned _ _ Hb) by (unfold OBOS_PAGE_SIZE; lia). done.
    + eapply Forall_impl; [exact Hf|]. intros [a z] (? & ? & ?). simpl in *. split; [done|lia].
Qed.

(** ** The list of regions *)

Definition region_addr (s : bst) (x : Z) : option Z := r_addr <$> mm_regions s !! x.

(** The nodes [xs] of the list have the addresses [as_], in order. *)
Record regions_ok (s : bst) (xs as_ : list Z) : Prop := {
  ro_rep : dl_rep (region_links s) (s_regionList s) xs;
  ro_addrs : Forall2 (λ x a, region_addr s x = Some a) xs as_;
  ro_sorted : StronglySorted Z.lt as_
}.

(** An address put at its place. *)
Definition insert_sorted (b : Z) (as_ : list Z) : list Z := filter (λ a, a < b) as_ ++ b :: filter (λ a, b < a) as_.

Lemma Forall_filter_id {A} (P : A → Prop) `{!∀ x, Decision (P x)} l : Forall P l → filter P l = l.
Proof. induction 1; [done|]. by rewrite filter_cons_True, IHForall. Qed.
Lemma Forall_filter_nil {A} (P : A → Prop) `{!∀ x, Decision (P x)} l : Forall (λ x, ¬ P x) l → filter P l = [].
Proof. induction 1; [done|]. by rewrite filter_cons_False. Qed.

Lemma Forall2_impl_elem {A B} (P Q : A → B → Prop) l k :
  Forall2 P l k → (∀ x y, x ∈ l → P x y → Q x y) → Forall2 Q l k.
Proof. induction 1 as [|x y l k Hxy _ IH]; intros HPQ; constructor; [apply HPQ; [left|done]|]. apply IH. intros a b Ha. apply HPQ. by right. Qed.

Lemma insert_sorted_split b a1 a2 : Forall (λ a, a < b) a1 → Forall (λ a, b < a) a2 → insert_sorted b (a1 ++ a2) = a1 ++ b :: a2.
Proof.
  intros H1 H2. unfold insert_sorted. rewrite !filter_app, (Forall_filter_id (λ a, a < b) a1), (Forall_filter_id (λ a, b < a) a2) by done.
  rewrite (Forall_filter_nil _ a2), (Forall_filter_nil _ a1); 
    [by rewrite app_nil_r|eapply Forall_impl; [exact H1|]|eapply Forall_impl; [exact H2|]]; simpl; lia.
Qed.

Lemma StronglySorted_app_iff (l1 l2 : list Z) :
  StronglySorted Z.lt (l1 ++ l2) ↔ StronglySorted Z.lt l1 ∧ StronglySorted Z.lt l2 ∧ ∀ x y, x ∈ l1 → y ∈ l2 → x < y.
Proof.
  induction l1 as [|a l1 IH]; simpl.
  { split; [|by intros (_ & ? & _)]. intros H. split; [constructor|]. split; [done|]. set_solver. }
  split.
  - intros [Hs Hf]%StronglySorted_inv. apply IH in Hs as (H1 & H2 & H12). rewrite Forall_app, !Forall_forall in Hf.
    destruct Hf as [Hf1 Hf2]. split; [constructor; [done|by apply Forall_forall]|]. split; [done|].
    intros x y [->|Hx]%elem_of_cons Hy; auto.
  - intros ([Hs Hf]%StronglySorted_inv & H2 & H12). constructor; [apply IH; set_solver|]. apply Forall_app. split; [done|].
    apply Forall_forall. set_solver.
Qed.

(** The addresses below [b] come first. *)
Lemma split_at (R : Z → Z → Prop) xs as_ b :
  Forall2 R xs as_ → StronglySorted Z.lt as_ → b ∉ as_ →
  ∃ x1 x2 a1 a2, xs = x1 ++ x2 ∧ as_ = a1 ++ a2 ∧ Forall2 R x1 a1 ∧ Forall2 R x2 a2 ∧
    Forall (λ a, a < b) a1 ∧ Forall (λ a, b < a) a2.
Proof.
  induction 1 as [|x a xs as_ Hr Hrs IH]; intros Hs Hb.
  { by exists [], [], [], []. }
  apply StronglySorted_inv in Hs as [Hs Hf]. destruct IH as (x1 & x2 & a1 & a2 & -> & -> & H1 & H2 & Hl & Hg); [done|set_solver|].
  destruct (Z.lt_trichotomy a b) as [Hab|[->|Hab]]; [|set_solver|].
  - exists (x :: x1), x2, (a :: a1), a2. split_and!; auto.
  - assert (a1 = []) as ->.
    { destruct a1 as [|c a1]; [done|]. apply Forall_cons in Hl as [Hc _]. rewrite Forall_forall in Hf. specialize (Hf c). set_unfold in Hf.
      assert (a < c) by (apply Hf; by left). lia. }
    apply Forall2_nil_inv_r in H1 as ->. exists [], (x :: x2), [], (a :: a2). split_and!; auto.
Qed.

Lemma insert_sorted_ok b as_ : StronglySorted Z.lt as_ → b ∉ as_ → StronglySorted Z.lt (insert_sorted b as_).
Proof.
  intros Hs Hb. destruct (split_at eq as_ as_ b) as (x1 & x2 & a1 & a2 & _ & -> & _ & _ & H1 & H2); [|done..|].
  { by apply Forall_Forall2_diag, Forall_true. }
  rewrite insert_sorted_split by done. apply StronglySorted_app_iff in Hs as (Hs1 & Hs2 & H12). apply StronglySorted_app_iff.
  rewrite Forall_forall in H1, H2. split_and!; [done|by constructor; [|apply Forall_forall]|].
  intros x y Hx [->|Hy]%elem_of_cons; auto.
Qed.

(** Only the list differs: the links of its nodes and of the new one, and the flag that
    says its lock is initialised, which is set. *)
Definition only_list (s s' : bst) (xs : list Z) : Prop :=
  s' = s <| region_links := region_links s' |> <| s_regionList := s_regionList s' |> <| s_regionListLockInitialized := true |> ∧
  links_frame xs (region_links s) (region_links s').

(** The node is linked in by [op] between [x1] and [x2]. *)
Lemma link_region s v op node x1 x2 h' l' :
  b_ready s v → op (region_links s) (s_regionList s) node = Some (h', l') →
  dl_rep (region_links s) (s_regionList s) (x1 ++ x2) → node ∉ x1 ++ x2 → node ≠ 0 → Z.of_nat (length (x1 ++ x2)) + 1 < 2 ^ 64 →
  seg h' 0 (x1 ++ node :: x2) 0 → dl_head l' = default 0 (head (x1 ++ node :: x2)) →
  dl_tail l' = default 0 (last (x1 ++ node :: x2)) → dl_nNodes l' = dl_nNodes (s_regionList s) →
  links_frame (node :: x1 ++ x2) (region_links s) h' →
  ∃ s', (region_op op node;; Unlock (acq_irql v)) (with_irq (acq_st (irq (bk s)) RegionListLock) s) = Ret () s' ∧
    dl_rep (region_links s') (s_regionList s') (x1 ++ node :: x2) ∧ only_list s s' (node :: x1 ++ x2).
Proof.
  intros Hr Hop [Hnd Hnn _ _ Hc _] Hn Hn0 Hlt Hs Hh Ht Hcn Hf.
  set (s1 := with_irq _ s). set (s2 := s1 <| region_links := h' |> <| s_regionList := l' <| dl_nNodes ::= λ n, wrap64 (n + 1) |> |>).
  assert (region_op op node s1 = Ret () s2) as E.
  { unfold region_op. rewrite !(bind_Ret _ _ _ _ _ (gets_eq _ _)). by erewrite bind_Ret by (apply deref_opt_eq; exact Hop). }
  erewrite bind_Ret by exact E. erewrite (Unlock_eq s) by done. eexists. split; [reflexivity|]. split; [|split; [by destruct s as [[] ? ? ? ? ? ?]|done]].
  assert (length (x1 ++ node :: x2) = S (length (x1 ++ x2))) as Hl by (rewrite !length_app; simpl; lia).
  split; simpl; [| |done|done| |done].
  - rewrite <- Permutation_middle. by constructor.
  - rewrite <- Permutation_middle. set_solver.
  - rewrite Hcn, Hc, Hl, wrap_small; unfold in_u; lia.
Qed.

Lemma get_region_addr s x a : region_addr s x = Some a → ∃ r, get_region x s = Ret r s ∧ r_addr r = a.
Proof.
  unfold region_addr. destruct (mm_regions s !! x) as [r|] eqn:E; [|done]. intros [= <-]. exists r. split; [by apply load_eq|done].
Qed.

Lemma find_predecessor_null fuel node base s : find_predecessor fuel node base 0 s = Ret 0 s.
Proof. by destruct fuel. Qed.

(** The search ends at the last node below the address. *)
Lemma find_place_eq l1 f c l2 fuel p node base b s :
  seg (region_links s) p (l1 ++ f :: c :: l2) 0 → 0 ∉ l1 ++ f :: c :: l2 → region_addr s node = Some base →
  Forall (λ x, ∃ a, region_addr s x = Some a ∧ a < base) (l1 ++ [f]) → region_addr s c = Some b → base < b →
  (length l1 < fuel)%nat → find_predecessor fuel node base (default 0 (head (l1 ++ f :: c :: l2))) s = Ret f s.
Proof.
  intros Hs H0 Hn Hl Hc Hb. destruct (get_region_addr _ _ _ Hn) as (y & Ey & Hy).
  revert p fuel Hs H0 Hl. induction l1 as [|x l1 IH]; intros p fuel Hs H0 Hl Hf; (destruct fuel as [|fuel]; [simpl in Hf; lia|]).
  - destruct Hs as [Hlk _]. apply Forall_singleton in Hl as (a & Ha & Hab). destruct (get_region_addr _ _ _ Ha) as (r & Er & Hr).
    destruct (get_region_addr _ _ _ Hc) as (z & Ez & Hz). change (default 0 (head _)) with f. cbn [find_predecessor].
    rewrite (proj2 (truthy_true f)) by set_solver. cbn [negb]. erewrite bind_Ret by (by apply load_eq). change (dl_next _) with c.
    rewrite (proj2 (truthy_true c)) by set_solver. cbn [negb]. erewrite bind_Ret by exact Er.
    rewrite Hr, (proj2 (Z.ltb_lt a base)) by done. erewrite bind_Ret.
    2: { erewrite bind_Ret by exact Ez. erewrite bind_Ret by exact Ey. reflexivity. }
    by rewrite Hz, Hy, (proj2 (Z.leb_le base b)) by lia.
  - destruct Hs as [Hlk Hs]. apply Forall_cons in Hl as [(a & Ha & Hab) Hl]. change (default 0 (head _)) with x. cbn [find_predecessor].
    rewrite (proj2 (truthy_true x)) by set_solver. cbn [negb]. erewrite bind_Ret by (by apply load_eq).
    change (dl_next _) with (default 0 (head (l1 ++ f :: c :: l2))).
    assert (∃ n, default 0 (head (l1 ++ f :: c :: l2)) = n ∧ n ∈ l1 ++ [f] ∧ n ∈ l1 ++ f :: c :: l2) as (n & En & Hn1 & Hn2).
    { clear. destruct l1 as [|n l1]; [exists f|exists n]; (split; [done|]); simpl; rewrite !elem_of_cons, ?elem_of_app, ?elem_of_cons; tauto. }
    rewrite Forall_forall in Hl. destruct (Hl n Hn1) as (d & Hd & Hdb). destruct (get_region_addr _ _ _ Ha) as (r & Er & Hr).
    destruct (get_region_addr _ _ _ Hd) as (z & Ez & Hz). rewrite En.
    assert (n ≠ 0) as Hnz by (intros ->; apply H0; by right). rewrite (proj2 (truthy_true n) Hnz). cbn [negb].
    erewrite bind_Ret by exact Er. rewrite Hr, (proj2 (Z.ltb_lt a base)) by done. erewrite bind_Ret.
    2: { erewrite bind_Ret by exact Ez. erewrite bind_Ret by exact Ey. reflexivity. }
    rewrite Hz, Hy, (proj2 (Z.leb_gt base d)) by lia. rewrite <- En. apply (IH x); [done|set_solver|by apply Forall_forall|].
    simpl in Hf. lia.
Qed.

(** What [OBOSH_BasicMMAddRegion] does after it has filled in the node. *)
Definition place_region (node base : Z) : K bst () :=
  l ← gets s_regionList;
  above ← (if truthy (dl_tail l) then t ← get_region (dl_tail l); mret (r_addr t <? base) else mret false);
  if (above : bool) then oldIrql ← Lock; region_op link_tail node;; Unlock oldIrql else
  below ← (if truthy (dl_head l) then t ← get_region (dl_head l); mret (base <? r_addr t) else mret false);
  if (below : bool) then oldIrql ← Lock; region_op link_head node;; Unlock oldIrql else
  oldIrql ← Lock;
  l ← gets s_regionList;
  h ← gets region_links;
  found ← find_predecessor (size h) node base (dl_head l);
  if negb (truthy found) then region_op link_tail node;; Unlock oldIrql
  else region_op (link_after found) node;; Unlock oldIrql.

Lemma add_region_place s node base sz r : mm_regions s !! node = Some r →
  OBOSH_BasicMMAddRegion node base sz s =
    place_region node base (s <| mm_regions ::= <[node := mkRegion REGION_MAGIC_INT base (mmioRange r) sz]> |>).
Proof.
  intros Hn. unfold OBOSH_BasicMMAddRegion, set_region. erewrite bind_Ret by (apply store_eq; exact Hn).
  do 2 erewrite bind_Ret by (apply store_eq; apply lookup_insert_eq). simpl. by rewrite !insert_insert_eq.
Qed.

Section place.
Context (s : bst) (v node base : Z) (x1 x2 : list Z).
Context (Hr : b_ready s v) (Hrep : dl_rep (region_links s) (s_regionList s) (x1 ++ x2)).
Context (Hn : node ∉ x1 ++ x2) (Hn0 : node ≠ 0) (Hlink : region_links s !! node = Some unlinked).
Context (Hlen : Z.of_nat (length (x1 ++ x2)) + 1 < 2 ^ 64).
Context (H1 : Forall (λ x, ∃ a, region_addr s x = Some a ∧ a < base) x1).
Context (H2 : Forall (λ x, ∃ a, region_addr s x = Some a ∧ base < a) x2).
#[local] Set Default Proof Using "Type*".

Abbreviation placed := (∃ s', place_region node base s = Ret () s' ∧
  dl_rep (region_links s') (s_regionList s') (x1 ++ node :: x2) ∧ only_list s s' (node :: x1 ++ x2)).

(** The comparison with the node at an end of the list. *)
Lemma compare_end (f : basicmm_region → bool) x b : 
  (x ∈ x1 ++ x2) → (∀ r, get_region x s = Ret r s → f r = b) →
  (if truthy x then t ← get_region x; mret (f t) else mret false) s = Ret b s.
Proof.
  intros Hx Hf. rewrite (proj2 (truthy_true x)) by (intros ->; by apply (rep_nonnull _ _ _ Hrep)).
  assert (is_Some (region_addr s x)) as [a Ha].
  { rewrite Forall_forall in H1, H2. apply elem_of_app in Hx as [Hx|Hx]; [destruct (H1 _ Hx) as (a & ? & _)|destruct (H2 _ Hx) as (a & ? & _)]; eauto. }
  destruct (get_region_addr _ _ _ Ha) as (r & Er & _). erewrite bind_Ret by exact Er. by rewrite (Hf r Er).
Qed.

Lemma append_region : x2 = [] → ∃ s', (region_op link_tail node;; Unlock (acq_irql v)) (with_irq (acq_st (irq (bk s)) RegionListLock) s) = Ret () s' ∧
  dl_rep (region_links s') (s_regionList s') (x1 ++ node :: x2) ∧ only_list s s' (node :: x1 ++ x2).
Proof.
  intros ->. pose proof Hrep as Hrep0. rewrite app_nil_r in Hrep0, Hn.
  destruct (link_tail_spec _ _ _ node unlinked Hrep0) as (h' & E & Hs & Hf); [done..|].
  eapply (link_region s v link_tail node x1 []); try done; rewrite ?app_nil_r; try done.
  - by destruct x1.
  - simpl. by rewrite last_snoc.
Qed.

Lemma get_region_inv x r : get_region x s = Ret r s → region_addr s x = Some (r_addr r).
Proof using Type. unfold get_region, load, region_addr. destruct (mm_regions s !! x); [|done]. by intros [= ->]. Qed.

Lemma addr_below y r : y ∈ x1 → get_region y s = Ret r s → r_addr r < base.
Proof using H1. intros Hy Hg%get_region_inv. rewrite Forall_forall in H1. destruct (H1 y Hy) as (a & Ha & ?). rewrite Ha in Hg. by injection Hg as ->. Qed.
Lemma addr_above y r : y ∈ x2 → get_region y s = Ret r s → base < r_addr r.
Proof using H2. intros Hy Hg%get_region_inv. rewrite Forall_forall in H2. destruct (H2 y Hy) as (a & Ha & ?). rewrite Ha in Hg. by injection Hg as ->. Qed.

Lemma place_last : x2 = [] → placed.
Proof.
  intros E2. destruct (append_region E2) as (s' & E & Hs'). exists s'. split; [|done]. unfold place_region.
  rewrite (bind_Ret _ _ _ _ _ (gets_eq _ _)), (rep_tail _ _ _ Hrep), (rep_head _ _ _ Hrep).
  destruct (decide (x1 = [])) as [E1|Hne].
  - rewrite E1, E2. simpl. rewrite !bind_ret_l. erewrite bind_Ret by (by apply Lock_eq).
    rewrite !(bind_Ret _ _ _ _ _ (gets_eq _ _)). cbn [s_regionList with_irq set_field].
    rewrite (rep_head _ _ _ Hrep), E1, E2. simpl default.
    rewrite (bind_Ret _ _ _ 0 _ (find_predecessor_null _ _ _ _)). exact E.
  - destruct (last_is_Some x1) as [_ [y Hy]]; [done|]. pose proof (last_Some_elem _ _ Hy) as Hin. rewrite E2, app_nil_r, Hy. erewrite bind_Ret.
    2: { apply compare_end with (b := true); [apply elem_of_app; by left|]. intros r Hg. apply Z.ltb_lt. by apply (addr_below y). }
    cbv iota. erewrite bind_Ret by (by apply Lock_eq). exact E.
Qed.

Lemma above_false : x2 ≠ [] → ∀ l, l = s_regionList s →
  (if truthy (dl_tail l) then t ← get_region (dl_tail l); mret (r_addr t <? base) else mret false) s = Ret false s.
Proof.
  intros Hne l ->. rewrite (rep_tail _ _ _ Hrep). destruct (last_is_Some x2) as [_ [y Hy]]; [done|].
  pose proof (last_Some_elem _ _ Hy) as Hin. rewrite last_app, Hy. apply compare_end; [apply elem_of_app; by right|].
  intros r Hg. apply Z.ltb_ge. pose proof (addr_above y r Hin Hg). lia.
Qed.

Lemma place_first y l3 : x1 = [] → x2 = y :: l3 → placed.
Proof.
  intros E1 E2. unfold place_region. rewrite (bind_Ret _ _ _ _ _ (gets_eq _ _)). erewrite bind_Ret by (apply above_false; [by rewrite E2|done]). cbv iota.
  assert (y ∈ x2) as Hin by (rewrite E2; left). assert (dl_head (s_regionList s) = y) as -> by (by rewrite (rep_head _ _ _ Hrep), E1, E2).
  erewrite bind_Ret.
  2: { apply compare_end with (b := true); [apply elem_of_app; by right|]. intros r Hg. apply Z.ltb_lt. by apply (addr_above y). }
  cbv iota. erewrite bind_Ret by (by apply Lock_eq). pose proof Hrep as Hrep0. rewrite E1, E2 in Hrep0.
  destruct (link_head_spec _ _ y l3 node unlinked Hrep0) as (h' & E & Hf & Hs); [by rewrite E1, E2 in Hn|done..|]. rewrite E1, E2.
  eapply (link_region s v link_head node [] (y :: l3)); try done; [by rewrite E1, E2 in Hn|by rewrite E1, E2 in Hlen|].
  simpl. by rewrite (rep_tail _ _ _ Hrep0).
Qed.

Lemma place_middle f l1 y l3 : x1 = l1 ++ [f] → x2 = y :: l3 → region_addr s node = Some base → placed.
Proof.
  intros E1 E2 Hnode. unfold place_region. rewrite (bind_Ret _ _ _ _ _ (gets_eq _ _)). erewrite bind_Ret by (apply above_false; [by rewrite E2|done]). cbv iota.
  assert (x1 ++ x2 = l1 ++ f :: y :: l3) as Exs by (rewrite E1, E2, <- app_assoc; done). pose proof Hrep as Hrep0. rewrite Exs in Hrep0.
  pose proof (rep_head _ _ _ Hrep0) as Eh.
  assert (dl_head (s_regionList s) ∈ x1) as Hz by (rewrite Eh, E1; destruct l1; simpl; rewrite ?elem_of_cons; tauto).
  erewrite bind_Ret.
  2: { apply compare_end with (b := false); [apply elem_of_app; by left|]. intros r Hg. apply Z.ltb_ge.
       pose proof (addr_below _ r Hz Hg). lia. }
  cbv iota. erewrite bind_Ret by (by apply Lock_eq). rewrite !(bind_Ret _ _ _ _ _ (gets_eq _ _)). set (s1 := with_irq _ s).
  pose proof (seg_size _ _ _ _ (rep_seg _ _ _ Hrep0) (rep_nodup _ _ _ Hrep0)) as Hsz. rewrite length_app in Hsz. simpl in Hsz.
  destruct (Forall_cons_1 _ _ _ (eq_ind _ (Forall _) H2 _ E2)) as [(b & Hb & Hbb) _].
  assert (find_predecessor (size (region_links s)) node base (default 0 (head (l1 ++ f :: y :: l3))) s1 = Ret f s1) as Ef.
  { apply (find_place_eq l1 f y l3 _ 0 node base b s1); [apply Hrep0|apply Hrep0|exact Hnode| |exact Hb|done|lia].
    rewrite <- E1. exact H1. }
  rewrite <- Eh in Ef. erewrite bind_Ret by exact Ef. rewrite (proj2 (truthy_true f)); cbn [negb].
  2: { intros ->. apply (rep_nonnull _ _ _ Hrep0). set_solver. }
  destruct (link_after_spec _ _ l1 f y l3 node unlinked Hrep0) as (h' & E & Hf & Hs); [by rewrite Exs in Hn|done..|].
  assert (x1 ++ node :: x2 = l1 ++ f :: node :: y :: l3) as Exs' by (rewrite E1, E2, <- app_assoc; done).
  eapply (link_region s v (link_after f) node x1 x2); try done; rewrite ?Exs', ?Exs; try done.
  - rewrite Eh. by destruct l1.
  - rewrite (rep_tail _ _ _ Hrep0). by rewrite !last_app.
Qed.

End place.

(** [C38] Adding a region whose address is not in the list yet, with a node that is not
    linked (null [next] and [prev]), from any level up to [IRQL_DISPATCH]: the region is
    recorded and its node put at its place, and the list stays strictly ordered by
    address. Nothing else changes but the links of the nodes of the list and the flag
    that says that its lock is initialised, which is then set. *)
Theorem add_region_sorted s v xs as_ node base sz r :
  b_ready s v → regions_ok s xs as_ → base ∉ as_ → node ∉ xs → node ≠ 0 →
  mm_regions s !! node = Some r → region_links s !! node = Some unlinked → Z.of_nat (length xs) + 1 < 2 ^ 64 →
  ∃ s' x1 x2, OBOSH_BasicMMAddRegion node base sz s = Ret () s' ∧ xs = x1 ++ x2 ∧
    regions_ok s' (x1 ++ node :: x2) (insert_sorted base as_) ∧
    only_list (s <| mm_regions ::= <[node := mkRegion REGION_MAGIC_INT base (mmioRange r) sz]> |>) s' (node :: xs).
Proof.
  intros Hr [Hrep Haddr Hsort] Hb Hn Hn0 Hnode Hlink Hlen. rewrite (add_region_place _ _ _ _ _ Hnode).
  destruct (split_at _ _ _ base Haddr Hsort Hb) as (x1 & x2 & a1 & a2 & -> & -> & H1 & H2 & Hlt & Hgt).
  set (new := mkRegion REGION_MAGIC_INT base (mmioRange r) sz). set (s0 := s <| mm_regions ::= <[node := new]> |>).
  assert (∀ x a, x ∈ x1 ++ x2 → region_addr s x = Some a → region_addr s0 x = Some a) as Hold.
  { intros x a Hx. unfold region_addr. simpl. by rewrite lookup_insert_ne by (intros ->; done). }
  assert (region_addr s0 node = Some base) as Hnew by (unfold region_addr; simpl; by rewrite lookup_insert_eq).
  assert (Forall2 (λ x a, region_addr s0 x = Some a) x1 a1 ∧ Forall2 (λ x a, region_addr s0 x = Some a) x2 a2) as [H1' H2'].
  { split; [eapply Forall2_impl_elem; [exact H1|]|eapply Forall2_impl_elem; [exact H2|]]; intros x a Hx; apply Hold; apply elem_of_app; auto. }
  assert (Forall (λ x, ∃ a, region_addr s0 x = Some a ∧ a < base) x1) as F1.
  { eapply Forall2_Forall_l; [exact H1'|]. eapply Forall_impl; [exact Hlt|]. eauto. }
  assert (Forall (λ x, ∃ a, region_addr s0 x = Some a ∧ base < a) x2) as F2.
  { eapply Forall2_Forall_l; [exact H2'|]. eapply Forall_impl; [exact Hgt|]. eauto. }
  cut (∃ s', place_region node base s0 = Ret () s' ∧ dl_rep (region_links s') (s_regionList s') (x1 ++ node :: x2) ∧
    only_list s0 s' (node :: x1 ++ x2)).
  { intros (s' & E & Hrep' & [Em Hf]). exists s', x1, x2. split; [done|]. split; [done|]. split; [|done]. split; [done| |].
    - rewrite insert_sorted_split by done. unfold region_addr. rewrite Em. cbn [mm_regions set_field]. apply Forall2_app; [done|]. by constructor.
    - by apply insert_sorted_ok. }
  destruct x2 as [|y l3]; [by apply (place_last s0 v)|]. destruct x1 as [|f l1 _] using rev_ind; [by eapply (place_first s0 v)|].
  by eapply (place_middle s0 v).
Qed.

End proofs.
