(* ===== verification/InitSwap.v ===== *)
(** * The initial swap device ([arch/x86_64/initial_swap.c], [mm/swap.h])

    The device keeps pages in a buffer that the boot loader provides.  The buffer is
    memory in 8-byte words, so that a node of the free list and the data of a block lie
    in it as the source lays them out: a [swap_page] is the words [size], [next], [prev],
    then the four of its tree entry; the data follows.  The red-black tree of reserved
    blocks is the set of their addresses; the words of the tree entries are not modelled.
    The comparison of the tree takes the difference of two addresses as an [int], so the
    set is right for buffers below 2 GiB. *)

From S2P Require Import Prelude DList KState Irql ThreadList Pmm Paging.

(** ** Data *)

Definition SWAP_HEADER_MAGIC : Z := 0x535741504844524D.
Definition SIZEOF_SWAP_PAGE : Z := 56.
Definition SIZEOF_SWAP_HEADER : Z := 72.

(** The header without its lock, which is [SwapLock] of its address. *)
Record swap_header := mkSwapHdr {
  sh_magic : Z; sh_pages : gset Z; freeList : dlist; sh_size : Z; nBytesFree : Z
}.
#[export] Instance eta_swap_header : Etable swap_header :=
  λ r, mkSwapHdr (sh_magic r) (sh_pages r) (freeList r) (sh_size r) (nBytesFree r).
Definition zero_header : swap_header := mkSwapHdr 0 ∅ empty_list 0 0.

(** [initial_ops]: the function pointers are those of this file. *)
Record swap_dev := mkSwapDev { initial_ops : bool; metadata : Z }.
#[export] Instance eta_swap_dev : Etable swap_dev := λ r, mkSwapDev (initial_ops r) (metadata r).

Record sst := mkSst {
  sg : gst;
  swap_mem : gmap Z Z;
  swap_hdrs : gmap Z swap_header;
  swap_devs : gmap Z swap_dev
}.
#[export] Instance eta_sst : Etable sst := λ r, mkSst (sg r) (swap_mem r) (swap_hdrs r) (swap_devs r).

Section ops.
Context {DH : DpcHandlers}.

Definition skern {A} (m : K kst A) : K sst A :=
  zoom (λ s, mk (pm (sg s))) (λ k s, s <| sg ::= λ g, g <| pm ::= λ p, p <| mk := k |> |> |>) m.

Definition get_hdr (p : Z) : K sst swap_header := load swap_hdrs p.
Definition set_hdr (p : Z) (f : swap_header → swap_header) : K sst () :=
  store swap_hdrs (λ m s, s <| swap_hdrs := m |>) p f.
Definition swap_load (a : Z) : K sst Z := load swap_mem a.
Definition swap_store (a v : Z) : K sst () := store swap_mem (λ m s, s <| swap_mem := m |>) a (λ _, v).

(** The fields of a [swap_page]. *)
Definition at_size (p : Z) : Z := p.
Definition at_next (p : Z) : Z := p + 8.
Definition at_prev (p : Z) : Z := p + 16.
Definition swap_data (p : Z) : Z := p + SIZEOF_SWAP_PAGE.

(** ** Reserving *)

(** The first free block, from [page] on, of the size required. *)
Fixpoint find_free (fuel : nat) (nBytesRequired page : Z) : K sst Z :=
  if negb (truthy page) then mret nullptr else
  n ← swap_load (at_size page);
  if negb (n <? nBytesRequired) then mret page else
  match fuel with
  | O => stop Hang
  | S fuel => next ← swap_load (at_next page); find_free fuel nBytesRequired next
  end.

Definition unlink_free (hdr page : Z) : K sst () :=
  next ← swap_load (at_next page);
  when (truthy next) (prev ← swap_load (at_prev page); swap_store (at_prev next) prev);;
  prev ← swap_load (at_prev page);
  when (truthy prev) (next ← swap_load (at_next page); swap_store (at_next prev) next);;
  h ← get_hdr hdr;
  when (dl_head (freeList h) =? page) (
    next ← swap_load (at_next page); set_hdr hdr (λ h, h <| freeList ::= λ l, l <| dl_head := next |> |>));;
  h ← get_hdr hdr;
  when (dl_tail (freeList h) =? page) (
    prev ← swap_load (at_prev page); set_hdr hdr (λ h, h <| freeList ::= λ l, l <| dl_tail := prev |> |>));;
  set_hdr hdr (λ h, h <| freeList ::= λ l, l <| dl_nNodes ::= λ n, wrap64 (n - 1) |> |>).

(** The header of the device, [None] when there is none that can be used. *)
Definition device_header (dev : Z) : K sst (option Z) :=
  d ← load swap_devs dev;
  let hdr := metadata d in
  if negb (truthy hdr) then mret None else
  h ← get_hdr hdr;
  mret (if sh_magic h =? SWAP_HEADER_MAGIC then Some hdr else None).

Definition swap_lock (hdr : Z) : K sst Z := skern (Core_SpinlockAcquireExplicit (Some (SwapLock hdr)) IRQL_DISPATCH true).
Definition swap_unlock (hdr oldIrql : Z) : K sst () := skern (Core_SpinlockRelease (SwapLock hdr) oldIrql);; mret ().

(** The status, and [*id]; [None] is a null pointer. *)
Definition swap_resv (dev : Z) (id : option Z) (nPages : Z) : K sst (obos_status * option Z) :=
  if negb (truthy dev) || bool_decide (id = None) || negb (truthy nPages) then mret (OBOS_STATUS_INVALID_ARGUMENT, id) else
  o ← device_header dev;
  match o with
  | None => mret (OBOS_STATUS_INVALID_ARGUMENT, id)
  | Some hdr =>
      let allocSize := wrap64 (nPages * OBOS_PAGE_SIZE) in
      let nBytesRequired := wrap64 (allocSize + SIZEOF_SWAP_PAGE) in
      h ← get_hdr hdr;
      if nBytesFree h <? nBytesRequired then mret (OBOS_STATUS_NOT_ENOUGH_MEMORY, id) else
      oldIrql ← swap_lock hdr;
      h ← get_hdr hdr;
      m ← gets swap_mem;
      page ← find_free (size m) nBytesRequired (dl_head (freeList h));
      if negb (truthy page) then swap_unlock hdr oldIrql;; mret (OBOS_STATUS_NOT_ENOUGH_MEMORY, id) else
      n ← swap_load (at_size page);
      swap_store (at_size page) (wrap64 (n - nBytesRequired));;
      set_hdr hdr (λ h, h <| nBytesFree ::= λ n, wrap64 (n - nBytesRequired) |>);;
      n ← swap_load (at_size page);
      let buf := wrap64 (page + n) in
      when (negb (truthy n)) (unlink_free hdr page);;
      set_hdr hdr (λ h, h <| sh_pages ::= λ t, {[buf]} ∪ t |>);;
      swap_store (at_size buf) allocSize;;
      swap_unlock hdr oldIrql;;
      mret (OBOS_STATUS_SUCCESS, Some buf)
  end.

(** ** Freeing *)

Definition swap_free (dev id nPages : Z) : K sst obos_status :=
  if negb (truthy dev) || negb (truthy nPages) || negb (truthy id) then mret OBOS_STATUS_INVALID_ARGUMENT else
  o ← device_header dev;
  match o with
  | None => mret OBOS_STATUS_INVALID_ARGUMENT
  | Some hdr =>
      oldIrql ← swap_lock hdr;
      let page := id in
      h ← get_hdr hdr;
      if negb (bool_decide (page ∈ sh_pages h)) then swap_unlock hdr oldIrql;; mret OBOS_STATUS_INVALID_ARGUMENT else
      set_hdr hdr (λ h, h <| sh_pages ::= λ t, t ∖ {[page]} |>);;
      h ← get_hdr hdr;
      when (negb (truthy (dl_head (freeList h)))) (set_hdr hdr (λ h, h <| freeList ::= λ l, l <| dl_head := page |> |>));;
      h ← get_hdr hdr;
      when (truthy (dl_tail (freeList h))) (swap_store (at_next (dl_tail (freeList h))) page);;
      swap_store (at_prev page) (dl_tail (freeList h));;
      set_hdr hdr (λ h, h <| freeList ::= λ l, l <| dl_tail := page |> |>);;
      set_hdr hdr (λ h, h <| freeList ::= λ l, l <| dl_nNodes ::= λ n, wrap64 (n - 1) |> |>);;
      n ← swap_load (at_size page);
      set_hdr hdr (λ h, h <| nBytesFree ::= λ b, wrap64 (b + n) |>);;
      swap_unlock hdr oldIrql;;
      mret OBOS_STATUS_SUCCESS
  end.

(** ** Reading and writing *)

(** [n] words from physical memory into the buffer, and back. *)
Fixpoint copy_out (n : nat) (dst src : Z) : K sst () :=
  match n with
  | O => mret ()
  | Datatypes.S n =>
      v ← zoom sg (λ g s, s <| sg := g |>) (load_word src);
      swap_store dst v;;
      copy_out n (dst + 8) (src + 8)
  end.
Fixpoint copy_in (n : nat) (dst src : Z) : K sst () :=
  match n with
  | O => mret ()
  | Datatypes.S n =>
      v ← swap_load src;
      zoom sg (λ g s, s <| sg := g |>) (store_word dst v);;
      copy_in n (dst + 8) (src + 8)
  end.

(** The checks of both, and then [copy] with the address of the data. *)
Definition swap_transfer (dev id nPages offsetBytes : Z) (copy : Z → K sst ()) : K sst obos_status :=
  if negb (truthy dev) || negb (truthy id) then mret OBOS_STATUS_INVALID_ARGUMENT else
  o ← device_header dev;
  match o with
  | None => mret OBOS_STATUS_INVALID_ARGUMENT
  | Some hdr =>
      oldIrql ← swap_lock hdr;
      let page := id in
      h ← get_hdr hdr;
      if negb (bool_decide (page ∈ sh_pages h)) then swap_unlock hdr oldIrql;; mret OBOS_STATUS_INVALID_ARGUMENT else
      swap_unlock hdr oldIrql;;
      if negb (truthy nPages) then mret OBOS_STATUS_SUCCESS else
      n ← swap_load (at_size page);
      if n <? wrap64 (nPages * OBOS_PAGE_SIZE) then mret OBOS_STATUS_INVALID_ARGUMENT else
      if n <=? offsetBytes then mret OBOS_STATUS_INVALID_ARGUMENT else
      if n <? wrap64 (offsetBytes + wrap64 (nPages * OBOS_PAGE_SIZE)) then mret OBOS_STATUS_INVALID_ARGUMENT else
      copy (swap_data page + offsetBytes);;
      mret OBOS_STATUS_SUCCESS
  end.

Definition page_words (nPages : Z) : nat := Z.to_nat (nPages * 512).
Definition swap_write (dev id phys nPages offsetBytes : Z) : K sst obos_status :=
  swap_transfer dev id nPages offsetBytes (λ buf, copy_out (page_words nPages) buf phys).
Definition swap_read (dev id phys nPages offsetBytes : Z) : K sst obos_status :=
  swap_transfer dev id nPages offsetBytes (λ buf, copy_in (page_words nPages) phys buf).

(** ** Setting up *)

Fixpoint zero_swap (n : nat) (a : Z) : K sst () :=
  match n with
  | O => mret ()
  | Datatypes.S n => swap_store a 0;; zero_swap n (a + 8)
  end.

Definition Arch_InitializeInitialSwapDevice (dev buf size : Z) : K sst obos_status :=
  if negb (truthy buf) || (size <? SIZEOF_SWAP_HEADER + OBOS_HUGE_PAGE_SIZE) then mret OBOS_STATUS_INVALID_ARGUMENT else
  store swap_devs (λ m s, s <| swap_devs := m |>) dev (λ _, mkSwapDev true buf);;
  let hdr := buf in
  modify (λ s, s <| swap_hdrs ::= <[hdr := zero_header]> |>);;
  skern (modify (λ k, k <| irq ::= λ i, i <| locks ::= <[SwapLock hdr := Core_SpinlockCreate]> |> |>));;
  set_hdr hdr (λ h, h <| sh_size := wrap64 (size - SIZEOF_SWAP_HEADER) |>);;
  set_hdr hdr (λ h, h <| nBytesFree := sh_size h |>);;
  let free := wrap64 (hdr + SIZEOF_SWAP_HEADER) in
  zero_swap 7 free;;
  set_hdr hdr (λ h, h <| nBytesFree ::= λ n, wrap64 (n - SIZEOF_SWAP_PAGE) |>);;
  h ← get_hdr hdr;
  swap_store (at_size free) (nBytesFree h);;
  set_hdr hdr (λ h, h <| freeList := mkList free free 1 |>);;
  set_hdr hdr (λ h, h <| sh_magic := SWAP_HEADER_MAGIC |>);;
  mret OBOS_STATUS_SUCCESS.

End ops.
