(* ===== verification/Vmm.v ===== *)
(** * The virtual memory manager: pages, swapping, page faults
    ([mm/swap.c], [mm/handler.c], [mm/page.h], [mm/context.h])

    Pages and contexts are objects by address.  The red-black tree of a context is the
    map from the addresses of its pages to the pages; the list node in a page has the
    address of the page.  Swap devices are reached through their function pointers
    ([SwapOps]), the file layer through [FileLayer]. *)

From stdpp Require Import sorting.
From S2P Require Import Prelude DList KState Irql ThreadList Schedule Thread Wait Vfs Pmm Paging PagingProofs InitSwap.

(** ** Data *)

(** [mm/page.h]; [ln_data] is the [data] of the list node. *)
Record page := mkPage {
  pg_owner : Z; ln_data : Z; pg_region : Z; isPrivateMapping : bool; prot : page_prot; workingSets : Z;
  pageable : bool; pagedOut : bool; isGuardPage : bool; allocated : bool; reserved : bool;
  age : Z; pg_addr : Z; swapId : Z; next_copied_page : Z; prev_copied_page : Z
}.
#[export] Instance eta_page : Etable page :=
  λ r, mkPage (pg_owner r) (ln_data r) (pg_region r) (isPrivateMapping r) (prot r) (workingSets r)
    (pageable r) (pagedOut r) (isGuardPage r) (allocated r) (reserved r)
    (age r) (pg_addr r) (swapId r) (next_copied_page r) (prev_copied_page r).

Record memstat := mkStat { committedMemory : Z; paged : Z; st_pageable : Z; nonPaged : Z; st_reserved : Z }.
#[export] Instance eta_memstat : Etable memstat :=
  λ r, mkStat (committedMemory r) (paged r) (st_pageable r) (nonPaged r) (st_reserved r).

(** [mm/context.h]; [ws_pages], [ws_capacity] and [ws_size] are [workingSet]. *)
Record context := mkCtx {
  c_owner : Z; c_pages : gmap Z Z; ws_pages : dlist; ws_capacity : Z; ws_size : Z;
  referenced : dlist; c_pt : Z; stat : memstat
}.
#[export] Instance eta_context : Etable context :=
  λ r, mkCtx (c_owner r) (c_pages r) (ws_pages r) (ws_capacity r) (ws_size r) (referenced r) (c_pt r) (stat r).

(** [pagecache_mapped_region]; the owner is the vnode of the page cache, its mutex is at
    the address of the region. *)
Record mapped_region := mkMapped { mr_fileoff : Z; mr_addr : Z; mr_sz : Z; mr_owner : Z; mr_ctx : Z }.
#[export] Instance eta_mapped_region : Etable mapped_region :=
  λ r, mkMapped (mr_fileoff r) (mr_addr r) (mr_sz r) (mr_owner r) (mr_ctx r).

Record vmst := mkVm {
  vs : sst;
  vpages : gmap Z page;
  ln_links : lheap;
  ctxs : gmap Z context;
  Mm_SwapProvider : Z;
  vm_vnodes : gmap Z vnode;
  vm_fds : gmap Z fd;
  regions_mapped : gmap Z mapped_region;
  mapped_links : lheap;
  mapped_lists : gmap Z dlist
}.
#[export] Instance eta_vmst : Etable vmst :=
  λ r, mkVm (vs r) (vpages r) (ln_links r) (ctxs r) (Mm_SwapProvider r) (vm_vnodes r) (vm_fds r)
    (regions_mapped r) (mapped_links r) (mapped_lists r).

(** [mm/handler.h] *)
Definition PF_EC_PRESENT : Z := 1.
Definition PF_EC_RW : Z := 2.
Definition PF_EC_UM : Z := 4.
Definition PF_EC_EXEC : Z := 16.

(** The function pointers of a swap device. *)
Class SwapOps := {
  dev_resv : Z → option Z → Z → K sst (obos_status * option Z);
  dev_free : Z → Z → Z → K sst obos_status;
  dev_write : Z → Z → Z → Z → Z → K sst obos_status;
  dev_read : Z → Z → Z → Z → Z → K sst obos_status
}.

(** The page cache: [VfsH_PageCacheGetEntry], and a new dirty region at the end of the
    list of a vnode.  [phys_mem_node] is the node embedded in a thread;
    [Mm_KernelContext] is the address of the kernel's context. *)
Class FileLayer := {
  cache_entry : Z → Z → Z → K vmst Z;
  dirty_append : Z → Z → Z → K vmst ();
  phys_mem_node : Z → Z;
  Mm_KernelContext : Z
}.

(** ** The tree of pages ([utils/tree.h] with [pg_cmp_pages]) *)

Definition tree_keys (t : gmap Z Z) : list Z := merge_sort Z.le (elements (dom t)).
(** [RB_FIND], [RB_MIN], [RB_NEXT] of the page at an address, [RB_INSERT] (which leaves a
    page that is there), and the pages in order. *)
Definition RB_FIND (t : gmap Z Z) (addr : Z) : Z := default nullptr (t !! addr).
Definition RB_MIN (t : gmap Z Z) : Z := default nullptr (head (tree_keys t) ≫= λ a, t !! a).
Definition RB_NEXT (t : gmap Z Z) (addr : Z) : Z := default nullptr (head (filter (λ a, addr < a) (tree_keys t)) ≫= λ a, t !! a).
Definition RB_INSERT (t : gmap Z Z) (addr p : Z) : gmap Z Z := match t !! addr with Some _ => t | None => <[addr := p]> t end.
Definition tree_list (t : gmap Z Z) : list Z := omap (λ a, t !! a) (tree_keys t).

Section ops.
Context {DH : DpcHandlers} {PE : PagingEnv} {SO : SwapOps} {FL : FileLayer}.

Definition in_sst {A} (m : K sst A) : K vmst A := zoom vs (λ k s, s <| vs := k |>) m.
Definition in_gst {A} (m : K gst A) : K vmst A := in_sst (zoom sg (λ g s, s <| sg := g |>) m).
Definition vkern {A} (m : K kst A) : K vmst A := in_sst (skern m).

Definition get_page (p : Z) : K vmst page := load vpages p.
Definition set_page (p : Z) (f : page → page) : K vmst () := store vpages (λ m s, s <| vpages := m |>) p f.
Definition get_ctx (c : Z) : K vmst context := load ctxs c.
Definition set_ctx (c : Z) (f : context → context) : K vmst () := store ctxs (λ m s, s <| ctxs := m |>) c f.
Definition set_stat (c : Z) (f : memstat → memstat) : K vmst () := set_ctx c (λ x, x <| stat ::= f |>).
Definition set_prot (p : Z) (f : page_prot → page_prot) : K vmst () := set_page p (λ x, x <| prot ::= f |>).

Definition page_size (p : page_prot) : Z := if huge_page p then OBOS_HUGE_PAGE_SIZE else OBOS_PAGE_SIZE.

(** [MmS_SetPageMapping] and [MmS_QueryPageInfo] on a page object. *)
Definition set_mapping (pt p phys : Z) : K vmst obos_status :=
  x ← get_page p; in_gst (MmS_SetPageMapping pt (Some (pg_addr x, prot x)) phys).
Definition query_page (pt addr p : Z) : K vmst obos_status :=
  x ← get_page p;
  r ← in_gst (MmS_QueryPageInfo pt addr (Some (pg_addr x, prot x)));
  match r.2 with
  | Some y => set_page p (λ x, x <| pg_addr := y.1 |> <| prot := y.2 |>)
  | None => mret ()
  end;;
  mret r.1.
Definition phys_address (addr : Z) : K vmst (obos_status * Z) :=
  r ← in_gst (OBOSS_GetPagePhysicalAddress addr true); mret (r.1, default 0 r.2).
(** The same with an initial value that is kept on an error. *)
Definition phys_address_or (addr d : Z) : K vmst Z :=
  r ← in_gst (OBOSS_GetPagePhysicalAddress addr true); mret (default d r.2).

(** ** Swapping ([mm/swap.c]) *)

Definition Mm_SwapOut (p : Z) : K vmst obos_status :=
  dev ← gets Mm_SwapProvider;
  if negb (truthy dev) then mret OBOS_STATUS_INVALID_INIT_PHASE else
  if negb (truthy p) then mret OBOS_STATUS_INVALID_ARGUMENT else
  x ← get_page p;
  OBOS_ASSERT (negb (reserved x));;
  if reserved x then mret OBOS_STATUS_INVALID_ARGUMENT else
  OBOS_ASSERT (negb (truthy (workingSets x)));;
  if negb (pageable x) || (0 <? workingSets x) then mret OBOS_STATUS_INVALID_ARGUMENT else
  let nPages := if huge_page (prot x) then OBOS_HUGE_PAGE_SIZE / OBOS_PAGE_SIZE else 1 in
  r ← phys_address (pg_addr x);
  let phys := r.2 in
  if obos_is_error r.1 then mret r.1 else
  r ← in_sst (dev_resv dev (Some 0) nPages);
  if obos_is_error r.1 then mret r.1 else
  let id := default 0 r.2 in
  let give_back (status : obos_status) : K vmst obos_status :=
    st ← in_sst (dev_free dev id nPages);
    mret (if obos_is_error st then OBOS_STATUS_INTERNAL_ERROR else status) in
  status ← in_sst (dev_write dev id phys nPages 0);
  if obos_is_error status then give_back status else
  set_prot p (λ q, q <| present := false |>);;
  set_page p (λ x, x <| swapId := id |>);;
  c ← get_ctx (pg_owner x);
  status ← set_mapping (c_pt c) p 0;
  if obos_is_error status then give_back status else
  status ← (if truthy phys then in_gst (frame_free phys nPages) else mret OBOS_STATUS_SUCCESS);
  if obos_is_error status then
    st ← in_sst (dev_free dev id nPages);
    if obos_is_error st then mret OBOS_STATUS_INTERNAL_ERROR else
    set_prot p (λ q, q <| present := true |>);;
    st ← set_mapping (c_pt c) p phys;
    mret (if obos_is_error st then OBOS_STATUS_INTERNAL_ERROR else status)
  else
  set_page p (λ x, x <| pagedOut := true |>);;
  mret OBOS_STATUS_SUCCESS.

Definition Mm_SwapIn (p : Z) : K vmst obos_status :=
  dev ← gets Mm_SwapProvider;
  if negb (truthy dev) then mret OBOS_STATUS_INVALID_INIT_PHASE else
  if negb (truthy p) then mret OBOS_STATUS_INVALID_ARGUMENT else
  x ← get_page p;
  OBOS_ASSERT (negb (reserved x));;
  if reserved x then mret OBOS_STATUS_INVALID_ARGUMENT else
  if negb (pageable x) || negb (pagedOut x) then mret OBOS_STATUS_SUCCESS else
  let nPages := if huge_page (prot x) then OBOS_HUGE_PAGE_SIZE / OBOS_PAGE_SIZE else 1 in
  let id := swapId x in
  r ← in_gst (frame_alloc nPages nPages (Some OBOS_STATUS_SUCCESS));
  let phys := r.1 in
  let status := default OBOS_STATUS_SUCCESS r.2 in
  if obos_is_error status then mret status else
  let give_back (status : obos_status) : K vmst obos_status :=
    st ← in_gst (frame_free phys nPages);
    mret (if obos_is_error st then OBOS_STATUS_INTERNAL_ERROR else status) in
  status ← in_sst (dev_read dev id phys nPages 0);
  if obos_is_error status then give_back status else
  status ← in_sst (dev_free dev id nPages);
  if obos_is_error status then give_back status else
  set_prot p (λ q, q <| present := true |>);;
  c ← get_ctx (pg_owner x);
  status ← set_mapping (c_pt c) p phys;
  if obos_is_error status then stop Panic else
  set_page p (λ x, x <| pagedOut := false |>);;
  mret OBOS_STATUS_SUCCESS.

(** The loop over the pages of the kernel's context, with the pages [inter] in between. *)
Fixpoint move_pages (from to inter : Z) (ps : list Z) : K vmst () :=
  match ps with
  | [] => mret ()
  | curr :: ps =>
      x ← get_page curr;
      when (pagedOut x) (
        let n := page_size (prot x) / OBOS_PAGE_SIZE in
        in_sst (dev_read from (swapId x) inter n 0);;
        in_sst (dev_free from (swapId x) n);;
        r ← in_sst (dev_resv to (Some 0) n);
        let id := default 0 r.2 in
        set_page curr (λ x, x <| swapId := id |>);;
        in_sst (dev_write to id inter n 0);;
        mret ());;
      move_pages from to inter ps
  end.

Definition Mm_ChangeSwapProvider (to : Z) : K vmst obos_status :=
  if negb (truthy to) then mret OBOS_STATUS_INVALID_ARGUMENT else
  dev ← gets Mm_SwapProvider;
  if negb (truthy dev) || (to =? dev) then
    modify (λ s, s <| Mm_SwapProvider := to |>);; mret OBOS_STATUS_SUCCESS
  else
  oldIrql ← vkern (Core_SpinlockAcquire (ContextLock Mm_KernelContext));
  r ← in_gst (frame_alloc (OBOS_HUGE_PAGE_SIZE / OBOS_PAGE_SIZE) 1 None);
  c ← get_ctx Mm_KernelContext;
  move_pages dev to r.1 (tree_list (c_pages c));;
  modify (λ s, s <| Mm_SwapProvider := to |>);;
  vkern (Core_SpinlockRelease (ContextLock Mm_KernelContext) oldIrql);;
  mret OBOS_STATUS_SUCCESS.

End ops.
