(* ===== verification/VmFault.v ===== *)
(** * Page faults and page replacement ([mm/handler.c])

    A fault on a page that is paged out brings it in; a write to a page that is shared
    copies it; a fault on a page of a mapped file maps the page of the page cache.  The
    macros for page lists do what those of [utils/list.h] do.  Where the source tries
    again until there is memory, the number of attempts is an argument. *)

From S2P Require Import Prelude DList KState Irql ThreadList Schedule Thread Wait Vfs Pmm Paging PagingProofs InitSwap Vmm.

Section ops.
Context {DH : DpcHandlers} {PE : PagingEnv} {SO : SwapOps} {FL : FileLayer}.

(** A store through the page tables in use. *)
Definition virt_store (a v : Z) : K gst () := λ s,
  match translate s (Paging.cr3 s) (vpn a) with
  | Some (f, _, r) => if r_w r then store_word (f + a mod OBOS_PAGE_SIZE) v s else Stop BadDeref
  | None => Stop BadDeref
  end.
(** [memcpy] of [n] words from physical memory to a virtual address. *)
Fixpoint copy_to_virt (n : nat) (dst src : Z) : K gst () :=
  match n with
  | O => mret ()
  | Datatypes.S n => v ← load_word src; virt_store dst v;; copy_to_virt n (dst + 8) (src + 8)
  end.

(** A list operation on the working set or the list of referenced pages of a context. *)
Definition page_list_op (get : context → dlist) (set : dlist → context → context)
  (op : lheap → dlist → Z → option (lheap * dlist)) (ctx node : Z) : K vmst () :=
  c ← get_ctx ctx;
  h ← gets ln_links;
  hl ← deref_opt (op h (get c) node);
  modify (λ s, s <| ln_links := hl.1 |>);;
  set_ctx ctx (set hl.2).
Definition ws_op : (lheap → dlist → Z → option (lheap * dlist)) → Z → Z → K vmst () :=
  page_list_op ws_pages (λ l c, c <| ws_pages := l |>).
Definition ref_op : (lheap → dlist → Z → option (lheap * dlist)) → Z → Z → K vmst () :=
  page_list_op referenced (λ l c, c <| referenced := l |>).
Abbreviation APPEND_PAGE_NODE := LIST_APPEND.
Abbreviation REMOVE_PAGE_NODE := LIST_REMOVE.

(** ** Out of memory *)

Fixpoint choose_page (fuel : nat) (bytesNeeded pg node chose szChose : Z) : K vmst Z :=
  if negb (truthy node) then mret chose else
  match fuel with
  | O => stop Hang
  | S fuel =>
      n ← get_page node;
      l ← load ln_links node;
      let curr := ln_data n in
      if pg =? curr then choose_page fuel bytesNeeded pg (dl_next l) chose szChose else
      x ← get_page curr;
      let bytesUsed := page_size (prot x) in
      if (bytesNeeded <=? bytesUsed) && (bytesUsed <=? szChose)
      then choose_page fuel bytesNeeded pg (dl_next l) curr bytesUsed
      else choose_page fuel bytesNeeded pg (dl_next l) chose szChose
  end.

Definition handle_oom (ctx bytesNeeded pg : Z) : K vmst () :=
  lockAcquired ← vkern (Core_SpinlockAcquired (Some (ContextLock ctx)));
  c ← get_ctx ctx;
  h ← gets ln_links;
  chose ← choose_page (size h) bytesNeeded pg (dl_head (referenced c)) nullptr 0;
  let block : K vmst () :=
    when lockAcquired (vkern (Core_SpinlockForcedRelease (ContextLock ctx)));;
    t ← vkern Core_GetCurrentThread;
    vkern (CoreH_ThreadListAppend (Some Mm_ThreadsAwaitingPhysicalMemory) (phys_mem_node t));;
    t ← vkern Core_GetCurrentThread;
    vkern (CoreH_ThreadBlock t true);;
    when lockAcquired (vkern (Core_SpinlockAcquire (ContextLock ctx));; mret ()) in
  if negb (truthy chose) then block else
  st ← Mm_SwapOut chose;
  if obos_is_error st then block else
  x ← get_page chose;
  set_stat ctx (λ m, m <| paged ::= λ n, wrap64 (n + page_size (prot x)) |>).

(** ** Copy on write *)

(** The new frame: until there is one, or another error. *)
Fixpoint cow_frame (retries : nat) (ctx page pgSize : Z) : K vmst (obos_status * Z) :=
  let n := pgSize / OBOS_PAGE_SIZE in
  r ← in_gst (frame_alloc n n (Some OBOS_STATUS_SUCCESS));
  let status := default OBOS_STATUS_SUCCESS r.2 in
  if obos_is_error status && negb (bool_decide (status = OBOS_STATUS_NOT_ENOUGH_MEMORY)) then mret (status, 0) else
  if bool_decide (status = OBOS_STATUS_NOT_ENOUGH_MEMORY) then
    handle_oom ctx pgSize page;;
    match retries with
    | O => stop Hang
    | Datatypes.S retries => cow_frame retries ctx page pgSize
    end
  else mret (OBOS_STATUS_SUCCESS, r.1).

Definition copy_cow_page (retries : nat) (ctx page other : Z) : K vmst obos_status :=
  x ← get_page page;
  let addr := pg_addr x in
  o ← get_page other;
  c ← get_ctx ctx;
  if negb (next_copied_page o =? page) && negb (prev_copied_page o =? page) then
    phys ← phys_address_or addr 0;
    set_prot other (λ q, q <| rw := true |>);;
    set_mapping (c_pt c) page phys;;
    mret OBOS_STATUS_SUCCESS
  else if pagedOut o then
    set_prot other (λ q, q <| rw := true |>);;
    mret OBOS_STATUS_SUCCESS
  else
  phys ← phys_address_or addr (pg_addr x);
  let pgSize := page_size (prot x) in
  r ← cow_frame retries ctx page pgSize;
  if obos_is_error r.1 then mret r.1 else
  set_prot page (λ q, q <| rw := true |>);;
  set_mapping (c_pt c) page r.2;;
  in_gst (copy_to_virt (Z.to_nat (pgSize / 8)) addr phys);;
  set_prot other (λ q, q <| rw := true |>);;
  mret OBOS_STATUS_SUCCESS.

(** The page leaves the list of the pages that share its data. *)
Definition unlink_copy (cur : Z) : K vmst () :=
  x ← get_page cur;
  when (truthy (prev_copied_page x)) (set_page (prev_copied_page x) (λ y, y <| next_copied_page := next_copied_page x |>));;
  x ← get_page cur;
  when (truthy (next_copied_page x)) (set_page (next_copied_page x) (λ y, y <| prev_copied_page := prev_copied_page x |>));;
  set_page cur (λ y, y <| next_copied_page := nullptr |>);;
  set_page cur (λ y, y <| prev_copied_page := nullptr |>).

(** The loops over the pages behind and in front of the faulting page. *)
Fixpoint cow_after (fuel retries : nat) (ctx cur : Z) : K vmst () :=
  if negb (truthy cur) then mret () else
  match fuel with
  | O => stop Hang
  | Datatypes.S fuel =>
      x ← get_page cur;
      copy_cow_page retries ctx (prev_copied_page x) cur;;
      x ← get_page cur;
      unlink_copy cur;;
      cow_after fuel retries ctx (next_copied_page x)
  end.
Fixpoint cow_before (fuel retries : nat) (ctx cur : Z) : K vmst () :=
  if negb (truthy cur) then mret () else
  match fuel with
  | O => stop Hang
  | Datatypes.S fuel =>
      x ← get_page cur;
      copy_cow_page retries ctx (next_copied_page x) cur;;
      x ← get_page cur;
      unlink_copy cur;;
      cow_before fuel retries ctx (prev_copied_page x)
  end.

(** ** The page replacement algorithm *)

(** The first loop, from [node] on: the pages of the working set. *)
Fixpoint age_working_set (fuel : nat) (ctx node diff : Z) : K vmst Z :=
  if negb (truthy node) then mret diff else
  match fuel with
  | O => stop Hang
  | Datatypes.S fuel =>
      n ← get_page node;
      let page := ln_data n in
      OBOS_ASSERT (truthy page);;
      x ← get_page page;
      if pagedOut x then stop Panic else
      c ← get_ctx ctx;
      query_page (c_pt c) (pg_addr x) page;;
      x ← get_page page;
      when (touched (prot x)) (set_page page (λ y, y <| age ::= λ a, Z.lor a 1 |>));;
      set_page page (λ y, y <| age ::= λ a, wrap8 (Z.shiftl a 1) |>);;
      x ← get_page page;
      l ← load ln_links node;
      if truthy (age x) then age_working_set fuel ctx (dl_next l) diff else
      let next := dl_next l in
      ws_op REMOVE_PAGE_NODE ctx node;;
      set_page page (λ y, y <| workingSets ::= λ w, wrap16 (w - 1) |>);;
      x ← get_page page;
      when (negb (truthy (workingSets x))) (
        st ← Mm_SwapOut page;
        x ← get_page page;
        when (obos_is_success st) (set_stat ctx (λ m, m <| paged ::= λ n, wrap64 (n + page_size (prot x)) |>)));;
      x ← get_page page;
      let diff := diff - page_size (prot x) in
      c ← get_ctx ctx;
      diff ← (if (wrap64 (ws_size c + diff) <? ws_capacity c) && truthy (dl_nNodes (referenced c)) then
                let replacement := dl_tail (referenced c) in
                ref_op REMOVE_PAGE_NODE ctx replacement;;
                r ← get_page replacement;
                y ← get_page (ln_data r);
                ws_op APPEND_PAGE_NODE ctx replacement;;
                set_page (ln_data r) (λ y, y <| workingSets ::= λ w, wrap16 (w + 1) |>);;
                mret (diff + page_size (prot y))
              else mret diff);
      age_working_set fuel ctx next diff
  end.

(** The second loop: the referenced pages, from the last one on. *)
Fixpoint move_referenced (fuel : nat) (ctx node : Z) : K vmst () :=
  if negb (truthy node) then mret () else
  match fuel with
  | O => stop Hang
  | Datatypes.S fuel =>
      l ← load ln_links node;
      let next := dl_prev l in
      n ← get_page node;
      let page := ln_data n in
      set_page page (λ y, y <| age ::= λ a, wrap8 (Z.shiftl a 1) |>);;
      ref_op REMOVE_PAGE_NODE ctx node;;
      c ← get_ctx ctx;
      (if ws_size c <? ws_capacity c then
         set_page page (λ y, y <| workingSets ::= λ w, wrap16 (w + 1) |>);;
         x ← get_page page;
         set_ctx ctx (λ c, c <| ws_size ::= λ n, wrap64 (n + page_size (prot x)) |>);;
         ws_op APPEND_PAGE_NODE ctx node
       else
         Mm_SwapOut page;;
         x ← get_page page;
         set_stat ctx (λ m, m <| paged ::= λ n, wrap64 (n + page_size (prot x)) |>));;
      move_referenced fuel ctx next
  end.

Definition Mm_RunPRA (ctx : Z) : K vmst obos_status :=
  c ← get_ctx ctx;
  h ← gets ln_links;
  diff ← age_working_set (size h + size h) ctx (dl_head (ws_pages c)) 0;
  set_ctx ctx (λ c, c <| ws_size ::= λ n, wrap64 (n + diff) |>);;
  c ← get_ctx ctx;
  if ws_capacity c <? ws_size c then stop Panic else
  if ws_size c =? ws_capacity c then mret OBOS_STATUS_SUCCESS else
  move_referenced (size h) ctx (dl_tail (referenced c));;
  c ← get_ctx ctx;
  OBOS_ASSERT (ws_size c <=? ws_capacity c);;
  OBOS_ASSERT (negb (truthy (dl_nNodes (referenced c))));;
  mret OBOS_STATUS_SUCCESS.

(** ** Page faults *)

(** Bringing the page in, until there is memory or another error. *)
Fixpoint page_in (retries : nat) (ctx page : Z) : K vmst obos_status :=
  st ← Mm_SwapIn page;
  if bool_decide (st = OBOS_STATUS_NOT_ENOUGH_MEMORY) then
    x ← get_page page;
    handle_oom ctx (page_size (prot x)) page;;
    match retries with
    | O => stop Hang
    | Datatypes.S retries => page_in retries ctx page
    end
  else mret st.

(** The part for a page of a mapped file that is not present. *)
Definition map_file_page (ctx addr page : Z) : K vmst bool :=
  x ← get_page page;
  r ← load regions_mapped (pg_region x);
  v ← load vm_vnodes (mr_owner r);
  OBOS_ASSERT (truthy (filesize v));;
  OBOS_ASSERT (wrap64 (mr_fileoff r + mr_sz r) <? filesize v);;
  if filesize v <? wrap64 (mr_fileoff r + mr_sz r) then mret false else
  pagecache_region ← cache_entry (mr_owner r) (wrap64 (mr_fileoff r + (addr - mr_addr r))) OBOS_PAGE_SIZE;
  vkern (Core_MutexAcquire (pg_region x));;
  k ← get_ctx Mm_KernelContext;
  let pc_page := RB_FIND (c_pages k) pagecache_region in
  c ← get_ctx ctx;
  x ← get_page page;
  (if isPrivateMapping x then
     p ← get_page pc_page;
     when (truthy (next_copied_page p)) (set_page (next_copied_page p) (λ y, y <| prev_copied_page := page |>));;
     p ← get_page pc_page;
     set_page page (λ y, y <| next_copied_page := next_copied_page p |>);;
     set_page page (λ y, y <| prev_copied_page := pc_page |>);;
     set_page pc_page (λ y, y <| next_copied_page := page |>);;
     set_prot page (λ q, q <| rw := ro q |>);;
     set_prot pc_page (λ q, q <| rw := ro q |>);;
     set_prot page (λ q, q <| present := true |>);;
     set_prot pc_page (λ q, q <| present := true |>);;
     x ← get_page page;
     pagePhys ← phys_address_or (pg_addr x) 0;
     set_mapping (c_pt c) page pagePhys;;
     pagePhys ← phys_address_or pagecache_region pagePhys;
     set_mapping (c_pt k) pc_page pagePhys;;
     mret ()
   else
     set_prot page (λ q, q <| present := true |>);;
     pagePhys ← phys_address_or pagecache_region 0;
     set_mapping (c_pt c) page pagePhys;;
     mret ());;
  x ← get_page page;
  vkern (Core_MutexRelease (pg_region x));;
  mret true.

(** The part for a write to a page of a mapped file. *)
Definition dirty_file_page (ctx addr page : Z) : K vmst () :=
  x ← get_page page;
  r ← load regions_mapped (pg_region x);
  let sz := wrap64 (mr_sz r - mr_fileoff r + (addr - mr_addr r)) in
  let sz := sz - sz mod OBOS_PAGE_SIZE in
  v ← load vm_vnodes (mr_owner r);
  OBOS_ASSERT (truthy (filesize v));;
  OBOS_ASSERT (wrap64 (mr_fileoff r + mr_sz r) <? filesize v);;
  dirty_append (mr_owner r) (wrap64 (mr_fileoff r + (addr - mr_addr r))) sz;;
  pagePhys ← phys_address_or (pg_addr x) 0;
  set_prot page (λ q, q <| rw := true |>);;
  c ← get_ctx ctx;
  set_mapping (c_pt c) page pagePhys;;
  mret ().

Definition Mm_HandlePageFault (retries : nat) (ctx addr ec : Z) : K vmst obos_status :=
  OBOS_ASSERT (truthy ctx);;
  c ← get_ctx ctx;
  let page := RB_FIND (c_pages c) addr in
  if negb (truthy page) then mret OBOS_STATUS_UNHANDLED else
  oldIrql ← vkern (Core_SpinlockAcquire (ContextLock ctx));
  let leave (st : obos_status) : K vmst obos_status :=
    vkern (Core_SpinlockRelease (ContextLock ctx) oldIrql);; mret st in
  x ← get_page page;
  if has_flag ec PF_EC_EXEC && negb (executable (prot x)) then leave OBOS_STATUS_UNHANDLED else
  if has_flag ec PF_EC_RW && ro (prot x) then leave OBOS_STATUS_UNHANDLED else
  if has_flag ec PF_EC_UM && negb (user (prot x)) then leave OBOS_STATUS_UNHANDLED else
  let paging := pagedOut x && negb (has_flag ec PF_EC_PRESENT) in
  st ← (if paging then
          OBOS_ASSERT (negb (truthy (workingSets x)));;
          page_in retries ctx page
        else mret OBOS_STATUS_SUCCESS);
  if obos_is_error st then leave st else
  when paging (
    x ← get_page page;
    set_stat Mm_KernelContext (λ m, m <| paged ::= λ n, wrap64 (n - page_size (prot x)) |>);;
    set_page page (λ y, y <| ln_data := page |>);;
    set_page page (λ y, y <| age ::= λ a, Z.lor a 1 |>);;
    set_prot page (λ q, q <| touched := false |>);;
    ref_op APPEND_PAGE_NODE ctx page;;
    c ← get_ctx ctx;
    let threshold := ws_capacity c / 4 / OBOS_PAGE_SIZE in
    when (threshold <=? dl_nNodes (referenced c)) (Mm_RunPRA ctx;; mret ()));;
  x ← get_page page;
  let copying := (truthy (next_copied_page x) || truthy (prev_copied_page x)) && has_flag ec PF_EC_RW in
  when copying (
    m ← gets vpages;
    cow_after (size m) retries ctx (next_copied_page x);;
    x ← get_page page;
    cow_before (size m) retries ctx (prev_copied_page x));;
  vkern (Core_SpinlockRelease (ContextLock ctx) oldIrql);;
  x ← get_page page;
  let filing := truthy (pg_region x) && negb (has_flag ec PF_EC_PRESENT) in
  filed ← (if filing then map_file_page ctx addr page else mret true);
  if negb filed then mret OBOS_STATUS_UNHANDLED else
  x ← get_page page;
  when (truthy (pg_region x) && negb (ro (prot x)) && has_flag ec PF_EC_RW && truthy ec) (dirty_file_page ctx addr page);;
  mret (if paging || copying || filing then OBOS_STATUS_SUCCESS else OBOS_STATUS_UNHANDLED).

End ops.
