(* ===== verification/VmAlloc.v ===== *)
(** * Ranges of virtual memory ([mm/alloc.c], [mm/alloc.h])

    Finding, allocating, freeing and protecting ranges of pages of a context.  Objects
    come from [Mm_Allocator], which is used through [VmHeap]; the array of the pages a
    call has made is the list of their addresses.  Conversions of flags to [bool] are
    [has_flag]. *)

From S2P Require Import Prelude DList KState Irql ThreadList Schedule Thread Wait Vfs Pmm Paging PagingProofs InitSwap Vmm VmFault.

(** ** Data *)

Definition VMA_FLAGS_HUGE_PAGE : Z := 1.
Definition VMA_FLAGS_GUARD_PAGE : Z := 4.
Definition VMA_FLAGS_32BIT : Z := 8.
Definition VMA_FLAGS_HINT : Z := 16.
Definition VMA_FLAGS_NON_PAGED : Z := 32.
Definition VMA_FLAGS_PRIVATE : Z := 64.
Definition VMA_FLAGS_PREFAULT : Z := 128.
Definition VMA_FLAGS_RESERVE : Z := 256.

Definition OBOS_PROTECTION_READ_ONLY : Z := 1.
Definition OBOS_PROTECTION_EXECUTABLE : Z := 2.
Definition OBOS_PROTECTION_USER_PAGE : Z := 4.
Definition OBOS_PROTECTION_CACHE_DISABLE : Z := 8.
Definition OBOS_PROTECTION_SAME_AS_BEFORE : Z := 16.
Definition OBOS_PROTECTION_CACHE_ENABLE : Z := 32.

Definition OBOS_KERNEL_ADDRESS_SPACE_LIMIT : Z := 0xfffffffffffff000.
Definition OBOS_USER_ADDRESS_SPACE_BASE : Z := 0x1000.
Definition OBOS_USER_ADDRESS_SPACE_LIMIT : Z := 0x7FFFFFFFFFFF.

(** [ZeroAllocate] and [Free] of [Mm_Allocator] for a page, a mapped region and an array of
    pointers; the status is what the pointer given points to, before and after. *)
Class VmHeap := {
  zero_page : obos_status → K vmst (Z * obos_status);
  zero_region : K vmst Z;
  zero_array : Z → obos_status → K vmst (Z * obos_status);
  free_page : Z → K vmst ();
  free_region : Z → K vmst ();
  free_array : Z → Z → K vmst ()
}.

Definition zero_mapped : mapped_region := mkMapped 0 0 0 0 0.
Definition RB_REMOVE (t : gmap Z Z) (addr : Z) : gmap Z Z := delete addr t.

Section ops.
Context {DH : DpcHandlers} {PE : PagingEnv} {SO : SwapOps} {FL : FileLayer} {VH : VmHeap}.

Definition flags_page_size (flags : Z) : Z := if has_flag flags VMA_FLAGS_HUGE_PAGE then OBOS_HUGE_PAGE_SIZE else OBOS_PAGE_SIZE.

(** ** Finding a range *)

(** The loop over the pages in order: [found], and [lastNode]. *)
Fixpoint find_gap (base limit size pgSize : Z) (ps : list Z) (lastAddress lastNode : Z) : K vmst (Z * Z) :=
  match ps with
  | [] => mret (0, lastNode)
  | currentNode :: ps =>
      x ← get_page currentNode;
      let currentNodeAddr := pg_addr x in
      if currentNodeAddr <? base then find_gap base limit size pgSize ps lastAddress lastNode else
      if limit <=? currentNodeAddr then mret (0, lastNode) else
      if wrap64 (size + pgSize) <=? wrap64 (currentNodeAddr - lastAddress) then
        if negb (truthy lastNode) then find_gap base limit size pgSize ps lastAddress lastNode else
        l ← get_page lastNode;
        mret (wrap64 (lastAddress + page_size (prot l)), lastNode)
      else find_gap base limit size pgSize ps (wrap64 (currentNodeAddr + page_size (prot x))) currentNode
  end.

(** The base and the limit of the addresses of a context. *)
Definition space_bounds (pid flags : Z) : Z * Z :=
  if has_flag flags VMA_FLAGS_32BIT then (0x1000, 0xfffff000) else
  if pid =? 1 then (OBOS_KERNEL_ADDRESS_SPACE_BASE, OBOS_KERNEL_ADDRESS_SPACE_LIMIT)
  else (OBOS_USER_ADDRESS_SPACE_BASE, OBOS_USER_ADDRESS_SPACE_LIMIT).

Definition MmH_FindAvailableAddress (ctx size flags : Z) (status : option obos_status) : K vmst (Z * option obos_status) :=
  if negb (truthy ctx) then mret (nullptr, put_status status OBOS_STATUS_INVALID_ARGUMENT) else
  let pgSize := flags_page_size flags in
  let size := size - size mod pgSize in
  c ← get_ctx ctx;
  o ← vkern (load (λ k, procs (sch k)) (c_owner c));
  let '(base, limit) := space_bounds (pid o) flags in
  let lastNode := RB_FIND (c_pages c) base in
  r ← find_gap base limit size pgSize (tree_list (c_pages c)) base lastNode;
  found ← (if truthy r.1 then mret r.1 else
           if truthy r.2 then
             x ← get_page r.2;
             mret (wrap64 (pg_addr x - pg_addr x mod OBOS_PAGE_SIZE + page_size (prot x)))
           else mret base);
  if negb (truthy found) then mret (nullptr, put_status status OBOS_STATUS_NOT_ENOUGH_MEMORY) else
  mret (found, status).

(** ** Allocating *)

(** Whether a page of the range, from [addr] on, is there and not only reserved. *)
Fixpoint range_in_use (fuel : nat) (ctx limit pgSize addr : Z) : K vmst bool :=
  if negb (addr <? limit) then mret false else
  match fuel with
  | O => stop Hang
  | Datatypes.S fuel =>
      c ← get_ctx ctx;
      let found := RB_FIND (c_pages c) addr in
      used ← (if truthy found then x ← get_page found; mret (negb (reserved x)) else mret false);
      if (used : bool) then mret true else range_in_use fuel ctx limit pgSize (wrap64 (addr + pgSize))
  end.

(** Where the range goes.  When the hint is in use the search runs with no hint; when what
    it finds is in use too it runs again, from the same state. *)
Fixpoint place_range (tries : nat) (ctx base size pgSize flags : Z) : K vmst (obos_status * Z) :=
  r ← (if truthy base then mret (base, Some OBOS_STATUS_SUCCESS)
       else MmH_FindAvailableAddress ctx size (Z.ldiff flags VMA_FLAGS_GUARD_PAGE) (Some OBOS_STATUS_SUCCESS));
  let status := default OBOS_STATUS_SUCCESS r.2 in
  if obos_is_error status then mret (status, nullptr) else
  let base := r.1 in
  exists_ ← range_in_use (S (Z.to_nat (size / pgSize))) ctx (wrap64 (base + size)) pgSize base;
  if negb exists_ then mret (OBOS_STATUS_SUCCESS, base) else
  if has_flag flags VMA_FLAGS_HINT then
    match tries with
    | O => stop Hang
    | Datatypes.S tries => place_range tries ctx 0 size pgSize flags
    end
  else mret (OBOS_STATUS_IN_USE, nullptr).

(** [memzero] of [n] words through the page tables in use. *)
Fixpoint zero_virt (n : nat) (dst : Z) : K gst () :=
  match n with
  | O => mret ()
  | Datatypes.S n => virt_store dst 0;; zero_virt n (dst + 8)
  end.

(** The frame of a page of a file: the physical address, and whether it is present. *)
Definition file_frame (node file currFileOff prot flags : Z) : K vmst (Z * bool) :=
  d ← load vm_fds file;
  v ← load vm_vnodes (vn d);
  let pagecache_base := wrap64 (pc_data v + currFileOff) in
  if has_flag flags VMA_FLAGS_PRIVATE then
    k ← get_ctx Mm_KernelContext;
    let pc_page := RB_FIND (c_pages k) pagecache_base in
    phys ← phys_address_or pagecache_base 0;
    when (negb (has_flag prot OBOS_PROTECTION_READ_ONLY)) (
      p ← get_page pc_page;
      when (truthy (next_copied_page p)) (set_page (next_copied_page p) (λ y, y <| prev_copied_page := node |>));;
      p ← get_page pc_page;
      set_page node (λ y, y <| next_copied_page := next_copied_page p |>);;
      set_page node (λ y, y <| prev_copied_page := pc_page |>);;
      set_page pc_page (λ y, y <| next_copied_page := node |>);;
      set_prot pc_page (λ q, q <| rw := false |>);;
      set_prot pc_page (λ q, q <| present := true |>);;
      set_mapping (c_pt k) pc_page phys;;
      mret ());;
    set_prot node (λ q, q <| rw := false |>);;
    set_prot node (λ q, q <| present := true |>);;
    mret (phys, true)
  else
    phys ← phys_address_or pagecache_base 0;
    mret (phys, truthy phys).

(** The protection of a page that is no guard page. *)
Definition protect_new (node prot flags : Z) (isPresent mapsFile : bool) : K vmst () :=
  x ← get_page node;
  set_prot node (λ q, q <| present := isPresent && negb (reserved x) |>);;
  set_prot node (λ q, q <| huge_page := has_flag flags VMA_FLAGS_HUGE_PAGE |>);;
  when (negb (has_flag flags VMA_FLAGS_PRIVATE) || negb mapsFile) (
    set_prot node (λ q, q <| rw := negb (has_flag prot OBOS_PROTECTION_READ_ONLY) |>);;
    set_page node (λ y, y <| pageable := negb (has_flag flags VMA_FLAGS_NON_PAGED) |>));;
  when (negb (has_flag flags VMA_FLAGS_PRIVATE) && mapsFile) (set_prot node (λ q, q <| rw := false |>));;
  set_prot node (λ q, q <| executable := has_flag prot OBOS_PROTECTION_EXECUTABLE |>);;
  set_prot node (λ q, q <| user := has_flag prot OBOS_PROTECTION_USER_PAGE |>);;
  set_prot node (λ q, q <| ro := has_flag prot OBOS_PROTECTION_READ_ONLY |>);;
  set_prot node (λ q, q <| uc := has_flag prot OBOS_PROTECTION_CACHE_DISABLE |>).

(** The pages made so far are taken back. *)
Fixpoint undo_pages (ctx : Z) (nodes : list Z) : K vmst () :=
  match nodes with
  | [] => mret ()
  | node :: nodes =>
      when (truthy node) (
        set_prot node (λ q, q <| present := false |>);;
        c ← get_ctx ctx;
        set_mapping (c_pt c) node 0;;
        x ← get_page node;
        set_ctx ctx (λ c, c <| c_pages ::= λ t, RB_REMOVE t (pg_addr x) |>);;
        free_page node);;
      undo_pages ctx nodes
  end.

(** The page [i] of the range at [base]: the page, what goes into [nodes], the status, and
    whether it is an error. *)
Definition alloc_page (ctx base pgSize prot flags file reg arr i currFileOff : Z) (status : obos_status) :
    K vmst (Z * Z * obos_status * bool) :=
  let addr := wrap64 (base + i * pgSize) in
  c ← get_ctx ctx;
  let there := RB_FIND (c_pages c) addr in
  r ← (if truthy there then mret (there, status) else zero_page status);
  let node := r.1 in
  let status := r.2 in
  let ours := negb (truthy there) in
  when ours (deref_opt (if truthy arr then Some () else None));;
  set_page node (λ y, y <| pg_addr := addr |>);;
  set_page node (λ y, y <| allocated := true |>);;
  set_page node (λ y, y <| pg_owner := ctx |>);;
  set_prot node (λ q, q <| touched := false |>);;
  set_page node (λ y, y <| pagedOut := false |>);;
  set_prot node (λ q, q <| huge_page := has_flag flags VMA_FLAGS_HUGE_PAGE |>);;
  set_page node (λ y, y <| age := 0 |>);;
  set_page node (λ y, y <| pg_region := reg |>);;
  x ← get_page node;
  when (reserved x && negb (has_flag flags VMA_FLAGS_RESERVE)) (
    set_stat ctx (λ m, m <| st_reserved ::= λ n, wrap64 (n - page_size (Vmm.prot x)) |>));;
  set_page node (λ y, y <| reserved := has_flag flags VMA_FLAGS_RESERVE |>);;
  x ← get_page node;
  f ← (if truthy file then
         r ← file_frame node file currFileOff prot flags; mret (r.1, r.2, status)
       else if reserved x then mret (0, true, status)
       else
         r ← in_gst (frame_alloc (pgSize / OBOS_PAGE_SIZE) (pgSize / OBOS_PAGE_SIZE) (Some status));
         mret (r.1, true, default status r.2));
  let phys := f.1.1 in
  let status := f.2 in
  let mine := if ours then node else nullptr in
  if has_flag flags VMA_FLAGS_GUARD_PAGE && (i =? 0) then
    set_prot node (λ q, q <| present := false |>);;
    set_page node (λ y, y <| isGuardPage := true |>);;
    set_page node (λ y, y <| pageable := false |>);;
    mret (node, mine, status, false)
  else
    protect_new node prot flags f.1.2 (truthy file);;
    status ← (if has_flag flags VMA_FLAGS_RESERVE then mret status else set_mapping (c_pt c) node phys);
    if obos_is_error status then mret (node, mine, status, true) else
    x ← get_page node;
    when (present (Vmm.prot x) && negb (has_flag prot OBOS_PROTECTION_READ_ONLY) && negb (truthy file)) (
      in_gst (zero_virt (Z.to_nat (pgSize / 8)) (pg_addr x)));;
    mret (node, mine, status, false).

(** The pages from [i] on; [nodes] are those made before.  The last page and its status
    when there is an error. *)
Fixpoint alloc_pages (n : nat) (ctx base pgSize prot flags file reg arr i currFileOff : Z) (nodes : list Z) (status : obos_status) :
    K vmst (list Z * option (Z * obos_status)) :=
  match n with
  | O => mret (nodes, None)
  | Datatypes.S n =>
      r ← alloc_page ctx base pgSize prot flags file reg arr i currFileOff status;
      let '(node, mine, status, failed) := r in
      if (failed : bool) then mret (nodes, Some (node, status)) else
      x ← get_page node;
      set_ctx ctx (λ c, c <| c_pages ::= λ t, RB_INSERT t (pg_addr x) node |>);;
      alloc_pages n ctx base pgSize prot flags file reg arr (i + 1) (wrap64 (currFileOff + pgSize)) (nodes ++ [mine]) status
  end.

Fixpoint swap_out_all (nodes : list Z) : K vmst () :=
  match nodes with
  | [] => mret ()
  | node :: nodes => Mm_SwapOut node;; swap_out_all nodes
  end.

(** The checks on the file, the size that is mapped of it, and the protection. *)
Definition file_size (file size prot flags : Z) : K vmst (obos_status * Z * Z) :=
  d ← load vm_fds file;
  v ← load vm_vnodes (vn d);
  if negb (vtype v =? VNODE_TYPE_REG) && negb (vtype v =? VNODE_TYPE_BLK) then mret (OBOS_STATUS_INVALID_ARGUMENT, size, prot) else
  let size := if filesize v <? size then filesize v else size in
  let size := if filesize v <=? wrap64 (offset d + size) then wrap64 (offset d + size - filesize v) else size in
  if negb (has_flag (fd_flags d) FD_FLAGS_READ) then mret (OBOS_STATUS_ACCESS_DENIED, size, prot) else
  mret (OBOS_STATUS_SUCCESS, size,
    if negb (has_flag (fd_flags d) FD_FLAGS_WRITE) && negb (has_flag flags VMA_FLAGS_PRIVATE)
    then Z.lor prot OBOS_PROTECTION_READ_ONLY else prot).

(** The region of the file, at the end of the list of its page cache. *)
Definition map_region (ctx file base filesize_ : Z) : K vmst Z :=
  reg ← zero_region;
  d ← load vm_fds file;
  store regions_mapped (λ m s, s <| regions_mapped := m |>) reg (λ _, mkMapped (offset d) base filesize_ (vn d) ctx);;
  l ← load mapped_lists (vn d);
  h ← gets mapped_links;
  hl ← deref_opt (LIST_APPEND h l reg);
  modify (λ s, s <| mapped_links := hl.1 |> <| mapped_lists ::= <[vn d := hl.2]> |>);;
  mret reg.

Definition align_up (x pgSize : Z) : Z := if truthy (x mod pgSize) then wrap64 (x + (pgSize - x mod pgSize)) else x.

(** The part that runs with the lock of the context: the address, and the status. *)
Definition alloc_locked (ctx base size pgSize prot flags file filesize_ oldIrql : Z) (ustatus : option obos_status) : K vmst (Z * option obos_status) :=
  let leave (st : obos_status) : K vmst (Z * option obos_status) :=
    vkern (Core_SpinlockRelease (ContextLock ctx) oldIrql);; mret (nullptr, put_status ustatus st) in
  r ← place_range 2 ctx base size pgSize flags;
  if obos_is_error r.1 then leave r.1 else
  let base := r.2 in
  let nNodes := size / pgSize + (if truthy (size mod pgSize) then 1 else 0) in
  arr ← zero_array nNodes OBOS_STATUS_SUCCESS;
  currFileOff ← (if truthy file then d ← load vm_fds file; mret (offset d) else mret 0);
  reg ← (if truthy file then map_region ctx file base filesize_ else mret nullptr);
  r ← alloc_pages (Z.to_nat nNodes) ctx base pgSize prot flags file reg arr.1 0 currFileOff [] arr.2;
  match r.2 with
  | Some (node, status) =>
      undo_pages ctx r.1;;
      when (truthy reg) (free_region reg);;
      vkern (Core_SpinlockRelease (ContextLock ctx) oldIrql);;
      free_page node;;
      free_array arr.1 nNodes;;
      mret (nullptr, put_status ustatus status)
  | None =>
      when (negb (has_flag flags (Z.lor VMA_FLAGS_NON_PAGED VMA_FLAGS_RESERVE))) (swap_out_all r.1);;
      (if negb (has_flag flags VMA_FLAGS_RESERVE) then
         (if negb (has_flag flags VMA_FLAGS_NON_PAGED) then
            set_stat ctx (λ m, m <| paged ::= λ n, wrap64 (n + size) |> <| st_pageable ::= λ n, wrap64 (n + size) |>)
          else set_stat ctx (λ m, m <| nonPaged ::= λ n, wrap64 (n + size) |>));;
         set_stat ctx (λ m, m <| committedMemory ::= λ n, wrap64 (n + size) |>)
       else set_stat ctx (λ m, m <| st_reserved ::= λ n, wrap64 (n + size) |>));;
      free_array arr.1 nNodes;;
      vkern (Core_SpinlockRelease (ContextLock ctx) oldIrql);;
      mret (if has_flag flags VMA_FLAGS_GUARD_PAGE then wrap64 (base + pgSize) else base, ustatus)
  end.

Definition Mm_VirtualMemoryAlloc (ctx base size prot flags file : Z) (ustatus : option obos_status) : K vmst (Z * option obos_status) :=
  let ustatus := put_status ustatus OBOS_STATUS_SUCCESS in
  let refuse (st : obos_status) : K vmst (Z * option obos_status) := mret (nullptr, put_status ustatus st) in
  if negb (truthy ctx) || negb (truthy size) then refuse OBOS_STATUS_INVALID_ARGUMENT else
  let file := if has_flag flags VMA_FLAGS_RESERVE then nullptr else file in
  if truthy file && has_flag flags VMA_FLAGS_NON_PAGED then refuse OBOS_STATUS_INVALID_ARGUMENT else
  noVnode ← (if truthy file then d ← load vm_fds file; mret (negb (truthy (vn d))) else mret false);
  if (noVnode : bool) then refuse OBOS_STATUS_UNINITIALIZED else
  let flags := if truthy file then Z.ldiff flags VMA_FLAGS_HUGE_PAGE else flags in
  let pgSize := flags_page_size flags in
  if truthy (base mod pgSize) then refuse OBOS_STATUS_INVALID_ARGUMENT else
  f ← (if truthy file then file_size file size prot flags else mret (OBOS_STATUS_SUCCESS, size, prot));
  let '(status, fsize, prot) := f in
  if obos_is_error status then refuse status else
  let filesize_ := if truthy file then fsize else 0 in
  let size := align_up fsize pgSize in
  let size := if has_flag flags VMA_FLAGS_GUARD_PAGE then wrap64 (size + pgSize) else size in
  when ((has_flag flags VMA_FLAGS_PREFAULT || has_flag flags VMA_FLAGS_PRIVATE) && truthy file) (
    d ← load vm_fds file; cache_entry (vn d) (offset d) size;; mret ());;
  oldIrql ← vkern (Core_SpinlockAcquireExplicit (Some (ContextLock ctx)) IRQL_DISPATCH true);
  alloc_locked ctx base size pgSize prot flags file filesize_ oldIrql ustatus.

(** ** Freeing *)

(** The pages of the range from [addr] on follow each other in the tree. *)
Fixpoint range_mapped (fuel : nat) (ctx base limit baseNode addr curr : Z) : K vmst bool :=
  if negb (addr <? limit) then mret true else
  match fuel with
  | O => stop Hang
  | Datatypes.S fuel =>
      c ← get_ctx ctx;
      curr ← (if addr =? base then mret baseNode
              else x ← get_page curr; mret (RB_NEXT (c_pages c) (pg_addr x)));
      if negb (truthy curr) then mret false else
      x ← get_page curr;
      if negb (pg_addr x =? addr) then mret false else
      range_mapped fuel ctx base limit baseNode (wrap64 (addr + page_size (prot x))) curr
  end.

(** The page leaves the lists it is in. *)
Definition unlist_page (ctx curr : Z) : K vmst () :=
  x ← get_page curr;
  when (truthy (pg_region x)) (
    r ← load regions_mapped (pg_region x);
    l ← load mapped_lists (mr_owner r);
    h ← gets mapped_links;
    alone ← deref_opt (LIST_IS_NODE_UNLINKED h l (pg_region x));
    when (negb alone) (
      hl ← deref_opt (LIST_REMOVE h l (pg_region x));
      modify (λ s, s <| mapped_links := hl.1 |> <| mapped_lists ::= <[mr_owner r := hl.2]> |>)));;
  n ← load ln_links curr;
  c ← get_ctx ctx;
  when (truthy (dl_next n) || truthy (dl_prev n) || (curr =? dl_head (referenced c)) || (curr =? dl_head (ws_pages c))) (
    if 0 <? workingSets x then
      ws_op LIST_REMOVE ctx curr;;
      set_ctx ctx (λ c, c <| ws_size ::= λ n, wrap64 (n - page_size (prot x)) |>)
    else ref_op LIST_REMOVE ctx curr).

(** What a page counted for, and its frame, are given back. *)
Definition release_page (ctx curr : Z) : K vmst () :=
  x ← get_page curr;
  let n := page_size (prot x) in
  (if pageable x then set_stat ctx (λ m, m <| st_pageable ::= λ k, wrap64 (k - n) |>)
   else set_stat ctx (λ m, m <| nonPaged ::= λ k, wrap64 (k - n) |>));;
  (if present (prot x) then
     phys ← phys_address_or (pg_addr x) 0;
     when (negb (truthy (pg_region x)) && negb (isPrivateMapping x)) (in_gst (frame_free phys (n / OBOS_PAGE_SIZE));; mret ())
   else when (pageable x) (set_stat ctx (λ m, m <| paged ::= λ k, wrap64 (k - n) |>))).

(** The loop that takes the pages away; [false] when one is missing.  The size of the page is
    read after it has been freed. *)
Fixpoint free_pages (fuel : nat) (ctx base limit baseNode addr next : Z) : K vmst bool :=
  if negb (addr <? limit) then mret true else
  match fuel with
  | O => stop Hang
  | Datatypes.S fuel =>
      let curr := if addr =? base then baseNode else next in
      c ← get_ctx ctx;
      x ← get_page curr;
      let next := RB_NEXT (c_pages c) (pg_addr x) in
      if negb (truthy curr) || negb (pg_addr x =? addr) then mret false else
      set_ctx ctx (λ c, c <| c_pages ::= λ t, RB_REMOVE t (pg_addr x) |>);;
      unlist_page ctx curr;;
      release_page ctx curr;;
      unlink_copy curr;;
      x ← get_page curr;
      when (allocated x) (free_page curr);;
      x ← get_page curr;
      free_pages fuel ctx base limit baseNode (wrap64 (addr + page_size (prot x))) next
  end.

(** The loop that unmaps; [current] is the local page. *)
Fixpoint unmap_range (fuel : nat) (pt limit addr : Z) (current : Z * page_prot) : K vmst () :=
  if negb (addr <? limit) then mret () else
  match fuel with
  | O => stop Hang
  | Datatypes.S fuel =>
      r ← in_gst (MmS_QueryPageInfo pt addr (Some current));
      let current := default current r.2 in
      current ← (if present current.2 then
                   let current := (current.1, current.2 <| present := false |>) in
                   in_gst (MmS_SetPageMapping pt (Some current) 0);; mret current
                 else mret current);
      unmap_range fuel pt limit (wrap64 (addr + page_size current.2)) current
  end.

Definition Mm_VirtualMemoryFree (ctx base size : Z) : K vmst obos_status :=
  if truthy (base mod OBOS_PAGE_SIZE) then mret OBOS_STATUS_INVALID_ARGUMENT else
  if negb (truthy ctx) || negb (truthy base) || negb (truthy size) then mret OBOS_STATUS_INVALID_ARGUMENT else
  let size := align_up size OBOS_PAGE_SIZE in
  let fuel := S (S (Z.to_nat (size / OBOS_PAGE_SIZE + OBOS_HUGE_PAGE_SIZE / OBOS_PAGE_SIZE))) in
  c ← get_ctx ctx;
  let baseNode := RB_FIND (c_pages c) base in
  if negb (truthy baseNode) then mret OBOS_STATUS_NOT_FOUND else
  ok ← range_mapped fuel ctx base (wrap64 (base + size)) baseNode base nullptr;
  if negb ok then mret OBOS_STATUS_NOT_FOUND else
  g ← get_page baseNode;
  let guardPageBase := wrap64 (base - page_size (prot g)) in
  let guardPage := RB_FIND (c_pages c) guardPageBase in
  guarded ← (if truthy guardPage then g ← get_page guardPage; mret (isGuardPage g) else mret false);
  r ← (if (guarded : bool) then g ← get_page guardPage; mret (guardPage, guardPageBase, wrap64 (size + page_size (prot g)))
       else mret (baseNode, base, size));
  let '(baseNode, base, size) := r in
  oldIrql ← vkern (Core_SpinlockAcquireExplicit (Some (ContextLock ctx)) IRQL_DISPATCH true);
  ok ← free_pages fuel ctx base (wrap64 (base + size)) baseNode base nullptr;
  if negb ok then vkern (Core_SpinlockRelease (ContextLock ctx) oldIrql);; mret OBOS_STATUS_NOT_FOUND else
  set_stat ctx (λ m, m <| committedMemory ::= λ k, wrap64 (k - size) |>);;
  vkern (Core_SpinlockRelease (ContextLock ctx) oldIrql);;
  c ← get_ctx ctx;
  unmap_range fuel (c_pt c) (wrap64 (base + size)) base (0, zero_prot);;
  mret OBOS_STATUS_SUCCESS.

(** ** Protecting *)

(** The new protection of a page. *)
Definition new_prot (prot : Z) (q : page_prot) : page_prot :=
  if negb (has_flag prot OBOS_PROTECTION_SAME_AS_BEFORE) then
    let q := q <| executable := has_flag prot OBOS_PROTECTION_EXECUTABLE |>
               <| rw := negb (has_flag prot OBOS_PROTECTION_READ_ONLY) |>
               <| user := has_flag prot OBOS_PROTECTION_USER_PAGE |>
               <| ro := has_flag prot OBOS_PROTECTION_READ_ONLY |>
               <| uc := has_flag prot OBOS_PROTECTION_CACHE_DISABLE |> in
    if negb (has_flag prot OBOS_PROTECTION_CACHE_DISABLE) then q <| uc := negb (has_flag prot OBOS_PROTECTION_CACHE_ENABLE) |> else q
  else
    let q := if has_flag prot OBOS_PROTECTION_EXECUTABLE then q <| executable := true |> else q in
    let q := if negb (has_flag prot OBOS_PROTECTION_USER_PAGE) then q <| user := false |> else q in
    let q := if negb (has_flag prot OBOS_PROTECTION_READ_ONLY) then q <| rw := true |> <| ro := false |> else q in
    let q := if has_flag prot OBOS_PROTECTION_CACHE_DISABLE then q <| uc := true |> else q in
    if has_flag prot OBOS_PROTECTION_CACHE_ENABLE && negb (has_flag prot OBOS_PROTECTION_CACHE_DISABLE) then q <| uc := false |> else q.

Definition protect_page (ctx prot isPageable curr : Z) : K vmst () :=
  set_prot curr (new_prot prot);;
  x ← get_page curr;
  when (pagedOut x && negb (truthy isPageable)) (
    Mm_SwapIn curr;;
    x ← get_page curr;
    set_stat Mm_KernelContext (λ m, m <| paged ::= λ k, wrap64 (k - page_size (Vmm.prot x)) |>));;
  when (isPageable <? 2) (set_page curr (λ y, y <| pageable := truthy isPageable |>));;
  x ← get_page curr;
  phys ← phys_address_or (pg_addr x) 0;
  c ← get_ctx ctx;
  set_mapping (c_pt c) curr phys;;
  mret ().

Fixpoint protect_pages (fuel : nat) (ctx prot isPageable base limit baseNode addr next : Z) : K vmst bool :=
  if negb (addr <? limit) then mret true else
  match fuel with
  | O => stop Hang
  | Datatypes.S fuel =>
      let curr := if addr =? base then baseNode else next in
      c ← get_ctx ctx;
      x ← get_page curr;
      let next := RB_NEXT (c_pages c) (pg_addr x) in
      if negb (truthy curr) || negb (pg_addr x =? addr) then mret false else
      protect_page ctx prot isPageable curr;;
      x ← get_page curr;
      protect_pages fuel ctx prot isPageable base limit baseNode (wrap64 (addr + page_size (Vmm.prot x))) next
  end.

Definition Mm_VirtualMemoryProtect (ctx base size prot isPageable : Z) : K vmst obos_status :=
  if truthy (base mod OBOS_PAGE_SIZE) then mret OBOS_STATUS_INVALID_ARGUMENT else
  if negb (truthy ctx) || negb (truthy base) || negb (truthy size) then mret OBOS_STATUS_INVALID_ARGUMENT else
  let size := align_up size OBOS_PAGE_SIZE in
  let fuel := S (Z.to_nat (size / OBOS_PAGE_SIZE)) in
  if (prot =? OBOS_PROTECTION_SAME_AS_BEFORE) && (1 <? isPageable) then mret OBOS_STATUS_SUCCESS else
  oldIrql ← vkern (Core_SpinlockAcquireExplicit (Some (ContextLock ctx)) IRQL_DISPATCH true);
  let leave (st : obos_status) : K vmst obos_status :=
    vkern (Core_SpinlockRelease (ContextLock ctx) oldIrql);; mret st in
  c ← get_ctx ctx;
  let baseNode := RB_FIND (c_pages c) base in
  if negb (truthy baseNode) then leave OBOS_STATUS_NOT_FOUND else
  ok ← range_mapped fuel ctx base (wrap64 (base + size)) baseNode base nullptr;
  if negb ok then leave OBOS_STATUS_NOT_FOUND else
  ok ← protect_pages fuel ctx prot isPageable base (wrap64 (base + size)) baseNode base nullptr;
  leave (if (ok : bool) then OBOS_STATUS_SUCCESS else OBOS_STATUS_NOT_FOUND).

End ops.
