(* ===== verification/VmSwap.v ===== *)
(** * Swapping a page out and in keeps what it holds

    The routines of [mm/swap.c] against the page tables of [PagingOps] and a swap device
    that keeps the laws [SwapLaws]. *)

From S2P Require Import Prelude DList KState Irql ThreadList Schedule Thread Wait Vfs Pmm Paging PagingProofs PagingOps PagingUnmap InitSwap Vmm.

(** ** What a swap device promises *)

Definition kirq (s : sst) : irq_st := girq (sg s).
Definition with_kirq (i : irq_st) (s : sst) : sst := s <| sg ::= with_girq i |>.

(** For blocks of one page: [sl_block] are the blocks reserved, [sl_data] the words in
    them, [sl_room] that a block can be reserved. *)
Class SwapLaws {SO : SwapOps} := {
  sl_inv : sst → Z → Prop;
  sl_room : sst → Z → Prop;
  sl_block : sst → Z → Z → Prop;
  sl_data : sst → Z → Z → Z → option Z;
  sl_resv i s dev : sl_inv s dev → sl_room s dev → ∃ id s', dev_resv dev (Some i) 1 s = Ret (OBOS_STATUS_SUCCESS, Some id) s' ∧
    sg s' = sg s ∧ sl_inv s' dev ∧ sl_block s' dev id ∧ ¬ sl_block s dev id ∧
    ∀ b, sl_block s dev b → sl_block s' dev b ∧ ∀ j, 0 <= j < 512 → sl_data s' dev b j = sl_data s dev b j;
  sl_write s dev id phys : sl_inv s dev → sl_block s dev id → (∀ j, 0 <= j < 512 → is_Some (words (sg s) !! (phys + 8 * j))) →
    ∃ s', dev_write dev id phys 1 0 s = Ret OBOS_STATUS_SUCCESS s' ∧ sg s' = sg s ∧ sl_inv s' dev ∧
    (∀ b, sl_block s' dev b ↔ sl_block s dev b) ∧ (∀ j, 0 <= j < 512 → sl_data s' dev id j = words (sg s) !! (phys + 8 * j)) ∧
    ∀ b j, sl_block s dev b → b ≠ id → 0 <= j < 512 → sl_data s' dev b j = sl_data s dev b j;
  sl_read s dev id phys : sl_inv s dev → sl_block s dev id → (∀ j, 0 <= j < 512 → is_Some (words (sg s) !! (phys + 8 * j))) →
    ∃ w, dev_read dev id phys 1 0 s = Ret OBOS_STATUS_SUCCESS (s <| sg ::= λ g, g <| words := w |> |>) ∧
    (∀ j, 0 <= j < 512 → w !! (phys + 8 * j) = sl_data s dev id j) ∧
    (∀ a, ¬ phys <= a < phys + 4096 → w !! a = words (sg s) !! a) ∧ (∀ a, is_Some (w !! a) ↔ is_Some (words (sg s) !! a));
  sl_free s dev id : sl_inv s dev → sl_block s dev id → ∃ s', dev_free dev id 1 s = Ret OBOS_STATUS_SUCCESS s' ∧ sg s' = sg s ∧
    sl_inv s' dev ∧ ∀ b, b ≠ id → sl_block s dev b → sl_block s' dev b ∧ ∀ j, 0 <= j < 512 → sl_data s' dev b j = sl_data s dev b j;
  sl_stable s g dev : sl_inv s dev → mk (pm g) = mk (pm (sg s)) → sl_inv (s <| sg := g |>) dev ∧
    (∀ b, sl_block (s <| sg := g |>) dev b ↔ sl_block s dev b) ∧ (∀ b j, sl_data (s <| sg := g |>) dev b j = sl_data s dev b j) ∧
    (sl_room s dev → sl_room (s <| sg := g |>) dev);
  sl_irq s i dev : sl_inv s dev → irq_like (kirq s) i → sl_inv (with_kirq i s) dev ∧
    (∀ b, sl_block (with_kirq i s) dev b ↔ sl_block s dev b) ∧ (∀ b j, sl_data (with_kirq i s) dev b j = sl_data s dev b j) ∧
    (sl_room s dev → sl_room (with_kirq i s) dev)
}.

#[local] Arguments Z.testbit : simpl never.

Section swap.
Context {DH : DpcHandlers} `{FrL : FrameLaws} `{SL : SwapLaws}.
#[local] Set Default Proof Using "Type".

(** ** Lifting *)

Lemma in_sst_Ret {A} (m : K sst A) s a k : m (vs s) = Ret a k → in_sst m s = Ret a (s <| vs := k |>).
Proof. intros E. unfold in_sst, zoom. by rewrite E. Qed.
Lemma in_gst_Ret {A} (m : K gst A) s a g :
  m (sg (vs s)) = Ret a g → in_gst m s = Ret a (s <| vs ::= λ k, k <| sg := g |> |>).
Proof. intros E. unfold in_gst. apply (in_sst_Ret _ s). unfold zoom. by rewrite E. Qed.

(** ** The leaf of a page that is mapped *)

Lemma walk_leaf w root T v l f y :
  ptree w root T → T !! f = Some (l, prefix l v) → walk w l f v = Some y → y.1.2 = false →
  ∃ g e, T !! g = Some (0%nat, prefix 0 v) ∧ w !! slot g 0 v = Some e ∧ Z.testbit e 0 = true ∧ mask e = y.1.1.
Proof.
  intros Ht. revert f y. induction l as [|l IH]; intros f y Hf Hw Hh; cbn [walk] in Hw.
  - destruct (w !! slot f 0 v) as [e|] eqn:Ee; [|done]. simpl in Hw. destruct (Z.testbit e 0) eqn:E0; [|done].
    injection Hw as <-. exists f, e. split_and!; done.
  - destruct (w !! slot f (S l) v) as [e|] eqn:Ee; [|done]. simpl in Hw. destruct (Z.testbit e 0) eqn:E0; [|done]. cbn [negb] in Hw.
    destruct (Z.testbit e 7) eqn:E7; [injection Hw as <-; done|].
    assert (e ≠ 0) as He by (intros ->; by rewrite Z.testbit_0_l in E0). pose proof (child _ _ _ Ht f l v e Hf Ee He E7) as Hc.
    destruct (walk w l (mask e) v) as [z|] eqn:Ez; [|done]. injection Hw as <-. simpl in Hh. destruct (IH _ _ Hc Ez Hh) as (g & d & ?). by exists g, d.
Qed.

Lemma phys_of s T at_ f r :
  ptree (words s) (Paging.cr3 s) T → canonical at_ = true → translate s (Paging.cr3 s) (vpn at_) = Some (f, false, r) →
  OBOSS_GetPagePhysicalAddress at_ true s = Ret (OBOS_STATUS_SUCCESS, Some f) s.
Proof.
  intros Ht Hc Hw. destruct (walk_leaf _ _ _ (vpn at_) 3 _ _ Ht (root_prefix _ _ _ Ht _ (vpn_range at_)) Hw eq_refl) as (g & e & Hg & He & _ & Hm).
  simpl in Hm. rewrite <- Hm. by apply (phys_leaf s T at_ g e).
Qed.

Lemma unmapped_no_large s root T v : ptree (words s) root T → 0 <= v < 2 ^ 36 → translate s root v = None → no_large (words s) T v.
Proof.
  intros Ht Hv Hn h e Hh He. destruct (Z.testbit e 7) eqn:E7; [|done]. unfold translate in Hn.
  rewrite (walk_down _ _ _ Ht h 1 v Hv Hh) in Hn. cbn [walk] in Hn. rewrite He in Hn. simpl in Hn.
  assert (e ≠ 0) as Hne by (intros ->; by rewrite Z.testbit_0_l in E7).
  destruct (pt_entry _ _ _ Ht h 0 _ _ e Hh (idx_range _ _) He Hne) as [H0 _]. rewrite H0, E7 in Hn. done.
Qed.

(** ** Steps *)

Ltac ok_status := change (obos_is_error OBOS_STATUS_SUCCESS) with false; cbv iota.

Lemma get_page_eq s p x : vpages s !! p = Some x → get_page p s = Ret x s.
Proof. apply load_eq. Qed.
Lemma set_page_eq s p x f : vpages s !! p = Some x → set_page p f s = Ret () (s <| vpages ::= <[p := f x]> |>).
Proof. intros H. unfold set_page. by rewrite (store_eq _ _ _ _ _ _ H). Qed.
Lemma phys_address_eq s T at_ f r :
  ptree (words (sg (vs s))) (Paging.cr3 (sg (vs s))) T → canonical at_ = true →
  translate (sg (vs s)) (Paging.cr3 (sg (vs s))) (vpn at_) = Some (f, false, r) → phys_address at_ s = Ret (OBOS_STATUS_SUCCESS, f) s.
Proof.
  intros Ht Hc Hw. unfold phys_address. erewrite bind_Ret by (apply in_gst_Ret; by eapply phys_of).
  by destruct s as [[] ? ? ? ? ? ? ? ? ?].
Qed.

(** ** Frames that hold data *)

Lemma mask_aligned e : mask e mod 4096 = 0.
Proof.
  change 4096 with (2 ^ 12). rewrite <- Z.land_ones by lia. unfold mask. rewrite <- Z.land_assoc. apply Z.land_0_r.
Qed.

Lemma aligned_apart f g i : f mod 4096 = 0 → g mod 4096 = 0 → f ≠ g → 0 <= i < 512 → ¬ g <= f + 8 * i < g + 4096.
Proof. intros Hf Hg Hne Hi H. pose proof (Z.div_mod f 4096 ltac:(lia)). pose proof (Z.div_mod g 4096 ltac:(lia)). lia. Qed.

(** Giving a frame out or back does not touch the address space. *)
Lemma space_frame s s' root T g :
  paging_inv s root T → frame_only g s s' → T !! g = None → g mod 4096 = 0 → fr_inv s' → (∀ f x, T !! f = Some x → fr_used s' f) →
  paging_inv s' root T ∧ ∀ u, 0 <= u < 2 ^ 36 → translate s' root u = translate s root u.
Proof.
  intros [Ht _ _] [_ _ Hw] Hg Hga Hfr Hu.
  assert (∀ f x i, T !! f = Some x → 0 <= i < 512 → words s' !! (f + 8 * i) = words s !! (f + 8 * i)) as Hag.
  { intros f [l q] i Hf Hi. apply Hw. destruct (pt_frame _ _ _ Ht f _ _ Hf) as (_ & Hfa & _). apply aligned_apart; try done. congruence. }
  split; [split; [by eapply ptree_same|done|done]|]. intros u Hur. unfold translate. apply (walk_same _ _ _ Ht); [done|by apply (root_prefix _ _ _ Ht)].
Qed.

Lemma coherent_rest s s' root :
  s' = s <| pm := pm s' |> <| words := words s' |> → (∀ u, 0 <= u < 2 ^ 36 → translate s' root u = translate s root u) →
  coherent s root → coherent s' root.
Proof.
  intros Hr Ht Hc. eapply (coherent_change s s' root (λ _, False)); [done|by rewrite Hr| |auto]. intros _ v c Hv. rewrite Hr in Hv. auto.
Qed.

Lemma free_data s root T g :
  paging_inv s root T → fr_used s g → T !! g = None → g mod 4096 = 0 →
  (∀ j, 0 <= j < 512 → is_Some (words s !! (g + 8 * j))) → words s !! (g + 8) = Some 0 →
  ∃ s', frame_free g 1 s = Ret OBOS_STATUS_SUCCESS s' ∧ paging_inv s' root T ∧ frame_only g s s' ∧
    (∀ u, 0 <= u < 2 ^ 36 → translate s' root u = translate s root u) ∧ (∀ a, fr_free s' a ↔ fr_free s a ∨ a = g).
Proof.
  intros Hi Hu Hg Hga Hw H8. destruct (fr_release s g (pi_frames _ _ _ Hi) Hu Hw H8) as (s' & E & Hfr & Hfo & Hf & Hus).
  destruct (space_frame s s' root T g Hi Hfo Hg Hga Hfr) as [Hi' Ht]; [|by exists s'].
  intros f x Hx. apply Hus. split; [by eapply Hi|congruence].
Qed.

Lemma alloc_data s root T st a :
  paging_inv s root T → fr_free s a →
  ∃ g s', frame_alloc 1 1 (Some st) s = Ret (g, Some OBOS_STATUS_SUCCESS) s' ∧ paging_inv s' root T ∧ frame_only g s s' ∧
    (∀ u, 0 <= u < 2 ^ 36 → translate s' root u = translate s root u) ∧ T !! g = None ∧ fr_used s' g ∧ 0 < g < 2 ^ 52 ∧ g mod 4096 = 0 ∧
    (∀ j, 0 <= j < 512 → is_Some (words s' !! (g + 8 * j))) ∧ (∀ a, fr_free s' a ↔ fr_free s a ∧ a ≠ g).
Proof.
  intros Hi Ha. destruct (fr_alloc (Some st) s a (pi_frames _ _ _ Hi) Ha) as (g & s' & E & Hfr & Hfo & Hgf & Hgr & Hga & Hgw & Hf & Hus).
  assert (T !! g = None) as Hg.
  { destruct (T !! g) eqn:Eg; [|done]. exfalso. eapply (fr_disj s g); [apply Hi|by eapply Hi|done]. }
  destruct (space_frame s s' root T g Hi Hfo Hg Hga Hfr) as [Hi' Ht].
  { intros f x Hx. apply Hus. left. by eapply Hi. }
  exists g, s'. split_and!; try done; try lia. apply Hus. by right.
Qed.

(** A data frame is in no table. *)
Lemma not_in_tables w w' root root' T T' phys a :
  ptree w root T → ptree w' root' T' → T !! phys = None → T' !! phys = None → phys mod 4096 = 0 → phys <= a < phys + 4096 →
  ∀ f y, T !! f = Some y ∨ T' !! f = Some y → ¬ f <= a < f + 4096.
Proof.
  intros Ht Ht' Hn Hn' Hp Ha f [l q] Hf Hin. assert (f mod 4096 = 0) as Hfa.
  { destruct Hf as [Hf|Hf]; [apply (pt_frame _ _ _ Ht f _ _ Hf)|apply (pt_frame _ _ _ Ht' f _ _ Hf)]. }
  assert (f = phys) as ->; [|destruct Hf; congruence].
  pose proof (Z.div_mod f 4096 ltac:(lia)). pose proof (Z.div_mod phys 4096 ltac:(lia)). lia.
Qed.

(** ** Swapping out *)

(** A page of 4 KiB the manager may swap, in the context whose page table is in use. *)
Record swappable (s : vmst) (p : Z) (x : page) (c : context) (T : gmap Z (nat * Z)) : Prop := {
  sp_page : vpages s !! p = Some x;
  sp_nonnull : p ≠ 0;
  sp_reserved : reserved x = false;
  sp_pageable : pageable x = true;
  sp_small : huge_page (prot x) = false;
  sp_ctx : ctxs s !! pg_owner x = Some c;
  sp_pt : c_pt c = Paging.cr3 (sg (vs s));
  sp_dev : Mm_SwapProvider s ≠ 0;
  sp_space : paging_inv (sg (vs s)) (c_pt c) T;
  sp_canonical : canonical (pg_addr x) = true;
  sp_aligned : pg_addr x mod 4096 = 0;
  sp_swap : sl_inv (vs s) (Mm_SwapProvider s)
}.

(** The page at [addr] is mapped to the data frame [phys]. *)
Record resident (g : gst) (root : Z) (T : gmap Z (nat * Z)) (addr phys : Z) : Prop := {
  rs_mapped : ∃ r, translate g root (vpn addr) = Some (phys, false, r);
  rs_used : fr_used g phys;
  rs_data : T !! phys = None;
  rs_pos : 0 < phys;
  rs_words j : 0 <= j < 512 → is_Some (words g !! (phys + 8 * j))
}.

Definition paged_out (id : Z) (x : page) : page :=
  x <| prot ::= λ q, q <| present := false |> |> <| swapId := id |> <| pagedOut := true |>.

(** What swapping out leaves: the page is in the block [id] of the device, and its frame is free. *)
Record swapped_out (s : vmst) (p : Z) (x : page) (root phys id : Z) (s' : vmst) : Prop := {
  so_state : s' = s <| vs := vs s' |> <| vpages ::= <[p := paged_out id x]> |>;
  so_rest : sg (vs s') = (sg (vs s)) <| pm := pm (sg (vs s')) |> <| words := words (sg (vs s')) |> <| tlb := tlb (sg (vs s')) |>;
  so_kern : mk (pm (sg (vs s'))) = mk (pm (sg (vs s)));
  so_space : ∃ T', paging_inv (sg (vs s')) root T';
  so_page : translate (sg (vs s')) root (vpn (pg_addr x)) = None;
  so_other u : 0 <= u < 2 ^ 36 → u ≠ vpn (pg_addr x) → translate (sg (vs s')) root u = translate (sg (vs s)) root u;
  so_coherent : coherent (sg (vs s)) root → coherent (sg (vs s')) root;
  so_freed : fr_free (sg (vs s')) phys;
  so_free a : fr_free (sg (vs s)) a → fr_free (sg (vs s')) a;
  so_inv : sl_inv (vs s') (Mm_SwapProvider s);
  so_block : sl_block (vs s') (Mm_SwapProvider s) id;
  so_data j : 0 <= j < 512 → sl_data (vs s') (Mm_SwapProvider s) id j = words (sg (vs s)) !! (phys + 8 * j);
  so_blocks b : sl_block (vs s) (Mm_SwapProvider s) b → sl_block (vs s') (Mm_SwapProvider s) b ∧ b ≠ id ∧
    ∀ j, 0 <= j < 512 → sl_data (vs s') (Mm_SwapProvider s) b j = sl_data (vs s) (Mm_SwapProvider s) b j
}.

(** The device part: the block is reserved and written. *)
Lemma store_in_swap s dev phys :
  sl_inv s dev → sl_room s dev → (∀ j, 0 <= j < 512 → is_Some (words (sg s) !! (phys + 8 * j))) →
  ∃ id s1 s2, dev_resv dev (Some 0) 1 s = Ret (OBOS_STATUS_SUCCESS, Some id) s1 ∧ dev_write dev id phys 1 0 s1 = Ret OBOS_STATUS_SUCCESS s2 ∧
    sg s2 = sg s ∧ sl_inv s2 dev ∧ sl_block s2 dev id ∧ (∀ j, 0 <= j < 512 → sl_data s2 dev id j = words (sg s) !! (phys + 8 * j)) ∧
    ∀ b, sl_block s dev b → sl_block s2 dev b ∧ b ≠ id ∧ ∀ j, 0 <= j < 512 → sl_data s2 dev b j = sl_data s dev b j.
Proof.
  intros Hi Hr Hw. destruct (sl_resv 0 s dev Hi Hr) as (id & s1 & E1 & G1 & I1 & B1 & N1 & O1).
  destruct (sl_write s1 dev id phys I1 B1) as (s2 & E2 & G2 & I2 & B2 & D2 & O2); [by rewrite G1|].
  exists id, s1, s2. split; [done|]. split; [done|]. split; [congruence|]. split; [done|]. split; [by apply B2|]. split; [by rewrite <- G1|].
  intros b Hb. assert (b ≠ id) as Hne by (intros ->; done). destruct (O1 b Hb) as [Hb1 Hd1]. split; [by apply B2|]. split; [done|].
  intros j Hj. rewrite O2 by done. by apply Hd1.
Qed.

Lemma swap_out_run s p x c T phys :
  swappable s p x c T → resident (sg (vs s)) (c_pt c) T (pg_addr x) phys → workingSets x = 0 →
  words (sg (vs s)) !! (phys + 8) = Some 0 → sl_room (vs s) (Mm_SwapProvider s) →
  ∃ s' id, Mm_SwapOut p s = Ret OBOS_STATUS_SUCCESS s' ∧ swapped_out s p x (c_pt c) phys id s'.
Proof.
  intros [Hx Hp Hres Hpg Hsm Hc Hpt Hdev Hsp Hcan Hal Hsw] [(r & Htr) Hus Hnt Hph Hwd] Hws H8 Hroom.
  set (dev := Mm_SwapProvider s) in *. set (root := c_pt c) in *. set (g := sg (vs s)) in *.
  destruct (store_in_swap (vs s) dev phys Hsw Hroom Hwd) as (id & k1 & k2 & E1 & E2 & G2 & I2 & B2 & D2 & O2).
  destruct (walk_leaf _ _ _ (vpn (pg_addr x)) 3 _ _ (pi_tree _ _ _ Hsp) (root_prefix _ _ _ (pi_tree _ _ _ Hsp) _ (vpn_range _)) Htr eq_refl)
    as (_ & e & _ & _ & _ & Hm). simpl in Hm. assert (phys mod 4096 = 0) as Hpa by (rewrite <- Hm; apply mask_aligned).
  destruct (unmap_page_run g root T (pg_addr x) Hsp Hcan Hal) as (g1 & E3 & [(T1 & I3 & [K3 U3] & W3) R3 P3 O3] & C3 & F3 & _).
  destruct (U3 phys Hnt Hus) as [Hus1 Hnt1].
  assert (∀ a, phys <= a < phys + 4096 → words g1 !! a = words g !! a) as Hw1.
  { intros a Ha. apply W3. eapply (not_in_tables _ _ _ _ _ _ phys); [apply Hsp|apply I3|done..]. }
  destruct (free_data g1 root T1 phys I3 Hus1 Hnt1 Hpa) as (g2 & E4 & I4 & [R4 K4 W4] & Tr4 & F4).
  { intros j Hj. rewrite Hw1 by lia. auto. }
  { rewrite Hw1 by lia. done. }
  destruct (sl_stable k2 g2 dev I2) as (I5 & B5 & D5 & _); [rewrite K4, K3, G2; done|].
  assert (phys_address (pg_addr x) s = Ret (OBOS_STATUS_SUCCESS, phys) s) as Ep.
  { eapply (phys_address_eq s T); fold g; rewrite <- ?Hpt; [apply Hsp|done|exact Htr]. }
  exists (s <| vs := k2 <| sg := g2 |> |> <| vpages ::= <[p := paged_out id x]> |>), id. split.
  - unfold Mm_SwapOut. rewrite (bind_Ret _ _ _ _ _ (gets_eq _ _)). fold dev. rewrite (proj2 (truthy_true dev) Hdev), (proj2 (truthy_true p) Hp). cbn [negb].
    erewrite bind_Ret by exact (get_page_eq _ _ _ Hx). rewrite Hres, Hws, Hpg, Hsm. cbn [negb orb].
    rewrite (bind_Ret _ _ _ _ _ (assert_eq _ _ eq_refl)). change (negb (truthy 0)) with true.
    rewrite (bind_Ret _ _ _ _ _ (assert_eq _ _ eq_refl)). change (0 <? 0) with false. cbv iota zeta.
    erewrite bind_Ret by exact Ep. cbn [fst snd].
    ok_status.
    erewrite bind_Ret by (apply in_sst_Ret; exact E1). cbn [fst snd]. ok_status.
    change (default 0 (Some id)) with id. erewrite bind_Ret by (apply in_sst_Ret; exact E2). ok_status.
    unfold set_prot. erewrite bind_Ret by (apply set_page_eq; exact Hx). erewrite bind_Ret by (apply set_page_eq; apply lookup_insert_eq).
    unfold get_ctx. erewrite bind_Ret by (apply load_eq; exact Hc).
    erewrite bind_Ret.
    2: { unfold set_mapping. erewrite bind_Ret by (apply get_page_eq; apply lookup_insert_eq). apply in_gst_Ret.
         unfold MmS_SetPageMapping. destruct (root_mask _ _ _ (pi_tree _ _ _ Hsp)) as [_ Hroot].
         fold root. rewrite (proj2 (truthy_true root)) by lia. cbn. rewrite G2. exact E3. }
    ok_status. rewrite (proj2 (truthy_true phys)) by lia. erewrite bind_Ret by (apply in_gst_Ret; exact E4). ok_status.
    erewrite bind_Ret by (apply set_page_eq; simpl; apply lookup_insert_eq). unfold mret, K_ret. f_equal.
    simpl. rewrite !insert_insert_eq. done.
  - assert (∀ u, page_of g root (vpn (pg_addr x)) u ↔ u = vpn (pg_addr x)) as Hpo by (intros u; unfold page_of; by rewrite Htr).
    split; cbn [vs sg set_field].
    + done.
    + fold g. rewrite R4, R3. by destruct g.
    + fold g. congruence.
    + by exists T1.
    + rewrite Tr4, P3; [done|apply vpn_range|by apply Hpo|apply vpn_range].
    + intros u Hu Hne. rewrite Tr4, O3; [done|done|by rewrite Hpo|done].
    + intros Hco. eapply (coherent_rest g1); [done|done|by apply C3].
    + apply F4. by right.
    + intros a Ha. apply F4. left. by apply F3.
    + exact I5.
    + by apply B5.
    + intros j Hj. refine (eq_trans (D5 id j) _). by rewrite D2.
    + intros b Hb. destruct (O2 b Hb) as (Hb2 & Hne & Hd). split; [by apply B5|]. split; [done|]. intros j Hj.
      refine (eq_trans (D5 b j) _). by apply Hd.
Qed.

(** ** Swapping in *)

Definition paged_in (x : page) : page := x <| prot ::= λ q, q <| present := true |> |> <| pagedOut := false |>.

(** The rights the tables grant a page with the protection. *)
Definition prot_rights (q : page_prot) : rights := mkR (rw q) (user q) (executable q).

Lemma prot_rights_eq g q : efer_nxe g = true → e_rights (page_flags g (prot_flags q)) = prot_rights q.
Proof.
  intros Hx. unfold e_rights, page_flags, prot_rights. rewrite Hx. cbn [negb]. rewrite !Z.lor_spec, !prot_flags_testbit by lia.
  change 1 with (bit 0) at 2 4 6. destruct q as [? [] [] ? ? [] ? ?]; done.
Qed.

(** What swapping in leaves: the page is mapped to the frame [phys], with what the block held. *)
Record swapped_in (s : vmst) (p : Z) (x : page) (root phys : Z) (s' : vmst) : Prop := {
  si_state : s' = s <| vs := vs s' |> <| vpages ::= <[p := paged_in x]> |>;
  si_rest : sg (vs s') = (sg (vs s)) <| pm := pm (sg (vs s')) |> <| words := words (sg (vs s')) |> <| tlb := tlb (sg (vs s')) |>;
  si_kern : mk (pm (sg (vs s'))) = mk (pm (sg (vs s)));
  si_space : ∃ T', paging_inv (sg (vs s')) root T' ∧ resident (sg (vs s')) root T' (pg_addr x) phys;
  si_page : translate (sg (vs s')) root (vpn (pg_addr x)) = Some (phys, false, prot_rights (prot x));
  si_words j : 0 <= j < 512 → words (sg (vs s')) !! (phys + 8 * j) = sl_data (vs s) (Mm_SwapProvider s) (swapId x) j;
  si_other u : 0 <= u < 2 ^ 36 → u ≠ vpn (pg_addr x) → translate (sg (vs s')) root u = translate (sg (vs s)) root u;
  si_coherent : coherent (sg (vs s)) root → coherent (sg (vs s')) root;
  si_inv : sl_inv (vs s') (Mm_SwapProvider s);
  si_blocks b : sl_block (vs s) (Mm_SwapProvider s) b → b ≠ swapId x → sl_block (vs s') (Mm_SwapProvider s) b ∧
    ∀ j, 0 <= j < 512 → sl_data (vs s') (Mm_SwapProvider s) b j = sl_data (vs s) (Mm_SwapProvider s) b j
}.

(** The device part: the block is read into a new frame and given back. *)
Lemma load_from_swap s dev id root T a :
  sl_inv s dev → sl_block s dev id → paging_inv (sg s) root T → fr_free (sg s) a →
  ∃ phys g1 w k, frame_alloc 1 1 (Some OBOS_STATUS_SUCCESS) (sg s) = Ret (phys, Some OBOS_STATUS_SUCCESS) g1 ∧
    dev_read dev id phys 1 0 (s <| sg := g1 |>) = Ret OBOS_STATUS_SUCCESS (s <| sg := g1 <| words := w |> |>) ∧
    dev_free dev id 1 (s <| sg := g1 <| words := w |> |>) = Ret OBOS_STATUS_SUCCESS k ∧ sg k = g1 <| words := w |> ∧ sl_inv k dev ∧
    frame_only phys (sg s) (sg k) ∧ paging_inv (sg k) root T ∧ (∀ u, 0 <= u < 2 ^ 36 → translate (sg k) root u = translate (sg s) root u) ∧
    T !! phys = None ∧ fr_used (sg k) phys ∧ 0 < phys < 2 ^ 52 ∧ phys mod 4096 = 0 ∧
    (∀ j, 0 <= j < 512 → is_Some (w !! (phys + 8 * j))) ∧ (∀ j, 0 <= j < 512 → w !! (phys + 8 * j) = sl_data s dev id j) ∧
    (∀ a, fr_free (sg k) a ↔ fr_free (sg s) a ∧ a ≠ phys) ∧
    ∀ b, sl_block s dev b → b ≠ id → sl_block k dev b ∧ ∀ j, 0 <= j < 512 → sl_data k dev b j = sl_data s dev b j.
Proof.
  intros Hsw Hb Hi Ha. destruct (alloc_data (sg s) root T OBOS_STATUS_SUCCESS a Hi Ha) as (phys & g1 & E1 & I1 & [R1 K1 W1] & T1 & N1 & U1 & Hr & Hpa & Hw1 & F1).
  destruct (sl_stable s g1 dev Hsw K1) as (S1 & B1 & D1 & _).
  destruct (sl_read (s <| sg := g1 |>) dev id phys S1) as (w & E2 & Hw & Hwo & Hdom); [by apply B1|exact Hw1|].
  set (g2 := g1 <| words := w |>). destruct (sl_stable s g2 dev Hsw K1) as (S2 & B2 & D2 & _).
  destruct (sl_free (s <| sg := g2 |>) dev id S2) as (k & E3 & G3 & S3 & O3); [by apply B2|].
  destruct (fr_stable g1 g2 (pi_frames _ _ _ I1) eq_refl Hdom) as (Hf2 & Hfr2 & Hus2).
  assert (frame_only phys g1 g2) as Hfo by (split; [by destruct g1|done|exact Hwo]).
  destruct (space_frame g1 g2 root T phys I1 Hfo N1 Hpa Hf2) as [I2 T2]; [intros f x Hx; apply Hus2; by eapply I1|].
  exists phys, g1, w, k. rewrite G3. split; [done|]. split; [exact E2|]. split; [exact E3|]. split; [done|]. split; [done|]. split.
  { split; [unfold g2; rewrite R1; by destruct (sg s)|done|]. intros b Hbo. simpl. rewrite Hwo by done. simpl. by apply W1. }
  split; [done|]. split; [intros u Hu; by rewrite T2, T1|]. split; [done|]. split; [by apply Hus2|]. split; [done|]. split; [done|].
  split; [intros j Hj; apply Hdom, Hw1, Hj|]. split; [intros j Hj; rewrite Hw by done; apply D1|].
  split; [intros b; rewrite <- F1; apply Hfr2|]. intros b Hb' Hne. destruct (O3 b Hne) as [Hk Hd]; [by apply B2|]. split; [done|].
  intros j Hj. rewrite Hd by done. apply D2.
Qed.

Lemma frames_left_other n g g' phys : frames_left (S n) g → (∀ a, fr_free g' a ↔ fr_free g a ∧ a ≠ phys) → frames_left n g'.
Proof using FrL. apply frames_left_alloc. Qed.

Lemma swap_in_run s p x c T :
  swappable s p x c T → pagedOut x = true → sl_block (vs s) (Mm_SwapProvider s) (swapId x) →
  translate (sg (vs s)) (c_pt c) (vpn (pg_addr x)) = None → frames_left 4 (sg (vs s)) → efer_nxe (sg (vs s)) = true →
  ∃ s' phys, Mm_SwapIn p s = Ret OBOS_STATUS_SUCCESS s' ∧ swapped_in s p x (c_pt c) phys s'.
Proof.
  intros [Hx Hp Hres Hpg Hsm Hc Hpt Hdev Hsp Hcan Hal Hsw] Hout Hbl Hno Hleft Hnx.
  set (dev := Mm_SwapProvider s) in *. set (root := c_pt c) in *. set (g := sg (vs s)) in *. pose proof (vpn_range (pg_addr x)) as Hv.
  assert (∃ a, fr_free g a) as [a Ha].
  { destruct Hleft as ([|a fs] & _ & Hlen & Hall); [simpl in Hlen; lia|]. exists a. by apply Forall_cons in Hall as [? _]. }
  destruct (load_from_swap (vs s) dev (swapId x) root T a Hsw Hbl Hsp Ha)
    as (phys & g1 & w & k & E1 & E2 & E3 & G3 & S3 & [R3 K3 W3] & I3 & T3 & N3 & U3 & Hr & Hpa & Hw & Hd & F3 & O3).
  set (q := (prot x) <| present := true |>).
  destruct (map_page_run (sg k) root T (pg_addr x) phys (prot_flags q)) as (g2 & _ & _ & E4 & _ & _ & _ & _ & [(T2 & I4 & [K4 U4] & W4) R4 P4 O4] & C4).
  { split; try done; [|by eapply frames_left_other|apply prot_flags_mask|lia].
    eapply unmapped_no_large; [apply I3|done|]. by rewrite T3. }
  destruct (U4 phys N3 U3) as [U5 N5].
  assert (∀ j, 0 <= j < 512 → words g2 !! (phys + 8 * j) = w !! (phys + 8 * j)) as Hw2.
  { intros j Hj. rewrite W4; [by rewrite G3|]. eapply (not_in_tables _ _ _ _ _ _ phys); [apply I3|apply I4|done..|lia]. }
  destruct (sl_stable k g2 dev S3 K4) as (S5 & B5 & D5 & _).
  assert (efer_nxe (sg k) = true) as Hnx' by (by rewrite R3). rewrite (prot_rights_eq _ _ Hnx') in P4.
  exists (s <| vs := k <| sg := g2 |> |> <| vpages ::= <[p := paged_in x]> |>), phys. split.
  - unfold Mm_SwapIn. rewrite (bind_Ret _ _ _ _ _ (gets_eq _ _)). fold dev. rewrite (proj2 (truthy_true dev) Hdev), (proj2 (truthy_true p) Hp). cbn [negb].
    erewrite bind_Ret by exact (get_page_eq _ _ _ Hx). rewrite Hres, Hpg, Hout, Hsm. cbn [negb orb].
    rewrite (bind_Ret _ _ _ _ _ (assert_eq _ _ eq_refl)). cbv iota zeta. erewrite bind_Ret by (apply in_gst_Ret; exact E1). cbn [fst snd].
    change (default OBOS_STATUS_SUCCESS (Some OBOS_STATUS_SUCCESS)) with OBOS_STATUS_SUCCESS. ok_status.
    erewrite bind_Ret by (apply in_sst_Ret; exact E2). ok_status. erewrite bind_Ret by (apply in_sst_Ret; exact E3). ok_status.
    unfold set_prot. erewrite bind_Ret by (apply set_page_eq; exact Hx). unfold get_ctx. erewrite bind_Ret by (apply load_eq; exact Hc).
    erewrite bind_Ret.
    2: { unfold set_mapping. erewrite bind_Ret by (apply get_page_eq; apply lookup_insert_eq). apply in_gst_Ret.
         destruct (root_mask _ _ _ (pi_tree _ _ _ Hsp)) as [_ Hroot]. fold root.
         refine (eq_trans (set_mapping_present root _ q phys _ _ eq_refl Hsm Hal) E4). lia. }
    ok_status. erewrite bind_Ret by (apply set_page_eq; simpl; apply lookup_insert_eq). unfold mret, K_ret. f_equal.
    simpl. rewrite !insert_insert_eq. done.
  - split; cbn [vs sg set_field]; fold g.
    + done.
    + rewrite R4, R3. fold g. by destruct g.
    + rewrite K4. exact K3.
    + exists T2. split; [done|]. split; [eexists; exact (P4 _ Hv eq_refl)|done|done|lia|]. intros j Hj. rewrite Hw2 by done. by apply Hw.
    + exact (P4 _ Hv eq_refl).
    + intros j Hj. rewrite Hw2 by done. by apply Hd.
    + intros u Hu Hne. rewrite O4, T3; done.
    + intros Hco. apply C4. by eapply (coherent_rest g).
    + exact S5.
    + intros b Hb Hne. destruct (O3 b Hb Hne) as [Hb3 Hd3]. split; [by apply B5|]. intros j Hj. refine (eq_trans (D5 b j) _). by apply Hd3.
Qed.

(** [C4] Swapping a page of 4 KiB out and in again, with room for a page on the swap
    device, enough free frames for tables and execution rights enforced: both succeed;
    in between the page is not mapped and its frame is free. Afterwards it is mapped
    with the rights of its protection to a frame that holds the words its old frame
    held; no other page of the address space has changed, nor has any other block of the
    swap device, and the cached translations are right. The page must not be part of a
    working set, and its second word must be zero, because the physical memory manager
    takes it for the link of a free page. *)
Theorem swap_roundtrip s p x c T phys :
  swappable s p x c T → resident (sg (vs s)) (c_pt c) T (pg_addr x) phys → workingSets x = 0 →
  words (sg (vs s)) !! (phys + 8) = Some 0 → sl_room (vs s) (Mm_SwapProvider s) → frames_left 3 (sg (vs s)) →
  efer_nxe (sg (vs s)) = true → coherent (sg (vs s)) (c_pt c) →
  ∃ s1 id s2 phys', Mm_SwapOut p s = Ret OBOS_STATUS_SUCCESS s1 ∧ swapped_out s p x (c_pt c) phys id s1 ∧
    Mm_SwapIn p s1 = Ret OBOS_STATUS_SUCCESS s2 ∧
    vpages s2 = <[p := x <| prot ::= λ q, q <| present := true |> |> <| swapId := id |> <| pagedOut := false |>]> (vpages s) ∧
    translate (sg (vs s2)) (c_pt c) (vpn (pg_addr x)) = Some (phys', false, prot_rights (prot x)) ∧
    (∀ j, 0 <= j < 512 → words (sg (vs s2)) !! (phys' + 8 * j) = words (sg (vs s)) !! (phys + 8 * j)) ∧
    (∀ u, 0 <= u < 2 ^ 36 → u ≠ vpn (pg_addr x) → translate (sg (vs s2)) (c_pt c) u = translate (sg (vs s)) (c_pt c) u) ∧
    coherent (sg (vs s2)) (c_pt c) ∧
    ∀ b, sl_block (vs s) (Mm_SwapProvider s) b → sl_block (vs s2) (Mm_SwapProvider s) b ∧
      ∀ j, 0 <= j < 512 → sl_data (vs s2) (Mm_SwapProvider s) b j = sl_data (vs s) (Mm_SwapProvider s) b j.
Proof.
  intros Hsw Hrs Hws H8 Hroom Hleft Hnx Hco. destruct (swap_out_run s p x c T phys Hsw Hrs Hws H8 Hroom) as (s1 & id & E1 & Ho).
  pose proof Hsw as [Hx Hp Hres Hpg Hsm Hc Hpt Hdev Hsp Hcan Hal Hinv]. pose proof Ho as [St R K [T1 I1] Pg Ot Co Fd Fr Sv Sb Sd Sbs].
  assert (Mm_SwapProvider s1 = Mm_SwapProvider s ∧ ctxs s1 = ctxs s ∧ vpages s1 = <[p := paged_out id x]> (vpages s)) as (Ed & Ec & Ev) by (rewrite St; done).
  destruct (swap_in_run s1 p (paged_out id x) c T1) as (s2 & phys' & E2 & [St2 _ _ _ Pg2 W2 Ot2 Co2 _ Bs2]).
  { split; rewrite ?Ed, ?Ec, ?Ev; try done; [apply lookup_insert_eq|by rewrite R]. }
  { done. }
  { by rewrite Ed. }
  { done. }
  { destruct Hleft as (fs & Hnd & Hlen & Hall). exists (phys :: fs). split; [|split; [simpl; lia|]].
    - constructor; [|done]. intros Hin. rewrite Forall_forall in Hall. eapply (fr_disj (sg (vs s)) phys); [apply Hsp|apply Hrs|by apply Hall].
    - constructor; [done|]. eapply Forall_impl; [exact Hall|]. auto. }
  { by rewrite R. }
  rewrite Ed in *. exists s1, id, s2, phys'. split; [done|]. split; [done|]. split; [done|]. split.
  { rewrite St2. simpl. rewrite Ev, insert_insert_eq. done. }
  split; [done|]. split; [intros j Hj; rewrite W2 by done; by apply Sd|]. split; [intros u Hu Hne; rewrite Ot2, Ot; done|]. split; [auto|].
  intros b Hb. destruct (Sbs b Hb) as (Hb1 & Hne & Hd1). destruct (Bs2 b Hb1 Hne) as [Hb2 Hd2]. split; [done|]. intros j Hj. by rewrite Hd2, Hd1.
Qed.

End swap.
