(* ===== verification/VmFaultProofs.v ===== *)
(** * Page faults: what is refused, and demand paging

    [Mm_HandlePageFault] against the interfaces of the physical memory manager and of the
    swap device. *)

From S2P Require Import Prelude DList KState Irql ThreadList Schedule Thread Wait Vfs Pmm Paging PagingProofs PagingOps PagingUnmap InitSwap Vmm VmFault VmSwap.

Section faults.
Context {DH : DpcHandlers} `{FrL : FrameLaws} `{SL : SwapLaws} {FLy : FileLayer}.
#[local] Set Default Proof Using "Type".

(** ** The lock of a context *)

Definition virq (s : vmst) : irq_st := kirq (vs s).
Definition with_virq (i : irq_st) (s : vmst) : vmst := s <| vs ::= with_kirq i |>.
Definition ctx_ready (s : vmst) (ctx v : Z) : Prop := quiet (virq s) v ∧ lock_free (virq s) (ContextLock ctx).

Lemma vkern_Ret {A} (m : K kst A) s a k :
  m (mk (pm (sg (vs s)))) = Ret a k →
  vkern m s = Ret a (s <| vs ::= λ t, t <| sg ::= λ g, g <| pm ::= λ p, p <| mk := k |> |> |> |>).
Proof. intros E. unfold vkern, in_sst, skern, zoom. by rewrite E. Qed.

Lemma ctx_acquire s ctx v :
  ctx_ready s ctx v → vkern (Core_SpinlockAcquire (ContextLock ctx)) s = Ret (acq_irql v) (with_virq (acq_st (virq s) (ContextLock ctx)) s).
Proof. intros [Hq Hl]. by erewrite vkern_Ret by (by apply acquire_quiet). Qed.
Lemma ctx_release s ctx v s' :
  ctx_ready s ctx v → virq s' = acq_st (virq s) (ContextLock ctx) →
  vkern (Core_SpinlockRelease (ContextLock ctx) (acq_irql v)) s' = Ret OBOS_STATUS_SUCCESS (with_virq (virq s) s').
Proof. intros [Hq Hl] E. by erewrite vkern_Ret by (by apply (release_quiet _ (virq s))). Qed.

Lemma with_virq_back s i : with_virq (virq s) (with_virq i s) = s.
Proof. by destruct s as [[[[[] ? ? ? ? ? ? ?] ? ? ? ? ?] ? ? ?] ? ? ? ? ? ? ? ? ?]. Qed.

(** ** Accesses that are not allowed *)

(** The access with the error code [ec] to a page with the protection [q]. *)
Definition allowed (ec : Z) (q : page_prot) : bool :=
  (negb (has_flag ec PF_EC_EXEC) || executable q) && (negb (has_flag ec PF_EC_RW) || negb (ro q)) && (negb (has_flag ec PF_EC_UM) || user q).

(** [C39] A fault at an address the context has no page for, and one by an access its page
    does not allow (execution of a page that is not executable, a write to a read-only
    page, user access to a kernel page), are not handled, and nothing changes. *)
Theorem page_fault_refused retries s ctx c v addr ec :
  ctx ≠ 0 → ctx_ready s ctx v → ctxs s !! ctx = Some c →
  (∀ p, c_pages c !! addr = Some p → ∃ x, vpages s !! p = Some x ∧ allowed ec (prot x) = false) →
  Mm_HandlePageFault retries ctx addr ec s = Ret OBOS_STATUS_UNHANDLED s.
Proof.
  intros Hctx Hr Hc Hp. unfold Mm_HandlePageFault. rewrite (proj2 (truthy_true ctx) Hctx).
  rewrite (bind_Ret _ _ _ _ _ (assert_eq _ _ eq_refl)). unfold get_ctx. erewrite bind_Ret by (apply load_eq; exact Hc).
  unfold RB_FIND. destruct (c_pages c !! addr) as [p|] eqn:Ep; [|done]. destruct (Hp p eq_refl) as (x & Hx & Ha).
  change (default nullptr (Some p)) with p. destruct (truthy p) eqn:Etp; [|done]. cbn [negb].
  erewrite bind_Ret by exact (ctx_acquire _ _ _ Hr). set (s1 := with_virq _ s).
  unfold get_page. erewrite bind_Ret by (apply (load_eq vpages p s1); exact Hx).
  assert ((vkern (Core_SpinlockRelease (ContextLock ctx) (acq_irql v));; mret OBOS_STATUS_UNHANDLED) s1 = Ret OBOS_STATUS_UNHANDLED s) as El.
  { erewrite bind_Ret by (apply (ctx_release s); [exact Hr|reflexivity]). unfold s1. by rewrite with_virq_back. }
  unfold allowed in Ha. destruct (has_flag ec PF_EC_EXEC), (executable (prot x)); cbn [negb andb orb] in Ha |- *; try exact El;
    destruct (has_flag ec PF_EC_RW), (ro (prot x)); cbn [negb andb orb] in Ha |- *; try exact El;
    destruct (has_flag ec PF_EC_UM), (user (prot x)); cbn [negb andb orb] in Ha |- *; try exact El; discriminate.
Qed.

(** ** Demand paging *)

Lemma like_locked i v ctx : quiet i v → irq_like i (acq_st i (ContextLock ctx)).
Proof. intros Hq. split; [eexists; by eapply acq_st_quiet|]. intros l Hl. apply acq_st_other. intros <-. by eapply Hl. Qed.
Lemma like_back i v ctx : quiet i v → irq_like (acq_st i (ContextLock ctx)) i.
Proof. intros Hq. split; [by exists v|]. intros l Hl. symmetry. apply acq_st_other. intros <-. by eapply Hl. Qed.

Lemma paging_irq g i root T : paging_inv g root T → irq_like (girq g) i → paging_inv (with_girq i g) root T.
Proof.
  intros [Ht Hf Hu] Hi. destruct (fr_irq g i Hf Hi) as (Hf' & _ & Hu'). split; [exact Ht|exact Hf'|]. intros f y Hy. apply Hu'. by eapply Hu.
Qed.

Lemma swappable_irq s p x c T i : swappable s p x c T → irq_like (virq s) i → swappable (with_virq i s) p x c T.
Proof.
  intros [? ? ? ? ? ? ? ? Hsp ? ? Hsw] Hi. split; try done.
  - by apply (paging_irq (sg (vs s))).
  - by apply (sl_irq (vs s) i).
Qed.

Lemma frames_left_irq n g i : fr_inv g → irq_like (girq g) i → frames_left n g → frames_left n (with_girq i g).
Proof using FrL.
  intros Hf Hi (fs & Hnd & Hlen & Hall). destruct (fr_irq g i Hf Hi) as (_ & Hfr & _). exists fs. split; [done|]. split; [done|].
  eapply Forall_impl; [exact Hall|]. intros a. apply Hfr.
Qed.

(** The page as the fault leaves it. *)
Definition brought_in (p : Z) (y : page) : page :=
  y <| ln_data := p |> <| age ::= λ a, Z.lor a 1 |> <| prot ::= λ q, q <| touched := false |> |>.

(** The list of referenced pages of a context, below the size at which pages are replaced. *)
Definition ref_list (s : vmst) (ctx : Z) (c : context) (xs : list Z) : Prop :=
  ctxs s !! ctx = Some c ∧ dl_rep (ln_links s) (referenced c) xs ∧ Z.of_nat (length xs) + 1 < ws_capacity c / 4 / OBOS_PAGE_SIZE < 2 ^ 64.

Definition note_page_in (ctx page : Z) : K vmst () :=
  x ← get_page page;
  set_stat Mm_KernelContext (λ m, m <| paged ::= λ n, wrap64 (n - page_size (prot x)) |>);;
  set_page page (λ y, y <| ln_data := page |>);;
  set_page page (λ y, y <| age ::= λ a, Z.lor a 1 |>);;
  set_prot page (λ q, q <| touched := false |>);;
  ref_op LIST_APPEND ctx page;;
  c ← get_ctx ctx;
  let threshold := ws_capacity c / 4 / OBOS_PAGE_SIZE in
  when (threshold <=? dl_nNodes (referenced c)) (Mm_RunPRA ctx;; mret ()).

Lemma note_page_in_run s ctx c xs p y :
  vpages s !! p = Some y → p ≠ 0 → is_Some (ctxs s !! Mm_KernelContext) → ref_list s ctx c xs → p ∉ xs → is_Some (ln_links s !! p) →
  ∃ h m c', note_page_in ctx p s = Ret () (s <| vpages ::= <[p := brought_in p y]> |> <| ln_links := h |> <| ctxs := m |>) ∧
    m !! ctx = Some c' ∧ dl_rep h (referenced c') (xs ++ [p]) ∧ c_pages c' = c_pages c ∧ c_pt c' = c_pt c.
Proof.
  intros Hy Hp [k Hk] (Hc & Hrep & Hlen) Hpx Hlk. set (f := λ m : memstat, m <| paged ::= λ n, wrap64 (n - page_size (prot y)) |>).
  assert (∃ c1, <[Mm_KernelContext := k <| stat ::= f |>]> (ctxs s) !! ctx = Some c1 ∧ referenced c1 = referenced c ∧
    c_pages c1 = c_pages c ∧ c_pt c1 = c_pt c ∧ ws_capacity c1 = ws_capacity c) as (c1 & Hc1 & Er & Ep & Et & Ew).
  { destruct (decide (ctx = Mm_KernelContext)) as [->|Hne].
    - exists (k <| stat ::= f |>). rewrite lookup_insert_eq. split; [done|]. rewrite Hk in Hc. injection Hc as ->. done.
    - exists c. by rewrite lookup_insert_ne. }
  destruct (LIST_APPEND_spec (ln_links s) (referenced c) xs p Hrep Hpx Hp Hlk) as (h & l & Eh & Hrep' & _); [lia|].
  exists h, (<[ctx := c1 <| referenced := l |>]> (<[Mm_KernelContext := k <| stat ::= f |>]> (ctxs s))), (c1 <| referenced := l |>).
  split; [|rewrite lookup_insert_eq; done].
  unfold note_page_in, get_page. erewrite bind_Ret by (apply load_eq; exact Hy).
  unfold set_stat, set_ctx. erewrite bind_Ret by (apply store_eq; exact Hk). fold f.
  unfold set_prot. do 3 (erewrite bind_Ret by (apply set_page_eq; simpl; first [exact Hy|apply lookup_insert_eq])).
  unfold ref_op, page_list_op, get_ctx.
  erewrite bind_Ret.
  2:{ erewrite bind_Ret by (apply load_eq; simpl; exact Hc1). erewrite bind_Ret by apply gets_eq. simpl.
      rewrite Er, Eh. simpl. erewrite bind_Ret by reflexivity. erewrite bind_Ret by reflexivity. apply store_eq. simpl. exact Hc1. }
  erewrite bind_Ret by (apply load_eq; simpl; apply lookup_insert_eq). simpl.
  rewrite when_false.
  2:{ rewrite Ew, (rep_count _ _ _ Hrep'), length_app. simpl. apply Z.leb_gt. lia. }
  unfold mret, K_ret. f_equal. simpl. rewrite !insert_insert_eq. by destruct s.
Qed.

(** A page of the context that is in the swap and nothing more: no file behind it, not
    shared, in no working set. *)
Record paged_out_page (s : vmst) (ctx addr p : Z) (x : page) (c : context) (T : gmap Z (nat * Z)) : Prop := {
  po_swappable : swappable s p x c T;
  po_ctx : ctx ≠ 0 ∧ pg_owner x = ctx;
  po_addr : c_pages c !! addr = Some p ∧ pg_addr x = addr;
  po_out : pagedOut x = true ∧ workingSets x = 0;
  po_block : sl_block (vs s) (Mm_SwapProvider s) (swapId x);
  po_unmapped : translate (sg (vs s)) (c_pt c) (vpn addr) = None;
  po_plain : next_copied_page x = 0 ∧ prev_copied_page x = 0 ∧ pg_region x = 0
}.

(** Swapping in with the lock of the context held. *)
Lemma swap_in_locked s ctx addr p x c T v :
  paged_out_page s ctx addr p x c T → ctx_ready s ctx v → frames_left 4 (sg (vs s)) → efer_nxe (sg (vs s)) = true →
  let s1 := with_virq (acq_st (virq s) (ContextLock ctx)) s in
  ∃ s2 phys, Mm_SwapIn p s1 = Ret OBOS_STATUS_SUCCESS s2 ∧ swapped_in s1 p x (c_pt c) phys s2.
Proof.
  intros [Hsw [_ Ho] [_ Ha] [Hout _] Hb Hun _] [Hq _] Hleft Hnx s1. pose proof (like_locked _ _ ctx Hq) as Hl.
  apply (swap_in_run s1 p x c T); try done.
  - by apply swappable_irq.
  - destruct (sl_irq (vs s) _ (Mm_SwapProvider s) (sp_swap _ _ _ _ _ Hsw) Hl) as (_ & Hbl & _). by apply Hbl.
  - by rewrite Ha.
  - apply frames_left_irq; [apply (sp_space _ _ _ _ _ Hsw)|exact Hl|exact Hleft].
Qed.

Lemma fault_paging retries ctx addr ec s s2 c v p x phys xs y :
  ctx_ready s ctx v → ctxs s !! ctx = Some c → ctx ≠ 0 → c_pages c !! addr = Some p → vpages s !! p = Some x → p ≠ 0 →
  allowed ec (prot x) = true → has_flag ec PF_EC_PRESENT = false → pagedOut x = true → workingSets x = 0 →
  next_copied_page x = 0 → prev_copied_page x = 0 → pg_region x = 0 →
  let s1 := with_virq (acq_st (virq s) (ContextLock ctx)) s in
  Mm_SwapIn p s1 = Ret OBOS_STATUS_SUCCESS s2 → swapped_in s1 p x (c_pt c) phys s2 → y = brought_in p (paged_in x) →
  is_Some (ctxs s !! Mm_KernelContext) → ref_list s ctx c xs → p ∉ xs → is_Some (ln_links s !! p) →
  ∃ h m c', Mm_HandlePageFault retries ctx addr ec s =
      Ret OBOS_STATUS_SUCCESS (with_virq (virq s) (s2 <| vpages ::= <[p := y]> |> <| ln_links := h |> <| ctxs := m |>)) ∧
    m !! ctx = Some c' ∧ dl_rep h (referenced c') (xs ++ [p]) ∧ c_pages c' = c_pages c ∧ c_pt c' = c_pt c.
Proof.
  intros Hr Hc Hctx Hp Hx Hp0 Hal Hnp Hout Hws Hn1 Hn2 Hreg s1 Esw Hsi Ey Hk Href Hpx Hlk.
  pose proof (si_state _ _ _ _ _ _ Hsi) as Hst. pose proof (si_kern _ _ _ _ _ _ Hsi) as Hkn.
  assert (vpages s2 !! p = Some (paged_in x) ∧ ctxs s2 = ctxs s ∧ ln_links s2 = ln_links s) as (Hx2 & Ec & El).
  { rewrite Hst. simpl. by rewrite lookup_insert_eq. }
  destruct (note_page_in_run s2 ctx c xs p (paged_in x)) as (h & m & c' & En & Hm & Hrep & Hpg & Hpt);
    [done|done|by rewrite Ec|unfold ref_list; by rewrite Ec, El|done|by rewrite El|].
  exists h, m, c'. split; [|done]. rewrite Ey. unfold Mm_HandlePageFault. rewrite (proj2 (truthy_true ctx) Hctx).
  rewrite (bind_Ret _ _ _ _ _ (assert_eq _ _ eq_refl)). unfold get_ctx at 1. erewrite bind_Ret by (apply load_eq; exact Hc).
  unfold RB_FIND. rewrite Hp. change (default nullptr (Some p)) with p. rewrite (proj2 (truthy_true p) Hp0). cbn [negb].
  erewrite bind_Ret by exact (ctx_acquire _ _ _ Hr). fold s1.
  unfold get_page at 1. erewrite bind_Ret by (apply (load_eq vpages p s1); exact Hx).
  unfold allowed in Hal. apply andb_prop in Hal as [Hal H3]. apply andb_prop in Hal as [H1 H2].
  replace (has_flag ec PF_EC_EXEC && negb (executable (prot x))) with false by (destruct (has_flag ec PF_EC_EXEC), (executable (prot x)); done).
  replace (has_flag ec PF_EC_RW && ro (prot x)) with false by (destruct (has_flag ec PF_EC_RW), (ro (prot x)); done).
  replace (has_flag ec PF_EC_UM && negb (user (prot x))) with false by (destruct (has_flag ec PF_EC_UM), (user (prot x)); done).
  rewrite Hout, Hnp, Hws. cbn [negb andb]. change (negb (truthy 0)) with true. cbv zeta iota.
  erewrite bind_Ret.
  2:{ rewrite (bind_Ret _ _ _ _ _ (assert_eq _ _ eq_refl)). destruct retries; cbn [page_in]; (erewrite bind_Ret by exact Esw); reflexivity. }
  change (obos_is_error OBOS_STATUS_SUCCESS) with false. cbv iota.
  erewrite bind_Ret by (rewrite when_true by done; exact En). set (s3 := s2 <| vpages ::= _ |> <| ln_links := h |> <| ctxs := m |>).
  assert (vpages s3 !! p = Some (brought_in p (paged_in x))) as Hx3 by apply lookup_insert_eq.
  unfold get_page at 1. erewrite bind_Ret by (apply load_eq; exact Hx3). simpl next_copied_page. simpl prev_copied_page. rewrite Hn1, Hn2.
  erewrite bind_Ret by (apply when_false; reflexivity).
  erewrite bind_Ret by (apply (ctx_release s); [exact Hr|]; unfold virq, kirq, girq; cbn; rewrite Hkn; reflexivity).
  unfold get_page. erewrite bind_Ret by (apply load_eq; exact Hx3). simpl pg_region. rewrite Hreg.
  change (truthy 0) with false. cbn [andb]. erewrite bind_Ret by reflexivity. cbn [negb].
  erewrite bind_Ret by (apply load_eq; exact Hx3). simpl pg_region. rewrite Hreg. change (truthy 0) with false. cbn [andb].
  erewrite bind_Ret by (apply when_false; reflexivity). cbn [orb]. reflexivity.
Qed.

(** [C5] Demand paging without page replacement: an allowed access to a 4 KiB page that
    is in the swap is handled. The page is mapped with its rights to a frame that holds
    the words the swap held; no other page of the address space and no other page object
    changes, the cached translations stay right, the page is last in the list of
    referenced pages, the interrupt state is as before, and all other blocks of the swap
    device keep their data. It is assumed that the page is pageable, not reserved, not
    backed by a file, not shared for copying and in no working set; that the context is
    the one in use; that the list of referenced pages, the new one included, is shorter
    than a quarter of the capacity of the working set in pages, so that [Mm_RunPRA] is
    not called; and that four frames are free and execution rights are enforced
    ([EFER.NXE]). *)
Theorem demand_paging retries s ctx addr ec p x c T v xs :
  paged_out_page s ctx addr p x c T → ctx_ready s ctx v → frames_left 4 (sg (vs s)) → efer_nxe (sg (vs s)) = true →
  allowed ec (prot x) = true → has_flag ec PF_EC_PRESENT = false → coherent (sg (vs s)) (c_pt c) →
  is_Some (ctxs s !! Mm_KernelContext) → ref_list s ctx c xs → p ∉ xs → is_Some (ln_links s !! p) →
  ∃ s' phys c' T', Mm_HandlePageFault retries ctx addr ec s = Ret OBOS_STATUS_SUCCESS s' ∧
    translate (sg (vs s')) (c_pt c) (vpn addr) = Some (phys, false, prot_rights (prot x)) ∧
    (∀ j, 0 <= j < 512 → words (sg (vs s')) !! (phys + 8 * j) = sl_data (vs s) (Mm_SwapProvider s) (swapId x) j) ∧
    (∀ u, 0 <= u < 2 ^ 36 → u ≠ vpn addr → translate (sg (vs s')) (c_pt c) u = translate (sg (vs s)) (c_pt c) u) ∧
    coherent (sg (vs s')) (c_pt c) ∧ paging_inv (sg (vs s')) (c_pt c) T' ∧ sl_inv (vs s') (Mm_SwapProvider s) ∧
    vpages s' = <[p := brought_in p (paged_in x)]> (vpages s) ∧
    ctxs s' !! ctx = Some c' ∧ dl_rep (ln_links s') (referenced c') (xs ++ [p]) ∧ mk (pm (sg (vs s'))) = mk (pm (sg (vs s))) ∧
    ∀ b, sl_block (vs s) (Mm_SwapProvider s) b → b ≠ swapId x → sl_block (vs s') (Mm_SwapProvider s) b ∧
      ∀ j, 0 <= j < 512 → sl_data (vs s') (Mm_SwapProvider s) b j = sl_data (vs s) (Mm_SwapProvider s) b j.
Proof.
  intros Hpo Hr Hleft Hnx Hal Hnp Hco Hk Href Hpx Hlk.
  destruct (swap_in_locked s ctx addr p x c T v Hpo Hr Hleft Hnx) as (s2 & phys & E & Hsi).
  pose proof Hpo as [Hsw [Hctx Ho] [Hp Ha] [Hout Hws] Hb Hun (Hn1 & Hn2 & Hreg)].
  pose proof Hr as [Hq _]. pose proof (like_locked _ _ ctx Hq) as Hl. pose proof (like_back _ _ ctx Hq) as Hl'.
  destruct (fault_paging retries ctx addr ec s s2 c v p x phys xs _ Hr (proj1 Href) Hctx Hp (sp_page _ _ _ _ _ Hsw) (sp_nonnull _ _ _ _ _ Hsw)
    Hal Hnp Hout Hws Hn1 Hn2 Hreg E Hsi eq_refl Hk Href Hpx Hlk) as (h & m & c' & Ef & Hm & Hrep & _ & _).
  destruct Hsi as [St R K [T' [Isp _]] Pg W Ot Co Inv Bs]. rewrite Ha in Pg, Ot.
  destruct (sl_irq (vs s) _ (Mm_SwapProvider s) (sp_swap _ _ _ _ _ Hsw) Hl) as (_ & B1 & D1 & _).
  assert (irq_like (kirq (vs s2)) (virq s)) as Hl2 by (unfold kirq, girq; rewrite K; exact Hl').
  destruct (sl_irq (vs s2) (virq s) (Mm_SwapProvider s) Inv Hl2) as (I3 & B3 & D3 & _).
  eexists _, phys, c', T'. split; [exact Ef|]. split_and!; try done.
  - intros j Hj. refine (eq_trans (W j Hj) _). apply D1.
  - apply (Co Hco).
  - by apply (paging_irq (sg (vs s2))).
  - simpl. rewrite St. simpl. apply insert_insert_eq.
  - simpl. rewrite K. by destruct s as [[[[[] ? ? ? ? ? ? ?] ? ? ? ? ?] ? ? ?] ? ? ? ? ? ? ? ? ?].
  - intros b Hb0 Hne. destruct (Bs b) as [Hb2 Hd2]; [by apply B1|done|]. split; [by apply B3|]. intros j Hj.
    refine (eq_trans (D3 b j) _). rewrite <- (D1 b j). by apply Hd2.
Qed.

End faults.
