(* ===== verification/VmAllocProofs.v ===== *)
(** * Ranges of virtual memory: correctness

    The range [MmH_FindAvailableAddress] finds is free; ranges that are not wholly there
    are neither freed nor protected, and ranges in use are not allocated again. *)

From stdpp Require Import sorting.
From S2P Require Import Prelude DList KState Irql ThreadList Schedule Thread Wait Vfs Pmm PmmProofs Paging PagingProofs PagingOps PagingUnmap InitSwap Vmm VmFault VmAlloc VmSwap VmFaultProofs.

(** ** The pages of a context in order *)

Lemma tree_keys_sorted t : StronglySorted Z.lt (tree_keys t).
Proof.
  assert (StronglySorted Z.le (tree_keys t)) as Hs by (apply Sorted_StronglySorted; [intros a b c; lia|apply Sorted_merge_sort; intros a b; lia]).
  assert (NoDup (tree_keys t)) as Hn by (unfold tree_keys; rewrite merge_sort_Permutation; apply NoDup_elements).
  induction Hs as [|k ks Hs IH Hf]; [constructor|]. apply NoDup_cons in Hn as [Hk Hn]. constructor; [auto|].
  rewrite Forall_forall in Hf |- *. intros x Hx. specialize (Hf x Hx). destruct (decide (k = x)) as [->|]; [done|lia].
Qed.
Lemma tree_keys_elem t a : a ∈ tree_keys t ↔ is_Some (t !! a).
Proof. unfold tree_keys. rewrite merge_sort_Permutation, elem_of_elements. apply elem_of_dom. Qed.

Lemma RB_FIND_some t a p : t !! a = Some p → RB_FIND t a = p.
Proof. unfold RB_FIND. by intros ->. Qed.
Lemma RB_FIND_none t a : t !! a = None → RB_FIND t a = nullptr.
Proof. unfold RB_FIND. by intros ->. Qed.

Lemma sorted_filter a l : StronglySorted Z.lt l → StronglySorted Z.lt (filter (λ x, a < x) l).
Proof.
  induction 1 as [|k ks Hs IH Hf]; [constructor|]. rewrite filter_cons. case_decide; [|done]. constructor; [done|].
  rewrite Forall_forall in Hf |- *. intros x [_ Hx]%list_elem_of_filter. auto.
Qed.

(** All pages of the context are small and at their address. *)
Definition small_pages (s : vmst) (c : context) : Prop :=
  ∀ a p, c_pages c !! a = Some p → p ≠ 0 ∧ 0 <= a < 2 ^ 64 ∧ a mod 4096 = 0 ∧
    ∃ x, vpages s !! p = Some x ∧ pg_addr x = a ∧ huge_page (prot x) = false.

Section ranges.
Context {DH : DpcHandlers} {PE : PagingEnv} {SO : SwapOps} {FLy : FileLayer} {VH : VmHeap}.
#[local] Set Default Proof Using "Type".

Lemma small_size q : huge_page q = false → page_size q = 4096.
Proof. unfold page_size. by intros ->. Qed.

(** ** Finding a range *)

Section gap.
Context (s : vmst) (c : context) (base limit sz : Z).
Context (Hsm : small_pages s c) (Hb : 0 < base < limit) (Hl : limit + 4096 <= 2 ^ 64) (Hbm : base mod 4096 = 0) (Hsz : 0 <= sz < 2 ^ 63).
Set Default Proof Using "Type*".

(** No page between the limits is in the range at [a]. *)
Definition clear_at (a : Z) (full : list Z) : Prop := ∀ b, b ∈ full → base <= b < limit → b < a ∨ a + sz <= b.

(** What holds before the rest [ks] of the pages: [L] is [lastAddress], [N] is [lastNode]. *)
Definition gap_inv (done ks : list Z) (L N : Z) : Prop :=
  (N = 0 ∧ L = base ∧ ∀ b, b ∈ done → base <= b → base + sz <= b) ∨
  (∃ a, c_pages c !! a = Some N ∧ base <= a < limit ∧
     ((L = a + 4096 ∧ a ∈ done ∧ ∀ b, b ∈ done → base <= b → b <= a) ∨ (L = base ∧ a = base ∧ base ∈ ks ∧ ∀ b, b ∈ done → b < base))).

(** What the search finds. *)
Definition gap_found (full : list Z) (found N : Z) : Prop :=
  (found ≠ 0 ∧ base <= found < limit ∧ found mod 4096 = 0 ∧ clear_at found full) ∨
  (found = 0 ∧ N = 0 ∧ clear_at base full) ∨
  (found = 0 ∧ ∃ a, c_pages c !! a = Some N ∧ base <= a < limit ∧ ∀ b, b ∈ full → base <= b < limit → b <= a).

Lemma gap_end done ks L N : gap_inv done ks L N → (∀ b, b ∈ ks → limit <= b) → gap_found (done ++ ks) 0 N.
Proof.
  intros Hi Hk. right. destruct Hi as [(-> & _ & Hd)|(a & Ha & Har & [(_ & _ & Hd)|(_ & -> & Hin & _)])].
  - left. split; [done|]. split; [done|]. intros b [Hb'|Hb']%elem_of_app Hr; [right; apply Hd; [done|lia]|]. specialize (Hk b Hb'). lia.
  - right. split; [done|]. exists a. split; [done|]. split; [done|]. intros b [Hb'|Hb']%elem_of_app Hr; [apply Hd; [done|lia]|].
    specialize (Hk b Hb'). lia.
  - specialize (Hk base Hin). lia.
Qed.

Lemma gap_step done ks L N a :
  gap_inv done (a :: ks) L N → a < base → gap_inv (done ++ [a]) ks L N.
Proof.
  intros Hi Ha. destruct Hi as [(-> & -> & Hd)|(e & He & Her & [(HL & Hed & Hd)|(HL & -> & Hin & Hd)])].
  - left. split; [done|]. split; [done|]. intros b [Hb'|Hb'%list_elem_of_singleton]%elem_of_app Hr; [by apply Hd|lia].
  - right. exists e. split; [done|]. split; [done|]. left. split; [done|]. split; [set_solver|]. intros b [Hb'|Hb'%list_elem_of_singleton]%elem_of_app Hr; [by apply Hd|lia].
  - right. exists base. split; [done|]. split; [done|]. right. split; [done|]. split; [done|].
    apply elem_of_cons in Hin as [->|Hin]; [lia|]. split; [done|]. intros b [Hb'|Hb'%list_elem_of_singleton]%elem_of_app; [by apply Hd|lia].
Qed.

Context (pgSize : Z) (Hpg : 4096 <= pgSize < 2 ^ 62).

Lemma find_gap_run ks done L N :
  StronglySorted Z.lt (done ++ ks) → (∀ a, a ∈ ks → is_Some (c_pages c !! a)) → gap_inv done ks L N →
  ∃ found N', find_gap base limit sz pgSize (omap (λ a, c_pages c !! a) ks) L N s = Ret (found, N') s ∧ gap_found (done ++ ks) found N'.
Proof.
  revert done L N. induction ks as [|a ks IH]; intros done L N Hs Hin Hi.
  { exists 0, N. split; [done|]. apply (gap_end _ _ _ _ Hi). intros b []%not_elem_of_nil. }
  destruct (Hin a) as [p Hp]; [set_solver|]. destruct (Hsm a p Hp) as (Hp0 & Har & Ham & x & Hx & Hxa & Hxh).
  assert (StronglySorted Z.lt ((done ++ [a]) ++ ks)) as Hs' by (by rewrite <- app_assoc).
  assert (∀ b, b ∈ ks → a < b) as Hgt.
  { intros b Hb'. apply (StronglySorted_app_1_elem_of Z.lt (done ++ [a]) ks a b Hs'); set_solver. }
  assert (∀ b, b ∈ done → b < a) as Hlt.
  { intros b Hb'. apply (StronglySorted_app_1_elem_of Z.lt done (a :: ks) b a Hs); set_solver. }
  assert (∀ b, b ∈ ks → is_Some (c_pages c !! b)) as Hin' by (intros b Hb'; apply Hin; set_solver).
  cbn [omap list_omap]. rewrite Hp. cbn [find_gap]. unfold get_page. erewrite bind_Ret by (apply load_eq; exact Hx). rewrite Hxa.
  destruct (Z.ltb_spec a base) as [Hab|Hab].
  { destruct (IH (done ++ [a]) L N Hs' Hin' (gap_step _ _ _ _ _ Hi Hab)) as (f & N' & E & Hf). exists f, N'. split; [exact E|].
    by rewrite <- app_assoc in Hf. }
  destruct (Z.leb_spec limit a) as [Hal|Hal].
  { exists 0, N. split; [done|]. apply (gap_end _ _ _ _ Hi). intros b [->|Hb']%elem_of_cons; [done|]. specialize (Hgt b Hb'). lia. }
  rewrite (wrap_small 64 (sz + pgSize)) by (unfold in_u; lia). rewrite (small_size _ Hxh), (wrap_small 64 (a + 4096)) by (unfold in_u; lia).
  destruct Hi as [(-> & -> & Hd)|(e & He & Her & Hcase)].
  - rewrite (wrap_small 64 (a - base)) by (unfold in_u; lia). destruct (Z.leb_spec (sz + pgSize) (a - base)) as [Hg|Hg].
    + change (negb (truthy 0)) with true. cbv iota. destruct (IH (done ++ [a]) base 0 Hs' Hin') as (f & N' & E & Hf).
      { left. split; [done|]. split; [done|]. intros b [Hb'|Hb'%list_elem_of_singleton]%elem_of_app Hr; [by apply Hd|lia]. }
      exists f, N'. split; [exact E|]. by rewrite <- app_assoc in Hf.
    + destruct (IH (done ++ [a]) (a + 4096) p Hs' Hin') as (f & N' & E & Hf).
      { right. exists a. split; [done|]. split; [lia|]. left. split; [done|]. split; [set_solver|]. intros b [Hb'|Hb'%list_elem_of_singleton]%elem_of_app Hr; [specialize (Hlt b Hb'); lia|lia]. }
      exists f, N'. split; [exact E|]. by rewrite <- app_assoc in Hf.
  - assert (base <= L <= a) as HLa.
    { destruct Hcase as [(-> & Hed & _)|(-> & -> & _ & _)]; [|lia]. specialize (Hlt e Hed). destruct (Hsm e N He) as (_ & _ & Hem & _).
      pose proof (Z.div_mod e 4096 ltac:(lia)). pose proof (Z.div_mod a 4096 ltac:(lia)). lia. }
    rewrite (wrap_small 64 (a - L)) by (unfold in_u; lia). destruct (Z.leb_spec (sz + pgSize) (a - L)) as [Hg|Hg].
    + destruct (Hsm e N He) as (HN0 & _ & Hem & y & Hy & Hya & Hyh). rewrite (proj2 (truthy_true N) HN0). cbn [negb].
      erewrite bind_Ret by (apply load_eq; exact Hy). rewrite (small_size _ Hyh), wrap_small by (unfold in_u; lia).
      exists (L + 4096), N. split; [done|]. left. destruct Hcase as [(-> & Hed & Hd)|(-> & -> & Hbk & Hd)].
      * split; [lia|]. split; [lia|]. split.
        { replace (e + 4096 + 4096) with (e + 2 * 4096) by lia. by rewrite Z_mod_plus_full. }
        intros b Hb' Hr. apply elem_of_app in Hb' as [Hb'|Hb']; [left; specialize (Hd b Hb'); lia|right].
        apply elem_of_cons in Hb' as [->|Hb']; [lia|]. specialize (Hgt b Hb'). lia.
      * apply elem_of_cons in Hbk as [->|Hbk]; [lia|]. specialize (Hgt base Hbk). lia.
    + destruct (IH (done ++ [a]) (a + 4096) p Hs' Hin') as (f & N' & E & Hf).
      { right. exists a. split; [done|]. split; [lia|]. left. split; [done|]. split; [set_solver|].
        intros b [Hb'|Hb'%list_elem_of_singleton]%elem_of_app Hr; [specialize (Hlt b Hb'); lia|lia]. }
      exists f, N'. split; [exact E|]. by rewrite <- app_assoc in Hf.
Qed.

End gap.

Lemma vkern_load {V} (m : kst → gmap Z V) a s v : m (mk (pm (sg (vs s)))) !! a = Some v → vkern (load m a) s = Ret v s.
Proof. intros E. erewrite vkern_Ret by (apply load_eq; exact E). by destruct s as [[[[[] ? ? ? ? ? ? ?] ? ? ? ? ?] ? ? ?] ? ? ? ? ? ? ? ? ?]. Qed.

Lemma space_bounds_ok pid flags base limit : space_bounds pid flags = (base, limit) → 0 < base < limit ∧ limit + 4096 <= 2 ^ 64 ∧ base mod 4096 = 0.
Proof.
  unfold space_bounds, OBOS_KERNEL_ADDRESS_SPACE_BASE, OBOS_KERNEL_ADDRESS_SPACE_LIMIT, OBOS_USER_ADDRESS_SPACE_BASE, OBOS_USER_ADDRESS_SPACE_LIMIT.
  destruct (has_flag flags VMA_FLAGS_32BIT); [|destruct (pid =? 1)]; intros [= <- <-]; split; try lia; done.
Qed.

(** [C10] The search for a range in a context whose pages are all of 4 KiB, for any
    flags and any size below 2^63: it returns an address that is a multiple of 4 KiB,
    not below the base of the address space and less than a page above its limit, with
    the state and the status unchanged. If the size, rounded down to whole pages (of 2
    MiB with [VMA_FLAGS_HUGE_PAGE], else of 4 KiB), fits below the limit there, no page
    of the context is in that range. For the part of the size that is rounded off
    nothing is said. *)
Theorem find_available_free s ctx c o size flags st base limit :
  ctx ≠ 0 → ctxs s !! ctx = Some c → procs (sch (mk (pm (sg (vs s))))) !! c_owner c = Some o →
  space_bounds (pid o) flags = (base, limit) → small_pages s c → 0 <= size < 2 ^ 63 →
  let whole := size - size mod flags_page_size flags in
  ∃ a, MmH_FindAvailableAddress ctx size flags st s = Ret (a, st) s ∧ a mod 4096 = 0 ∧ base <= a < limit + 4096 ∧
    (a + whole <= limit → ∀ b p, c_pages c !! b = Some p → b < a ∨ a + whole <= b).
Proof.
  intros Hctx Hc Ho Hsb Hsm Hsz whole. destruct (space_bounds_ok _ _ _ _ Hsb) as (Hb & Hl & Hbm).
  assert (4096 <= flags_page_size flags < 2 ^ 62) as Hpg.
  { unfold flags_page_size, OBOS_HUGE_PAGE_SIZE, OBOS_PAGE_SIZE. destruct (has_flag _ _); lia. }
  assert (0 <= whole < 2 ^ 63) as Hw.
  { unfold whole. pose proof (Z.mod_pos_bound size (flags_page_size flags) ltac:(lia)). pose proof (Z.mod_le size (flags_page_size flags) ltac:(lia) ltac:(lia)). lia. }
  unfold MmH_FindAvailableAddress. rewrite (proj2 (truthy_true ctx) Hctx). cbn [negb]. fold whole.
  unfold get_ctx. erewrite bind_Ret by (apply load_eq; exact Hc). erewrite bind_Ret by (apply vkern_load; exact Ho). rewrite Hsb.
  destruct (find_gap_run s c base limit whole Hsm Hb Hl Hbm Hw _ Hpg (tree_keys (c_pages c)) [] base (RB_FIND (c_pages c) base)) as (found & N & E & Hg).
  { apply tree_keys_sorted. }
  { intros a. apply tree_keys_elem. }
  { unfold RB_FIND. destruct (c_pages c !! base) as [p|] eqn:Ep; simpl.
    - right. exists base. split; [done|]. split; [lia|]. right. split; [done|]. split; [done|]. split; [apply tree_keys_elem; by rewrite Ep|].
      intros b []%not_elem_of_nil.
    - left. split; [done|]. split; [done|]. intros b []%not_elem_of_nil. }
  erewrite bind_Ret by exact E. cbn [fst snd]. simpl app in Hg.
  assert (∀ a, base <= a → clear_at base limit whole a (tree_keys (c_pages c)) → a + whole <= limit →
    ∀ b p, c_pages c !! b = Some p → b < a ∨ a + whole <= b) as Hclear.
  { intros a Ha Hcl Hfit b p Hp. destruct (decide (base <= b < limit)) as [Hr|]; [|lia]. apply Hcl; [apply tree_keys_elem; by rewrite Hp|done]. }
  destruct Hg as [(Hf0 & Hfr & Hfm & Hcl)|[(-> & -> & Hcl)|(-> & a & Ha & Har & Hle)]].
  - rewrite (proj2 (truthy_true found) Hf0). exists found. split; [|split; [done|split; [lia|apply Hclear; [lia|done]]]].
    erewrite bind_Ret by reflexivity. by rewrite (proj2 (truthy_true found) Hf0).
  - exists base. split; [|split; [done|split; [lia|apply Hclear; [lia|done]]]]. change (truthy 0) with false. cbv iota.
    erewrite bind_Ret by reflexivity. by rewrite (proj2 (truthy_true base)) by lia.
  - destruct (Hsm a N Ha) as (HN & _ & Ham & x & Hx & Hxa & Hxh). exists (a + 4096). split; [|split; [|split; [lia|]]].
    + change (truthy 0) with false. cbv iota. rewrite (proj2 (truthy_true N) HN).
      erewrite bind_Ret by (unfold get_page; erewrite bind_Ret by (apply load_eq; exact Hx); reflexivity).
      unfold OBOS_PAGE_SIZE. rewrite Hxa, Ham, Z.sub_0_r, (small_size _ Hxh), wrap_small by (unfold in_u; lia).
      by rewrite (proj2 (truthy_true (a + 4096))) by lia.
    + replace (a + 4096) with (a + 1 * 4096) by lia. by rewrite Z_mod_plus_full.
    + apply Hclear; [lia|]. intros b Hb' Hr. left. specialize (Hle b Hb' Hr). lia.
Qed.
(** ** Ranges that are there *)

Lemma RB_NEXT_small t a :
  (∀ b, is_Some (t !! b) → b mod 4096 = 0) → a mod 4096 = 0 →
  match t !! (a + 4096) with
  | Some p => RB_NEXT t a = p
  | None => RB_NEXT t a = nullptr ∨ ∃ b, a + 4096 < b ∧ t !! b = Some (RB_NEXT t a)
  end.
Proof.
  intros Hm Ham. unfold RB_NEXT. pose proof (tree_keys_sorted t) as Hs. set (f := filter (λ x, a < x) (tree_keys t)).
  assert (∀ b, b ∈ f ↔ is_Some (t !! b) ∧ a < b) as Hf.
  { intros b. unfold f. rewrite list_elem_of_filter, tree_keys_elem. tauto. }
  assert (StronglySorted Z.lt f) as Hsf by (unfold f; by apply sorted_filter).
  destruct f as [|b f]; simpl.
  { destruct (t !! (a + 4096)) as [p|] eqn:E; [|by left]. exfalso. apply (not_elem_of_nil (A:=Z) (a + 4096)). apply Hf. rewrite E. split; [done|lia]. }
  destruct (proj1 (Hf b)) as [[q Hq] Hb]; [set_solver|]. rewrite Hq. simpl.
  assert (a + 4096 <= b) as Hge.
  { pose proof (Hm b ltac:(by rewrite Hq)). pose proof (Z.div_mod a 4096 ltac:(lia)). pose proof (Z.div_mod b 4096 ltac:(lia)). lia. }
  destruct (t !! (a + 4096)) as [p|] eqn:E.
  - assert (a + 4096 ∈ b :: f) as Hin by (apply Hf; rewrite E; split; [done|lia]). apply elem_of_cons in Hin as [<-|Hin]; [congruence|].
    apply StronglySorted_cons in Hsf as [Hall _]. rewrite Forall_forall in Hall. specialize (Hall _ Hin). lia.
  - right. exists b. split; [|done]. assert (b ≠ a + 4096) by congruence. lia.
Qed.

(** [n] pages from [addr] on are in the tree. *)
Fixpoint range_there (t : gmap Z Z) (addr : Z) (n : nat) : bool :=
  match n with
  | O => true
  | Datatypes.S n => bool_decide (is_Some (t !! addr)) && range_there t (addr + 4096) n
  end.

Lemma range_there_spec t addr n : range_there t addr n = true ↔ ∀ i, 0 <= i < Z.of_nat n → is_Some (t !! (addr + 4096 * i)).
Proof.
  revert addr. induction n as [|n IH]; intros addr; [split; [lia|done]|]. cbn [range_there].
  rewrite andb_true_iff, bool_decide_eq_true, IH. split.
  - intros [H0 H] i Hi. destruct (decide (i = 0)) as [->|]; [by rewrite Z.mul_0_r, Z.add_0_r|].
    replace (addr + 4096 * i) with (addr + 4096 + 4096 * (i - 1)) by lia. apply H. lia.
  - intros H. split; [specialize (H 0); rewrite Z.mul_0_r, Z.add_0_r in H; apply H; lia|]. intros i Hi.
    replace (addr + 4096 + 4096 * i) with (addr + 4096 * (i + 1)) by lia. apply H. lia.
Qed.

Section whole.
Context (s : vmst) (ctx : Z) (c : context) (base : Z) (b0 : Z).
Context (Hc : ctxs s !! ctx = Some c) (Hsm : small_pages s c) (Hb0 : c_pages c !! base = Some b0) (Hbm : base mod 4096 = 0) (Hbp : 0 < base).
Set Default Proof Using "Type*".

Lemma keys_small : ∀ b, is_Some (c_pages c !! b) → b mod 4096 = 0.
Proof. intros b [p Hp]. by apply (Hsm b p Hp). Qed.

(** One turn of the loop: [curr] is the page before [addr]. *)
Lemma range_mapped_run n fuel addr curr :
  addr + 4096 * Z.of_nat n < 2 ^ 64 → (n < fuel)%nat → base <= addr → addr mod 4096 = 0 →
  (addr = base ∨ c_pages c !! (addr - 4096) = Some curr) →
  range_mapped fuel ctx base (addr + 4096 * Z.of_nat n) b0 addr curr s = Ret (range_there (c_pages c) addr n) s.
Proof.
  revert fuel addr curr. induction n as [|n IH]; intros fuel addr curr Hlim Hfu Hba Ham Hcur.
  { destruct fuel as [|fuel]; [lia|]. cbn [range_mapped range_there]. rewrite (proj2 (Z.ltb_ge addr _)) by lia. done. }
  destruct fuel as [|fuel]; [lia|]. cbn [range_mapped range_there]. rewrite (proj2 (Z.ltb_lt addr _)) by lia. cbn [negb].
  unfold get_ctx. erewrite bind_Ret by (apply load_eq; exact Hc).
  set (next := if addr =? base then b0 else RB_NEXT (c_pages c) (addr - 4096)).
  erewrite (bind_Ret _ _ _ next).
  2:{ unfold next. destruct (Z.eqb_spec addr base) as [|Hne]; [done|]. destruct Hcur as [|Hcur]; [done|].
      destruct (Hsm _ _ Hcur) as (_ & _ & _ & y & Hy & Hya & _). unfold get_page. erewrite bind_Ret by (apply load_eq; exact Hy). by rewrite Hya. }
  assert (match c_pages c !! addr with
          | Some p => next = p
          | None => next = nullptr ∨ ∃ b, addr < b ∧ c_pages c !! b = Some next end) as Hn.
  { unfold next. destruct (Z.eqb_spec addr base) as [->|Hne]; [by rewrite Hb0|]. 
    assert ((addr - 4096) mod 4096 = 0) as Hm by (by rewrite Zminus_mod, Ham).
    pose proof (RB_NEXT_small (c_pages c) (addr - 4096) keys_small Hm) as H. by replace (addr - 4096 + 4096) with addr in H by lia. }
  destruct (c_pages c !! addr) as [p|] eqn:Ep.
  - rewrite Hn. destruct (Hsm _ _ Ep) as (Hp0 & _ & _ & x & Hx & Hxa & Hxh). rewrite (proj2 (truthy_true p) Hp0). cbn [negb].
    unfold get_page. erewrite bind_Ret by (apply load_eq; exact Hx). rewrite Hxa, Z.eqb_refl, (small_size _ Hxh). cbn [negb].
    rewrite wrap_small by (unfold in_u; lia). rewrite bool_decide_true by done. cbn [andb].
    replace (addr + 4096 * Z.of_nat (S n)) with (addr + 4096 + 4096 * Z.of_nat n) by lia. apply IH; try lia.
    + replace (addr + 4096) with (addr + 1 * 4096) by lia. by rewrite Z_mod_plus_full.
    + right. by replace (addr + 4096 - 4096) with addr by lia.
  - rewrite bool_decide_false by (intros [? ?]; done). cbn [andb]. destruct (truthy next) eqn:Et; [|done]. cbn [negb].
    destruct Hn as [->|(b & Hb & Hn)]; [done|]. destruct (Hsm _ _ Hn) as (_ & _ & _ & x & Hx & Hxa & _).
    unfold get_page. erewrite bind_Ret by (apply load_eq; exact Hx). rewrite Hxa, (proj2 (Z.eqb_neq b addr)) by lia. done.
Qed.
End whole.

Lemma align_up_pages size : 0 < size < 2 ^ 63 → ∃ n : nat, (0 < n)%nat ∧ align_up size 4096 = 4096 * Z.of_nat n ∧ size <= 4096 * Z.of_nat n < size + 4096.
Proof.
  intros Hs. pose proof (Z.div_mod size 4096 ltac:(lia)) as Hd. pose proof (Z.mod_pos_bound size 4096 ltac:(lia)) as Hm.
  unfold align_up. destruct (truthy (size mod 4096)) eqn:E.
  - apply truthy_true in E. exists (Z.to_nat (size / 4096 + 1)). pose proof (Z.div_pos size 4096 ltac:(lia) ltac:(lia)).
    rewrite wrap_small by (unfold in_u; lia). rewrite Z2Nat.id by lia. split; [lia|]. lia.
  - assert (size mod 4096 = 0) as E0 by (unfold truthy in E; destruct (Z.eqb_spec (size mod 4096) 0); done).
    exists (Z.to_nat (size / 4096)). pose proof (Z.div_pos size 4096 ltac:(lia) ltac:(lia)). rewrite Z2Nat.id by lia. split; [lia|]. lia.
Qed.

(** ** The lock, taken without touching the thread *)

Lemma ctx_nthr_up s ctx v :
  ctx_ready s ctx v → vkern (Core_SpinlockAcquireExplicit (Some (ContextLock ctx)) IRQL_DISPATCH true) s =
    Ret (acq_irql v) (with_virq (nthr_up (virq s) (ContextLock ctx)) s).
Proof. intros [Hq Hl]. by erewrite vkern_Ret by (by apply acquire_nthr_up). Qed.
Lemma ctx_nthr_down s ctx v s' :
  ctx_ready s ctx v → virq s' = nthr_up (virq s) (ContextLock ctx) →
  vkern (Core_SpinlockRelease (ContextLock ctx) (acq_irql v)) s' = Ret OBOS_STATUS_SUCCESS (with_virq (virq s) s').
Proof. intros [Hq Hl] E. by erewrite vkern_Ret by (by apply (release_nthr_up _ (virq s))). Qed.

(** The check that both operations make, on the range as a whole. *)
Lemma range_check s ctx c base size b0 fuel :
  ctxs s !! ctx = Some c → small_pages s c → c_pages c !! base = Some b0 → base mod 4096 = 0 → 0 < base → 0 < size < 2 ^ 63 →
  base + align_up size 4096 < 2 ^ 64 → (Z.to_nat (align_up size 4096 / 4096) < fuel)%nat →
  range_mapped fuel ctx base (wrap64 (base + align_up size 4096)) b0 base nullptr s =
    Ret (range_there (c_pages c) base (Z.to_nat (align_up size 4096 / 4096))) s.
Proof.
  intros Hc Hsm Hb0 Hbm Hbp Hs Hlim Hfu. destruct (align_up_pages size Hs) as (n & Hn & En & _).
  rewrite wrap_small by (unfold in_u; lia). rewrite En in *. rewrite (Z.mul_comm 4096), Z.div_mul, Nat2Z.id in Hfu |- * by lia.
  rewrite (Z.mul_comm _ 4096). apply (range_mapped_run s ctx c base b0); try done; try lia.
Qed.

(** A range of which a page is missing is neither freed nor protected: both
    operations say that it is not found, and nothing at all changes. *)
Theorem incomplete_range_refused s ctx c v base size prot isPageable i :
  ctx ≠ 0 → ctx_ready s ctx v → ctxs s !! ctx = Some c → small_pages s c → base mod 4096 = 0 → 0 < base → 0 < size < 2 ^ 63 →
  base + align_up size 4096 < 2 ^ 64 → 0 <= i < align_up size 4096 / 4096 → c_pages c !! (base + 4096 * i) = None →
  (prot = OBOS_PROTECTION_SAME_AS_BEFORE → isPageable <= 1) →
  Mm_VirtualMemoryFree ctx base size s = Ret OBOS_STATUS_NOT_FOUND s ∧
  Mm_VirtualMemoryProtect ctx base size prot isPageable s = Ret OBOS_STATUS_NOT_FOUND s.
Proof.
  intros Hctx Hr Hc Hsm Hbm Hbp Hs Hlim Hi Hmiss Hsame.
  assert (range_there (c_pages c) base (Z.to_nat (align_up size 4096 / 4096)) = false) as Hno.
  { destruct (range_there _ _ _) eqn:E; [|done]. apply range_there_spec with (i := i) in E; [|lia]. rewrite Hmiss in E. by destruct E. }
  assert (truthy base = true ∧ truthy size = true) as [Htb Hts] by (split; apply truthy_true; lia).
  split.
  - unfold Mm_VirtualMemoryFree, OBOS_PAGE_SIZE. rewrite Hbm. change (truthy 0) with false. rewrite (proj2 (truthy_true ctx) Hctx), Htb, Hts. cbn [negb orb].
    unfold get_ctx at 1. erewrite bind_Ret by (apply load_eq; exact Hc). 
    destruct (c_pages c !! base) as [b0|] eqn:Eb; [|by rewrite (RB_FIND_none _ _ Eb)]. rewrite !(RB_FIND_some _ _ _ Eb).
    destruct (Hsm _ _ Eb) as (Hb0 & _). rewrite (proj2 (truthy_true b0) Hb0). cbn [negb].
    erewrite bind_Ret by (apply (range_check s ctx c); try done; clear -Hi; change (OBOS_HUGE_PAGE_SIZE / 4096) with 512; generalize dependent (align_up size 4096 / 4096); intros; lia).
    by rewrite Hno.
  - unfold Mm_VirtualMemoryProtect, OBOS_PAGE_SIZE. rewrite Hbm. change (truthy 0) with false. rewrite (proj2 (truthy_true ctx) Hctx), Htb, Hts. cbn [negb orb].
    replace ((prot =? OBOS_PROTECTION_SAME_AS_BEFORE) && (1 <? isPageable)) with false.
    2:{ destruct (Z.eqb_spec prot OBOS_PROTECTION_SAME_AS_BEFORE) as [E|]; [|done]. specialize (Hsame E). symmetry. apply Z.ltb_ge. lia. }
    erewrite bind_Ret by exact (ctx_nthr_up _ _ _ Hr). set (s1 := with_virq _ s).
    unfold get_ctx at 1. erewrite bind_Ret by (apply (load_eq ctxs ctx s1); exact Hc).
    assert ((vkern (Core_SpinlockRelease (ContextLock ctx) (acq_irql v));; mret OBOS_STATUS_NOT_FOUND) s1 = Ret OBOS_STATUS_NOT_FOUND s) as El.
    { erewrite bind_Ret by (apply (ctx_nthr_down s); [exact Hr|reflexivity]). unfold s1. by rewrite with_virq_back. }
    destruct (c_pages c !! base) as [b0|] eqn:Eb; [|rewrite (RB_FIND_none _ _ Eb); exact El]. rewrite !(RB_FIND_some _ _ _ Eb).
    destruct (Hsm _ _ Eb) as (Hb0 & _). rewrite (proj2 (truthy_true b0) Hb0). cbn [negb].
    erewrite bind_Ret by (apply (range_check s1 ctx c); try done; lia). rewrite Hno. exact El.
Qed.

(** ** Ranges in use *)

(** A page of the range is there and not only reserved. *)
Definition in_use (s : vmst) (c : context) (addr : Z) (n : nat) : Prop :=
  ∃ i p x, 0 <= i < Z.of_nat n ∧ c_pages c !! (addr + 4096 * i) = Some p ∧ vpages s !! p = Some x ∧ reserved x = false.

Lemma in_use_S s c addr n :
  in_use s c addr (S n) ↔ (∃ p x, c_pages c !! addr = Some p ∧ vpages s !! p = Some x ∧ reserved x = false) ∨ in_use s c (addr + 4096) n.
Proof.
  split.
  - intros (i & p & x & Hi & Hp & Hx). destruct (decide (i = 0)) as [->|].
    + left. rewrite Z.mul_0_r, Z.add_0_r in Hp. by exists p, x.
    + right. exists (i - 1), p, x. split; [lia|]. split; [|done]. by replace (addr + 4096 + 4096 * (i - 1)) with (addr + 4096 * i) by lia.
  - intros [(p & x & Hp & Hx)|(i & p & x & Hi & Hp & Hx)].
    + exists 0, p, x. split; [lia|]. by rewrite Z.mul_0_r, Z.add_0_r.
    + exists (i + 1), p, x. split; [lia|]. split; [|done]. by replace (addr + 4096 * (i + 1)) with (addr + 4096 + 4096 * i) by lia.
Qed.

Lemma range_in_use_run s ctx c n fuel addr :
  ctxs s !! ctx = Some c → small_pages s c → 0 <= addr → addr + 4096 * Z.of_nat n < 2 ^ 64 → (n < fuel)%nat →
  ∃ b, range_in_use fuel ctx (addr + 4096 * Z.of_nat n) 4096 addr s = Ret b s ∧ (b = true ↔ in_use s c addr n).
Proof.
  intros Hc Hsm. revert fuel addr. induction n as [|n IH]; intros fuel addr H0 Hlim Hfu; (destruct fuel as [|fuel]; [lia|]); cbn [range_in_use].
  { exists false. rewrite (proj2 (Z.ltb_ge addr _)) by lia. split; [done|]. split; [done|]. intros (i & _ & _ & Hi & _). lia. }
  rewrite (proj2 (Z.ltb_lt addr _)) by lia. cbn [negb]. unfold get_ctx. erewrite bind_Ret by (apply load_eq; exact Hc).
  destruct (IH fuel (addr + 4096)) as (b & E & Hb); [lia|lia|lia|]. replace (addr + 4096 + 4096 * Z.of_nat n) with (addr + 4096 * Z.of_nat (S n)) in E by lia.
  rewrite (wrap_small 64 (addr + 4096)) by (unfold in_u; lia). destruct (c_pages c !! addr) as [p|] eqn:Ep.
  - rewrite (RB_FIND_some _ _ _ Ep). destruct (Hsm _ _ Ep) as (Hp0 & _ & _ & x & Hx & _). rewrite (proj2 (truthy_true p) Hp0).
    erewrite bind_Ret by (unfold get_page; erewrite bind_Ret by (apply load_eq; exact Hx); reflexivity).
    destruct (reserved x) eqn:Er; cbn [negb].
    + exists b. split; [exact E|]. rewrite Hb, in_use_S. split; [by right|]. intros [(q & y & Hq & Hy & Hry)|]; [|done]. congruence.
    + exists true. split; [done|]. rewrite in_use_S. split; [|done]. intros _. left. by exists p, x.
  - rewrite (RB_FIND_none _ _ Ep). change (truthy nullptr) with false. erewrite bind_Ret by reflexivity. exists b. split; [exact E|].
    rewrite Hb, in_use_S, Ep. split; [by right|]. intros [(q & y & Hq & _)|]; done.
Qed.

(** The pages are small; there is no file, or it is not looked at. *)
Definition small_request (flags file : Z) : Prop :=
  has_flag flags VMA_FLAGS_HUGE_PAGE = false ∧ (file = nullptr ∨ has_flag flags VMA_FLAGS_RESERVE = true).

(** The bytes of the range: whole pages, and one more for the guard page. *)
Definition range_bytes (size flags : Z) : Z :=
  if has_flag flags VMA_FLAGS_GUARD_PAGE then wrap64 (align_up size 4096 + 4096) else align_up size 4096.

Lemma alloc_enter s ctx v base size prot flags file st :
  ctx ≠ 0 → ctx_ready s ctx v → small_request flags file → base mod 4096 = 0 → 0 < size →
  Mm_VirtualMemoryAlloc ctx base size prot flags file st s =
    alloc_locked ctx base (range_bytes size flags) 4096 prot flags nullptr 0 (acq_irql v) (put_status st OBOS_STATUS_SUCCESS)
      (with_virq (nthr_up (virq s) (ContextLock ctx)) s).
Proof.
  intros Hctx Hr (Hh & Hfile) Hbm Hs. unfold Mm_VirtualMemoryAlloc, flags_page_size.
  replace (if has_flag flags VMA_FLAGS_RESERVE then nullptr else file) with nullptr by (by destruct Hfile as [->| ->]; [destruct (has_flag flags VMA_FLAGS_RESERVE)|]).
  change (truthy nullptr) with false. cbv iota zeta. rewrite (proj2 (truthy_true ctx) Hctx), (proj2 (truthy_true size)) by lia. cbn [negb orb andb].
  rewrite Hh. unfold OBOS_PAGE_SIZE. rewrite Hbm. change (truthy 0) with false.
  erewrite bind_Ret by reflexivity. cbv iota zeta. erewrite bind_Ret by reflexivity. cbv iota beta zeta. change (obos_is_error OBOS_STATUS_SUCCESS) with false. cbv iota.
  rewrite andb_false_r. erewrite bind_Ret by (by apply when_false). erewrite bind_Ret by exact (ctx_nthr_up _ _ _ Hr). done.
Qed.

Lemma place_run s ctx c base n flags :
  ctxs s !! ctx = Some c → small_pages s c → 0 < base → base + 4096 * Z.of_nat n < 2 ^ 64 →
  (in_use s c base n → has_flag flags VMA_FLAGS_HINT = false →
     place_range 2 ctx base (4096 * Z.of_nat n) 4096 flags s = Ret (OBOS_STATUS_IN_USE, nullptr) s) ∧
  (¬ in_use s c base n → place_range 2 ctx base (4096 * Z.of_nat n) 4096 flags s = Ret (OBOS_STATUS_SUCCESS, base) s).
Proof.
  intros Hc Hsm Hb Hlim. destruct (range_in_use_run s ctx c n (S (Z.to_nat (4096 * Z.of_nat n / 4096))) base Hc Hsm) as (b & E & Hbu);
    [lia|lia|rewrite Z.mul_comm, Z.div_mul by lia; lia|].
  cbn [place_range]. rewrite (proj2 (truthy_true base)) by lia. erewrite (bind_Ret (mret _)) by reflexivity. cbn [fst snd].
  change (default OBOS_STATUS_SUCCESS (Some OBOS_STATUS_SUCCESS)) with OBOS_STATUS_SUCCESS. change (obos_is_error OBOS_STATUS_SUCCESS) with false. cbv iota.
  rewrite (wrap_small 64 (base + _)) by (unfold in_u; lia). erewrite bind_Ret by exact E. split.
  - intros ->%Hbu Hh. cbn [negb]. by rewrite Hh.
  - intros Hno. destruct b; [|done]. destruct Hno. by apply Hbu.
Qed.

(** [C40] Memory in use is not allocated again: when a 4 KiB page of the range asked
    for, the guard page included, is there and not only reserved, an allocation with no
    file (or one that only reserves) fails with [OBOS_STATUS_IN_USE], whatever the
    rights, and nothing at all changes. [VMA_FLAGS_HINT], with which another range is
    searched for, and [VMA_FLAGS_HUGE_PAGE] are excluded; the pages of the context are
    of 4 KiB. *)
Theorem alloc_in_use_refused s ctx c v base size prot flags file st n :
  ctx ≠ 0 → ctx_ready s ctx v → ctxs s !! ctx = Some c → small_pages s c → small_request flags file → has_flag flags VMA_FLAGS_HINT = false →
  base mod 4096 = 0 → 0 < base → 0 < size → range_bytes size flags = 4096 * Z.of_nat n → base + 4096 * Z.of_nat n < 2 ^ 64 → in_use s c base n →
  Mm_VirtualMemoryAlloc ctx base size prot flags file st s = Ret (nullptr, put_status st OBOS_STATUS_IN_USE) s.
Proof.
  intros Hctx Hr Hc Hsm Hf Hh Hbm Hb Hs En Hlim Hu. rewrite (alloc_enter s ctx v) by done. set (s1 := with_virq _ s). unfold alloc_locked. rewrite En.
  destruct (place_run s1 ctx c base n flags Hc Hsm Hb Hlim) as [E _].
  erewrite bind_Ret by exact (E Hu Hh). cbn [fst snd]. change (obos_is_error OBOS_STATUS_IN_USE) with true. cbv iota.
  erewrite bind_Ret by (apply (ctx_nthr_down s); [exact Hr|reflexivity]). unfold s1. rewrite with_virq_back. by destruct st.
Qed.

End ranges.
