(* ===== verification/VmReserve.v ===== *)
(** * Reserving a range of virtual memory

    [Mm_VirtualMemoryAlloc] with [VMA_FLAGS_RESERVE], with or without a guard page, against
    an allocator that keeps the laws [HeapLaws]. *)

From S2P Require Import Prelude DList KState Irql ThreadList Schedule Thread Wait Vfs Pmm PmmProofs Paging PagingProofs PagingOps PagingUnmap InitSwap Vmm VmFault VmAlloc VmSwap VmFaultProofs VmAllocProofs.

Definition empty_page : page := mkPage 0 0 0 false zero_prot 0 false false false false false 0 0 0 0 0.

(** What [Mm_Allocator] promises: a new page is an object of its own, zeroed; arrays are
    not part of the state. *)
Class HeapLaws {VH : VmHeap} := {
  hl_page st s : ∃ p, zero_page st s = Ret (p, OBOS_STATUS_SUCCESS) (s <| vpages ::= <[p := empty_page]> |> <| ln_links ::= <[p := unlinked]> |>) ∧
    p ≠ 0 ∧ vpages s !! p = None;
  hl_array n st s : ∃ a, zero_array n st s = Ret (a, OBOS_STATUS_SUCCESS) s ∧ a ≠ 0;
  hl_free_array a n s : free_array a n s = Ret () s
}.

Section reserve.
Context {DH : DpcHandlers} {PE : PagingEnv} {SO : SwapOps} {FLy : FileLayer} `{HL : HeapLaws}.
#[local] Set Default Proof Using "Type".

(** The guard page, if there is one, is the first of the range at [base]. *)
Definition guard_at (flags base addr : Z) : bool := has_flag flags VMA_FLAGS_GUARD_PAGE && (addr =? base).

(** The page that reserving makes for [addr] in the range at [base]. *)
Definition reserved_page (ctx base addr prot flags : Z) : page :=
  let guard := guard_at flags base addr in
  mkPage ctx 0 0 false
    (if guard then zero_prot else
     mkProt false (negb (has_flag prot OBOS_PROTECTION_READ_ONLY)) (has_flag prot OBOS_PROTECTION_USER_PAGE) false false
       (has_flag prot OBOS_PROTECTION_EXECUTABLE) (has_flag prot OBOS_PROTECTION_CACHE_DISABLE) (has_flag prot OBOS_PROTECTION_READ_ONLY))
    0 (negb guard && negb (has_flag flags VMA_FLAGS_NON_PAGED)) false guard true true 0 addr 0 0 0.

Definition reserve_flags (flags : Z) : Prop := has_flag flags VMA_FLAGS_HUGE_PAGE = false ∧ has_flag flags VMA_FLAGS_RESERVE = true.

(** The state with a new page. *)
Definition with_page (s : vmst) (p : Z) (x : page) : vmst := s <| vpages ::= <[p := x]> |> <| ln_links ::= <[p := unlinked]> |>.
Lemma with_page_get s p x : get_page p (with_page s p x) = Ret x (with_page s p x).
Proof. apply get_page_eq. apply lookup_insert_eq. Qed.
Lemma with_page_set s p x f : set_page p f (with_page s p x) = Ret () (with_page s p (f x)).
Proof.
  erewrite set_page_eq by apply lookup_insert_eq. unfold with_page. simpl. by rewrite insert_insert_eq.
Qed.
Lemma with_page_prot s p x f : set_prot p f (with_page s p x) = Ret () (with_page s p (x <| prot ::= f |>)).
Proof. apply with_page_set. Qed.
#[local] Opaque with_page.

Ltac page_step :=
  first [rewrite (bind_Ret _ _ _ _ _ (with_page_set _ _ _ _)) | rewrite (bind_Ret _ _ _ _ _ (with_page_prot _ _ _ _))
        | rewrite (bind_Ret _ _ _ _ _ (with_page_get _ _ _))]; cbv beta.

(** The page at an address that has none. *)
Lemma reserve_page_run s ctx c base prot flags arr i off st :
  ctxs s !! ctx = Some c → reserve_flags flags → arr ≠ 0 → 0 <= base + i * 4096 < 2 ^ 64 → c_pages c !! (base + i * 4096) = None →
  ∃ p, alloc_page ctx base 4096 prot flags nullptr nullptr arr i off st s =
      Ret (p, p, OBOS_STATUS_SUCCESS, false) (with_page s p (reserved_page ctx base (base + i * 4096) prot flags)) ∧
    p ≠ 0 ∧ vpages s !! p = None.
Proof using HL.
  intros Hc [Hh Hres] Harr Hr Hno. destruct (hl_page st s) as (p & E & Hp & Hfr). exists p. split; [|done].
  change (s <| vpages ::= _ |> <| ln_links ::= _ |>) with (with_page s p empty_page) in E.
  unfold alloc_page. rewrite wrap_small by done. unfold get_ctx. erewrite bind_Ret by (apply load_eq; exact Hc). rewrite (RB_FIND_none _ _ Hno).
  change (truthy nullptr) with false. cbn [negb]. erewrite bind_Ret by exact E. cbn [fst snd].
  erewrite bind_Ret by (rewrite when_true by done; rewrite (proj2 (truthy_true arr) Harr); reflexivity).
  rewrite Hh, Hres. do 9 page_step. rewrite andb_false_r.
  rewrite (bind_Ret _ _ _ _ _ (when_false _ _ _ eq_refl)). do 2 page_step.
  match goal with |- context [with_page s p ?y] => set (x := y) end.
  change (reserved x) with true. cbv iota. erewrite bind_Ret by reflexivity. cbn [fst snd].
  unfold reserved_page, guard_at. replace (base + i * 4096 =? base) with (i =? 0) by (apply eq_true_iff_eq; rewrite !Z.eqb_eq; lia).
  destruct (has_flag flags VMA_FLAGS_GUARD_PAGE && (i =? 0)); [by do 3 page_step|].
  erewrite bind_Ret.
  2:{ unfold protect_new. do 3 page_step. change (reserved x) with true. rewrite Hh. cbn [negb orb]. rewrite orb_true_r, andb_false_r. cbn [andb].
      erewrite bind_Ret by (rewrite when_true by done; page_step; apply with_page_set).
      rewrite (bind_Ret _ _ _ _ _ (when_false _ _ _ eq_refl)). do 3 page_step. apply with_page_prot. }
  erewrite bind_Ret by reflexivity. change (obos_is_error OBOS_STATUS_SUCCESS) with false. cbv iota. page_step.
  erewrite bind_Ret by (apply when_false; reflexivity). reflexivity.
Qed.

(** What reserving [n] pages from [addr] on, of the range at [base], leaves: new pages in the tree of the context and
    nothing else. *)
Record pages_reserved (s : vmst) (ctx : Z) (c : context) (base addr : Z) (n : nat) (prot flags : Z) (s' : vmst) (c' : context) : Prop := {
  pr_rest : s' = s <| vpages := vpages s' |> <| ln_links := ln_links s' |> <| ctxs := <[ctx := c']> (ctxs s) |>;
  pr_ctx : c' = c <| c_pages := c_pages c' |>;
  pr_new i : 0 <= i < Z.of_nat n → ∃ p, c_pages c' !! (addr + 4096 * i) = Some p ∧ p ≠ 0 ∧ vpages s !! p = None ∧
    vpages s' !! p = Some (reserved_page ctx base (addr + 4096 * i) prot flags);
  pr_other b : (∀ i, 0 <= i < Z.of_nat n → b ≠ addr + 4096 * i) → c_pages c' !! b = c_pages c !! b;
  pr_old p y : vpages s !! p = Some y → vpages s' !! p = Some y
}.

Lemma reserved_none s ctx c base addr prot flags : ctxs s !! ctx = Some c → pages_reserved s ctx c base addr 0 prot flags s c.
Proof.
  intros Hc. split; try done; [|by destruct c|lia]. rewrite (insert_id (ctxs s)) by done. by destruct s.
Qed.

Lemma reserved_more s ctx c base addr n prot flags p s2 c2 :
  vpages s !! p = None → p ≠ 0 → c_pages c !! addr = None →
  let s1 := (with_page s p (reserved_page ctx base addr prot flags)) <| ctxs ::= <[ctx := c <| c_pages ::= <[addr := p]> |>]> |> in
  pages_reserved s1 ctx (c <| c_pages ::= <[addr := p]> |>) base (addr + 4096) n prot flags s2 c2 →
  pages_reserved s ctx c base addr (S n) prot flags s2 c2.
Proof.
  intros Hfr Hp Hno s1 [R C Nw Ot Old]. #[local] Transparent with_page. split.
  - rewrite R. unfold s1, with_page. simpl. rewrite insert_insert_eq. by destruct s.
  - rewrite C. by destruct c.
  - intros i Hi. destruct (decide (i = 0)) as [->|Hi0].
    + rewrite Z.mul_0_r, Z.add_0_r. exists p. split; [|split; [done|split; [done|]]].
      * rewrite Ot; [simpl; apply lookup_insert_eq|]. intros i Hi'. lia.
      * apply Old. unfold s1, with_page. simpl. apply lookup_insert_eq.
    + destruct (Nw (i - 1)) as (q & Hq & Hq0 & Hqf & Hqn); [lia|]. replace (addr + 4096 + 4096 * (i - 1)) with (addr + 4096 * i) in * by lia.
      exists q. split; [done|]. split; [done|]. split; [|done]. unfold s1, with_page in Hqf. simpl in Hqf. by apply lookup_insert_None in Hqf as [? _].
  - intros b Hb. rewrite Ot.
    + simpl. apply lookup_insert_ne. specialize (Hb 0). lia.
    + intros i Hi. specialize (Hb (i + 1)). lia.
  - intros q y Hq. apply Old. unfold s1, with_page. simpl. rewrite lookup_insert_ne; [done|]. congruence.
Qed.

Lemma alloc_pages_run n s ctx c base prot flags arr i off nodes st :
  ctxs s !! ctx = Some c → reserve_flags flags → arr ≠ 0 → 0 <= base + i * 4096 → base + (i + Z.of_nat n) * 4096 < 2 ^ 64 →
  (∀ j, 0 <= j < Z.of_nat n → c_pages c !! (base + i * 4096 + 4096 * j) = None) →
  ∃ ps s' c', alloc_pages n ctx base 4096 prot flags nullptr nullptr arr i off nodes st s = Ret (ps, None) s' ∧
    pages_reserved s ctx c base (base + i * 4096) n prot flags s' c'.
Proof using HL.
  revert s c i off nodes st. induction n as [|n IH]; intros s c i off nodes st Hc Hf Harr H0 Hlim Hno.
  { exists nodes, s, c. split; [done|]. by apply reserved_none. }
  assert (c_pages c !! (base + i * 4096) = None) as Hn0 by (specialize (Hno 0); rewrite Z.mul_0_r, Z.add_0_r in Hno; apply Hno; lia).
  destruct (reserve_page_run s ctx c base prot flags arr i off st Hc Hf Harr ltac:(lia) Hn0) as (p & E & Hp & Hfr).
  set (s1 := (with_page s p (reserved_page ctx base (base + i * 4096) prot flags)) <| ctxs ::= <[ctx := c <| c_pages ::= <[base + i * 4096 := p]> |>]> |>).
  destruct (IH s1 (c <| c_pages ::= <[base + i * 4096 := p]> |>) (i + 1) (wrap64 (off + 4096)) (nodes ++ [p]) OBOS_STATUS_SUCCESS) as (ps & s2 & c2 & E2 & Hr).
  { apply lookup_insert_eq. }
  { done. }
  { done. }
  { lia. }
  { lia. }
  { intros j Hj. simpl. rewrite lookup_insert_ne by lia. replace (base + (i + 1) * 4096 + 4096 * j) with (base + i * 4096 + 4096 * (j + 1)) by lia. apply Hno. lia. }
  exists ps, s2, c2. split.
  - cbn [alloc_pages]. erewrite bind_Ret by exact E. cbv iota beta. rewrite (bind_Ret _ _ _ _ _ (with_page_get _ _ _)).
    change (pg_addr (reserved_page ctx base (base + i * 4096) prot flags)) with (base + i * 4096).
    unfold set_ctx. erewrite bind_Ret by (apply (store_eq ctxs); exact Hc). refine (eq_trans _ E2). unfold RB_INSERT, s1. simpl. by rewrite Hn0.
  - apply (reserved_more s ctx c base (base + i * 4096) n prot flags p); [done..|]. by replace (base + i * 4096 + 4096) with (base + (i + 1) * 4096) by lia.
Qed.

Lemma reserved_unlocked s i ctx c base addr n prot flags s1 c1 :
  pages_reserved (with_virq i s) ctx c base addr n prot flags s1 c1 → pages_reserved s ctx c base addr n prot flags (with_virq (virq s) s1) c1.
Proof.
  intros [R C Nw Ot Old]. split; try done. rewrite R. simpl. by destruct s as [[[[[] ? ? ? ? ? ? ?] ? ? ? ? ?] ? ? ?] ? ? ? ? ? ? ? ? ?].
Qed.

(** All pages of the context are still small and at their address. *)
Lemma reserved_small s ctx c base addr n prot flags s1 c1 :
  pages_reserved s ctx c base addr n prot flags s1 c1 → small_pages s c → 0 <= addr → addr + 4096 * Z.of_nat n < 2 ^ 64 → addr mod 4096 = 0 → small_pages s1 c1.
Proof.
  intros [R C Nw Ot Old] Hsm H0 Hlim Ham a p Hp.
  destruct (decide (addr <= a < addr + 4096 * Z.of_nat n ∧ (a - addr) mod 4096 = 0)) as [[Hr Hm]|Hout].
  - pose proof (Z.div_mod (a - addr) 4096 ltac:(lia)) as Hd. destruct (Nw ((a - addr) / 4096)) as (q & Hq & Hq0 & _ & Hx); [lia|].
    replace (addr + 4096 * ((a - addr) / 4096)) with a in * by lia. rewrite Hp in Hq. injection Hq as <-. split; [done|]. split; [lia|].
    split; [|eexists; split; [exact Hx|]; split; [done|]; simpl; by destruct (guard_at _ _ _)]. replace a with (addr + (a - addr)) by lia. rewrite Zplus_mod, Ham, Hm. done.
  - rewrite Ot in Hp.
    + destruct (Hsm a p Hp) as (? & ? & ? & x & Hx & ? & ?). split; [done|]. split; [done|]. split; [done|]. exists x. split; [by apply Old|done].
    + intros i Hi ->. apply Hout. split; [lia|]. replace (addr + 4096 * i - addr) with (i * 4096) by lia. apply Z_mod_mult.
Qed.

Lemma reserve_not_swapped flags : has_flag flags VMA_FLAGS_RESERVE = true → has_flag flags (Z.lor VMA_FLAGS_NON_PAGED VMA_FLAGS_RESERVE) = true.
Proof.
  unfold has_flag. rewrite !truthy_true, Z.land_lor_distr_r. intros H E. apply Z.lor_eq_0_iff in E as [_ E]. done.
Qed.

Definition count_reserved (size : Z) (c : context) : context := c <| stat ::= λ m, m <| st_reserved ::= λ k, wrap64 (k + size) |> |>.

(** [C13] Reserving a range of 4 KiB pages none of which is in the context, at a given
    base, with or without a guard page and a hint: the tree of the context has a new
    page object for every page of the range, marked as reserved, not present, with the
    rights asked for (the guard page, which is the first, is marked as such and has no
    rights); every other page of the context, every other page object and the interrupt
    state are as before; the context counts the bytes as reserved, the guard page
    included; and its pages are still well formed. The call returns the base asked for,
    or with a guard page the address behind it. [VMA_FLAGS_HUGE_PAGE] is excluded; a
    file is ignored; the allocator is assumed to have room ([HeapLaws]). *)
Theorem reserve_range s ctx c v base size prot flags file st n :
  ctx ≠ 0 → ctx_ready s ctx v → ctxs s !! ctx = Some c → small_pages s c → reserve_flags flags → base mod 4096 = 0 → 0 < base → 0 < size →
  range_bytes size flags = 4096 * Z.of_nat n → base + 4096 * Z.of_nat n < 2 ^ 64 →
  (∀ i, 0 <= i < Z.of_nat n → c_pages c !! (base + 4096 * i) = None) →
  ∃ s1 c1, pages_reserved s ctx c base base n prot flags s1 c1 ∧ small_pages s1 c1 ∧
    Mm_VirtualMemoryAlloc ctx base size prot flags file st s =
      Ret (if has_flag flags VMA_FLAGS_GUARD_PAGE then wrap64 (base + 4096) else base, put_status st OBOS_STATUS_SUCCESS)
        (s1 <| ctxs ::= <[ctx := count_reserved (4096 * Z.of_nat n) c1]> |>).
Proof using HL.
  intros Hctx Hr Hc Hsm Hf Hbm Hb Hs En Hlim Hno. rewrite (alloc_enter s ctx v); [|try done..]; [|split; [apply Hf|right; apply Hf]]. set (s0 := with_virq _ s). unfold alloc_locked. rewrite En.
  destruct (place_run s0 ctx c base n flags Hc Hsm Hb Hlim) as [_ E]. specialize (E ltac:(intros (i & p & x & Hi & Hp & _); by rewrite Hno in Hp)).
  destruct (hl_array (4096 * Z.of_nat n / 4096 + 0) OBOS_STATUS_SUCCESS s0) as (arr & Ea & Harr).
  destruct (alloc_pages_run n s0 ctx c base prot flags arr 0 0 [] OBOS_STATUS_SUCCESS Hc Hf Harr) as (ps & s1 & c1 & Ep & Hres); [lia|lia| |].
  { intros j Hj. rewrite Z.mul_0_l, Z.add_0_r. by apply Hno. }
  rewrite Z.mul_0_l, Z.add_0_r in Hres. pose proof (reserved_unlocked _ _ _ _ _ _ _ _ _ _ _ Hres) as Hres'.
  exists (with_virq (virq s) s1), c1. split; [exact Hres'|]. split; [eapply reserved_small; [exact Hres'|done|lia|done|done]|].
  erewrite bind_Ret by exact E. cbn [fst snd]. change (obos_is_error OBOS_STATUS_SUCCESS) with false. cbv iota zeta.
  rewrite (Z.mul_comm 4096), Z_mod_mult. change (truthy 0) with false. cbv iota. rewrite (Z.mul_comm _ 4096). erewrite bind_Ret by exact Ea.
  change (truthy nullptr) with false. cbv iota. erewrite bind_Ret by reflexivity. erewrite bind_Ret by reflexivity.
  rewrite Z.add_0_r, (Z.mul_comm 4096), Z.div_mul, Nat2Z.id by lia. cbn [fst snd]. erewrite bind_Ret by exact Ep. cbn [fst snd].
  rewrite (reserve_not_swapped flags) by apply Hf. rewrite (bind_Ret _ _ _ _ _ (when_false _ _ _ eq_refl)). rewrite (proj2 Hf). cbn [negb].
  assert (ctxs s1 !! ctx = Some c1) as Hc1 by (rewrite (pr_rest _ _ _ _ _ _ _ _ _ _ Hres); apply lookup_insert_eq).
  unfold set_stat, set_ctx. erewrite bind_Ret by (apply store_eq; exact Hc1). erewrite bind_Ret by apply hl_free_array.
  erewrite bind_Ret by (apply (ctx_nthr_down s); [exact Hr|rewrite (pr_rest _ _ _ _ _ _ _ _ _ _ Hres); reflexivity]).
  rewrite (Z.mul_comm _ 4096). reflexivity.
Qed.

End reserve.
