(* ===== verification/VolCache.v ===== *)
(** * Reading and writing a volume through the page cache

    The file layer as a client with a descriptor on a block device uses it: seeking,
    reading and writing whole blocks, when the pages of the range are in the page cache.
    The contents of the volume are then the bytes of the cache. *)

From S2P Require Import Prelude Bytes DList Vfs VfsProofs.

(** The descriptor [v_desc] with the flags [v_flags] is open on the vnode [v_x] at
    [v_vnode], a device of the driver [v_drv] with the block size [v_bs]; [v_size] bytes
    of it are in the page cache. *)
Record volume := mkVolume {
  v_desc : Z; v_vnode : Z; v_flags : Z; v_x : vnode; v_drv : Z; v_bs : Z; v_size : Z
}.
Definition v_pc (V : volume) : Z := pc_data (v_x V).

(** What does not change: the volume is a block device open for reading and writing,
    through the cache; the environment reports the block size, its locks are free and
    it has memory for dirty regions. *)
Record volume_env (E : VfsEnv) (V : volume) : Prop := {
  ve_desc : v_desc V ≠ 0;
  ve_flags : has_flag (v_flags V) FD_FLAGS_OPEN = true ∧ has_flag (v_flags V) FD_FLAGS_READ = true ∧
    has_flag (v_flags V) FD_FLAGS_WRITE = true ∧ has_flag (v_flags V) FD_FLAGS_UNCACHED = false;
  ve_type : vtype (v_x V) = VNODE_TYPE_BLK;
  ve_bs : 0 < v_bs V;
  ve_pc : 0 < v_pc V ∧ v_pc V mod OBOS_PAGE_SIZE = 0 ∧ v_pc V + v_size V < 2 ^ 64;
  ve_blk s : get_blk_size (v_drv V) (vdesc (v_x V)) s = Ret (v_bs V) s;
  ve_acquire m s : mutex_acquire m s = Ret OBOS_STATUS_SUCCESS s;
  ve_release m s : mutex_release m s = Ret OBOS_STATUS_SUCCESS s;
  ve_dirty s : ∃ q g, alloc_dirty s = Ret q (s <| dirty ::= <[q := g]> |> <| dirty_links ::= <[q := unlinked]> |>) ∧
    q ≠ 0 ∧ dirty s !! q = None ∧ dirty_links s !! q = None
}.

(** The descriptor is at the offset [o], and [n] more dirty regions can be counted. *)
Record vol_at (V : volume) (n : nat) (o : Z) (s : vst) : Prop := {
  va_fd : fds s !! v_desc V = Some (mkFd (v_vnode V) (v_flags V) o);
  va_vnode : vnodes s !! v_vnode V = Some (v_x V);
  va_drv : vdevs s !! un (v_x V) = Some (v_drv V);
  va_mount : ∃ p, mounts s !! point_of (v_x V) = Some p ∧ in_u 64 (m_nWaiting p);
  va_dirty : ∃ rs, dirty_at s (v_vnode V) rs ∧ Z.of_nat (length rs + n) < 2 ^ 64;
  va_pages a : v_pc V <= a < v_pc V + v_size V → a mod OBOS_PAGE_SIZE = 0 → pages s !! a = Some false;
  va_mem : mapped (vmem s) (v_pc V) (Z.to_nat (v_size V))
}.

Section volume.
Context {E : VfsEnv} {V : volume} (HE : volume_env E V).
#[local] Set Default Proof Using "Type*".

Lemma vol_at_off n o o' s : vol_at V n o s →
  vol_at V n o' (s <| fds ::= <[v_desc V := mkFd (v_vnode V) (v_flags V) o']> |>).
Proof using Type.
  intros [? ? ? ? (rs & [? ?] & ?) ? ?]. split; try done; [simpl; by rewrite lookup_insert_eq|].
  exists rs. split; [by split|done].
Qed.

Lemma vol_at_mem n o m s : vol_at V n o s → mapped m (v_pc V) (Z.to_nat (v_size V)) → vol_at V n o (s <| vmem := m |>).
Proof using Type. intros [? ? ? ? (rs & [? ?] & ?) ? ?] Hm. split; try done. exists rs. split; [by split|done]. Qed.

Lemma vol_at_less n k o s : vol_at V (n + k) o s → vol_at V n o s.
Proof using Type. intros [? ? ? ? (rs & ? & ?) ? ?]. split; try done. exists rs. split; [done|lia]. Qed.

Lemma vol_driver n o s : vol_at V n o s → driver_of (v_x V) s = Ret (v_drv V) s.
Proof. intros []. unfold driver_of. rewrite (ve_type _ _ HE). simpl. by apply load_eq. Qed.

Lemma vol_lock n o s : vol_at V n o s → VfsH_LockMountpoint (point_of (v_x V)) s = Ret true s.
Proof.
  intros []. destruct va_mount0 as (p & Hp & Hw). unfold VfsH_LockMountpoint, set_mount, get_mount.
  erewrite bind_Ret by (by eapply store_eq). erewrite bind_Ret by (apply (ve_acquire _ _ HE)). simpl.
  erewrite bind_Ret by (eapply store_eq; simpl; apply lookup_insert_eq). unfold mret, K_ret. f_equal. simpl.
  rewrite insert_insert_eq. simpl. rewrite wrap64_succ_pred by done.
  rewrite insert_id by (by destruct p). by destruct s.
Qed.

Lemma vol_unlock s : VfsH_UnlockMountpoint (point_of (v_x V)) s = Ret true s.
Proof. unfold VfsH_UnlockMountpoint. by erewrite bind_Ret by (apply (ve_release _ _ HE)). Qed.

Lemma vol_locks : locks_free.
Proof. split; [apply (ve_acquire _ _ HE)|apply (ve_release _ _ HE)]. Qed.

(** The common part of seeking: the new offset. *)
Lemma vol_seek_to n o off whence o' s : vol_at V n o s →
  seek_target (mkFd (v_vnode V) (v_flags V) o) (v_x V) off whence (v_bs V) s = Ret (Some o') s →
  Vfs_FdSeek (v_desc V) off whence s =
    Ret OBOS_STATUS_SUCCESS (s <| fds ::= <[v_desc V := mkFd (v_vnode V) (v_flags V) o']> |>).
Proof.
  intros Hs Ht. pose proof Hs as [Hfd Hvn _ _ _ _ _]. pose proof HE as [Hd (Ho & _) Hty _ _ Hblk _ _ _].
  unfold Vfs_FdSeek, get_fd, get_vnode. rewrite (proj2 (truthy_true _)) by done. cbn [negb].
  erewrite bind_Ret by (by apply load_eq). cbn [fd_flags vn]. rewrite Ho. cbn [negb].
  erewrite bind_Ret by (by apply load_eq). erewrite bind_Ret by (by eapply vol_driver).
  erewrite bind_Ret by apply Hblk. erewrite bind_Ret by exact Ht.
  unfold is_eof. rewrite Hty. simpl. unfold set_fd. by erewrite bind_Ret by (by eapply store_eq).
Qed.

Lemma vol_seek n o o' s : vol_at V n o s → 0 <= o' < 2 ^ 64 → o' mod v_bs V = 0 →
  Vfs_FdSeek (v_desc V) o' SEEK_SET s =
    Ret OBOS_STATUS_SUCCESS (s <| fds ::= <[v_desc V := mkFd (v_vnode V) (v_flags V) o']> |>).
Proof.
  intros Hs Ho Hal. apply (vol_seek_to n o); [done|]. pose proof (ve_bs _ _ HE). unfold seek_target, umod.
  change ((SEEK_SET =? SEEK_SET) || (SEEK_SET =? SEEK_END) || (SEEK_SET =? SEEK_CUR)) with true. cbv iota.
  rewrite (proj2 (Z.eqb_neq (v_bs V) 0)) by lia. erewrite bind_Ret by reflexivity. rewrite wrap_small by done. by rewrite Hal.
Qed.

Lemma vol_advance n o L s : vol_at V n o s → 0 <= o → o mod v_bs V = 0 → 0 < L → L mod v_bs V = 0 → o + L < 2 ^ 64 →
  Vfs_FdSeek (v_desc V) L SEEK_CUR s =
    Ret OBOS_STATUS_SUCCESS (s <| fds ::= <[v_desc V := mkFd (v_vnode V) (v_flags V) (o + L)]> |>).
Proof.
  intros Hs H0 Hal HL HLm Hmax. apply (vol_seek_to n o); [done|]. pose proof (ve_bs _ _ HE). unfold seek_target, umod.
  change ((SEEK_CUR =? SEEK_SET) || (SEEK_CUR =? SEEK_END) || (SEEK_CUR =? SEEK_CUR)) with true. cbv iota.
  rewrite (proj2 (Z.eqb_neq (v_bs V) 0)) by lia. erewrite bind_Ret by reflexivity. rewrite wrap_small by (unfold in_u; lia).
  rewrite HLm. change (truthy 0) with false. cbv iota. cbn [offset].
  change (SEEK_CUR =? SEEK_SET) with false. change (SEEK_CUR =? SEEK_END) with false. cbv iota zeta.
  rewrite wrap_small by (unfold in_u; lia). erewrite bind_Ret by reflexivity.
  rewrite Z.add_mod, Hal, HLm by lia. change ((0 + 0)) with 0. rewrite Z.mod_0_l by lia. unfold mret, K_ret. do 2 f_equal. lia.
Qed.

(** No page of the range has to be read in. *)
Lemma no_empty_pages s fuel a top : (∀ b, a <= b < top → b mod OBOS_PAGE_SIZE = 0 → pages s !! b = Some false) →
  a mod OBOS_PAGE_SIZE = 0 → top <= a + OBOS_PAGE_SIZE * Z.of_nat fuel → empty_pages fuel a top s = Ret [] s.
Proof using Type.
  revert a. induction fuel as [|fuel IH]; intros a Hp Ha Ht; cbn [empty_pages].
  - by rewrite (proj2 (Z.ltb_ge _ _)) by lia.
  - destruct (Z.ltb_spec a top) as [Hlt|]; [|done]. cbn [negb]. erewrite bind_Ret by apply gets_eq.
    rewrite (Hp a) by lia. unfold OBOS_PAGE_SIZE in *. rewrite (bind_Ret _ _ _ [] s); [done|]. apply IH; [|rewrite Z.add_mod, Ha by lia; done|lia].
    intros b Hb. apply Hp. lia.
Qed.

Lemma vol_entry n o L s : vol_at V n o s → 0 <= o → 0 < L → o + L <= v_size V →
  VfsH_PageCacheGetEntry (v_vnode V) o L s = Ret (v_pc V + o) s.
Proof.
  intros Hs H0 HL Hsz. pose proof Hs as [_ Hvn _ _ _ Hpg _]. pose proof HE as [_ _ _ Hbs (Hpc & Hal & Hmax) Hblk _ _ _].
  unfold VfsH_PageCacheGetEntry, get_vnode. erewrite bind_Ret by (by apply load_eq).
  fold (v_pc V). rewrite (proj2 (truthy_true (v_pc V))) by lia. cbn [negb when]. erewrite bind_Ret by reflexivity.
  erewrite bind_Ret by (by apply load_eq). fold (v_pc V). cbv zeta. rewrite (wrap_small 64 (v_pc V + o)) by (unfold in_u; lia).
  set (b := v_pc V + o). assert (0 <= b mod OBOS_PAGE_SIZE < OBOS_PAGE_SIZE) as Hm by (apply Z.mod_pos_bound; done).
  assert (v_pc V <= b - b mod OBOS_PAGE_SIZE) as Hlow.
  { subst b. unfold OBOS_PAGE_SIZE in *. pose proof (Z.div_mod (v_pc V) 4096). pose proof (Z.div_mod (v_pc V + o) 4096).
    assert (v_pc V / 4096 <= (v_pc V + o) / 4096) by (apply Z.div_le_mono; lia). lia. }
  rewrite (wrap_small 64 (b - _ + _)) by (unfold in_u; lia).
  erewrite (bind_Ret _ _ _ [] s).
  2: { apply no_empty_pages.
       - intros c Hc. apply Hpg. lia.
       - unfold OBOS_PAGE_SIZE in *. pose proof (Z.div_mod b 4096).
         replace (b - b mod 4096) with (b / 4096 * 4096) by lia. apply Z_mod_mult.
       - unfold OBOS_PAGE_SIZE in *. pose proof (Z.div_mod L 4096). pose proof (Z.mod_pos_bound L 4096).
         rewrite Z2Nat.id by lia. lia. }
  erewrite bind_Ret by (by eapply vol_driver). erewrite bind_Ret by apply Hblk. by erewrite bind_Ret by reflexivity.
Qed.

(** ** Dirty regions *)

Lemma first_region_in P rs : first_region P rs ≠ 0 → ∃ r, (first_region P rs, r) ∈ rs.
Proof using Type.
  induction rs as [|[p r] rs IH]; [done|]. rewrite first_region_cons. destruct (P r); intros H.
  - exists r. apply list_elem_of_here.
  - destruct (IH H) as [r' ?]. exists r'. by apply list_elem_of_further.
Qed.

(** A region grows. *)
Lemma dirty_grow s v rs p r f : dirty_at s v rs → (p, r) ∈ rs →
  dirty_at (s <| dirty := <[p := f r]> (dirty s) |>) v ((λ pr, (pr.1, if decide (pr.1 = p) then f r else pr.2)) <$> rs).
Proof using Type.
  intros [(l & Hl & Hrep) Hr] Hin. split; simpl.
  - exists l. split; [done|]. rewrite <- list_fmap_compose. done.
  - intros q g ([q' g'] & [= -> ->] & Hq)%list_elem_of_fmap. simpl. case_decide as Heq.
    + by rewrite Heq, lookup_insert_eq.
    + rewrite lookup_insert_ne by done. by apply Hr.
Qed.

Lemma vol_at_dirty n m o s s' rs : vol_at V m o s → dirty_at s' (v_vnode V) rs → Z.of_nat (length rs + n) < 2 ^ 64 →
  fds s' = fds s → vnodes s' = vnodes s → vdevs s' = vdevs s → mounts s' = mounts s → pages s' = pages s → vmem s' = vmem s →
  vol_at V n o s'.
Proof using Type.
  intros [] Hda Hlen Efd Evn Evd Em Ep Emem. split; rewrite ?Efd, ?Evn, ?Evd, ?Em, ?Ep, ?Emem; try done. by exists rs.
Qed.

(** Whichever region covers the write, there is one afterwards. *)
Lemma vol_dirty n o off size s : vol_at V (S n) o s →
  ∃ d s', VfsH_PCDirtyRegionCreate (v_vnode V) off size s = Ret d s' ∧ d ≠ 0 ∧ vol_at V n o s' ∧ vmem s' = vmem s.
Proof.
  intros Hs. pose proof Hs as [_ _ _ _ (rs & Hda & Hlen) _ _]. pose proof vol_locks as Hlk.
  unfold VfsH_PCDirtyRegionCreate, get_dirty, set_dirty. pose proof Hda as [(l & Hl & Hrep) Hr].
  assert (vol_at V n o s) as Hs' by (apply (vol_at_less n 1); by replace (n + 1)%nat with (S n) by lia).
  setoid_rewrite (bind_Ret _ _ _ _ _ (lookup_dirty_eq _ _ _ _ Hlk Hda)). fold (contains off).
  set (p := first_region (contains off) rs).
  eassert (∃ fit : bool, (if truthy p then _ else _) s = Ret fit s ∧ (fit = true → p ≠ 0)) as (fit & Hfit & Hp).
  2: setoid_rewrite (bind_Ret _ _ _ _ _ Hfit).
  { destruct (decide (p = 0)) as [->|Hp]; [by exists false|]. rewrite (proj2 (truthy_true p)) by done.
    destruct (first_region_in _ _ Hp) as [r Hin]. fold p in Hin. eexists. split; [|done].
    erewrite bind_Ret by (apply load_eq; by eapply da_regions). reflexivity. }
  destruct fit; [exists p, s; by eauto|].
  setoid_rewrite (bind_Ret _ _ _ _ _ (lookup_dirty_eq _ _ _ _ Hlk Hda)). fold (ends_at off). clear p Hfit Hp.
  destruct (decide (first_region (ends_at off) rs = 0)) as [->|Hp].
  - change (truthy 0) with false. cbv iota. destruct (ve_dirty _ _ HE s) as (q & g & Halloc & Hq & Hfr & Hfl).
    set (h1 := <[q := unlinked]> (dirty_links s)).
    assert (q ∉ rs.*1) as Hnin.
    { intros ([q' r] & -> & Hin)%list_elem_of_fmap. apply Hr in Hin. simpl in Hfr. congruence. }
    assert (dl_rep h1 l rs.*1) as Hrep1.
    { eapply dl_rep_frame; [|exact Hrep]. intros y Hy. unfold h1. rewrite lookup_insert_ne; [done|]. intros <-. done. }
    destruct (LIST_APPEND_spec h1 l rs.*1 q) as (h' & l' & Happ & Hrep' & _); try done.
    { unfold h1. by rewrite lookup_insert_eq. }
    { rewrite length_fmap. lia. }
    eexists q, _. split.
    { erewrite bind_Ret by exact Halloc.
      do 3 erewrite bind_Ret by (eapply store_eq; apply lookup_insert_eq).
      erewrite bind_Ret by (apply (ve_acquire _ _ HE)).
      erewrite bind_Ret.
      2: { unfold dirty_list_op. erewrite bind_Ret by (apply load_eq; exact Hl). erewrite bind_Ret by apply gets_eq.
           erewrite bind_Ret by (apply deref_opt_eq; exact Happ). apply modify_eq. }
      erewrite bind_Ret by (apply (ve_release _ _ HE)). reflexivity. }
    split; [done|]. split; [|done].
    apply (vol_at_dirty n (S n) o s _ (rs ++ [(q, mkDirty off size (v_vnode V))])); try done.
    2: { rewrite length_app. simpl. lia. }
    split; simpl.
    + exists l'. rewrite lookup_insert_eq. split; [done|]. by rewrite fmap_app.
    + intros p r [Hin|[= -> ->]%list_elem_of_singleton]%elem_of_app; rewrite !insert_insert_eq.
      * rewrite lookup_insert_ne; [by apply Hr|]. intros <-. apply Hr in Hin. congruence.
      * by rewrite lookup_insert_eq.
  - rewrite (proj2 (truthy_true _)) by done. destruct (first_region_in _ _ Hp) as [r Hin].
    eexists _, _. split.
    { erewrite bind_Ret by (eapply store_eq; by apply Hr). reflexivity. }
    split; [done|]. split; [|done]. eapply (vol_at_dirty n (S n) o s); try done; [by eapply dirty_grow|rewrite length_fmap; lia].
Qed.

(** ** Blocks *)

(** [Vfs_FdRead] of whole blocks copies them from the cache. *)
Lemma vol_read n o L buf l s : vol_at V n o s → 0 <= o → o mod v_bs V = 0 → 0 < L → L mod v_bs V = 0 → o + L <= v_size V → o + L < 2 ^ 64 →
  buf ≠ 0 → Z.of_nat (length l) = L → bytes_at (vmem s) (v_pc V + o) l → mapped (vmem s) buf (length l) →
  disjoint_blocks buf (length l) (v_pc V + o) (length l) →
  ∃ s', Vfs_FdRead (v_desc V) buf L None s = Ret (OBOS_STATUS_SUCCESS, None) s' ∧
    vol_at V n (o + L) s' ∧ vmem s' = write_bytes (vmem s) buf l.
Proof.
  intros Hs H0 Hal HL HLm Hsz Hmax Hbuf Hlen Hl Hm Hdis. pose proof Hs as [Hfd Hvn _ _ (rs & Hda & _) _ Hmem].
  pose proof HE as [Hd (Ho & Hrd & _ & Hun) Hty Hbs (Hpc & _) Hblk Hacq Hrel _].
  set (s1 := s <| vmem := write_bytes (vmem s) buf l |>).
  assert (vol_at V n o s1) as Hs1 by (apply vol_at_mem; [done|by apply write_bytes_mapped]).
  eexists. split; [|split; [exact (vol_at_off n o (o + L) s1 Hs1)|reflexivity]].
  unfold Vfs_FdRead, get_fd, get_vnode. rewrite (proj2 (truthy_true (v_desc V))), (proj2 (truthy_true buf)) by done. cbn [negb orb].
  erewrite bind_Ret by (by apply load_eq). cbn [fd_flags vn offset].
  rewrite Ho, (proj2 (truthy_true L)) by lia. cbn [negb]. erewrite bind_Ret by (by apply load_eq).
  unfold is_eof. rewrite Hty, Hrd, Hun. change (negb (VNODE_TYPE_BLK =? VNODE_TYPE_REG)) with true.
  change (VNODE_TYPE_BLK =? VNODE_TYPE_REG) with false. rewrite andb_false_r. cbv iota zeta. cbn [negb].
  erewrite (bind_Ret _ _ _ (OBOS_STATUS_SUCCESS, None) s1).
  2: { unfold cached_read, get_fd, get_vnode. erewrite bind_Ret by (by apply load_eq). cbn [vn offset].
       erewrite bind_Ret by (apply lookup_dirty_eq; [apply vol_locks|exact Hda]).
       erewrite (bind_Ret _ _ _ () s) by (unfold when; case_match; [erewrite bind_Ret by apply Hacq|]; done).
       erewrite bind_Ret by (by apply load_eq). erewrite bind_Ret by (by eapply vol_lock). cbn [negb].
       erewrite bind_Ret by (by eapply vol_entry). rewrite <- Hlen.
       erewrite bind_Ret by (by apply (memcpy_eq (S := vst) l)). fold s1.
       erewrite (bind_Ret _ _ _ () s1) by (unfold when; case_match; [erewrite bind_Ret by apply Hrel|]; done).
       by erewrite bind_Ret by apply vol_unlock. }
  simpl fst. unfold obos_is_success. rewrite bool_decide_eq_true_2 by done. unfold when.
  erewrite bind_Ret by (erewrite bind_Ret by (by eapply vol_advance); reflexivity). done.
Qed.

(** [Vfs_FdWrite] of whole blocks copies them to the cache. *)
Lemma vol_write n o L buf l s : vol_at V (S n) o s → 0 <= o → o mod v_bs V = 0 → 0 < L → L mod v_bs V = 0 → o + L <= v_size V → o + L < 2 ^ 64 →
  buf ≠ 0 → Z.of_nat (length l) = L → bytes_at (vmem s) buf l → disjoint_blocks buf (length l) (v_pc V + o) (length l) →
  ∃ s', Vfs_FdWrite (v_desc V) buf L None s = Ret (OBOS_STATUS_SUCCESS, None) s' ∧
    vol_at V n (o + L) s' ∧ vmem s' = write_bytes (vmem s) (v_pc V + o) l.
Proof.
  intros Hs H0 Hal HL HLm Hsz Hmax Hbuf Hlen Hl Hdis. pose proof Hs as [Hfd Hvn _ _ _ _ Hmem].
  pose proof HE as [Hd (Ho & _ & Hwr & Hun) Hty Hbs (Hpc & _) Hblk Hacq Hrel _].
  destruct (vol_dirty n o o L s Hs) as (d & s1 & Hdirty & Hdn & Hs1 & Em1).
  set (s2 := s1 <| vmem := write_bytes (vmem s1) (v_pc V + o) l |>).
  assert (vol_at V n o s2) as Hs2 by (apply vol_at_mem; [done|apply write_bytes_mapped; by rewrite Em1]).
  eexists. split; [|split; [exact (vol_at_off n o (o + L) s2 Hs2)|cbn; by rewrite Em1]].
  unfold Vfs_FdWrite, get_fd, get_vnode. rewrite (proj2 (truthy_true (v_desc V))), (proj2 (truthy_true buf)) by done. cbn [negb orb].
  erewrite bind_Ret by (by apply load_eq). cbn [fd_flags vn offset].
  rewrite Ho, (proj2 (truthy_true L)) by lia. cbn [negb]. erewrite bind_Ret by (by apply load_eq).
  unfold is_eof. rewrite Hty, Hwr, Hun. change (negb (VNODE_TYPE_BLK =? VNODE_TYPE_REG)) with true. cbv iota. cbn [negb].
  erewrite (bind_Ret _ _ _ (OBOS_STATUS_SUCCESS, None) s2).
  2: { unfold cached_write, get_fd, get_vnode. erewrite bind_Ret by (by apply load_eq). cbn [vn offset].
       erewrite bind_Ret by (by apply load_eq). erewrite bind_Ret by (by eapply vol_lock). cbn [negb].
       erewrite bind_Ret by exact Hdirty. rewrite (proj2 (truthy_true d)) by done. erewrite bind_Ret by reflexivity.
       erewrite bind_Ret by apply Hacq. erewrite bind_Ret by (by eapply vol_entry). rewrite <- Hlen.
       erewrite bind_Ret.
       2: { apply (memcpy_eq (S := vst) l).
            - simpl. by rewrite Em1.
            - simpl. rewrite Em1. intros i Hi. replace (v_pc V + o + Z.of_nat i) with (v_pc V + Z.of_nat (Z.to_nat o + i)) by lia. apply Hmem. lia.
            - unfold disjoint_blocks in *. lia. }
       fold s2. erewrite bind_Ret by apply vol_unlock. by erewrite bind_Ret by apply Hrel. }
  simpl fst. unfold obos_is_success. rewrite bool_decide_eq_true_2 by done. unfold when.
  erewrite bind_Ret.
  2: { erewrite bind_Ret by (apply load_eq; apply (va_vnode _ _ _ _ Hs2)). cbv zeta. rewrite Hty.
       change (VNODE_TYPE_BLK =? VNODE_TYPE_REG) with false. rewrite andb_false_r. erewrite bind_Ret by reflexivity.
       erewrite bind_Ret by (by eapply vol_advance). reflexivity. }
  done.
Qed.

End volume.
