(* ===== verification/Fat.v ===== *)
(** * The FAT driver: the file allocation table and the free clusters
    ([src/src/drivers/generic/slowfat]: [cls_alloc.c], [alloc.h], [structs.h], the end
    of [probe.c]; the files are in [FatIo])

    The volume is a file descriptor of [Vfs]; sectors are read into and written from
    byte memory.  Volumes and nodes of the list of free clusters are objects by address.
    The driver's allocator is [FatAlloc]. *)

From S2P Require Import Prelude Bytes DList Vfs Partition.

(** ** Data *)

(** The values of [fatType]; [probe] stores no other. *)
Inductive fat_type := FAT32_VOLUME | FAT16_VOLUME | FAT12_VOLUME.
#[global] Instance fat_type_eq_dec : EqDecision fat_type.
Proof. solve_decision. Defined.

(** Names that other structures use too carry the prefix [fn_]. *)
Record fat_freenode := mkFreeNode { fn_cluster : Z; fn_nClusters : Z; fn_next : Z; fn_prev : Z }.
#[export] Instance eta_fat_freenode : Etable fat_freenode :=
  λ r, mkFreeNode (fn_cluster r) (fn_nClusters r) (fn_next r) (fn_prev r).

(** [nFATs], [reservedSectorCount], [bytesPerSector] and [sectorsPerCluster] are fields of
    [*bpb]; the last four are those of [freelist]. *)
Record fat_cache := mkFatCache {
  fatType : fat_type;
  nFATs : Z;
  reservedSectorCount : Z;
  bytesPerSector : Z;
  sectorsPerCluster : Z;
  FirstDataSector : Z;
  volume_fd : Z;
  CountofClusters : Z;
  fat_blkSize : Z;
  fatSz : Z;
  fl_head : Z;
  fl_tail : Z;
  fl_nNodes : Z;
  freeClusterCount : Z
}.
#[export] Instance eta_fat_cache : Etable fat_cache :=
  λ r, mkFatCache (fatType r) (nFATs r) (reservedSectorCount r) (bytesPerSector r) (sectorsPerCluster r) (FirstDataSector r) (volume_fd r)
    (CountofClusters r) (fat_blkSize r) (fatSz r) (fl_head r) (fl_tail r) (fl_nNodes r) (freeClusterCount r).

(** [mid_bytes] and [mod_bytes] are the fields, all bytes, that the code only copies:
    [resv] to [access_date], and [last_mod_time] and [last_mod_date]. *)
Record fat_dirent := mkDirent {
  filename_83 : list Z; attribs : Z; mid_bytes : list Z; first_cluster_high : Z; mod_bytes : list Z;
  first_cluster_low : Z; d_filesize : Z
}.
#[export] Instance eta_fat_dirent : Etable fat_dirent :=
  λ r, mkDirent (filename_83 r) (attribs r) (mid_bytes r) (first_cluster_high r) (mod_bytes r) (first_cluster_low r) (d_filesize r).
Definition READ_ONLY : Z := 1.
Definition DIRECTORY : Z := 16.

(** The name and the path are not modelled; [fdc_head] to [fdc_parent] are [tree_info]. *)
Record fat_dirent_cache := mkDirentCache {
  d_data : fat_dirent; dirent_fileoff : Z; dirent_offset : Z; d_owner : Z;
  fdc_head : Z; fdc_tail : Z; nChildren : Z; fdc_next_child : Z; fdc_prev_child : Z; fdc_parent : Z
}.
#[export] Instance eta_fat_dirent_cache : Etable fat_dirent_cache :=
  λ r, mkDirentCache (d_data r) (dirent_fileoff r) (dirent_offset r) (d_owner r) (fdc_head r) (fdc_tail r) (nChildren r)
    (fdc_next_child r) (fdc_prev_child r) (fdc_parent r).

Record fat_entry_addr := mkEntryAddr { fea_lba : Z; fea_offset : Z }.

Inductive iterate_decision := ITERATE_DECISION_CONTINUE | ITERATE_DECISION_STOP.

Definition UINT32_MAX : Z := 2 ^ 32 - 1.

Record fatst := mkFatst {
  fv : vst; volumes : gmap Z fat_cache; freenodes : gmap Z fat_freenode; dirents : gmap Z fat_dirent_cache
}.
#[export] Instance eta_fatst : Etable fatst := λ r, mkFatst (fv r) (volumes r) (freenodes r) (dirents r).

#[global, program] Instance fatst_HasMem : HasMem fatst :=
  {| mem_of := λ s, vmem (fv s); mem_upd := λ m s, s <| fv ::= λ v, v <| vmem := m |> |> |}.
Solve Obligations with (intros; by repeat match goal with s : fatst |- _ => destruct s as [[] ? ? ?] end).

(** [FATAllocator]: blocks of bytes, zeroed or not, and zeroed nodes. *)
Class FatAlloc := {
  fat_alloc : Z → K fatst Z;
  fat_zalloc : Z → K fatst Z;
  fat_free : Z → Z → K fatst ();
  node_zalloc : K fatst Z;
  node_free : Z → K fatst ()
}.

(** A routine of the file layer. *)
Definition file {A} (m : K vst A) : K fatst A := zoom fv (λ v s, s <| fv := v |>) m.

Definition get_volume (v : Z) : K fatst fat_cache := load volumes v.
Definition set_volume (v : Z) (f : fat_cache → fat_cache) : K fatst () :=
  store volumes (λ m s, s <| volumes := m |>) v f.
Definition get_node (p : Z) : K fatst fat_freenode := load freenodes p.
Definition set_node (p : Z) (f : fat_freenode → fat_freenode) : K fatst () :=
  store freenodes (λ m s, s <| freenodes := m |>) p f.

(** The bytes of a little-endian number, and storing it. *)
Fixpoint le_bytes (n : nat) (v : Z) : list Z :=
  match n with O => [] | Datatypes.S n => v mod 256 :: le_bytes n (v / 256) end.
Definition put_le (n : nat) (p v : Z) : K fatst () := store_bytes p (le_bytes n v).

(** ** Entries of the table *)

Definition GetFatEntryAddrForCluster (cache cluster : Z) : K fatst fat_entry_addr :=
  c ← get_volume cache;
  let fatOffset := match fatType c with
                   | FAT32_VOLUME => wrap32 (cluster * 4)
                   | FAT16_VOLUME => wrap32 (cluster * 2)
                   | FAT12_VOLUME => wrap32 (cluster + cluster / 2)
                   end in
  q ← file (udiv fatOffset (bytesPerSector c));
  r ← file (umod fatOffset (bytesPerSector c));
  mret (mkEntryAddr (wrap32 (reservedSectorCount c + q)) r).

Definition GetClusterFromFatEntryAddr (cache : Z) (addr : fat_entry_addr) : K fatst Z :=
  c ← get_volume cache;
  mret (wrap32 (wrap64 (fea_lba addr * bytesPerSector c - reservedSectorCount c) + fea_offset addr)).

Definition GetFat12Entry (val valCluster : Z) : Z :=
  if truthy (valCluster mod 2) then Z.land val 0xfff else Z.land (Z.shiftr val 4) 0xfff.

(** The [ent] of the entry at [p]: 28 bits of a 4-byte, 16 bits of a 2-byte and 12 bits
    of a 2-byte structure. *)
Definition read_ent (t : fat_type) (p cluster : Z) : K fatst Z :=
  match t with
  | FAT32_VOLUME => ent ← get_le 4 p; mret (ent mod 2 ^ 28)
  | FAT16_VOLUME => get_le 2 p
  | FAT12_VOLUME => val ← get_le 2 p; mret (GetFat12Entry val cluster)
  end.

(** Reading the structure, assigning [v] to its [ent] and copying it back.  The bits of a
    [fat32_entry] above [ent] stay; a [fat12_entry] is made anew, with zeroes in them. *)
Definition write_ent (t : fat_type) (p v : Z) : K fatst () :=
  match t with
  | FAT32_VOLUME => ent ← get_le 4 p; put_le 4 p (ent - ent mod 2 ^ 28 + v mod 2 ^ 28)
  | FAT16_VOLUME => get_le 2 p;; put_le 2 p (wrap16 v)
  | FAT12_VOLUME => get_le 2 p;; put_le 2 p (v mod 2 ^ 12)
  end.

Section ops.
Context {E : VfsEnv} {FA : FatAlloc}.

(** The sector is read only when the descriptor is not where it begins, which is taken
    to mean that it is in the buffer. *)
Definition isClusterFree (volume cluster sector : Z) : K fatst bool :=
  addr ← GetFatEntryAddrForCluster volume cluster;
  c ← get_volume volume;
  let pos := wrap64 (fea_lba addr * fat_blkSize c) in
  off ← file (Vfs_FdTellOff (volume_fd c));
  when (negb (off =? pos)) (
    file (Vfs_FdSeek (volume_fd c) pos SEEK_SET);;
    file (Vfs_FdRead (volume_fd c) sector (fat_blkSize c) None);; mret ());;
  file (Vfs_FdSeek (volume_fd c) pos SEEK_SET);;
  ent ← read_ent (fatType c) (sector + fea_offset addr) cluster;
  mret (negb (truthy ent)).

Definition isLastCluster (volume cluster : Z) : K fatst bool :=
  c ← get_volume volume; mret (CountofClusters c <=? cluster).

(** Writing the sector to the [n] copies of the table from the [i]th on. *)
Fixpoint write_fats (n : nat) (i volume lba sector : Z) : K fatst () :=
  match n with
  | O => mret ()
  | Datatypes.S n =>
      c ← get_volume volume;
      file (Vfs_FdSeek (volume_fd c) (wrap64 ((lba + fatSz c * i) * fat_blkSize c)) SEEK_SET);;
      file (Vfs_FdWrite (volume_fd c) sector (fat_blkSize c) None);;
      write_fats n (i + 1) volume lba sector
  end.

(** The body [markAllocated], [markFree] and [markEnd] have in common. *)
Definition mark (volume cluster : Z) (v : fat_type → Z) : K fatst () :=
  addr ← GetFatEntryAddrForCluster volume cluster;
  c ← get_volume volume;
  sector ← fat_zalloc (fat_blkSize c);
  file (Vfs_FdSeek (volume_fd c) (wrap64 (fea_lba addr * fat_blkSize c)) SEEK_SET);;
  file (Vfs_FdRead (volume_fd c) sector (fat_blkSize c) None);;
  write_ent (fatType c) (sector + fea_offset addr) (v (fatType c));;
  write_fats (Z.to_nat (nFATs c)) 0 volume (fea_lba addr) sector;;
  fat_free sector (fat_blkSize c).

Definition markAllocated (volume cluster : Z) : K fatst () := mark volume cluster (λ _, wrap32 (cluster + 1)).
Definition markFree (volume cluster : Z) : K fatst () := mark volume cluster (λ _, 0).
Definition end_mark (t : fat_type) : Z :=
  match t with FAT32_VOLUME => 0x0FFFFFF8 | FAT16_VOLUME => 0xFFF8 | FAT12_VOLUME => 0x0FF8 end.
Definition markEnd (volume cluster : Z) : K fatst () := mark volume cluster end_mark.

(** ** Allocating and freeing clusters *)

(** [while (node && node->nClusters < nClusters) node = node->prev;] *)
Fixpoint find_node (fuel : nat) (node nClusters : Z) : K fatst Z :=
  if negb (truthy node) then mret nullptr else
  match fuel with
  | O => stop Hang
  | Datatypes.S fuel =>
      n ← get_node node;
      if fn_nClusters n <? nClusters then find_node fuel (fn_prev n) nClusters else mret node
  end.

(** The source assigns [node->prev] to [node->prev->next]. *)
Definition unlink_node (volume node : Z) : K fatst () :=
  n ← get_node node;
  when (truthy (fn_prev n)) (set_node (fn_prev n) (λ m, m <| fn_next := fn_prev n |>));;
  n ← get_node node;
  when (truthy (fn_next n)) (set_node (fn_next n) (λ m, m <| fn_prev := fn_prev n |>));;
  n ← get_node node;
  c ← get_volume volume;
  when (fl_head c =? node) (set_volume volume (λ c, c <| fl_head := fn_next n |>));;
  when (fl_tail c =? node) (set_volume volume (λ c, c <| fl_tail := fn_prev n |>));;
  set_volume volume (λ c, c <| fl_nNodes ::= λ k, wrap64 (k - 1) |>);;
  node_free node.

(** The loops over clusters, [n] of them from [i] on. *)
Fixpoint mark_run (n : nat) (i volume cluster : Z) : K fatst () :=
  match n with
  | O => mret ()
  | Datatypes.S n => markAllocated volume (wrap32 (cluster + i));; mark_run n (i + 1) volume cluster
  end.

Definition AllocateClusters (volume nClusters : Z) : K fatst Z :=
  c ← get_volume volume;
  if freeClusterCount c <? nClusters then mret UINT32_MAX else
  m ← gets freenodes;
  node ← find_node (size m + 1) (fl_tail c) nClusters;
  if negb (truthy node) then mret UINT32_MAX else
  set_node node (λ n, n <| fn_nClusters ::= λ k, wrap32 (k - nClusters) |>);;
  n ← get_node node;
  let cluster := wrap32 (fn_cluster n + fn_nClusters n) in
  when (negb (truthy (fn_nClusters n))) (unlink_node volume node);;
  mark_run (Z.to_nat nClusters) 0 volume cluster;;
  markEnd volume (wrap32 (cluster + wrap64 (nClusters - 1)));;
  set_volume volume (λ c, c <| freeClusterCount ::= λ k, wrap64 (k - nClusters) |>);;
  mret cluster.

Definition ExtendClusters (volume cluster nClusters oldClusterCount : Z) : K fatst bool := mret false.

Fixpoint free_run (n : nat) (i volume cluster : Z) : K fatst () :=
  match n with
  | O => mret ()
  | Datatypes.S n =>
      last ← isLastCluster volume cluster;
      if (last : bool) then mret () else
      markFree volume (wrap32 (cluster + i));; free_run n (i + 1) volume cluster
  end.

(** Appending the node [curr] to the free list of the volume. *)
Definition append_node (volume curr : Z) : K fatst () :=
  c ← get_volume volume;
  when (negb (truthy (fl_head c))) (set_volume volume (λ c, c <| fl_head := curr |>));;
  when (truthy (fl_tail c)) (set_node (fl_tail c) (λ m, m <| fn_next := curr |>));;
  set_node curr (λ m, m <| fn_prev := fl_tail c |>);;
  set_volume volume (λ c, c <| fl_tail := curr |>);;
  set_volume volume (λ c, c <| fl_nNodes ::= λ k, wrap64 (k + 1) |>);;
  n ← get_node curr;
  set_volume volume (λ c, c <| freeClusterCount ::= λ k, wrap64 (k + fn_nClusters n) |>).

Definition FreeClusters (volume cluster nClusters : Z) : K fatst () :=
  free_run (Z.to_nat nClusters) 0 volume cluster;;
  curr ← node_zalloc;
  set_node curr (λ m, m <| fn_cluster := cluster |>);;
  set_node curr (λ m, m <| fn_nClusters := wrap32 nClusters |>);;
  append_node volume curr.

(** The clusters are freed from the old end on. *)
Definition TruncateClusters (volume cluster newClusterCount oldClusterCount : Z) : K fatst () :=
  if oldClusterCount <=? newClusterCount then mret () else
  FreeClusters volume (wrap32 (cluster + oldClusterCount)) (oldClusterCount - newClusterCount);;
  when (truthy newClusterCount) (markEnd volume (wrap32 (cluster + newClusterCount - 1))).

(** ** Building the free list *)

(** [while (isLastCluster(volume, curr->cluster + curr->nClusters)) curr->nClusters--;]
    It ends when the count is zero at the latest, [curr->cluster] being a cluster of the
    volume. *)
Fixpoint trim_node (fuel : nat) (volume curr : Z) : K fatst () :=
  n ← get_node curr;
  last ← isLastCluster volume (wrap32 (fn_cluster n + fn_nClusters n));
  if negb last then mret () else
  match fuel with
  | O => stop Hang
  | Datatypes.S fuel =>
      set_node curr (λ m, m <| fn_nClusters ::= λ k, wrap32 (k - 1) |>);; trim_node fuel volume curr
  end.

(** The loop over the clusters from [cluster] on, of which [n] are left; the result is
    the node that is being filled. *)
Fixpoint freelist_loop (n : nat) (volume cluster curr sector : Z) : K fatst Z :=
  match n with
  | O => mret curr
  | Datatypes.S n =>
      is_free ← isClusterFree volume cluster sector;
      curr ← (if (is_free : bool) then
        curr ← (if negb (truthy curr) then
                  p ← node_zalloc; set_node p (λ m, m <| fn_cluster := cluster |>);; mret p
                else mret curr);
        set_node curr (λ m, m <| fn_nClusters ::= λ k, wrap32 (k + 1) |>);; mret curr
      else if negb (truthy curr) then mret curr
      else
        x ← get_node curr;
        trim_node (Z.to_nat (fn_nClusters x)) volume curr;;
        append_node volume curr;; mret nullptr);
      freelist_loop n volume (cluster + 1) curr sector
  end.

Definition InitializeCacheFreelist (volume : Z) : K fatst () :=
  c ← get_volume volume;
  sector ← fat_zalloc (fat_blkSize c);
  curr ← freelist_loop (Z.to_nat (CountofClusters c)) volume 0 nullptr sector;
  when (truthy curr) (append_node volume curr);;
  fat_free sector (fat_blkSize c).

(** ** Following a chain *)

(** The result and [*ret]. *)
Definition NextCluster (cache cluster sec_buf : Z) : K fatst (obos_status * Z) :=
  addr ← GetFatEntryAddrForCluster cache cluster;
  c ← get_volume cache;
  res ← read_ent (fatType c) (sec_buf + fea_offset addr) cluster;
  mret (if end_mark (fatType c) <=? res then OBOS_STATUS_EOF else OBOS_STATUS_SUCCESS, res).

(** What a callback does with the object its [userdata] points to is the change of a
    value of type [U], which is passed on. *)
Definition clus_chain_cb (U : Type) : Type := Z → obos_status → U → K fatst (iterate_decision * U).

(** The loop of [FollowClusterChain], [fuel] rounds of it: [curr] is the cluster reached,
    [lba] the sector [addr] is in.  The callback gets [clus], and [addr] is computed for
    [clus], in every round. *)
Fixpoint follow_loop {U} (fuel : nat) (volume clus : Z) (callback : clus_chain_cb U) (userdata : U) (curr lba sector : Z) : K fatst U :=
  match fuel with
  | O => stop Hang
  | Datatypes.S fuel =>
      d ← callback clus OBOS_STATUS_SUCCESS userdata;
      match d with (ITERATE_DECISION_STOP, userdata) => mret userdata | (ITERATE_DECISION_CONTINUE, userdata) =>
      r ← NextCluster volume curr sector;
      let '(status, curr) := r in
      if bool_decide (status = OBOS_STATUS_EOF) then mret userdata else
      if curr =? 0 then d ← callback 0 OBOS_STATUS_ABORTED userdata; mret d.2 else
      c ← get_volume volume;
      if CountofClusters c <=? curr then d ← callback 0 OBOS_STATUS_ABORTED userdata; mret d.2 else
      addr ← GetFatEntryAddrForCluster volume clus;
      when (negb (fea_lba addr =? lba)) (
        file (Vfs_FdSeek (volume_fd c) (wrap64 (fea_lba addr * fat_blkSize c)) SEEK_SET);;
        file (Vfs_FdRead (volume_fd c) sector (fat_blkSize c) None);; mret ());;
      follow_loop fuel volume clus callback userdata curr (fea_lba addr) sector
      end
  end.

Definition FollowClusterChain {U} (fuel : nat) (volume clus : Z) (callback : clus_chain_cb U) (userdata : U) : K fatst U :=
  addr ← GetFatEntryAddrForCluster volume clus;
  c ← get_volume volume;
  sector ← fat_zalloc (fat_blkSize c);
  file (Vfs_FdSeek (volume_fd c) (wrap64 (fea_lba addr * fat_blkSize c)) SEEK_SET);;
  file (Vfs_FdRead (volume_fd c) sector (fat_blkSize c) None);;
  userdata ← follow_loop fuel volume clus callback userdata clus (fea_lba addr) sector;
  fat_free sector (fat_blkSize c);;
  mret userdata.

End ops.
