(* ===== verification/FatIo.v ===== *)
(** * The FAT driver: files ([src/src/drivers/generic/slowfat]: [io.c], [interface.c], the
    tree of cached directory entries of [probe.c])

    Reading, writing and truncating a file, writing its directory entry back, its
    attributes, and the children of a directory.  The names of the driver's entry points
    that other drivers have too carry the prefix [fat_]. *)

From S2P Require Import Prelude Bytes DList Vfs Partition Fat.

(** [fd_lock] and [fat_lock] of a volume. *)
Inductive fat_mutex := FdLock (volume : Z) | FatLock (volume : Z).
Class FatLocks := {
  fat_acquire : fat_mutex → K fatst obos_status;
  fat_release : fat_mutex → K fatst obos_status
}.

Definition get_dirent (d : Z) : K fatst fat_dirent_cache := load dirents d.
Definition set_dirent (d : Z) (f : fat_dirent_cache → fat_dirent_cache) : K fatst () :=
  store dirents (λ m s, s <| dirents := m |>) d f.

Definition SIZEOF_FAT_DIRENT : Z := 32.
(** The bytes of a [fat_dirent]. *)
Definition dirent_bytes (d : fat_dirent) : list Z :=
  filename_83 d ++ [attribs d] ++ mid_bytes d ++ le_bytes 2 (first_cluster_high d) ++ mod_bytes d ++
  le_bytes 2 (first_cluster_low d) ++ le_bytes 4 (d_filesize d).

(** [ClusterToSector] of a [uint32_t], and of a sum with a [size_t]. *)
Definition ClusterToSector (c : fat_cache) (n : Z) : Z := wrap32 ((n - 2) * sectorsPerCluster c + FirstDataSector c).
Definition ClusterToSector64 (c : fat_cache) (n : Z) : Z := wrap64 ((n - 2) * sectorsPerCluster c + FirstDataSector c).

Definition bytesPerCluster (c : fat_cache) : Z := wrap64 (sectorsPerCluster c * fat_blkSize c).

(** The first cluster of an entry. *)
Definition first_cluster (c : fat_cache) (d : fat_dirent) : Z :=
  match fatType c with
  | FAT32_VOLUME => Z.lor (first_cluster_low d) (Z.shiftl (first_cluster_high d) 16)
  | _ => first_cluster_low d
  end.

(** The number of units of [n] bytes in [size] bytes, rounded up. *)
Definition units (size n : Z) : K fatst Z :=
  q ← file (udiv size n); r ← file (umod size n); mret (q + (if truthy r then 1 else 0)).

(** ** The tree of directory entries *)

Definition CacheAppendChild (parent child : Z) : K fatst () :=
  p ← get_dirent parent;
  when (negb (truthy (fdc_head p))) (set_dirent parent (λ d, d <| fdc_head := child |>));;
  p ← get_dirent parent;
  when (truthy (fdc_tail p)) (set_dirent (fdc_tail p) (λ d, d <| fdc_next_child := child |>));;
  p ← get_dirent parent;
  set_dirent child (λ d, d <| fdc_prev_child := fdc_tail p |>);;
  set_dirent parent (λ d, d <| fdc_tail := child |>);;
  set_dirent parent (λ d, d <| nChildren ::= λ n, wrap64 (n + 1) |>);;
  set_dirent child (λ d, d <| fdc_parent := parent |>).

Definition CacheRemoveChild (parent what : Z) : K fatst () :=
  w ← get_dirent what;
  when (truthy (fdc_prev_child w)) (set_dirent (fdc_prev_child w) (λ d, d <| fdc_next_child := fdc_next_child w |>));;
  w ← get_dirent what;
  when (truthy (fdc_next_child w)) (set_dirent (fdc_next_child w) (λ d, d <| fdc_prev_child := fdc_prev_child w |>));;
  p ← get_dirent parent;
  w ← get_dirent what;
  when (fdc_head p =? what) (set_dirent parent (λ d, d <| fdc_head := fdc_next_child w |>));;
  p ← get_dirent parent;
  w ← get_dirent what;
  when (fdc_tail p =? what) (set_dirent parent (λ d, d <| fdc_tail := fdc_prev_child w |>));;
  set_dirent parent (λ d, d <| nChildren ::= λ n, wrap64 (n - 1) |>);;
  set_dirent what (λ d, d <| fdc_parent := nullptr |>).

Section ops.
Context {E : VfsEnv} {FA : FatAlloc} {FK : FatLocks}.

(** ** Directory entries *)

Definition WriteFatDirent (cache cache_entry : Z) (lock : bool) : K fatst obos_status :=
  c ← get_volume cache;
  let bpc := bytesPerCluster c in
  when lock (fat_acquire (FdLock cache);; mret ());;
  e ← get_dirent cache_entry;
  file (Vfs_FdSeek (volume_fd c) (dirent_fileoff e) SEEK_SET);;
  cluster_buf ← fat_alloc bpc;
  r ← file (Vfs_FdRead (volume_fd c) cluster_buf bpc None);
  if obos_is_error r.1 then
    fat_free cluster_buf bpc;; when lock (fat_release (FdLock cache);; mret ());; mret r.1
  else
  e ← get_dirent cache_entry;
  store_bytes (cluster_buf + dirent_offset e) (dirent_bytes (d_data e));;
  file (Vfs_FdSeek (volume_fd c) (dirent_fileoff e) SEEK_SET);;
  r ← file (Vfs_FdWrite (volume_fd c) cluster_buf bpc None);
  if obos_is_error r.1 then
    fat_free cluster_buf bpc;; when lock (fat_release (FdLock cache);; mret ());; mret r.1
  else
  when lock (fat_release (FdLock cache);; mret ());;
  fat_free cluster_buf bpc;;
  file (Vfs_FdFlush (volume_fd c));;
  mret OBOS_STATUS_SUCCESS.

Definition fat_get_max_blk_count (desc : Z) (count : option Z) : K fatst (obos_status * option Z) :=
  if negb (truthy desc) then mret (OBOS_STATUS_INVALID_ARGUMENT, count) else
  match count with
  | None => mret (OBOS_STATUS_INVALID_ARGUMENT, None)
  | Some _ => e ← get_dirent desc; mret (OBOS_STATUS_SUCCESS, Some (d_filesize (d_data e)))
  end.

(** [owner_write] and [group_write] of the new permissions. *)
Definition fat_set_file_perms (desc : Z) (owner_w group_w : bool) : K fatst obos_status :=
  if negb (truthy desc) then mret OBOS_STATUS_INVALID_ARGUMENT else
  when (negb owner_w || negb group_w)
    (set_dirent desc (λ d, d <| d_data ::= λ x, x <| attribs ::= λ a, Z.lor a READ_ONLY |> |>));;
  e ← get_dirent desc;
  WriteFatDirent (d_owner e) desc true.

(** ** Reading *)

(** [udata] of [read_callback]; [rd_status] is the variable its element points to. *)
Record read_data := mkReadData {
  rd_buf : Z; rd_i : Z; rd_nClustersToRead : Z; rd_bytesLeft : Z; rd_current_offset : Z; rd_cluster_offset : Z;
  rd_cache : Z; rd_status : obos_status; rd_cluster_buf : Z
}.
#[export] Instance eta_read_data : Etable read_data :=
  λ r, mkReadData (rd_buf r) (rd_i r) (rd_nClustersToRead r) (rd_bytesLeft r) (rd_current_offset r) (rd_cluster_offset r)
    (rd_cache r) (rd_status r) (rd_cluster_buf r).

(** The new values of the offsets and of the number of bytes left are those of local
    variables: [udata] keeps the old ones. *)
Definition read_callback : clus_chain_cb read_data := λ cluster stat udata,
  let i := rd_i udata in
  let udata := udata <| rd_i := wrap64 (i + 1) |> in
  let bytesLeft := signed 64 (rd_bytesLeft udata) in
  c ← get_volume (rd_cache udata);
  let bpc := bytesPerCluster c in
  if negb (bool_decide (stat = OBOS_STATUS_EOF)) && negb (bool_decide (stat = OBOS_STATUS_SUCCESS)) then
    mret (ITERATE_DECISION_STOP, udata <| rd_status := stat |>)
  else
  file (Vfs_FdSeek (volume_fd c) (wrap64 (ClusterToSector c cluster * fat_blkSize c)) SEEK_SET);;
  r ← file (Vfs_FdRead (volume_fd c) (rd_cluster_buf udata) bpc None);
  let udata := udata <| rd_status := r.1 |> in
  if obos_is_error r.1 then
    fat_free (rd_cluster_buf udata) bpc;; fat_release (FdLock (rd_cache udata));; mret (ITERATE_DECISION_STOP, udata)
  else
  memcpy (rd_buf udata + rd_current_offset udata) (rd_cluster_buf udata + rd_cluster_offset udata)
    (if wrap64 bytesLeft <=? bpc then wrap64 bytesLeft else bpc);;
  let bytesLeft := signed 64 (wrap64 (bytesLeft - bpc)) in
  if rd_nClustersToRead udata <=? i then mret (ITERATE_DECISION_STOP, udata) else
  if bytesLeft <? 0 then mret (ITERATE_DECISION_STOP, udata) else
  mret (ITERATE_DECISION_CONTINUE, udata).

(** [fuel] is for [FollowClusterChain]. *)
Definition fat_read_sync (fuel : nat) (desc buf blkCount blkOffset : Z) (nBlkRead : option Z) : K fatst (obos_status * option Z) :=
  if negb (truthy desc) || negb (truthy buf) then mret (OBOS_STATUS_INVALID_ARGUMENT, nBlkRead) else
  if negb (truthy blkCount) then mret (OBOS_STATUS_SUCCESS, nBlkRead) else
  e ← get_dirent desc;
  let cache := d_owner e in
  if has_flag (attribs (d_data e)) DIRECTORY then mret (OBOS_STATUS_INVALID_ARGUMENT, nBlkRead) else
  if d_filesize (d_data e) <=? blkOffset then mret (OBOS_STATUS_SUCCESS, set_out nBlkRead 0) else
  let nToRead := if d_filesize (d_data e) <=? wrap64 (blkOffset + blkCount) then d_filesize (d_data e) - blkOffset else blkCount in
  c ← get_volume cache;
  let bpc := bytesPerCluster c in
  nClustersToRead ← units nToRead bpc;
  skip ← file (udiv blkOffset bpc);
  let cluster := wrap32 (first_cluster c (d_data e) + skip) in
  cluster_buf ← fat_alloc bpc;
  cluster_offset ← file (umod blkOffset bpc);
  fat_acquire (FdLock cache);;
  udata ← FollowClusterChain fuel cache cluster read_callback
    (mkReadData buf 0 nClustersToRead blkCount 0 cluster_offset cache OBOS_STATUS_SUCCESS cluster_buf);
  fat_release (FdLock cache);;
  let bytesLeft := signed 64 blkCount in
  fat_free cluster_buf bpc;;
  mret (rd_status udata, set_out nBlkRead (wrap64 (blkCount - (if 0 <=? bytesLeft then bytesLeft else 0)))).

(** ** Writing *)

(** Copying [n] clusters from the [i]th on; the result is an error, if there is one. *)
Fixpoint copy_clusters (n : nat) (i cache cluster newCluster cluster_buf : Z) : K fatst obos_status :=
  match n with
  | O => mret OBOS_STATUS_SUCCESS
  | Datatypes.S n =>
      c ← get_volume cache;
      let bpc := bytesPerCluster c in
      let fail st := fat_free cluster_buf bpc;; fat_release (FatLock cache);; fat_release (FdLock cache);; mret st in
      file (Vfs_FdSeek (volume_fd c) (wrap64 (ClusterToSector64 c (cluster + i) * fat_blkSize c)) SEEK_SET);;
      r ← file (Vfs_FdRead (volume_fd c) cluster_buf bpc None);
      if obos_is_error r.1 then fail r.1 else
      file (Vfs_FdSeek (volume_fd c) (wrap64 (ClusterToSector64 c (newCluster + i) * fat_blkSize c)) SEEK_SET);;
      r ← file (Vfs_FdWrite (volume_fd c) cluster_buf bpc None);
      if obos_is_error r.1 then fail r.1 else
      copy_clusters n (i + 1) cache cluster newCluster cluster_buf
  end.

(** Making the file longer: the cluster it begins at, or the status to return. *)
Definition expand_file (desc cache cluster blkCount : Z) (expandClusters : bool) : K fatst (obos_status + Z) :=
  c ← get_volume cache;
  let bpc := bytesPerCluster c in
  e ← get_dirent desc;
  szClusters ← units (d_filesize (d_data e)) bpc;
  set_dirent desc (λ d, d <| d_data ::= λ x, x <| d_filesize ::= λ n, wrap32 (n + blkCount) |> |>);;
  e ← get_dirent desc;
  newSizeCls ← units (d_filesize (d_data e)) bpc;
  fat_acquire (FatLock cache);;
  cluster_buf ← fat_alloc bpc;
  r ← (if expandClusters then
         ext ← ExtendClusters cache cluster (wrap32 newSizeCls) (wrap32 szClusters);
         if (ext : bool) then mret (inr cluster) else
         newCluster ← AllocateClusters cache (wrap32 newSizeCls);
         if newCluster =? UINT32_MAX then fat_release (FatLock cache);; mret (inl OBOS_STATUS_NOT_ENOUGH_MEMORY) else
         fat_acquire (FdLock cache);;
         st ← copy_clusters (Z.to_nat (wrap32 szClusters)) 0 cache cluster newCluster cluster_buf;
         if obos_is_error st then mret (inl st) else
         when (truthy cluster) (FreeClusters cache cluster (wrap32 szClusters));;
         set_dirent desc (λ d, d <| d_data ::= λ x, x <| first_cluster_high := wrap16 (Z.shiftr newCluster 16) |> |>);;
         set_dirent desc (λ d, d <| d_data ::= λ x, x <| first_cluster_low := Z.land newCluster 0xffff |> |>);;
         fat_release (FdLock cache);;
         mret (inr newCluster)
       else mret (inr cluster));
  match r with
  | inl st => mret (inl st)
  | inr cluster => fat_release (FatLock cache);; WriteFatDirent cache desc true;; mret (inr cluster)
  end.

(** The loop over the clusters written, [n] of them from [i] on; [None] when it ends
    without an error. *)
Fixpoint write_clusters (n : nat) (i cache cluster buf cluster_buf current_offset cluster_offset bytesLeft : Z) : K fatst (option obos_status) :=
  if negb (0 <? bytesLeft) then mret None else
  match n with
  | O => mret None
  | Datatypes.S n =>
      c ← get_volume cache;
      let bpc := bytesPerCluster c in
      file (Vfs_FdSeek (volume_fd c) (wrap64 (ClusterToSector64 c (cluster + i) * fat_blkSize c)) SEEK_SET);;
      memcpy (cluster_buf + cluster_offset) (buf + current_offset)
        (if wrap64 bytesLeft <=? bpc then wrap64 bytesLeft else wrap64 (bpc - cluster_offset));;
      r ← file (Vfs_FdWrite (volume_fd c) cluster_buf bpc None);
      if obos_is_error r.1 then fat_free cluster_buf bpc;; fat_release (FdLock cache);; mret (Some r.1) else
      memzero cluster_buf bpc;;
      write_clusters n (i + 1) cache cluster buf cluster_buf (wrap64 (current_offset + bpc)) 0 (signed 64 (wrap64 (bytesLeft - bpc)))
  end.

Definition fat_write_sync (desc buf blkCount blkOffset : Z) (nBlkWritten : option Z) : K fatst (obos_status * option Z) :=
  if negb (truthy desc) || negb (truthy buf) then mret (OBOS_STATUS_INVALID_ARGUMENT, nBlkWritten) else
  if negb (truthy blkCount) then mret (OBOS_STATUS_SUCCESS, nBlkWritten) else
  e ← get_dirent desc;
  let cache := d_owner e in
  if has_flag (attribs (d_data e)) DIRECTORY then mret (OBOS_STATUS_INVALID_ARGUMENT, nBlkWritten) else
  c ← get_volume cache;
  let bpc := bytesPerCluster c in
  let end_ := wrap64 (blkOffset + blkCount) in
  let size := d_filesize (d_data e) in
  rest ← file (umod size bpc);
  let aligned := if truthy rest then wrap64 (size + (bpc - rest)) else size in
  let expandClusters := aligned <=? end_ in
  let requiresExpand := (size <? end_) || expandClusters in
  nClustersToWrite ← units blkCount bpc;
  let cluster := first_cluster c (d_data e) in
  r ← (if requiresExpand then expand_file desc cache cluster blkCount expandClusters else mret (inr cluster));
  match r with
  | inl st => mret (st, nBlkWritten)
  | inr cluster =>
      cluster_buf ← fat_alloc bpc;
      cluster_offset ← file (umod blkOffset bpc);
      fat_acquire (FdLock cache);;
      base ← file (udiv blkOffset bpc);
      let base_cluster := wrap32 base in
      file (Vfs_FdSeek (volume_fd c) (wrap64 (ClusterToSector c (wrap32 (cluster + base_cluster)) * fat_blkSize c)) SEEK_SET);;
      r ← file (Vfs_FdRead (volume_fd c) cluster_buf bpc None);
      if obos_is_error r.1 then fat_free cluster_buf bpc;; fat_release (FdLock cache);; mret (r.1, nBlkWritten) else
      w ← write_clusters (Z.to_nat nClustersToWrite) 0 cache (wrap32 (cluster + base_cluster)) buf cluster_buf 0 cluster_offset (signed 64 blkCount);
      match w with
      | Some st => mret (st, nBlkWritten)
      | None =>
          file (Vfs_FdFlush (volume_fd c));;
          fat_release (FdLock cache);;
          fat_free cluster_buf bpc;;
          mret (OBOS_STATUS_SUCCESS, set_out nBlkWritten blkCount)
      end
  end.

Definition trunc_file (desc blkCount : Z) : K fatst obos_status :=
  if negb (truthy desc) then mret OBOS_STATUS_INVALID_ARGUMENT else
  e ← get_dirent desc;
  let cache := d_owner e in
  let size := d_filesize (d_data e) in
  if size =? blkCount then mret OBOS_STATUS_SUCCESS else
  OBOS_ASSERT (blkCount <=? size);;
  if size <? blkCount then mret OBOS_STATUS_INVALID_ARGUMENT else
  c ← get_volume cache;
  let bpc := bytesPerCluster c in
  szClusters ← units size bpc;
  set_dirent desc (λ d, d <| d_data ::= λ x, x <| d_filesize := wrap32 blkCount |> |>);;
  newSizeCls ← units (wrap32 blkCount) bpc;
  let cluster := first_cluster c (d_data e) in
  fat_acquire (FatLock cache);;
  TruncateClusters cache cluster (wrap32 newSizeCls) (wrap32 szClusters);;
  when (negb (truthy (wrap32 newSizeCls))) (
    FreeClusters cache cluster (wrap32 szClusters);;
    set_dirent desc (λ d, d <| d_data ::= λ x, x <| first_cluster_low := 0 |> |>);;
    set_dirent desc (λ d, d <| d_data ::= λ x, x <| first_cluster_high := 0 |> |>));;
  fat_release (FatLock cache);;
  WriteFatDirent cache desc true;;
  file (Vfs_FdFlush (volume_fd c));;
  mret OBOS_STATUS_SUCCESS.

End ops.
