(* ===== verification/FatProofs.v ===== *)
(** * The FAT driver: correctness

    The allocation table as a list of entries, of which every copy on the volume holds
    the bytes; the free list as a list of runs of clusters.  For FAT16 and FAT32. *)

From S2P Require Import Prelude Bytes DList Vfs VfsProofs Partition PartitionProofs VolCache Fat.

(** ** Entries and their bytes *)

Lemma length_le_bytes n v : length (le_bytes n v) = n.
Proof. revert v. induction n as [|n IH]; intros v; simpl; [done|]. by rewrite IH. Qed.

Lemma le_le_bytes n v : 0 <= v < 256 ^ Z.of_nat n → le (le_bytes n v) = v.
Proof.
  revert v. induction n as [|n IH]; intros v Hv; [simpl in *; lia|]. cbn [le_bytes]. unfold le. cbn [foldr]. fold (le (le_bytes n (v / 256))).
  rewrite IH; [pose proof (Z.div_mod v 256); lia|]. rewrite Nat2Z.inj_succ, Z.pow_succ_r in Hv by lia.
  split; [apply Z.div_pos; lia|apply Z.div_lt_upper_bound; lia].
Qed.

Lemma get_le_entry {S} `{HasMem S} n p v (s : S) :
  bytes_at (mem_of s) p (le_bytes n v) → 0 <= v < 256 ^ Z.of_nat n → get_le n p s = Ret v s.
Proof.
  intros Hb Hv. rewrite <- (length_le_bytes n v) at 1. rewrite (get_le_list (le_bytes n v)) by done. by rewrite le_le_bytes.
Qed.

(** The bytes of a table whose entries are [w] bytes wide. *)
Definition fat_bytes (w : nat) (F : list Z) : list Z := F ≫= le_bytes w.

Lemma length_fat_bytes w F : length (fat_bytes w F) = (w * length F)%nat.
Proof. induction F as [|x F IH]; [simpl; lia|]. cbn. rewrite length_app, length_le_bytes. fold (fat_bytes w F). rewrite IH. lia. Qed.

Lemma fat_bytes_app w F G : fat_bytes w (F ++ G) = fat_bytes w F ++ fat_bytes w G.
Proof. apply bind_app. Qed.

(** Writing the entries [S'] over those of [S] in the middle of a table. *)
Lemma write_middle w m a F1 S S' F2 b : bytes_at m a (fat_bytes w (F1 ++ S ++ F2)) → length S' = length S →
  b = a + Z.of_nat (w * length F1) → bytes_at (write_bytes m b (fat_bytes w S')) a (fat_bytes w (F1 ++ S' ++ F2)).
Proof.
  intros H Hl ->. rewrite !fat_bytes_app, !bytes_at_app, !length_fat_bytes in *. destruct H as (H1 & H2 & H3). split; [|split].
  - apply write_bytes_other; [unfold disjoint_blocks; rewrite !length_fat_bytes; lia|done].
  - apply write_bytes_same.
  - rewrite Hl. apply write_bytes_other; [unfold disjoint_blocks; rewrite !length_fat_bytes; lia|done].
Qed.

(** The width of an entry, its cluster number, and the entry with the number replaced. *)
Definition ent_width (t : fat_type) : nat := match t with FAT32_VOLUME => 4 | _ => 2 end.
Definition ent_val (t : fat_type) (x : Z) : Z := match t with FAT32_VOLUME => x mod 2 ^ 28 | _ => x end.
Definition with_ent (t : fat_type) (v x : Z) : Z :=
  match t with FAT32_VOLUME => x - x mod 2 ^ 28 + v mod 2 ^ 28 | _ => wrap16 v end.
Definition ent_bits (t : fat_type) : Z := match t with FAT32_VOLUME => 28 | _ => 16 end.
Definition entry (t : fat_type) (x : Z) : Prop := 0 <= x < 256 ^ Z.of_nat (ent_width t).

Lemma with_ent_entry t v x : entry t x → entry t (with_ent t v x).
Proof.
  unfold entry, with_ent. intros H. destruct t; cbn in *; [|apply Z.mod_pos_bound; lia..].
  pose proof (Z.mod_pos_bound v (2 ^ 28)). pose proof (Z.mod_pos_bound x (2 ^ 28)). pose proof (Z.div_mod x (2 ^ 28)).
  assert (x / 2 ^ 28 < 16) by (apply Z.div_lt_upper_bound; lia). lia.
Qed.

Lemma ent_val_with t v x : entry t x → ent_val t (with_ent t v x) = v mod 2 ^ ent_bits t.
Proof.
  unfold ent_val, with_ent. intros _. destruct t; [|done..]. cbn [ent_bits].
  pose proof (Z.div_mod x (2 ^ 28)). replace (x - x mod 2 ^ 28 + v mod 2 ^ 28) with (v mod 2 ^ 28 + x / 2 ^ 28 * 2 ^ 28) by lia.
  rewrite Z.mod_add by lia. apply Zmod_mod.
Qed.

(** ** What the allocator promises: memory does not run out. *)

Definition zero_node : fat_freenode := mkFreeNode 0 0 0 0.
Definition with_mem (m : bmem) (s : fatst) : fatst := s <| fv ::= λ v, v <| vmem := m |> |>.

Class FatAllocLaws {FA : FatAlloc} := {
  fa_alloc n s : ∃ p l, fat_alloc n s = Ret p (with_mem (write_bytes (vmem (fv s)) p l) s) ∧ length l = Z.to_nat n ∧
    p ≠ 0 ∧ ∀ a, p <= a < p + n → vmem (fv s) !! a = None;
  fa_zalloc n s : ∃ p, fat_zalloc n s = Ret p (with_mem (write_bytes (vmem (fv s)) p (replicate (Z.to_nat n) 0)) s) ∧
    p ≠ 0 ∧ ∀ a, p <= a < p + n → vmem (fv s) !! a = None;
  fa_free p n s : ∃ m, fat_free p n s = Ret () (with_mem m s) ∧ ∀ a, ¬ p <= a < p + n → m !! a = vmem (fv s) !! a;
  fa_node s : ∃ p, node_zalloc s = Ret p (s <| freenodes ::= <[p := zero_node]> |>) ∧ p ≠ 0 ∧ freenodes s !! p = None;
  fa_node_free p s : node_free p s = Ret () (s <| freenodes ::= delete p |>)
}.

(** ** The table on the volume *)

(** The first byte of the copy [i] of the table, in the page cache. *)
Definition fat_base (V : volume) (c : fat_cache) (i : Z) : Z :=
  v_pc V + (reservedSectorCount c + fatSz c * i) * v_bs V.

(** A FAT16 or FAT32 volume whose sectors are the blocks of the device. *)
Record geometry (V : volume) (c : fat_cache) : Prop := {
  g_type : fatType c ≠ FAT12_VOLUME;
  g_fd : volume_fd c = v_desc V;
  g_blk : fat_blkSize c = v_bs V ∧ bytesPerSector c = v_bs V;
  g_width : v_bs V mod Z.of_nat (ent_width (fatType c)) = 0;
  g_nonneg : 0 <= reservedSectorCount c ∧ 0 < fatSz c ∧ 0 < nFATs c;
  g_size : (reservedSectorCount c + fatSz c * nFATs c) * v_bs V <= v_size V;
  g_small : fatSz c * v_bs V < 2 ^ 32 ∧ reservedSectorCount c + fatSz c < 2 ^ 32;
  g_chain : CountofClusters c < end_mark (fatType c);
  g_count : 0 <= CountofClusters c ∧ CountofClusters c * Z.of_nat (ent_width (fatType c)) <= fatSz c * v_bs V
}.

(** Every copy of the table has the entries [F]. *)
Record fat_at (V : volume) (c : fat_cache) (F : list Z) (m : bmem) : Prop := {
  ft_entries : Forall (entry (fatType c)) F;
  ft_length : Z.of_nat (ent_width (fatType c) * length F) = fatSz c * v_bs V;
  ft_copies i : 0 <= i < nFATs c → bytes_at m (fat_base V c i) (fat_bytes (ent_width (fatType c)) F)
}.

(** The driver's state: the volume [vp] with the table [F], and [n] more writes. *)
Record fat_ok (V : volume) (vp : Z) (c : fat_cache) (n : nat) (F : list Z) (s : fatst) : Prop := {
  fo_cache : volumes s !! vp = Some c;
  fo_vol : ∃ o, vol_at V n o (fv s);
  fo_fat : fat_at V c F (vmem (fv s))
}.

(** Between two states nothing but the tables changed in memory. *)
Definition same_but_fats (V : volume) (c : fat_cache) (s s' : fatst) : Prop :=
  freenodes s' = freenodes s ∧ volumes s' = volumes s ∧
  ∀ a, is_Some (vmem (fv s) !! a) → ¬ fat_base V c 0 <= a < fat_base V c (nFATs c) → vmem (fv s') !! a = vmem (fv s) !! a.

Lemma same_refl V c s : same_but_fats V c s s.
Proof. by repeat split. Qed.

Lemma same_trans V c s1 s2 s3 : same_but_fats V c s1 s2 → same_but_fats V c s2 s3 → same_but_fats V c s1 s3.
Proof.
  intros (H1 & H2 & H3) (H4 & H5 & H6). split; [congruence|]. split; [congruence|]. intros a Ha Hout.
  rewrite H6; [by apply H3| |done]. by rewrite H3.
Qed.

Lemma file_Ret {A} (m : K vst A) s a v : m (fv s) = Ret a v → file m s = Ret a (s <| fv := v |>).
Proof. intros H. unfold file, zoom. by rewrite H. Qed.
Lemma file_id {A} (m : K vst A) s a : m (fv s) = Ret a (fv s) → file m s = Ret a s.
Proof. intros H. rewrite (file_Ret _ _ _ _ H). by destruct s. Qed.

Section fat.
Context {E : VfsEnv} {V : volume} (HE : volume_env E V) `{FL : FatAllocLaws}.
#[local] Set Default Proof Using "Type*".

(** *** Where an entry is *)

Lemma ent_width_pos t : (0 < ent_width t)%nat.
Proof using Type. destruct t; simpl; lia. Qed.

(** The entries before, in and after the sector of a cluster. *)
Lemma sector_split c F m cl : geometry V c → fat_at V c F m → 0 <= cl < Z.of_nat (length F) →
  let w := ent_width (fatType c) in
  ∃ F1 G1 x G2 F2, F = F1 ++ (G1 ++ x :: G2) ++ F2 ∧ Z.of_nat (w * length (G1 ++ x :: G2)) = v_bs V ∧
    Z.of_nat (w * length F1) = cl * Z.of_nat w / v_bs V * v_bs V ∧ Z.of_nat (w * length G1) = (cl * Z.of_nat w) mod v_bs V ∧
    Z.of_nat (length F1 + length G1) = cl ∧ F !! Z.to_nat cl = Some x.
Proof.
  intros Hg Hf Hcl w. pose proof (ent_width_pos (fatType c)) as Hw. fold w in Hw. pose proof (ve_bs _ _ HE) as Hbs.
  pose proof (g_width _ _ Hg) as Hal. fold w in Hal. pose proof (ft_length _ _ _ _ Hf) as Hlen. fold w in Hlen.
  apply Z.mod_divide in Hal as [e He]; [|lia]. assert (0 < e) as He0 by nia.
  assert (cl * Z.of_nat w / v_bs V = cl / e) as Eq. { rewrite He. apply Z.div_mul_cancel_r; lia. }
  assert ((cl * Z.of_nat w) mod v_bs V = (cl mod e) * Z.of_nat w) as Er. { rewrite He. apply Zmult_mod_distr_r. }
  assert (fatSz c * e = Z.of_nat (length F)) as HF.
  { apply (Z.mul_cancel_r _ _ (Z.of_nat w)); [lia|]. rewrite He in Hlen. rewrite <- Z.mul_assoc. rewrite <- Hlen. lia. }
  pose proof (Z.div_mod cl e). pose proof (Z.mod_pos_bound cl e He0).
  assert (cl / e < fatSz c) as Hq by (apply Z.div_lt_upper_bound; lia). assert (0 <= cl / e) by (apply Z.div_pos; lia).
  set (k := Z.to_nat (cl / e)). set (j := Z.to_nat (cl mod e)). set (d := Z.to_nat e).
  assert (k * d + d <= length F)%nat as Hkd by nia. set (S := take d (drop (k * d) F)).
  assert (length S = d) as HS. { unfold S. rewrite length_take, length_drop. lia. }
  destruct (lookup_lt_is_Some_2 S j) as [x Hx]; [lia|].
  exists (take (k * d) F), (take j S), x, (drop (Datatypes.S j) S), (drop (k * d + d) F).
  rewrite (take_drop_middle S j x Hx), HS, !length_take, HS.
  split; [|split; [|split; [|split; [|split]]]]; try nia.
  - unfold S. rewrite <- drop_drop, (take_drop d (drop (k * d) F)). by rewrite take_drop.
  - unfold S in Hx. rewrite lookup_take, lookup_drop in Hx. case_decide; [|done]. rewrite <- Hx. f_equal. nia.
Qed.

(** *** The copies of the table *)

(** Writing the bytes [l] at the same place of [n] copies from the [i]th on. *)
Fixpoint write_copies (c : fat_cache) (n : nat) (i off : Z) (l : list Z) (m : bmem) : bmem :=
  match n with
  | O => m
  | Datatypes.S n => write_copies c n (i + 1) off l (write_bytes m (fat_base V c i + off) l)
  end.

Lemma write_copies_outside c n i off l m a :
  (∀ k, i <= k < i + Z.of_nat n → ¬ fat_base V c k + off <= a < fat_base V c k + off + Z.of_nat (length l)) →
  write_copies c n i off l m !! a = m !! a.
Proof using Type.
  revert i m. induction n as [|n IH]; intros i m Ha; cbn [write_copies]; [done|].
  rewrite IH; [apply write_bytes_outside, Ha; lia|]. intros k Hk. apply Ha. lia.
Qed.

Lemma write_copies_local c n i off l m m' a : m !! a = m' !! a →
  write_copies c n i off l m !! a = write_copies c n i off l m' !! a.
Proof using Type.
  revert i m m'. induction n as [|n IH]; intros i m m' Ha; cbn [write_copies]; [done|]. apply IH.
  rewrite !write_bytes_lookup. by case_decide.
Qed.

Lemma fat_base_add c i k : fat_base V c (i + k) = fat_base V c i + fatSz c * k * v_bs V.
Proof using Type. unfold fat_base. lia. Qed.

Lemma write_copies_bytes c w F1 S S' F2 n i m k : 0 <= i →
  Z.of_nat (w * length (F1 ++ S ++ F2)) = fatSz c * v_bs V → length S' = length S → i <= k < i + Z.of_nat n →
  bytes_at m (fat_base V c k) (fat_bytes w (F1 ++ S ++ F2)) →
  bytes_at (write_copies c n i (Z.of_nat (w * length F1)) (fat_bytes w S') m) (fat_base V c k) (fat_bytes w (F1 ++ S' ++ F2)).
Proof using Type.
  intros Hi Hlen HS Hk Hb. rewrite !length_app in Hlen.
  assert (∀ k', k < k' → fat_base V c k + fatSz c * v_bs V <= fat_base V c k') as Hord.
  { intros k' Hk'. replace k' with (k + (k' - k)) by lia. rewrite fat_base_add. nia. }
  assert (∀ k', k' < k → fat_base V c k' + fatSz c * v_bs V <= fat_base V c k) as Hord'.
  { intros k' Hk'. replace k with (k' + (k - k')) by lia. rewrite fat_base_add. nia. }
  revert i m Hi Hk Hb. induction n as [|n IH]; intros i m Hi Hk Hb; [lia|]. cbn [write_copies].
  destruct (decide (k = i)) as [->|Hne].
  - intros j b Hj. pose proof (lookup_lt_Some _ _ _ Hj) as Hlt. rewrite length_fat_bytes, !length_app, HS in Hlt.
    rewrite write_copies_outside.
    + refine (write_middle w m _ F1 S S' F2 _ Hb HS eq_refl j b Hj).
    + intros k' Hk'. specialize (Hord k' ltac:(lia)). lia.
  - apply IH; [lia|lia|]. apply write_bytes_other; [|done]. unfold disjoint_blocks.
    rewrite !length_fat_bytes, !length_app, HS. specialize (Hord' i ltac:(lia)). lia.
Qed.

(** *** Updating an entry *)

Lemma write_fats_ok c vp n k i q p l o s : volumes s !! vp = Some c → geometry V c → vol_at V (n + k) o (fv s) →
  0 <= q < fatSz c → 0 <= i → i + Z.of_nat n <= nFATs c → p ≠ 0 → Z.of_nat (length l) = v_bs V →
  bytes_at (vmem (fv s)) p l → disjoint_blocks p (length l) (v_pc V) (Z.to_nat (v_size V)) →
  ∃ o' s', write_fats n i vp (reservedSectorCount c + q) p s = Ret () s' ∧ vol_at V k o' (fv s') ∧
    vmem (fv s') = write_copies c n i (q * v_bs V) l (vmem (fv s)) ∧ volumes s' = volumes s ∧ freenodes s' = freenodes s.
Proof.
  revert i o s. induction n as [|n IH]; intros i o s Hc Hg Hv Hq Hi Hn Hp Hl Hb Hdis; [by eauto 10|].
  cbn [write_fats write_copies]. unfold get_volume. erewrite bind_Ret by (by apply load_eq).
  pose proof Hg as [_ Hfd (Hblk & _) _ (Hr0 & Hf0 & _) Hsz _ _ _]. rewrite Hfd, Hblk. pose proof (ve_bs _ _ HE).
  pose proof (ve_pc _ _ HE) as (Hpc & _ & Hmax).
  set (o1 := (reservedSectorCount c + q + fatSz c * i) * v_bs V).
  assert (0 <= o1) as Ho1 by (unfold o1; nia).
  assert (o1 + v_bs V <= v_size V) as Ho2.
  { unfold o1. etrans; [|exact Hsz]. replace (_ + v_bs V) with ((reservedSectorCount c + (q + 1) + fatSz c * i) * v_bs V) by lia.
    apply Z.mul_le_mono_nonneg_r; [lia|]. nia. }
  assert (o1 mod v_bs V = 0) as Hal by (unfold o1; apply Z_mod_mult).
  rewrite (wrap_small 64 o1) by (unfold in_u; lia).
  erewrite bind_Ret by (apply file_Ret; eapply vol_seek; [done|exact Hv|lia|done]).
  set (s1 := s <| fv := _ |>).
  assert (vol_at V (Datatypes.S (n + k)) o1 (fv s1)) as Hv1 by (by eapply vol_at_off).
  assert (v_pc V + o1 = fat_base V c i + q * v_bs V) as Eo by (unfold o1, fat_base; lia).
  assert (disjoint_blocks p (length l) (v_pc V + o1) (length l)) as Hd1 by (unfold disjoint_blocks in *; lia).
  destruct (vol_write HE (n + k) o1 (v_bs V) p l (fv s1) Hv1) as (v2 & Hw & Hv2 & Em2); try done; [apply Z_mod_same_full|lia|].
  erewrite bind_Ret by (by apply file_Ret). set (s2 := s1 <| fv := v2 |>).
  destruct (IH (i + 1) (o1 + v_bs V) s2) as (o' & s' & Hrun & Hv' & Em' & Ec' & En'); try done; [lia|lia| |].
  { change (fv s2) with v2. rewrite Em2. apply write_bytes_other; [unfold disjoint_blocks in *; lia|done]. }
  exists o', s'. split; [exact Hrun|]. split; [done|]. split; [|done].
  rewrite Em'. change (fv s2) with v2. by rewrite Em2, Eo.
Qed.

(** The entry in the sector buffer. *)
Lemma write_ent_ok t w p G1 x G2 a v s : w = ent_width t → t ≠ FAT12_VOLUME → entry t x →
  bytes_at (vmem (fv s)) p (fat_bytes w (G1 ++ x :: G2)) → a = p + Z.of_nat (w * length G1) →
  write_ent t a v s = Ret () (with_mem (write_bytes (vmem (fv s)) a (le_bytes w (with_ent t v x))) s).
Proof using Type.
  intros -> Ht Hx Hb ->. rewrite fat_bytes_app, bytes_at_app, length_fat_bytes in Hb. destruct Hb as [_ Hb].
  change (fat_bytes (ent_width t) (x :: G2)) with (le_bytes (ent_width t) x ++ fat_bytes (ent_width t) G2) in Hb.
  rewrite bytes_at_app in Hb. destruct Hb as [Hb _]. pose proof (bytes_at_mapped _ _ _ Hb) as Hm. rewrite length_le_bytes in Hm.
  destruct t; [| |done]; cbn [write_ent ent_width with_ent] in *;
    erewrite bind_Ret by (by eapply get_le_entry); unfold put_le; by rewrite store_bytes_eq by (by rewrite length_le_bytes).
Qed.

Lemma entry_addr c vp cl s : volumes s !! vp = Some c → geometry V c →
  let w := Z.of_nat (ent_width (fatType c)) in 0 <= cl → cl * w < fatSz c * v_bs V →
  GetFatEntryAddrForCluster vp cl s =
    Ret (mkEntryAddr (reservedSectorCount c + cl * w / v_bs V) ((cl * w) mod v_bs V)) s ∧ 0 <= cl * w / v_bs V < fatSz c.
Proof.
  intros Hc [Ht _ (_ & Hbps) _ (Hr0 & Hf0 & _) _ (Hs1 & Hs2) _ _] w H0 Hcl. pose proof (ve_bs _ _ HE).
  assert (0 <= cl * w / v_bs V < fatSz c) as Hq by (split; [apply Z.div_pos; lia|apply Z.div_lt_upper_bound; lia]).
  split; [|done]. unfold GetFatEntryAddrForCluster, get_volume. erewrite bind_Ret by (by apply load_eq).
  replace (match fatType c with FAT32_VOLUME => _ | FAT16_VOLUME => _ | FAT12_VOLUME => _ end) with (cl * w).
  2: { unfold w in *. destruct (fatType c); [| |done]; simpl in *; symmetry; apply wrap_small; unfold in_u; lia. }
  rewrite Hbps. unfold udiv, umod. rewrite (proj2 (Z.eqb_neq (v_bs V) 0)) by lia.
  erewrite bind_Ret by (by apply file_id). erewrite bind_Ret by (by apply file_id). by rewrite wrap_small by (unfold in_u; lia).
Qed.

(** A block of the allocator does not meet the cache. *)
Lemma alloc_apart n o p k s : vol_at V n o s → 0 < k → 0 < v_size V → (∀ a, p <= a < p + k → vmem s !! a = None) →
  disjoint_blocks p (Z.to_nat k) (v_pc V) (Z.to_nat (v_size V)).
Proof using Type.
  intros [_ _ _ _ _ _ Hm] Hk Hz Hf.
  apply disjoint_pointwise; [|lia|lia]. intros a Ha1 Ha2. destruct (mapped_at _ _ _ _ Hm Ha2) as [x Hx]. rewrite Hf in Hx; [done|lia].
Qed.

Definition set_fat (t : fat_type) (F : list Z) (cl v : Z) : list Z := alter (with_ent t v) (Z.to_nat cl) F.

Lemma set_fat_middle t F1 G1 x G2 F2 cl v : Z.of_nat (length F1 + length G1) = cl →
  set_fat t (F1 ++ (G1 ++ x :: G2) ++ F2) cl v = F1 ++ (G1 ++ with_ent t v x :: G2) ++ F2.
Proof using Type.
  intros <-. unfold set_fat. rewrite Nat2Z.id, alter_app_r. f_equal. rewrite <- !app_assoc.
  rewrite <- (Nat.add_0_r (length G1)), alter_app_r. done.
Qed.

Lemma set_fat_entries t F cl v : Forall (entry t) F → Forall (entry t) (set_fat t F cl v).
Proof using Type. intros H. apply Forall_alter; [done|]. intros x _ Hx. by apply with_ent_entry. Qed.

Lemma length_set_fat t F cl v : length (set_fat t F cl v) = length F.
Proof using Type. apply length_alter. Qed.

(** The copies lie in the cached part of the volume. *)
Lemma copies_inside c i a : geometry V c → 0 <= i < nFATs c → fat_base V c i <= a < fat_base V c i + fatSz c * v_bs V →
  v_pc V <= a < v_pc V + v_size V ∧ fat_base V c 0 <= a < fat_base V c (nFATs c).
Proof.
  intros [_ _ _ _ (Hr0 & Hf0 & Hn0) Hsz _ _ _] Hi Ha. pose proof (ve_bs _ _ HE).
  assert (fat_base V c i + fatSz c * v_bs V <= fat_base V c (nFATs c)) as H1.
  { replace (nFATs c) with (i + (nFATs c - i)) by lia. rewrite fat_base_add. nia. }
  assert (fat_base V c 0 <= fat_base V c i) as H2 by (unfold fat_base; nia). unfold fat_base in *. nia.
Qed.

Lemma fat_at_agree c F m m' : geometry V c → fat_at V c F m →
  (∀ a, v_pc V <= a < v_pc V + v_size V → m' !! a = m !! a) → fat_at V c F m'.
Proof.
  intros Hg [He Hl Hb] Hagree. split; [done|done|]. intros i Hi j b Hj. rewrite Hagree; [by apply (Hb i Hi)|].
  apply lookup_lt_Some in Hj. rewrite length_fat_bytes in Hj. eapply (copies_inside c i); [done|done|lia].
Qed.

(** Reading a sector of the first copy. *)
Lemma read_sector c n o q w F1 Sec F2 F p s : geometry V c → vol_at V n o (fv s) → fat_at V c F (vmem (fv s)) →
  w = ent_width (fatType c) → F = F1 ++ Sec ++ F2 → Z.of_nat (w * length F1) = q * v_bs V → Z.of_nat (w * length Sec) = v_bs V →
  0 <= q < fatSz c → p ≠ 0 → mapped (vmem (fv s)) p (Z.to_nat (v_bs V)) →
  disjoint_blocks p (Z.to_nat (v_bs V)) (v_pc V) (Z.to_nat (v_size V)) →
  let o1 := (reservedSectorCount c + q) * v_bs V in
  ∃ r1 r2 s1 s2, wrap64 o1 = o1 ∧ file (Vfs_FdSeek (v_desc V) o1 SEEK_SET) s = Ret r1 s1 ∧
    file (Vfs_FdRead (v_desc V) p (v_bs V) None) s1 = Ret r2 s2 ∧ vol_at V n (o1 + v_bs V) (fv s2) ∧
    vmem (fv s2) = write_bytes (vmem (fv s)) p (fat_bytes w Sec) ∧ volumes s2 = volumes s ∧ freenodes s2 = freenodes s ∧ dirents s2 = dirents s.
Proof.
  intros Hg Hv Hf -> HF HF1 HS Hq Hp Hm Hdis o1. set (w := ent_width (fatType c)) in *. pose proof (ve_bs _ _ HE).
  pose proof (ve_pc _ _ HE) as (Hpc & _ & Hmax). pose proof Hg as [_ _ _ _ (Hr0 & Hf0 & Hn0) Hsz _ _ _].
  assert (0 <= o1 ∧ o1 + v_bs V <= v_size V ∧ o1 mod v_bs V = 0) as (Ho0 & Ho1 & Hal).
  { unfold o1. split; [nia|]. split; [|apply Z_mod_mult]. etrans; [|exact Hsz].
    replace (_ + v_bs V) with ((reservedSectorCount c + (q + 1)) * v_bs V) by lia. apply Z.mul_le_mono_nonneg_r; [lia|]. nia. }
  assert (bytes_at (vmem (fv s)) (v_pc V + o1) (fat_bytes w Sec)) as Hsec.
  { pose proof (ft_copies _ _ _ _ Hf 0 ltac:(lia)) as H0. fold w in H0. rewrite HF, !fat_bytes_app, !bytes_at_app, length_fat_bytes in H0.
    replace (v_pc V + o1) with (fat_base V c 0 + Z.of_nat (w * length F1)) by (unfold o1, fat_base; lia). apply H0. }
  assert (length (fat_bytes w Sec) = Z.to_nat (v_bs V)) as Lsec by (rewrite length_fat_bytes; lia).
  set (s1 := s <| fv ::= λ v, v <| fds ::= <[v_desc V := mkFd (v_vnode V) (v_flags V) o1]> |> |>).
  destruct (vol_read HE n o1 (v_bs V) p (fat_bytes w Sec) (fv s1)) as (v2 & Hread & Hv2 & Em2); try done; rewrite ?Lsec; try lia; try done; try apply Z_mod_same_full.
  { by eapply vol_at_off. }
  { unfold disjoint_blocks in *. lia. }
  exists OBOS_STATUS_SUCCESS, (OBOS_STATUS_SUCCESS, None), s1, (s1 <| fv := v2 |>).
  split; [apply wrap_small; unfold in_u; lia|].
  split; [apply (file_Ret (Vfs_FdSeek _ _ _)); eapply (vol_seek HE); [exact Hv|lia|done]|].
  split; [by apply file_Ret|]. done.
Qed.

(** Where a cluster's entry is, in the terms of [sector_split]. *)
Lemma entry_in_table c vp F m cl s : geometry V c → fat_at V c F m → volumes s !! vp = Some c → 0 <= cl < Z.of_nat (length F) →
  let w := Z.of_nat (ent_width (fatType c)) in
  GetFatEntryAddrForCluster vp cl s =
    Ret (mkEntryAddr (reservedSectorCount c + cl * w / v_bs V) ((cl * w) mod v_bs V)) s ∧ 0 <= cl * w / v_bs V < fatSz c.
Proof.
  intros Hg Hf Hc Hcl w. pose proof (ft_length _ _ _ _ Hf) as Hlen. pose proof (ent_width_pos (fatType c)).
  apply entry_addr; try done; [lia|nia].
Qed.

(** Marking an entry changes it, in every copy, and nothing else. *)
Lemma mark_ok c vp k F cl v s : geometry V c → fat_ok V vp c (Z.to_nat (nFATs c) + k) F s → 0 <= cl < Z.of_nat (length F) →
  ∃ s', mark vp cl v s = Ret () s' ∧ fat_ok V vp c k (set_fat (fatType c) F cl (v (fatType c))) s' ∧ same_but_fats V c s s'.
Proof.
  intros Hg [Hc [o Hv] Hf] Hcl. set (w := ent_width (fatType c)). pose proof (ve_bs _ _ HE) as Hbs.
  destruct (sector_split c F _ cl Hg Hf Hcl) as (F1 & G1 & x & G2 & F2 & HF & HS & HF1 & HG1 & Hpos & Hx). fold w in HS, HF1, HG1.
  set (Sec := G1 ++ x :: G2) in *. set (Sec' := G1 ++ with_ent (fatType c) (v (fatType c)) x :: G2).
  pose proof (ft_length _ _ _ _ Hf) as Hlen. fold w in Hlen. pose proof Hg as [Ht Hfd (Hblk & Hbps) _ (Hr0 & Hf0 & Hn0) Hsz _ _].
  pose proof (ent_width_pos (fatType c)) as Hw. fold w in Hw.
  destruct (entry_in_table c vp F _ cl s Hg Hf Hc Hcl) as [Haddr Hq]. fold w in Haddr, Hq.
  set (q := cl * Z.of_nat w / v_bs V) in *.
  assert (length Sec' = length Sec) as HSec by (unfold Sec, Sec'; by rewrite !length_app).
  assert (Forall (entry (fatType c)) F) as HFe by apply Hf. pose proof (Forall_lookup_1 _ _ _ _ HFe Hx) as Hxe.
  unfold mark, get_volume. erewrite bind_Ret by exact Haddr. erewrite bind_Ret by (by apply load_eq).
  rewrite Hblk, Hfd. cbn [fea_lba fea_offset].
  destruct (fa_zalloc (v_bs V) s) as (p & Halloc & Hp & Hfresh). erewrite bind_Ret by exact Halloc.
  assert (0 < v_size V) as Hpos' by nia.
  pose proof (alloc_apart _ _ _ _ _ Hv Hbs Hpos' Hfresh) as Hdis. set (s1 := with_mem _ s).
  assert (vol_at V (Z.to_nat (nFATs c) + k) o (fv s1)) as Hv1 by (apply vol_at_mem; [done|apply write_bytes_mapped, Hv]).
  set (m0 := vmem (fv s)) in *. set (m1 := write_bytes m0 p (replicate (Z.to_nat (v_bs V)) 0)) in *.
  assert (fat_at V c F m1) as Hf1.
  { eapply fat_at_agree; [done|exact Hf|]. intros a Ha. apply write_bytes_outside. rewrite length_replicate. unfold disjoint_blocks in Hdis. lia. }
  destruct (read_sector c _ o q w F1 Sec F2 F p s1 Hg Hv1) as (r1 & r2 & s2 & s3 & Ewrap & Hseek & Hread & Hv3 & Em3 & Ec3 & En3 & _); try done.
  { intros i Hi. eexists. by apply zeros_at. }
  rewrite Ewrap. erewrite bind_Ret by exact Hseek. erewrite bind_Ret by exact Hread. clear Hseek Hread.
  change (vmem (fv s1)) with m1 in Em3. set (m3 := write_bytes m1 p (fat_bytes w Sec)) in *.
  erewrite bind_Ret.
  2: { eapply (write_ent_ok _ w p G1 x G2); try done; [|lia]. rewrite Em3. apply write_bytes_same. }
  rewrite Em3, <- HG1.
  set (m4 := write_bytes m3 _ _). set (s4 := with_mem m4 s3).
  assert (bytes_at m4 p (fat_bytes w Sec')) as Hbuf.
  { unfold Sec', m4. replace (le_bytes w (with_ent _ _ x)) with (fat_bytes w [with_ent (fatType c) (v (fatType c)) x]) by (cbn; apply app_nil_r).
    apply (write_middle w m3 p G1 [x] [with_ent (fatType c) (v (fatType c)) x] G2); [apply write_bytes_same|done|done]. }
  assert (length (fat_bytes w Sec') = Z.to_nat (v_bs V)) as Lsec' by (rewrite length_fat_bytes; lia).
  assert (vol_at V (Z.to_nat (nFATs c) + k) ((reservedSectorCount c + q) * v_bs V + v_bs V) (fv s4)) as Hv4.
  { apply vol_at_mem; [done|]. apply write_bytes_mapped. unfold m3. apply write_bytes_mapped, write_bytes_mapped. apply Hv. }
  destruct (write_fats_ok c vp (Z.to_nat (nFATs c)) k 0 q p (fat_bytes w Sec') ((reservedSectorCount c + q) * v_bs V + v_bs V) s4) as
    (o5 & s5 & Hrun & Hv5 & Em5 & Ec5 & En5); try done; rewrite ?Lsec'; try lia; try done.
  { change (volumes s3 !! vp = Some c). by rewrite Ec3. }
  erewrite bind_Ret by exact Hrun. destruct (fa_free p (v_bs V) s5) as (m6 & Hfree & Hm6). rewrite Hfree.
  eexists. split; [reflexivity|].
  assert (∀ a, ¬ p <= a < p + v_bs V → m6 !! a = write_copies c (Z.to_nat (nFATs c)) 0 (q * v_bs V) (fat_bytes w Sec') m0 !! a) as Hmem.
  { intros a Ha. rewrite Hm6, Em5 by done. apply write_copies_local. change (vmem (fv s4)) with m4. unfold m4, m3, m1.
    rewrite !write_bytes_outside; [done|rewrite length_replicate; lia|rewrite length_fat_bytes; lia|]. rewrite length_le_bytes. unfold Sec in HS.
    rewrite length_app in HS. cbn [length] in HS. nia. }
  assert (fat_at V c (F1 ++ Sec' ++ F2) (write_copies c (Z.to_nat (nFATs c)) 0 (q * v_bs V) (fat_bytes w Sec') m0)) as Hcopies.
  { split.
    - unfold Sec'. rewrite <- (set_fat_middle (fatType c) F1 G1 x G2 F2 cl) by done. apply set_fat_entries. rewrite HF in HFe. done.
    - rewrite <- Hlen, HF, !length_app. fold w. rewrite HSec. done.
    - intros i Hi. rewrite <- HF1. apply (write_copies_bytes c w F1 Sec); [lia|by rewrite <- HF|done|lia|]. rewrite <- HF. by apply Hf. }
  split.
  - split; [change (volumes s5 !! vp = Some c); rewrite Ec5; change (volumes s3 !! vp = Some c); by rewrite Ec3|exists o5; apply vol_at_mem; [done|]|].
    + intros i Hi. assert (v_pc V <= v_pc V + Z.of_nat i < v_pc V + v_size V) as Hi' by lia.
      rewrite Hm6; [by apply (va_mem _ _ _ _ Hv5)|]. unfold disjoint_blocks in Hdis. lia.
    + change (vmem (fv (with_mem m6 s5))) with m6. rewrite HF. unfold Sec. rewrite set_fat_middle by done. eapply fat_at_agree; [done|exact Hcopies|].
      intros a Ha. apply Hmem. unfold disjoint_blocks in Hdis. lia.
  - split; [change (freenodes s5 = freenodes s); by rewrite En5|]. split; [change (volumes s5 = volumes s); by rewrite Ec5|].
    intros a [b Hb] Hout. change (m6 !! a = m0 !! a).
    assert (¬ p <= a < p + v_bs V) as Ha by (intros Ha; by rewrite Hfresh in Hb). rewrite Hmem by done. apply write_copies_outside.
    intros i Hi Hin. apply Hout. rewrite Lsec' in Hin. eapply (copies_inside c i); [done|lia|].
    assert (q * v_bs V + v_bs V <= fatSz c * v_bs V); [|lia].
    replace (q * v_bs V + v_bs V) with ((q + 1) * v_bs V) by lia. apply Z.mul_le_mono_nonneg_r; lia.
Qed.

End fat.
