(* ===== verification/FatFree.v ===== *)
(** * The FAT driver: allocating and freeing clusters

    [AllocateClusters], [FreeClusters] and [InitializeCacheFreelist] on a volume whose
    free list is a list of runs of clusters that are free in the table. *)

From S2P Require Import Prelude Bytes DList Vfs VfsProofs Partition PartitionProofs VolCache Fat FatProofs.

(** ** The list of free nodes *)

(** A node: its address, its first cluster, the number of clusters. *)
Abbreviation run := (Z * (Z * Z))%type.

(** What [next] is: that of the last node is null, or the node itself. *)
Definition link_ok (o : option Z) (q nx : Z) : Prop :=
  match o with None => nx = 0 ∨ nx = q | Some x => nx = x end.

(** The nodes [rs], last one first, from [p] along [prev] to [e]; with [b], [next] is
    right too, [o] being the node after [p]. *)
Fixpoint nodes (h : gmap Z fat_freenode) (b : bool) (o : option Z) (p : Z) (rs : list run) (e : Z) : Prop :=
  match rs with
  | [] => p = e
  | (q, (c, n)) :: rs => p = q ∧ q ≠ 0 ∧ ∃ nx pv, h !! q = Some (mkFreeNode c n nx pv) ∧
      (b = true → link_ok o q nx) ∧ nodes h b (Some q) pv rs e
  end.

(** The node before which [rs] ends. *)
Definition after (o : option Z) (rs : list run) : option Z := match last rs with Some r => Some r.1 | None => o end.

Lemma after_cons o r rs : after o (r :: rs) = after (Some r.1) rs.
Proof.
  unfold after. destruct rs as [|r' rs]; [done|]. rewrite last_cons_cons.
  destruct (last (r' :: rs)) eqn:Hl; [done|]. by apply last_None in Hl.
Qed.

Lemma nodes_app h b o p r1 r2 e : nodes h b o p (r1 ++ r2) e ↔ ∃ m, nodes h b o p r1 m ∧ nodes h b (after o r1) m r2 e.
Proof.
  revert o p. induction r1 as [|[q [c n]] r1 IH]; intros o p; simpl.
  - split; [by eauto|]. by intros (m & -> & H).
  - rewrite after_cons. simpl. split.
    + intros (-> & Hq & nx & pv & Hh & Hl & (m & H1 & H2)%IH). exists m. split; [|done]. split; [done|]. split; [done|]. by exists nx, pv.
    + intros (m & (-> & Hq & nx & pv & Hh & Hl & H1) & H2). split; [done|]. split; [done|]. exists nx, pv.
      split; [done|]. split; [done|]. apply IH. eauto.
Qed.

Lemma nodes_frame h h' b o p rs e : nodes h b o p rs e → (∀ q, q ∈ rs.*1 → h' !! q = h !! q) → nodes h' b o p rs e.
Proof.
  revert o p. induction rs as [|[q [c n]] rs IH]; intros o p; simpl; [done|].
  intros (-> & Hq & nx & pv & Hh & Hl & Hn) Heq. split; [done|]. split; [done|]. exists nx, pv.
  rewrite Heq by set_solver. split; [done|]. split; [done|]. apply IH; [done|]. intros x Hx. apply Heq. set_solver.
Qed.

Lemma nodes_weaken h b o p rs e : nodes h b o p rs e → nodes h false o p rs e.
Proof.
  revert o p. induction rs as [|[q [c n]] rs IH]; intros o p; simpl; [done|].
  intros (-> & Hq & nx & pv & Hh & Hl & Hn). split; [done|]. split; [done|]. exists nx, pv.
  split; [done|]. split; [done|]. by apply IH.
Qed.

Lemma nodes_any h o o' p rs e : nodes h false o p rs e → nodes h false o' p rs e.
Proof. destruct rs as [|[q [c n]] rs]; simpl; [done|]. intros (-> & Hq & nx & pv & Hh & Hl & Hn). split; [done|]. split; [done|]. by exists nx, pv. Qed.

(** The node at the start. *)
Lemma nodes_first h b o p rs : nodes h b o p rs 0 → (rs = [] ∧ p = 0) ∨ (∃ c n r, rs = (p, (c, n)) :: r ∧ p ≠ 0).
Proof. destruct rs as [|[q [c n]] rs]; simpl; [by left|]. intros (-> & Hq & _). right. by eauto. Qed.

Lemma nodes_start h b o p rs e : nodes h b o p rs e → rs ≠ [] → p ∈ rs.*1.
Proof. destruct rs as [|[q [c n]] rs]; [done|]. simpl. intros (-> & _) _. left. Qed.

(** ** The table: linking a run *)

Fixpoint link_run (t : fat_type) (F : list Z) (cl : Z) (n : nat) : list Z :=
  match n with O => F | Datatypes.S n => link_run t (set_fat t F cl (wrap32 (cl + 1))) (cl + 1) n end.
(** The run with its last entry marked as the end. *)
Definition chain_run (t : fat_type) (F : list Z) (cl n : Z) : list Z :=
  set_fat t (link_run t F cl (Z.to_nat n)) (cl + n - 1) (end_mark t).
Fixpoint clear_run (t : fat_type) (F : list Z) (cl : Z) (n : nat) : list Z :=
  match n with O => F | Datatypes.S n => clear_run t (set_fat t F cl 0) (cl + 1) n end.

Lemma set_fat_lookup t F cl v j : 0 <= cl → 0 <= j →
  set_fat t F cl v !! Z.to_nat j = if decide (j = cl) then with_ent t v <$> F !! Z.to_nat j else F !! Z.to_nat j.
Proof.
  intros H1 H2. unfold set_fat. case_decide as Hd; [subst; apply list_lookup_alter_eq|]. apply list_lookup_alter_ne. lia.
Qed.

Lemma length_link_run t F cl n : length (link_run t F cl n) = length F.
Proof. revert F cl. induction n as [|n IH]; intros F cl; simpl; [done|]. by rewrite IH, length_set_fat. Qed.
Lemma length_clear_run t F cl n : length (clear_run t F cl n) = length F.
Proof. revert F cl. induction n as [|n IH]; intros F cl; simpl; [done|]. by rewrite IH, length_set_fat. Qed.

Lemma link_run_lookup t F cl n j : 0 <= cl → 0 <= j →
  link_run t F cl n !! Z.to_nat j =
    if decide (cl <= j < cl + Z.of_nat n) then with_ent t (wrap32 (j + 1)) <$> F !! Z.to_nat j else F !! Z.to_nat j.
Proof.
  revert F cl. induction n as [|n IH]; intros F cl Hc Hj; cbn [link_run]; [by rewrite decide_False by lia|].
  rewrite IH, set_fat_lookup by lia. repeat case_decide; subst; try lia; done.
Qed.
Lemma clear_run_lookup t F cl n j : 0 <= cl → 0 <= j →
  clear_run t F cl n !! Z.to_nat j =
    if decide (cl <= j < cl + Z.of_nat n) then with_ent t 0 <$> F !! Z.to_nat j else F !! Z.to_nat j.
Proof.
  revert F cl. induction n as [|n IH]; intros F cl Hc Hj; cbn [clear_run]; [by rewrite decide_False by lia|].
  rewrite IH, set_fat_lookup by lia. repeat case_decide; subst; try lia; done.
Qed.

(** ** The free clusters *)

(** The clusters of a list of runs. *)
Definition clusters (rs : list run) : list Z := rs ≫= λ r, seqZ r.2.1 r.2.2.
(** The entry of the cluster [cl] is [v]. *)
Definition entry_is (t : fat_type) (F : list Z) (v cl : Z) : Prop := ∃ x, F !! Z.to_nat cl = Some x ∧ ent_val t x = v.

(** The runs are disjoint, none is empty, and their clusters are free clusters. *)
Record free_runs (c : fat_cache) (F : list Z) (rs : list run) : Prop := {
  fr_nodup : NoDup (clusters rs);
  fr_range : Forall (λ cl, 0 <= cl < CountofClusters c) (clusters rs);
  fr_zero : Forall (entry_is (fatType c) F 0) (clusters rs);
  fr_pos : Forall (λ r, 0 < r.2.2) rs;
  fr_count : freeClusterCount c = Z.of_nat (length (clusters rs))
}.

(** The state of a mounted volume: the table [F], the free list [rs], [k] more writes. *)
Record fat_inv {E : VfsEnv} (V : volume) (vp : Z) (c : fat_cache) (b : bool) (k : nat) (F : list Z) (rs : list run) (s : fatst) : Prop := {
  fi_ok : fat_ok V vp c k F s;
  fi_geo : geometry V c;
  fi_nodes : nodes (freenodes s) b None (fl_tail c) rs 0;
  fi_nodup : NoDup rs.*1;
  fi_free : free_runs c F rs
}.

(** The volume with another free list. *)
Definition with_list (c : fat_cache) (hd tl nn fc : Z) : fat_cache :=
  c <| fl_head := hd |> <| fl_tail := tl |> <| fl_nNodes := nn |> <| freeClusterCount := fc |>.

Lemma geometry_list V c hd tl nn fc : geometry V c → geometry V (with_list c hd tl nn fc).
Proof. intros []. by split. Qed.
Lemma fat_at_list V c hd tl nn fc F m : fat_at V c F m → fat_at V (with_list c hd tl nn fc) F m.
Proof. intros []. by split. Qed.

Lemma clusters_app r1 r2 : clusters (r1 ++ r2) = clusters r1 ++ clusters r2.
Proof. apply bind_app. Qed.
Lemma clusters_cons q c n rs : clusters ((q, (c, n)) :: rs) = seqZ c n ++ clusters rs.
Proof. done. Qed.

Lemma run_bounds c F rs q c0 m : free_runs c F rs → (q, (c0, m)) ∈ rs → 0 < m ∧ 0 <= c0 ∧ c0 + m <= CountofClusters c.
Proof.
  intros [_ Hr _ Hp _] Hin. rewrite Forall_forall in Hr. rewrite Forall_forall in Hp. specialize (Hp _ Hin). simpl in Hp.
  assert (∀ x, x ∈ seqZ c0 m → x ∈ clusters rs) as Hc by (intros x Hx; apply list_elem_of_bind; by exists (q, (c0, m))).
  pose proof (Hr c0 ltac:(apply Hc, elem_of_seqZ; lia)). pose proof (Hr (c0 + m - 1) ltac:(apply Hc, elem_of_seqZ; lia)). lia.
Qed.

Lemma free_count_bound c F rs : free_runs c F rs → 0 <= CountofClusters c → 0 <= freeClusterCount c <= CountofClusters c.
Proof.
  intros [Hnd Hr _ _ ->] H0. rewrite Forall_forall in Hr.
  assert (clusters rs ⊆+ seqZ 0 (CountofClusters c)) as Hsub by (apply NoDup_submseteq; [done|]; intros x Hx; apply elem_of_seqZ; by apply Hr in Hx).
  apply submseteq_length in Hsub. rewrite length_seqZ in Hsub. lia.
Qed.

Lemma table_bounds V c F m : geometry V c → fat_at V c F m → CountofClusters c <= Z.of_nat (length F) < 2 ^ 32 ∧ CountofClusters c < 2 ^ 28.
Proof.
  intros [_ _ _ _ _ _ (Hs & _) Hc (_ & Hn)] [_ Hl _]. assert (0 < ent_width (fatType c))%nat by (destruct (fatType c); simpl; lia).
  split; [split; nia|]. destruct (fatType c); simpl in Hc; lia.
Qed.

(** Taking [n] clusters from the end of a run. *)
Definition taken (q c0 m n : Z) : list run := if decide (m = n) then [] else [(q, (c0, m - n))].
Lemma clusters_take r1 q c0 m n r2 : 0 < n <= m →
  clusters (r1 ++ (q, (c0, m)) :: r2) ≡ₚ seqZ (c0 + m - n) n ++ clusters (r1 ++ taken q c0 m n ++ r2).
Proof.
  intros Hn. rewrite !clusters_app, clusters_cons.
  assert (clusters (taken q c0 m n) = seqZ c0 (m - n)) as ->.
  { unfold taken. case_decide as Hd; [by rewrite seqZ_nil by lia|]. rewrite clusters_cons. apply app_nil_r. }
  replace m with ((m - n) + n) at 1 by lia. rewrite seqZ_app by lia.
  replace (c0 + (m - n)) with (c0 + m - n) by lia.
  by rewrite <- (app_assoc (seqZ c0 (m - n))), (app_assoc (clusters r1)), Permutation_app_swap_app, <- (app_assoc (clusters r1)).
Qed.

Lemma chain_run_lookup t F cl n j : 0 <= cl → 0 < n → 0 <= j →
  chain_run t F cl n !! Z.to_nat j =
    if decide (cl <= j < cl + n) then
      (if decide (j = cl + n - 1) then with_ent t (end_mark t) else id) ∘ with_ent t (wrap32 (j + 1)) <$> F !! Z.to_nat j
    else F !! Z.to_nat j.
Proof.
  intros Hc Hn Hj. unfold chain_run. rewrite set_fat_lookup, link_run_lookup by lia. rewrite Z2Nat.id by lia.
  destruct (decide (cl <= j < cl + n)) as [Hin|Hout]; [|by rewrite decide_False by lia].
  destruct (decide (j = cl + n - 1)); by destruct (F !! Z.to_nat j).
Qed.

(** The run becomes a chain, the other entries stay. *)
Lemma chain_run_entries V c F m cl n : geometry V c → fat_at V c F m → 0 <= cl → 0 < n → cl + n <= CountofClusters c →
  let t := fatType c in let F' := chain_run t F cl n in
  (∀ j, cl <= j < cl + n → entry_is t F' (if decide (j = cl + n - 1) then end_mark t else j + 1) j) ∧
  (∀ j, 0 <= j → ¬ cl <= j < cl + n → F' !! Z.to_nat j = F !! Z.to_nat j).
Proof.
  intros Hg Hf Hc Hn Hcl t F'. destruct (table_bounds _ _ _ _ Hg Hf) as [[Hlen Hmax] Hsmall].
  split; intros j Hj; unfold F'; [|intros Hout; by rewrite chain_run_lookup, decide_False by lia].
  destruct (lookup_lt_is_Some_2 F (Z.to_nat j)) as [x Hx]; [lia|]. pose proof (Forall_lookup_1 _ _ _ _ (ft_entries _ _ _ _ Hf) Hx) as He.
  eexists. rewrite chain_run_lookup, decide_True, Hx by lia. split; [reflexivity|]. cbn [compose fmap].
  pose proof (g_chain _ _ Hg) as Hend. fold t in Hend, He.
  destruct (decide (j = cl + n - 1)).
  - cbn. rewrite ent_val_with by (by apply with_ent_entry). apply Z.mod_small. destruct t; cbn; lia.
  - cbn. rewrite ent_val_with by done. rewrite (wrap_small 32) by (unfold in_u; lia). apply Z.mod_small.
    destruct t; cbn in *; lia.
Qed.

(** Taking a run from the free list, its entries being changed, leaves a free list. *)
Lemma take_free_runs c F F' r1 q c0 m n r2 hd tl nn : free_runs c F (r1 ++ (q, (c0, m)) :: r2) → 0 < n <= m →
  (∀ j, 0 <= j → ¬ c0 + m - n <= j < c0 + m - n + n → F' !! Z.to_nat j = F !! Z.to_nat j) →
  free_runs (with_list c hd tl nn (freeClusterCount c - n)) F' (r1 ++ taken q c0 m n ++ r2).
Proof.
  intros [Hnd Hr Hz Hp Hc] Hn HF'. pose proof (clusters_take r1 q c0 m n r2 Hn) as Hperm. rewrite Hperm in Hnd, Hr, Hz.
  apply NoDup_app in Hnd as (_ & Hd & Hnd). apply Forall_app in Hr as [_ Hr]. apply Forall_app in Hz as [_ Hz].
  split; [done|done| | |].
  - rewrite Forall_forall in Hz. apply Forall_forall. intros x Hx. destruct (Hz x Hx) as (e & He & Hv). exists e. split; [|done].
    rewrite HF'; [done| |]. { rewrite Forall_forall in Hr. apply Hr in Hx. lia. } intros Hin. eapply Hd; [|exact Hx]. apply elem_of_seqZ. lia.
  - apply Forall_app in Hp as [H1 H2]. apply Forall_app. split; [done|]. apply Forall_cons in H2 as [_ H2]. apply Forall_app. split; [|done].
    unfold taken. case_decide; [done|]. constructor; [simpl; lia|done].
  - simpl. rewrite Hc, Hperm, length_app, length_seqZ. lia.
Qed.

Lemma taken_fst r1 q c0 m n r2 : NoDup (r1 ++ (q, (c0, m)) :: r2).*1 → NoDup (r1 ++ taken q c0 m n ++ r2).*1.
Proof.
  unfold taken. case_decide; rewrite !fmap_app; simpl; [|done]. intros (H1 & H2 & [H3 H4]%NoDup_cons)%NoDup_app.
  apply NoDup_app. split; [done|]. split; [|done]. intros x Hx Hin. eapply H2; [done|by right].
Qed.

Lemma nodes_mapped h b o p rs e x : nodes h b o p rs e → x ∈ rs.*1 → is_Some (h !! x).
Proof.
  revert o p. induction rs as [|[q [c n]] rs IH]; intros o p; simpl; [by intros _ ?%not_elem_of_nil|]. intros (-> & _ & nx & pv & Hq & _ & Hn) [->|Hx]%elem_of_cons; [by eauto|by eapply IH].
Qed.

Lemma nodes_size h b o p rs e : nodes h b o p rs e → NoDup rs.*1 → (length rs <= size h)%nat.
Proof.
  intros Hn Hnd. rewrite <- (length_fmap fst rs), <- (size_list_to_set (C := gset Z) rs.*1) by done. rewrite <- (size_dom h).
  apply subseteq_size. intros x Hx%elem_of_list_to_set. apply elem_of_dom. by eapply nodes_mapped.
Qed.

(** The first run that is long enough. *)
Lemma split_fit (n : Z) (rs : list run) : Forall (λ r, r.2.2 < n) rs ∨
  ∃ r1 q c m r2, rs = r1 ++ (q, (c, m)) :: r2 ∧ n <= m ∧ Forall (λ r, r.2.2 < n) r1.
Proof.
  induction rs as [|[q [c m]] rs IH]; [by left|]. destruct (Z.lt_ge_cases m n) as [Hlt|Hge].
  - destruct IH as [Hall|(r1 & q' & c' & m' & r2 & -> & Hm & Hall)]; [left; by constructor|].
    right. exists ((q, (c, m)) :: r1), q', c', m', r2. split; [done|]. split; [done|]. by constructor.
  - right. by exists [], q, c, m, rs.
Qed.

(** Replacing the count of a node. *)
Lemma nodes_count h b o p r1 q c m m' r2 f : nodes h b o p (r1 ++ (q, (c, m)) :: r2) 0 → NoDup (r1 ++ (q, (c, m)) :: r2).*1 →
  (∀ nx pv, f (mkFreeNode c m nx pv) = mkFreeNode c m' nx pv) →
  nodes (alter f q h) b o p (r1 ++ (q, (c, m')) :: r2) 0.
Proof.
  rewrite !nodes_app. intros (e & H1 & H2) Hnd Hf. rewrite fmap_app in Hnd. simpl in Hnd.
  apply NoDup_app in Hnd as (_ & Hd & [Hnin _]%NoDup_cons). exists e.
  split; [eapply nodes_frame; [exact H1|]; intros x Hx; apply lookup_alter_ne; intros <-; by eapply Hd; [|left]|].
  simpl in *. destruct H2 as (-> & Hq & nx & pv & Hh & Hl & H2). split; [done|]. split; [done|]. exists nx, pv.
  rewrite lookup_alter_eq, Hh. simpl. rewrite Hf. split; [done|]. split; [done|].
  eapply nodes_frame; [exact H2|]. intros x Hx. apply lookup_alter_ne. by intros <-.
Qed.

(** The first node of a list with its [next] set to [x]. *)
Lemma nodes_relink h h' b o o' x p rs : nodes h b o p rs 0 → NoDup rs.*1 → (p ≠ 0 → link_ok o' p x) →
  (∀ a, a ∈ rs.*1 → h' !! a = if decide (a = p) then (λ n, n <| fn_next := x |>) <$> h !! a else h !! a) → nodes h' b o' p rs 0.
Proof.
  destruct rs as [|[q [c n]] rs]; simpl; [done|]. intros (-> & Hq & nx & pv & Hh & _ & Hn) [Hnin _]%NoDup_cons Hlink Hh'.
  split; [done|]. split; [done|]. exists x, pv. rewrite Hh', decide_True, Hh by (done || left).
  split; [done|]. split; [by intros _; apply Hlink|]. eapply nodes_frame; [exact Hn|]. intros a Ha. rewrite Hh' by (by right).
  rewrite decide_False; [done|]. by intros ->.
Qed.

(** A store through a pointer that may be null. *)
Definition alter_at (k : Z) (f : fat_freenode → fat_freenode) (h : gmap Z fat_freenode) : gmap Z fat_freenode :=
  if decide (k = 0) then h else alter f k h.
Lemma alter_at_lookup k f h a : alter_at k f h !! a = if decide (a = k ∧ k ≠ 0) then f <$> h !! a else h !! a.
Proof.
  unfold alter_at. destruct (decide (k = 0)) as [->|Hk]; [by rewrite decide_False by tauto|]. destruct (decide (a = k)) as [->|Ha].
  - by rewrite decide_True, lookup_alter_eq by done.
  - by rewrite decide_False, lookup_alter_ne by naive_solver.
Qed.

(** Unlinking a node at either end keeps the list; in the middle, [prev] only. *)
Lemma unlink_nodes h q c m nx pv r1 r2 tl : nodes h true None tl (r1 ++ (q, (c, m)) :: r2) 0 → NoDup (r1 ++ (q, (c, m)) :: r2).*1 →
  h !! q = Some (mkFreeNode c m nx pv) →
  let h1 := alter_at pv (λ x, x <| fn_next := pv |>) h in
  let h2 := alter_at nx (λ x, x <| fn_prev := pv |>) h1 in
  (pv ≠ 0 → is_Some (h !! pv) ∧ pv ≠ q) ∧ (nx ≠ 0 → is_Some (h1 !! nx)) ∧ (tl = q ↔ r1 = []) ∧
  h2 !! q = Some (mkFreeNode c m nx pv) ∧
  nodes (delete q h2) (bool_decide (r1 = [] ∨ r2 = [])) None (if decide (tl = q) then pv else tl) (r1 ++ r2) 0.
Proof.
  rewrite nodes_app. intros (e & H1 & H2) Hnd Hh h1 h2. rewrite fmap_app in Hnd. simpl in Hnd.
  apply NoDup_app in Hnd as (Hnd1 & Hd & [Hnin Hnd2]%NoDup_cons). simpl in H2. destruct H2 as (-> & Hq & nx' & pv' & Hh' & Hl & H2).
  rewrite Hh in Hh'. injection Hh' as <- <-. specialize (Hl eq_refl).
  assert (pv ≠ 0 → pv ∈ r2.*1 ∧ is_Some (h !! pv)) as Hpv.
  { intros Hpv. destruct r2 as [|[p2 [c2 n2]] r2]; [done|]. simpl in H2. destruct H2 as (-> & _ & ? & ? & Hp & _). split; [left|by eauto]. }
  assert (pv ≠ 0 → pv ≠ q) as Hpq by (intros H0 ->; by destruct (Hpv H0)).
  pose proof (alter_at_lookup pv (λ x, x <| fn_next := pv |>) h) as Hh1. fold h1 in Hh1.
  pose proof (alter_at_lookup nx (λ x, x <| fn_prev := pv |>) h1) as Hh2. fold h2 in Hh2.
  assert (h1 !! q = h !! q) as Hq1 by (rewrite Hh1, decide_False; [done|intros [-> ?]; by apply Hpq]).
  assert (h2 !! q = Some (mkFreeNode c m nx pv)) as Hq2 by (rewrite Hh2, Hq1, Hh; by destruct (decide (q = nx ∧ nx ≠ 0))).
  assert (nx ∉ r2.*1 → nodes (delete q h2) true None pv r2 0) as Hr2.
  { intros Hnx. eapply nodes_relink; [exact H2|done|by right|]. intros a Ha. rewrite lookup_delete_ne by (intros <-; done).
    rewrite Hh2, decide_False by (intros [-> _]; done). rewrite Hh1. destruct (decide (a = pv)) as [->|Hne]; [|by rewrite decide_False by tauto].
    rewrite decide_True; [done|]. split; [done|]. apply nodes_first in H2 as [[-> _]|(? & ? & ? & _ & Hz)]; [by apply not_elem_of_nil in Ha|done]. }
  split; [by intros Hz; split; [apply Hpv|apply Hpq]|].
  destruct r1 as [|[x [cx mx]] r1' _] using rev_ind.
  - simpl in H1. subst tl. simpl in Hl. split; [|split; [done|split; [done|]]].
    + intros Hnx. destruct Hl as [->| ->]; [done|]. by rewrite Hq1, Hh.
    + rewrite bool_decide_eq_true_2 by (by left). rewrite decide_True by done. apply Hr2. destruct Hl as [->| ->]; [|done].
      intros Hin. clear -H2 Hin. revert H2 Hin. generalize (Some q) pv. induction r2 as [|[y [? ?]] r2 IH]; intros o p; [set_solver|].
      simpl. intros (_ & Hy & ? & ? & _ & _ & Hn) [<-|Hin]%elem_of_cons; [done|by eapply IH].
  - unfold after in Hl. rewrite last_snoc in Hl. simpl in Hl. subst nx. pose proof (nodes_start _ _ _ _ _ _ H1) as Htl.
    apply nodes_app in H1 as (e & H1 & Hx). simpl in Hx. destruct Hx as (-> & Hx0 & nxx & pvx & Hhx & Hlx & ->).
    rewrite fmap_app in *. simpl in Hd, Hnd1, Htl. apply NoDup_app in Hnd1 as (_ & Hnd1 & _).
    assert (x ≠ q ∧ x ∉ r2.*1) as [Hxq Hxr].
    { specialize (Hd x ltac:(set_solver)). split; [intros ->; apply Hd; left|intros Hin; apply Hd; by right]. }
    assert (h1 !! x = h !! x) as Hx1. { rewrite Hh1, decide_False; [done|]. intros [-> Hz]. by apply Hxr, Hpv. }
    assert (tl ≠ q) as Htq. { intros ->. eapply Hd; [apply Htl; by destruct r1'|left]. }
    split; [by rewrite Hx1, Hhx|]. split; [split; [done|by destruct r1']|]. split; [done|].
    rewrite decide_False by done. rewrite !nodes_app. exists pv. rewrite nodes_app. split.
    + exists x. split.
      * assert (nodes (delete q h2) true None tl r1' x) as H1'.
        { eapply nodes_frame; [exact H1|]. intros a Ha. rewrite lookup_delete_ne by (intros <-; eapply Hd; [by apply elem_of_app; left|left]).
          rewrite Hh2, decide_False by (intros [-> _]; eapply Hnd1; [done|left]). rewrite Hh1, decide_False; [done|].
          intros [-> Hz]. eapply Hd; [by apply elem_of_app; left|right; by apply Hpv]. }
        by destruct (bool_decide _); [|eapply nodes_weaken].
      * simpl. split; [done|]. split; [done|]. exists nxx, pv. rewrite lookup_delete_ne, Hh2, decide_True, Hx1, Hhx by done.
        split; [done|]. split; [by intros _; apply Hlx|done].
    + case_bool_decide as Hb.
      * destruct Hb as [Hb| ->]; [by destruct r1'|done].
      * eapply nodes_any, nodes_weaken, Hr2. done.
Qed.

(** Appending a node. *)
Lemma append_nodes h b c n p tl rs : nodes h b None tl rs 0 → NoDup rs.*1 → p ∉ rs.*1 → p ≠ 0 →
  h !! p = Some (mkFreeNode c n 0 0) →
  let h1 := alter_at tl (λ x, x <| fn_next := p |>) h in
  (tl ≠ 0 → is_Some (h !! tl)) ∧ h1 !! p = Some (mkFreeNode c n 0 0) ∧
  nodes (alter (λ x, x <| fn_prev := tl |>) p h1) b None p ((p, (c, n)) :: rs) 0.
Proof.
  intros Hn Hnd Hp Hp0 Hh h1. pose proof (alter_at_lookup tl (λ x, x <| fn_next := p |>) h) as Hh1. fold h1 in Hh1.
  assert (tl ≠ 0 → tl ∈ rs.*1) as Htl.
  { intros Hz. eapply nodes_start; [exact Hn|]. intros ->. simpl in Hn. done. }
  assert (h1 !! p = Some (mkFreeNode c n 0 0)) as Hp1. { rewrite Hh1, decide_False; [done|]. intros [-> Hz]. by apply Hp, Htl. }
  split; [|split; [done|]].
  - intros Hz. apply nodes_first in Hn as Hf. destruct Hf as [[-> ->]|(c' & n' & r & -> & _)]; [done|]. simpl in Hn.
    destruct Hn as (_ & _ & nx & pv & -> & _). by eexists.
  - simpl. split; [done|]. split; [done|]. exists 0, tl. rewrite lookup_alter_eq, Hp1. split; [done|]. split; [by left|].
    eapply (nodes_relink h _ b None _ p); [exact Hn|done|done|]. intros a Ha. rewrite lookup_alter_ne by (intros <-; done).
    rewrite Hh1. destruct (decide (a = tl)) as [->|Hne]; [|by rewrite decide_False by tauto]. rewrite decide_True; [done|]. split; [done|].
    apply nodes_first in Hn as [[-> _]|(? & ? & ? & _ & Hz)]; [by apply not_elem_of_nil in Ha|done].
Qed.

(** Clearing an entry undoes what was written to it. *)
Lemma with_ent_twice t v w x : t ≠ FAT12_VOLUME → with_ent t v (with_ent t w x) = with_ent t v x.
Proof.
  intros Ht. destruct t; [|done|done]. unfold with_ent. pose proof (Z.div_mod x (2 ^ 28)).
  replace ((x - x mod 2 ^ 28 + w mod 2 ^ 28) mod 2 ^ 28) with (w mod 2 ^ 28); [lia|].
  replace (x - x mod 2 ^ 28 + w mod 2 ^ 28) with (w mod 2 ^ 28 + x / 2 ^ 28 * 2 ^ 28) by lia. rewrite Z.mod_add by lia. symmetry. apply Zmod_mod.
Qed.

Lemma with_ent_zero t x : ent_val t x = 0 → with_ent t 0 x = x.
Proof. destruct t; unfold with_ent, ent_val; [|by intros ->..]. intros ->. rewrite Z.mod_0_l by lia. lia. Qed.

Lemma clear_chain t F cl n : t ≠ FAT12_VOLUME → 0 <= cl → 0 < n → (∀ j, cl <= j < cl + n → entry_is t F 0 j) →
  clear_run t (chain_run t F cl n) cl (Z.to_nat n) = F.
Proof.
  intros Ht Hc Hn Hz. apply list_eq. intros i. rewrite <- (Nat2Z.id i). set (j := Z.of_nat i).
  rewrite clear_run_lookup, chain_run_lookup by (subst j; lia). rewrite (Z2Nat.id n) by lia.
  destruct (decide (cl <= j < cl + n)) as [Hj|]; [|done]. destruct (Hz j Hj) as (x & Hx & Hv). rewrite Hx. cbn. f_equal.
  destruct (decide (j = cl + n - 1)); cbn; rewrite !with_ent_twice by done; by apply with_ent_zero.
Qed.

(** A run of free clusters joins the free list. *)
Lemma push_free_runs c F rs p cl n hd tl nn : free_runs c F rs → 0 <= cl → 0 < n → cl + n <= CountofClusters c →
  (∀ j, cl <= j < cl + n → entry_is (fatType c) F 0 j ∧ j ∉ clusters rs) →
  free_runs (with_list c hd tl nn (freeClusterCount c + n)) F ((p, (cl, n)) :: rs).
Proof.
  intros [Hnd Hr Hz Hp Hc] H0 Hn Hcl Hnew. split; rewrite ?clusters_cons.
  - apply NoDup_app. split; [apply NoDup_seqZ|]. split; [|done]. intros j Hj%elem_of_seqZ. by apply Hnew.
  - apply Forall_app. split; [|done]. apply Forall_seqZ. intros j Hj. simpl. lia.
  - apply Forall_app. split; [|done]. apply Forall_seqZ. intros j Hj. by apply Hnew.
  - by constructor.
  - rewrite length_app, length_seqZ. simpl. lia.
Qed.

(** A run that is cleared joins the free list. *)
Lemma add_free_runs c F rs p cl n hd tl nn : free_runs c F rs → Forall (entry (fatType c)) F → CountofClusters c <= Z.of_nat (length F) →
  0 <= cl → 0 < n → cl + n <= CountofClusters c → (∀ j, cl <= j < cl + n → j ∉ clusters rs) →
  free_runs (with_list c hd tl nn (freeClusterCount c + n)) (clear_run (fatType c) F cl (Z.to_nat n)) ((p, (cl, n)) :: rs).
Proof.
  intros [Hnd Hr Hz Hp Hc] He Hlen H0 Hn Hcl Hnew. apply push_free_runs; try done.
  - split; try done. rewrite Forall_forall in Hz. apply Forall_forall. intros j Hj. destruct (Hz j Hj) as (x & Hx & Hv). exists x. split; [|done].
    rewrite Forall_forall in Hr. specialize (Hr j Hj). simpl in Hr.
    rewrite clear_run_lookup by lia. rewrite decide_False; [done|]. intros Hj'. apply (Hnew j); [lia|done].
  - intros j Hj. split; [|by apply Hnew]. destruct (lookup_lt_is_Some_2 F (Z.to_nat j)) as [x Hx]; [lia|]. exists (with_ent (fatType c) 0 x).
    rewrite clear_run_lookup, decide_True, Hx by lia. split; [done|].
    rewrite ent_val_with by (eapply Forall_lookup_1; [exact He|done]). by apply Z.mod_0_l; destruct (fatType c).
Qed.

Section ops.
Context {E : VfsEnv} {V : volume} (HE : volume_env E V) `{FL : FatAllocLaws}.
#[local] Set Default Proof Using "Type*".

(** *** Nodes *)

Lemma set_node_alter p f v s : freenodes s !! p = Some v → set_node p f s = Ret () (s <| freenodes ::= alter f p |>).
Proof using Type.
  intros Hv. unfold set_node. rewrite (store_eq _ _ _ _ _ _ Hv). f_equal. unfold set_field. simpl. f_equal. apply map_eq. intros i.
  destruct (decide (i = p)) as [->|]; [by rewrite lookup_insert_eq, lookup_alter_eq, Hv|by rewrite lookup_insert_ne, lookup_alter_ne].
Qed.

(** The search ends at the last run that is long enough, or fails. *)
Lemma search_node_ok b n r1 rs o p fuel s : nodes (freenodes s) b o p (r1 ++ rs) 0 → (length (r1 ++ rs) < fuel)%nat →
  Forall (λ r, r.2.2 < n) r1 → (∀ r, head rs = Some r → n <= r.2.2) →
  find_node fuel p n s = Ret (match rs with r :: _ => r.1 | [] => 0 end) s.
Proof using Type.
  intros Hn Hf Hall Hfit. revert o p fuel Hn Hf. induction Hall as [|[q [c m]] r1 Hm _ IH]; intros o p fuel Hn Hf; (destruct fuel as [|fuel]; [simpl in Hf; lia|]).
  - destruct rs as [|[q [c m]] rs]; simpl in Hn; [by subst|]. destruct Hn as (-> & Hq & nx & pv & Hh & _ & Hn). specialize (Hfit _ eq_refl). simpl in Hfit.
    cbn [find_node]. rewrite (proj2 (truthy_true q)) by done. cbn [negb]. unfold get_node. erewrite bind_Ret by (by apply load_eq).
    cbn [fn_nClusters]. by rewrite (proj2 (Z.ltb_ge _ _)) by lia.
  - simpl in Hn, Hf, Hm. destruct Hn as (-> & Hq & nx & pv & Hh & _ & Hn). cbn [find_node].
    rewrite (proj2 (truthy_true q)) by done. cbn [negb]. unfold get_node. erewrite bind_Ret by (by apply load_eq).
    cbn [fn_nClusters fn_prev]. rewrite (proj2 (Z.ltb_lt _ _)) by lia. eapply IH; [done|lia].
Qed.

Lemma when_node k f s : (k ≠ 0 → is_Some (freenodes s !! k)) →
  when (truthy k) (set_node k f) s = Ret () (s <| freenodes ::= alter_at k f |>).
Proof using Type.
  intros Hk. unfold alter_at. destruct (decide (k = 0)) as [->|Hz]; [by destruct s|]. destruct (Hk Hz) as [v Hv].
  rewrite (proj2 (truthy_true k)) by done. by apply (set_node_alter _ _ v).
Qed.

Lemma set_volume_eq vp f c s : volumes s !! vp = Some c → set_volume vp f s = Ret () (s <| volumes ::= <[vp := f c]> |>).
Proof using Type. intros Hc. unfold set_volume. by rewrite (store_eq _ _ _ _ _ _ Hc). Qed.

Lemma unlink_ok vp cc q c m r1 r2 s : volumes s !! vp = Some cc → nodes (freenodes s) true None (fl_tail cc) (r1 ++ (q, (c, m)) :: r2) 0 →
  NoDup (r1 ++ (q, (c, m)) :: r2).*1 →
  ∃ hd tl h', unlink_node vp q s = Ret () (s <| freenodes := h' |>
      <| volumes ::= <[vp := with_list cc hd tl (wrap64 (fl_nNodes cc - 1)) (freeClusterCount cc)]> |>) ∧
    nodes h' (bool_decide (r1 = [] ∨ r2 = [])) None tl (r1 ++ r2) 0.
Proof.
  intros Hc Hn Hnd. pose proof Hn as Hn'. apply nodes_app in Hn' as (e & _ & Hq). simpl in Hq. destruct Hq as (-> & _ & nx & pv & Hq & _).
  destruct (unlink_nodes _ _ _ _ nx pv _ _ _ Hn Hnd Hq) as (Hpv & Hnx & Htl & Hq2 & Hres).
  set (h1 := alter_at pv (λ x, x <| fn_next := pv |>) (freenodes s)) in *. set (h2 := alter_at nx (λ x, x <| fn_prev := pv |>) h1) in *.
  eexists (if fl_head cc =? q then nx else fl_head cc), _, _. split; [|exact Hres].
  unfold unlink_node, get_node, get_volume. erewrite bind_Ret by (by apply load_eq). cbn [fn_prev].
  erewrite bind_Ret by (apply when_node; intros Hz; by apply Hpv). set (s1 := s <| freenodes ::= _ |>).
  assert (freenodes s1 !! q = Some (mkFreeNode c m nx pv)) as Hq1.
  { change (h1 !! q = Some (mkFreeNode c m nx pv)). unfold h1. rewrite alter_at_lookup, decide_False; [done|]. intros [-> Hz]. by apply Hpv. }
  erewrite bind_Ret by (by apply load_eq). cbn [fn_next fn_prev].
  erewrite bind_Ret by (apply when_node; exact Hnx). set (s2 := s1 <| freenodes ::= _ |>).
  erewrite bind_Ret by (apply load_eq; exact Hq2). erewrite bind_Ret by (apply load_eq; exact Hc). cbn [fn_next fn_prev].
  erewrite (bind_Ret _ _ s2 () (s2 <| volumes ::= <[vp := cc <| fl_head := if fl_head cc =? q then nx else fl_head cc |>]> |>)).
  2: { unfold when. destruct (fl_head cc =? q); [by apply set_volume_eq|]. unfold mret, K_ret. f_equal. unfold s2, s1. simpl.
       rewrite insert_id by (by destruct cc). by destruct s. }
  set (s3 := s2 <| volumes ::= _ |>). set (c3 := cc <| fl_head := if fl_head cc =? q then nx else fl_head cc |>).
  assert (volumes s3 !! vp = Some c3) as Hc3 by apply lookup_insert_eq.
  erewrite (bind_Ret _ _ s3 () (s3 <| volumes ::= <[vp := c3 <| fl_tail := if decide (fl_tail cc = q) then pv else fl_tail cc |>]> |>)).
  2: { unfold when. destruct (Z.eqb_spec (fl_tail cc) q) as [Heq|Hne].
       - rewrite (decide_True _ _ Heq). by apply set_volume_eq.
       - rewrite (decide_False _ _ Hne). unfold mret, K_ret. f_equal. unfold s3, s2, s1. simpl. rewrite insert_insert_eq. by destruct cc, s. }
  erewrite bind_Ret by (apply set_volume_eq, lookup_insert_eq). rewrite fa_node_free. f_equal. unfold s3, s2, s1, c3. simpl.
  rewrite !insert_insert_eq. done.
Qed.

(** *** Runs of the table *)

Lemma mark_run_ok vp c n i cl k F s : geometry V c → fat_ok V vp c (Z.to_nat (nFATs c) * n + k) F s →
  0 <= cl + i → cl + i + Z.of_nat n <= Z.of_nat (length F) → Z.of_nat (length F) <= 2 ^ 32 →
  ∃ s', mark_run n i vp cl s = Ret () s' ∧ fat_ok V vp c k (link_run (fatType c) F (cl + i) n) s' ∧ same_but_fats V c s s'.
Proof.
  intros Hg. revert i F s. induction n as [|n IH]; intros i F s Hs H0 Hn Hmax.
  - exists s. split; [done|]. split; [|apply same_refl]. by rewrite Nat.mul_0_r in Hs.
  - cbn [mark_run link_run]. unfold markAllocated. rewrite (wrap_small 32 (cl + i)) by (unfold in_u; lia).
    destruct (mark_ok HE c vp (Z.to_nat (nFATs c) * n + k) F (cl + i) (λ _, wrap32 (cl + i + 1)) s) as (s1 & H1 & Hs1 & Hsame); try done; [|lia|].
    { by replace (Z.to_nat (nFATs c) + (Z.to_nat (nFATs c) * n + k))%nat with (Z.to_nat (nFATs c) * S n + k)%nat by lia. }
    erewrite bind_Ret by exact H1. destruct (IH (i + 1) _ s1 Hs1) as (s2 & H2 & Hs2 & Hsame2); rewrite ?length_set_fat; try lia.
    exists s2. split; [exact H2|]. rewrite Z.add_assoc in Hs2. split; [done|by eapply same_trans].
Qed.

(** *** Allocating *)

(** Marking a run as a chain. *)
Lemma chain_ok vp c cl n k F s : geometry V c → fat_ok V vp c (Z.to_nat (nFATs c) * (Z.to_nat n + 1) + k) F s →
  0 <= cl → 0 < n → cl + n <= CountofClusters c →
  ∃ s' s'', mark_run (Z.to_nat n) 0 vp cl s = Ret () s' ∧ markEnd vp (wrap32 (cl + wrap64 (n - 1))) s' = Ret () s'' ∧
    fat_ok V vp c k (chain_run (fatType c) F cl n) s'' ∧ same_but_fats V c s s''.
Proof.
  intros Hg Hs Hc Hn Hcl. destruct (table_bounds _ _ _ _ Hg (fo_fat _ _ _ _ _ _ Hs)) as [[Hlen Hmax] Hsmall].
  destruct (mark_run_ok vp c (Z.to_nat n) 0 cl (Z.to_nat (nFATs c) + k) F s Hg) as (s1 & H1 & Hs1 & Hsame1); try lia.
  { by replace (Z.to_nat (nFATs c) * Z.to_nat n + (Z.to_nat (nFATs c) + k))%nat with (Z.to_nat (nFATs c) * (Z.to_nat n + 1) + k)%nat by lia. }
  rewrite Z.add_0_r in Hs1. destruct (mark_ok HE c vp k _ (cl + n - 1) end_mark s1 Hg Hs1) as (s2 & H2 & Hs2 & Hsame2).
  { rewrite length_link_run. lia. }
  exists s1, s2. split; [done|]. split; [|split; [exact Hs2|by eapply same_trans]].
  unfold markEnd. rewrite (wrap_small 64), (wrap_small 32) by (unfold in_u; lia). by replace (cl + (n - 1)) with (cl + n - 1) by lia.
Qed.

Lemma fat_ok_list vp c k F s h hd tl nn fc : fat_ok V vp c k F s →
  fat_ok V vp (with_list c hd tl nn fc) k F (s <| freenodes := h |> <| volumes ::= <[vp := with_list c hd tl nn fc]> |>).
Proof using Type. intros [Hc Hv Hf]. split; [apply lookup_insert_eq|done|by apply fat_at_list]. Qed.

(** The node is unlinked when its run is used up. *)
Lemma unlink_taken vp c q c0 m n r1 r2 s : volumes s !! vp = Some c →
  nodes (freenodes s) true None (fl_tail c) (r1 ++ (q, (c0, m - n)) :: r2) 0 → NoDup (r1 ++ (q, (c0, m - n)) :: r2).*1 → 0 < n <= m →
  ∃ hd tl nn h', when (negb (truthy (m - n))) (unlink_node vp q) s =
      Ret () (s <| freenodes := h' |> <| volumes ::= <[vp := with_list c hd tl nn (freeClusterCount c)]> |>) ∧
    nodes h' (bool_decide (n < m ∨ r1 = [] ∨ r2 = [])) None tl (r1 ++ taken q c0 m n ++ r2) 0.
Proof.
  intros Hc Hn Hnd Hm. unfold taken. destruct (decide (m = n)) as [->|Hne].
  - rewrite Z.sub_diag in *. destruct (unlink_ok vp c q c0 0 r1 r2 s Hc Hn Hnd) as (hd & tl & h' & Hun & Hn').
    exists hd, tl, (wrap64 (fl_nNodes c - 1)), h'. split; [exact Hun|].
    erewrite bool_decide_ext; [exact Hn'|]. split; [intros [?|?]; [lia|done]|by right].
  - exists (fl_head c), (fl_tail c), (fl_nNodes c), (freenodes s). rewrite (proj2 (truthy_true (m - n))) by lia.
    rewrite bool_decide_eq_true_2 by (left; lia). split; [|exact Hn]. cbn. unfold mret, K_ret. f_equal.
    rewrite insert_id by (by destruct c). by destruct s.
Qed.

Lemma allocate_run vp c k F r1 q c0 m r2 n s :
  fat_inv V vp c true (Z.to_nat (nFATs c) * (Z.to_nat n + 1) + k) F (r1 ++ (q, (c0, m)) :: r2) s →
  0 < n <= m → Forall (λ r, r.2.2 < n) r1 →
  let t := fatType c in let cl := c0 + m - n in let F' := chain_run t F cl n in
  ∃ c' s', AllocateClusters vp n s = Ret cl s' ∧
    (∀ j, cl <= j < cl + n → entry_is t F 0 j ∧ entry_is t F' (if decide (j = cl + n - 1) then end_mark t else j + 1) j) ∧
    (∀ j, 0 <= j → ¬ cl <= j < cl + n → F' !! Z.to_nat j = F !! Z.to_nat j) ∧
    (∀ a, is_Some (vmem (fv s) !! a) → ¬ fat_base V c 0 <= a < fat_base V c (nFATs c) → vmem (fv s') !! a = vmem (fv s) !! a) ∧
    (∃ hd tl nn, c' = with_list c hd tl nn (freeClusterCount c - n)) ∧
    fat_inv V vp c' (bool_decide (n < m ∨ r1 = [] ∨ r2 = [])) k F' (r1 ++ taken q c0 m n ++ r2) s'.
Proof.
  intros [Hok Hg Hn Hnd Hfree] [Hpos Hm] Hall t. pose proof Hok as [Hc _ Hf].
  unfold AllocateClusters. erewrite (bind_Ret (get_volume vp)) by (by apply load_eq).
  assert (q ≠ 0) as Hq0. { apply nodes_app in Hn as (e & _ & Hq). simpl in Hq. tauto. }
  destruct (run_bounds _ _ _ q c0 m Hfree) as (Hm0 & Hc0 & Hcm); [set_solver|].
  destruct (table_bounds _ _ _ _ Hg Hf) as [[Hlen Hmax] Hsmall]. pose proof (clusters_take r1 q c0 m n r2 ltac:(lia)) as Hperm.
  rewrite (proj2 (Z.ltb_ge _ _)) by (rewrite (fr_count _ _ _ Hfree), Hperm, length_app, length_seqZ; lia).
  erewrite bind_Ret by apply gets_eq.
  erewrite bind_Ret by (eapply (search_node_ok true n r1 (_ :: _)); [exact Hn|pose proof (nodes_size _ _ _ _ _ _ Hn Hnd); lia|done|by intros ? [= <-]]).
  cbn [fst]. rewrite (proj2 (truthy_true q)) by done. cbn [negb].
  assert (∃ nx pv, freenodes s !! q = Some (mkFreeNode c0 m nx pv)) as (nx & pv & Hq).
  { apply nodes_app in Hn as (e & _ & Hq). simpl in Hq. destruct Hq as (_ & _ & nx & pv & Hq & _). by exists nx, pv. }
  erewrite bind_Ret by (by eapply set_node_alter). set (f := λ x, x <| fn_nClusters ::= _ |>). set (s1 := s <| freenodes ::= _ |>).
  assert (∀ a b, f (mkFreeNode c0 m a b) = mkFreeNode c0 (m - n) a b) as Hfq.
  { intros a b. unfold f. simpl. by rewrite (wrap_small 32) by (unfold in_u; lia). }
  pose proof (nodes_count _ _ _ _ _ _ _ _ (m - n) _ f Hn Hnd Hfq) as Hn1.
  erewrite (bind_Ret (get_node q)) by (apply load_eq; cbn; rewrite lookup_alter_eq, Hq; cbn [fmap option_fmap option_map]; by rewrite Hfq).
  cbn [fn_cluster fn_nClusters]. rewrite (wrap_small 32) by (unfold in_u; lia). replace (c0 + (m - n)) with (c0 + m - n) by lia.
  set (cl := c0 + m - n).
  destruct (unlink_taken vp c q c0 m n r1 r2 s1 Hc Hn1) as (hd & tl & nn & h' & Hun & Hn2); [|lia|].
  { revert Hnd. by rewrite !fmap_app. }
  erewrite bind_Ret by exact Hun. set (c1 := with_list c hd tl nn (freeClusterCount c)). set (s2 := s1 <| freenodes := h' |> <| volumes ::= _ |>).
  destruct (chain_ok vp c1 cl n k F s2) as (s3 & s4 & Hrun & Hend & Hok4 & (En4 & Ec4 & Em4)); [by apply geometry_list|exact (fat_ok_list vp c _ F s h' hd tl nn _ Hok)|lia|done|cbn; lia|].
  erewrite bind_Ret by exact Hrun. erewrite bind_Ret by exact Hend.
  erewrite bind_Ret by (eapply set_volume_eq, fo_cache; exact Hok4).
  destruct (chain_run_entries V c F _ cl n Hg Hf) as [Hin Hout]; [lia|done|lia|].
  exists (with_list c hd tl nn (freeClusterCount c - n)). eexists. split; [done|].
  split; [intros j Hj; split; [|by apply Hin]|].
  { pose proof (fr_zero _ _ _ Hfree) as Hz. rewrite Hperm in Hz. apply Forall_app in Hz as [Hz _]. rewrite Forall_forall in Hz.
    apply Hz, elem_of_seqZ. lia. }
  split; [exact Hout|]. split; [exact Em4|]. split; [by exists hd, tl, nn|].
  assert (wrap64 (freeClusterCount c - n) = freeClusterCount c - n) as Ew.
  { apply wrap_small. pose proof (free_count_bound _ _ _ Hfree (proj1 (g_count _ _ Hg))). unfold in_u.
    rewrite (fr_count _ _ _ Hfree), Hperm, length_app, length_seqZ in *. lia. }
  assert (c1 <| freeClusterCount ::= λ x, wrap64 (x - n) |> = with_list c hd tl nn (freeClusterCount c - n)) as ->
    by (unfold c1; cbn; by rewrite Ew).
  split.
  - destruct Hok4 as [_ Hv4 Hf4]. split; [apply lookup_insert_eq|done|by apply (fat_at_list V c1)].
  - by apply geometry_list.
  - change (nodes (freenodes s4) (bool_decide (n < m ∨ r1 = [] ∨ r2 = [])) None tl (r1 ++ taken q c0 m n ++ r2) 0). by rewrite En4.
  - by eapply taken_fst.
  - eapply take_free_runs; [exact Hfree|lia|exact Hout].
Qed.

(** [C14] Allocating [n] > 0 clusters of a FAT16 or FAT32 volume with sectors of the
    size of the device's blocks. When no run of the free list has [n] clusters the
    result is [UINT32_MAX] and nothing changes. Otherwise the clusters are the last [n]
    of the last run that is long enough: all of them were free, in every copy of the
    table each of them now leads to the next and the last one ends the chain, no other
    entry and no other byte of memory changes, and the runs that are left are the free
    list of the volume, whose count of free clusters is right. The [next] pointers stay
    right unless a run inside the list is used up. It is assumed that the tables are in
    the page cache of the volume; FAT12 is excluded, where a write damages the
    neighbouring entries. *)
Theorem allocate_clusters_correct vp c k F rs n s :
  fat_inv V vp c true (Z.to_nat (nFATs c) * (Z.to_nat n + 1) + k) F rs s → 0 < n →
  let t := fatType c in
  (Forall (λ r, r.2.2 < n) rs ∧ AllocateClusters vp n s = Ret UINT32_MAX s) ∨
  ∃ r1 q c0 m r2 c' F' s', let cl := c0 + m - n in
    rs = r1 ++ (q, (c0, m)) :: r2 ∧ n <= m ∧ Forall (λ r, r.2.2 < n) r1 ∧
    AllocateClusters vp n s = Ret cl s' ∧
    (∀ j, cl <= j < cl + n → entry_is t F 0 j ∧ entry_is t F' (if decide (j = cl + n - 1) then end_mark t else j + 1) j) ∧
    (∀ j, 0 <= j → ¬ cl <= j < cl + n → F' !! Z.to_nat j = F !! Z.to_nat j) ∧
    (∀ a, is_Some (vmem (fv s) !! a) → ¬ fat_base V c 0 <= a < fat_base V c (nFATs c) → vmem (fv s') !! a = vmem (fv s) !! a) ∧
    fat_inv V vp c' (bool_decide (n < m ∨ r1 = [] ∨ r2 = [])) k F' (r1 ++ taken q c0 m n ++ r2) s'.
Proof.
  intros Hinv Hpos t. destruct (split_fit n rs) as [Hall|(r1 & q & c0 & m & r2 & -> & Hm & Hall)].
  - left. split; [done|]. destruct Hinv as [[Hc _ _] _ Hn Hnd _]. unfold AllocateClusters. erewrite (bind_Ret (get_volume vp)) by (by apply load_eq).
    destruct (_ <? n); [done|]. erewrite bind_Ret by apply gets_eq.
    erewrite bind_Ret by (eapply (search_node_ok true n rs []); rewrite ?app_nil_r; [exact Hn|pose proof (nodes_size _ _ _ _ _ _ Hn Hnd); lia|done|done]). done.
  - right. destruct (allocate_run vp c k F r1 q c0 m r2 n s Hinv ltac:(lia) Hall) as (c' & s' & Hret & Hin & Hout & Hmem & _ & Hinv').
    exists r1, q, c0, m, r2, c', (chain_run t F (c0 + m - n) n), s'. done.
Qed.

(** *** Freeing *)

Lemma free_run_ok vp c n i cl k F s : geometry V c → fat_ok V vp c (Z.to_nat (nFATs c) * n + k) F s →
  0 <= cl < CountofClusters c → 0 <= i → cl + i + Z.of_nat n <= CountofClusters c →
  ∃ s', free_run n i vp cl s = Ret () s' ∧ fat_ok V vp c k (clear_run (fatType c) F (cl + i) n) s' ∧ same_but_fats V c s s'.
Proof.
  intros Hg. revert i F s. induction n as [|n IH]; intros i F s Hs H0 Hi Hn.
  - exists s. split; [done|]. split; [|apply same_refl]. by rewrite Nat.mul_0_r in Hs.
  - cbn [free_run clear_run]. destruct (table_bounds _ _ _ _ Hg (fo_fat _ _ _ _ _ _ Hs)) as [[Hlen Hmax] Hsmall].
    unfold isLastCluster, get_volume. erewrite (bind_Ret _ _ s false s).
    2: { erewrite bind_Ret by (apply load_eq; exact (fo_cache _ _ _ _ _ _ Hs)). by rewrite (proj2 (Z.leb_gt _ _)) by lia. }
    unfold markFree. rewrite (wrap_small 32 (cl + i)) by (unfold in_u; lia).
    destruct (mark_ok HE c vp (Z.to_nat (nFATs c) * n + k) F (cl + i) (λ _, 0) s) as (s1 & H1 & Hs1 & Hsame); try done; [|lia|].
    { by replace (Z.to_nat (nFATs c) + (Z.to_nat (nFATs c) * n + k))%nat with (Z.to_nat (nFATs c) * S n + k)%nat by lia. }
    erewrite bind_Ret by exact H1. destruct (IH (i + 1) _ s1 Hs1) as (s2 & H2 & Hs2 & Hsame2); try lia.
    exists s2. split; [exact H2|]. rewrite Z.add_assoc in Hs2. split; [done|by eapply same_trans].
Qed.

Lemma append_node_ok vp c b cl n p rs s : volumes s !! vp = Some c → nodes (freenodes s) b None (fl_tail c) rs 0 → NoDup rs.*1 →
  p ∉ rs.*1 → p ≠ 0 → freenodes s !! p = Some (mkFreeNode cl n 0 0) →
  ∃ hd nn h', append_node vp p s = Ret () (s <| freenodes := h' |>
      <| volumes ::= <[vp := with_list c hd p nn (wrap64 (freeClusterCount c + n))]> |>) ∧
    nodes h' b None p ((p, (cl, n)) :: rs) 0.
Proof using Type.
  intros Hc Hn Hnd Hp Hp0 Hh. destruct (append_nodes _ _ cl n p _ _ Hn Hnd Hp Hp0 Hh) as (Htl & Hp1 & Hres).
  set (h1 := alter_at (fl_tail c) (λ x, x <| fn_next := p |>) (freenodes s)) in *.
  eexists (if truthy (fl_head c) then fl_head c else p), (wrap64 (fl_nNodes c + 1)), _. split; [|exact Hres].
  unfold append_node, get_volume. erewrite bind_Ret by (by apply load_eq).
  set (c1 := c <| fl_head := if truthy (fl_head c) then fl_head c else p |>).
  erewrite (bind_Ret _ _ s () (s <| volumes ::= <[vp := c1]> |>)).
  2: { unfold when, c1. destruct (truthy (fl_head c)); cbn [negb]; [|by apply set_volume_eq]. unfold mret, K_ret. f_equal.
       unfold set_field. simpl. rewrite insert_id by (by destruct c). by destruct s. }
  erewrite bind_Ret by (apply when_node; exact Htl).
  erewrite bind_Ret by (eapply set_node_alter; exact Hp1).
  erewrite bind_Ret by (apply (set_volume_eq vp _ c1), lookup_insert_eq).
  erewrite bind_Ret by (apply set_volume_eq; simpl; apply lookup_insert_eq).
  erewrite (bind_Ret (get_node p) _ _ (mkFreeNode cl n 0 (fl_tail c))).
  2: { apply load_eq. change (alter (λ x, x <| fn_prev := fl_tail c |>) p h1 !! p = Some (mkFreeNode cl n 0 (fl_tail c))).
       by rewrite lookup_alter_eq, Hp1. }
  erewrite set_volume_eq by (simpl; apply lookup_insert_eq). f_equal. unfold set_field. simpl. by rewrite !insert_insert_eq.
Qed.

Lemma free_clusters_ok vp c b k F rs cl n s : fat_inv V vp c b (Z.to_nat (nFATs c) * Z.to_nat n + k) F rs s →
  0 <= cl → 0 < n → cl + n <= CountofClusters c → (∀ j, cl <= j < cl + n → j ∉ clusters rs) →
  ∃ p hd nn s', let c' := with_list c hd p nn (freeClusterCount c + n) in
    FreeClusters vp cl n s = Ret () s' ∧ fat_inv V vp c' b k (clear_run (fatType c) F cl (Z.to_nat n)) ((p, (cl, n)) :: rs) s' ∧
    (∀ a, is_Some (vmem (fv s) !! a) → ¬ fat_base V c 0 <= a < fat_base V c (nFATs c) → vmem (fv s') !! a = vmem (fv s) !! a).
Proof.
  intros [Hok Hg Hn Hnd Hfree] H0 Hpos Hcl Hnew. destruct (table_bounds _ _ _ _ Hg (fo_fat _ _ _ _ _ _ Hok)) as [[Hlen Hmax] Hsmall].
  pose proof (free_count_bound _ _ _ Hfree (proj1 (g_count _ _ Hg))) as Hcount.
  destruct (free_run_ok vp c (Z.to_nat n) 0 cl k F s Hg Hok) as (s1 & H1 & Hok1 & (En1 & Ec1 & Em1)); try lia. rewrite Z.add_0_r in Hok1.
  destruct (fa_node s1) as (p & Halloc & Hp0 & Hfresh).
  assert (p ∉ rs.*1) as Hp. { intros Hin. destruct (nodes_mapped _ _ _ _ _ _ _ Hn Hin) as [x Hx]. rewrite En1 in Hfresh. congruence. }
  set (s2 := s1 <| freenodes ::= <[p := mkFreeNode cl n 0 0]> |>).
  destruct (append_node_ok vp c b cl n p rs s2) as (hd & nn & h' & Happ & Hn'); try done.
  { exact (fo_cache _ _ _ _ _ _ Hok1). }
  { eapply nodes_frame; [exact Hn|]. intros q Hq. simpl. rewrite lookup_insert_ne by (intros <-; done). by rewrite En1. }
  { apply lookup_insert_eq. }
  rewrite (wrap_small 64) in Happ by (unfold in_u; lia).
  exists p, hd, nn, (s2 <| freenodes := h' |> <| volumes ::= <[vp := with_list c hd p nn (freeClusterCount c + n)]> |>). split; [|split; [|exact Em1]].
  - unfold FreeClusters. erewrite bind_Ret by exact H1. erewrite bind_Ret by exact Halloc. unfold set_node.
    do 2 erewrite bind_Ret by (eapply store_eq; apply lookup_insert_eq). rewrite <- Happ. f_equal. unfold s2, set_field. simpl.
    rewrite !insert_insert_eq, (wrap_small 32) by (unfold in_u; lia). done.
  - split; [exact (fat_ok_list vp c k _ s1 h' hd p nn _ Hok1)|by apply geometry_list|exact Hn'|by constructor|].
    apply add_free_runs; try done. apply (ft_entries _ _ _ _ (fo_fat _ _ _ _ _ _ Hok)).
Qed.

(** [C16] Allocating clusters of a FAT16 or FAT32 volume with sectors of the size of the
    device's blocks and freeing them again: when a run of the free list is long enough
    both succeed, every copy of the table holds again what it held before, the same
    clusters are free and their number is what it was; no byte outside the tables
    changes. It is assumed that the tables are in the page cache of the volume; FAT12 is
    excluded, where a write damages the neighbouring entries. *)
Theorem alloc_free_roundtrip vp c k F rs n s :
  fat_inv V vp c true (Z.to_nat (nFATs c) * (2 * Z.to_nat n + 1) + k) F rs s → 0 < n → Exists (λ r, n <= r.2.2) rs →
  ∃ cl s1 s2 c2 rs2 b, AllocateClusters vp n s = Ret cl s1 ∧ FreeClusters vp cl n s1 = Ret () s2 ∧
    fat_inv V vp c2 b k F rs2 s2 ∧ clusters rs2 ≡ₚ clusters rs ∧ freeClusterCount c2 = freeClusterCount c ∧
    (∀ a, is_Some (vmem (fv s) !! a) → ¬ fat_base V c 0 <= a < fat_base V c (nFATs c) → vmem (fv s2) !! a = vmem (fv s) !! a).
Proof.
  intros Hinv Hn Hex. destruct (split_fit n rs) as [Hall|(r1 & q & c0 & m & r2 & -> & Hm & Hall)].
  { apply Exists_exists in Hex as (r & Hr & Hle). rewrite Forall_forall in Hall. apply Hall in Hr. lia. }
  replace (Z.to_nat (nFATs c) * (2 * Z.to_nat n + 1) + k)%nat
    with (Z.to_nat (nFATs c) * (Z.to_nat n + 1) + (Z.to_nat (nFATs c) * Z.to_nat n + k))%nat in Hinv by lia.
  destruct (allocate_run vp c _ F r1 q c0 m r2 n s Hinv ltac:(lia) Hall) as (c1 & s1 & Hret & Hin & Hout & Hmem & (hd & tl & nn & ->) & Hinv1).
  destruct (run_bounds _ _ _ q c0 m (fi_free _ _ _ _ _ _ _ _ Hinv)) as (Hm0 & Hc0 & Hcm); [set_solver|].
  pose proof (clusters_take r1 q c0 m n r2 ltac:(lia)) as Hperm. set (cl := c0 + m - n) in *.
  destruct (free_clusters_ok vp _ _ k _ _ cl n s1 Hinv1) as (p & hd2 & nn2 & s2 & Hfree & Hinv2 & Hmem2); [lia|done|cbn; lia| |].
  { intros j Hj Hin2. pose proof (fr_nodup _ _ _ (fi_free _ _ _ _ _ _ _ _ Hinv)) as Hnd. rewrite Hperm in Hnd.
    apply NoDup_app in Hnd as (_ & Hd & _). eapply Hd; [apply elem_of_seqZ; exact Hj|done]. }
  assert (clear_run (fatType c) (chain_run (fatType c) F cl n) cl (Z.to_nat n) = F) as EF.
  { apply clear_chain; [apply (g_type _ _ (fi_geo _ _ _ _ _ _ _ _ Hinv))|lia|done|intros j Hj; by apply Hin]. }
  eexists cl, s1, s2, _, _, _. split; [done|]. split; [done|].
  set (c2 := with_list (with_list _ _ _ _ _) _ _ _ _) in Hinv2. change (fatType _) with (fatType c) in Hinv2 at 1. rewrite EF in Hinv2.
  split; [exact Hinv2|]. split; [by rewrite Hperm, clusters_cons|]. split; [cbn; lia|].
  intros a Ha Hout'. rewrite Hmem2; [by apply Hmem| |done]. by rewrite Hmem.
Qed.

End ops.
