(* ===== verification/FatScan.v ===== *)
(** * The FAT driver: building the free list, following chains

    [InitializeCacheFreelist] finds exactly the free clusters; [NextCluster] reads the
    entry of a cluster. *)

From S2P Require Import Prelude Bytes DList Vfs VfsProofs Partition PartitionProofs VolCache Fat FatProofs FatFree.

Section ops.
Context {E : VfsEnv} {V : volume} (HE : volume_env E V) `{FL : FatAllocLaws}.
#[local] Set Default Proof Using "Type*".

(** ** Reading entries *)

Lemma read_ent_ok t w p G1 x G2 a cl s : w = ent_width t → t ≠ FAT12_VOLUME → entry t x →
  bytes_at (vmem (fv s)) p (fat_bytes w (G1 ++ x :: G2)) → a = p + Z.of_nat (w * length G1) →
  read_ent t a cl s = Ret (ent_val t x) s.
Proof using Type.
  intros -> Ht Hx Hb ->. rewrite fat_bytes_app, bytes_at_app, length_fat_bytes in Hb. destruct Hb as [_ Hb].
  change (fat_bytes (ent_width t) (x :: G2)) with (le_bytes (ent_width t) x ++ fat_bytes (ent_width t) G2) in Hb.
  rewrite bytes_at_app in Hb. destruct Hb as [Hb _].
  destruct t; [| |done]; cbn [read_ent ent_width ent_val] in *; [erewrite bind_Ret by (by eapply get_le_entry); done|by eapply get_le_entry].
Qed.

(** The buffer [p] holds the sector of the first copy that begins at the offset [o]. *)
Definition buffer_ok (c : fat_cache) (F : list Z) (p o : Z) (m : bmem) : Prop :=
  let w := ent_width (fatType c) in ∀ q F1 Sec F2, o = (reservedSectorCount c + q) * v_bs V →
    F = F1 ++ Sec ++ F2 → Z.of_nat (w * length F1) = q * v_bs V → Z.of_nat (w * length Sec) = v_bs V →
    bytes_at m p (fat_bytes w Sec).

Lemma buffer_unique c F p q F1 Sec F2 m : let w := ent_width (fatType c) in
  F = F1 ++ Sec ++ F2 → Z.of_nat (w * length F1) = q * v_bs V → Z.of_nat (w * length Sec) = v_bs V →
  bytes_at m p (fat_bytes w Sec) → buffer_ok c F p ((reservedSectorCount c + q) * v_bs V) m.
Proof.
  intros w HF H1 H2 Hb q' G1 Sec' G2 Hq HG H1' H2'. pose proof (ve_bs _ _ HE). pose proof (ent_width_pos (fatType c)) as Hw.
  fold w in Hw, H1', H2'. assert (q' = q) as -> by nia. rewrite HF in HG.
  apply app_inj_1 in HG as [_ HG]; [|nia]. apply app_inj_1 in HG as [-> _]; [done|nia].
Qed.

Lemma isClusterFree_ok vp c k o F p cl s : volumes s !! vp = Some c → geometry V c → vol_at V k o (fv s) →
  fat_at V c F (vmem (fv s)) → 0 <= cl < CountofClusters c → p ≠ 0 → mapped (vmem (fv s)) p (Z.to_nat (v_bs V)) →
  disjoint_blocks p (Z.to_nat (v_bs V)) (v_pc V) (Z.to_nat (v_size V)) → buffer_ok c F p o (vmem (fv s)) →
  ∃ x o' s', F !! Z.to_nat cl = Some x ∧ isClusterFree vp cl p s = Ret (ent_val (fatType c) x =? 0) s' ∧
    vol_at V k o' (fv s') ∧ buffer_ok c F p o' (vmem (fv s')) ∧ volumes s' = volumes s ∧ freenodes s' = freenodes s ∧
    (∀ a, ¬ p <= a < p + v_bs V → vmem (fv s') !! a = vmem (fv s) !! a) ∧ mapped (vmem (fv s')) p (Z.to_nat (v_bs V)).
Proof.
  intros Hc Hg Hv Hf Hcl Hp Hm Hdis Hbuf. destruct (table_bounds _ _ _ _ Hg Hf) as [[Hlen Hmax] Hsmall].
  assert (0 <= cl < Z.of_nat (length F)) as Hcl' by lia. set (w := ent_width (fatType c)).
  destruct (sector_split HE c F _ cl Hg Hf Hcl') as (F1 & G1 & x & G2 & F2 & HF & HS & HF1 & HG1 & Hpos & Hx). fold w in HS, HF1, HG1.
  destruct (entry_in_table HE c vp F _ cl s Hg Hf Hc Hcl') as [Haddr Hq]. fold w in Haddr, Hq.
  set (q := cl * Z.of_nat w / v_bs V) in *. set (Sec := G1 ++ x :: G2) in *. set (o1 := (reservedSectorCount c + q) * v_bs V).
  pose proof Hg as [Ht Hfd (Hblk & _) _ _ _ _ _ _].
  pose proof (Forall_lookup_1 _ _ _ _ (ft_entries _ _ _ _ Hf) Hx) as Hxe.
  destruct (read_sector HE c k o q w F1 Sec F2 F p s Hg Hv Hf) as (r1 & r2 & s1 & s2 & Ewrap & Hseek & Hread & Hv2 & Em2 & Ec2 & En2 & _); try done.
  fold o1 in Ewrap, Hseek, Hv2.
  (* The state in which the entry is read, before the last seek. *)
  assert (∃ o3 s3, when (negb (o =? o1)) (file (Vfs_FdSeek (v_desc V) o1 SEEK_SET);; file (Vfs_FdRead (v_desc V) p (v_bs V) None);; mret ()) s = Ret () s3 ∧
    vol_at V k o3 (fv s3) ∧ bytes_at (vmem (fv s3)) p (fat_bytes w Sec) ∧ volumes s3 = volumes s ∧ freenodes s3 = freenodes s ∧
    (∀ a, ¬ p <= a < p + v_bs V → vmem (fv s3) !! a = vmem (fv s) !! a)) as (o3 & s3 & Hwhen & Hv3 & Hb3 & Ec3 & En3 & Em3).
  { destruct (Z.eqb_spec o o1) as [->|Hne]; cbn [negb when].
    - exists o1, s. repeat (split; [done|]). split; [|done]. by eapply Hbuf.
    - exists (o1 + v_bs V), s2. split; [erewrite bind_Ret by exact Hseek; by erewrite bind_Ret by exact Hread|]. split; [done|].
      rewrite Em2. split; [apply write_bytes_same|]. repeat (split; [done|]). intros a Ha. apply write_bytes_outside. rewrite length_fat_bytes. lia. }
  assert (0 <= o1 < 2 ^ 64) as Ho1 by (rewrite <- Ewrap; by apply (wrap_range 64)).
  set (s4 := s3 <| fv ::= λ v, v <| fds ::= <[v_desc V := mkFd (v_vnode V) (v_flags V) o1]> |> |>).
  exists x, o1, s4. split; [done|]. split.
  - unfold isClusterFree, get_volume. erewrite bind_Ret by exact Haddr. erewrite bind_Ret by (by apply load_eq).
    cbn [fea_lba fea_offset]. rewrite Hblk, Hfd. fold o1. rewrite Ewrap. cbv zeta. erewrite (bind_Ret _ _ s o s).
    2: { apply file_id. unfold Vfs_FdTellOff. rewrite (proj2 (truthy_true (v_desc V))) by apply (ve_desc _ _ HE).
         unfold get_fd. by erewrite bind_Ret by (apply load_eq; exact (va_fd _ _ _ _ Hv)). }
    erewrite bind_Ret by exact Hwhen.
    erewrite bind_Ret by (apply file_Ret; eapply (vol_seek HE); [exact Hv3|done|unfold o1; apply Z_mod_mult]).
    erewrite bind_Ret by (eapply (read_ent_ok _ w p G1 x G2); try done; lia). unfold mret, K_ret, truthy. f_equal. apply negb_involutive.
  - split; [by eapply vol_at_off|]. split; [by eapply buffer_unique|]. repeat (split; [done|]).
    change (mapped (vmem (fv s3)) p (Z.to_nat (v_bs V))). apply bytes_at_mapped in Hb3. rewrite length_fat_bytes in Hb3.
    by replace (w * length Sec)%nat with (Z.to_nat (v_bs V)) in Hb3 by lia.
Qed.

(** ** Building the free list *)

(** The node that is being filled: a run of clusters that ends before [i]. *)
Definition current (h : gmap Z fat_freenode) (i curr : Z) (cur : option (Z * Z)) (rs : list run) : Prop :=
  match cur with
  | None => curr = 0
  | Some (c0, n) => curr ≠ 0 ∧ curr ∉ rs.*1 ∧ h !! curr = Some (mkFreeNode c0 n 0 0) ∧ 0 <= c0 ∧ 0 < n ∧ c0 + n = i
  end.
Definition start (i : Z) (cur : option (Z * Z)) : Z := match cur with None => i | Some (c0, _) => c0 end.

(** Before the cluster [i]: the runs [rs] and [cur] are the free clusters below it. *)
Record scanning (vp : Z) (c : fat_cache) (k : nat) (F : list Z) (p : Z) (m0 : bmem) (i curr : Z) (cur : option (Z * Z)) (rs : list run)
  (s : fatst) : Prop := {
  sc_cache : ∃ hd tl nn fc, volumes s !! vp = Some (with_list c hd tl nn fc) ∧ nodes (freenodes s) true None tl rs 0 ∧
    free_runs (with_list c hd tl nn fc) F rs;
  sc_vol : ∃ o, vol_at V k o (fv s) ∧ buffer_ok c F p o (vmem (fv s));
  sc_mapped : mapped (vmem (fv s)) p (Z.to_nat (v_bs V));
  sc_mem a : ¬ p <= a < p + v_bs V → vmem (fv s) !! a = m0 !! a;
  sc_nodup : NoDup rs.*1;
  sc_curr : current (freenodes s) i curr cur rs;
  sc_runs j : j ∈ clusters rs ↔ 0 <= j < start i cur ∧ entry_is (fatType c) F 0 j;
  sc_cur j : start i cur <= j < i → entry_is (fatType c) F 0 j
}.

(** Closing the run that is being filled. *)
Lemma scan_close vp c k F p m0 i curr c0 n rs s : geometry V c → scanning vp c k F p m0 i curr (Some (c0, n)) rs s → i <= CountofClusters c →
  ∃ s', append_node vp curr s = Ret () s' ∧ scanning vp c k F p m0 i 0 None ((curr, (c0, n)) :: rs) s'.
Proof.
  intros Hg [(hd & tl & nn & fc & Hc & Hn & Hfr) Hv Hmap Hmem Hnd Hcur Hruns Hrun] Hi. simpl in Hcur, Hruns, Hrun.
  destruct Hcur as (Hp0 & Hp & Hh & Hc0 & Hpos & <-).
  destruct (append_node_ok vp _ true c0 n curr rs s Hc Hn Hnd Hp Hp0 Hh) as (hd' & nn' & h' & Happ & Hn').
  pose proof (free_count_bound _ _ _ Hfr (proj1 (g_count _ _ Hg))) as Hfc. cbn in Hfc.
  assert (CountofClusters c < 2 ^ 28) as Hsmall by (pose proof (g_chain _ _ Hg); destruct (fatType c); simpl in *; lia).
  rewrite (wrap_small 64) in Happ by (unfold in_u; cbn; lia). eexists. split; [exact Happ|]. split; try done.
  - exists hd', curr, nn', (fc + n). split; [apply lookup_insert_eq|]. split; [exact Hn'|].
    apply (push_free_runs (with_list c hd tl nn fc)); try done. intros j Hj. split; [apply Hrun; lia|]. rewrite Hruns. lia.
  - by constructor.
  - intros j. rewrite clusters_cons, elem_of_app, elem_of_seqZ, Hruns. simpl. split; [|destruct (Z.lt_ge_cases j c0); naive_solver lia].
    intros [Hj|[? ?]]; (split; [lia|]); [apply Hrun; lia|done].
  - simpl. intros j Hj. lia.
Qed.

Lemma scan_fat vp c k F p m0 i curr cur rs s : geometry V c → scanning vp c k F p m0 i curr cur rs s → fat_at V c F m0 →
  disjoint_blocks p (Z.to_nat (v_bs V)) (v_pc V) (Z.to_nat (v_size V)) → fat_at V c F (vmem (fv s)).
Proof.
  intros Hg Hs Hf Hdis. eapply (fat_at_agree HE); [done|exact Hf|]. intros a Ha. apply (sc_mem _ _ _ _ _ _ _ _ _ _ _ Hs).
  unfold disjoint_blocks in Hdis. lia.
Qed.

Lemma scan_read vp c k F p m0 i curr cur rs s : geometry V c → scanning vp c k F p m0 i curr cur rs s → fat_at V c F m0 → p ≠ 0 →
  disjoint_blocks p (Z.to_nat (v_bs V)) (v_pc V) (Z.to_nat (v_size V)) → 0 <= i < CountofClusters c →
  ∃ x s', F !! Z.to_nat i = Some x ∧ isClusterFree vp i p s = Ret (ent_val (fatType c) x =? 0) s' ∧ scanning vp c k F p m0 i curr cur rs s'.
Proof.
  intros Hg Hs Hf Hp Hdis Hi. pose proof (scan_fat _ _ _ _ _ _ _ _ _ _ _ Hg Hs Hf Hdis) as Hfs.
  pose proof Hs as [(hd & tl & nn & fc & Hc & Hn & Hfr) (o & Hv & Hb) Hmap Hmem Hnd Hcur Hruns Hrun].
  destruct (isClusterFree_ok vp (with_list c hd tl nn fc) k o F p i s Hc) as (x & o' & s' & Hx & Hrun' & Hv' & Hb' & Ec' & En' & Em' & Hmap');
    try done; [by apply geometry_list|by apply fat_at_list|].
  exists x, s'. split; [done|]. split; [exact Hrun'|]. split; rewrite ?Ec', ?En'; try done.
  - exists hd, tl, nn, fc. done.
  - by exists o'.
  - intros a Ha. rewrite Em' by done. by apply Hmem.
Qed.

(** One more free cluster. *)
Lemma scan_extend vp c k F p m0 i curr cur rs h' curr' c0 n s : scanning vp c k F p m0 i curr cur rs s → 0 <= i →
  entry_is (fatType c) F 0 i → c0 = start i cur → current h' (i + 1) curr' (Some (c0, n)) rs →
  (∀ q, q ∈ rs.*1 → h' !! q = freenodes s !! q) → scanning vp c k F p m0 (i + 1) curr' (Some (c0, n)) rs (s <| freenodes := h' |>).
Proof using Type.
  intros [(hd & tl & nn & fc & Hc & Hn & Hfr) Hv Hmap Hmem Hnd Hcur Hruns Hrun] Hi Hz -> Hcur' Hh'. split; try done.
  - exists hd, tl, nn, fc. split; [done|]. split; [|done]. eapply nodes_frame; [exact Hn|done].
  - simpl. intros j Hj. destruct (decide (j = i)) as [->|]; [done|]. apply Hrun. lia.
Qed.

(** A cluster in use, with no run open. *)
Lemma scan_skip vp c k F p m0 i rs s : scanning vp c k F p m0 i 0 None rs s → ¬ entry_is (fatType c) F 0 i →
  scanning vp c k F p m0 (i + 1) 0 None rs s.
Proof using Type.
  intros [Hc Hv Hmap Hmem Hnd Hcur Hruns Hrun] Hz. split; try done; simpl in *.
  - intros j. rewrite Hruns. split; intros [Hj He]; (split; [|done]); [lia|]. destruct (decide (j = i)) as [->|]; [done|lia].
  - intros j Hj. lia.
Qed.

Lemma scan_step vp c k F p m0 i curr cur rs s n : geometry V c → scanning vp c k F p m0 i curr cur rs s → fat_at V c F m0 → p ≠ 0 →
  disjoint_blocks p (Z.to_nat (v_bs V)) (v_pc V) (Z.to_nat (v_size V)) → 0 <= i < CountofClusters c →
  ∃ curr' cur' rs' s', freelist_loop (Datatypes.S n) vp i curr p s = freelist_loop n vp (i + 1) curr' p s' ∧
    scanning vp c k F p m0 (i + 1) curr' cur' rs' s'.
Proof.
  intros Hg Hs Hf Hp Hdis Hi. assert (CountofClusters c < 2 ^ 28) as Hsmall by (pose proof (g_chain _ _ Hg); destruct (fatType c); simpl in *; lia).
  destruct (scan_read _ _ _ _ _ _ _ _ _ _ _ Hg Hs Hf Hp Hdis Hi) as (x & s1 & Hx & Hread & Hs1). cbn [freelist_loop].
  erewrite bind_Ret by exact Hread.
  assert (entry_is (fatType c) F 0 i ↔ ent_val (fatType c) x = 0) as Hiff.
  { split; [intros (y & Hy & Hz); congruence|intros Hz; by exists x]. }
  destruct (Z.eqb_spec (ent_val (fatType c) x) 0) as [Hz%Hiff|Hz]; destruct cur as [[c0 m]|]; pose proof (sc_curr _ _ _ _ _ _ _ _ _ _ _ Hs1) as Hcur; simpl in Hcur.
  - destruct Hcur as (Hc0 & Hcr & Hh & H0 & Hm & Hsum). rewrite (proj2 (truthy_true curr)) by done. cbn [negb].
    eexists curr, (Some (c0, m + 1)), rs, _. split.
    + erewrite bind_Ret; [reflexivity|]. erewrite bind_Ret by reflexivity. erewrite bind_Ret by (eapply store_eq; exact Hh). reflexivity.
    + eapply scan_extend; [exact Hs1|lia|done|done| |intros q Hq; apply lookup_insert_ne; by intros <-].
      simpl. rewrite lookup_insert_eq, (wrap_small 32) by (unfold in_u; lia). repeat (split; [done|]). lia.
  - subst curr. destruct (fa_node s1) as (q & Halloc & Hq0 & Hfresh).
    assert (q ∉ rs.*1) as Hq. { intros Hin. destruct (sc_cache _ _ _ _ _ _ _ _ _ _ _ Hs1) as (hd & tl & nn & fc & _ & Hn & _).
      destruct (nodes_mapped _ _ _ _ _ _ _ Hn Hin) as [y Hy]. congruence. }
    eexists q, (Some (i, 1)), rs, (s1 <| freenodes := <[q := mkFreeNode i 1 0 0]> (freenodes s1) |>). split.
    + erewrite bind_Ret; [reflexivity|]. change (truthy nullptr) with false. cbn [negb]. erewrite bind_Ret.
      2: { erewrite bind_Ret by exact Halloc. unfold set_node. erewrite bind_Ret by (eapply store_eq; apply lookup_insert_eq). reflexivity. }
      unfold set_node. erewrite bind_Ret by (eapply store_eq; apply lookup_insert_eq). unfold mret, K_ret. f_equal. unfold set_field. simpl.
      by rewrite !insert_insert_eq.
    + eapply scan_extend; [exact Hs1|lia|done|done| |intros y Hy; apply lookup_insert_ne; by intros <-].
      simpl. rewrite lookup_insert_eq. repeat (split; [done|]). lia.
  - destruct (scan_close _ _ _ _ _ _ _ _ _ _ _ _ Hg Hs1 ltac:(lia)) as (s2 & Happ & Hs2).
    destruct Hcur as (Hc0 & Hcr & Hh & H0 & Hm & Hsum). eexists 0, None, _, s2. split; [|eapply scan_skip; [exact Hs2|by rewrite Hiff]].
    rewrite (proj2 (truthy_true curr)) by done. cbn [negb]. erewrite bind_Ret; [reflexivity|].
    unfold get_node. erewrite bind_Ret by (by apply load_eq). cbn [fn_nClusters]. erewrite (bind_Ret _ _ s1 () s1).
    + by erewrite bind_Ret by exact Happ.
    + destruct (sc_cache _ _ _ _ _ _ _ _ _ _ _ Hs1) as (hd & tl & nn & fc & Hc & _).
      destruct (Z.to_nat m); cbn [trim_node]; unfold isLastCluster, get_node, get_volume; erewrite bind_Ret by (by apply load_eq);
        (erewrite (bind_Ret _ _ s1 false s1); [done|]); erewrite bind_Ret by (by apply load_eq); cbn [fn_cluster fn_nClusters];
        rewrite (wrap_small 32), (proj2 (Z.leb_gt _ _)) by (unfold in_u; cbn; lia); done.
  - subst curr. exists 0, None, rs, s1. split; [|eapply scan_skip; [exact Hs1|by rewrite Hiff]].
    change (truthy 0) with false. cbn [negb]. by erewrite bind_Ret by reflexivity.
Qed.

Lemma scan_loop vp c k F p m0 n i curr cur rs s : geometry V c → scanning vp c k F p m0 i curr cur rs s → fat_at V c F m0 → p ≠ 0 →
  disjoint_blocks p (Z.to_nat (v_bs V)) (v_pc V) (Z.to_nat (v_size V)) → 0 <= i → i + Z.of_nat n = CountofClusters c →
  ∃ curr' cur' rs' s', freelist_loop n vp i curr p s = Ret curr' s' ∧ scanning vp c k F p m0 (CountofClusters c) curr' cur' rs' s'.
Proof.
  intros Hg Hs Hf Hp Hdis. revert i curr cur rs s Hs. induction n as [|n IH]; intros i curr cur rs s Hs Hi Hn.
  - exists curr, cur, rs, s. split; [done|]. by replace (CountofClusters c) with i by lia.
  - destruct (scan_step vp c k F p m0 i curr cur rs s n) as (curr1 & cur1 & rs1 & s1 & -> & Hs1); try done; [lia|]. eapply IH; [exact Hs1|lia|lia].
Qed.

(** A descriptor outside the first table says nothing about the buffer. *)
Lemma buffer_none c F p o m m' : fat_at V c F m → (∀ q, 0 <= q < fatSz c → o ≠ (reservedSectorCount c + q) * v_bs V) →
  buffer_ok c F p o m'.
Proof.
  intros Hf Ho q F1 Sec F2 -> -> H1 H2. exfalso. pose proof (ve_bs _ _ HE). pose proof (ft_length _ _ _ _ Hf) as Hl.
  rewrite !length_app in Hl. apply (Ho q); [|done]. nia.
Qed.

(** [C15] [InitializeCacheFreelist] builds the free list of a FAT16 or FAT32 volume with
    sectors of the size of the device's blocks, whose tables are in the page cache: the
    scan of the table ends, whatever its entries are, and the runs in the list are
    disjoint and are exactly the clusters below [CountofClusters] whose entry is zero;
    the count of free clusters is their number. Only the buffer is written. The list
    must be empty before, and the descriptor must not be at a sector of the first table
    when the scan begins: that sector would be taken to be in the buffer. *)
Theorem freelist_complete vp c k F o s : volumes s !! vp = Some c → geometry V c → vol_at V k o (fv s) → fat_at V c F (vmem (fv s)) →
  fl_tail c = 0 → freeClusterCount c = 0 → (∀ q, 0 <= q < fatSz c → o ≠ (reservedSectorCount c + q) * v_bs V) →
  ∃ c' rs s', InitializeCacheFreelist vp s = Ret () s' ∧ fat_inv V vp c' true k F rs s' ∧
    (∀ j, j ∈ clusters rs ↔ 0 <= j < CountofClusters c ∧ entry_is (fatType c) F 0 j) ∧
    freeClusterCount c' = Z.of_nat (length (clusters rs)) ∧
    (∀ a, is_Some (vmem (fv s) !! a) → vmem (fv s') !! a = vmem (fv s) !! a).
Proof.
  intros Hc Hg Hv Hf Htl Hfc Ho. pose proof Hg as [_ _ (Hblk & _) _ (Hr0 & Hf0 & Hn0) Hsz _ _ (Hcount & _)]. pose proof (ve_bs _ _ HE) as Hbs.
  unfold InitializeCacheFreelist, get_volume. erewrite bind_Ret by (by apply load_eq). rewrite Hblk.
  destruct (fa_zalloc (v_bs V) s) as (p & Halloc & Hp & Hfresh). erewrite bind_Ret by exact Halloc.
  assert (0 < v_size V) as Hsize by nia.
  pose proof (alloc_apart _ _ _ _ _ Hv Hbs Hsize Hfresh) as Hdis. set (m1 := write_bytes (vmem (fv s)) p _). set (s1 := with_mem m1 s).
  assert (∀ a, ¬ p <= a < p + v_bs V → m1 !! a = vmem (fv s) !! a) as Hm1.
  { intros a Ha. apply write_bytes_outside. rewrite length_replicate. lia. }
  assert (scanning vp c k F p m1 0 0 None [] s1) as Hs1.
  { split; try done.
    - exists (fl_head c), (fl_tail c), (fl_nNodes c), (freeClusterCount c). split; [simpl; rewrite Hc; by destruct c|]. split; [done|].
      split; try constructor. done.
    - exists o. split; [apply vol_at_mem; [done|apply write_bytes_mapped, Hv]|by eapply buffer_none].
    - intros j Hj. eexists. by apply zeros_at.
    - constructor.
    - intros j. simpl. split; [by intros ?%not_elem_of_nil|lia].
    - simpl. lia. }
  assert (fat_at V c F m1) as Hf1.
  { eapply (fat_at_agree HE); [done|exact Hf|]. intros a Ha. apply Hm1. unfold disjoint_blocks in Hdis. lia. }
  destruct (scan_loop vp c k F p m1 (Z.to_nat (CountofClusters c)) 0 0 None [] s1 Hg Hs1 Hf1 Hp Hdis) as (curr & cur & rs & s2 & Hloop & Hs2); [lia|lia|].
  erewrite bind_Ret by exact Hloop.
  assert (∃ rs' s3, when (truthy curr) (append_node vp curr) s2 = Ret () s3 ∧ scanning vp c k F p m1 (CountofClusters c) 0 None rs' s3) as (rs' & s3 & Hwhen & Hs3).
  { pose proof (sc_curr _ _ _ _ _ _ _ _ _ _ _ Hs2) as Hcur. destruct cur as [[c0 n]|]; simpl in Hcur; [|subst; by exists rs, s2].
    destruct (scan_close _ _ _ _ _ _ _ _ _ _ _ _ Hg Hs2 ltac:(lia)) as (s3 & Happ & Hs3). exists ((curr, (c0, n)) :: rs), s3.
    rewrite (proj2 (truthy_true curr)) by tauto. done. }
  erewrite bind_Ret by exact Hwhen. destruct (fa_free p (v_bs V) s3) as (m4 & -> & Hm4).
  pose proof (scan_fat _ _ _ _ _ _ _ _ _ _ _ Hg Hs3 Hf1 Hdis) as Hf3.
  destruct Hs3 as [(hd & tl & nn & fc & Hc3 & Hn3 & Hfr3) (o3 & Hv3 & _) _ Hmem3 Hnd3 _ Hruns3 _].
  assert (∀ a, v_pc V <= a < v_pc V + v_size V → m4 !! a = vmem (fv s3) !! a) as Hagree.
  { intros a Ha. apply Hm4. unfold disjoint_blocks in Hdis. lia. }
  exists (with_list c hd tl nn fc), rs', (with_mem m4 s3). split; [done|]. split; [|split; [exact Hruns3|split; [apply Hfr3|]]].
  - split; [|by apply geometry_list|exact Hn3|done|done]. split; [done| |apply fat_at_list; by eapply (fat_at_agree HE)].
    exists o3. apply vol_at_mem; [done|]. intros j Hj. rewrite Hagree by lia. by apply (va_mem _ _ _ _ Hv3).
  - intros a [x Hx]. assert (¬ p <= a < p + v_bs V) as Ha by (intros Ha; by rewrite Hfresh in Hx). simpl. by rewrite Hm4, Hmem3, Hm1 by done.
Qed.

(** ** Following a chain *)

(** [NextCluster] on a buffer that holds the sector of a cluster returns the cluster
    number in its entry, with [OBOS_STATUS_EOF] exactly when it is an end mark. *)
Lemma next_cluster_correct vp c F m p cl q F1 Sec F2 s : volumes s !! vp = Some c → geometry V c → fat_at V c F m →
  0 <= cl < Z.of_nat (length F) → let w := ent_width (fatType c) in
  F = F1 ++ Sec ++ F2 → Z.of_nat (w * length F1) = q * v_bs V → Z.of_nat (w * length Sec) = v_bs V → q = cl * Z.of_nat w / v_bs V →
  bytes_at (vmem (fv s)) p (fat_bytes w Sec) →
  ∃ v, entry_is (fatType c) F v cl ∧
    NextCluster vp cl p s = Ret (if decide (end_mark (fatType c) <= v) then OBOS_STATUS_EOF else OBOS_STATUS_SUCCESS, v) s.
Proof.
  intros Hc Hg Hf Hcl w HF H1 H2 Hq Hb.
  destruct (sector_split HE c F _ cl Hg Hf Hcl) as (G1' & G1 & x & G2 & G2' & HG & HS & HF1 & HG1 & Hpos & Hx). fold w in HS, HF1, HG1.
  destruct (entry_in_table HE c vp F _ cl s Hg Hf Hc Hcl) as [Haddr _]. fold w in Haddr.
  pose proof (buffer_unique c F p q F1 Sec F2 _ HF H1 H2 Hb q _ _ _ eq_refl HG) as Hb'. fold w in Hb'. rewrite Hq in Hb' at 1.
  pose proof (Forall_lookup_1 _ _ _ _ (ft_entries _ _ _ _ Hf) Hx) as Hxe.
  exists (ent_val (fatType c) x). split; [by exists x|]. unfold NextCluster, get_volume. erewrite bind_Ret by exact Haddr.
  erewrite bind_Ret by (by apply load_eq). cbn [fea_offset].
  erewrite bind_Ret by (eapply (read_ent_ok _ w p G1 x G2); [done|apply Hg|done|by apply Hb'|lia]).
  unfold mret, K_ret. do 2 f_equal. destruct (Z.leb_spec (end_mark (fatType c)) (ent_val (fatType c) x)); by case_decide; try lia.
Qed.

End ops.
