(* ===== verification/FatRead.v ===== *)
(** * The FAT driver: reading a file

    What [read_sync] delivers for a range inside one cluster. *)

From S2P Require Import Prelude Bytes DList Vfs VfsProofs Partition PartitionProofs VolCache Fat FatIo FatProofs FatFree.

(** The locks are free. *)
Class FatLockLaws {FK : FatLocks} := {
  fk_acquire m s : fat_acquire m s = Ret OBOS_STATUS_SUCCESS s;
  fk_release m s : fat_release m s = Ret OBOS_STATUS_SUCCESS s
}.

Section read.
Context {E : VfsEnv} {V : volume} (HE : volume_env E V) `{FL : FatAllocLaws} `{FKL : FatLockLaws}.
#[local] Set Default Proof Using "Type*".

(** The offset of a cluster on the volume. *)
Definition cluster_pos (c : fat_cache) (cl : Z) : Z := ((cl - 2) * sectorsPerCluster c + FirstDataSector c) * v_bs V.

(** The cluster [cl] lies on the cached part of the volume and holds [data]. *)
Record cluster_at (c : fat_cache) (cl : Z) (data : list Z) (m : bmem) : Prop := {
  ca_first : 0 <= (cl - 2) * sectorsPerCluster c + FirstDataSector c < 2 ^ 32;
  ca_inside : cluster_pos c cl + sectorsPerCluster c * v_bs V <= v_size V;
  ca_length : Z.of_nat (length data) = sectorsPerCluster c * v_bs V;
  ca_bytes : bytes_at m (v_pc V + cluster_pos c cl) data
}.

Lemma bytesPerCluster_eq c cl data m : geometry V c → 0 < sectorsPerCluster c → cluster_at c cl data m →
  bytesPerCluster c = sectorsPerCluster c * v_bs V ∧ 0 < sectorsPerCluster c * v_bs V < 2 ^ 64.
Proof.
  intros Hg Hspc [H0 Hin _ _]. pose proof (ve_bs _ _ HE). pose proof (ve_pc _ _ HE) as (Hpc & _ & Hmax).
  assert (0 <= cluster_pos c cl) by (unfold cluster_pos; nia). unfold bytesPerCluster. rewrite (proj1 (g_blk _ _ Hg)).
  split; [apply wrap_small; unfold in_u; nia|nia].
Qed.

(** Reading a cluster into a buffer. *)
Lemma read_cluster c n o cl data p s : geometry V c → 0 < sectorsPerCluster c → vol_at V n o (fv s) → cluster_at c cl data (vmem (fv s)) →
  p ≠ 0 → mapped (vmem (fv s)) p (length data) → disjoint_blocks p (length data) (v_pc V) (Z.to_nat (v_size V)) →
  ∃ o' s1 s2, file (Vfs_FdSeek (volume_fd c) (wrap64 (ClusterToSector c cl * fat_blkSize c)) SEEK_SET) s = Ret OBOS_STATUS_SUCCESS s1 ∧
    file (Vfs_FdRead (volume_fd c) p (bytesPerCluster c) None) s1 = Ret (OBOS_STATUS_SUCCESS, None) s2 ∧ vol_at V n o' (fv s2) ∧
    vmem (fv s2) = write_bytes (vmem (fv s)) p data ∧ volumes s2 = volumes s ∧ dirents s2 = dirents s.
Proof.
  intros Hg Hspc Hv Hcl Hp Hm Hdis. destruct (bytesPerCluster_eq _ _ _ _ Hg Hspc Hcl) as [Ebpc Hbpc].
  pose proof Hcl as [H0 Hin Hlen Hb]. pose proof (ve_bs _ _ HE). pose proof (ve_pc _ _ HE) as (Hpc & _ & Hmax).
  rewrite (g_fd _ _ Hg), (proj1 (g_blk _ _ Hg)), Ebpc. unfold ClusterToSector. rewrite (wrap_small 32) by done. fold (cluster_pos c cl).
  assert (0 <= cluster_pos c cl) as Hpos by (unfold cluster_pos; nia). rewrite (wrap_small 64) by (unfold in_u; lia).
  set (o1 := cluster_pos c cl) in *. assert (o1 mod v_bs V = 0) as Hal by (unfold o1, cluster_pos; apply Z_mod_mult).
  set (s1 := s <| fv ::= λ v, v <| fds ::= <[v_desc V := mkFd (v_vnode V) (v_flags V) o1]> |> |>).
  destruct (vol_read HE n o1 (sectorsPerCluster c * v_bs V) p data (fv s1)) as (v2 & Hread & Hv2 & Em2); try done; try lia.
  { by eapply vol_at_off. }
  { apply Z_mod_mult. }
  { unfold disjoint_blocks in *. lia. }
  exists (o1 + sectorsPerCluster c * v_bs V), s1, (s1 <| fv := v2 |>).
  split; [apply (file_Ret (Vfs_FdSeek _ _ _)); eapply (vol_seek HE); [exact Hv|lia|done]|]. split; [by apply file_Ret|]. done.
Qed.

Lemma negative_left n b : 0 <= n < b → b < 2 ^ 63 → signed 64 (wrap64 (n - b)) <? 0 = true.
Proof using Type.
  intros Hn Hb. assert (wrap64 (n - b) = n - b + 2 ^ 64) as ->.
  { unfold wrap. symmetry. apply (Z.mod_unique _ _ (-1)); lia. }
  unfold signed. rewrite (proj2 (Z.ltb_ge _ (2 ^ (64 - 1)))) by lia. apply Z.ltb_lt. lia.
Qed.

(** One call of the callback, for fewer bytes than a cluster has: it is the last one. *)
Lemma read_callback_ok c vp k o cl data buf n off p nc i s : volumes s !! vp = Some c → geometry V c → 0 < sectorsPerCluster c →
  vol_at V k o (fv s) → cluster_at c cl data (vmem (fv s)) →
  p ≠ 0 → mapped (vmem (fv s)) p (length data) → disjoint_blocks p (length data) (v_pc V) (Z.to_nat (v_size V)) →
  0 <= off → 0 < n < 2 ^ 63 → off + n <= Z.of_nat (length data) → n < Z.of_nat (length data) < 2 ^ 63 →
  mapped (vmem (fv s)) buf (Z.to_nat n) → disjoint_blocks buf (Z.to_nat n) p (length data) →
  ∃ o' s' u, read_callback cl OBOS_STATUS_SUCCESS (mkReadData buf i nc n 0 off vp OBOS_STATUS_SUCCESS p) s = Ret (ITERATE_DECISION_STOP, u) s' ∧
    rd_status u = OBOS_STATUS_SUCCESS ∧ vol_at V k o' (fv s') ∧
    vmem (fv s') = write_bytes (write_bytes (vmem (fv s)) p data) buf (take (Z.to_nat n) (drop (Z.to_nat off) data)) ∧ volumes s' = volumes s ∧ dirents s' = dirents s.
Proof.
  intros Hc Hg Hspc Hv Hcl Hp Hm Hdis H0 Hn Hoff Hlt Hbuf Hdb. destruct (bytesPerCluster_eq _ _ _ _ Hg Hspc Hcl) as [Ebpc Hbpc].
  pose proof (ca_length _ _ _ _ Hcl) as Hlen. set (l := take (Z.to_nat n) (drop (Z.to_nat off) data)).
  assert (Z.of_nat (length l) = n) as Hl by (unfold l; rewrite length_take, length_drop; lia).
  destruct (read_cluster c k o cl data p s Hg Hspc Hv Hcl Hp Hm Hdis) as (o' & s1 & s2 & Hseek & Hread & Hv2 & Em2 & Ec2 & Ed2).
  set (s3 := mem_upd (write_bytes (vmem (fv s2)) buf l) s2). exists o', s3. eexists. split; [|split; [|split; [|split; [|done]]]].
  - unfold read_callback, get_volume. cbn [rd_cache rd_i rd_bytesLeft rd_buf rd_current_offset rd_cluster_offset rd_cluster_buf rd_nClustersToRead].
    cbv zeta. erewrite bind_Ret by (by apply load_eq). 
    change (negb (bool_decide (OBOS_STATUS_SUCCESS = OBOS_STATUS_EOF)) && negb (bool_decide (OBOS_STATUS_SUCCESS = OBOS_STATUS_SUCCESS))) with false.
    cbv iota. erewrite bind_Ret by exact Hseek.
    erewrite bind_Ret by exact Hread. cbn [fst].
    change (obos_is_error OBOS_STATUS_SUCCESS) with false. cbv iota. cbn -[Z.pow wrap signed memcpy].
    assert (signed 64 n = n) as -> by (unfold signed; by rewrite (proj2 (Z.ltb_lt _ _)) by lia).
    rewrite (wrap_small 64 n), Ebpc by (unfold in_u; lia). rewrite (proj2 (Z.leb_le n _)) by lia. rewrite Z.add_0_r, <- Hl at 1.
    erewrite bind_Ret.
    2: { apply (memcpy_eq (S := fatst) l).
         - change (mem_of s2) with (vmem (fv s2)). rewrite Em2. intros j b Hj. rewrite write_bytes_lookup.
           unfold l in Hj. rewrite lookup_take in Hj. case_decide; [|done]. rewrite lookup_drop in Hj.
           pose proof (lookup_lt_Some _ _ _ Hj). rewrite decide_True by lia. rewrite <- Hj. f_equal. lia.
         - change (mem_of s2) with (vmem (fv s2)). rewrite Em2. apply write_bytes_mapped.
           replace (length l) with (Z.to_nat n) by lia. done.
         - unfold disjoint_blocks in *. lia. }
    fold s3. rewrite (negative_left n) by lia.
    by destruct (nc <=? i).
  - done.
  - change (fv s3) with ((fv s2) <| vmem := write_bytes (vmem (fv s2)) buf l |>). apply vol_at_mem; [done|]. apply write_bytes_mapped, Hv2.
  - simpl. by rewrite Em2.
Qed.

Lemma units_eq size n s : n ≠ 0 → ∃ q, units size n s = Ret q s.
Proof using Type.
  intros Hn. unfold units, udiv, umod. rewrite (proj2 (Z.eqb_neq n 0)) by done. eexists.
  erewrite bind_Ret by (by apply file_id). by erewrite bind_Ret by (by apply file_id).
Qed.

Lemma cluster_at_agree c cl data m m' : 0 <= cluster_pos c cl → cluster_at c cl data m →
  (∀ a, v_pc V <= a < v_pc V + v_size V → m' !! a = m !! a) → cluster_at c cl data m'.
Proof.
  intros H0 [H1 H2 H3 Hb] Hagree. split; try done. intros j b Hj. pose proof (lookup_lt_Some _ _ _ Hj). rewrite Hagree by lia. by apply Hb.
Qed.

(** [FollowClusterChain] with the callback, for a range inside the first cluster. *)
Lemma follow_read vp c k o F cl data buf n off p nc fuel s : volumes s !! vp = Some c → geometry V c → 0 < sectorsPerCluster c →
  vol_at V k o (fv s) → fat_at V c F (vmem (fv s)) → 2 <= cl < Z.of_nat (length F) → cluster_at c cl data (vmem (fv s)) →
  p ≠ 0 → mapped (vmem (fv s)) p (length data) → disjoint_blocks p (length data) (v_pc V) (Z.to_nat (v_size V)) →
  0 <= off → 0 < n → off + n <= Z.of_nat (length data) → n < Z.of_nat (length data) < 2 ^ 63 →
  mapped (vmem (fv s)) buf (Z.to_nat n) → disjoint_blocks buf (Z.to_nat n) p (length data) →
  ∃ s' u, FollowClusterChain (Datatypes.S fuel) vp cl read_callback (mkReadData buf 0 nc n 0 off vp OBOS_STATUS_SUCCESS p) s = Ret u s' ∧
    rd_status u = OBOS_STATUS_SUCCESS ∧ volumes s' = volumes s ∧ dirents s' = dirents s ∧
    bytes_at (vmem (fv s')) buf (take (Z.to_nat n) (drop (Z.to_nat off) data)) ∧
    (∀ a, is_Some (vmem (fv s) !! a) → ¬ buf <= a < buf + n → ¬ p <= a < p + Z.of_nat (length data) → vmem (fv s') !! a = vmem (fv s) !! a).
Proof.
  intros Hc Hg Hspc Hv Hf Hcl Hdata Hp Hm Hdis H0 Hn Hoff Hlt Hbuf Hdb. pose proof (ve_bs _ _ HE) as Hbs.
  assert (0 <= cl < Z.of_nat (length F)) as Hcl' by lia. set (w := ent_width (fatType c)).
  destruct (sector_split HE c F _ cl Hg Hf Hcl') as (F1 & G1 & x & G2 & F2 & HF & HS & HF1 & _). fold w in HS, HF1.
  destruct (entry_in_table HE c vp F _ cl s Hg Hf Hc Hcl') as [Haddr Hq]. fold w in Haddr, Hq. set (q := cl * Z.of_nat w / v_bs V) in *.
  pose proof Hg as [_ Hfd (Hblk & _) _ (Hr0 & Hf0 & Hn0) Hsz _ _ _].
  unfold FollowClusterChain, get_volume. erewrite bind_Ret by exact Haddr. erewrite bind_Ret by (by apply load_eq).
  destruct (fa_zalloc (v_bs V) s) as (p2 & Halloc & Hp2 & Hfresh). rewrite Hblk, Hfd. cbn [fea_lba]. erewrite bind_Ret by exact Halloc.
  assert (0 < v_size V) as Hsize by nia. pose proof (alloc_apart _ _ _ _ _ Hv Hbs Hsize Hfresh) as Hdis2.
  set (m1 := write_bytes (vmem (fv s)) p2 (replicate (Z.to_nat (v_bs V)) 0)). set (s1 := with_mem m1 s).
  assert (∀ a, ¬ p2 <= a < p2 + v_bs V → m1 !! a = vmem (fv s) !! a) as Hm1.
  { intros a Ha. apply write_bytes_outside. rewrite length_replicate. lia. }
  assert (∀ a, v_pc V <= a < v_pc V + v_size V → ¬ p2 <= a < p2 + v_bs V) as Hcache by (intros a Ha; unfold disjoint_blocks in Hdis2; lia).
  assert (vol_at V k o (fv s1)) as Hv1 by (apply vol_at_mem; [done|apply write_bytes_mapped, Hv]).
  assert (fat_at V c F m1) as Hf1 by (eapply (fat_at_agree HE); [done|exact Hf|]; intros a Ha; apply Hm1; by apply Hcache).
  destruct (read_sector HE c k o q w F1 (G1 ++ x :: G2) F2 F p2 s1 Hg Hv1 Hf1) as
    (r1 & r2 & s2 & s3 & Ewrap & Hseek & Hread & Hv3 & Em3 & Ec3 & _ & Ed3); try done.
  { intros i Hi. eexists. by apply zeros_at. }
  rewrite Ewrap. erewrite bind_Ret by exact Hseek. erewrite bind_Ret by exact Hread.
  assert (∀ a, ¬ p2 <= a < p2 + v_bs V → vmem (fv s3) !! a = vmem (fv s) !! a) as Hm3.
  { intros a Ha. rewrite Em3. rewrite write_bytes_outside by (rewrite length_fat_bytes; lia). by apply Hm1. }
  assert (0 <= cluster_pos c cl) as Hpos by (unfold cluster_pos; destruct Hdata; nia).
  assert (∀ b j, mapped (vmem (fv s)) b j → mapped (vmem (fv s3)) b j) as Hmap.
  { intros b j Hj. rewrite Em3. by apply write_bytes_mapped, write_bytes_mapped. }
  destruct (read_callback_ok c vp k ((reservedSectorCount c + q) * v_bs V + v_bs V) cl data buf n off p nc 0 s3) as (o' & s4 & u & Hcb & Hst & _ & Em4 & Ec4 & Ed4); try done; try lia; eauto.
  { by rewrite Ec3. }
  { eapply cluster_at_agree; [done|exact Hdata|]. intros a Ha. by apply Hm3, Hcache. }
  cbn [follow_loop]. erewrite (bind_Ret _ _ s3 u s4) by (by erewrite bind_Ret by exact Hcb).
  destruct (fa_free p2 (v_bs V) s4) as (m5 & Hfree & Hm5). erewrite bind_Ret by exact Hfree.
  exists (with_mem m5 s4), u. split; [done|]. split; [done|]. split; [change (volumes s4 = volumes s); by rewrite Ec4, Ec3|].
  split; [change (dirents s4 = dirents s); by rewrite Ed4, Ed3|]. set (l := take (Z.to_nat n) (drop (Z.to_nat off) data)) in *.
  assert (length l = Z.to_nat n) as Hl by (unfold l; rewrite length_take, length_drop; lia).
  assert (∀ a, is_Some (vmem (fv s) !! a) → ¬ p2 <= a < p2 + v_bs V) as Hout2 by (intros a [y Hy] Ha; by rewrite Hfresh in Hy).
  split.
  - intros j b Hj. pose proof (lookup_lt_Some _ _ _ Hj). change (m5 !! (buf + Z.of_nat j) = Some b).
    rewrite Hm5 by (apply Hout2, Hbuf; lia). rewrite Em4. by apply write_bytes_same.
  - intros a Ha Hnb Hnp. change (m5 !! a = vmem (fv s) !! a). pose proof (Hout2 a Ha).
    rewrite Hm5, Em4 by done. rewrite !write_bytes_outside by (rewrite ?Hl; lia). by apply Hm3.
Qed.

(** [C17] Reading [n] bytes at the offset [off] of a file, less than a cluster and
    inside its first cluster, on a FAT16 or FAT32 volume with sectors of the size of the
    device's blocks, which is in the page cache: the call succeeds, the buffer gets the
    bytes of the file at that offset, no other byte that was mapped changes, nor does
    any entry of the directory cache; but the number of bytes read that is reported is
    zero. *)
Theorem fat_read_in_cluster vp c k F d e cl data buf n off nr fuel s : fat_ok V vp c k F s → geometry V c → 0 < sectorsPerCluster c →
  dirents s !! d = Some e → d ≠ 0 → d_owner e = vp → has_flag (attribs (d_data e)) DIRECTORY = false →
  first_cluster c (d_data e) = cl → 2 <= cl < Z.of_nat (length F) → cluster_at c cl data (vmem (fv s)) →
  buf ≠ 0 → mapped (vmem (fv s)) buf (Z.to_nat n) → 0 <= off → 0 < n → off + n <= d_filesize (d_data e) →
  off + n <= Z.of_nat (length data) → n < Z.of_nat (length data) < 2 ^ 63 →
  ∃ s', fat_read_sync (Datatypes.S fuel) d buf n off nr s = Ret (OBOS_STATUS_SUCCESS, set_out nr 0) s' ∧
    bytes_at (vmem (fv s')) buf (take (Z.to_nat n) (drop (Z.to_nat off) data)) ∧
    (∀ a, is_Some (vmem (fv s) !! a) → ¬ buf <= a < buf + n → vmem (fv s') !! a = vmem (fv s) !! a) ∧
    dirents s' = dirents s ∧ volumes s' = volumes s.
Proof.
  intros [Hc [o Hv] Hf] Hg Hspc He Hd Hown Hdir Hfirst Hcl Hdata Hb Hbuf H0 Hn Hfile Hoff Hlt.
  destruct (bytesPerCluster_eq _ _ _ _ Hg Hspc Hdata) as [Ebpc Hbpc]. pose proof (ca_length _ _ _ _ Hdata) as Hlen.
  assert (0 <= cluster_pos c cl) as Hpos by (unfold cluster_pos; pose proof (ve_bs _ _ HE); destruct Hdata; nia).
  pose proof (ca_inside _ _ _ _ Hdata) as Hin. destruct (table_bounds _ _ _ _ Hg Hf) as [[_ HFmax] _].
  unfold fat_read_sync. rewrite (proj2 (truthy_true d)), (proj2 (truthy_true buf)), (proj2 (truthy_true n)) by lia. cbn [negb orb].
  unfold get_dirent, get_volume. erewrite bind_Ret by (by apply load_eq). rewrite Hdir, Hown. cbv zeta.
  rewrite (proj2 (Z.leb_gt _ off)) by lia. erewrite bind_Ret by (by apply load_eq). rewrite Ebpc, <- Hlen, Hfirst.
  set (bpc := Z.of_nat (length data)) in *.
  edestruct (units_eq (if d_filesize (d_data e) <=? wrap64 (off + n) then d_filesize (d_data e) - off else n) bpc s) as [nc Hnc]; [lia|].
  erewrite bind_Ret by exact Hnc. unfold udiv, umod. rewrite (proj2 (Z.eqb_neq bpc 0)) by lia.
  erewrite bind_Ret by (by apply file_id). rewrite (Z.div_small off) by lia. rewrite Z.add_0_r, (wrap_small 32) by (unfold in_u; lia).
  destruct (fa_alloc bpc s) as (p & l & Halloc & Hl & Hp & Hfresh). erewrite bind_Ret by exact Halloc.
  assert (0 < bpc ∧ 0 < v_size V) as [Hbpos Hvpos] by lia.
  pose proof (alloc_apart _ _ _ _ _ Hv Hbpos Hvpos Hfresh) as Hdis. set (s1 := with_mem _ s).
  assert (∀ a, ¬ p <= a < p + bpc → vmem (fv s1) !! a = vmem (fv s) !! a) as Hm1.
  { intros a Ha. apply write_bytes_outside. rewrite Hl. lia. }
  assert (∀ a, v_pc V <= a < v_pc V + v_size V → vmem (fv s1) !! a = vmem (fv s) !! a) as Hcache.
  { intros a Ha. apply Hm1. unfold disjoint_blocks in Hdis. lia. }
  erewrite bind_Ret by (by apply file_id). rewrite (Z.mod_small off) by lia. erewrite bind_Ret by apply fk_acquire.
  destruct (follow_read vp c k o F cl data buf n off p nc fuel s1) as (s2 & u & Hfollow & Hst & Ec2 & Ed2 & Hbytes & Hm2); try done; try lia.
  { apply vol_at_mem; [done|]. apply write_bytes_mapped, Hv. }
  { eapply (fat_at_agree HE); [done|exact Hf|done]. }
  { by eapply cluster_at_agree. }
  { rewrite <- (Nat2Z.id (length data)). fold bpc. rewrite <- Hl. apply bytes_at_mapped, write_bytes_same. }
  { by rewrite <- (Nat2Z.id (length data)). }
  { by apply write_bytes_mapped. }
  { rewrite <- (Nat2Z.id (length data)). apply disjoint_pointwise; [|lia|lia]. intros a Ha1 Ha2.
    destruct (mapped_at _ _ _ _ Hbuf Ha1) as [y Hy]. rewrite Hfresh in Hy; [done|lia]. }
  erewrite bind_Ret by exact Hfollow. erewrite bind_Ret by apply fk_release.
  destruct (fa_free p bpc s2) as (m3 & Hfree & Hm3). erewrite bind_Ret by exact Hfree.
  assert (∀ a, is_Some (vmem (fv s) !! a) → ¬ p <= a < p + bpc) as Hout by (intros a [y Hy] Ha; by rewrite Hfresh in Hy).
  exists (with_mem m3 s2). split; [|split; [|split; [|done]]].
  - unfold mret, K_ret. rewrite Hst. do 2 f_equal. unfold set_out. destruct nr; [|done]. cbn [fmap option_fmap option_map]. f_equal.
    unfold signed. rewrite (proj2 (Z.ltb_lt n _)), (proj2 (Z.leb_le 0 n)), Z.sub_diag by lia. done.
  - intros j b Hj. pose proof (lookup_lt_Some _ _ _ Hj) as Hjl. rewrite length_take, length_drop in Hjl.
    change (m3 !! (buf + Z.of_nat j) = Some b). rewrite Hm3 by (apply Hout, Hbuf; lia). by apply Hbytes.
  - intros a Ha Hnb. change (m3 !! a = vmem (fv s) !! a). pose proof (Hout a Ha). rewrite Hm3, Hm2; [by apply Hm1| |done|done|done].
    by rewrite Hm1.
Qed.

End read.

(** ** The children of a directory *)

Lemma set_dirent_eq d f e s : dirents s !! d = Some e → set_dirent d f s = Ret () (s <| dirents := <[d := f e]> (dirents s) |>).
Proof. intros H. exact (store_eq _ _ _ f _ _ H). Qed.

#[local] Ltac dir_simpl := repeat (rewrite lookup_insert_eq || rewrite lookup_insert_ne by congruence).
#[local] Ltac dir_lookup := simpl; dir_simpl; first [reflexivity | eassumption].
#[local] Ltac dir_step :=
  first [ erewrite (bind_Ret (get_dirent _)) by (apply load_eq; dir_lookup)
        | erewrite (bind_Ret (set_dirent _ _)) by (eapply set_dirent_eq; dir_lookup)
        | erewrite (bind_Ret (when true _)) by (unfold when; eapply set_dirent_eq; dir_lookup)
        | erewrite (bind_Ret (when false _)) by reflexivity
        | erewrite (bind_Ret (mret _)) by reflexivity ]; simpl.

(** Putting an entry into a directory and taking it out again leaves every other entry as
    it was; the entry has no parent then. *)
Lemma append_remove_child parent child p c s : parent ≠ 0 → child ≠ 0 → child ≠ parent →
  dirents s !! parent = Some p → dirents s !! child = Some c → fdc_next_child c = 0 → in_u 64 (nChildren p) →
  (fdc_head p = 0 ↔ fdc_tail p = 0) → fdc_head p ≠ child →
  (fdc_tail p ≠ 0 → fdc_tail p ≠ parent ∧ fdc_tail p ≠ child ∧ ∃ t, dirents s !! fdc_tail p = Some t ∧ fdc_next_child t = 0) →
  ∃ s' s'', CacheAppendChild parent child s = Ret () s' ∧ CacheRemoveChild parent child s' = Ret () s'' ∧ fv s'' = fv s ∧
    dirents s'' = <[child := c <| fdc_prev_child := fdc_tail p |> <| fdc_parent := 0 |>]> (dirents s).
Proof.
  intros Hp0 Hc0 Hne Hp Hc Hnext Hn Hempty Hhead Htail.
  destruct (decide (fdc_tail p = 0)) as [Ht|Ht].
  - pose proof (proj2 Hempty Ht) as Hh. eexists _, _. split; [|split].
    + unfold CacheAppendChild. dir_step. rewrite Hh. change (negb (truthy 0)) with true. dir_step. dir_step. rewrite Ht. change (truthy 0) with false.
      dir_step. dir_step. dir_step. dir_step. dir_step. eapply set_dirent_eq. dir_lookup.
    + unfold CacheRemoveChild. dir_step. change (truthy 0) with false. dir_step. dir_step. rewrite Hnext. change (truthy 0) with false. dir_step.
      dir_step. dir_step. rewrite Z.eqb_refl. dir_step. dir_step. dir_step. rewrite Z.eqb_refl. dir_step. dir_step. eapply set_dirent_eq. dir_lookup.
    + split; [done|]. simpl. apply map_eq. intros i. destruct (decide (i = child)) as [->|Hi]; [by rewrite !lookup_insert_eq, Ht, Hnext|].
      destruct (decide (i = parent)) as [->|Hi']; dir_simpl; [|done].
      rewrite Hp. f_equal. destruct p. simpl in *. by rewrite wrap64_succ_pred, Hh, Ht.
  - destruct (Htail Ht) as (Htp & Htc & t & Hlt & Htn). pose proof Hempty as Hh. eexists _, _. split; [|split].
    + unfold CacheAppendChild. dir_step. rewrite (proj2 (truthy_true (fdc_head p))) by tauto. cbn [negb]. dir_step. dir_step.
      rewrite (proj2 (truthy_true (fdc_tail p))) by done. dir_step. dir_step. dir_step. dir_step. dir_step. eapply set_dirent_eq. dir_lookup.
    + unfold CacheRemoveChild. dir_step. rewrite (proj2 (truthy_true (fdc_tail p))) by done. dir_step. dir_step. rewrite Hnext. change (truthy 0) with false. dir_step.
      dir_step. dir_step. rewrite (proj2 (Z.eqb_neq (fdc_head p) child)) by done. dir_step. dir_step. dir_step. rewrite Z.eqb_refl. dir_step. dir_step. eapply set_dirent_eq. dir_lookup.
    + split; [done|]. simpl. apply map_eq. intros i. destruct (decide (i = child)) as [->|Hi]; [by rewrite !lookup_insert_eq, Hnext|].
      destruct (decide (i = parent)) as [->|Hi']; dir_simpl.
      * rewrite Hp. f_equal. destruct p. simpl in *. by rewrite wrap64_succ_pred.
      * destruct (decide (i = fdc_tail p)) as [->|Hit]; dir_simpl; [|done].
        rewrite Hlt. f_equal. destruct t. simpl in *. by subst.
Qed.
