(* ===== verification/FatWitness.v ===== *)
(** * The FAT driver at concrete inputs

    A FAT16 volume with two copies of a table of twelve entries, in blocks of eight
    bytes, and two clusters of two blocks, all of it in the page cache; the runs 2-3, 5-6, 8 and 10 are free. *)

From S2P Require Import Prelude Bytes Alloc DList Vfs VfsProofs Partition PartitionProofs VolCache Fat FatProofs FatIo FatFree FatScan FatRead.

(** ** The environment *)

Definition fresh_key {A} (m : gmap Z A) : Z := Bump.top ((λ _, 0) <$> m).
Lemma fresh_key_ok {A} (m : gmap Z A) a : fresh_key m <= a → m !! a = None.
Proof. intros H. apply Bump.top_fresh in H. rewrite lookup_fmap in H. by destruct (m !! a). Qed.
Lemma fresh_key_pos {A} (m : gmap Z A) : 0 < fresh_key m.
Proof. apply Bump.top_pos. Qed.

#[local] Instance fat_files : VfsEnv := {|
  get_blk_size _ _ := mret 8;
  read_sync _ _ _ _ _ _ := stop NoReturn;
  write_sync _ _ _ _ _ _ := stop NoReturn;
  mutex_acquire _ := mret OBOS_STATUS_SUCCESS;
  mutex_release _ := mret OBOS_STATUS_SUCCESS;
  free_mount _ := mret ();
  alloc_dirty s := let q := Z.max (fresh_key (dirty s)) (fresh_key (dirty_links s)) in
    Ret q (s <| dirty ::= <[q := mkDirty 0 0 0]> |> <| dirty_links ::= <[q := unlinked]> |>);
  free_dirty _ := mret ();
  vm_reserve _ := mret 0;
  vm_commit _ := mret ()
|}.

(** Blocks are placed behind all that is mapped; freed blocks are unmapped. *)
Definition unmap (p : Z) (n : nat) (m : bmem) : bmem := foldr (λ i m, delete (p + Z.of_nat i) m) m (seq 0 n).
Lemma unmap_outside p n m a : ¬ p <= a < p + Z.of_nat n → unmap p n m !! a = m !! a.
Proof.
  intros Ha. unfold unmap. assert (Forall (λ i, p + Z.of_nat i ≠ a) (seq 0 n)) as H by (apply Forall_seq; lia).
  induction H as [|i l Hi _ IH]; simpl; [done|]. by rewrite lookup_delete_ne.
Qed.

#[local] Instance fat_heap : FatAlloc := {|
  fat_alloc n s := let p := fresh_key (vmem (fv s)) in Ret p (with_mem (write_bytes (vmem (fv s)) p (replicate (Z.to_nat n) 0xcc)) s);
  fat_zalloc n s := let p := fresh_key (vmem (fv s)) in Ret p (with_mem (write_bytes (vmem (fv s)) p (replicate (Z.to_nat n) 0)) s);
  fat_free p n s := Ret () (with_mem (unmap p (Z.to_nat n) (vmem (fv s))) s);
  node_zalloc s := let p := fresh_key (freenodes s) in Ret p (s <| freenodes ::= <[p := zero_node]> |>);
  node_free p := modify (λ s, s <| freenodes ::= delete p |>)
|}.

#[local] Instance fat_heap_laws : FatAllocLaws.
Proof.
  split.
  - intros n s. eexists _, _. split; [reflexivity|]. rewrite length_replicate. split; [done|]. pose proof (fresh_key_pos (vmem (fv s))).
    split; [lia|]. intros a Ha. apply fresh_key_ok. lia.
  - intros n s. eexists. split; [reflexivity|]. pose proof (fresh_key_pos (vmem (fv s))). split; [lia|]. intros a Ha. apply fresh_key_ok. lia.
  - intros p n s. eexists. split; [reflexivity|]. intros a Ha. destruct (decide (0 <= n)); [apply unmap_outside; lia|].
    by replace (Z.to_nat n) with 0%nat by lia.
  - intros s. eexists. split; [reflexivity|]. pose proof (fresh_key_pos (freenodes s)). split; [lia|]. by apply fresh_key_ok.
  - done.
Qed.

(** ** The volume *)

Definition demo_vnode : vnode := mkVnode VNODE_TYPE_BLK 0 24 32 1 (mkPerm true true true true true true) 88 0 0 0 4096 0.
Definition demo_volume : volume := mkVolume 16 8 7 demo_vnode 40 8 88.
Definition demo_table : list Z := [0xFFF8; 0xFFFF; 0; 0; 0xFFF8; 0; 0; 0xFFF8; 0; 0xFFF8; 0; 0xFFF8].
Definition demo_cache (hd tl nn fc : Z) : fat_cache := mkFatCache FAT16_VOLUME 2 1 8 2 7 16 12 8 3 hd tl nn fc.
Definition demo_data : list Z := seqZ 1 16.
Definition demo_mem : bmem :=
  write_bytes (write_bytes (write_bytes ∅ 4096 (replicate 56 0 ++ demo_data ++ replicate 16 0)) 4104 (fat_bytes 2 demo_table)) 4128 (fat_bytes 2 demo_table).
Definition demo_files : vst :=
  mkVst demo_mem {[ 8 := demo_vnode ]} {[ 16 := mkFd 8 7 0 ]} ∅ ∅ {[ 24 := mkMount 0 0 false ]} {[ 32 := 40 ]} ∅ ∅
    {[ 8 := empty_list ]} {[ 4096 := false ]} 0 0.

(** Not mounted yet, and mounted. *)
Definition fat_demo0 : fatst := mkFatst demo_files {[ 48 := demo_cache 0 0 0 0 ]} ∅ ∅.
Definition fat_demo : fatst := mkFatst demo_files {[ 48 := demo_cache 100 400 4 6 ]}
  {[ 100 := mkFreeNode 2 2 200 0; 200 := mkFreeNode 5 2 300 100; 300 := mkFreeNode 8 1 400 200; 400 := mkFreeNode 10 1 0 300 ]} ∅.
Definition demo_runs : list run := [(400, (10, 1)); (300, (8, 1)); (200, (5, 2)); (100, (2, 2))].

Lemma demo_volume_env : volume_env fat_files demo_volume.
Proof.
  split; try done.
  intros s. eexists _, _. split; [reflexivity|]. pose proof (fresh_key_pos (dirty s)).
  split; [lia|]. split; apply fresh_key_ok; lia.
Qed.

Lemma demo_at n : Z.of_nat n < 2 ^ 64 → vol_at demo_volume n 0 demo_files.
Proof.
  intros Hn. split; try done.
  - exists (mkMount 0 0 false). done.
  - exists []. split; [|simpl; lia]. split; [|by intros ? ? ?%not_elem_of_nil].
    exists empty_list. split; [done|]. apply dl_rep_empty.
  - intros a [Ha1 Ha2] Hal. change (v_pc demo_volume) with 4096 in *. change (v_size demo_volume) with 88 in *. unfold OBOS_PAGE_SIZE in Hal.
    assert (a = 4096) as -> by (pose proof (Z.div_mod a 4096); lia). done.
  - apply write_bytes_mapped, write_bytes_mapped. exact (bytes_at_mapped _ _ _ (write_bytes_same ∅ 4096 (replicate 56 0 ++ demo_data ++ replicate 16 0))).
Qed.

Lemma demo_geometry hd tl nn fc : geometry demo_volume (demo_cache hd tl nn fc).
Proof. split; cbn; lia || done. Qed.

Lemma demo_fat hd tl nn fc : fat_at demo_volume (demo_cache hd tl nn fc) demo_table demo_mem.
Proof.
  split.
  - repeat constructor; unfold entry; simpl; lia.
  - done.
  - intros i Hi. change (nFATs (demo_cache hd tl nn fc)) with 2 in Hi. assert (i = 0 ∨ i = 1) as [-> | ->] by lia.
    + apply write_bytes_other; [right; vm_compute; discriminate|]. apply write_bytes_same.
    + apply write_bytes_same.
Qed.

Lemma demo_ok n hd tl nn fc s : Z.of_nat n < 2 ^ 64 → volumes s !! 48 = Some (demo_cache hd tl nn fc) → fv s = demo_files →
  fat_ok demo_volume 48 (demo_cache hd tl nn fc) n demo_table s.
Proof. intros Hn Hc Ev. split; [done|exists 0; rewrite Ev; by apply demo_at|rewrite Ev; apply demo_fat]. Qed.

Lemma demo_inv n : Z.of_nat n < 2 ^ 64 → fat_inv demo_volume 48 (demo_cache 100 400 4 6) true n demo_table demo_runs fat_demo.
Proof.
  intros Hn. split; [by apply demo_ok|apply demo_geometry| | |].
  - cbn [nodes demo_runs]. repeat (split; [done|]; split; [done|]; eexists _, _; split; [reflexivity|]; split; [by intros _; first [done|left]|]). done.
  - refine (bool_decide_unpack (NoDup demo_runs.*1) _). vm_compute. exact I.
  - split.
    + refine (bool_decide_unpack (NoDup (clusters demo_runs)) _). vm_compute. exact I.
    + repeat constructor; cbn; lia.
    + repeat constructor; eexists; (split; [reflexivity|reflexivity]).
    + repeat constructor; cbn; lia.
    + done.
Qed.

(** ** The theorems applied *)

Lemma allocate_clusters_witness : fat_inv demo_volume 48 (demo_cache 100 400 4 6) true 6 demo_table demo_runs fat_demo ∧
  ∃ s', AllocateClusters 48 2 fat_demo = Ret 5 s'.
Proof.
  split; [apply demo_inv; lia|].
  destruct (allocate_clusters_correct demo_volume_env 48 (demo_cache 100 400 4 6) 0 demo_table demo_runs 2 fat_demo (demo_inv 6 ltac:(lia)) ltac:(lia))
    as [[Hall _]|(r1 & q & c0 & m & r2 & c' & F' & s' & Hrs & Hm & Hall & Hret & _)].
  - exfalso. unfold demo_runs in Hall. rewrite !Forall_cons in Hall. cbn in Hall. lia.
  - exists s'. enough (c0 + m - 2 = 5) as <- by exact Hret. clear -Hrs Hm Hall. unfold demo_runs in Hrs.
    destruct r1 as [|r1a [|r1b [|r1c r1]]]; injection Hrs as; subst; [lia|lia|lia|].
    rewrite !Forall_cons in Hall. destruct Hall as (_ & _ & Hc & _). cbn in Hc. lia.
Defined.

Lemma alloc_free_roundtrip_witness : Exists (λ r : run, 2 <= r.2.2) demo_runs ∧
  ∃ cl s1 s2 c2, AllocateClusters 48 2 fat_demo = Ret cl s1 ∧ FreeClusters 48 cl 2 s1 = Ret () s2 ∧
    fat_at demo_volume c2 demo_table (vmem (fv s2)) ∧ freeClusterCount c2 = 6.
Proof.
  assert (Exists (λ r : run, 2 <= r.2.2) demo_runs) as Hex by (right; right; left; cbn; lia). split; [exact Hex|].
  destruct (alloc_free_roundtrip demo_volume_env 48 (demo_cache 100 400 4 6) 0 demo_table demo_runs 2 fat_demo (demo_inv 10 ltac:(lia)) ltac:(lia) Hex)
    as (cl & s1 & s2 & c2 & rs2 & b & H1 & H2 & H3 & _ & H4 & _).
  exists cl, s1, s2, c2. split; [exact H1|]. split; [exact H2|]. split; [|exact H4].
  destruct H3 as [[_ _ Hf] _ _ _ _]. exact Hf.
Defined.

Lemma freelist_complete_witness : ∃ s', InitializeCacheFreelist 48 fat_demo0 = Ret () s'.
Proof.
  destruct (freelist_complete demo_volume_env 48 (demo_cache 0 0 0 0) 0 demo_table 0 fat_demo0) as (c' & rs & s' & Hret & _).
  - reflexivity.
  - apply demo_geometry.
  - apply demo_at. lia.
  - apply demo_fat.
  - reflexivity.
  - reflexivity.
  - cbn. lia.
  - exists s'. exact Hret.
Defined.

(** A file of ten bytes that begins in the cluster 2, and a buffer at 9000. *)
Definition demo_dirent : fat_dirent_cache :=
  mkDirentCache (mkDirent (replicate 11 32) 0 (replicate 8 0) 0 (replicate 4 0) 2 10) 0 0 48 0 0 0 0 0 0.
Definition file_mem : bmem := write_bytes demo_mem 9000 (replicate 8 0).
Definition file_demo : fatst := mkFatst (demo_files <| vmem := file_mem |>) {[ 48 := demo_cache 0 0 0 0 ]} ∅ {[ 500 := demo_dirent ]}.

#[local] Instance demo_locks : FatLocks := {| fat_acquire _ := mret OBOS_STATUS_SUCCESS; fat_release _ := mret OBOS_STATUS_SUCCESS |}.
#[local] Instance demo_lock_laws : FatLockLaws.
Proof. split; reflexivity. Qed.

Lemma file_demo_ok : fat_ok demo_volume 48 (demo_cache 0 0 0 0) 0 demo_table file_demo.
Proof.
  split; [reflexivity| |].
  - exists 0. apply vol_at_mem; [apply demo_at; lia|]. apply write_bytes_mapped. exact (va_mem _ _ _ _ (demo_at 0 ltac:(lia))).
  - eapply (fat_at_agree demo_volume_env); [apply demo_geometry|apply demo_fat|]. intros a Ha. apply write_bytes_outside. cbn in *. lia.
Qed.

Lemma file_demo_cluster : cluster_at (V := demo_volume) (demo_cache 0 0 0 0) 2 demo_data (vmem (fv file_demo)).
Proof.
  split; [cbn; lia|vm_compute; discriminate|reflexivity|]. apply write_bytes_other; [right; vm_compute; discriminate|].
  apply write_bytes_other; [left; vm_compute; discriminate|]. apply write_bytes_other; [left; vm_compute; discriminate|].
  pose proof (write_bytes_same ∅ 4096 (replicate 56 0 ++ demo_data ++ replicate 16 0)) as H. rewrite !bytes_at_app in H. apply H.
Qed.

Lemma fat_read_witness : ∃ s', fat_read_sync 1 500 9000 3 2 (Some 7) file_demo = Ret (OBOS_STATUS_SUCCESS, Some 0) s' ∧
  bytes_at (vmem (fv s')) 9000 [3; 4; 5].
Proof.
  destruct (fat_read_in_cluster demo_volume_env 48 (demo_cache 0 0 0 0) 0 demo_table 500 demo_dirent 2 demo_data 9000 3 2 (Some 7) 0 file_demo)
    as (s' & Hret & Hbytes & _).
  - exact file_demo_ok.
  - apply demo_geometry.
  - cbn. lia.
  - reflexivity.
  - lia.
  - reflexivity.
  - reflexivity.
  - reflexivity.
  - cbn. lia.
  - exact file_demo_cluster.
  - lia.
  - intros i Hi. eexists. apply zeros_at. lia.
  - lia.
  - lia.
  - cbn. lia.
  - vm_compute. discriminate.
  - split; vm_compute; reflexivity.
  - exists s'. split; [exact Hret|exact Hbytes].
Defined.

(** ** The free list after a run inside it is used up

    Two allocations of two clusters use up the second run and then the first one; a
    third, for which enough clusters are free, follows the pointer the second run's
    neighbour still has to the node that was freed. *)
Theorem free_list_dangling :
  (AllocateClusters 48 2;; AllocateClusters 48 2;; AllocateClusters 48 2) fat_demo = Stop BadDeref.
Proof. vm_compute. reflexivity. Qed.

(** ** Following a chain

    The callback notes the clusters it is called for.  On the chain 2, 3 it is called
    twice, both times for the cluster 2. *)
Definition note_cluster : clus_chain_cb (list Z) := λ cluster status seen, mret (ITERATE_DECISION_CONTINUE, seen ++ [cluster]).

Definition follow_demo : fatst := with_mem (write_bytes demo_mem 4104 (fat_bytes 2 [0xFFF8; 0xFFFF; 3; 0xFFF8])) fat_demo.

Theorem follow_repeats_first :
  match FollowClusterChain 5 48 2 note_cluster [] follow_demo with
  | Ret seen _ => seen = [2; 2]
  | _ => False
  end.
Proof. vm_compute. reflexivity. Qed.
