(* ===== verification/InitSwapProofs.v ===== *)
(** * The initial swap device keeps the laws of swap devices

    As long as the first free block of the buffer is large enough, blocks are cut from its
    end; they do not overlap, and reading a block gives what was written to it.  The
    invariant holds after initialisation and after every sequence of operations. *)

From S2P Require Import Prelude DList KState Irql ThreadList Schedule Thread Wait Vfs Pmm PmmProofs Paging PagingProofs PagingOps InitSwap Vmm VmSwap.

#[export] Instance initial_swap {DH : DpcHandlers} : SwapOps := {|
  dev_resv := swap_resv; dev_free := swap_free; dev_write := swap_write; dev_read := swap_read
|}.

Section proofs.
Context {DH : DpcHandlers}.
#[local] Set Default Proof Using "Type".

(** ** The lock *)

Lemma skern_Ret {A} (m : K kst A) s a k :
  m (mk (pm (sg s))) = Ret a k → skern m s = Ret a (s <| sg ::= λ g, g <| pm ::= λ p, p <| mk := k |> |> |>).
Proof. intros E. unfold skern, zoom. by rewrite E. Qed.

Definition sw_ready (s : sst) (hdr v : Z) : Prop := quiet (kirq s) v ∧ lock_free (kirq s) (SwapLock hdr).

Lemma swap_lock_eq s hdr v : sw_ready s hdr v → swap_lock hdr s = Ret (acq_irql v) (with_kirq (nthr_up (kirq s) (SwapLock hdr)) s).
Proof. intros [Hq Hl]. unfold swap_lock. by erewrite skern_Ret by exact (acquire_nthr_up _ _ _ Hq Hl). Qed.
Lemma swap_unlock_eq s hdr v s' :
  sw_ready s hdr v → kirq s' = nthr_up (kirq s) (SwapLock hdr) → swap_unlock hdr (acq_irql v) s' = Ret () (with_kirq (kirq s) s').
Proof.
  intros [Hq Hl] E. unfold swap_unlock.
  by erewrite bind_Ret by (erewrite skern_Ret by (by apply (release_nthr_up _ (kirq s))); reflexivity).
Qed.

Lemma with_kirq_back s i m h : with_kirq (kirq s) (with_kirq i s <| swap_mem := m |> <| swap_hdrs := h |>) = s <| swap_mem := m |> <| swap_hdrs := h |>.
Proof. by destruct s as [[[[] ? ? ? ? ? ? ?] ? ? ? ? ?] ? ? ?]. Qed.

(** ** Copying *)

Lemma copy_out_eq n dst src s :
  (∀ j, 0 <= j < Z.of_nat n → is_Some (words (sg s) !! (src + 8 * j))) → (∀ j, 0 <= j < Z.of_nat n → is_Some (swap_mem s !! (dst + 8 * j))) →
  ∃ m, copy_out n dst src s = Ret () (s <| swap_mem := m |>) ∧
    (∀ j, 0 <= j < Z.of_nat n → m !! (dst + 8 * j) = words (sg s) !! (src + 8 * j)) ∧
    (∀ a, ¬ dst <= a < dst + 8 * Z.of_nat n → m !! a = swap_mem s !! a) ∧ (∀ a, is_Some (m !! a) ↔ is_Some (swap_mem s !! a)).
Proof.
  revert dst src s. induction n as [|n IH]; intros dst src s Hs Hd.
  { exists (swap_mem s). split; [by destruct s|]. split; [lia|done]. }
  destruct (Hs 0) as [v Hv]; [lia|]. destruct (Hd 0) as [o Ho]; [lia|]. rewrite Z.mul_0_r, Z.add_0_r in Hv, Ho.
  destruct (IH (dst + 8) (src + 8) (s <| swap_mem ::= <[dst := v]> |>)) as (m & E & Hw & Hout & Hdom).
  { intros j Hj. replace (src + 8 + 8 * j) with (src + 8 * (j + 1)) by lia. apply Hs. lia. }
  { intros j Hj. simpl. rewrite lookup_insert_ne by lia. replace (dst + 8 + 8 * j) with (dst + 8 * (j + 1)) by lia. apply Hd. lia. }
  exists m. split; [|split; [|split]].
  - cbn [copy_out]. erewrite bind_Ret by (unfold zoom, load_word; erewrite load_eq by exact Hv; reflexivity).
    unfold swap_store. erewrite bind_Ret by (apply store_eq; exact Ho). refine (eq_trans E _). by destruct s.
  - intros j Hj. destruct (decide (j = 0)) as [->|Hj0].
    + rewrite Z.mul_0_r, !Z.add_0_r, Hout by lia. simpl. by rewrite lookup_insert_eq, Hv.
    + replace (dst + 8 * j) with (dst + 8 + 8 * (j - 1)) by lia. rewrite Hw by lia. simpl. f_equal. lia.
  - intros a Ha. rewrite Hout by lia. simpl. apply lookup_insert_ne. lia.
  - intros a. rewrite Hdom. simpl. apply insert_dom. by rewrite Ho.
Qed.

Lemma copy_in_eq n dst src s :
  (∀ j, 0 <= j < Z.of_nat n → is_Some (words (sg s) !! (dst + 8 * j))) → (∀ j, 0 <= j < Z.of_nat n → is_Some (swap_mem s !! (src + 8 * j))) →
  ∃ w, copy_in n dst src s = Ret () (s <| sg ::= λ g, g <| words := w |> |>) ∧
    (∀ j, 0 <= j < Z.of_nat n → w !! (dst + 8 * j) = swap_mem s !! (src + 8 * j)) ∧
    (∀ a, ¬ dst <= a < dst + 8 * Z.of_nat n → w !! a = words (sg s) !! a) ∧ (∀ a, is_Some (w !! a) ↔ is_Some (words (sg s) !! a)).
Proof.
  revert dst src s. induction n as [|n IH]; intros dst src s Hd Hs.
  { exists (words (sg s)). split; [by destruct s as [[] ? ? ?]|]. split; [lia|done]. }
  destruct (Hs 0) as [v Hv]; [lia|]. destruct (Hd 0) as [o Ho]; [lia|]. rewrite Z.mul_0_r, Z.add_0_r in Hv, Ho.
  destruct (IH (dst + 8) (src + 8) (s <| sg ::= λ g, g <| words ::= <[dst := v]> |> |>)) as (w & E & Hw & Hout & Hdom).
  { intros j Hj. simpl. rewrite lookup_insert_ne by lia. replace (dst + 8 + 8 * j) with (dst + 8 * (j + 1)) by lia. apply Hd. lia. }
  { intros j Hj. simpl. replace (src + 8 + 8 * j) with (src + 8 * (j + 1)) by lia. apply Hs. lia. }
  exists w. split; [|split; [|split]].
  - cbn [copy_in]. unfold swap_load. erewrite bind_Ret by (apply load_eq; exact Hv).
    erewrite bind_Ret by (unfold zoom, store_word; erewrite store_eq by exact Ho; reflexivity). refine (eq_trans E _). by destruct s as [[] ? ? ?].
  - intros j Hj. destruct (decide (j = 0)) as [->|Hj0].
    + rewrite Z.mul_0_r, !Z.add_0_r, Hout by lia. simpl. by rewrite lookup_insert_eq, Hv.
    + replace (dst + 8 * j) with (dst + 8 + 8 * (j - 1)) by lia. rewrite Hw by lia. simpl. f_equal. lia.
  - intros a Ha. rewrite Hout by lia. simpl. apply lookup_insert_ne. lia.
  - intros a. rewrite Hdom. simpl. apply insert_dom. by rewrite Ho.
Qed.

(** ** The device while its lock is held *)

Definition at_ (s : sst) (i : irq_st) (m : gmap Z Z) (H : gmap Z swap_header) : sst :=
  with_kirq i s <| swap_mem := m |> <| swap_hdrs := H |>.

Lemma at_lock s i : with_kirq i s = at_ s i (swap_mem s) (swap_hdrs s).
Proof. by destruct s. Qed.
Lemma at_unlock s i m H : with_kirq (kirq s) (at_ s i m H) = s <| swap_mem := m |> <| swap_hdrs := H |>.
Proof. apply with_kirq_back. Qed.

Lemma at_load s i m H a v : m !! a = Some v → swap_load a (at_ s i m H) = Ret v (at_ s i m H).
Proof. exact (load_eq swap_mem a (at_ s i m H) v). Qed.
Lemma at_store s i m H a v : is_Some (m !! a) → swap_store a v (at_ s i m H) = Ret () (at_ s i (<[a := v]> m) H).
Proof. intros [o Ho]. unfold swap_store. by rewrite (store_eq swap_mem _ a _ (at_ s i m H) o Ho). Qed.
Lemma at_hdr s i m H p h : H !! p = Some h → get_hdr p (at_ s i m H) = Ret h (at_ s i m H).
Proof. exact (load_eq swap_hdrs p (at_ s i m H) h). Qed.
Lemma at_set_hdr s i m H p h f : H !! p = Some h → set_hdr p f (at_ s i m H) = Ret () (at_ s i m (<[p := f h]> H)).
Proof. intros Hp. unfold set_hdr. by rewrite (store_eq swap_hdrs _ p f (at_ s i m H) h Hp). Qed.

(** ** The buffer

    [F] is the first free block, of [n] bytes; [B] are the blocks cut so far with the
    size of their data, whether reserved or freed since. *)
Definition extents (m : gmap Z Z) (lo : Z) (B : gmap Z Z) : Prop :=
  (∀ b d, B !! b = Some d → lo <= b ∧ 0 <= d ∧ m !! b = Some d ∧ ∀ j, 0 <= 8 * j < SIZEOF_SWAP_PAGE + d → is_Some (m !! (b + 8 * j))) ∧
  (∀ b c d e, b ≠ c → B !! b = Some d → B !! c = Some e →
     b + SIZEOF_SWAP_PAGE + d <= c ∨ c + SIZEOF_SWAP_PAGE + e <= b).

Record swap_inv (s : sst) (dev hdr F n : Z) (h : swap_header) (B : gmap Z Z) : Prop := {
  si_dev : dev ≠ 0;
  si_meta : metadata <$> swap_devs s !! dev = Some hdr;
  si_hdr : hdr ≠ 0 ∧ swap_hdrs s !! hdr = Some h ∧ sh_magic h = SWAP_HEADER_MAGIC;
  si_ready : ∃ v, sw_ready s hdr v;
  si_head : dl_head (freeList h) = F ∧ 0 < F ∧ swap_mem s !! F = Some n;
  si_size : SIZEOF_SWAP_PAGE <= n ∧ n mod 8 = 0 ∧ F + n < 2 ^ 64;
  si_words : ∀ j, 0 <= 8 * j < n → is_Some (swap_mem s !! (F + 8 * j));
  si_blocks : extents (swap_mem s) (F + n) B;
  si_pages : ∀ b, b ∈ sh_pages h → is_Some (B !! b);
  si_tail : dl_tail (freeList h) = F ∨ is_Some (B !! dl_tail (freeList h)) ∧ dl_tail (freeList h) ∉ sh_pages h
}.

Lemma device_header_eq s dev hdr F n h B : swap_inv s dev hdr F n h B → device_header dev s = Ret (Some hdr) s.
Proof.
  intros [_ Hm (Hn & Hh & Hg) _ _ _ _ _ _ _]. destruct (swap_devs s !! dev) as [d|] eqn:Ed; [|done]. injection Hm as Hm.
  unfold device_header. erewrite bind_Ret by (by apply load_eq). rewrite Hm. unfold truthy.
  rewrite (proj2 (Z.eqb_neq hdr 0) Hn). cbn [negb].
  erewrite bind_Ret by (by apply load_eq). by rewrite Hg.
Qed.

Lemma cut_extents m F n B k :
  extents m (F + n) B → 0 <= k → k mod 8 = 0 → k + SIZEOF_SWAP_PAGE + SIZEOF_SWAP_PAGE <= n → n mod 8 = 0 →
  (∀ j, 0 <= 8 * j < n → is_Some (m !! (F + 8 * j))) →
  let r := n - (k + SIZEOF_SWAP_PAGE) in
  extents (<[F + r := k]> (<[F := r]> m)) (F + r) (<[F + r := k]> B).
Proof.
  intros Hex Hk Hk8 Hn Hn8 Hw r. unfold extents, SIZEOF_SWAP_PAGE in *. destruct Hex as [He Hd]. assert (0 < r /\ r + k + 56 = n) as [Hr0 Hrn] by (unfold r; lia).
  assert (r mod 8 = 0) as Hr8.
  { unfold r. rewrite Zminus_mod, Zplus_mod, Hn8, Hk8. done. }
  split.
  - intros b d. destruct (decide (b = F + r)) as [->|Hne].
    + rewrite lookup_insert_eq. intros [= <-]. split_and!; [lia|lia|by rewrite lookup_insert_eq|]. intros j Hj.
      rewrite insert_dom; [|rewrite lookup_insert_ne by lia; pose proof (Z.div_mod r 8 ltac:(lia)) as Hdm; rewrite Hdm, Hr8, Z.add_0_r; apply Hw; lia].
      rewrite lookup_insert_ne by lia. pose proof (Z.div_mod r 8 ltac:(lia)).
      replace (F + r + 8 * j) with (F + 8 * (r / 8 + j)) by lia. apply Hw. lia.
    + rewrite lookup_insert_ne by done. intros Hb. destruct (He b d Hb) as (Hlo & Hd0 & Hm & Hj). split_and!; [lia|done| |].
      * rewrite !lookup_insert_ne by lia. done.
      * intros j Hjr. rewrite !lookup_insert_ne by lia. by apply Hj.
  - intros b c d e Hbc Hb Hc. destruct (decide (b = F + r)) as [->|Hb'], (decide (c = F + r)) as [->|Hc']; [done| | |].
    + rewrite lookup_insert_eq in Hb. rewrite lookup_insert_ne in Hc by done. injection Hb as <-. destruct (He _ _ Hc) as [? _]. lia.
    + rewrite lookup_insert_eq in Hc. rewrite lookup_insert_ne in Hb by done. injection Hc as <-. destruct (He _ _ Hb) as [? _]. lia.
    + rewrite lookup_insert_ne in Hb, Hc by done. by apply (Hd b c).
Qed.

Lemma swap_resv_run i s dev hdr F n h B k :
  swap_inv s dev hdr F n h B → 0 < k < 2 ^ 50 →
  let need := k * OBOS_PAGE_SIZE + SIZEOF_SWAP_PAGE in need <= nBytesFree h < 2 ^ 64 → need + SIZEOF_SWAP_PAGE <= n →
  let r := n - need in
  ∃ h' m', swap_resv dev (Some i) k s = Ret (OBOS_STATUS_SUCCESS, Some (F + r)) (s <| swap_mem := m' |> <| swap_hdrs ::= <[hdr := h']> |>) ∧
    swap_inv (s <| swap_mem := m' |> <| swap_hdrs ::= <[hdr := h']> |>) dev hdr F r h' (<[F + r := k * OBOS_PAGE_SIZE]> B) ∧
    sh_pages h' = {[F + r]} ∪ sh_pages h ∧ 0 <= nBytesFree h' < 2 ^ 64 ∧
    m' = <[F + r := k * OBOS_PAGE_SIZE]> (<[F := r]> (swap_mem s)).
Proof.
  intros Hi Hk need Hfree Hn r. pose proof Hi as [Hd Hm (Hh0 & Hh & Hg) [v Hr] (Hhd & HF & HFn) (Hs56 & Hs8 & Hs64) Hw Hb Hp Ht].
  unfold OBOS_PAGE_SIZE, SIZEOF_SWAP_PAGE in *.
  assert (wrap64 (k * 4096) = k * 4096) as Ea by (apply wrap_small; unfold in_u; lia).
  assert (wrap64 (k * 4096 + 56) = need) as En by (apply wrap_small; unfold in_u; lia).
  assert (need + r = n) as Hsum by (unfold r; lia).
  set (h1 := h <| nBytesFree ::= λ b, wrap64 (b - need) |>).
  exists (h1 <| sh_pages ::= λ t, {[F + r]} ∪ t |>), (<[F + r := k * 4096]> (<[F := r]> (swap_mem s))).
  assert (is_Some (swap_mem s !! (F + r))) as HFr.
  { pose proof (Z.div_mod r 8 ltac:(lia)) as Hdm. assert (r mod 8 = 0) as Hr8.
    { unfold r, need. rewrite Zminus_mod, Hs8, Zplus_mod, Zmult_mod. change (4096 mod 8) with 0. rewrite Z.mul_0_r. done. }
    rewrite Hdm, Hr8, Z.add_0_r. apply Hw. lia. }
  split.
  { unfold swap_resv. unfold truthy. rewrite (proj2 (Z.eqb_neq dev 0) Hd), (proj2 (Z.eqb_neq k 0)) by lia.
    rewrite (bool_decide_false (Some i = None)) by done. cbn [negb orb].
    erewrite bind_Ret by exact (device_header_eq _ _ _ _ _ _ _ Hi). unfold OBOS_PAGE_SIZE, SIZEOF_SWAP_PAGE. cbv iota.
    rewrite !Ea, !En.
    erewrite bind_Ret by (by apply load_eq). rewrite (proj2 (Z.ltb_ge (nBytesFree h) need)) by lia.
    erewrite bind_Ret by exact (swap_lock_eq _ _ _ Hr). rewrite at_lock. set (up := nthr_up (kirq s) (SwapLock hdr)).
    erewrite bind_Ret by (apply at_hdr; exact Hh). erewrite bind_Ret by apply gets_eq.
    erewrite bind_Ret.
    2:{ rewrite Hhd. replace (size _) with (size (swap_mem s)) by done. destruct (size (swap_mem s)); cbn [find_free];
        unfold truthy; rewrite (proj2 (Z.eqb_neq F 0)) by lia; cbn [negb];
        (erewrite bind_Ret by (apply at_load; exact HFn)); rewrite (proj2 (Z.ltb_ge n need)) by lia; cbn [negb]; reflexivity. }
    rewrite (proj2 (Z.eqb_neq F 0)) by lia. cbn [negb]. unfold at_size.
    erewrite bind_Ret by (apply at_load; exact HFn).
    erewrite bind_Ret by (apply at_store; by rewrite HFn). erewrite bind_Ret by (apply at_set_hdr; exact Hh).
    replace (wrap64 (n - need)) with r by (symmetry; apply wrap_small; unfold in_u; lia).
    erewrite bind_Ret by (apply at_load; apply lookup_insert_eq).
    replace (wrap64 (F + r)) with (F + r) by (symmetry; apply wrap_small; unfold in_u; lia).
    erewrite bind_Ret by (apply when_false; rewrite (proj2 (Z.eqb_neq r 0)) by lia; reflexivity).
    erewrite bind_Ret by (apply at_set_hdr; apply lookup_insert_eq).
    erewrite bind_Ret by (apply at_store; rewrite lookup_insert_ne by lia; exact HFr).
    erewrite bind_Ret by (eapply (swap_unlock_eq s hdr v); [exact Hr|reflexivity]).
    rewrite at_unlock, insert_insert_eq. by destruct s. }
  split; [|split; [done|split; [apply wrap_range; lia|done]]].
  pose proof (cut_extents _ F n B (k * 4096) Hb ltac:(lia)) as Hcut. unfold SIZEOF_SWAP_PAGE in Hcut.
  split; simpl; unfold SIZEOF_SWAP_PAGE.
  - done.
  - done.
  - split; [done|]. by rewrite lookup_insert_eq.
  - by exists v.
  - split; [done|]. split; [done|]. rewrite lookup_insert_ne by lia. apply lookup_insert_eq.
  - split; [lia|]. split; [|lia]. unfold r, need. rewrite Zminus_mod, Hs8, Zplus_mod, Zmult_mod. change (4096 mod 8) with 0. by rewrite Z.mul_0_r.
  - intros j Hj. rewrite insert_dom by (rewrite lookup_insert_ne by lia; exact HFr). rewrite insert_dom by (by rewrite HFn). apply Hw. lia.
  - apply Hcut; [|lia|done|done]. by rewrite Zmult_mod, Z.mul_0_r.
  - intros b Hbp. destruct (decide (b = F + r)) as [->|Hne]; [by rewrite lookup_insert_eq|]. rewrite lookup_insert_ne by done. apply Hp. set_solver.
  - destruct Ht as [Ht|[Ht1 Ht2]]; [by left|right]. destruct Ht1 as [e He]. destruct Hb as [Hb1 _]. destruct (Hb1 _ _ He) as [Hge _].
    split; [rewrite lookup_insert_ne by lia; by rewrite He|]. rewrite elem_of_union, elem_of_singleton. intros [Hx|Hx]; [lia|done].
Qed.

(** Links of the free list lie below the blocks or in the header of one. *)
Definition is_link (lo : Z) (B : gmap Z Z) (a : Z) : Prop := a < lo ∨ ∃ c d, B !! c = Some d ∧ c < a < c + SIZEOF_SWAP_PAGE.

Lemma link_not_start m lo B a b d : extents m lo B → is_link lo B a → B !! b = Some d → a ≠ b.
Proof.
  unfold SIZEOF_SWAP_PAGE. intros [He Hd] Ha Hb ->. destruct (He _ _ Hb) as (? & ? & _). destruct Ha as [|(c & e & Hc & Hr)]; [lia|].
  unfold SIZEOF_SWAP_PAGE in *. destruct (Hd b c d e) as [|]; [intros ->|done|done|..]; try lia. destruct (He _ _ Hc) as (? & ? & _). lia.
Qed.
Lemma link_not_data m lo B a b d x : extents m lo B → is_link lo B a → B !! b = Some d → 0 <= x < d → a ≠ b + SIZEOF_SWAP_PAGE + x.
Proof.
  intros [He Hd] Ha Hb Hx ->. destruct (He _ _ Hb) as (? & ? & _). unfold is_link, SIZEOF_SWAP_PAGE in *.
  destruct Ha as [|(c & e & Hc & Hr)]; [lia|]. destruct (He _ _ Hc) as (? & ? & _).
  destruct (decide (b = c)) as [->|Hne]; [lia|]. destruct (Hd b c d e Hne Hb Hc); lia.
Qed.
Lemma extents_link m lo B a v : extents m lo B → is_link lo B a → is_Some (m !! a) → extents (<[a := v]> m) lo B.
Proof.
  intros Hx Ha Hs. pose proof Hx as [He Hd]. split; [|exact Hd]. intros b d Hb. destruct (He _ _ Hb) as (? & ? & Hm & Hj).
  split_and!; [done|done| |].
  - rewrite lookup_insert_ne; [done|]. by eapply link_not_start.
  - intros j Hjr. rewrite insert_dom by done. by apply Hj.
Qed.

Lemma swap_free_run s dev hdr F n h B id k :
  swap_inv s dev hdr F n h B → k ≠ 0 → id ∈ sh_pages h →
  ∃ h' a, let m' := <[id + 16 := dl_tail (freeList h)]> (<[a := id]> (swap_mem s)) in
    swap_free dev id k s = Ret OBOS_STATUS_SUCCESS (s <| swap_mem := m' |> <| swap_hdrs ::= <[hdr := h']> |>) ∧
    swap_inv (s <| swap_mem := m' |> <| swap_hdrs ::= <[hdr := h']> |>) dev hdr F n h' B ∧
    sh_pages h' = sh_pages h ∖ {[id]} ∧ 0 <= nBytesFree h' < 2 ^ 64 ∧ is_link (F + n) B a ∧ is_link (F + n) B (id + 16).
Proof.
  intros Hi Hk Hid. pose proof Hi as [Hd Hm (Hh0 & Hh & Hg) [v Hr] (Hhd & HF & HFn) (Hs56 & Hs8 & Hs64) Hw Hb Hp Ht].
  destruct (Hp _ Hid) as [d Hbid]. pose proof Hb as [Hb1 Hb2]. destruct (Hb1 _ _ Hbid) as (Hge & Hd0 & Hmd & Hj).
  unfold SIZEOF_SWAP_PAGE in *. set (tl := dl_tail (freeList h)) in *. set (a := tl + 8).
  assert (0 < tl ∧ is_Some (swap_mem s !! a) ∧ is_link (F + n) B a) as (Htl0 & Hsa & Hla).
  { unfold a, is_link. destruct Ht as [->|[[e He] _]].
    - split_and!; [done| |left; lia]. apply (Hw 1). lia.
    - destruct (Hb1 _ _ He) as (? & ? & _ & Hje). split_and!; [lia|apply (Hje 1); lia|]. right. exists tl, e. split; [done|]. unfold SIZEOF_SWAP_PAGE. lia. }
  assert (is_link (F + n) B (id + 16)) as Hlid by (right; exists id, d; unfold SIZEOF_SWAP_PAGE; split; [done|lia]).
  assert (is_Some (swap_mem s !! (id + 16))) as Hsid by (apply (Hj 2); lia).
  set (h' := h <| sh_pages ::= λ t, t ∖ {[id]} |> <| freeList ::= λ l, l <| dl_tail := id |> |>
    <| freeList ::= λ l, l <| dl_nNodes ::= λ n, wrap64 (n - 1) |> |> <| nBytesFree ::= λ b, wrap64 (b + d) |>).
  exists h', a. cbv zeta. assert (extents (<[id + 16 := tl]> (<[a := id]> (swap_mem s))) (F + n) B) as Hb'.
  { apply extents_link; [by apply extents_link|done|]. by rewrite insert_dom. }
  split.
  { unfold swap_free, truthy. rewrite (proj2 (Z.eqb_neq dev 0) Hd), (proj2 (Z.eqb_neq k 0) Hk), (proj2 (Z.eqb_neq id 0)) by lia. cbn [negb orb].
    erewrite bind_Ret by exact (device_header_eq _ _ _ _ _ _ _ Hi). cbv iota.
    erewrite bind_Ret by exact (swap_lock_eq _ _ _ Hr). rewrite at_lock. set (up := nthr_up (kirq s) (SwapLock hdr)).
    erewrite bind_Ret by (apply at_hdr; exact Hh). rewrite bool_decide_true by done. cbn [negb].
    erewrite bind_Ret by (apply at_set_hdr; exact Hh).
    erewrite bind_Ret by (apply at_hdr; apply lookup_insert_eq).
    erewrite bind_Ret by (apply when_false; simpl; rewrite Hhd, (proj2 (Z.eqb_neq F 0)) by lia; reflexivity).
    erewrite bind_Ret by (apply at_hdr; apply lookup_insert_eq).
    erewrite bind_Ret.
    2:{ rewrite when_true by (simpl; fold tl; rewrite (proj2 (Z.eqb_neq tl 0)) by lia; reflexivity). apply at_store. exact Hsa. }
    erewrite bind_Ret by (apply at_store; change (at_next _) with a; unfold at_prev; rewrite insert_dom; done).
    erewrite bind_Ret by (apply at_set_hdr; apply lookup_insert_eq). rewrite insert_insert_eq.
    erewrite bind_Ret by (apply at_set_hdr; apply lookup_insert_eq). rewrite insert_insert_eq.
    erewrite bind_Ret.
    2:{ apply at_load. destruct Hb' as [Hb1' _]. destruct (Hb1' _ _ Hbid) as (_ & _ & Hmd' & _). exact Hmd'. }
    erewrite bind_Ret by (apply at_set_hdr; apply lookup_insert_eq). rewrite insert_insert_eq.
    erewrite bind_Ret by (eapply (swap_unlock_eq s hdr v); [exact Hr|reflexivity]).
    rewrite at_unlock. by destruct s. }
  split; [|split; [done|split; [apply wrap_range; lia|done]]].
  split; simpl; unfold SIZEOF_SWAP_PAGE.
  - done.
  - done.
  - split; [done|]. by rewrite lookup_insert_eq.
  - by exists v.
  - split; [done|]. split; [done|]. rewrite !lookup_insert_ne; [done| |lia]. unfold a. destruct Ht as [Ht|[[e He] _]]; [lia|].
    destruct (Hb1 _ _ He); lia.
  - done.
  - intros j Hjr. rewrite insert_dom by (by rewrite insert_dom). rewrite insert_dom by done. by apply Hw.
  - done.
  - intros b Hbp. apply Hp. set_solver.
  - right. split; [by rewrite Hbid|set_solver].
Qed.

Lemma swap_transfer_run s dev hdr F n h B id d k o copy :
  swap_inv s dev hdr F n h B → id ∈ sh_pages h → B !! id = Some d → 0 < k → 0 <= o → o + k * OBOS_PAGE_SIZE <= d < 2 ^ 64 →
  swap_transfer dev id k o copy s = (copy (swap_data id + o);; mret OBOS_STATUS_SUCCESS) s.
Proof.
  intros Hi Hid Hbid Hk Ho Hod. pose proof Hi as [Hd Hm (Hh0 & Hh & Hg) [v Hr] (Hhd & HF & HFn) (Hs56 & Hs8 & Hs64) Hw [Hb1 _] Hp Ht].
  unfold OBOS_PAGE_SIZE, SIZEOF_SWAP_PAGE in *. destruct (Hb1 _ _ Hbid) as (Hge & _ & Hmd & _).
  unfold swap_transfer, truthy. rewrite (proj2 (Z.eqb_neq dev 0) Hd), (proj2 (Z.eqb_neq id 0)) by lia. cbn [negb orb].
  erewrite bind_Ret by exact (device_header_eq _ _ _ _ _ _ _ Hi). cbv iota.
  erewrite bind_Ret by exact (swap_lock_eq _ _ _ Hr). rewrite at_lock. set (up := nthr_up (kirq s) (SwapLock hdr)).
  erewrite bind_Ret by (apply at_hdr; exact Hh). rewrite bool_decide_true by done. cbn [negb].
  erewrite bind_Ret by (eapply (swap_unlock_eq s hdr v); [exact Hr|reflexivity]). rewrite at_unlock.
  replace (s <| swap_mem := swap_mem s |> <| swap_hdrs := swap_hdrs s |>) with s by (by destruct s).
  rewrite (proj2 (Z.eqb_neq k 0)) by lia. cbn [negb].
  erewrite bind_Ret by (apply load_eq; exact Hmd). unfold OBOS_PAGE_SIZE.
  rewrite !(wrap_small 64 (k * 4096)) by (unfold in_u; lia). rewrite (wrap_small 64 (o + k * 4096)) by (unfold in_u; lia).
  rewrite (proj2 (Z.ltb_ge d (k * 4096))), (proj2 (Z.leb_gt d o)), (proj2 (Z.ltb_ge d (o + k * 4096))) by lia. done.
Qed.

(** Changing the data of a block keeps the rest. *)
Lemma swap_inv_data s dev hdr F n h B id d m :
  swap_inv s dev hdr F n h B → B !! id = Some d → (∀ a, ¬ id + 56 <= a < id + 56 + d → m !! a = swap_mem s !! a) →
  (∀ a, is_Some (m !! a) ↔ is_Some (swap_mem s !! a)) → swap_inv (s <| swap_mem := m |>) dev hdr F n h B.
Proof.
  intros [Hd Hm Hh Hr (Hhd & HF & HFn) Hs Hw [Hb1 Hb2] Hp Ht] Hbid Hout Hdom.
  unfold SIZEOF_SWAP_PAGE in *. destruct (Hb1 _ _ Hbid) as (Hge & Hd0 & _). split; try done.
  - split; [done|]. split; [done|]. simpl. rewrite Hout by lia. done.
  - intros j Hj. simpl. rewrite Hdom. by apply Hw.
  - split; [|exact Hb2]. intros b e Hbe. destruct (Hb1 _ _ Hbe) as (? & ? & ? & Hj). split_and!; [done|done| |].
    + simpl. rewrite Hout; [done|]. destruct (decide (id = b)) as [->|Hne]; [lia|]. destruct (Hb2 _ _ _ _ Hne Hbid Hbe); lia.
    + intros j Hjr. simpl. rewrite Hdom. by apply Hj.
Qed.

(** ** The laws *)

Definition isw_inv (s : sst) (dev : Z) : Prop := ∃ hdr F n h B, swap_inv s dev hdr F n h B ∧ 0 <= nBytesFree h < 2 ^ 64.
Definition dev_header (s : sst) (dev : Z) : option swap_header := d ← swap_devs s !! dev; swap_hdrs s !! metadata d.
(** Reserved blocks of one page. *)
Definition isw_block (s : sst) (dev id : Z) : Prop :=
  ∃ h, dev_header s dev = Some h ∧ id ∈ sh_pages h ∧ swap_mem s !! id = Some 4096.
Definition isw_data (s : sst) (dev id j : Z) : option Z := swap_mem s !! (id + SIZEOF_SWAP_PAGE + 8 * j).
(** The first free block holds a page, its header and one more header. *)
Definition isw_room (s : sst) (dev : Z) : Prop :=
  ∃ h n, dev_header s dev = Some h ∧ swap_mem s !! dl_head (freeList h) = Some n ∧ 4096 + 56 + 56 <= n ∧ 4096 + 56 <= nBytesFree h.

Lemma inv_header s dev hdr F n h B : swap_inv s dev hdr F n h B → dev_header s dev = Some h.
Proof.
  intros [_ Hm (_ & Hh & _) _ _ _ _ _ _ _]. unfold dev_header. destruct (swap_devs s !! dev) as [d|]; [|done]. injection Hm as <-. exact Hh.
Qed.

(** A block of the invariant: it is reserved, and its extent is that of one page. *)
Lemma block_extent s dev hdr F n h B id : swap_inv s dev hdr F n h B → isw_block s dev id → id ∈ sh_pages h ∧ B !! id = Some 4096.
Proof.
  intros Hi (h1 & Hh & Hid & Hm). rewrite (inv_header _ _ _ _ _ _ _ Hi) in Hh. injection Hh as <-. split; [done|].
  destruct (si_pages _ _ _ _ _ _ _ Hi _ Hid) as [d Hd]. destruct (proj1 (si_blocks _ _ _ _ _ _ _ Hi) _ _ Hd) as (_ & _ & Hm' & _). congruence.
Qed.
Lemma extent_block s dev hdr F n h B id : swap_inv s dev hdr F n h B → id ∈ sh_pages h → B !! id = Some 4096 → isw_block s dev id.
Proof.
  intros Hi Hid Hb. exists h. split; [by eapply inv_header|]. split; [done|]. by destruct (proj1 (si_blocks _ _ _ _ _ _ _ Hi) _ _ Hb) as (_ & _ & ? & _).
Qed.

Lemma isw_resv i s dev :
  isw_inv s dev → isw_room s dev → ∃ id s', swap_resv dev (Some i) 1 s = Ret (OBOS_STATUS_SUCCESS, Some id) s' ∧
    sg s' = sg s ∧ isw_inv s' dev ∧ isw_block s' dev id ∧ ¬ isw_block s dev id ∧
    ∀ b, isw_block s dev b → isw_block s' dev b ∧ ∀ j, 0 <= j < 512 → isw_data s' dev b j = isw_data s dev b j.
Proof.
  intros (hdr & F & n & h & B & Hi & Hf) (h1 & n1 & Hh1 & Hm1 & Hn1 & Hf1).
  rewrite (inv_header _ _ _ _ _ _ _ Hi) in Hh1. injection Hh1 as <-.
  pose proof (si_head _ _ _ _ _ _ _ Hi) as (Hhd & HF & HFn). rewrite Hhd, HFn in Hm1. injection Hm1 as <-.
  destruct (swap_resv_run i s dev hdr F n h B 1 Hi) as (h' & m' & E & Hi' & Hp' & Hf' & Em'); [lia|unfold OBOS_PAGE_SIZE, SIZEOF_SWAP_PAGE; lia..|].
  unfold OBOS_PAGE_SIZE, SIZEOF_SWAP_PAGE in *. change (1 * 4096) with 4096 in *. change (4096 + 56) with 4152 in *. set (id := F + (n - 4152)) in *.
  pose proof (si_blocks _ _ _ _ _ _ _ Hi) as [Hb1 Hb2].
  assert (∀ b d, B !! b = Some d → b ≠ id) as Hne by (intros b d Hb ->; destruct (Hb1 _ _ Hb) as [? _]; lia).
  eexists id, _. split; [exact E|]. split; [done|]. split; [by exists hdr, F, (n - 4152), h', (<[id := 4096]> B)|].
  split; [eapply extent_block; [exact Hi'|rewrite Hp'; set_solver|apply lookup_insert_eq]|].
  split; [intros Hbl; destruct (block_extent _ _ _ _ _ _ _ _ Hi Hbl) as [_ Hb]; by eapply Hne|].
  intros b Hbl. destruct (block_extent _ _ _ _ _ _ _ _ Hi Hbl) as [Hbp Hb]. pose proof (Hne _ _ Hb) as Hbid. split.
  - eapply extent_block; [exact Hi'|rewrite Hp'; set_solver|by rewrite lookup_insert_ne].
  - intros j Hj. unfold isw_data. simpl. rewrite Em'. destruct (Hb1 _ _ Hb) as [? _]. unfold SIZEOF_SWAP_PAGE.
    rewrite !lookup_insert_ne; [done| |]; lia.
Qed.

Lemma isw_write s dev id phys :
  isw_inv s dev → isw_block s dev id → (∀ j, 0 <= j < 512 → is_Some (words (sg s) !! (phys + 8 * j))) →
  ∃ s', swap_write dev id phys 1 0 s = Ret OBOS_STATUS_SUCCESS s' ∧ sg s' = sg s ∧ isw_inv s' dev ∧
    (∀ b, isw_block s' dev b ↔ isw_block s dev b) ∧ (∀ j, 0 <= j < 512 → isw_data s' dev id j = words (sg s) !! (phys + 8 * j)) ∧
    ∀ b j, isw_block s dev b → b ≠ id → 0 <= j < 512 → isw_data s' dev b j = isw_data s dev b j.
Proof.
  intros (hdr & F & n & h & B & Hi & Hf) Hbl Hphys. destruct (block_extent _ _ _ _ _ _ _ _ Hi Hbl) as [Hid Hb].
  pose proof (si_blocks _ _ _ _ _ _ _ Hi) as [Hb1 Hb2]. destruct (Hb1 _ _ Hb) as (Hge & _ & Hmd & Hj). unfold SIZEOF_SWAP_PAGE in *.
  destruct (copy_out_eq 512 (id + 56) phys s) as (m & E & Hin & Hout & Hdom).
  { intros j Hjr. apply Hphys. lia. }
  { intros j Hjr. replace (id + 56 + 8 * j) with (id + 8 * (7 + j)) by lia. apply Hj. lia. }
  assert (swap_inv (s <| swap_mem := m |>) dev hdr F n h B) as Hi' by (eapply swap_inv_data; [done|exact Hb| |done]; intros a Ha; apply Hout; lia).
  exists (s <| swap_mem := m |>). split; [|split; [done|split; [by exists hdr, F, n, h, B|]]].
  { unfold swap_write. erewrite swap_transfer_run by (try exact Hi; try exact Hid; try exact Hb; unfold OBOS_PAGE_SIZE; lia).
    change (page_words 1) with 512%nat. unfold swap_data, SIZEOF_SWAP_PAGE. rewrite Z.add_0_r. erewrite bind_Ret by exact E. reflexivity. }
  split; [|split].
  - intros b. split; intros Hx.
    + destruct (block_extent _ _ _ _ _ _ _ _ Hi' Hx) as [? ?]. by eapply extent_block.
    + destruct (block_extent _ _ _ _ _ _ _ _ Hi Hx) as [? ?]. by eapply extent_block.
  - intros j Hjr. unfold isw_data, SIZEOF_SWAP_PAGE. simpl. apply Hin. lia.
  - intros b j Hx Hne Hjr. destruct (block_extent _ _ _ _ _ _ _ _ Hi Hx) as [_ Hbb]. unfold isw_data, SIZEOF_SWAP_PAGE. simpl.
    apply Hout. destruct (Hb2 _ _ _ _ Hne Hbb Hb); lia.
Qed.

Lemma isw_read s dev id phys :
  isw_inv s dev → isw_block s dev id → (∀ j, 0 <= j < 512 → is_Some (words (sg s) !! (phys + 8 * j))) →
  ∃ w, swap_read dev id phys 1 0 s = Ret OBOS_STATUS_SUCCESS (s <| sg ::= λ g, g <| words := w |> |>) ∧
    (∀ j, 0 <= j < 512 → w !! (phys + 8 * j) = isw_data s dev id j) ∧
    (∀ a, ¬ phys <= a < phys + 4096 → w !! a = words (sg s) !! a) ∧ (∀ a, is_Some (w !! a) ↔ is_Some (words (sg s) !! a)).
Proof.
  intros (hdr & F & n & h & B & Hi & Hf) Hbl Hphys. destruct (block_extent _ _ _ _ _ _ _ _ Hi Hbl) as [Hid Hb].
  destruct (proj1 (si_blocks _ _ _ _ _ _ _ Hi) _ _ Hb) as (Hge & _ & Hmd & Hj). unfold SIZEOF_SWAP_PAGE in *.
  destruct (copy_in_eq 512 phys (id + 56) s) as (w & E & Hin & Hout & Hdom).
  { intros j Hjr. apply Hphys. lia. }
  { intros j Hjr. replace (id + 56 + 8 * j) with (id + 8 * (7 + j)) by lia. apply Hj. lia. }
  exists w. split; [|split_and!; [intros j Hjr; apply Hin; lia|intros a Ha; apply Hout; lia|done]].
  unfold swap_read. erewrite swap_transfer_run by (try exact Hi; try exact Hid; try exact Hb; unfold OBOS_PAGE_SIZE; lia).
  change (page_words 1) with 512%nat. unfold swap_data, SIZEOF_SWAP_PAGE. rewrite Z.add_0_r. erewrite bind_Ret by exact E. reflexivity.
Qed.

Lemma isw_free s dev id :
  isw_inv s dev → isw_block s dev id → ∃ s', swap_free dev id 1 s = Ret OBOS_STATUS_SUCCESS s' ∧ sg s' = sg s ∧
    isw_inv s' dev ∧ ∀ b, b ≠ id → isw_block s dev b → isw_block s' dev b ∧ ∀ j, 0 <= j < 512 → isw_data s' dev b j = isw_data s dev b j.
Proof.
  intros (hdr & F & n & h & B & Hi & Hf) Hbl. destruct (block_extent _ _ _ _ _ _ _ _ Hi Hbl) as [Hid Hb].
  destruct (swap_free_run s dev hdr F n h B id 1 Hi ltac:(done) Hid) as (h' & a & E & Hi' & Hp' & Hf' & Hl1 & Hl2).
  eexists. split; [exact E|]. split; [done|]. split; [by exists hdr, F, n, h', B|].
  intros b Hne Hx. destruct (block_extent _ _ _ _ _ _ _ _ Hi Hx) as [Hbp Hbb]. split.
  - eapply extent_block; [exact Hi'|rewrite Hp'; set_solver|done].
  - intros j Hj. unfold isw_data. simpl. pose proof (si_blocks _ _ _ _ _ _ _ Hi) as Hex.
    rewrite !lookup_insert_ne; [done| |]; (eapply link_not_data; [exact Hex|done|exact Hbb|lia]).
Qed.

Lemma isw_stable s g dev :
  isw_inv s dev → mk (pm g) = mk (pm (sg s)) → isw_inv (s <| sg := g |>) dev ∧
    (∀ b, isw_block (s <| sg := g |>) dev b ↔ isw_block s dev b) ∧ (∀ b j, isw_data (s <| sg := g |>) dev b j = isw_data s dev b j) ∧
    (isw_room s dev → isw_room (s <| sg := g |>) dev).
Proof.
  intros (hdr & F & n & h & B & Hi & Hf) Hg. split; [|done]. exists hdr, F, n, h, B. split; [|done].
  destruct Hi as [? ? ? [v Hr] ? ? ? ? ? ?]. split; try done. exists v. unfold sw_ready, kirq, girq in *. simpl. by rewrite Hg.
Qed.

Lemma isw_irq s i dev :
  isw_inv s dev → irq_like (kirq s) i → isw_inv (with_kirq i s) dev ∧
    (∀ b, isw_block (with_kirq i s) dev b ↔ isw_block s dev b) ∧ (∀ b j, isw_data (with_kirq i s) dev b j = isw_data s dev b j) ∧
    (isw_room s dev → isw_room (with_kirq i s) dev).
Proof.
  intros (hdr & F & n & h & B & Hi & Hf) [[v' Hq] Hl]. split; [|done]. exists hdr, F, n, h, B. split; [|done].
  destruct Hi as [? ? ? [v [_ Hr]] ? ? ? ? ? ?]. split; try done. exists v'. split; [done|]. unfold lock_free. simpl. by rewrite Hl.
Qed.

(** ** Setting up *)

Lemma zero_swap_eq n a s :
  (∀ j, 0 <= j < Z.of_nat n → is_Some (swap_mem s !! (a + 8 * j))) →
  ∃ m, zero_swap n a s = Ret () (s <| swap_mem := m |>) ∧ (∀ b, is_Some (m !! b) ↔ is_Some (swap_mem s !! b)).
Proof.
  revert a s. induction n as [|n IH]; intros a s Hd; [exists (swap_mem s); split; [by destruct s|done]|].
  destruct (Hd 0) as [o Ho]; [lia|]. rewrite Z.mul_0_r, Z.add_0_r in Ho.
  destruct (IH (a + 8) (s <| swap_mem ::= <[a := 0]> |>)) as (m & E & Hdom).
  { intros j Hj. simpl. rewrite insert_dom by (by rewrite Ho). replace (a + 8 + 8 * j) with (a + 8 * (j + 1)) by lia. apply Hd. lia. }
  exists m. split.
  - cbn [zero_swap]. unfold swap_store. erewrite bind_Ret by (apply store_eq; exact Ho). refine (eq_trans E _). by destruct s.
  - intros b. rewrite Hdom. simpl. apply insert_dom. by rewrite Ho.
Qed.

Lemma fresh_header s buf {A} (k : K sst A) :
  (modify (λ s, s <| swap_hdrs ::= <[buf := zero_header]> |>);;
   skern (modify (λ k, k <| irq ::= λ i, i <| locks ::= <[SwapLock buf := Core_SpinlockCreate]> |> |>));; k) s =
  k (at_ s ((kirq s) <| locks ::= <[SwapLock buf := Core_SpinlockCreate]> |>) (swap_mem s) (<[buf := zero_header]> (swap_hdrs s))).
Proof. by destruct s as [[[[] ? ? ? ? ? ? ?] ? ? ? ? ?] ? ? ?]. Qed.

Definition device_up (s : sst) (dev buf : Z) : sst := s <| swap_devs ::= <[dev := mkSwapDev true buf]> |>.
Definition lock_up (s : sst) (buf : Z) : irq_st := (kirq s) <| locks ::= <[SwapLock buf := Core_SpinlockCreate]> |>.

Lemma swap_init_run s dev buf n :
  is_Some (swap_devs s !! dev) → 0 < buf → 72 + 2097152 <= n → buf + n < 2 ^ 64 →
  (∀ j, 72 <= 8 * j < n → is_Some (swap_mem s !! (buf + 8 * j))) →
  ∃ m h, Arch_InitializeInitialSwapDevice dev buf n s =
      Ret OBOS_STATUS_SUCCESS (at_ (device_up s dev buf) (lock_up s buf) (<[buf + 72 := n - 128]> m) (<[buf := h]> (swap_hdrs s))) ∧
    (∀ b, is_Some (m !! b) ↔ is_Some (swap_mem s !! b)) ∧ nBytesFree h = n - 128 ∧ freeList h = mkList (buf + 72) (buf + 72) 1 ∧
    sh_magic h = SWAP_HEADER_MAGIC ∧ sh_pages h = ∅.
Proof.
  intros [d Hd] Hbuf Hn Hn64 Hw.
  unfold Arch_InitializeInitialSwapDevice, truthy, SIZEOF_SWAP_HEADER, OBOS_HUGE_PAGE_SIZE.
  rewrite (proj2 (Z.eqb_neq buf 0)), (proj2 (Z.ltb_ge n (72 + 2097152))) by lia. cbn [negb orb].
  erewrite bind_Ret by (apply store_eq; exact Hd). change (s <| swap_devs := _ |>) with (device_up s dev buf). set (s0 := device_up s dev buf).
  rewrite fresh_header. change ((kirq s0) <| locks ::= _ |>) with (lock_up s buf). set (i := lock_up s buf).
  change (swap_mem s0) with (swap_mem s). change (swap_hdrs s0) with (swap_hdrs s).
  do 2 (erewrite bind_Ret by (apply at_set_hdr; apply lookup_insert_eq); rewrite insert_insert_eq).
  replace (wrap64 (buf + 72)) with (buf + 72) by (symmetry; apply wrap_small; unfold in_u; lia).
  match goal with |- context [at_ s0 i (swap_mem s) ?H] => set (H0 := H) end.
  destruct (zero_swap_eq 7 (buf + 72) (at_ s0 i (swap_mem s) H0)) as (m & E & Hdom).
  { intros j Hj. replace (buf + 72 + 8 * j) with (buf + 8 * (9 + j)) by lia. apply Hw. lia. }
  erewrite bind_Ret by exact E. change ((at_ s0 i (swap_mem s) H0) <| swap_mem := m |>) with (at_ s0 i m H0).
  erewrite bind_Ret by (apply at_set_hdr; apply lookup_insert_eq). unfold H0. rewrite insert_insert_eq.
  erewrite bind_Ret by (apply at_hdr; apply lookup_insert_eq). simpl nBytesFree.
  assert (wrap64 (wrap64 (n - 72) - SIZEOF_SWAP_PAGE) = n - 128) as Ew.
  { unfold SIZEOF_SWAP_PAGE. rewrite (wrap_small 64 (n - 72)) by (unfold in_u; lia). rewrite wrap_small by (unfold in_u; lia). lia. }
  rewrite Ew. erewrite bind_Ret by (apply at_store; rewrite Hdom; apply (Hw 9); lia).
  do 2 (erewrite bind_Ret by (apply at_set_hdr; apply lookup_insert_eq); rewrite insert_insert_eq).
  eexists m, _. split; [reflexivity|]. split_and!; [exact Hdom|exact Ew|done..].
Qed.

(** The use of a device: reserving a page where there is room, writing or reading a
    reserved block from or to memory that is there, and freeing one. *)
Inductive swap_step (dev : Z) (s : sst) : sst → Prop :=
| step_resv i id s' : isw_room s dev → swap_resv dev (Some i) 1 s = Ret (OBOS_STATUS_SUCCESS, Some id) s' → swap_step dev s s'
| step_write id phys s' : isw_block s dev id → (∀ j, 0 <= j < 512 → is_Some (words (sg s) !! (phys + 8 * j))) →
    swap_write dev id phys 1 0 s = Ret OBOS_STATUS_SUCCESS s' → swap_step dev s s'
| step_read id phys s' : isw_block s dev id → (∀ j, 0 <= j < 512 → is_Some (words (sg s) !! (phys + 8 * j))) →
    swap_read dev id phys 1 0 s = Ret OBOS_STATUS_SUCCESS s' → swap_step dev s s'
| step_free id s' : isw_block s dev id → swap_free dev id 1 s = Ret OBOS_STATUS_SUCCESS s' → swap_step dev s s'.

Lemma swap_step_inv dev s s' : isw_inv s dev → swap_step dev s s' → isw_inv s' dev.
Proof.
  intros Hi [i id s2 Hr E|id phys s2 Hb Hp E|id phys s2 Hb Hp E|id s2 Hb E].
  - destruct (isw_resv i s dev Hi Hr) as (id' & s3 & E' & _ & ? & _). congruence.
  - destruct (isw_write s dev id phys Hi Hb Hp) as (s3 & E' & _ & ? & _). congruence.
  - destruct (isw_read s dev id phys Hi Hb Hp) as (w & E' & _). rewrite E' in E. injection E as <-.
    by destruct (isw_stable s ((sg s) <| words := w |>) dev Hi) as [? _].
  - destruct (isw_free s dev id Hi Hb) as (s3 & E' & _ & ? & _). congruence.
Qed.

(** [C36] A mapped buffer of a size that is a multiple of 8 and at least two MiB and the
    72 bytes of the header becomes a swap device: the initialisation succeeds on it, no
    block is reserved, there is room for a page, and the invariant of the device holds;
    and it holds after every sequence of operations that succeed: reserving a page where
    there is room, writing and reading reserved blocks, and freeing them. *)
Theorem initial_swap_established s dev buf n v :
  is_Some (swap_devs s !! dev) → dev ≠ 0 → 0 < buf → n mod 8 = 0 → SIZEOF_SWAP_HEADER + OBOS_HUGE_PAGE_SIZE <= n → buf + n < 2 ^ 64 →
  (∀ j, SIZEOF_SWAP_HEADER <= 8 * j < n → is_Some (swap_mem s !! (buf + 8 * j))) → quiet (kirq s) v →
  ∃ s', Arch_InitializeInitialSwapDevice dev buf n s = Ret OBOS_STATUS_SUCCESS s' ∧
    isw_inv s' dev ∧ isw_room s' dev ∧ (∀ b, ¬ isw_block s' dev b) ∧
    ∀ s2, rtc (swap_step dev) s' s2 → isw_inv s2 dev.
Proof.
  intros Hd Hdev Hbuf Hn8 Hn Hn64 Hw Hq. unfold SIZEOF_SWAP_HEADER, OBOS_HUGE_PAGE_SIZE in *.
  destruct (swap_init_run s dev buf n Hd Hbuf Hn Hn64 Hw) as (m & h & E & Hdom & Hf & Hl & Hg & Hp). eexists. split; [exact E|].
  assert (∀ b, is_Some (<[buf + 72 := n - 128]> m !! b) ↔ is_Some (swap_mem s !! b)) as Hdm.
  { intros b. rewrite insert_dom; [apply Hdom|]. apply Hdom. apply (Hw 9). lia. }
  assert (swap_inv (at_ (device_up s dev buf) (lock_up s buf) (<[buf + 72 := n - 128]> m) (<[buf := h]> (swap_hdrs s))) dev buf (buf + 72) (n - 128) h ∅) as Hi.
  { split; simpl; try done; try lia; unfold SIZEOF_SWAP_PAGE.
    - by rewrite lookup_insert_eq.
    - split; [lia|]. by rewrite lookup_insert_eq.
    - exists v. split; [|apply lookup_insert_eq]. by apply quiet_locks.
    - rewrite Hl. split; [done|]. split; [lia|]. apply lookup_insert_eq.
    - split; [lia|]. split; [|lia]. rewrite Zminus_mod, Hn8. done.
    - intros j Hj. rewrite Hdm. replace (buf + 72 + 8 * j) with (buf + 8 * (9 + j)) by lia. apply Hw. lia.
    - rewrite Hp. set_solver.
    - rewrite Hl. by left. }
  match goal with |- isw_inv ?x _ ∧ _ => assert (isw_inv x dev) as Hinv by (exists buf, (buf + 72), (n - 128), h, ∅; split; [done|lia]) end.
  split; [done|]. split; [|split].
  - exists h, (n - 128). split; [by eapply inv_header|]. rewrite Hl. split; [apply lookup_insert_eq|lia].
  - intros b Hb. destruct (block_extent _ _ _ _ _ _ _ _ Hi Hb) as [_ Hx]. done.
  - intros s2 Hs. revert Hinv. clear -Hs. induction Hs; eauto using swap_step_inv.
Qed.

#[export] Instance initial_swap_laws : SwapLaws := {|
  sl_inv := isw_inv; sl_room := isw_room; sl_block := isw_block; sl_data := isw_data;
  sl_resv := isw_resv; sl_write := isw_write; sl_read := isw_read; sl_free := isw_free; sl_stable := isw_stable; sl_irq := isw_irq
|}.

End proofs.
