(* ===== verification/UtilWitness.v ===== *)
(** * The utilities at concrete inputs

    A small memory with string objects, C strings and a command line, the bump
    allocator of [Alloc] and the reference routines of [Libc]: the theorems on
    strings, UUIDs, the command line and checksums applied to it. *)

From S2P Require Import Prelude Bytes Alloc KString Hex Uuid Libc Cmdline Crc.
Import Bump Ref.

(** ** Memory by evaluation *)

Fixpoint bytes_atb (m : bmem) (p : Z) (l : list Z) : bool :=
  match l with
  | [] => true
  | b :: l => match m !! p with Some b' => (b =? b') && bytes_atb m (p + 1) l | None => false end
  end.

Lemma bytes_atb_ok m p l : bytes_atb m p l = true → bytes_at m p l.
Proof.
  revert p. induction l as [|b l IH]; simpl; intros p H; [apply bytes_at_nil|].
  destruct (m !! p) as [b'|] eqn:E; [|done]. apply andb_prop in H as [->%Z.eqb_eq H].
  apply bytes_at_cons. auto.
Qed.

Lemma cstr_at_eval m p l : bytes_atb m p (l ++ [0]) = true → forallb (λ b, negb (b =? 0)) l = true → cstr_at m p l.
Proof.
  intros H1 H2. split; [by apply bytes_atb_ok|]. intros H%list_elem_of_In.
  rewrite forallb_forall in H2. by apply H2 in H.
Qed.

Lemma mapped_eval m p n : bytes_atb m p ((λ i, default (-1) (m !! (p + Z.of_nat i))) <$> seq 0 n) = true → mapped m p n.
Proof. intros H%bytes_atb_ok%bytes_at_mapped. by rewrite length_fmap, length_seq in H. Qed.

Ltac by_eval := vm_compute; reflexivity.
Ltac cstr_eval := apply cstr_at_eval; by_eval.
Ltac mapped_by_eval := apply mapped_eval; by_eval.

(** ** Strings *)

Definition ab : list Z := [97; 98].
Definition cs : list Z := replicate 33 99.
Definition str_o : kstring := mkString nullptr 2 32 1.
Definition str_mem : bmem :=
  write_bytes (write_bytes ∅ 0x100 (resize 33 0 ab)) 0x200 (cs ++ [0]).
Definition str_demo : ust := mkUst str_mem {[ 0x100 := str_o ]} 1 0 [] ∅.

Lemma str_demo_rep : str_rep str_demo 0x100 str_o ab.
Proof.
  split; [split|reflexivity|apply bytes_atb_ok; by_eval]; try done; try (by_eval).
  - mapped_by_eval.
  - simpl. lia.
Qed.

Lemma append_string_witness :
  ∃ o' s', OBOS_AppendStringC 0x100 0x200 str_demo = Ret () s' ∧ str_rep s' 0x100 o' (ab ++ cs) ∧
    bytes_at (umem s') (str_ptr 0x100 o') ((ab ++ cs) ++ [0]) ∧
    (∀ a b, umem str_demo !! a = Some b → ¬ footprint 0x100 str_o a → umem s' !! a = Some b) ∧
    strings s' = <[0x100 := o']> (strings str_demo).
Proof.
  apply (append_string_correct str_demo 0x100 str_o ab cs 0x200);
    [exact str_demo_rep|cstr_eval| |vm_compute; reflexivity|right; vm_compute; lia|exact I].
  intros a Ha. change (length cs) with 33%nat in Ha. unfold footprint, sso, str_o; simpl. lia.
Defined.

(** ** UUIDs *)

Definition uuid_mem : bmem :=
  write_bytes (write_bytes (write_bytes ∅ 0x100 (replicate 33 0)) 0x200 (replicate 33 0)) 0x300 [0].
Definition uuid_demo : ust :=
  mkUst uuid_mem {[ 0x100 := mkString 0 0 0 0; 0x200 := mkString 0 0 0 0 ]} 1 0 [] ∅.
Definition uuid_u : uuid := mkUuid 0x12345678 0x9abcdef0 0x0fedcba9 0x87654321.

Lemma uuid_print_parse_witness :
  ∃ s' o, OBOS_UUIDToString false 0x100 0x300 uuid_u 0x200 uuid_demo = Ret () s' ∧
    str_rep s' 0x200 o (uuid_text false uuid_u) ∧ length (uuid_text false uuid_u) = 36%nat ∧
    OBOS_StringToUUID false 0x200 (mkUuid 0 0 0 0) s' = Ret (shuffle uuid_u) s' ∧
    shuffle (shuffle uuid_u) = uuid_u.
Proof.
  apply (uuid_print_parse uuid_demo 0x100 0x300 0x200 uuid_u).
  - split; [split; [eexists; by_eval|split; [done|mapped_by_eval]] ..| | |done].
    + unfold disjoint_blocks, sso. lia.
    + split; [by_eval|unfold sso; lia].
  - repeat split; vm_compute; congruence.
Defined.

(** ** The command line *)

(** [--root=hd0], with the option name ["root"] and the flag ["help"]. *)
Definition arg1 : list Z := [45; 45; 114; 111; 111; 116; 61; 104; 100; 48].
Definition arg2 : list Z := [45; 45; 118].
Definition s_root : list Z := [114; 111; 111; 116].
Definition s_help : list Z := [104; 101; 108; 112].
Definition cmd_mem : bmem :=
  write_bytes (write_bytes (write_bytes (write_bytes (write_bytes ∅ 0x100 (arg1 ++ [0])) 0x200 (arg2 ++ [0]))
    0x300 (s_root ++ [0])) 0x400 (s_help ++ [0])) 0x500 (join [arg1; arg2] ++ [0]).
Definition cmd_demo (argv : list Z) : ust := mkUst cmd_mem ∅ 1 0x500 argv ∅.

Lemma getopts_witness :
  opt_value [arg2; arg1] s_root = Some [104; 100; 48] ∧
  ∃ p s', OBOS_GetOPTS 0x300 (cmd_demo [0x200; 0x100]) = Ret p s' ∧
    match opt_value [arg2; arg1] s_root with
    | None => p = nullptr ∧ s' = cmd_demo [0x200; 0x100]
    | Some v => p ≠ 0 ∧ cstr_at (umem s') p v ∧ (∀ a, p <= a <= p + Z.of_nat (length v) → cmd_mem !! a = None) ∧ kept cmd_mem (umem s')
    end.
Proof.
  split; [by_eval|].
  apply (getopts_correct 0x300 s_root [arg2; arg1] (cmd_demo [0x200; 0x100])); [cstr_eval| |done].
  do 2 (apply Forall2_cons_2; [cstr_eval|]). apply Forall2_nil_2.
Defined.

Lemma parse_cmdline_witness :
  ∃ s', OBOS_ParseCMDLine 0x400 (cmd_demo []) = Ret () s' ∧ args_at (umem s') (OBOS_argv s') [arg1; arg2] ∧
    kept cmd_mem (umem s').
Proof.
  apply (parse_cmdline_words 0x400 s_help [arg1; arg2] (cmd_demo [])); try done; try cstr_eval.
  repeat constructor; try done; intros H; by apply list_elem_of_In in H; vm_compute in H; intuition.
Defined.

(** ** Checksums *)

Lemma crc32_witness :
  crc32_bytes [49; 50; 51] = crc32_ref [49; 50; 51] ∧
  crc32_bytes_from_previous [52; 255] (crc32_bytes [49; 50; 51]) = crc32_ref ([49; 50; 51] ++ [52; 255]).
Proof. apply (crc32_correct [49; 50; 51] [52; 255]). repeat constructor; lia. Defined.
