(* ===== verification/CoreWitness.v ===== *)
(** * Memory, timers and the debugger connection at concrete inputs

    The machine of [Witness] with physical memory of two free regions, a list
    of timers, and a pipe to a debugger. *)

From S2P Require Import Prelude DList KState Irql ThreadList Thread Witness.
From S2P Require Import Bytes Hex Pmm PmmProofs Gdb Timer TimerProofs.

#[local] Instance idle_handlers : DpcHandlers := λ _ _ _, mret ().

(** The machine, with the locks and the list these components use. *)
Definition demo_io : kst :=
  demo <| irq ::= λ i, i <| locks ::= λ l, <[PmmLock := Core_SpinlockCreate]> (<[TimerListLock := Core_SpinlockCreate]> (<[SwapLock 0x20000 := Core_SpinlockCreate]>
         (<[ContextLock 0x70 := Core_SpinlockCreate]> l))) |> |>
       <| sch ::= λ c, c <| lists ::= <[Mm_ThreadsAwaitingPhysicalMemory := empty_list]> |> <| procs := {[ 0x90 := mkProc 5 0x70 ]} |> |>.

Lemma demo_io_quiet : quiet (irq demo_io) IRQL_PASSIVE.
Proof. pose proof demo_quiet as [[] ? ? ?]. split; [split|..]; done. Qed.

(** A list of two nodes. *)
Lemma pair_rep h x y : x ≠ 0 → y ≠ 0 → x ≠ y → h !! x = Some (mkLink y 0) → h !! y = Some (mkLink 0 x) →
  dl_rep h (mkList x y 2) [x; y].
Proof.
  intros Hx Hy Hxy Ex Ey. split; simpl; try done.
  - apply NoDup_cons. split; [set_solver|apply NoDup_singleton].
  - set_solver.
Qed.

(** ** Physical memory *)

(** Four free pages at [0x10000] and eight at [0x40000]; the page at [0x80000]
    is in use. *)
Definition pmm_demo : mst :=
  mkMst demo_io (mkFlist 0x10000 0x40000) (mkFlist 0 0) 2
    (list_to_map [(0x10000, mkLink 0x40000 0); (0x40000, mkLink 0 0x10000); (0x80000, unlinked)])
    (list_to_map [(0x10000, 4); (0x40000, 8); (0x80000, 7)]) 256 100 200 0x100000000.

Lemma pmm_demo_ready : pmm_ready pmm_demo IRQL_PASSIVE.
Proof. split; [exact demo_io_quiet|vm_compute; reflexivity]. Qed.

Lemma pmm_demo_node x : x ∈ [0x10000; 0x40000] →
  x = 0x10000 ∧ pg_nPages pmm_demo !! x = Some 4 ∨ x = 0x40000 ∧ pg_nPages pmm_demo !! x = Some 8.
Proof. intros [->| ->%list_elem_of_singleton]%elem_of_cons; [left|right]; (split; [done|vm_compute; reflexivity]). Qed.

Lemma pmm_demo_inv : fl_inv pmm_demo Low32 [0x10000; 0x40000].
Proof.
  split.
  - apply pair_rep; try done; vm_compute; reflexivity.
  - intros x [[-> H]|[-> H]]%pmm_demo_node; eexists; (split; [exact H|]); unfold OBOS_PAGE_SIZE; simpl; repeat split; lia.
  - unfold OBOS_PAGE_SIZE.
    intros x y n m [[-> H]|[-> H]]%pmm_demo_node [[-> H']|[-> H']]%pmm_demo_node Hne Hn Hm; simplify_eq; lia.
  - simpl. lia.
Qed.

Lemma pmm_allocate_witness :
  let n' := round_pages 3 4 in
  (∃ phys s' xs', allocate 3 4 (Some OBOS_STATUS_SUCCESS) Low32 pmm_demo = Ret (phys, Some OBOS_STATUS_SUCCESS) s' ∧
     mk s' = mk pmm_demo ∧ fl_inv s' Low32 xs' ∧ 0 < phys ∧ phys mod (4 * PG) = 0 ∧ 3 <= n' ∧
     (∀ a, phys <= a < phys + n' * PG → free_in pmm_demo [0x10000; 0x40000] a ∧ ¬ free_in s' xs' a) ∧
     (∀ a, free_in s' xs' a → free_in pmm_demo [0x10000; 0x40000] a)) ∨
  (allocate 3 4 (Some OBOS_STATUS_SUCCESS) Low32 pmm_demo = Ret (0, Some OBOS_STATUS_NOT_ENOUGH_MEMORY) pmm_demo ∧
     ∀ x n, x ∈ [0x10000; 0x40000] → pg_nPages pmm_demo !! x = Some n → n < required n' 4 x n).
Proof.
  apply (pmm_allocate_correct pmm_demo IRQL_PASSIVE Low32 [0x10000; 0x40000] 3 4 2 OBOS_STATUS_SUCCESS);
    [exact pmm_demo_ready|exact pmm_demo_inv|reflexivity|lia|lia].
Defined.

Lemma pmm_demo_freeable : freeable pmm_demo [0x10000; 0x40000] 0x80000 2.
Proof.
  split; unfold OBOS_PAGE_SIZE; [lia|lia|reflexivity|simpl; lia| |eexists; vm_compute; reflexivity].
  intros a Ha (x & n & [[-> H]|[-> H]]%pmm_demo_node & Hn & Hr); unfold OBOS_PAGE_SIZE in Hr; simplify_eq; lia.
Qed.

Lemma pmm_free_witness :
  ∃ s', Mm_FreePhysicalPages 0x80000 2 pmm_demo = Ret OBOS_STATUS_SUCCESS s' ∧ mk s' = mk pmm_demo ∧
    fl_inv s' Low32 [0x10000; 0x40000; 0x80000] ∧
    (∀ a, free_in s' [0x10000; 0x40000; 0x80000] a ↔
       free_in pmm_demo [0x10000; 0x40000] a ∨ 0x80000 <= a < 0x80000 + 2 * PG).
Proof.
  apply (pmm_free_correct pmm_demo IRQL_PASSIVE [0x10000; 0x40000] 0x80000 2 unlinked);
    [exact pmm_demo_ready|exact pmm_demo_inv|exact pmm_demo_freeable|unfold OBOS_PAGE_SIZE; lia|
     vm_compute; reflexivity|reflexivity|exists empty_list; split; [vm_compute; reflexivity|done]].
Defined.

(** The last page below the boundary. *)
Lemma pmm_free_4g_witness : Mm_FreePhysicalPages 0xfffff000 1 pmm_demo = Stop Panic.
Proof. apply (pmm_free_across_4g pmm_demo 0xfffff000 1); [lia|reflexivity|reflexivity|lia|unfold OBOS_PAGE_SIZE; lia]. Defined.

(** ** Timers *)

(** A clock that stands still at tick 5000. *)
#[local] Instance demo_clock : TimerHw := {|
  CoreS_GetTimerTick := mret 5000;
  CoreS_InitializeTimer := mret OBOS_STATUS_SUCCESS;
  Core_IrqObjectAllocate := mret (1, OBOS_STATUS_SUCCESS);
  Core_IrqObjectFree _ := mret ();
  timer_zalloc := mret 0x7000;
  timer_free _ := mret OBOS_STATUS_SUCCESS;
  timer_handler_call _ _ := mret ();
  timer_dispatcher_addr := 1;
  notify_timer_dpc_addr := 2
|}.

Definition idle_timer : timer := mkTimer 0 0 TIMER_UNINITIALIZED 0 0 0 0.
Definition timer_demo : tst :=
  mkTst demo_io {[ 0x6000 := idle_timer; 0x6100 := idle_timer <| mode := TIMER_MODE_INTERVAL |> ]}
    {[ 0x6000 := unlinked; 0x6100 := unlinked ]} (mkList 0x6100 0x6100 1) 0 0 true.

Lemma timer_demo_at : timers_at timer_demo IRQL_PASSIVE [0x6100].
Proof.
  split; [exact demo_io_quiet|vm_compute; reflexivity| |simpl; lia].
  apply single_rep; [done|vm_compute; reflexivity].
Qed.

Lemma timer_start_cancel_witness :
  ∃ s1 s2, Core_TimerObjectInitialize 0x6000 TIMER_MODE_INTERVAL 2000 timer_demo = Ret OBOS_STATUS_SUCCESS s1 ∧
    dl_rep (timer_links s1) (timer_list s1) [0x6100; 0x6000] ∧ mode <$> timers s1 !! 0x6000 = Some TIMER_MODE_INTERVAL ∧
    Core_CancelTimer 0x6000 s1 = Ret OBOS_STATUS_SUCCESS s2 ∧
    timers_at s2 IRQL_PASSIVE [0x6100] ∧ tk s2 = tk timer_demo ∧ mode <$> timers s2 !! 0x6000 = Some TIMER_EXPIRED.
Proof.
  apply (timer_start_cancel timer_demo IRQL_PASSIVE [0x6100] 0x6000 idle_timer unlinked TIMER_MODE_INTERVAL 2000 5000);
    [exact timer_demo_at|done|set_solver|vm_compute; reflexivity|vm_compute; reflexivity|done|by right|lia|simpl; lia|done].
Defined.

Lemma time_frame_to_tick_witness :
  CoreH_TimeFrameToTick 2500 timer_demo = Ret 3 timer_demo ∧
  CoreH_TimeFrameToTick 8388608000 timer_demo = Ret (2 ^ 64 - 8388607) timer_demo.
Proof.
  pose proof (time_frame_to_tick_bounds timer_demo) as [H1 H2]. split; [apply (H1 2500); lia|exact H2].
Defined.

(** ** The debugger connection *)

#[local] Instance demo_pipe : Pipe := {|
  pipe_write l := modify (λ s : gst, s <| tx ::= λ t, t ++ l |>);; mret OBOS_STATUS_SUCCESS;
  pipe_read ch n s := match rx s with
                      | [] => Ret (OBOS_STATUS_SUCCESS, ch, 0) s
                      | b :: r => Ret (OBOS_STATUS_SUCCESS, b, 1) (s <| rx := r |>)
                      end;
  call_handler _ _ _ _ := mret OBOS_STATUS_SUCCESS
|}.

Lemma demo_pipe_ok : pipe_ok.
Proof. split; [|done]. intros ch n s b r H. simpl. by rewrite H. Qed.

(** The packet ["OK"], and its frame ["$OK#9a"] behind a stray ['+']. *)
Definition gdb_demo (input : list Z) : gst := mkGst input [] 1 2 0 None.

Lemma gdb_roundtrip_witness :
  ∃ frame, Kdbg_ConnectionSendPacket 1 [79; 75] (gdb_demo []) =
      Ret OBOS_STATUS_SUCCESS ((gdb_demo []) <| tx ::= λ o, o ++ frame |>) ∧
    (rx (gdb_demo [43; 36; 79; 75; 35; 57; 97]) = [43] ++ frame ++ [] →
     Kdbg_ConnectionRecvPacket 0 10 1 (gdb_demo [43; 36; 79; 75; 35; 57; 97]) =
       Ret (OBOS_STATUS_SUCCESS, [79; 75]) ((gdb_demo [43; 36; 79; 75; 35; 57; 97]) <| rx := [] |> <| tx ::= λ o, o ++ [43] |>)).
Proof.
  apply (gdb_packet_roundtrip demo_pipe_ok 1 [79; 75] (gdb_demo []) (gdb_demo [43; 36; 79; 75; 35; 57; 97]) [43] [] 0 10);
    try done; try set_solver; simpl; lia.
Defined.

(** ["$OK#00"] is refused, ["$}]#da"] is the packet ["}"]. *)
Lemma gdb_bad_checksum_witness :
  Kdbg_ConnectionRecvPacket 1 10 1 (gdb_demo ([36; 79; 75; 35; 48; 48] ++ [36; 125; 93; 35; 100; 97])) =
    Ret (OBOS_STATUS_SUCCESS, [125])
      ((gdb_demo ([36; 79; 75; 35; 48; 48] ++ [36; 125; 93; 35; 100; 97])) <| rx := [] |> <| tx ::= λ o, o ++ [45; 43] |>).
Proof.
  apply (gdb_bad_checksum_retried demo_pipe_ok 1 _ [79; 75] 48 48 [125; 93] 100 97 [] 0 10);
    try done; try set_solver; simpl; lia.
Defined.
