(* ===== verification/IoWitness.v ===== *)
(** * Files, partitions and the initial ramdisk at concrete inputs

    A driver that serves the bytes of a list, a descriptor open on it, a boot
    record with one partition, a small GPT table, and an archive of two files. *)

From S2P Require Import Prelude DList Bytes Alloc KString Libc UtilWitness.
From S2P Require Import Vfs VfsProofs Partition PartitionProofs Initrd InitrdProofs.
Import Ref.

(** ** A disk *)

Definition disk_driver (bs : Z) (disk : list Z) : VfsEnv := {|
  Vfs.get_blk_size _ _ := mret bs;
  Vfs.read_sync _ _ buf n off nr := λ s, Ret (OBOS_STATUS_SUCCESS, (λ _, n) <$> nr)
    (s <| vmem := write_bytes (vmem s) buf (take (Z.to_nat (n * bs)) (drop (Z.to_nat (off * bs)) disk)) |>);
  Vfs.write_sync _ _ _ n _ nw := mret (OBOS_STATUS_SUCCESS, (λ _, n) <$> nw);
  mutex_acquire _ := mret OBOS_STATUS_SUCCESS;
  mutex_release _ := mret OBOS_STATUS_SUCCESS;
  free_mount _ := mret ();
  alloc_dirty := mret 0x9000;
  free_dirty _ := mret ();
  vm_reserve _ := mret 0xa000;
  vm_commit _ := mret ()
|}.

Lemma disk_driver_env bs disk drv desc : 0 < bs < 2 ^ 64 → disk_env (disk_driver bs disk) drv desc bs disk.
Proof. by split. Qed.

Definition no_perm : file_perm := mkPerm false false false false false false.
Definition dev (size : Z) : vnode := mkVnode VNODE_TYPE_BLK 0 0x400 0x300 1 no_perm size 7 7 5 0 0.
Definition dev_fd : fd := mkFd 0x200 11 0.
Definition io_demo (m : bmem) (size : Z) (d : fd) : vst :=
  mkVst m {[ 0x200 := dev size ]} {[ 0x100 := d; 0x110 := dev_fd ]} {[ 0x100 := unlinked; 0x110 := unlinked ]}
    {[ 0x200 := mkList 0x110 0x110 1 ]} {[ 0x400 := mkMount 0 0 false ]} {[ 0x300 := 1 ]} ∅ ∅ ∅ ∅ 7 7.

Lemma io_demo_on_disk m size : on_disk (io_demo m size dev_fd) 0x100 dev_fd (dev size) 1.
Proof.
  split; try done. eexists. split; [vm_compute; reflexivity|]. unfold in_u. simpl. lia.
Qed.

Definition disk16 : list Z := [1; 2; 3; 4; 5; 6; 7; 8; 9; 10; 11; 12; 13; 14; 15; 16].
Definition buf16 : bmem := write_bytes ∅ 0x1000 (replicate 16 0).

Lemma sequential_reads_witness :
  let s := io_demo buf16 16 dev_fd in
  ∃ s1 s2, @Vfs_FdRead (disk_driver 4 disk16) 0x100 0x1000 (1 * 4) (Some 0) s = Ret (OBOS_STATUS_SUCCESS, Some 4) s1 ∧
    @Vfs_FdRead (disk_driver 4 disk16) 0x100 (0x1000 + 1 * 4) (2 * 4) (Some 0) s1 = Ret (OBOS_STATUS_SUCCESS, Some 8) s2 ∧
    @Vfs_FdRead (disk_driver 4 disk16) 0x100 0x1000 ((1 + 2) * 4) (Some 0) s = Ret (OBOS_STATUS_SUCCESS, Some 12) s2 ∧
    vmem s2 = write_bytes buf16 0x1000 (take (Z.to_nat ((1 + 2) * 4)) (drop (Z.to_nat (0 + 0)) disk16)) ∧
    fds s2 !! 0x100 = Some (mkFd 0x200 11 12).
Proof.
  apply (@sequential_reads (disk_driver 4 disk16) 1 4 disk16 (io_demo buf16 16 dev_fd) 0x100 dev_fd (dev 16) 0x1000 1 2 (Some 0));
    [by apply disk_driver_env|apply io_demo_on_disk|lia|lia|lia|simpl; lia|reflexivity|unfold base_offset; simpl; lia|
     reflexivity|vm_compute; congruence|vm_compute; reflexivity|mapped_by_eval].
Defined.

(** ** Opening and closing *)

Definition closed_fd : fd := mkFd 0 0 0.

Lemma io_demo_opened : dl_rep (fd_links (io_demo ∅ 16 closed_fd)) (mkList 0x110 0x110 1) [0x110].
Proof. split; simpl; try done; [apply NoDup_singleton|set_solver]. Qed.

Lemma open_close_witness :
  let s := io_demo ∅ 16 closed_fd in
  ∃ s1 s2 d' l', Vfs_FdOpenVnode 0x100 0x200 FD_OFLAGS_UNCACHED s = Ret OBOS_STATUS_SUCCESS s1 ∧
    @Vfs_FdClose (disk_driver 4 disk16) 0x100 s1 = Ret OBOS_STATUS_SUCCESS s2 ∧
    vnodes s2 = vnodes s ∧ opened s2 !! 0x200 = Some l' ∧ dl_rep (fd_links s2) l' [0x110] ∧
    fds s2 !! 0x100 = Some d' ∧ has_flag (fd_flags d') FD_FLAGS_OPEN = false.
Proof.
  apply (@open_close_roundtrip (disk_driver 4 disk16) (io_demo ∅ 16 closed_fd) 0x100 closed_fd 0x200 (dev 16) [0x110]
           (mkList 0x110 0x110 1) (mkMount 0 0 false) FD_OFLAGS_UNCACHED);
    try done; try (vm_compute; reflexivity).
  - exact io_demo_opened.
  - set_solver.
Defined.

(** The owner has no permission at all, and may read. *)
Lemma open_grants_read_witness :
  owner_read (perm (dev 16)) = false ∧
  ∃ s' d', Vfs_FdOpenVnode 0x100 0x200 0 (io_demo ∅ 16 closed_fd) = Ret OBOS_STATUS_SUCCESS s' ∧ fds s' !! 0x100 = Some d' ∧
    has_flag (fd_flags d') FD_FLAGS_OPEN = true ∧ has_flag (fd_flags d') FD_FLAGS_READ = true ∧
    (owner_uid (dev 16) = currentUID (io_demo ∅ 16 closed_fd) → owner_write (perm (dev 16)) = false →
     has_flag (fd_flags d') FD_FLAGS_WRITE = false).
Proof.
  split; [done|].
  eapply (open_grants_read (io_demo ∅ 16 closed_fd) 0x100 closed_fd 0x200 (dev 16) 0 (mkList 0x110 0x110 1));
    try done; vm_compute; reflexivity.
Defined.

(** ** The boot record *)

(** One partition of two sectors at sector 1 of four. *)
Definition mbr_disk : list Z :=
  replicate 454 0 ++ [1; 0; 0; 0; 2; 0; 0; 0] ++ replicate 48 0 ++ [0x55; 0xaa] ++ replicate 1536 7.
Definition mbr_buf : bmem := write_bytes ∅ 0x10000 (replicate 512 0).
Definition part_env : PartEnv := {|
  kalloc _ := λ v, Ret 0x10000 (v <| vmem := mbr_buf |>);
  kfree _ _ := λ v, Ret () (v <| vmem := ∅ |>);
  vm_alloc _ := mret (0x10000, OBOS_STATUS_SUCCESS);
  vm_free _ _ := mret ();
  part_calloc _ := mret 0x5000
|}.
Definition no_part : partition := mkPartition 0 0 0 0 PARTITION_FORMAT_RAW [] [].
Definition mbr_demo : pst :=
  mkPst (io_demo ∅ 2048 dev_fd) {[ (0x5000, 0) := no_part; (0x5000, 1) := no_part; (0x5000, 2) := no_part; (0x5000, 3) := no_part ]}.

Lemma mbr_demo_start : @at_start (disk_driver 512 mbr_disk) (pv mbr_demo) 0x100 dev_fd (dev 2048) 1 512 mbr_disk.
Proof.
  split; [by apply disk_driver_env|apply io_demo_on_disk|done|done|done|done| |].
  - vm_compute. split; congruence.
  - unfold mbr_disk, byte, in_u. repeat apply Forall_app_2; try (apply Forall_replicate; lia); repeat constructor; lia.
Qed.

Lemma mbr_partitions_witness :
  let m := take 512 mbr_disk in
  let signed_ok := le (sub 510 2 m) = MBR_BOOT_SIGNATURE in
  let es := mbr_used m in
  ∃ r s', @OBOS_IdentifyMBRPartitions (disk_driver 512 mbr_disk) part_env 0x100 0x5000 (Some 9) mbr_demo = Ret r s' ∧
    (¬ signed_ok → r = (OBOS_STATUS_INVALID_FILE, Some 9) ∧ plist s' = plist mbr_demo) ∧
    (signed_ok → ¬ Forall (fits_in 512 2048) es → r = (OBOS_STATUS_INVALID_ARGUMENT, Some 0)) ∧
    (signed_ok → Forall (fits_in 512 2048) es →
       r = (OBOS_STATUS_SUCCESS, Some (Z.of_nat (length es))) ∧
       (∀ i e, es !! i = Some e → ∃ p, plist s' !! (0x5000, Z.of_nat i) = Some p ∧
          p_drive p = 0x200 ∧ p_off p = e.1 * 512 ∧ p_size p = e.2 * 512 ∧ 0 < p_size p ∧
          p_off p + p_size p <= Z.of_nat (length mbr_disk))).
Proof.
  apply (@mbr_partitions_bounded (disk_driver 512 mbr_disk) part_env mbr_demo 0x100 dev_fd (dev 2048) 1 512 mbr_disk 0x10000 0x5000 9).
  - exact mbr_demo_start.
  - split; [exists mbr_buf; split; [done|mapped_by_eval]|done|by eexists].
  - done.
  - intros [|[|[|[|j]]]] Hj; [eexists; vm_compute; reflexivity..|lia].
Defined.

Example mbr_demo_used : mbr_used (take 512 mbr_disk) = [(1, 2)].
Proof. vm_compute. reflexivity. Qed.

(** ** The GPT table: two sectors of two entries, three of them in use *)

Definition gpt_bytes : list Z := replicate 48 9 ++ replicate 16 0.
Definition gpt_demo : pst := mkPst (io_demo (write_bytes ∅ 0x100 gpt_bytes) 2048 dev_fd) ∅.

Lemma gpt_count_witness :
  gpt_scan 2 0x100 0x100 32 64 16 0x200 0 0 0 gpt_demo = Ret 3 gpt_demo.
Proof.
  apply (gpt_count_prefix gpt_demo 0x100 16 2 2 3 gpt_bytes 0x200); try lia; try reflexivity.
  - apply bytes_atb_ok. vm_compute. reflexivity.
  - intros [|[|[|i]]] Hi; [vm_compute; congruence..|lia].
  - intros i Hi. assert (i = 3%nat) as -> by lia. vm_compute. reflexivity.
Defined.

(** ** The initial ramdisk *)

(** A hash table in plain memory: headers are copied behind everything that is
    mapped. *)
#[local] Instance plain_table : Hashmap := {|
  hashmap_new := modify (λ s : ist, s <| hm := ∅ |>);; mret 1;
  hashmap_get p := λ s, Ret (default nullptr (hm s !! name_of (Bump.contents (imem s) p SIZEOF_USTAR_HDR))) s;
  hashmap_set p := λ s,
    let h := Bump.contents (imem s) p SIZEOF_USTAR_HDR in
    let q := Bump.top (imem s) in
    Ret () (s <| imem := write_bytes (imem s) q h |> <| hm ::= <[name_of h := q]> |>);
  hashmap_free _ := mret ();
  names_set _ := mret ();
  imalloc _ := mret 0x9000
|}.

Lemma contents_bytes m p h : bytes_at m p h → Bump.contents m p (length h) = h.
Proof.
  intros H. apply list_eq. intros i. unfold Bump.contents. rewrite list_lookup_fmap.
  destruct (decide (i < length h)%nat) as [Hi|Hi].
  - rewrite lookup_seq_lt by done. simpl. destruct (lookup_lt_is_Some_2 h i Hi) as [b Hb].
    by rewrite (H _ _ Hb), Hb.
  - rewrite lookup_seq_ge by lia. simpl. symmetry. apply lookup_ge_None. lia.
Qed.

Lemma plain_table_ok : hashmap_ok.
Proof.
  split.
  - intros s. eexists _, _. split; [reflexivity|]. by repeat split.
  - intros s p h Hb Hl. cbn [hashmap_get plain_table]. by rewrite <- Hl, (contents_bytes _ _ _ Hb).
  - intros s p h Hb Hl. pose proof (Bump.top_pos (imem s)) as Ht. exists (Bump.top (imem s)). eexists.
    cbn [hashmap_set plain_table]. split; [reflexivity|]. rewrite <- Hl, (contents_bytes _ _ _ Hb). simpl. split; [lia|]. split; [apply lookup_insert_eq|].
    split; [apply write_bytes_same|]. split; [apply Bump.top_fresh; lia|]. split; [|done].
    intros a [b Ha]. apply write_bytes_outside. intros Hr. rewrite Bump.top_fresh in Ha by lia. done.
Qed.

Definition hdr (name size : list Z) (type : Z) : list Z :=
  resize 100 0 name ++ replicate 24 0 ++ resize 12 0 size ++ replicate 20 0 ++ [type] ++ replicate 100 0
  ++ USTAR_MAGIC ++ replicate 237 0.

(** ["a"] with the contents ["xyz"], and the empty file ["d/b"]. *)
Definition hdr_a : list Z := hdr [97] [51] REGTYPE.
Definition hdr_b : list Z := hdr [100; 47; 98] [48] REGTYPE.
Definition path_b : list Z := [100; 47; 98].
Definition initrd_ro : bmem :=
  write_bytes (write_bytes (write_bytes (write_bytes (write_bytes (write_bytes ∅ 0x1000 hdr_a) 0x1200 [120; 121; 122])
    0x1400 hdr_b) (0x1600 + o_magic) (replicate 6 0)) 0x2000 (path_b ++ [0])) 0x2100 USTAR_MAGIC.
Definition initrd_demo : ist :=
  mkIst (write_bytes (write_bytes initrd_ro 0x4000 (replicate 500 0)) 0x5000 (replicate 100 0)) 0x1000 0 0 ∅.
Definition demo_files : list (Z * list Z) := [(0x1000, hdr_a); (0x1400, hdr_b)].

Lemma demo_archive : archive initrd_ro 0x1000 demo_files.
Proof.
  apply archive_file; [apply bytes_atb_ok; by_eval|done|done|by_eval|].
  replace (next_hdr 0x1000 (size_of hdr_a)) with 0x1400 by by_eval.
  apply archive_file; [apply bytes_atb_ok; by_eval|done|done|by_eval|].
  replace (next_hdr 0x1400 (size_of hdr_b)) with 0x1600 by by_eval.
  apply (archive_end _ _ (replicate 6 0)); [apply bytes_atb_ok; by_eval|done|done].
Qed.

Lemma initrd_ro_high a : 0x4000 <= a → initrd_ro !! a = None.
Proof.
  intros Ha. unfold initrd_ro. rewrite !write_bytes_outside; [apply lookup_empty|..];
    unfold hdr_a, hdr_b, hdr, o_magic, path_b, USTAR_MAGIC;
    rewrite ?length_app, ?length_resize, ?length_replicate; simpl; lia.
Qed.

Lemma demo_looking_up : looking_up initrd_demo initrd_ro 0x2100 0x4000 0x5000 0x2000 path_b demo_files.
Proof.
  split.
  - apply map_subseteq_spec. intros a b Hb. unfold initrd_demo. cbn [imem].
    assert (a < 0x4000) by (apply Z.nle_gt; intros Ha; by rewrite initrd_ro_high in Hb).
    rewrite !write_bytes_outside; [exact Hb|lia..].
  - done.
  - exact demo_archive.
  - apply bytes_atb_ok. by_eval.
  - cstr_eval.
  - simpl. lia.
  - mapped_by_eval.
  - mapped_by_eval.
  - unfold disjoint_blocks. lia.
  - intros a Ha. apply initrd_ro_high. lia.
Qed.

Lemma getfile_lookup_witness :
  from_option fst nullptr (lookup_file path_b demo_files) = 0x1400 ∧
  ∃ s', GetFile 0x2100 0x4000 0x5000 0x2000 initrd_demo =
      Ret (from_option fst nullptr (lookup_file path_b demo_files), OBOS_STATUS_SUCCESS) s' ∧
    looking_up s' initrd_ro 0x2100 0x4000 0x5000 0x2000 path_b demo_files.
Proof.
  split; [by_eval|].
  apply (getfile_lookup initrd_demo initrd_ro 0x2100 0x4000 0x5000 0x2000 path_b demo_files);
    [exact plain_table_ok|exact demo_looking_up|done].
Defined.

(** Two of the three bytes, from offset 1, when five are asked for. *)
Lemma initrd_read_witness :
  read_sync 0x1000 0x5000 5 1 None initrd_demo =
    Ret (OBOS_STATUS_SUCCESS, None) (initrd_demo <| imem := write_bytes (imem initrd_demo) 0x5000 [121; 122] |>).
Proof.
  apply (initrd_read initrd_demo 0x1000 hdr_a [120; 121; 122] 0x5000 5 1 None);
    [apply bytes_atb_ok; by_eval|done|apply bytes_atb_ok; by_eval|done|done|done|done|lia|lia|lia|mapped_by_eval|
     unfold disjoint_blocks; simpl; lia].
Defined.
