(* ===== verification/AllocWitness.v ===== *)
(** * The basic allocator at a concrete input

    The machine of [Witness], an allocator with one region of a page, with one
    block in use, and a page source that maps pages at one address. *)

From S2P Require Import Prelude DList KState Irql ThreadList Thread Witness.
From S2P Require Import Bytes BasicAlloc BasicAllocProofs.

#[local] Instance alloc_handlers : DpcHandlers := λ _ _ _, mret ().

(** ** The page source *)

(** Pages at [0x100000] when they are not mapped. *)
Definition POOL : Z := 0x100000.
Definition unmapped (m : bmem) (p n : Z) : Prop := Forall (λ i, m !! (p + i) = None) (seqZ 0 n).
#[global] Instance unmapped_dec m p n : Decision (unmapped m p n) := Forall_dec _ _.

Definition pool_alloc (n : Z) : K ast (Z * obos_status) := λ s,
  if decide (0 < n < 2 ^ 63 ∧ unmapped (amem s) POOL n) then
    Ret (POOL, OBOS_STATUS_SUCCESS)
      (s <| amem ::= λ m, write_bytes m POOL (replicate (Z.to_nat n) 0) |> <| regions ::= <[POOL := zero_region]> |>
         <| region_links ::= <[POOL := unlinked]> |>)
  else Ret (nullptr, OBOS_STATUS_NOT_ENOUGH_MEMORY) s.
Definition pool_free (p n : Z) : K ast () :=
  modify (λ s, s <| amem ::= filter (λ b, ¬ (p <= b.1 < p + n)) |>).

#[local] Instance pool : PageSource := {|
  Mm_IsInitialized := mret true;
  phys_alloc n := pool_alloc (n * PG);
  phys_free p n := pool_free p (n * PG);
  MapToHHDM p := p;
  UnmapFromHHDM p := p;
  vma_alloc size _ := pool_alloc (page_bytes size);
  vma_free p size := pool_free p (page_bytes size);
  basicmm_alloc size := pool_alloc (page_bytes size);
  basicmm_free p size := pool_free p (page_bytes size)
|}.

Lemma pool_serves n zeroed : serves (pool_alloc n) Datatypes.id n zeroed.
Proof.
  intros s. unfold pool_alloc. case_decide as Hd; [right|left; by eexists]. destruct Hd as [Hn Hu].
  eexists POOL, _. split; [reflexivity|]. split; [done|]. split; [|intros _; split; apply lookup_insert_eq].
  unfold Datatypes.id. split; cbn [amem regions region_links].
  - unfold POOL. repeat split; lia.
  - intros a Ha. apply Forall_forall with (x := a - POOL) in Hu; [|apply elem_of_seqZ; lia]. by rewrite Zplus_minus in Hu.
  - intros a Ha. simpl. rewrite write_bytes_lookup, length_replicate, decide_True by lia.
    apply lookup_lt_is_Some_2. rewrite length_replicate. lia.
  - intros a Ha. simpl. rewrite write_bytes_lookup, length_replicate, decide_False by lia. done.
  - intros q Hq. simpl. apply lookup_insert_ne. lia.
  - intros q Hq. simpl. apply lookup_insert_ne. lia.
  - by destruct s.
Qed.

Lemma pool_source_ok : page_source_ok.
Proof. split; intros; [by exists true|apply pool_serves..]. Qed.

Lemma pool_takes_back p n : takes_back (pool_free p n) p n.
Proof.
  intros s. eexists. split; [reflexivity|]. split.
  2:{ repeat (split; [done|]). intros a Ha. simpl. apply map_lookup_filter_None_2. right. intros b _ Hn. by apply Hn. }
  split; try done. intros m Hm. simpl.
  destruct (amem s !! m) as [b|] eqn:E; [apply map_lookup_filter_Some_2|apply map_lookup_filter_None_2; left]; done.
Qed.
Lemma pool_sink_ok : page_sink_ok.
Proof. split; intros; apply pool_takes_back. Qed.

(** ** The allocator

    The allocator at [1], its region at [0x10000], a block of 16 bytes in use
    behind the region's header. *)
Definition region_at : Z := 0x10000.
Definition node_at : Z := region_at + SIZEOF_REGION.
Definition region_demo : basicalloc_region :=
  mkRegion PAGEBLOCK_MAGIC 1024 0 empty_list (mkList node_at node_at 1) nullptr BLOCK_SOURCE_VMA.
Definition demo_alloc : kst := demo <| irq ::= λ i, i <| locks ::= <[AllocatorLock 1 := Core_SpinlockCreate]> |> |>.
Definition alloc_demo : ast :=
  mkAst demo_alloc (write_bytes ∅ region_at (replicate 4096 0)) {[ node_at := node_ok 16 region_at ]} {[ node_at := unlinked ]}
    {[ region_at := region_demo ]} {[ region_at := unlinked ]}
    {[ 1 := mkBasic OBOS_BASIC_ALLOCATOR_MAGIC (mkList region_at region_at 1) ]} 2 3.

Lemma alloc_demo_inv :
  alloc_inv alloc_demo 1 [region_at] (λ _, region_demo) (λ _, []) (λ _, [node_at]).
Proof.
  split.
  - done.
  - eexists. split; [apply lookup_singleton_eq|]. split; [done|]. by apply single_rep; [|apply lookup_singleton_eq].
  - intros r ->%list_elem_of_singleton. change (rtop region_at region_demo) with (region_at + 4096). split.
    + apply lookup_singleton_eq.
    + done.
    + done.
    + change (rtop region_at region_demo) with (region_at + 4096). intros a Ha. change (amem alloc_demo) with (write_bytes ∅ region_at (replicate 4096 0)).
      rewrite write_bytes_lookup, length_replicate, decide_True by lia. apply lookup_lt_is_Some_2. rewrite length_replicate. lia.
    + apply dl_rep_empty.
    + by apply single_rep; [|apply lookup_singleton_eq].
    + apply NoDup_singleton.
    + intros n ->%list_elem_of_singleton. exists 16. split; [apply lookup_singleton_eq|]. vm_compute. repeat split; done.
    + intros n m z w ->%list_elem_of_singleton ->%list_elem_of_singleton. done.
    + by left.
    + done.
    + done.
  - intros r q ->%list_elem_of_singleton ->%list_elem_of_singleton. done.
Qed.

Lemma alloc_demo_ready : a_ready alloc_demo 1 IRQL_PASSIVE.
Proof. split; [|vm_compute; reflexivity]. pose proof demo_quiet as [[] ? ? ?]. split; [split|..]; done. Qed.

Lemma basic_allocate_witness :
  (∃ e, Allocate 1 100 (Some OBOS_STATUS_SUCCESS) alloc_demo = Ret (nullptr, Some e) alloc_demo ∧
     (∀ r, r ∈ [region_at] → passed_over alloc_demo r region_demo [] 112) ∧
     allocateNewRegion 1 112 (Some OBOS_STATUS_SUCCESS) (locked alloc_demo 1) = Ret (nullptr, Some e) (locked alloc_demo 1)) ∨
  (∃ p s', Allocate 1 100 (Some OBOS_STATUS_SUCCESS) alloc_demo = Ret (p, Some OBOS_STATUS_SUCCESS) s' ∧
     gives alloc_demo 1 [region_at] (λ _, [node_at]) p 112 s' ∧
     ((∃ r, r ∈ [region_at] ∧ r + SIZEOF_REGION + SIZEOF_NODE <= p ∧ p + 112 <= rtop r region_demo) ∨
      ∀ r, r ∈ [region_at] → passed_over alloc_demo r region_demo [] 112)).
Proof.
  apply (basic_allocate_correct alloc_demo IRQL_PASSIVE 1 [region_at] (λ _, region_demo) (λ _, []) (λ _, [node_at]) 100);
    [exact pool_source_ok|exact alloc_demo_inv|exact alloc_demo_ready|lia].
Defined.

