(* ===== verification/IrqWitness.v ===== *)
(** * IRQ objects at a concrete input

    The machine of [Witness] with the vectors of level 3 each taken by one object
    that does not share, a vector of level 4 with two that do, and an object that
    has no vector. *)

From S2P Require Import Prelude DList KState Irql ThreadList Thread Dpc Witness.
From S2P Require Import IrqObj IrqProofs.

#[local] Instance irq_handlers : DpcHandlers := λ _ _ _, mret ().

(** ** The machine *)

Definition loose : Z := 0x800.
Definition first_obj : Z := 0x2000.
Definition second_obj : Z := 0x2001.

(** The DPC that the handlers of interrupts queue. *)
Definition work : Z := 0x7200.

(** The second object says interrupts are its own; its handler queues a DPC, as the
    timer's does. *)
#[local] Instance irq_env : IrqEnv := {|
  check_call _ o _ := mret (o =? second_obj);
  handler_call _ _ _ _ _ := qkern (CoreH_InitializeDPC work 0x300 1;; mret ());
  move_call _ _ _ _ _ := mret ();
  Arch_LAPICSendEOI := mret ();
  Core_IRQDispatcher_addr := 0xffffff0000001000;
  Mm_KernelContext := 0xffffff0000002000;
  fresh_links _ := unlinked
|}.

Definition irq_nodes_of (v : Z) : list Z :=
  if decide (16 <= v < 32) then [0x5000 + v] else if decide (v = 32) then [0x6000; 0x6001] else [].
Definition vec_demo (v : Z) : irq_vector :=
  if decide (16 <= v < 32) then mkVec v (mkList (0x5000 + v) (0x5000 + v) 1) 16 false 1
  else if decide (v = 32) then mkVec v (mkList 0x6000 0x6001 2) 16 true 0
  else mkVec v empty_list 16 true 0.
Definition obj_demo (v : Z) : irq_obj := mkIrqObj (Some v) (v <? 32) 0 0 0 1 1 0.

Definition irq_kst : kst := demo <| irq ::= λ i, i <| locks ::= <[IrqLock := Core_SpinlockCreate]> |>
  <| dpc_objs := {[ work := mkDpc 0 0 None ]} |> <| dpc_links := {[ work := unlinked ]} |> |>.
Definition irq_demo : qst :=
  mkQst irq_kst (tabulate 0 224 vec_demo) true
    (<[0x6000 := first_obj]> (<[0x6001 := second_obj]> (tabulate 0x5010 16 (λ n, n - 0x4000))))
    (<[0x6000 := mkLink 0x6001 0]> (<[0x6001 := mkLink 0 0x6000]> (tabulate 0x5010 16 (λ _, unlinked))))
    (<[loose := zero_irq]> (<[first_obj := obj_demo 32]> (<[second_obj := obj_demo 32]>
      (tabulate 0x1010 16 (λ o, obj_demo (o - 0x1000))))))
    (tabulate 32 224 (λ _, 0)) false.

Lemma irq_ready : q_ready irq_demo IRQL_PASSIVE.
Proof. split; [|vm_compute; reflexivity]. pose proof demo_quiet as [[] ? ? ?]. split; [split|..]; done. Qed.

Lemma nodes_cases v n : n ∈ irq_nodes_of v →
  (16 <= v < 32 ∧ n = 0x5000 + v) ∨ (v = 32 ∧ (n = 0x6000 ∨ n = 0x6001)).
Proof. unfold irq_nodes_of. repeat case_decide; set_solver. Qed.

Lemma node_low v : 16 <= v < 32 → irq_nodes irq_demo !! (0x5000 + v) = Some (0x1000 + v).
Proof.
  intros Hv. cbn [irq_nodes irq_demo]. rewrite !lookup_insert_ne by lia. rewrite tabulate_lookup by lia. f_equal. lia.
Qed.
Lemma irq_demo_objects v : objects irq_demo irq_nodes_of v =
  if decide (16 <= v < 32) then [0x1000 + v] else if decide (v = 32) then [first_obj; second_obj] else [].
Proof.
  unfold objects, irq_nodes_of. case_decide; [|by case_decide]. cbn [fmap list_fmap]. by rewrite node_low.
Qed.
Lemma vec_lookup v : is_vec v → s_irqVectors irq_demo !! v = Some (vec_demo v).
Proof. intros [? ?]. apply tabulate_lookup. unfold OBOS_IRQ_VECTOR_ID_MAX in *. lia. Qed.

Lemma irq_demo_table : table irq_demo irq_nodes_of.
Proof.
  split.
  - intros v Hv. exists (vec_demo v). split; [by apply vec_lookup|]. unfold vec_demo, irq_nodes_of.
    case_decide; [|case_decide].
    + split; [done|]. apply single_rep; [lia|]. cbn [irq_links irq_demo]. rewrite !lookup_insert_ne by lia. by apply tabulate_lookup; lia.
    + subst. split; [done|]. split; [..|split; [vm_compute; reflexivity|]; split; [vm_compute; reflexivity|done]]; try done.
      * apply NoDup_cons; split; [set_solver|apply NoDup_singleton].
      * set_solver.
    + split; [done|]. apply dl_rep_empty.
  - intros v n _ [[Hv ->]|[-> [-> | ->]]]%nodes_cases; [|done..]. rewrite node_low by done. done.
  - intros v w n _ _ Hn%nodes_cases Hm%nodes_cases. lia.
  - vm_compute. repeat constructor; set_solver.
  - intros a Ha. change (a ∈ [0x9000; 0x9100]) in Ha. split; [set_solver|]. intros v _ Hn%nodes_cases.
    apply elem_of_cons in Ha as [->|Ha%list_elem_of_singleton]; lia.
  - intros v _. change (length (free_addrs (sch (qk irq_demo)))) with 2%nat. unfold irq_nodes_of.
    repeat case_decide; simpl; lia.
Qed.

Lemma irq_demo_inv : irq_inv irq_demo irq_nodes_of.
Proof.
  split; [exact irq_demo_table|reflexivity|..].
  - intros v [? ?]. unfold OBOS_IRQ_VECTOR_ID_MAX in *. cbn [Arch_IRQHandlers irq_demo]. rewrite tabulate_lookup by lia. done.
  - intros v o _. rewrite irq_demo_objects. case_decide; [|case_decide].
    + intros ->%list_elem_of_singleton. split; [lia|]. exists (obj_demo v). split; [|done]. cbn [irqs irq_demo].
      unfold loose, first_obj, second_obj. rewrite !lookup_insert_ne by lia. rewrite tabulate_lookup by lia.
      by replace (0x1000 + v - 0x1000) with v by lia.
    + subst. intros [->| ->%list_elem_of_singleton]%elem_of_cons; (split; [done|]); exists (obj_demo 32);
        (split; [vm_compute; reflexivity|done]).
    + intros []%not_elem_of_nil.
  - intros v _. rewrite irq_demo_objects. repeat case_decide; [apply NoDup_singleton| |apply NoDup_nil_2].
    apply NoDup_cons. split; [rewrite list_elem_of_singleton; done|apply NoDup_singleton].
  - intros v c k Hv. unfold attrs. rewrite vec_lookup by done. unfold vec_demo, irq_nodes_of.
    repeat case_decide; simpl; [lia|done|lia].
  - intros v c a k Hv. unfold attrs. rewrite vec_lookup by done. unfold vec_demo.
    repeat case_decide; simpl; intros [= <- <- <-]; lia.
Qed.

Lemma irq_may_init : may_init irq_demo irq_nodes_of loose zero_irq IRQL_PASSIVE 0x9000.
Proof. split; [exact irq_demo_inv|exact irq_ready|done..]. Qed.

(** ** The theorems *)

Lemma irq_search_hangs_witness :
  Core_IrqObjectInitializeIRQL 3 loose 3 false true irq_demo = Stop Hang.
Proof.
  apply (irq_search_hangs 3 irq_demo irq_nodes_of loose zero_irq IRQL_PASSIVE 0x9000 3 false true irq_may_init); [lia|].
  intros v Hv Hl (x & Hx & Hu). rewrite vec_lookup in Hx by done. injection Hx as <-.
  pose proof (proj2 (level_vectors 3 v ltac:(lia)) (conj Hv Hl)) as Hlv. revert Hu. unfold vec_demo. rewrite decide_True; [done|].
  change (OBOS_IRQL_TO_IRQ_VECTOR_ID 3) with 16 in Hlv. lia.
Defined.

Lemma irq_register_free_roundtrip_witness :
  ∃ s1 s2 N2, Core_IrqObjectInitializeVector 3 loose 32 true false irq_demo = Ret OBOS_STATUS_SUCCESS s1 ∧
    objects s1 (fupd irq_nodes_of 32 (irq_nodes_of 32 ++ [0x9000])) 32 = objects irq_demo irq_nodes_of 32 ++ [loose] ∧
    Core_IrqObjectFree loose s1 = Ret OBOS_STATUS_SUCCESS s2 ∧ irq_inv s2 N2 ∧
    (∀ w, is_vec w → objects s2 N2 w = objects irq_demo irq_nodes_of w) ∧ (∀ w, w ≠ 32 → attrs s2 w = attrs irq_demo w) ∧
    attrs s2 32 = Some (16, true, 0) ∧ irqs s2 = delete loose (irqs irq_demo) ∧
    qk s2 = (qk irq_demo) <| sch ::= λ c, c <| free_addrs ::= tail |> |>.
Proof.
  apply (irq_register_free_roundtrip 3 irq_demo irq_nodes_of loose zero_irq IRQL_PASSIVE 0x9000 32 true false 16 true 0);
    [done|split; vm_compute; done|exact irq_may_init|split; vm_compute; done|left; split; [done|by exists 16, 0]|reflexivity|split; vm_compute; done].
Defined.

Lemma irq_refused_free_panics_witness :
  ∃ s1, Core_IrqObjectInitializeVector 3 loose 16 true false irq_demo = Ret OBOS_STATUS_IN_USE s1 ∧
    attrs s1 16 = Some (16, false, 2) ∧ Core_IrqObjectFree loose s1 = Stop Panic.
Proof.
  apply (irq_refused_free_panics 3 irq_demo irq_nodes_of loose zero_irq IRQL_PASSIVE 0x9000 16 true 16 1 0x5010 0x1010);
    [exact irq_may_init|split; vm_compute; done|reflexivity|vm_compute; reflexivity|reflexivity].
Defined.

(** The handlers of DPCs do nothing. *)
Lemma idle_handlers_ok c : handlers_ok (λ k, irq_wf (irq k) IRQL_DISPATCH) c.
Proof.
  split; [intros s d x l1 l2 Hwf _ _ _; by apply dequeued_rest|].
  intros s d x q Hwf Hc Hrep Hlen _ _ _. exists s, []. done.
Qed.

(** The interrupt of the shared vector is served by its second object; the DPC its
    handler queues is run before the level drops. *)
Definition irq_left : qst :=
  match handler_call 1 second_obj 32 0 IRQL_PASSIVE (serving irq_demo 0 (demo_cpu 0 idle_t) 4) with Ret _ s => s | _ => irq_demo end.
Definition cpu_left : cpu_local := (demo_cpu 0 idle_t) <| currentContext := Mm_KernelContext |>.

Lemma irq_left_eq : handler_call 1 second_obj 32 0 IRQL_PASSIVE (serving irq_demo 0 (demo_cpu 0 idle_t) 4) = Ret () irq_left.
Proof.
  assert (match handler_call 1 second_obj 32 0 IRQL_PASSIVE (serving irq_demo 0 (demo_cpu 0 idle_t) 4) with Ret _ _ => true | _ => false end = true)
    as E by (vm_compute; reflexivity).
  unfold irq_left. by destruct (handler_call _ _ _ _ _ _) as [[]| |].
Qed.

Lemma irq_dispatch_witness :
  let s3 := served irq_left 0 cpu_left 0 in
  ∃ k post, handled 0 [] [work] (at_level IRQL_DISPATCH (qk s3)) post k ∧ dpc_rep (irq k) 0 post ∧
    Core_IRQDispatcher 32 irq_demo = Ret () (s3 <| qk := at_level IRQL_PASSIVE k |>).
Proof.
  assert (interruptible irq_demo irq_nodes_of 32 0 (demo_cpu 0 idle_t) IRQL_PASSIVE) as Hi.
  { pose proof demo_quiet as [[] ? ? ?]. split; [exact irq_demo_inv|split; vm_compute; done|done|split; done|vm_compute; done|done]. }
  destruct (irq_dispatch_correct (λ k, irq_wf (irq k) IRQL_DISPATCH) irq_demo irq_nodes_of 32 0 (demo_cpu 0 idle_t) IRQL_PASSIVE (λ o, o =? second_obj) Hi)
    as (ob & Hob & Hrun); [done| |apply idle_handlers_ok|done|].
  - intros o ob Ho Hob. rewrite irq_demo_objects in Ho. change (o ∈ [first_obj; second_obj]) in Ho.
    assert (ob = obj_demo 32) as ->; [|done]. apply elem_of_cons in Ho as [->| ->%list_elem_of_singleton];
      vm_compute in Hob; by injection Hob as <-.
  - assert (ob = obj_demo 32) as -> by (vm_compute in Hob; by injection Hob as <-).
    apply (Hrun irq_left cpu_left).
    + exact irq_left_eq.
    + split; [|split; vm_compute; reflexivity]. split; try (vm_compute; (reflexivity || done)).
      eexists. split; [vm_compute; reflexivity|]. intros _. eexists. vm_compute. reflexivity.
    + split; try (vm_compute; (reflexivity || done)).
      eexists. split; [vm_compute; reflexivity|]. intros _. eexists. vm_compute. reflexivity.
    + eexists. split; [vm_compute; reflexivity|]. apply single_rep; [done|vm_compute; reflexivity].
    + done.
    + intros d ->%list_elem_of_singleton. eexists. vm_compute. reflexivity.
Defined.
