(* ===== verification/PagingWitness.v ===== *)
(** * Page tables at a concrete input

    A machine with 16 pages of memory: an empty top-level table at [0x1000], eight
    free pages from [0x8000] on. *)

From S2P Require Import Prelude DList KState Irql ThreadList Thread Witness.
From S2P Require Import Pmm PmmProofs Paging PagingProofs PagingOps PagingUnmap PagingFrames CoreWitness.

#[local] Instance paging_handlers : DpcHandlers := λ _ _ _, mret ().

Definition root_at : Z := 0x1000.
Definition pool_at : Z := 0x8000.
Definition small_pmm : mst :=
  mkMst (mk pmm_demo) (mkFlist pool_at pool_at) (mkFlist 0 0) 1 (tabulate 0 0x10000 (λ _, unlinked))
    (tabulate 0 0x10000 (λ a, if a =? pool_at then 8 else 0)) 16 0 16 0x10000.
#[local] Opaque tabulate.
Definition machine (w : Z → Z) : gst := mkGst small_pmm (tabulate 0 0x10000 w) root_at true ∅ false.
Definition paging_demo : gst := machine (λ _, 0).
Definition root_only : gmap Z (nat * Z) := {[ root_at := (3%nat, 0) ]}.

Lemma root_only_inv f x : root_only !! f = Some x → f = root_at ∧ x = (3%nat, 0).
Proof. unfold root_only. by intros [<- <-]%lookup_singleton_Some. Qed.

Lemma small_node x : x ∈ [pool_at] → x = pool_at ∧ pg_nPages small_pmm !! x = Some 8.
Proof. intros ->%list_elem_of_singleton. split; [done|]. cbn [pg_nPages small_pmm]. by rewrite tabulate_lookup by (unfold pool_at; lia). Qed.

Lemma small_lists : both_lists small_pmm [pool_at] [].
Proof.
  assert (∀ x n, x ∈ [pool_at] → pg_nPages small_pmm !! x = Some n → x = pool_at ∧ n = 8) as Hn.
  { intros x n [-> E]%small_node Hx. rewrite E in Hx. injection Hx as <-. split; reflexivity. }
  split; [split|split|..].
  - apply single_rep; [done|]. cbn [pg_links small_pmm]. apply tabulate_lookup. unfold pool_at. lia.
  - intros x [-> E]%small_node. exists 8. split; [exact E|]. change (Mm_PhysicalMemoryBoundaries small_pmm) with 0x10000.
    unfold pool_at, PG. split; [lia|]. split; [lia|]. split; [reflexivity|lia].
  - intros x y n m [-> _]%small_node [-> _]%small_node H. by destruct H.
  - change (Mm_PhysicalMemoryBoundaries small_pmm) with 0x10000. lia.
  - apply dl_rep_empty.
  - intros x []%not_elem_of_nil.
  - intros x y n m []%not_elem_of_nil.
  - change (Mm_PhysicalMemoryBoundaries small_pmm) with 0x10000. lia.
  - intros x n Hx E. destruct (Hn x n Hx E) as [-> ->]. unfold pool_at, PG. lia.
  - intros y []%not_elem_of_nil.
Qed.

Lemma machine_pmm w : pmm_inv (machine w).
Proof.
  split.
  - exists IRQL_PASSIVE. apply pmm_demo_ready.
  - exists [pool_at], []. exact small_lists.
  - change (mk (pm (machine w))) with demo_io. eexists. split; [vm_compute; reflexivity|done].
  - cbn [pm machine small_pmm Mm_PhysicalMemoryBoundaries]. lia.
  - intros f H0 Hf _. cbn [pm machine small_pmm Mm_PhysicalMemoryBoundaries pg_nPages pg_links] in *. unfold PG in *.
    rewrite !tabulate_lookup by lia. done.
  - intros f j H0 Hf _ Hj. cbn [pm machine small_pmm Mm_PhysicalMemoryBoundaries words] in *. unfold PG in *.
    rewrite tabulate_lookup by lia. done.
Qed.

Lemma demo_word i : 0 <= i < 512 → words paging_demo !! (root_at + 8 * i) = Some 0.
Proof. intros Hi. cbn [words paging_demo]. apply tabulate_lookup. unfold root_at. lia. Qed.

Lemma paging_demo_tree : ptree (words paging_demo) root_at root_only.
Proof.
  split.
  - apply lookup_singleton_eq.
  - intros f g x [-> _]%root_only_inv [-> _]%root_only_inv. done.
  - intros f l p [-> [= -> ->]]%root_only_inv. unfold root_at. split; [lia|]. split; [done|lia].
  - intros f x i [-> _]%root_only_inv Hi. by rewrite demo_word.
  - intros f l p i e [-> _]%root_only_inv Hi. rewrite demo_word by done. congruence.
  - intros f l p [-> [= -> ->]]%root_only_inv. lia.
  - intros f l p i e v r [-> _]%root_only_inv Hi. rewrite demo_word by done. congruence.
Qed.

Lemma machine_used w f : f mod PG = 0 → 0 < f < pool_at → fr_used (machine w) f.
Proof.
  intros Hal Hf. split; [exact Hal|]. split; [lia|].
  split; [cbn [pm machine small_pmm Mm_PhysicalMemoryBoundaries]; unfold pool_at, PG in *; pose proof (Z.div_mod f 4096 ltac:(lia)); lia|].
  split; [unfold pool_at in *; lia|]. rewrite (is_free_iff (machine w) [pool_at] []) by exact small_lists.
  intros [_ [(y & n & [-> E]%small_node & Hy & Hin)|(y & n & []%not_elem_of_nil & _)]]. lia.
Qed.

Lemma paging_demo_inv : paging_inv paging_demo root_at root_only.
Proof.
  split; [exact paging_demo_tree|exact (machine_pmm _)|]. intros f x [-> _]%root_only_inv.
  apply machine_used; [reflexivity|unfold root_at, pool_at; lia].
Qed.

Lemma machine_left w n : (n <= 3)%nat → frames_left n (machine w).
Proof.
  intros Hn. exists [0x8000; 0x9000; 0xa000]. split; [|split; [simpl; lia|]].
  - repeat constructor; set_solver.
  - apply Forall_forall. intros a Ha. assert (a mod PG = 0 ∧ pool_at <= a < pool_at + 8 * PG) as [Hal Hin].
    { unfold pool_at, PG. repeat (apply elem_of_cons in Ha as [->|Ha]; [split; [reflexivity|lia]|]). by apply not_elem_of_nil in Ha. }
    apply (is_free_iff (machine w) [pool_at] []); [exact small_lists|]. split; [exact Hal|left].
    destruct (small_node pool_at) as [_ E]; [apply list_elem_of_singleton; reflexivity|].
    exists pool_at, 8. split; [apply list_elem_of_singleton; reflexivity|]. split; [exact E|exact Hin].
Qed.

Definition page_at : Z := 0xffffff0000005000.
Lemma demo_mappable flags : mask flags = 0 → mappable paging_demo root_at root_only page_at 0x3000 flags.
Proof.
  intros Hm. split; [exact paging_demo_inv| |apply machine_left; lia|exact Hm|reflexivity|reflexivity|lia|reflexivity].
  intros h e [-> E]%root_only_inv. discriminate E.
Qed.

Lemma map_page_witness :
  ∃ s', Arch_MapPage root_at page_at 0x3000 3 paging_demo = Ret OBOS_STATUS_SUCCESS s' ∧
    mapped paging_demo root_at root_only (λ u, u = vpn page_at)
      (λ _, Some (0x3000, false, e_rights (page_flags paging_demo 3))) s' ∧
    (coherent paging_demo root_at → coherent s' root_at).
Proof. apply (map_page_correct paging_demo root_at root_only page_at 0x3000 3). apply demo_mappable. reflexivity. Defined.

Lemma map_huge_page_witness :
  ∃ s', Arch_MapHugePage root_at 0xffffff0000200000 0x200000 3 paging_demo = Ret OBOS_STATUS_SUCCESS s' ∧
    mapped paging_demo root_at root_only (λ u, u / 512 = vpn 0xffffff0000200000 / 512)
      (λ u, Some (0x200000 + 4096 * (u mod 512), true, e_rights (page_flags paging_demo 3))) s' ∧
    (coherent paging_demo root_at → coherent s' root_at).
Proof.
  apply (map_huge_page_correct paging_demo root_at root_only 0xffffff0000200000 0x200000 3);
    [exact paging_demo_inv|apply machine_left; lia| |reflexivity..|lia|reflexivity].
  intros h e [-> E]%root_only_inv. discriminate E.
Defined.


Definition code_prot : page_prot := mkProt true false true false false true true true.
Lemma set_mapping_witness :
  ∃ s' s'', MmS_SetPageMapping root_at (Some (page_at, code_prot)) 0x3000 paging_demo = Ret OBOS_STATUS_SUCCESS s' ∧
    OBOSS_GetPagePhysicalAddress page_at true s' = Ret (OBOS_STATUS_SUCCESS, Some 0x3000) s' ∧
    MmS_QueryPageInfo root_at page_at (Some (0, zero_prot)) s' =
      Ret (OBOS_STATUS_SUCCESS, Some (page_at, mkProt true false true false false true false false)) s''.
Proof.
  apply (set_mapping_roundtrip paging_demo root_only page_at code_prot 0x3000 (0, zero_prot)); [|reflexivity..].
  apply (demo_mappable (prot_flags code_prot)). apply prot_flags_mask.
Defined.
