(* ===== verification/VmWitness.v ===== *)
(** * Early memory, swapping, page faults and ranges at concrete inputs

    The machine of [PagingWitness] with a page of data at [0x5000], mapped through tables
    at [0x1000] to [0x4000], and a swap buffer at [0x20000]. *)

From stdpp Require Import sorting.
From S2P Require Import Prelude DList KState Irql ThreadList Schedule Thread Wait Vfs Witness.
From S2P Require Import Pmm PmmProofs Paging PagingProofs PagingOps PagingUnmap PagingFrames BareMap BareMapProofs.
From S2P Require Import InitSwap Vmm VmFault VmAlloc VmSwap VmFaultProofs VmAllocProofs VmReserve InitSwapProofs CoreWitness PagingWitness.

#[local] Instance vm_handlers : DpcHandlers := λ _ _ _, mret ().
#[local] Opaque tabulate.

(** ** Early memory *)

#[local] Instance buffer_demo : BumpBuffer.
Proof. refine {| bump_buffer := 0x100000 |}; [reflexivity|unfold BUMP_SIZE; lia]. Defined.

Definition bare_kst : kst := demo_io <| irq ::= λ i, i <| locks ::= <[RegionListLock := Core_SpinlockCreate]> |> |>.
Definition bare_demo : bst :=
  mkBst bare_kst {[ 8 := mkRegion REGION_MAGIC_INT 0x1000 false 0x1000; 16 := mkRegion REGION_MAGIC_INT 0x9000 false 0x2000; 24 := mkRegion 0 0 true 0 ]}
    {[ 8 := mkLink 16 0; 16 := mkLink 0 8; 24 := unlinked ]} (mkList 8 16 2) (mkRegion 0 0 false 0) 0 false.

Lemma bare_ready : b_ready bare_demo IRQL_PASSIVE.
Proof. split; [apply (quiet_locks _ _ _ demo_io_quiet)|vm_compute; reflexivity]. Qed.

Lemma bare_regions : regions_ok bare_demo [8; 16] [0x1000; 0x9000].
Proof.
  split.
  - apply pair_rep; done.
  - repeat constructor.
  - repeat constructor.
Qed.

Lemma bump_blocks_witness :
  ∃ addrs s', allocate_all [0x1000; 0x20; 0x3001] bare_demo = Ret addrs s' ∧ length addrs = 3%nat ∧
    StronglySorted block_before (zip addrs [0x1000; 0x20; 0x3001]) ∧
    Forall (λ x, x.1 mod OBOS_PAGE_SIZE = 0 ∧ bump_buffer + 0 <= x.1 ∧ x.1 + x.2 < bump_buffer + BUMP_SIZE) (zip addrs [0x1000; 0x20; 0x3001]).
Proof.
  apply (bump_blocks_disjoint [0x1000; 0x20; 0x3001] bare_demo IRQL_PASSIVE 0).
  - exact bare_ready.
  - split; [reflexivity|unfold BUMP_SIZE; lia|reflexivity|left; reflexivity].
  - repeat constructor; lia.
  - unfold BUMP_SIZE. vm_compute. reflexivity.
Defined.

Lemma add_region_witness :
  ∃ s' x1 x2, OBOSH_BasicMMAddRegion 24 0x4000 0x1000 bare_demo = Ret () s' ∧ [8; 16] = x1 ++ x2 ∧
    regions_ok s' (x1 ++ 24 :: x2) [0x1000; 0x4000; 0x9000] ∧
    only_list (bare_demo <| mm_regions ::= <[24 := mkRegion REGION_MAGIC_INT 0x4000 true 0x1000]> |>) s' [24; 8; 16].
Proof.
  apply (add_region_sorted bare_demo IRQL_PASSIVE [8; 16] [0x1000; 0x9000] 24 0x4000 0x1000 (mkRegion 0 0 true 0));
    [exact bare_ready|exact bare_regions|set_solver|set_solver|lia|reflexivity|reflexivity|simpl; lia].
Defined.

(** ** A page and its tables *)

(** The entries: one per table, with all rights, and a word of the data. *)
Definition entry_at (a : Z) : Z :=
  if a =? 0x1000 then 0x2007 else if a =? 0x2000 then 0x3007 else if a =? 0x3000 then 0x4007 else
  if a =? 0x4028 then 0x5007 else if a =? 0x5010 then 42 else 0.
Definition vm_gst : gst := machine entry_at.
Definition vm_tables : gmap Z (nat * Z) :=
  {[ 0x1000 := (3%nat, 0); 0x2000 := (2%nat, 0); 0x3000 := (1%nat, 0); 0x4000 := (0%nat, 0) ]}.

Lemma vm_tables_inv f x : vm_tables !! f = Some x →
  (f = 0x1000 ∧ x = (3%nat, 0)) ∨ (f = 0x2000 ∧ x = (2%nat, 0)) ∨ (f = 0x3000 ∧ x = (1%nat, 0)) ∨ (f = 0x4000 ∧ x = (0%nat, 0)).
Proof.
  unfold vm_tables. rewrite !lookup_insert_Some, lookup_singleton_Some. naive_solver.
Qed.
Lemma vm_word a : 0 <= a < 0x10000 → words vm_gst !! a = Some (entry_at a).
Proof. intros Ha. apply tabulate_lookup. lia. Qed.
(** Above the last level only the first entry is used. *)
Lemma vm_entry f l p i e : vm_tables !! f = Some (S l, p) → 0 <= i < 512 → words vm_gst !! (f + 8 * i) = Some e → e ≠ 0 →
  i = 0 ∧ p = 0 ∧ (f, l, e) ∈ [(0x1000, 2%nat, 0x2007); (0x2000, 1%nat, 0x3007); (0x3000, 0%nat, 0x4007)].
Proof.
  intros Hf Hi He Hne. apply vm_tables_inv in Hf as [[-> [= -> ->]]|[[-> [= -> ->]]|[[-> [= -> ->]]|[_ [=]]]]];
    rewrite vm_word in He by lia; injection He as <-; (destruct (decide (i = 0)) as [->|Hi0]; [split; [done|]; split; [done|]; vm_compute; set_solver|]);
    exfalso; apply Hne; unfold entry_at; repeat (rewrite (proj2 (Z.eqb_neq _ _)) by lia); done.
Qed.

Lemma vm_tree : ptree (words vm_gst) root_at vm_tables.
Proof.
  split.
  - reflexivity.
  - intros f g x Hf Hg. apply vm_tables_inv in Hf, Hg. naive_solver.
  - intros f l p Hf. apply vm_tables_inv in Hf as [[-> [= -> ->]]|[[-> [= -> ->]]|[[-> [= -> ->]]|[-> [= -> ->]]]]]; split; (lia || (split; [reflexivity|lia])).
  - intros f x i Hf Hi. rewrite vm_word; [done|]. apply vm_tables_inv in Hf. lia.
  - intros f l p i e Hf Hi He Hne. destruct (vm_entry f l p i e Hf Hi He Hne) as (-> & -> & Hin).
    repeat (apply elem_of_cons in Hin as [[= -> -> ->]|Hin]; [split; reflexivity|]). destruct (not_elem_of_nil _ Hin).
  - intros f l p Hf Hl. apply vm_tables_inv in Hf as [[-> [= -> ->]]|[[-> [= -> ->]]|[[-> [= -> ->]]|[-> [= -> ->]]]]]; [lia|..].
    + exists 0x1000, 0x2007. split; [reflexivity|]. rewrite vm_word by (cbv; split; congruence). done.
    + exists 0x2000, 0x3007. split; [reflexivity|]. rewrite vm_word by (cbv; split; congruence). done.
    + exists 0x3000, 0x4007. split; [reflexivity|]. rewrite vm_word by (cbv; split; congruence). done.
  - intros f l p i e v r Hf Hi He Hne _ _ _. destruct (vm_entry f l p i e Hf Hi He Hne) as (_ & _ & Hin).
    assert (e_rights e = mkR true true true) as ->.
    { repeat (apply elem_of_cons in Hin as [[= -> -> ->]|Hin]; [reflexivity|]). destruct (not_elem_of_nil _ Hin). }
    clear. destruct r as [? [[] [] []]]; split_and!; reflexivity.
Qed.

Lemma vm_paging : paging_inv vm_gst root_at vm_tables.
Proof.
  split; [exact vm_tree|exact (machine_pmm _)|]. intros f x Hf. apply machine_used; apply vm_tables_inv in Hf.
  - destruct Hf as [[-> _]|[[-> _]|[[-> _]|[-> _]]]]; reflexivity.
  - unfold pool_at. lia.
Qed.

Lemma vm_resident : resident vm_gst root_at vm_tables 0x5000 0x5000.
Proof.
  split.
  - exists (mkR true true true). unfold translate, walk, slot.
    change (idx 3 (vpn 0x5000)) with 0. change (idx 2 (vpn 0x5000)) with 0. change (idx 1 (vpn 0x5000)) with 0. change (idx 0 (vpn 0x5000)) with 5.
    change (root_at + 8 * 0) with 0x1000. rewrite vm_word by lia. change (entry_at 0x1000) with 0x2007. cbn [mbind option_bind].
    change (Z.testbit 0x2007 0) with true. change (Z.testbit 0x2007 7) with false. change (mask 0x2007 + 8 * 0) with 0x2000. cbn [negb].
    rewrite vm_word by lia. change (entry_at 0x2000) with 0x3007. cbn [mbind option_bind].
    change (Z.testbit 0x3007 0) with true. change (Z.testbit 0x3007 7) with false. change (mask 0x3007 + 8 * 0) with 0x3000. cbn [negb].
    rewrite vm_word by lia. change (entry_at 0x3000) with 0x4007. cbn [mbind option_bind].
    change (Z.testbit 0x4007 0) with true. change (Z.testbit 0x4007 7) with false. change (mask 0x4007 + 8 * 5) with 0x4028. cbn [negb].
    rewrite vm_word by lia. reflexivity.
  - apply machine_used; [reflexivity|unfold pool_at; lia].
  - reflexivity.
  - lia.
  - intros j Hj. rewrite vm_word by lia. done.
Qed.

(** ** The swap device *)

Definition swap_at : Z := 0x20000.
Definition swap_first : Z := swap_at + SIZEOF_SWAP_HEADER.
Definition vm_header : swap_header := mkSwapHdr SWAP_HEADER_MAGIC ∅ (mkList swap_first swap_first 1) 0x10000 0x8000.
Definition vm_sst : sst :=
  mkSst vm_gst (tabulate swap_at 0x10000 (λ a, if a =? swap_first then 0x8000 else 0)) {[ swap_at := vm_header ]} {[ 1 := mkSwapDev true swap_at ]}.

Lemma vm_mem a : swap_at <= a < swap_at + 0x10000 → swap_mem vm_sst !! a = Some (if a =? swap_first then 0x8000 else 0).
Proof. intros Ha. apply tabulate_lookup. lia. Qed.
Lemma vm_first : swap_mem vm_sst !! swap_first = Some 0x8000.
Proof. rewrite vm_mem by (unfold swap_first, swap_at, SIZEOF_SWAP_HEADER; lia). done. Qed.

Lemma vm_swap : isw_inv vm_sst 1.
Proof.
  exists swap_at, swap_first, 0x8000, vm_header, ∅. split; [|split; [discriminate|reflexivity]]. split.
  - discriminate.
  - reflexivity.
  - split; [discriminate|]. split; reflexivity.
  - exists IRQL_PASSIVE. split; [exact demo_io_quiet|]. change (kirq vm_sst) with (irq demo_io). vm_compute. reflexivity.
  - split; [reflexivity|]. split; [reflexivity|exact vm_first].
  - split; [discriminate|]. split; reflexivity.
  - intros j Hj. rewrite vm_mem by (unfold swap_first, swap_at, SIZEOF_SWAP_HEADER; lia). eexists. reflexivity.
  - split; [intros b d Hb|intros b c d e _ Hb]; rewrite lookup_empty in Hb; discriminate.
  - intros b []%not_elem_of_empty.
  - left. reflexivity.
Qed.
Lemma vm_room : isw_room vm_sst 1.
Proof. exists vm_header, 0x8000. split; [reflexivity|]. split; [exact vm_first|simpl; lia]. Qed.

(** ** The page *)

Definition page_demo : page :=
  mkPage 0x70 0 0 false (mkProt true true true true false true false false) 0 true false false true false 0 0x5000 0 0 0.
Definition ctx_demo : context := mkCtx 0x90 {[ 0x5000 := 0x60 ]} empty_list 0x100000 0 empty_list root_at (mkStat 0 0 0 0 0).
Definition vm_demo : vmst := mkVm vm_sst {[ 0x60 := page_demo ]} {[ 0x60 := unlinked ]} {[ 0x70 := ctx_demo ]} 1 ∅ ∅ ∅ ∅ ∅.

Lemma vm_swappable : swappable vm_demo 0x60 page_demo ctx_demo vm_tables.
Proof. split; [reflexivity|done|reflexivity|reflexivity|reflexivity|reflexivity|reflexivity|done|exact vm_paging|reflexivity|reflexivity|exact vm_swap]. Qed.

Lemma swap_roundtrip_witness :
  ∃ s1 id s2 phys', Mm_SwapOut 0x60 vm_demo = Ret OBOS_STATUS_SUCCESS s1 ∧ swapped_out vm_demo 0x60 page_demo (c_pt ctx_demo) 0x5000 id s1 ∧
    Mm_SwapIn 0x60 s1 = Ret OBOS_STATUS_SUCCESS s2 ∧
    vpages s2 = <[0x60 := page_demo <| prot ::= λ q, q <| present := true |> |> <| swapId := id |> <| pagedOut := false |>]> (vpages vm_demo) ∧
    translate (sg (vs s2)) (c_pt ctx_demo) (vpn (pg_addr page_demo)) = Some (phys', false, prot_rights (prot page_demo)) ∧
    (∀ j, 0 <= j < 512 → words (sg (vs s2)) !! (phys' + 8 * j) = words (sg (vs vm_demo)) !! (0x5000 + 8 * j)) ∧
    (∀ u, 0 <= u < 2 ^ 36 → u ≠ vpn (pg_addr page_demo) → translate (sg (vs s2)) (c_pt ctx_demo) u = translate (sg (vs vm_demo)) (c_pt ctx_demo) u) ∧
    coherent (sg (vs s2)) (c_pt ctx_demo) ∧
    ∀ b, sl_block (vs vm_demo) (Mm_SwapProvider vm_demo) b → sl_block (vs s2) (Mm_SwapProvider vm_demo) b ∧ ∀ j, 0 <= j < 512 → sl_data (vs s2) (Mm_SwapProvider vm_demo) b j = sl_data (vs vm_demo) (Mm_SwapProvider vm_demo) b j.
Proof.
  apply (swap_roundtrip vm_demo 0x60 page_demo ctx_demo vm_tables 0x5000).
  - exact vm_swappable.
  - exact vm_resident.
  - reflexivity.
  - exact (vm_word 0x5008 ltac:(lia)).
  - exact vm_room.
  - apply (machine_left entry_at). lia.
  - reflexivity.
  - intros _ v c Hv. done.
Defined.

(** ** Faults *)

#[local] Instance files_demo : FileLayer :=
  {| cache_entry _ _ _ := mret 0; dirty_append _ _ _ := mret (); phys_mem_node t := t; Mm_KernelContext := 0x70 |}.

Lemma vm_ctx_ready : ctx_ready vm_demo 0x70 IRQL_PASSIVE.
Proof. split; [exact demo_io_quiet|]. change (virq vm_demo) with (irq demo_io). vm_compute. reflexivity. Qed.

(** A write in user mode to a page of the kernel. *)
Definition kernel_page : page := page_demo <| prot := mkProt true true false true false true false false |>.
Definition vm_kernel : vmst := vm_demo <| vpages := {[ 0x60 := kernel_page ]} |>.
Lemma page_fault_refused_witness : Mm_HandlePageFault 0 0x70 0x5000 6 vm_kernel = Ret OBOS_STATUS_UNHANDLED vm_kernel.
Proof.
  apply (page_fault_refused 0 vm_kernel 0x70 ctx_demo IRQL_PASSIVE 0x5000 6); [discriminate|exact vm_ctx_ready|reflexivity|].
  intros p Hp. cbn [c_pages ctx_demo] in Hp. rewrite lookup_singleton_eq in Hp. injection Hp as <-. exists kernel_page. split; reflexivity.
Defined.

(** The page is swapped out, and then written to. *)
Lemma vm_paged_out :
  ∃ s1 id T1, Mm_SwapOut 0x60 vm_demo = Ret OBOS_STATUS_SUCCESS s1 ∧ paged_out_page s1 0x70 0x5000 0x60 (paged_out id page_demo) ctx_demo T1 ∧
    frames_left 4 (sg (vs s1)) ∧ efer_nxe (sg (vs s1)) = true ∧ coherent (sg (vs s1)) root_at ∧
    mk (pm (sg (vs s1))) = demo_io ∧ ctxs s1 = ctxs vm_demo ∧ ln_links s1 = ln_links vm_demo.
Proof.
  destruct (swap_out_run vm_demo 0x60 page_demo ctx_demo vm_tables 0x5000 vm_swappable vm_resident eq_refl (vm_word 0x5008 ltac:(lia)) vm_room)
    as (s1 & id & E & [St R K [T1 I1] Pg Ot Co Fd Fr Sv Sb Sd Sbs]).
  assert (Mm_SwapProvider s1 = 1 ∧ ctxs s1 = ctxs vm_demo ∧ vpages s1 = <[0x60 := paged_out id page_demo]> (vpages vm_demo) ∧
    ln_links s1 = ln_links vm_demo) as (Ed & Ec & Ev & El) by (rewrite St; repeat split).
  exists s1, id, T1. split; [exact E|]. split.
  { split; rewrite ?Ed; [|split; [discriminate|reflexivity]|split; reflexivity|split; reflexivity|exact Sb|exact Pg|repeat split].
    split; rewrite ?Ed, ?Ec, ?Ev; [apply lookup_insert_eq|discriminate|reflexivity|reflexivity|reflexivity|reflexivity|rewrite R; reflexivity
      |discriminate|exact I1|reflexivity|reflexivity|exact Sv]. }
  split.
  { destruct (machine_left entry_at 3) as (fs & Hnd & Hlen & Hall); [lia|]. exists (0x5000 :: fs). split; [|split; [simpl; lia|]].
    - constructor; [|exact Hnd]. intros Hin. rewrite Forall_forall in Hall. eapply (fr_disj vm_gst 0x5000); [apply vm_paging|apply vm_resident|by apply Hall].
    - constructor; [exact Fd|]. eapply Forall_impl; [exact Hall|]. exact Fr. }
  split; [rewrite R; reflexivity|]. split; [apply Co; intros _ v c Hv; cbn in Hv; discriminate|]. split; [exact K|]. split; [exact Ec|exact El].
Qed.

Lemma demand_paging_witness :
  ∃ s1 id, Mm_SwapOut 0x60 vm_demo = Ret OBOS_STATUS_SUCCESS s1 ∧
  ∃ s' phys c' T', Mm_HandlePageFault 0 0x70 0x5000 6 s1 = Ret OBOS_STATUS_SUCCESS s' ∧
    translate (sg (vs s')) (c_pt ctx_demo) (vpn 0x5000) = Some (phys, false, prot_rights (prot (paged_out id page_demo))) ∧
    (∀ j, 0 <= j < 512 → words (sg (vs s')) !! (phys + 8 * j) = sl_data (vs s1) (Mm_SwapProvider s1) (swapId (paged_out id page_demo)) j) ∧
    (∀ u, 0 <= u < 2 ^ 36 → u ≠ vpn 0x5000 → translate (sg (vs s')) (c_pt ctx_demo) u = translate (sg (vs s1)) (c_pt ctx_demo) u) ∧
    coherent (sg (vs s')) (c_pt ctx_demo) ∧ paging_inv (sg (vs s')) (c_pt ctx_demo) T' ∧ sl_inv (vs s') (Mm_SwapProvider s1) ∧
    vpages s' = <[0x60 := brought_in 0x60 (paged_in (paged_out id page_demo))]> (vpages s1) ∧
    ctxs s' !! 0x70 = Some c' ∧ dl_rep (ln_links s') (referenced c') [0x60] ∧ mk (pm (sg (vs s'))) = mk (pm (sg (vs s1))) ∧
    ∀ b, sl_block (vs s1) (Mm_SwapProvider s1) b → b ≠ swapId (paged_out id page_demo) → sl_block (vs s') (Mm_SwapProvider s1) b ∧
      ∀ j, 0 <= j < 512 → sl_data (vs s') (Mm_SwapProvider s1) b j = sl_data (vs s1) (Mm_SwapProvider s1) b j.
Proof.
  destruct vm_paged_out as (s1 & id & T1 & E & Hpo & Hleft & Hnx & Hco & Hmk & Hc & Hl). exists s1, id. split; [exact E|].
  apply (demand_paging 0 s1 0x70 0x5000 6 0x60 (paged_out id page_demo) ctx_demo T1 IRQL_PASSIVE []).
  - exact Hpo.
  - unfold ctx_ready, virq, kirq, girq. rewrite Hmk. exact vm_ctx_ready.
  - exact Hleft.
  - exact Hnx.
  - reflexivity.
  - reflexivity.
  - exact Hco.
  - rewrite Hc. eexists. reflexivity.
  - split; [rewrite Hc; reflexivity|]. split; [rewrite Hl; apply dl_rep_empty|]. split; reflexivity.
  - apply not_elem_of_nil.
  - rewrite Hl. eexists. reflexivity.
Defined.

(** A buffer of 2 MiB and a little. *)
Definition empty_sst : sst := mkSst vm_gst (tabulate swap_at 0x201000 (λ _, 0)) ∅ {[ 1 := mkSwapDev false 0 ]}.
Lemma swap_established_witness :
  ∃ s', Arch_InitializeInitialSwapDevice 1 swap_at 0x200100 empty_sst = Ret OBOS_STATUS_SUCCESS s' ∧
    isw_inv s' 1 ∧ isw_room s' 1 ∧ (∀ b, ¬ isw_block s' 1 b) ∧ ∀ s2, rtc (swap_step 1) s' s2 → isw_inv s2 1.
Proof.
  apply (initial_swap_established empty_sst 1 swap_at 0x200100 IRQL_PASSIVE); [done|done|unfold swap_at; lia|reflexivity| |unfold swap_at; lia| |].
  - unfold SIZEOF_SWAP_HEADER, OBOS_HUGE_PAGE_SIZE. lia.
  - intros j Hj. unfold empty_sst, SIZEOF_SWAP_HEADER in *. cbn [swap_mem]. rewrite tabulate_lookup by (unfold swap_at; lia). done.
  - exact demo_io_quiet.
Defined.

(** ** Ranges *)

(** A heap that hands out addresses not in use. *)
#[local] Instance heap_demo : VmHeap := {|
  zero_page st := λ s, let p := fresh ({[ 0 ]} ∪ dom (vpages s)) in
    Ret (p, OBOS_STATUS_SUCCESS) (s <| vpages ::= <[p := empty_page]> |> <| ln_links ::= <[p := unlinked]> |>);
  zero_region := mret 0;
  zero_array n st := mret (8, OBOS_STATUS_SUCCESS);
  free_page _ := mret ();
  free_region _ := mret ();
  free_array _ _ := mret ()
|}.
#[local] Instance heap_demo_laws : HeapLaws.
Proof.
  split.
  - intros st s. exists (fresh ({[ 0 ]} ∪ dom (vpages s))). split; [reflexivity|].
    pose proof (is_fresh ({[ 0 ]} ∪ dom (vpages s))) as Hf. apply not_elem_of_union in Hf as [H0 Hd]. split; [set_solver|]. by apply not_elem_of_dom.
  - intros n st s. exists 8. split; [reflexivity|discriminate].
  - reflexivity.
Defined.

Lemma vm_small : small_pages vm_demo ctx_demo.
Proof.
  intros a p Hp. cbn [c_pages ctx_demo] in Hp. apply lookup_singleton_Some in Hp as [<- <-].
  split; [discriminate|]. split; [lia|]. split; [reflexivity|]. exists page_demo. split; [reflexivity|]. split; reflexivity.
Qed.

Lemma find_available_witness :
  ∃ a, MmH_FindAvailableAddress 0x70 0x3800 0 (Some OBOS_STATUS_SUCCESS) vm_demo = Ret (a, Some OBOS_STATUS_SUCCESS) vm_demo ∧ a mod 4096 = 0 ∧
    0x1000 <= a < 0x7FFFFFFFFFFF + 4096 ∧
    (a + 0x3000 <= 0x7FFFFFFFFFFF → ∀ b p, c_pages ctx_demo !! b = Some p → b < a ∨ a + 0x3000 <= b).
Proof.
  apply (find_available_free vm_demo 0x70 ctx_demo (mkProc 5 0x70) 0x3800 0 (Some OBOS_STATUS_SUCCESS) 0x1000 0x7FFFFFFFFFFF);
    [discriminate|reflexivity| |reflexivity|exact vm_small|lia].
  change (mk (pm (sg (vs vm_demo)))) with demo_io. reflexivity.
Defined.

(** Two pages, of which the second is not there. *)
Lemma incomplete_range_witness :
  Mm_VirtualMemoryFree 0x70 0x5000 0x1800 vm_demo = Ret OBOS_STATUS_NOT_FOUND vm_demo ∧
  Mm_VirtualMemoryProtect 0x70 0x5000 0x1800 OBOS_PROTECTION_READ_ONLY 1 vm_demo = Ret OBOS_STATUS_NOT_FOUND vm_demo.
Proof.
  apply (incomplete_range_refused vm_demo 0x70 ctx_demo IRQL_PASSIVE 0x5000 0x1800 OBOS_PROTECTION_READ_ONLY 1 1);
    [discriminate|exact vm_ctx_ready|reflexivity|exact vm_small|reflexivity|lia|lia|vm_compute; reflexivity|split; vm_compute; congruence|reflexivity|lia].
Defined.

Lemma alloc_in_use_witness :
  Mm_VirtualMemoryAlloc 0x70 0x4000 0x1000 0 VMA_FLAGS_GUARD_PAGE nullptr (Some OBOS_STATUS_SUCCESS) vm_demo = Ret (nullptr, Some OBOS_STATUS_IN_USE) vm_demo.
Proof.
  apply (alloc_in_use_refused vm_demo 0x70 ctx_demo IRQL_PASSIVE 0x4000 0x1000 0 VMA_FLAGS_GUARD_PAGE nullptr (Some OBOS_STATUS_SUCCESS) 2);
    [discriminate|exact vm_ctx_ready|reflexivity|exact vm_small|split; [reflexivity|by left]|reflexivity|reflexivity|lia|lia|reflexivity|lia|].
  exists 1, 0x60, page_demo. split; [lia|]. repeat split.
Defined.

(** With a guard page, and a file that is not looked at. *)
Lemma reserve_range_witness :
  let flags := Z.lor VMA_FLAGS_RESERVE VMA_FLAGS_GUARD_PAGE in
  ∃ s1 c1, pages_reserved vm_demo 0x70 ctx_demo 0x6000 0x6000 3 OBOS_PROTECTION_READ_ONLY flags s1 c1 ∧ small_pages s1 c1 ∧
    Mm_VirtualMemoryAlloc 0x70 0x6000 0x1001 OBOS_PROTECTION_READ_ONLY flags 5 (Some OBOS_STATUS_SUCCESS) vm_demo =
      Ret (0x7000, Some OBOS_STATUS_SUCCESS) (s1 <| ctxs ::= <[0x70 := count_reserved (4096 * Z.of_nat 3) c1]> |>).
Proof.
  apply (reserve_range vm_demo 0x70 ctx_demo IRQL_PASSIVE 0x6000 0x1001 OBOS_PROTECTION_READ_ONLY (Z.lor VMA_FLAGS_RESERVE VMA_FLAGS_GUARD_PAGE) 5 (Some OBOS_STATUS_SUCCESS) 3);
    [discriminate|exact vm_ctx_ready|reflexivity|exact vm_small|repeat split|reflexivity|lia|lia|reflexivity|lia|].
  intros i Hi. cbn [c_pages ctx_demo]. apply lookup_singleton_ne. lia.
Defined.
